(* ===== verification/_CoqProject ===== *)
-Q . S2P
Prelude.v
Memory.v
Memlib.v
Allocator.v
MMExplicit.v
FreeList.v
MMExplicitInv.v
MMExplicitProofs.v
MMExplicitFree.v
MMExplicitSpec.v
MMImplicit.v
MMImplicitSpec.v
Mdriver.v
MdriverProofs.v
MdriverSpec.v
ReadClass.v
Jvm.v
JvmSem.v
JvmRefine.v
JvmStep.v
ReadClassSpec.v
JvmSpec.v
Ast.v
Parser.v
ParserTotal.v
ParserRoundtrip.v
ParserWf.v
Compile.v
X86.v
CompileExpr.v
CompileStmt.v
CompileSim.v
CompileFold.v
BasicSpec.v
DirectoryTree.v
DirectoryTreeProofs.v
Fat16.v
Fat16Spec.v
MyAsan.v
MyAsanProofs.v
MyAsanSpec.v
Queue.v
QueueProofs.v
ThreadPool.v
ThreadPoolProofs.v
ThreadPoolSpec.v
PasswordCracker.v
PasswordCrackerSpec.v
Vm.v
VmProofs.v
VmBoot.v
Lib.v
LibProofs.v
Printer.v
PrinterProofs.v
PrinterStrings.v
ConsoleProofs.v
LibSpec.v
VmIter.v
VmIterProofs.v
KernelState.v
MemViewer.v
Kernel.v
KernelBoot.v
KernelProofs.v
MemUsageProofs.v
ViewerProofs.v
MemShowProofs.v
KernelSteps.v
KernelInit.v
KernelSpec.v
ViewerSpec.v
Hardware.v
HardwareSpec.v
Boot.v
BootSpec.v
Trace.v
Fcyc.v
Meltdown.v
