(* ===== verification/Prelude.v ===== *)
(** * Computer-Systems: a verification of its programs

    The repository is a collection of C programs around one theme, how
    software sits on the machine: memory allocators with their test driver
    (malloc/), a Java virtual machine (java-virtual-machine/), a compiler from
    TeenyBASIC to x86-64 assembly (assembly-compiler/), a recovery tool for
    FAT16 disks (file-directory-tree/), an address sanitizer on page
    protection (signal-handler/), a thread pool with a password cracker
    (threadpool/), a small operating system (mini-operating-system/), and
    programs that read memory through the cache (meltdown/).
    The programs do not call each other; inside each, the components do, and
    the files below follow those calls.  Paths are relative to src/.

    ** How C is modelled

    This file and [Memory] are the common vocabulary.  A C function is a
    computation in the monad [M S]: explicit state, and as outcome a value or a
    [fault]: an access outside mapped memory, a failed assertion, exit(),
    undefined behaviour, or an exhausted loop bound.  A theorem that a call
    returns [Ok] therefore says that it does none of these.  Integers are [Z]
    with the wrap-around of their type written out ([u8] ... [s64]); memory is a
    map from addresses to bytes with little-endian words on top.  Loops whose
    bound is not syntactic take fuel or run under [iter_pow], which allows
    2^k iterations at no cost; the theorems prove that the bound is enough
    instead of assuming it.  Library and system calls that the sources only
    use (random(), crypt_r(), mmap(), the linker's addresses) are arguments, and
    so are the answers of the hardware (the disk controller, a class with laws;
    cycle counters; durations of reads).

    ** Files

    malloc.  [Memlib] is memlib.c, one region with a break pointer;
    [MMExplicit] is mm-explicit.c and [MMImplicit] is mm-implicit.c, one
    definition per function; [FreeList] and [MMExplicitInv] state the invariant
    of the explicit allocator (blocks tile the heap, headers match footers, the
    doubly linked list enumerates the free blocks), [MMExplicitProofs] and
    [MMExplicitFree] show that every function preserves it.  [Allocator] is the
    contract between allocators and their client as a class, discharged in
    [MMExplicitSpec]; [Mdriver] is the driver mdriver.c, and [MdriverProofs]
    verifies it against the class alone.  The theorems are in
    [MMExplicitSpec] (malloc, free, realloc, calloc, init, first fit, and a run
    with a request of zero bytes, which corrupts the heap), [MMImplicitSpec] (coalescing is
    equivalent to a function on lists; the first allocation faults),
    [MdriverSpec] (no false alarms; the exact condition of add_range()) and
    [Trace] (read_trace() with fscanf(): what it reads is what a printer of
    traces wrote, and it ends on every file; its bound is the length of the
    file).  [Fcyc] is the timing of the driver, fcyc.c with the cycle counter of
    clock.c and fsecs.c, on IEEE doubles: it ends within the limit and returns
    the smallest sample, and its array holds the K best.

    Java virtual machine.  [ReadClass] is read_class.c, [Jvm] is jvm.c and
    heap.c.  [JvmSem] is an independent semantics of the bytecode; [JvmRefine]
    and [JvmStep] prove a simulation.  [ReadClassSpec] has a printer of class
    files.  [JvmSpec]: the interpreter refines the semantics, class files are
    read back, the whole program prints what the semantics prints, index -1 of
    an array reads its length.

    TeenyBASIC.  [Ast] is ast.c, [Parser] is parser.c, [Compile] is compile.c
    and compiler.c, [X86] the target machine and the meaning of programs.
    [ParserTotal], [ParserWf], [ParserRoundtrip]: the parser
    terminates within the bound it is given (one more than the length of the
    input), builds well-formed trees, and inverts a printer.  [CompileExpr],
    [CompileStmt], [CompileSim], [CompileFold]: the code simulates the program.
    [BasicSpec]: compiler correctness, labels, and the programs that constant
    folding miscompiles.

    FAT16 recovery.  [DirectoryTree] is directory_tree.c and the program
    test_tree.c, [Fat16] is fat16.c and recover.c; [DirectoryTreeProofs] and
    [Fat16Spec] show that the children stay sorted, that the search is right,
    that the created files are those of the tree, that short names decode,
    that recovery rebuilds the tree of a volume, and that test_tree builds
    exactly the files of its input or aborts.  What a volume stores is stated
    on the bytes of the image, from the layout of FAT16; like the code, which
    never reads the allocation table, it takes every file to lie in one piece.

    Address sanitizer.  [MyAsan] is myasan.c and util.c with mprotect() and
    the signal handler; [MyAsanProofs] has the page discipline, [MyAsanSpec] the
    refinement of whole client programs.

    Thread pool.  [Queue] is queue.c, [ThreadPool] is thread_pool.c as a step
    relation in which every assignment of a critical section is a step of its
    own; [QueueProofs] and [ThreadPoolProofs] have the representation, the
    invariant and the termination measure;
    [ThreadPoolSpec]: FIFO order, mutual exclusion, every function called
    once, no deadlock and a bound on the number of steps.  [PasswordCracker]
    is password_cracker.c; [PasswordCrackerSpec]: with the memory that it asks
    for it overruns its first password, on every input with hashes in their
    format, and the workers print the matches among whatever they are given.

    Mini operating system, memory and library.  [Vm] is kalloc() of kernel.c
    and util.c over physical memory, [VmIter] is k-vmiter.cc; [VmProofs]
    describes page tables as trees and address spaces, [VmIterProofs] the
    walks of vmiter and ptiter, [VmBoot] the loops that fill tables and
    first-fit allocation below the kernel.  [Lib] is lib.cc (memory, strings,
    numerals, random numbers), [Printer] its printf() with the string and
    console printers; [LibProofs], [PrinterProofs], [PrinterStrings] and
    [ConsoleProofs] relate them to what they should compute, and [LibSpec] has
    the theorems: printf() on the console refines a screen of rows, snprintf()
    writes the formatted text and stays in its buffer, numbers are read back,
    memmove() and the string functions are right.

    Mini operating system, kernel.  [KernelState] is the state, [Kernel] is
    kernel.c (processes, system calls, exceptions, scheduling, loading) with the
    page table of k-hardware.cc, [MemViewer] is k-memviewer.cc and memshow().
    [KernelBoot] is process_setup(), with the address space of a process entry
    by entry; [KernelProofs] the isolation invariant; [MemUsageProofs],
    [ViewerProofs] and [MemShowProofs] the symbols and the pictures of memory;
    [KernelSteps] the steps of the kernel (system calls, exceptions, timer,
    scheduling, arbitrary stores of user code), which preserve the invariant;
    [KernelInit] the boot, which establishes it.  The assembly of k-exception.S
    enters and leaves the kernel on the page table of the process: [step] has
    the handlers run only while the process sees the kernel's image and stack
    where the kernel has them ([sees_kernel]), and lets anything happen
    otherwise; [handler_step] is what the C code does once it runs.
    [KernelSpec]: the kernel boots programs that fit and stays isolated as long
    as no process asks page_alloc for a page of the kernel, which the kernel
    does not check; the effect of memory_map() and of sys_page_alloc(),
    round-robin fairness.  [ViewerSpec]: what memshow() draws,
    the pages ptiter visits, the permissions of a range.  The fuel of the
    kernel's loops is the number of pages they visit, and 16 for schedule(),
    which spins for ever when 16 turns find nothing.

    Mini operating system, hardware and boot.  [Hardware] is the keyboard, the
    descriptors and the symbol lookup of k-hardware.cc and the PCI search of
    k-pci.hh; [HardwareSpec]: the keyboard types the US layout, the descriptors
    mean to the processor what the kernel wants, the lookup finds the symbol of
    an address, the search finds the first device.  [Boot] is the boot loader
    boot.cc over a class of disk controllers, in memory as bootentry.S maps it
    (a store beyond the first gigabyte faults, and so does one to the loader's
    own code, stack or page table), and program_image of
    k-hardware.cc, which reads ELF files; [BootSpec]: the loader loads the
    kernel and touches nothing else, and a program image is the loadable
    segments of its file, the value that [Kernel] takes.  Their loops may run
    2^64 times, and the theorems prove that they end.

    Meltdown.  [Meltdown] has the five programs over a cache that is a set of
    pages: what exploit.c prints is the secret, whatever the timing of hits, and
    it ends if undisturbed attempts keep occurring.

    Every numbered theorem with hypotheses has a witness that applies it to a
    concrete input.

    ** Not modelled

    The runtime of TeenyBASIC (timing and number printing in assembly, a
    parameter of [X86]); the calibrated counters of clock.c (an argument of
    [Fcyc]) and ftimer.c, which config.h compiles out; the options and tables of
    the malloc driver; the messages and backtraces of the sanitizer; of the
    operating system the instructions of k-exception.S and bootentry.S (what
    they need of memory is modelled, see [KernelSteps] and [Boot]; not the order
    in which they save registers or switch modes), the interrupt controllers,
    the parallel port log, backtraces and panics, the restart by a key, the
    build tools, which run on the host, and the user programs (their stores and
    calls are arbitrary); the
    word list of the cracker (an argument); the tests; functions that only
    release memory. *)
From stdpp Require Import prelude gmap list.
From Stdlib Require Import ZArith Lia Zquot.
Open Scope Z_scope.

(** ** Outcomes of C code *)

(** How a run of C code can end without returning a value. *)
Inductive fault :=
  | Segv (addr : Z)      (* access outside every mapped region *)
  | AssertFail           (* a failed assert() *)
  | Exit (code : Z)      (* exit() / _exit() *)
  | UB                   (* undefined behaviour of the C abstract machine *)
  | OutOfFuel.           (* the loop bound of the model was exhausted *)

Inductive res (A : Type) :=
  | Ok (a : A)
  | Err (f : fault).
Arguments Ok {A} a.
Arguments Err {A} f.

#[export] Instance fault_eq_dec : EqDecision fault.
Proof. solve_decision. Defined.

(** State-passing computations that may fault. *)
Definition M (S A : Type) := S -> res (A * S).

Declare Scope c_scope.
Delimit Scope c_scope with c.

Definition ret {S A} (a : A) : M S A := fun s => Ok (a, s).
Definition bind {S A B} (m : M S A) (k : A -> M S B) : M S B :=
  fun s => match m s with
           | Ok (a, s') => k a s'
           | Err f => Err f
           end.
Definition fail {S A} (f : fault) : M S A := fun _ => Err f.
Definition get {S} : M S S := fun s => Ok (s, s).
Definition gets {S A} (f : S -> A) : M S A := fun s => Ok (f s, s).
Definition modify {S} (f : S -> S) : M S unit := fun s => Ok (tt, f s).
Definition lift {S A} (r : res A) : M S A :=
  fun s => match r with Ok a => Ok (a, s) | Err f => Err f end.

Notation "x <- m ;; k" := (bind m (fun x => k))
  (at level 20, m at level 99, k at level 200, right associativity) : c_scope.
Notation "' p <- m ;; k" := (bind m (fun x => match x with p => k end))
  (at level 20, p pattern, m at level 99, k at level 200, right associativity) : c_scope.
Notation "m ;;; k" := (bind m (fun _ => k))
  (at level 100, k at level 200, right associativity) : c_scope.

(** Equations that run a computation step by step. *)
Lemma bind_bind {S A B C} (m : M S A) (k : A -> M S B) (k' : B -> M S C) s :
  bind (bind m k) k' s = bind m (fun a => bind (k a) k') s.
Proof. unfold bind. by destruct (m s) as [[a s']|f]. Qed.

Lemma bind_ret {S A B} (a : A) (k : A -> M S B) s : bind (ret a) k s = k a s.
Proof. done. Qed.

Lemma bind_gets {S A B} (f : S -> A) (k : A -> M S B) s : bind (gets f) k s = k (f s) s.
Proof. done. Qed.

Lemma bind_ok {S A B} (m : M S A) (k : A -> M S B) s a s' :
  m s = Ok (a, s') -> bind m k s = k a s'.
Proof. intros E. unfold bind. by rewrite E. Qed.

Lemma bind_err {S A B} (m : M S A) (k : A -> M S B) s f :
  m s = Err f -> bind m k s = Err f.
Proof. intros E. unfold bind. by rewrite E. Qed.

(** assert(b) *)
Definition c_assert {S} (b : bool) : M S unit :=
  if b then ret tt else fail AssertFail.

(** Composition of plain results. *)
Definition rbind {A B} (r : res A) (k : A -> res B) : res B :=
  match r with Ok a => k a | Err f => Err f end.
Notation "x <-! r ;; k" := (rbind r (fun x => k))
  (at level 20, r at level 99, k at level 200, right associativity) : c_scope.
Notation "' p <-! r ;; k" := (rbind r (fun x => match x with p => k end))
  (at level 20, p pattern, r at level 99, k at level 200, right associativity) : c_scope.

(** ** Machine integers *)

(** Conversion to an unsigned and to a signed [w]-bit type. *)
Definition wrapU (w x : Z) : Z := x mod 2 ^ w.
Definition wrapS (w x : Z) : Z := (x + 2 ^ (w - 1)) mod 2 ^ w - 2 ^ (w - 1).

Abbreviation u8 := (wrapU 8).
Abbreviation u16 := (wrapU 16).
Abbreviation u32 := (wrapU 32).
Abbreviation u64 := (wrapU 64).
Abbreviation s8 := (wrapS 8).
Abbreviation s16 := (wrapS 16).
Abbreviation s32 := (wrapS 32).
Abbreviation s64 := (wrapS 64).

Definition b2z (b : bool) : Z := if b then 1 else 0.

Lemma wrapU_range w x : 0 <= w -> 0 <= wrapU w x < 2 ^ w.
Proof. intros. apply Z.mod_pos_bound. lia. Qed.

Lemma wrapU_small w x : 0 <= x < 2 ^ w -> wrapU w x = x.
Proof. apply Z.mod_small. Qed.

Lemma wrapU_idem w x : wrapU w (wrapU w x) = wrapU w x.
Proof. apply Zmod_mod. Qed.

Lemma wrapS_range w x : 0 < w -> - 2 ^ (w - 1) <= wrapS w x < 2 ^ (w - 1).
Proof.
  intros. unfold wrapS.
  assert (2 ^ w = 2 * 2 ^ (w - 1)) by (rewrite <- Z.pow_succ_r; [f_equal|]; lia).
  pose proof (Z.mod_pos_bound (x + 2 ^ (w - 1)) (2 ^ w)). lia.
Qed.

Lemma wrapS_small w x : 0 < w -> - 2 ^ (w - 1) <= x < 2 ^ (w - 1) -> wrapS w x = x.
Proof.
  intros Hw Hx. unfold wrapS.
  assert (2 ^ w = 2 * 2 ^ (w - 1)) by (rewrite <- Z.pow_succ_r; [f_equal|]; lia).
  rewrite Z.mod_small; lia.
Qed.

Lemma wrapS_eqm w x : 0 < w -> (wrapS w x) mod 2 ^ w = x mod 2 ^ w.
Proof.
  intros. unfold wrapS.
  rewrite Zminus_mod_idemp_l. f_equal. lia.
Qed.

Lemma of_nat_ltb_0 n : (Z.of_nat n <? 0) = false.
Proof. apply Z.ltb_ge. lia. Qed.

(** Two integers that agree modulo [2^w] have the same signed representation. *)
Lemma wrapS_congr w x y : x mod 2 ^ w = y mod 2 ^ w -> wrapS w x = wrapS w y.
Proof.
  intros E. unfold wrapS. f_equal.
  rewrite <- Zplus_mod_idemp_l, E, Zplus_mod_idemp_l. reflexivity.
Qed.

(** ** Bounded loops *)

(** [iter_pow k body s] runs [body] at most [2^k] times, until it answers
    [inr].  The doubling recursion makes a bound of [2^64] iterations free to
    state: a C loop that visits distinct 64-bit addresses never exceeds it. *)
Fixpoint iter_pow {S A} (k : nat) (body : S -> res (S + A)) (s : S) : res (S + A) :=
  match k with
  | O => body s
  | Datatypes.S k =>
      match iter_pow k body s with
      | Ok (inl s') => iter_pow k body s'
      | r => r
      end
  end.

Definition loop {S A} (body : S -> res (S + A)) (s : S) : res A :=
  match iter_pow 64 body s with
  | Ok (inl _) => Err OutOfFuel
  | Ok (inr a) => Ok a
  | Err f => Err f
  end.

(** A loop in the state monad over loop variables [L]. *)
Definition loopM {S L A} (body : L -> M S (L + A)) (l : L) : M S A :=
  fun s => loop (fun '(l, s) =>
                   match body l s with
                   | Ok (inl l', s') => Ok (inl (l', s'))
                   | Ok (inr a, s') => Ok (inr (a, s'))
                   | Err f => Err f
                   end) (l, s).

Section Loops.
Context {S A : Type} (body : S -> res (S + A)).

(** The unary reference iteration. *)
Fixpoint iter_nat (n : nat) (s : S) : res (S + A) :=
  match n with
  | O => Ok (inl s)
  | Datatypes.S n =>
      match body s with
      | Ok (inl s') => iter_nat n s'
      | r => r
      end
  end.

Lemma iter_nat_add n m s :
  iter_nat (n + m) s =
  match iter_nat n s with Ok (inl s') => iter_nat m s' | r => r end.
Proof.
  revert s. induction n as [|n IH]; intros s; simpl; [done|].
  destruct (body s) as [[s'|a]|f]; auto.
Qed.

Lemma iter_pow_nat k s : iter_pow k body s = iter_nat (2 ^ k) s.
Proof.
  revert s. induction k as [|k IH]; intros s; simpl.
  - destruct (body s) as [[s'|a]|f]; done.
  - rewrite Nat.add_0_r, iter_nat_add, <- IH.
    destruct (iter_pow k body s) as [[s'|a]|f]; auto.
Qed.

(** Total correctness: an invariant and a measure below [2^64] give
    termination within the bound and the postcondition. *)
Lemma loop_rule (I : S -> Prop) (Q : A -> Prop) (m : S -> nat) :
  (forall s, I s ->
     (exists s', body s = Ok (inl s') /\ I s' /\ (m s' < m s)%nat) \/
     (exists a, body s = Ok (inr a) /\ Q a)) ->
  forall s, I s -> Z.of_nat (m s) < 2 ^ 64 ->
  exists a, loop body s = Ok a /\ Q a.
Proof.
  intros Hstep s HI Hm.
  assert (Hn : forall n s, I s -> (m s < n)%nat ->
               exists a, iter_nat n s = Ok (inr a) /\ Q a).
  { induction n as [|n IH]; intros s0 H0 Hlt; [lia|]. simpl.
    destruct (Hstep s0 H0) as [(s' & -> & H' & Hd)|(a & -> & Ha)]; [|eauto].
    apply IH; [done|lia]. }
  destruct (Hn (2 ^ 64)%nat s HI) as (a & E & Ha).
  { apply Nat2Z.inj_lt. rewrite Nat2Z.inj_pow. simpl Z.of_nat. lia. }
  exists a. split; [|done]. unfold loop. by rewrite iter_pow_nat, E.
Qed.

(** The value of a loop that stops after [n] iterations. *)
Lemma loop_nat n s a :
  iter_nat n s = Ok (inr a) -> Z.of_nat n <= 2 ^ 64 -> loop body s = Ok a.
Proof.
  intros E Hn. unfold loop. rewrite iter_pow_nat.
  replace (2 ^ 64)%nat with (n + (2 ^ 64 - n))%nat; [by rewrite iter_nat_add, E|].
  apply Nat2Z.inj. rewrite Nat2Z.inj_add, Nat2Z.inj_sub, Nat2Z.inj_pow; [simpl Z.of_nat; lia|].
  apply Nat2Z.inj_le. rewrite Nat2Z.inj_pow. simpl Z.of_nat. lia.
Qed.

(** A loop that faults after [n] iterations. *)
Lemma loop_err n s f :
  iter_nat n s = Err f -> Z.of_nat n <= 2 ^ 64 -> loop body s = Err f.
Proof.
  intros E Hn. unfold loop. rewrite iter_pow_nat.
  replace (2 ^ 64)%nat with (n + (2 ^ 64 - n))%nat; [by rewrite iter_nat_add, E|].
  apply Nat2Z.inj. rewrite Nat2Z.inj_add, Nat2Z.inj_sub, Nat2Z.inj_pow; [simpl Z.of_nat; lia|].
  apply Nat2Z.inj_le. rewrite Nat2Z.inj_pow. simpl Z.of_nat. lia.
Qed.
End Loops.

(** ** Bits *)

(** A flag stored in the low bit of an even word. *)
Lemma lor_flag x b : x mod 2 = 0 -> Z.lor x (b2z b) = x + b2z b.
Proof.
  intros Hx. destruct b; [|by rewrite Z.lor_0_r, Z.add_0_r].
  symmetry. apply Z.add_nocarry_lor. simpl.
  change 1 with (Z.ones 1). rewrite Z.land_ones by lia. by rewrite Z.pow_1_r.
Qed.

Lemma land_1_mod x : Z.land x 1 = x mod 2.
Proof. change 1 with (Z.ones 1). by rewrite Z.land_ones. Qed.

Lemma flag_mod x b : x mod 2 = 0 -> (x + b2z b) mod 2 = b2z b.
Proof. intros Hx. rewrite Z.add_mod, Hx by lia. by destruct b. Qed.

(** Masking with [~1] on 64 bits clears the low bit. *)
Lemma land_not1 x : 0 <= x < 2 ^ 64 -> Z.land x (u64 (Z.lnot 1)) = x - x mod 2.
Proof.
  intros Hx. unfold wrapU. rewrite <- Z.land_ones by lia.
  rewrite (Z.land_comm (Z.lnot 1)), Z.land_assoc, (Z.land_ones x), Z.mod_small by lia.
  rewrite <- Z.ldiff_land. change 1 with (Z.ones 1).
  rewrite Z.ldiff_ones_r, Z.shiftl_mul_pow2, Z.shiftr_div_pow2 by lia.
  change (2 ^ 1) with 2. pose proof (Z.div_mod x 2). lia.
Qed.

Lemma land_not1_flag x b :
  x mod 2 = 0 -> 0 <= x < 2 ^ 63 -> Z.land (x + b2z b) (u64 (Z.lnot 1)) = x.
Proof.
  intros Hx Hr. rewrite land_not1, flag_mod by (destruct b; simpl; lia). lia.
Qed.

(** A field above [n] bits, put beside a number of [n] bits. *)
Lemma lor_shift a b n : 0 <= n -> 0 <= a < 2 ^ n -> Z.lor a (b * 2 ^ n) = a + b * 2 ^ n.
Proof.
  intros Hn Ha. symmetry. apply Z.add_nocarry_lor. apply Z.bits_inj'. intros i Hi.
  rewrite Z.land_spec, Z.bits_0. destruct (Z.lt_ge_cases i n).
  - rewrite Z.mul_pow2_bits_low by lia. apply andb_false_r.
  - rewrite <- (Z.mod_small a (2 ^ n)), Z.mod_pow2_bits_high by lia. done.
Qed.

(** ** C strings *)

(** The C string at the start of an array of bytes. *)
Fixpoint c_str (l : list Z) : list Z :=
  match l with
  | [] => []
  | b :: l => if b =? 0 then [] else b :: c_str l
  end.

Definition strcmp_eq (a b : list Z) : bool := bool_decide (c_str a = c_str b).

Definition no_nul (l : list Z) : Prop := Forall (fun b => b <> 0) l.

Lemma c_str_id l : no_nul l -> c_str l = l.
Proof.
  induction 1 as [|b l Hb _ IH]; [done|]. cbn [c_str]. destruct (Z.eqb_spec b 0); [done|]. by rewrite IH.
Qed.
