(* ===== verification/Memory.v ===== *)
(** * Byte-addressed memory

    Contents of a mapped region as a finite map from addresses to bytes with a
    fill value for the bytes never written, little-endian words on top of it,
    and the block operations memset() and memcpy().  Shared by the heap of the
    allocators ([Memlib]) and by the page-protected heap of the sanitizer. *)
From stdpp Require Import prelude gmap list.
From Stdlib Require Import ZArith Lia.
From S2P Require Import Prelude.
Open Scope Z_scope.

(** ** Contents *)

Record ram := mkRam { fill : Z; bytes : gmap Z Z }.

Definition byte_at (m : ram) (a : Z) : Z := default (fill m) (bytes m !! a).
Definition set_byte (m : ram) (a v : Z) : ram := mkRam (fill m) (<[a := v]> (bytes m)).

Fixpoint read_bytes (m : ram) (a : Z) (n : nat) : list Z :=
  match n with
  | O => []
  | S n => byte_at m a :: read_bytes m (a + 1) n
  end.

Fixpoint write_bytes (m : ram) (a : Z) (l : list Z) : ram :=
  match l with
  | [] => m
  | b :: l => write_bytes (set_byte m a b) (a + 1) l
  end.

(** Little-endian encoding of an unsigned integer on [n] bytes. *)
Fixpoint le_split (n : nat) (v : Z) : list Z :=
  match n with
  | O => []
  | S n => v mod 256 :: le_split n (v / 256)
  end.

Fixpoint le_combine (l : list Z) : Z :=
  match l with
  | [] => 0
  | b :: l => b + 256 * le_combine l
  end.

Definition load (n : nat) (m : ram) (a : Z) : Z := le_combine (read_bytes m a n).
Definition store (n : nat) (m : ram) (a v : Z) : ram := write_bytes m a (le_split n v).

Abbreviation load64 := (load 8).
Abbreviation store64 := (store 8).

(** ** Laws *)

Lemma length_le_split n v : length (le_split n v) = n.
Proof. revert v; induction n; intros; simpl; auto. Qed.

Lemma le_combine_split n v : le_combine (le_split n v) = v mod 256 ^ Z.of_nat n.
Proof.
  revert v. induction n as [|n IH]; intros v; [by rewrite Z.mod_1_r|].
  cbn [le_split le_combine].
  rewrite IH, Nat2Z.inj_succ, Z.pow_succ_r, Z.rem_mul_r; lia.
Qed.

Lemma length_read_bytes m a n : length (read_bytes m a n) = n.
Proof. revert a; induction n; intros; simpl; auto. Qed.

Lemma byte_at_set m a v b :
  byte_at (set_byte m a v) b = if decide (b = a) then v else byte_at m b.
Proof.
  unfold byte_at, set_byte; simpl.
  case_decide; [subst; by rewrite lookup_insert_eq|by rewrite lookup_insert_ne].
Qed.

Lemma byte_at_write_out m a l b :
  b < a \/ a + Z.of_nat (length l) <= b -> byte_at (write_bytes m a l) b = byte_at m b.
Proof.
  revert m a. induction l as [|x l IH]; intros m a Hb; [done|].
  cbn [length] in Hb. simpl. rewrite IH by lia.
  rewrite byte_at_set. case_decide; [lia|done].
Qed.

Lemma byte_at_write_in m a l i x :
  l !! i = Some x -> byte_at (write_bytes m a l) (a + Z.of_nat i) = x.
Proof.
  revert m a i. induction l as [|y l IH]; intros m a i Hi; [done|].
  destruct i as [|i]; simpl in *.
  - simplify_eq. rewrite byte_at_write_out by lia.
    rewrite byte_at_set. case_decide; [done|lia].
  - rewrite <- (IH (set_byte m a y) (a + 1) i Hi). f_equal. lia.
Qed.

Lemma read_bytes_lookup m a n i :
  (i < n)%nat -> read_bytes m a n !! i = Some (byte_at m (a + Z.of_nat i)).
Proof.
  revert a i. induction n as [|n IH]; intros a i Hi; [lia|].
  destruct i as [|i]; simpl; [do 2 f_equal; lia|].
  rewrite IH by lia. do 2 f_equal. lia.
Qed.

Lemma read_bytes_ext m m' a n :
  (forall b, a <= b < a + Z.of_nat n -> byte_at m b = byte_at m' b) ->
  read_bytes m a n = read_bytes m' a n.
Proof.
  revert a. induction n as [|n IH]; intros a H; simpl; [done|].
  f_equal; [apply H; lia|apply IH; intros; apply H; lia].
Qed.

Lemma read_write_same m a l : read_bytes (write_bytes m a l) a (length l) = l.
Proof.
  apply list_eq. intros i. destruct (l !! i) as [x|] eqn:E.
  - rewrite read_bytes_lookup by (by eapply lookup_lt_Some).
    by rewrite (byte_at_write_in _ _ _ _ _ E).
  - apply lookup_ge_None in E. apply lookup_ge_None. rewrite length_read_bytes. lia.
Qed.

Lemma load_ext n m m' a :
  (forall b, a <= b < a + Z.of_nat n -> byte_at m b = byte_at m' b) ->
  load n m a = load n m' a.
Proof. intros. unfold load. f_equal. by apply read_bytes_ext. Qed.

Lemma load_store_same n m a v : load n (store n m a v) a = v mod 256 ^ Z.of_nat n.
Proof.
  pose proof (read_write_same m a (le_split n v)) as H.
  rewrite length_le_split in H. unfold load, store. by rewrite H, le_combine_split.
Qed.

Lemma byte_at_store_out n m a v b :
  b < a \/ a + Z.of_nat n <= b -> byte_at (store n m a v) b = byte_at m b.
Proof. intros. apply byte_at_write_out. by rewrite length_le_split. Qed.

Lemma load_write_disjoint n m a b l :
  b + Z.of_nat n <= a \/ a + Z.of_nat (length l) <= b ->
  load n (write_bytes m a l) b = load n m b.
Proof. intros. apply load_ext. intros. apply byte_at_write_out. lia. Qed.

Lemma load_store_disjoint n k m a v b :
  b + Z.of_nat n <= a \/ a + Z.of_nat k <= b ->
  load n (store k m a v) b = load n m b.
Proof. intros. apply load_write_disjoint. by rewrite length_le_split. Qed.

Lemma load64_store64_same m a v : 0 <= v < 2 ^ 64 -> load64 (store64 m a v) a = v.
Proof. intros. rewrite load_store_same. by apply Z.mod_small. Qed.

(** Contents made of bytes. *)
Definition ram_ok (m : ram) : Prop := forall a, 0 <= byte_at m a < 256.

Lemma le_combine_range l :
  Forall (fun b => 0 <= b < 256) l -> 0 <= le_combine l < 256 ^ Z.of_nat (length l).
Proof.
  induction 1 as [|b l Hb _ IH]; simpl le_combine; [done|].
  cbn [length]. rewrite Nat2Z.inj_succ, Z.pow_succ_r; lia.
Qed.

Lemma read_bytes_ok m a n : ram_ok m -> Forall (fun b => 0 <= b < 256) (read_bytes m a n).
Proof. intros Hm. revert a. induction n; intros; simpl; constructor; auto. Qed.

Lemma load_range n m a : ram_ok m -> 0 <= load n m a < 256 ^ Z.of_nat n.
Proof.
  intros Hm. pose proof (le_combine_range _ (read_bytes_ok m a n Hm)) as H.
  by rewrite length_read_bytes in H.
Qed.

Lemma write_bytes_ok m a l :
  ram_ok m -> Forall (fun b => 0 <= b < 256) l -> ram_ok (write_bytes m a l).
Proof.
  intros Hm Hl. revert m a Hm. induction Hl as [|b l Hb _ IH]; intros; simpl; [done|].
  apply IH. intros c. rewrite byte_at_set. case_decide; auto.
Qed.

Lemma le_split_ok n v : Forall (fun b => 0 <= b < 256) (le_split n v).
Proof.
  revert v. induction n; intros; simpl; constructor; auto.
  apply Z.mod_pos_bound. lia.
Qed.

Lemma store_ok n m a v : ram_ok m -> ram_ok (store n m a v).
Proof. intros. apply write_bytes_ok; [done|apply le_split_ok]. Qed.
