(* ===== verification/Memlib.v ===== *)
(** * The simulated memory system (malloc/src/memlib.c)

    [memlib.c] reserves one region of [MAX_HEAP] bytes with mmap() and hands it
    out through a monotone break pointer.  The allocators of [MMImplicit] and
    [MMExplicit] read and write the region directly; an access outside it
    faults. *)
From stdpp Require Import prelude gmap list.
From Stdlib Require Import ZArith Lia.
From S2P Require Import Prelude Memory.
Open Scope Z_scope.
Open Scope c_scope.

(** ** State and operations *)

Definition MAX_HEAP : Z := 100 * 2 ^ 20.

(** The value (void * ) -1, which both mmap() and mem_sbrk() return on failure. *)
Definition PTR_FAILED : Z := u64 (-1).
Definition NULL : Z := 0.

Lemma PTR_FAILED_val : PTR_FAILED = 2 ^ 64 - 1.
Proof. reflexivity. Qed.

Record memlib := mkMemlib {
  mram : ram;         (* contents of the region *)
  is_mapped : bool;   (* between mem_init() and mem_deinit() *)
  heap : Z;           (* static uint8_t *heap *)
  mem_brk : Z         (* static uint8_t *mem_brk *)
}.

Definition memlib_initial : memlib := mkMemlib (mkRam 0 ∅) false NULL NULL.

(** Whether [n] bytes at [a] lie in the mapped region. *)
Definition mapped (s : memlib) (a n : Z) : bool :=
  is_mapped s && (heap s <=? a) && (a + n <=? heap s + MAX_HEAP).

Definition set_ram (r : ram) (s : memlib) : memlib :=
  mkMemlib r (is_mapped s) (heap s) (mem_brk s).
Definition set_brk (b : Z) (s : memlib) : memlib :=
  mkMemlib (mram s) (is_mapped s) (heap s) b.

Definition mem_reset_brk (clear : bool) : M memlib unit := fun s =>
  let s := set_brk (heap s) s in
  if clear
  then if mapped s (heap s) MAX_HEAP
       then Ok (tt, set_ram (mkRam 0xCC ∅) s)
       else Err (Segv (heap s))
  else Ok (tt, s).

(** [mmap_result] is what the kernel answered. *)
Definition mem_init (mmap_result : Z) : M memlib unit :=
  modify (fun s => mkMemlib (mkRam 0 ∅) (negb (mmap_result =? PTR_FAILED))
                            mmap_result (mem_brk s)) ;;;
  mem_reset_brk true.

Definition mem_deinit : M memlib unit :=
  modify (fun s => mkMemlib (mram s) false (heap s) (mem_brk s)).

(** The argument is an ssize_t: a size_t argument is converted by the call. *)
Definition mem_sbrk (incr : Z) : M memlib Z := fun s =>
  let incr := s64 incr in
  let old_brk := mem_brk s in
  if (incr <? 0) || (heap s + MAX_HEAP <? u64 (mem_brk s + incr))
  then Ok (PTR_FAILED, s)
  else Ok (old_brk, set_brk (u64 (mem_brk s + incr)) s).

Definition mem_heap_lo (s : memlib) : Z := heap s.
Definition mem_heap_hi (s : memlib) : Z := u64 (mem_brk s - 1).
Definition mem_heapsize (s : memlib) : Z := u64 (mem_brk s - heap s).

(** ** Access from an allocator

    An allocator's state embeds the memory system; the accesses to the region
    are the same in both. *)
Class MemState (S : Type) := {
  get_ml : S -> memlib;
  set_ml : memlib -> S -> S;
  get_set_ml : forall m s, get_ml (set_ml m s) = m;
  set_set_ml : forall m m' s, set_ml m (set_ml m' s) = set_ml m s;
  set_get_ml : forall s, set_ml (get_ml s) s = s
}.

Section Access.
Context {S : Type} `{MemState S}.

Definition zoom {A} (m : M memlib A) : M S A := fun s =>
  match m (get_ml s) with
  | Ok (a, ml) => Ok (a, set_ml ml s)
  | Err f => Err f
  end.

(** Reading and writing a size_t (or a pointer) in memory. *)
Definition ld (a : Z) : M S Z := fun s =>
  if mapped (get_ml s) a 8 then Ok (load64 (mram (get_ml s)) a, s) else Err (Segv a).
Definition st (a v : Z) : M S unit := fun s =>
  if mapped (get_ml s) a 8
  then Ok (tt, set_ml (set_ram (store64 (mram (get_ml s)) a v) (get_ml s)) s)
  else Err (Segv a).

Definition c_memset (a v n : Z) : M S unit := fun s =>
  if n =? 0 then Ok (tt, s)
  else if mapped (get_ml s) a n
  then Ok (tt, set_ml (set_ram (write_bytes (mram (get_ml s)) a
                                  (replicate (Z.to_nat n) (u8 v))) (get_ml s)) s)
  else Err (Segv a).

(** memcpy() of overlapping objects is undefined. *)
Definition c_memcpy (dst src n : Z) : M S unit := fun s =>
  if n =? 0 then Ok (tt, s)
  else if negb (mapped (get_ml s) src n) then Err (Segv src)
  else if negb (mapped (get_ml s) dst n) then Err (Segv dst)
  else if (dst <? src + n) && (src <? dst + n) then Err UB
  else Ok (tt, set_ml (set_ram (write_bytes (mram (get_ml s)) dst
                        (read_bytes (mram (get_ml s)) src (Z.to_nat n))) (get_ml s)) s).
End Access.

#[export] Instance memlib_MemState : MemState memlib :=
  {| get_ml := fun s => s; set_ml := fun m _ => m; get_set_ml := fun m s => eq_refl;
     set_set_ml := fun m m' s => eq_refl; set_get_ml := fun s => eq_refl |}.
