(* ===== verification/Allocator.v ===== *)
(** * The contract of a heap allocator

    mm.h declares one interface that mm-implicit.c and mm-explicit.c implement
    and that the driver mdriver.c exercises.  [Allocator] states the contract:
    [live s A] says that in state [s] the live payloads are the keys of [A],
    each with its usable size.  Clients are verified against the class alone;
    [MMExplicitSpec] discharges it for the explicit free list. *)
From stdpp Require Import prelude gmap list.
From Stdlib Require Import ZArith Lia.
From S2P Require Import Prelude Memory Memlib.
Open Scope Z_scope.
Open Scope c_scope.

(** The bytes of the payloads of [A] are the same in [m] and [m']. *)
Definition same_payloads (A : gmap Z Z) (m m' : ram) : Prop :=
  forall p n, A !! p = Some n -> forall a, p <= a < p + n -> byte_at m' a = byte_at m a.

(** The largest request whose rounded size does not overflow a size_t. *)
Definition request_ok (n : Z) : Prop := 0 < n < 2 ^ 64 - 32.

Class Allocator (S : Type) `{MemState S} := {
  al_init : M S bool;
  al_malloc : Z -> M S Z;
  al_free : Z -> M S unit;
  al_realloc : Z -> Z -> M S Z;

  (** The live payloads with their usable sizes. *)
  live : S -> gmap Z Z -> Prop;

  live_payload s A p n : live s A -> A !! p = Some n ->
    0 < p /\ p mod 16 = 0 /\ heap (get_ml s) <= p /\ 0 < n /\
    p + n <= mem_brk (get_ml s) <= heap (get_ml s) + MAX_HEAP /\
    heap (get_ml s) + MAX_HEAP < 2 ^ 63 /\ is_mapped (get_ml s) = true;
  live_disjoint s A p q n k : live s A -> A !! p = Some n -> A !! q = Some k ->
    p = q \/ p + n <= q \/ q + k <= p;
  (** A client may write inside a live payload. *)
  live_write s A p n m' : live s A -> A !! p = Some n ->
    (forall a, a < p \/ p + n <= a -> byte_at m' a = byte_at (mram (get_ml s)) a) ->
    live (set_ml (set_ram m' (get_ml s)) s) A;

  init_law s :
    is_mapped (get_ml s) = true -> 0 < heap (get_ml s) -> heap (get_ml s) mod 16 = 0 ->
    heap (get_ml s) + MAX_HEAP < 2 ^ 63 -> mem_brk (get_ml s) = heap (get_ml s) ->
    exists s', al_init s = Ok (true, s') /\ live s' ∅;
  malloc_law s A n : live s A -> request_ok n ->
    exists p s', al_malloc n s = Ok (p, s') /\
      (p = NULL /\ live s' A /\ same_payloads A (mram (get_ml s)) (mram (get_ml s')) \/
       p <> NULL /\ exists k, n <= k /\ A !! p = None /\ live s' (<[p := k]> A) /\
         same_payloads A (mram (get_ml s)) (mram (get_ml s')));
  free_law s A p n : live s A -> A !! p = Some n ->
    exists s', al_free p s = Ok (tt, s') /\ live s' (delete p A) /\
      same_payloads (delete p A) (mram (get_ml s)) (mram (get_ml s'));
  free_null_law s : al_free NULL s = Ok (tt, s);
  realloc_null_law s n : al_realloc NULL n s = al_malloc n s;
  realloc_zero_law s A p n : live s A -> A !! p = Some n ->
    al_realloc p 0 s = (al_free p ;;; ret NULL) s;
  (** Whenever malloc() would succeed. *)
  realloc_law s A p n k q0 s0 : live s A -> A !! p = Some n -> request_ok k ->
    al_malloc k s = Ok (q0, s0) -> q0 <> NULL ->
    exists q s', al_realloc p k s = Ok (q, s') /\ q <> NULL /\
      exists k', k <= k' /\ delete p A !! q = None /\ live s' (<[q := k']> (delete p A)) /\
        (forall i, 0 <= i < Z.min n k ->
           byte_at (mram (get_ml s')) (q + i) = byte_at (mram (get_ml s)) (p + i)) /\
        same_payloads (delete p A) (mram (get_ml s)) (mram (get_ml s'))
}.
