(* ===== verification/MMExplicit.v ===== *)
(** * The explicit free list allocator (malloc/src/mm-explicit.c)

    Every block carries its size and allocation bit in a header and a footer;
    free blocks are chained in a doubly linked list through their payloads.
    One definition per C function, in the state monad over the file's static
    variables and the memory system of [Memlib]. *)
From stdpp Require Import prelude gmap list.
From Stdlib Require Import ZArith Lia.
From S2P Require Import Prelude Memory Memlib.
Open Scope Z_scope.
Open Scope c_scope.

(** sizeof(size_t), sizeof(block_t), sizeof(free_block_t) on x86-64, and the
    offsets of the fields of free_block_t. *)
Definition SIZEOF_SIZE_T : Z := 8.
Definition SIZEOF_BLOCK : Z := 8.
Definition SIZEOF_FREE_BLOCK : Z := 24.
Definition OFF_PAYLOAD : Z := 8.
Definition OFF_NEXT : Z := 8.
Definition OFF_PREV : Z := 16.
Definition ALIGNMENT : Z := 2 * SIZEOF_SIZE_T.

(** The static variables. *)
Record mm := mkMM {
  ml : memlib;
  mm_heap_first : Z;
  mm_heap_last : Z;
  mm_free_first : Z;
  mm_free_last : Z
}.

#[export] Instance mm_MemState : MemState mm.
Proof.
  refine {| get_ml := ml; set_ml m s := mkMM m (mm_heap_first s) (mm_heap_last s) (mm_free_first s) (mm_free_last s) |};
    [done|done|by intros []].
Defined.

Definition set_heap_first (p : Z) : M mm unit := modify (fun s =>
  mkMM (ml s) p (mm_heap_last s) (mm_free_first s) (mm_free_last s)).
Definition set_heap_last (p : Z) : M mm unit := modify (fun s =>
  mkMM (ml s) (mm_heap_first s) p (mm_free_first s) (mm_free_last s)).
Definition set_free_first (p : Z) : M mm unit := modify (fun s =>
  mkMM (ml s) (mm_heap_first s) (mm_heap_last s) p (mm_free_last s)).
Definition set_free_last (p : Z) : M mm unit := modify (fun s =>
  mkMM (ml s) (mm_heap_first s) (mm_heap_last s) (mm_free_first s) p).

(** Pointer arithmetic on 64-bit addresses. *)
Definition padd (p n : Z) : Z := u64 (p + n).

Definition round_up (size n : Z) : Z := u64 (u64 (size + (n - 1)) / n * n).

Definition set_header (block size : Z) (is_allocated : bool) : M mm unit :=
  st block (Z.lor size (b2z is_allocated)).

Definition set_footer (block size : Z) (is_allocated : bool) : M mm unit :=
  let footer := padd (padd block size) (- SIZEOF_SIZE_T) in
  st footer (Z.lor size (b2z is_allocated)).

(** [~1] is the int -2, sign-extended to 64 bits. *)
Definition clear_bit0 (h : Z) : Z := Z.land h (u64 (Z.lnot 1)).

Definition get_size (block : Z) : M mm Z :=
  header <- ld block;; ret (clear_bit0 header).

Definition is_allocated (block : Z) : M mm bool :=
  header <- ld block;; ret (negb (Z.land header 1 =? 0)).

Definition get_next (b : Z) : M mm Z := ld (padd b OFF_NEXT).
Definition set_next (b v : Z) : M mm unit := st (padd b OFF_NEXT) v.
Definition get_prev (b : Z) : M mm Z := ld (padd b OFF_PREV).
Definition set_prev (b v : Z) : M mm unit := st (padd b OFF_PREV) v.

Definition add_to_freelist (block : Z) : M mm unit :=
  let freed_block := block in
  freed_block_size <- get_size freed_block;;
  set_header freed_block freed_block_size false ;;;
  set_footer freed_block freed_block_size false ;;;
  first <- gets mm_free_first;;
  if first =? NULL then
    set_free_first freed_block ;;;
    first' <- gets mm_free_first;;
    set_prev first' NULL ;;;
    set_next first' NULL ;;;
    set_free_last freed_block
  else
    set_prev first freed_block ;;;
    set_next freed_block first ;;;
    set_free_first freed_block.

Definition remove_from_freelist (curr : Z) : M mm Z :=
  first <- gets mm_free_first;;
  last <- gets mm_free_last;;
  (if (curr =? first) && (curr =? last) then
     set_free_first NULL ;;;
     set_free_last NULL
   else if curr =? first then
     next <- get_next curr;;
     set_free_first next ;;;
     next' <- get_next curr;;
     set_prev next' NULL
   else if curr =? last then
     prev <- get_prev curr;;
     set_free_last prev ;;;
     prev' <- get_prev curr;;
     set_next prev' NULL
   else
     next <- get_next curr;;
     prev <- get_prev curr;;
     set_prev next prev ;;;
     prev' <- get_prev curr;;
     next' <- get_next curr;;
     set_next prev' next') ;;;
  ret curr.

(** One iteration of the loop of find_fit(): the loop variable is [curr]. *)
Definition find_fit_body (size curr : Z) : M mm (Z + Z) :=
  last <- gets mm_free_last;;
  if negb (last =? NULL) && negb (curr =? NULL) then
    curr_size <- get_size curr;;
    if size <=? curr_size then
      b <- remove_from_freelist curr;; ret (inr b)
    else
      next <- get_next curr;; ret (inl next)
  else ret (inr NULL).

Definition find_fit (size : Z) : M mm Z :=
  first <- gets mm_free_first;;
  loopM (find_fit_body size) first.

Definition block_from_payload (ptr : Z) : Z := padd ptr (- OFF_PAYLOAD).

Definition mm_init : M mm bool :=
  padding <- zoom (mem_sbrk (ALIGNMENT - SIZEOF_BLOCK));;
  if padding =? PTR_FAILED then ret false
  else
    set_heap_first NULL ;;;
    set_heap_last NULL ;;;
    set_free_first NULL ;;;
    set_free_last NULL ;;;
    ret true.

Definition split_block_exp (block size block_size : Z) : M mm Z :=
  set_header block size true ;;;
  set_footer block size true ;;;
  let freed_block := padd block size in
  set_header freed_block (u64 (block_size - size)) false ;;;
  set_footer freed_block (u64 (block_size - size)) false ;;;
  add_to_freelist freed_block ;;;
  last <- gets mm_heap_last;;
  (if block =? last then set_heap_last (padd block size) else ret tt) ;;;
  ret (padd block OFF_PAYLOAD).

Definition coalesce_left (block : Z) : M mm Z :=
  block_size <- get_size block;;
  first <- gets mm_heap_first;;
  '(prev_size, prev) <- (if negb (block =? first) then
                           f <- ld (padd block (- SIZEOF_SIZE_T));;
                           let prev_size := clear_bit0 f in
                           ret (prev_size, padd block (- prev_size))
                         else ret (0, NULL));;
  prev_free <- (if negb (block =? first) then
                  a <- is_allocated prev;; ret (negb a)
                else ret false);;
  '(return_block, new_blocksize) <-
    (if prev_free : bool then
       let new_blocksize := u64 (prev_size + block_size) in
       remove_from_freelist prev ;;;
       last <- gets mm_heap_last;;
       (if block =? last then set_heap_last prev else ret tt) ;;;
       ret (prev, new_blocksize)
     else ret (block, block_size));;
  set_header return_block new_blocksize false ;;;
  set_footer return_block new_blocksize false ;;;
  ret return_block.

Definition coalesce_right (block : Z) : M mm Z :=
  block_size <- get_size block;;
  last <- gets mm_heap_last;;
  '(next_size, next) <- (if negb (block =? last) then
                           let next := padd block block_size in
                           next_size <- get_size next;;
                           ret (next_size, next)
                         else ret (0, NULL));;
  next_free <- (if negb (block =? last) then
                  a <- is_allocated next;; ret (negb a)
                else ret false);;
  new_blocksize <-
    (if next_free : bool then
       let new_blocksize := u64 (block_size + next_size) in
       remove_from_freelist next ;;;
       last' <- gets mm_heap_last;;
       (if next =? last' then set_heap_last block else ret tt) ;;;
       ret new_blocksize
     else ret block_size);;
  set_header block new_blocksize false ;;;
  set_footer block new_blocksize false ;;;
  ret block.

Definition mm_malloc (size : Z) : M mm Z :=
  let size := round_up (u64 (SIZEOF_BLOCK + size + SIZEOF_SIZE_T)) ALIGNMENT in
  block <- find_fit size;;
  if negb (block =? NULL) then
    block_size <- get_size block;;
    if round_up (u64 (size + SIZEOF_FREE_BLOCK)) ALIGNMENT <=? block_size then
      split_block_exp block size block_size
    else
      set_header block block_size true ;;;
      set_footer block block_size true ;;;
      ret (padd block OFF_PAYLOAD)
  else
    block <- zoom (mem_sbrk size);;
    if block =? PTR_FAILED then ret NULL
    else
      first <- gets mm_heap_first;;
      (if first =? NULL then set_heap_first block else ret tt) ;;;
      set_heap_last block ;;;
      set_header block size true ;;;
      set_footer block size true ;;;
      ret (padd block OFF_PAYLOAD).

Definition mm_free (ptr : Z) : M mm unit :=
  if ptr =? NULL then ret tt
  else
    let block := block_from_payload ptr in
    block <- coalesce_left block;;
    block <- coalesce_right block;;
    add_to_freelist block.

Definition mm_realloc (old_ptr size : Z) : M mm Z :=
  if old_ptr =? NULL then mm_malloc size
  else if size =? 0 then mm_free old_ptr ;;; ret NULL
  else
    sz <- get_size (block_from_payload old_ptr);;
    let old_size := u64 (sz - 2 * SIZEOF_BLOCK) in
    new_ptr <- (if old_size <? size then
                  new_ptr <- mm_malloc size;;
                  c_memcpy new_ptr old_ptr old_size ;;;
                  ret new_ptr
                else
                  new_ptr <- mm_malloc size;;
                  c_memcpy new_ptr old_ptr size ;;;
                  ret new_ptr);;
    mm_free old_ptr ;;;
    ret new_ptr.

Definition mm_calloc (nmemb size : Z) : M mm Z :=
  new_ptr <- mm_malloc (u64 (size * nmemb));;
  c_memset new_ptr 0 (u64 (size * nmemb)) ;;;
  ret new_ptr.
