(* ===== verification/MMExplicitInv.v ===== *)
(** * The heap invariant of the explicit allocator

    The region between the first block and the break is a sequence of blocks
    whose headers and footers carry their size and allocation bit; the free
    list enumerates the free ones. *)
From stdpp Require Import prelude gmap list.
From Stdlib Require Import ZArith Lia.
From S2P Require Import Prelude Memory Memlib MMExplicit FreeList.
Open Scope Z_scope.
Open Scope c_scope.

(** ** Blocks *)

Record blk := Blk { b_addr : Z; b_size : Z; b_alloc : bool }.

#[export] Instance blk_eq_dec : EqDecision blk.
Proof. solve_decision. Defined.

Definition b_end (b : blk) : Z := b_addr b + b_size b.

(** The smallest block that can hold a header, two links and a footer. *)
Definition size_ok (sz : Z) : Prop := sz mod 16 = 0 /\ 32 <= sz.

Fixpoint layout (a : Z) (bs : list blk) (e : Z) : Prop :=
  match bs with
  | [] => a = e
  | b :: bs => b_addr b = a /\ size_ok (b_size b) /\ layout (b_end b) bs e
  end.

(** The header and the footer of a block. *)
Definition tag (m : ram) (b : blk) : Prop :=
  load64 m (b_addr b) = b_size b + b2z (b_alloc b) /\
  load64 m (b_end b - 8) = b_size b + b2z (b_alloc b).

Definition first_addr (bs : list blk) : Z := default NULL (b_addr <$> head bs).
Definition last_addr (bs : list blk) : Z := default NULL (b_addr <$> last bs).

Lemma layout_app a l r e : layout a (l ++ r) e <-> exists c, layout a l c /\ layout c r e.
Proof.
  revert a. induction l as [|b l IH]; intros a; simpl.
  - split; [eauto|by intros (c & -> & ?)].
  - rewrite IH. split; [intros (?&?&c&?&?)|intros (c&(?&?&?)&?)]; eauto.
Qed.

Lemma layout_le a bs e : layout a bs e -> a + 32 * Z.of_nat (length bs) <= e.
Proof.
  revert a. induction bs as [|b bs IH]; intros a; cbn [layout length]; [lia|].
  intros (<- & [_ Hs] & Hl). apply IH in Hl. unfold b_end in Hl. lia.
Qed.

Lemma layout_in a bs e b :
  layout a bs e -> b ∈ bs -> a <= b_addr b /\ b_end b <= e /\ size_ok (b_size b).
Proof.
  intros Hl [l [r ->]]%list_elem_of_split. apply layout_app in Hl as (c & H1 & H2).
  destruct H2 as (<- & Hs & H2). apply layout_le in H1, H2. split_and!; [lia..|done].
Qed.

(** Distinct blocks do not overlap. *)
Lemma layout_sep a bs e x y :
  layout a bs e -> x ∈ bs -> y ∈ bs -> x = y \/ b_end x <= b_addr y \/ b_end y <= b_addr x.
Proof.
  revert a. induction bs as [|b bs IH]; intros a Hl Hx Hy; [set_solver|].
  destruct Hl as (<- & Hs & Hl).
  apply elem_of_cons in Hx as [->|Hx]; apply elem_of_cons in Hy as [->|Hy]; eauto.
  - pose proof (layout_in _ _ _ _ Hl Hy) as [? _]. lia.
  - pose proof (layout_in _ _ _ _ Hl Hx) as [? _]. lia.
Qed.

Lemma layout_addr_inj a bs e x y :
  layout a bs e -> x ∈ bs -> y ∈ bs -> b_addr x = b_addr y -> x = y.
Proof.
  intros Hl Hx Hy E. destruct (layout_sep _ _ _ _ _ Hl Hx Hy) as [?|?]; [done|].
  pose proof (layout_in _ _ _ _ Hl Hx) as (?&?&[? ?]).
  pose proof (layout_in _ _ _ _ Hl Hy) as (?&?&[? ?]). unfold b_end in *. lia.
Qed.

(** Addresses keep the residue of the first one. *)
Lemma layout_mod a bs e b : layout a bs e -> b ∈ bs -> b_addr b mod 16 = a mod 16.
Proof.
  revert a. induction bs as [|b' bs IH]; intros a Hl Hb; [set_solver|].
  destruct Hl as (<- & [Hs _] & Hl). apply elem_of_cons in Hb as [->|Hb]; [done|].
  rewrite (IH _ Hl Hb). unfold b_end. by rewrite Z.add_mod, Hs, Z.add_0_r, Z.mod_mod.
Qed.

Lemma size_even sz : size_ok sz -> sz < 2 ^ 63 -> even_size sz.
Proof.
  intros [Hs Hm] Hl. split; [|lia]. Z.to_euclidean_division_equations. lia.
Qed.

Lemma tag_frame m m' b :
  size_ok (b_size b) ->
  (forall a, b_addr b <= a < b_addr b + 8 \/ b_end b - 8 <= a < b_end b ->
             byte_at m' a = byte_at m a) ->
  tag m b -> tag m' b.
Proof.
  intros Hs Hf [H1 H2]. unfold tag. rewrite <- H1 at 1. rewrite <- H2.
  split; apply load_ext; intros; apply Hf; lia.
Qed.

Lemma layout_fun a bs e e' : layout a bs e -> layout a bs e' -> e = e'.
Proof.
  revert a. induction bs as [|b bs IH]; intros a; simpl; [congruence|].
  intros (_ & _ & ?) (_ & _ & ?). eauto.
Qed.

(** The extent of a segment inside a layout. *)
Lemma layout_segment a l mid r e a0 e0 :
  layout a (l ++ mid ++ r) e -> layout a0 mid e0 -> mid <> [] ->
  layout a l a0 /\ layout e0 r e.
Proof.
  intros Hl Hm Hne. apply layout_app in Hl as (c & Hl & Hl2).
  apply layout_app in Hl2 as (d & Hl2 & Hr).
  assert (c = a0) as ->.
  { destruct mid; [done|]. destruct Hl2 as (<- & _), Hm as (<- & _). done. }
  by rewrite (layout_fun _ _ _ _ Hm Hl2).
Qed.

Lemma first_addr_replace l mid mid' r a0 e0 :
  layout a0 mid e0 -> layout a0 mid' e0 -> mid <> [] -> mid' <> [] ->
  first_addr (l ++ mid ++ r) = first_addr (l ++ mid' ++ r).
Proof.
  destruct l, mid, mid'; try done. by intros (<- & _) (E & _).
Qed.

(** ** The invariant *)

Lemma last_addr_app l r : r <> [] -> last_addr (l ++ r) = last_addr r.
Proof.
  unfold last_addr. rewrite last_app. destruct (last r) eqn:E; [done|].
  by apply last_None in E.
Qed.

Lemma last_addr_cons b r : r <> [] -> last_addr (b :: r) = last_addr r.
Proof. apply (last_addr_app [b]). Qed.

(** No two neighbours are both free: every free() coalesces completely. *)
Fixpoint no_adj (l : list bool) : Prop :=
  match l with
  | a :: (b :: _) as r => (a = true \/ b = true) /\ no_adj r
  | _ => True
  end.

Lemma no_adj_app l x r : no_adj (l ++ x :: r) <-> no_adj (l ++ [x]) /\ no_adj (x :: r).
Proof.
  induction l as [|y l IH]; [simpl; tauto|].
  destruct l as [|z l]; [simpl; tauto|].
  change (no_adj ((y :: z :: l) ++ x :: r)) with ((y = true \/ z = true) /\ no_adj ((z :: l) ++ x :: r)).
  change (no_adj ((y :: z :: l) ++ [x])) with ((y = true \/ z = true) /\ no_adj ((z :: l) ++ [x])).
  rewrite IH. tauto.
Qed.

Lemma no_adj_true r : no_adj (true :: r) <-> no_adj r.
Proof. destruct r; simpl; tauto. Qed.

Lemma no_adj_snoc_true l : no_adj (l ++ [true]) <-> no_adj l.
Proof.
  induction l as [|y l IH]; [done|]. destruct l as [|z l]; [simpl; tauto|].
  change (no_adj ((y :: z :: l) ++ [true])) with ((y = true \/ z = true) /\ no_adj ((z :: l) ++ [true])).
  rewrite IH. done.
Qed.

Lemma no_adj_prefix l r : no_adj (l ++ r) -> no_adj l.
Proof.
  destruct r as [|x r]; [by rewrite app_nil_r|]. intros [Hl _]%no_adj_app.
  destruct x; [by apply no_adj_snoc_true|].
  induction l as [|y l IH]; [done|]. destruct l as [|z l]; [done|].
  destruct Hl as [? Hl]. split; auto.
Qed.

Lemma no_adj_tail x r : no_adj (x :: r) -> no_adj r.
Proof. destruct r; simpl; tauto. Qed.

Definition flags (bs : list blk) : list bool := b_alloc <$> bs.
Definition free_addrs (bs : list blk) : list Z := b_addr <$> filter (fun b => b_alloc b = false) bs.
Definition allocs (bs : list blk) : list blk := filter (fun b => b_alloc b = true) bs.

Lemma free_addrs_app l r : free_addrs (l ++ r) = free_addrs l ++ free_addrs r.
Proof. unfold free_addrs. by rewrite filter_app, fmap_app. Qed.

Lemma allocs_app l r : allocs (l ++ r) = allocs l ++ allocs r.
Proof. apply filter_app. Qed.

Section Inv.
Variable H : Z.

(** [fl] lists some of the free blocks of [bs], in list order. *)
Record Core (brk : Z) (m : ram) (hf hl ff lf : Z) (bs : list blk) (fl : list Z) : Prop := {
  core_pos : 0 < H;
  core_high : H + MAX_HEAP < 2 ^ 63;
  core_align : H mod 16 = 0;
  core_layout : layout (H + 8) bs brk;
  core_brk : brk <= H + MAX_HEAP;
  core_tags : Forall (tag m) bs;
  core_first : hf = first_addr bs;
  core_last : hl = last_addr bs;
  core_list : dlist m ff fl lf;
  core_nodup : NoDup fl;
  core_free : forall x, x ∈ fl -> exists sz, Blk x sz false ∈ bs
}.

Arguments core_pos {brk m hf hl ff lf bs fl} _.
Arguments core_high {brk m hf hl ff lf bs fl} _.
Arguments core_align {brk m hf hl ff lf bs fl} _.
Arguments core_layout {brk m hf hl ff lf bs fl} _.
Arguments core_brk {brk m hf hl ff lf bs fl} _.
Arguments core_tags {brk m hf hl ff lf bs fl} _.
Arguments core_first {brk m hf hl ff lf bs fl} _.
Arguments core_last {brk m hf hl ff lf bs fl} _.
Arguments core_list {brk m hf hl ff lf bs fl} _.
Arguments core_nodup {brk m hf hl ff lf bs fl} _.
Arguments core_free {brk m hf hl ff lf bs fl} _.

(** The bytes of the payloads of the allocated blocks of [bs] are the same. *)
Definition pay_same (bs : list blk) (m m' : ram) : Prop :=
  forall b, b ∈ bs -> b_alloc b = true ->
  forall a, b_addr b + 8 <= a < b_end b - 8 -> byte_at m' a = byte_at m a.

Lemma pay_same_trans bs m1 m2 m3 :
  pay_same bs m1 m2 -> pay_same bs m2 m3 -> pay_same bs m1 m3.
Proof. intros H1 H2 b Hb Ha a Hr. rewrite (H2 b), (H1 b); auto. Qed.

Lemma pay_same_sub bs bs' m m' :
  (forall b, b ∈ bs' -> b_alloc b = true -> b ∈ bs) -> pay_same bs m m' -> pay_same bs' m m'.
Proof. intros Hs Hp b Hb Ha. apply Hp; auto. Qed.

Section Consequences.
Context {brk m hf hl ff lf bs fl} (C : Core brk m hf hl ff lf bs fl).

Lemma core_in b : b ∈ bs ->
  H + 8 <= b_addr b /\ b_end b <= H + MAX_HEAP /\ size_ok (b_size b).
Proof.
  intros Hb. pose proof (layout_in _ _ _ _ (core_layout C) Hb) as (?&?&?).
  pose proof (core_brk C). split_and!; [lia..|done].
Qed.

Lemma core_tag b : b ∈ bs -> tag m b.
Proof. pose proof (core_tags C) as Ht. rewrite Forall_forall in Ht. auto. Qed.

Lemma core_header b : b ∈ bs -> inreg H (b_addr b).
Proof. intros Hb. apply core_in in Hb as (?&?&[??]). unfold inreg, b_end in *. lia. Qed.

Lemma core_footer b : b ∈ bs -> inreg H (b_end b - 8).
Proof. intros Hb. apply core_in in Hb as (?&?&[??]). unfold inreg, b_end in *. lia. Qed.

Lemma core_even b : b ∈ bs -> even_size (b_size b).
Proof.
  intros Hb. apply core_in in Hb as (?&?&?). apply size_even; [done|].
  pose proof (core_high C). unfold b_end in *.
  pose proof (core_pos C). lia.
Qed.

Lemma core_good : good_list H fl.
Proof.
  assert (Hn : forall x, x ∈ fl -> H + 8 <= x /\ x + 32 <= H + MAX_HEAP /\ aligned8 x).
  { intros x Hx. destruct (core_free C x Hx) as [sz Hb].
    pose proof (core_in _ Hb) as (?&?&[??]). unfold b_end in *; simpl in *.
    pose proof (layout_mod _ _ _ _ (core_layout C) Hb) as Hm. simpl in Hm.
    pose proof (core_align C) as Ha.
    split_and!; [lia..|]. unfold aligned8. Z.to_euclidean_division_equations. lia. }
  split; [|split; [apply C|]].
  - split; [apply Forall_forall; intros; by apply Hn|]. intros x y Hx Hy Hne.
    destruct (core_free C x Hx) as [sx Bx].
    destruct (core_free C y Hy) as [sy By].
    destruct (core_in _ Bx) as (_&_&[_ ?]). destruct (core_in _ By) as (_&_&[_ ?]).
    destruct (layout_sep _ _ _ _ _ (core_layout C) Bx By) as [E|[E|E]];
      unfold b_end in *; simpl in *; [congruence|lia..].
  - apply Forall_forall. intros x Hx. apply Hn in Hx. unfold node_in. lia.
Qed.
End Consequences.

(** *** Changing the free list *)

(** If all writes go to links of the free list and to free blocks [D] whose
    tags are in place again, then tags and payloads survive. *)
Lemma heap_frame (D : list blk) brk m m' hf hl ff lf bs fl fl' ff' lf' :
  Core brk m hf hl ff lf bs fl ->
  (forall d, d ∈ D -> d ∈ bs /\ b_alloc d = false /\ tag m' d) ->
  (forall a, (forall x, x ∈ fl -> a < x + 8 \/ x + 24 <= a) ->
             (forall d, d ∈ D -> a < b_addr d \/ b_end d <= a) ->
             byte_at m' a = byte_at m a) ->
  dlist m' ff' fl' lf' -> NoDup fl' ->
  (forall x, x ∈ fl' -> exists sz, Blk x sz false ∈ bs) ->
  Core brk m' hf hl ff' lf' bs fl' /\ pay_same bs m m'.
Proof.
  intros C HD Hs Hd Hn Hsub.
  assert (Hsep : forall b a, b ∈ bs -> b ∉ D ->
            (b_addr b <= a < b_addr b + 8 \/ b_end b - 8 <= a < b_end b) \/
            b_alloc b = true /\ b_addr b <= a < b_end b ->
            byte_at m' a = byte_at m a).
  { intros b a Hb Hbd Ha. destruct (core_in C _ Hb) as (_&_&[_ ?]). apply Hs.
    - intros x Hx. destruct (core_free C x Hx) as [sz Hf].
      destruct (core_in C _ Hf) as (_&_&[_ ?]).
      destruct (layout_sep _ _ _ _ _ (core_layout C) Hb Hf) as [->|E];
        unfold b_end in *; simpl in *; [destruct Ha as [?|[? ?]]; [lia|done]|lia].
    - intros d Hdd. destruct (HD d Hdd) as (Hdb & Hda & _).
      destruct (layout_sep _ _ _ _ _ (core_layout C) Hb Hdb) as [->|E]; [done|].
      unfold b_end in *; lia. }
  split.
  - split; try apply C; auto. apply Forall_forall. intros b Hb.
    destruct (decide (b ∈ D)) as [HbD|HbD]; [by apply HD|].
    eapply tag_frame; [by apply (core_in C)| |by apply (core_tag C)].
    intros a Ha. eapply Hsep; eauto.
  - intros b Hb Hal a Ha. eapply Hsep; eauto; [|right; split; [done|lia]].
    intros HbD. destruct (HD b HbD) as (_ & Hf & _). congruence.
Qed.

Lemma core_remove brk m hf hl ff lf bs l1 x l2 :
  Core brk m hf hl ff lf bs (l1 ++ x :: l2) ->
  exists m' ff' lf',
    remove_from_freelist x (St H brk m hf hl ff lf) = Ok (x, St H brk m' hf hl ff' lf') /\
    Core brk m' hf hl ff' lf' bs (l1 ++ l2) /\ pay_same bs m m'.
Proof.
  intros C.
  destruct (remove_spec H brk (core_pos C) (core_high C) m hf hl ff lf l1 x l2
              (core_list C) (core_good C)) as (m' & ff' & lf' & E & Hd & Hs).
  exists m', ff', lf'. split; [done|].
  eapply (heap_frame []); eauto; [set_solver| |intros y Hy; apply C; set_solver].
  pose proof (core_nodup C) as Hn. rewrite <- Permutation_middle in Hn. by apply NoDup_cons in Hn as [_ Hn].
Qed.

(** Pushing a block that is tagged free. *)
Lemma core_push brk m hf hl ff lf bs fl b sz :
  Core brk m hf hl ff lf bs fl -> Blk b sz false ∈ bs -> b ∉ fl ->
  exists m' ff' lf',
    (forall hf0 hl0, add_to_freelist b (St H brk m hf0 hl0 ff lf) =
                     Ok (tt, St H brk m' hf0 hl0 ff' lf')) /\
    Core brk m' hf hl ff' lf' bs (b :: fl) /\ pay_same bs m m'.
Proof.
  intros C Hb Hbf. destruct (core_in C _ Hb) as (? & ? & [? ?]).
  unfold b_end in *; cbn [b_addr b_size b_alloc] in *.
  assert (Hfit : fits H b sz fl).
  { split_and!; [lia..|exact (core_even C _ Hb)|]. intros y Hy.
    destruct (core_free C y Hy) as [sy Hy']. destruct (core_in C _ Hy') as (_&_&[_ ?]).
    destruct (layout_sep _ _ _ _ _ (core_layout C) Hb Hy') as [E|E];
      unfold b_end in *; simpl in *; [congruence|lia]. }
  destruct (push_spec H brk (core_pos C) (core_high C) m ff lf b sz false fl Hfit)
    as (m' & lf' & E & Hd & Ht1 & Ht2 & Hs);
    [apply (core_tag C _ Hb)|apply C|apply (core_good C)|].
  exists m', b, lf'. split; [done|].
  apply (heap_frame [Blk b sz false] brk m m' hf hl ff lf bs fl); auto.
  - intros d ->%list_elem_of_singleton. done.
  - intros a Hx Hdd. apply Hs; auto. apply (Hdd _ ltac:(by apply list_elem_of_singleton)).
  - apply NoDup_cons. split; [done|apply C].
  - intros x [->|Hx]%elem_of_cons; [eauto|by apply C].
Qed.

(** *** Changing the blocks *)

(** Replacing the blocks [mid] by blocks [mid'] of the same extent, with all
    writes inside that extent. *)
Lemma core_replace brk m m' hf hl ff lf l mid mid' r fl a0 e0 :
  Core brk m hf hl ff lf (l ++ mid ++ r) fl ->
  layout a0 mid e0 -> layout a0 mid' e0 -> mid <> [] -> mid' <> [] ->
  Forall (tag m') mid' ->
  (forall a, a < a0 \/ e0 <= a -> byte_at m' a = byte_at m a) ->
  (forall b, b ∈ mid -> b_addr b ∉ fl) ->
  Core brk m' hf (last_addr (l ++ mid' ++ r)) ff lf (l ++ mid' ++ r) fl /\
  pay_same (l ++ r) m m'.
Proof.
  intros C Hm Hm' Hne Hne' Ht Hs Hfl.
  destruct (layout_segment _ _ _ _ _ _ _ (core_layout C) Hm Hne) as [Hl Hr].
  assert (Hout : forall b a, b ∈ l ++ r -> b_addr b <= a < b_end b -> byte_at m' a = byte_at m a).
  { intros b a [Hb|Hb]%elem_of_app Ha; apply Hs.
    - pose proof (layout_in _ _ _ _ Hl Hb) as (_ & ? & _). lia.
    - pose proof (layout_in _ _ _ _ Hr Hb) as (? & _ & _). lia. }
  assert (Hfree : forall x, x ∈ fl -> exists sz, Blk x sz false ∈ l ++ r).
  { intros x Hx. destruct (core_free C x Hx) as [sz Hb]. exists sz.
    rewrite !elem_of_app in *. destruct Hb as [?|[Hb|?]]; auto.
    by destruct (Hfl _ Hb). }
  assert (Hin : forall b, b ∈ l ++ r -> b ∈ l ++ mid ++ r) by set_solver.
  assert (Hlink : forall x off, x ∈ fl -> off = 8 \/ off = 16 ->
                   load64 m' (x + off) = load64 m (x + off)).
  { intros x off Hx Hoff. destruct (Hfree x Hx) as [sz Hb].
    destruct (core_in C _ (Hin _ Hb)) as (_&_&[_ ?]).
    apply load_ext. intros a Ha. eapply Hout; [done|].
    unfold b_end in *; simpl in *. lia. }
  split; [|intros b Hb _ a Ha; eapply Hout; eauto; lia].
  split; try apply C; auto.
  - apply layout_app. exists a0. split; [done|]. apply layout_app. eauto.
  - apply Forall_forall. intros b Hb.
    assert (b ∈ l ++ r \/ b ∈ mid') as [Hb'|Hb'] by set_solver.
    + eapply tag_frame; [by apply (core_in C), Hin| |by apply (core_tag C), Hin].
      intros a Ha. eapply Hout; [done|].
      destruct (core_in C _ (Hin _ Hb')) as (_&_&[_ ?]). unfold b_end in *. lia.
    + rewrite Forall_forall in Ht. auto.
  - rewrite (core_first C). by eapply first_addr_replace.
  - pose proof (core_list C) as (-> & -> & Hc). split_and!; [done..|].
    revert Hc. apply chain_frame; auto.
  - intros x Hx. destruct (Hfree x Hx) as [sz Hb]. exists sz. set_solver.
Qed.

(** Writing header and footer of a block. *)
Definition write_tag (b : blk) (m : ram) : ram :=
  store64 (store64 m (b_addr b) (b_size b + b2z (b_alloc b)))
          (b_end b - 8) (b_size b + b2z (b_alloc b)).

Lemma tag_write b m : 32 <= b_size b < 2 ^ 63 -> tag (write_tag b m) b.
Proof.
  intros Hs. unfold tag, write_tag. assert (0 <= b2z (b_alloc b) <= 1) by (destruct (b_alloc b); simpl; lia).
  split; [|apply load64_store64_same; lia].
  rewrite load_store_disjoint by (unfold b_end; lia). apply load64_store64_same. lia.
Qed.

Lemma write_tag_out b m a :
  32 <= b_size b -> a < b_addr b \/ b_end b <= a -> byte_at (write_tag b m) a = byte_at m a.
Proof.
  intros Hs Ha. unfold write_tag. rewrite !byte_at_store_out by (unfold b_end in *; lia). done.
Qed.

Lemma tag_write_other b b' m :
  32 <= b_size b -> 32 <= b_size b' -> b_end b' <= b_addr b \/ b_end b <= b_addr b' ->
  tag m b' -> tag (write_tag b m) b'.
Proof.
  intros Hs Hs' Hd [H1 H2]. unfold tag. rewrite <- H1 at 1. rewrite <- H2.
  split; apply load_ext; intros a Ha; apply write_tag_out; unfold b_end in *; lia.
Qed.

Lemma exec_write_tag {A} (k : unit -> M mm A) brk m hf hl ff lf b sz al :
  0 < H -> H + MAX_HEAP < 2 ^ 63 ->
  H <= b -> b + sz <= H + MAX_HEAP -> size_ok sz ->
  bind (set_header b sz al) (fun _ => bind (set_footer b sz al) k) (St H brk m hf hl ff lf) =
  k tt (St H brk (write_tag (Blk b sz al) m) hf hl ff lf).
Proof.
  intros Hp Hh Hb He Hs. pose proof Hs as [_ ?].
  assert (even_size sz) by (apply size_even; [done|lia]).
  rewrite bind_set_header by (auto; unfold inreg; lia).
  rewrite bind_set_footer by (auto; unfold inreg; lia). done.
Qed.
End Inv.

Arguments core_pos {H brk m hf hl ff lf bs fl} _.
Arguments core_high {H brk m hf hl ff lf bs fl} _.
Arguments core_align {H brk m hf hl ff lf bs fl} _.
Arguments core_layout {H brk m hf hl ff lf bs fl} _.
Arguments core_brk {H brk m hf hl ff lf bs fl} _.
Arguments core_tags {H brk m hf hl ff lf bs fl} _.
Arguments core_first {H brk m hf hl ff lf bs fl} _.
Arguments core_last {H brk m hf hl ff lf bs fl} _.
Arguments core_list {H brk m hf hl ff lf bs fl} _.
Arguments core_nodup {H brk m hf hl ff lf bs fl} _.
Arguments core_free {H brk m hf hl ff lf bs fl} _.
