(* ===== verification/MMExplicitProofs.v ===== *)
(** * Correctness of the explicit allocator

    Each function of mm-explicit.c, executed from a heap that satisfies the
    invariant of [MMExplicitInv], terminates without a fault and establishes
    the invariant again, with the stated effect on the blocks. *)
From stdpp Require Import prelude gmap list.
From Stdlib Require Import ZArith Lia.
From S2P Require Import Prelude Memory Memlib MMExplicit FreeList MMExplicitInv.
Open Scope Z_scope.
Open Scope c_scope.

Section Proofs.
Variable H : Z.
Abbreviation Core := (Core H).
Abbreviation St := (St H).

(** ** find_fit() *)

Section FindFit.
Context {brk m hf hl ff lf bs fl} (C : Core brk m hf hl ff lf bs fl) (n : Z).

Definition too_small (l : list Z) : Prop :=
  forall y sy, y ∈ l -> Blk y sy false ∈ bs -> sy < n.

(** The first block of the list with room for [n] bytes, if any, is unlinked. *)
Definition found (r : Z * mm) : Prop :=
  (r = (NULL, St brk m hf hl ff lf) /\ too_small fl) \/
  (exists l1 x l2 sz m' ff' lf',
     r = (x, St brk m' hf hl ff' lf') /\
     fl = l1 ++ x :: l2 /\ Blk x sz false ∈ bs /\ n <= sz /\ too_small l1 /\
     Core brk m' hf hl ff' lf' bs (l1 ++ l2) /\ pay_same bs m m').

Let step := fun '(l, s) =>
  match find_fit_body n l s with
  | Ok (inl l', s') => Ok (inl (l', s'))
  | Ok (inr a, s') => Ok (inr (a, s'))
  | Err f => Err f
  end.

Lemma find_fit_iter l1 l2 :
  fl = l1 ++ l2 -> too_small l1 ->
  exists r, iter_nat step (S (length l2)) (hd NULL l2, St brk m hf hl ff lf) = Ok (inr r) /\
            found r.
Proof.
  revert l1. induction l2 as [|x l2 IH]; intros l1 Hfl Hts.
  - eexists. split; [simpl; unfold find_fit_body; rewrite bind_free_last|].
    { rewrite Z.eqb_refl, andb_false_r. reflexivity. }
    left. split; [done|]. by rewrite Hfl, app_nil_r.
  - assert (Hx : x ∈ fl) by (rewrite Hfl; set_solver).
    destruct (core_free C x Hx) as [sz Hb].
    pose proof (core_tag _ C _ Hb) as [Ht _]. pose proof (core_header _ C _ Hb) as Hr.
    pose proof (core_even _ C _ Hb) as He. cbn [b_addr b_size b_alloc] in *.
    pose proof (good_node _ _ _ (core_good _ C) Hx) as Hn.
    assert (Hlf : lf <> NULL).
    { destruct (core_list C) as (_ & -> & _). destruct (last fl) as [z|] eqn:E.
      - apply last_Some in E as [l' E].
        pose proof (good_node _ _ z (core_good _ C) ltac:(rewrite E; set_solver)) as Hz.
        pose proof (core_pos C). unfold node_in, NULL in *. simpl. lia.
      - apply last_None in E. rewrite E in Hx. set_solver. }
    pose proof (core_pos C) as Hp. pose proof (core_high C) as Hh.
    cbn [iter_nat length hd]. unfold step at 1. unfold find_fit_body. mm_run.
    rewrite (proj2 (Z.eqb_neq _ _) Hlf).
    replace (x =? NULL) with false by (unfold node_in, NULL in *; lia). mm_run.
    destruct (Z.leb_spec n sz) as [Hle|Hgt].
    + rewrite Hfl in C. destruct (core_remove H _ _ _ _ _ _ _ _ _ _ C)
        as (m' & ff' & lf' & E & C' & Hp').
      rewrite (bind_ok _ _ _ _ _ E). eexists. split; [reflexivity|]. right.
      exists l1, x, l2, sz, m', ff', lf'. auto 10.
    + mm_run. unfold ret.
      destruct (core_list C) as (_ & _ & Hc). rewrite Hfl in Hc.
      apply chain_app in Hc as [_ (_ & Hnx & _)]. rewrite Hnx.
      apply (IH (l1 ++ [x])); [by rewrite <- app_assoc|].
      intros y sy [Hy|Hy]%elem_of_app Hby; [eauto|].
      apply list_elem_of_singleton in Hy as ->.
      assert (Blk x sy false = Blk x sz false) as [= ->]; [|done].
      eapply layout_addr_inj; [apply (core_layout C)|done..].
Qed.

Lemma find_fit_spec :
  exists r, find_fit n (St brk m hf hl ff lf) = Ok r /\ found r.
Proof.
  destruct (find_fit_iter [] fl eq_refl) as (r & E & Hr); [by intros ?? ?%elem_of_nil|].
  exists r. split; [|done]. unfold find_fit. rewrite bind_free_first.
  destruct (core_list C) as (-> & _ & _). unfold loopM.
  eapply loop_nat; [exact E|].
  assert (Hsub : (length fl <= length bs)%nat).
  { rewrite <- (length_fmap b_addr bs). apply submseteq_length, NoDup_submseteq; [apply C|].
    intros x Hx. destruct (core_free C x Hx) as [sz Hb].
    apply list_elem_of_fmap. by exists (Blk x sz false). }
  pose proof (layout_le _ _ _ (core_layout C)) as Hl.
  pose proof (core_brk C). pose proof (core_high C). pose proof (core_pos C). lia.
Qed.
End FindFit.

(** ** Request sizes *)

Definition asize (size : Z) : Z := (size + 31) / 16 * 16.

Lemma asize_bounds size :
  0 < size -> size + 16 <= asize size < size + 32 /\ size_ok (asize size).
Proof.
  intros Hs. unfold asize, size_ok. rewrite Z.mod_mul by lia.
  Z.to_euclidean_division_equations. lia.
Qed.

Lemma round_up_request size :
  0 < size < 2 ^ 64 - 32 ->
  round_up (u64 (SIZEOF_BLOCK + size + SIZEOF_SIZE_T)) ALIGNMENT = asize size.
Proof.
  intros Hs. pose proof (asize_bounds size). unfold round_up, ALIGNMENT, SIZEOF_BLOCK, SIZEOF_SIZE_T in *.
  rewrite (wrapU_small 64 (8 + size + 8)) by lia.
  replace (8 + size + 8 + (2 * 8 - 1)) with (size + 31) by lia.
  rewrite (wrapU_small 64 (size + 31)) by lia. apply wrapU_small.
  unfold asize in *. change (2 * 8) with 16. lia.
Qed.

Lemma round_up_split n :
  size_ok n -> n < 2 ^ 63 ->
  round_up (u64 (n + SIZEOF_FREE_BLOCK)) ALIGNMENT = n + 32.
Proof.
  intros [Hm Hl] Hb. unfold round_up, ALIGNMENT, SIZEOF_FREE_BLOCK, SIZEOF_SIZE_T.
  rewrite (wrapU_small 64 (n + 24)) by lia.
  rewrite (wrapU_small 64 (n + 24 + _)) by lia. rewrite wrapU_small.
  - Z.to_euclidean_division_equations. lia.
  - Z.to_euclidean_division_equations. lia.
Qed.

(** ** The steps of mm_malloc() *)

(** A free block, out of the list, becomes allocated. *)
Lemma core_use brk m hf hl ff lf l r fl x sz :
  Core brk m hf hl ff lf (l ++ [Blk x sz false] ++ r) fl -> x ∉ fl ->
  let m' := write_tag (Blk x sz true) m in
  Core brk m' hf hl ff lf (l ++ [Blk x sz true] ++ r) fl /\ pay_same (l ++ r) m m'.
Proof.
  intros C Hx m'.
  assert (Hin : Blk x sz false ∈ l ++ [Blk x sz false] ++ r) by set_solver.
  destruct (core_in _ C _ Hin) as (?&?&Hs). pose proof (core_even _ C _ Hin) as [_ ?].
  unfold b_end in *; cbn [b_addr b_size] in *. pose proof Hs as [_ ?].
  destruct (core_replace H brk m m' hf hl ff lf l [Blk x sz false] [Blk x sz true] r fl x (x + sz))
    as [C' Hp]; try done.
  - apply Forall_singleton. apply tag_write. simpl. lia.
  - intros a Ha. apply write_tag_out; [done|]. unfold b_end; simpl. lia.
  - intros b ->%list_elem_of_singleton. done.
  - split; [|done]. assert (hl = last_addr (l ++ [Blk x sz true] ++ r)) as ->; [|done].
    rewrite (core_last C). do 2 rewrite (last_addr_app l) by done. simpl.
    destruct r; [done|]. by do 2 rewrite (last_addr_cons (Blk _ _ _)) by done.
Qed.

(** A free block, out of the list, is split in two. *)
Lemma core_split brk m hf hl ff lf l r fl x sz n :
  Core brk m hf hl ff lf (l ++ [Blk x sz false] ++ r) fl -> x ∉ fl ->
  size_ok n -> n + 32 <= sz ->
  let m' := write_tag (Blk (x + n) (sz - n) false) (write_tag (Blk x n true) m) in
  let bs' := l ++ [Blk x n true; Blk (x + n) (sz - n) false] ++ r in
  Core brk m' hf (last_addr bs') ff lf bs' fl /\ pay_same (l ++ r) m m'.
Proof.
  intros C Hx Hn Hsplit m' bs'.
  assert (Hin : Blk x sz false ∈ l ++ [Blk x sz false] ++ r) by set_solver.
  destruct (core_in _ C _ Hin) as (?&?&Hs). pose proof (core_even _ C _ Hin) as [_ ?].
  unfold b_end in *; cbn [b_addr b_size] in *. pose proof Hs as [Hs1 ?]. pose proof Hn as [Hn1 ?].
  assert (Hs2 : size_ok (sz - n)).
  { split; [|lia]. Z.to_euclidean_division_equations. lia. }
  eapply core_replace with (mid := [Blk x sz false]) (a0 := x) (e0 := x + sz); try done.
  - simpl. do 4 (split; [done|]). unfold b_end; simpl. lia.
  - apply Forall_cons. split; [|apply Forall_singleton; apply tag_write; simpl; lia].
    apply tag_write_other; unfold b_end; simpl; [lia..|]. apply tag_write. simpl. lia.
  - intros a Ha. unfold m'.
    rewrite !write_tag_out; [done|unfold b_end; simpl; lia..].
  - intros b ->%list_elem_of_singleton. done.
Qed.

(** A new block at the break. *)
Lemma core_extend brk m hf hl ff lf bs fl n :
  Core brk m hf hl ff lf bs fl -> size_ok n -> brk + n <= H + MAX_HEAP ->
  let m' := write_tag (Blk brk n true) m in
  let bs' := bs ++ [Blk brk n true] in
  Core (brk + n) m' (first_addr bs') brk ff lf bs' fl /\ pay_same bs m m'.
Proof.
  intros C Hn Hb m' bs'. pose proof Hn as [_ ?].
  pose proof (layout_le _ _ _ (core_layout C)) as Hle.
  pose proof (core_high C). pose proof (core_pos C).
  assert (Hout : forall b a, b ∈ bs -> a < b_end b -> byte_at m' a = byte_at m a).
  { intros b a Hbb Ha. apply write_tag_out; [done|].
    pose proof (layout_in _ _ _ _ (core_layout C) Hbb). simpl. lia. }
  split; [|intros b Hbb _ a Ha; eapply Hout; eauto; lia].
  split; try apply C; auto.
  - apply layout_app. exists brk. split; [apply C|]. done.
  - apply Forall_app. split; [|apply Forall_singleton, tag_write; simpl; lia].
    apply Forall_forall. intros b Hbb. eapply tag_frame; [by apply (core_in _ C)| |by apply (core_tag _ C)].
    intros a Ha. destruct (core_in _ C _ Hbb) as (_&_&[_ ?]).
    eapply Hout; [done|]. unfold b_end in *. lia.
  - unfold bs'. by rewrite last_addr_app.
  - pose proof (core_list C) as (-> & -> & Hc). split_and!; [done..|].
    revert Hc. apply chain_frame; intros x Hx; destruct (core_free C x Hx) as [sz Hbb].
    all: destruct (core_in _ C _ Hbb) as (_&_&[_ ?]); apply load_ext; intros a Ha.
    all: eapply Hout; [done|]; unfold b_end in *; simpl in *; lia.
  - intros x Hx. destruct (core_free C x Hx) as [sz Hbb]. exists sz. set_solver.
Qed.

(** ** The allocator's invariant *)

(** The free list is exactly the set of free blocks, fully coalesced. *)
Definition Inv (s : mm) (bs : list blk) (fl : list Z) : Prop :=
  exists brk m hf hl ff lf,
    s = St brk m hf hl ff lf /\ Core brk m hf hl ff lf bs fl /\
    fl ≡ₚ free_addrs bs /\ no_adj (flags bs).

(** What mm_malloc() promises. *)
Definition malloc_post (size : Z) (s : mm) (bs : list blk) (p : Z) (s' : mm) : Prop :=
  (p = NULL /\ s' = s /\
   (forall b, b ∈ bs -> b_alloc b = false -> b_size b < asize size) /\
   H + MAX_HEAP < mem_brk (ml s) + asize size) \/
  (exists b bs' fl',
     p = b_addr b + 8 /\ p mod 16 = 0 /\ size <= b_size b - 16 /\ b_alloc b = true /\
     Inv s' bs' fl' /\ allocs bs' ≡ₚ b :: allocs bs /\
     pay_same bs (mram (ml s)) (mram (ml s'))).

Lemma core_payload_aligned brk m hf hl ff lf bs fl b :
  Core brk m hf hl ff lf bs fl -> b ∈ bs -> (b_addr b + 8) mod 16 = 0.
Proof.
  intros C Hb. pose proof (layout_mod _ _ _ _ (core_layout C) Hb) as Hm.
  pose proof (core_align C). Z.to_euclidean_division_equations. lia.
Qed.

Lemma pay_same_alloc l r x sz m m' :
  pay_same (l ++ r) m m' -> pay_same (l ++ [Blk x sz false] ++ r) m m'.
Proof. apply pay_same_sub. intros b Hb Ha. set_unfold. naive_solver. Qed.

Lemma free_addrs_free l r x sz fl1 fl2 :
  fl1 ++ x :: fl2 ≡ₚ free_addrs (l ++ [Blk x sz false] ++ r) ->
  fl1 ++ fl2 ≡ₚ free_addrs (l ++ r).
Proof.
  rewrite !free_addrs_app. unfold free_addrs at 2. simpl.
  rewrite <- !Permutation_middle. apply Permutation_cons_inv.
Qed.

Lemma flags_use l x sz x' sz' r :
  no_adj (flags (l ++ [Blk x sz false] ++ r)) ->
  no_adj (flags (l ++ [Blk x' sz' true] ++ r)).
Proof.
  unfold flags. rewrite !fmap_app. simpl. rewrite (no_adj_app _ true), no_adj_snoc_true, no_adj_true.
  intros [Hl Hr]%no_adj_app. split; [by eapply no_adj_prefix|by eapply no_adj_tail].
Qed.

Lemma flags_split l x sz x1 sz1 x2 sz2 r :
  no_adj (flags (l ++ [Blk x sz false] ++ r)) ->
  no_adj (flags (l ++ [Blk x1 sz1 true; Blk x2 sz2 false] ++ r)).
Proof.
  unfold flags. rewrite !fmap_app. simpl. rewrite (no_adj_app _ true), no_adj_snoc_true, no_adj_true.
  intros [Hl Hr]%no_adj_app. split; [by eapply no_adj_prefix|done].
Qed.

(** The last block is the one followed by no other. *)
Lemma core_is_last brk m hf hl ff lf l b r fl :
  Core brk m hf hl ff lf (l ++ [b] ++ r) fl -> (b_addr b =? hl) = bool_decide (r = []).
Proof.
  intros C. rewrite (core_last C), (last_addr_app l) by done. destruct r as [|c r].
  - unfold last_addr. simpl. by rewrite Z.eqb_refl.
  - rewrite bool_decide_false, Z.eqb_neq by done. rewrite (last_addr_app [b]) by done.
    unfold last_addr. destruct (last (c :: r)) as [d|] eqn:E; [|by apply last_None in E].
    simpl. intros Eq. apply last_Some in E as [l' E].
    destruct (layout_segment _ _ [b] _ _ (b_addr b) (b_end b) (core_layout C)) as [_ Hr]; [|done|].
    { split_and!; [done| |done]. apply (core_in _ C). set_solver. }
    assert (Hd : d ∈ c :: r) by (rewrite E; set_solver).
    pose proof (layout_in _ _ _ _ Hr Hd) as [? _].
    assert (size_ok (b_size b)) as [_ ?] by (apply (core_in _ C); set_solver).
    unfold b_end in *. lia.
Qed.

Lemma malloc_split brk m hf hl ff lf l r x sz n fl :
  Core brk m hf hl ff lf (l ++ [Blk x sz false] ++ r) fl -> x ∉ fl ->
  size_ok n -> n + 32 <= sz ->
  let bs' := l ++ [Blk x n true; Blk (x + n) (sz - n) false] ++ r in
  exists m' ff' lf',
    split_block_exp x n sz (St brk m hf hl ff lf) =
      Ok (x + 8, St brk m' hf (last_addr bs') ff' lf') /\
    Core brk m' hf (last_addr bs') ff' lf' bs' ((x + n) :: fl) /\
    pay_same (l ++ r) m m'.
Proof.
  intros C Hx Hn Hsp bs'.
  assert (Hin : Blk x sz false ∈ l ++ [Blk x sz false] ++ r) by set_solver.
  pose proof (core_is_last _ _ _ _ _ _ _ _ _ _ C) as Hlast. cbn [b_addr] in Hlast.
  destruct (core_in _ C _ Hin) as (?&?&Hs). pose proof (core_even _ C _ Hin) as [_ ?].
  unfold b_end in *; cbn [b_addr b_size] in *.
  pose proof (core_pos C) as Hp. pose proof (core_high C) as Hh. pose proof Hn as [Hn1 ?].
  destruct (core_split _ _ _ _ _ _ _ _ _ _ _ _ C Hx Hn Hsp) as [C' Hp'].
  assert (Hin' : Blk (x + n) (sz - n) false ∈ bs') by (unfold bs'; set_solver).
  assert (Hxn : x + n ∉ fl).
  { intros Hf. destruct (core_free C _ Hf) as [sy Hy].
    pose proof (core_in _ C _ Hy) as (_&_&[_ ?]).
    destruct (layout_sep _ _ _ _ _ (core_layout C) Hin Hy) as [[= ? ?]|?];
      unfold b_end in *; simpl in *; lia. }
  destruct (core_push _ _ _ _ _ _ _ _ _ _ _ C' Hin' Hxn) as (m2 & ff2 & lf2 & E & C2 & Hp2).
  exists m2, ff2, lf2. split; [|split; [done|]].
  - unfold split_block_exp. destruct (core_in _ C' _ Hin') as (_&_&?).
    rewrite exec_write_tag by (done || lia).
    rewrite padd_small, (wrapU_small 64 (sz - n)) by lia. cbv zeta.
    rewrite exec_write_tag by (done || simpl in *; lia).
    rewrite (bind_ok _ _ _ _ _ (E hf hl)). mm_run. rewrite Hlast.
    rewrite padd_small by (unfold OFF_PAYLOAD; lia). unfold bs', OFF_PAYLOAD.
    rewrite (last_addr_app l) by done. destruct r as [|c r].
    + rewrite bool_decide_true by done. by mm_run.
    + rewrite bool_decide_false by done. mm_run.
      rewrite (core_last C), (last_addr_app l) by done.
      by do 2 (rewrite last_addr_app by done; symmetry).
  - eapply pay_same_trans; [done|]. eapply pay_same_sub; [|done].
    intros b Hb Hba. unfold bs'. set_solver.
Qed.

(** The found block is used whole or split. *)
Lemma malloc_fit brk m hf hl ff lf l r x sz fl size s0 :
  Core brk m hf hl ff lf (l ++ [Blk x sz false] ++ r) fl -> x ∉ fl ->
  fl ≡ₚ free_addrs (l ++ r) -> no_adj (flags (l ++ [Blk x sz false] ++ r)) ->
  0 < size -> asize size <= sz ->
  pay_same (l ++ [Blk x sz false] ++ r) (mram (ml s0)) m ->
  exists s',
    (if round_up (u64 (asize size + SIZEOF_FREE_BLOCK)) ALIGNMENT <=? sz
     then split_block_exp x (asize size) sz
     else set_header x sz true ;;; set_footer x sz true ;;; ret (padd x OFF_PAYLOAD))
      (St brk m hf hl ff lf) = Ok (x + 8, s') /\
    malloc_post size s0 (l ++ [Blk x sz false] ++ r) (x + 8) s'.
Proof.
  intros C Hx Hfl Hadj Hsz Hle Hpay. pose proof (asize_bounds size Hsz) as [Ha Hok].
  assert (Hin : Blk x sz false ∈ l ++ [Blk x sz false] ++ r) by set_solver.
  destruct (core_in _ C _ Hin) as (?&?&Hs). pose proof (core_even _ C _ Hin) as [_ ?].
  pose proof (core_payload_aligned _ _ _ _ _ _ _ _ _ C Hin) as Hal.
  unfold b_end in *; cbn [b_addr b_size] in *.
  pose proof (core_pos C) as Hp. pose proof (core_high C) as Hh. pose proof Hs as [_ ?].
  rewrite round_up_split by (done || lia).
  destruct (Z.leb_spec (asize size + 32) sz) as [Hsp|Hsp].
  - destruct (malloc_split _ _ _ _ _ _ _ _ _ _ _ _ C Hx Hok Hsp)
      as (m' & ff' & lf' & E & C' & Hp').
    eexists. split; [exact E|]. right.
    eexists (Blk x (asize size) true), _, _. split; [done|]. split; [done|].
    split; [simpl; lia|]. split; [done|]. split; [|split].
    + eexists _, _, _, _, _, _. split; [reflexivity|]. split; [exact C'|].
      split; [|by eapply flags_split]. rewrite Hfl, !free_addrs_app. simpl.
      by rewrite <- Permutation_middle.
    + rewrite !allocs_app. simpl. by rewrite <- Permutation_middle.
    + eapply pay_same_trans; [done|]. by apply pay_same_alloc.
  - rewrite exec_write_tag by (done || lia). unfold ret, OFF_PAYLOAD.
    rewrite padd_small by lia. eexists. split; [reflexivity|]. right.
    destruct (core_use _ _ _ _ _ _ _ _ _ _ _ C Hx) as [C' Hp'].
    exists (Blk x sz true), (l ++ [Blk x sz true] ++ r), fl. split; [done|]. split; [done|].
    split; [simpl; lia|]. split; [done|]. split; [|split].
    + eexists _, _, _, _, _, _. split; [reflexivity|]. split; [done|].
      split; [by rewrite Hfl, !free_addrs_app|by eapply flags_use].
    + rewrite !allocs_app. simpl. by rewrite <- Permutation_middle.
    + eapply pay_same_trans; [done|]. by apply pay_same_alloc.
Qed.

(** ** Extending the heap *)

Lemma sbrk_ok brk m hf hl ff lf n :
  0 < H -> H + MAX_HEAP < 2 ^ 63 -> H <= brk -> 0 <= n -> brk + n <= H + MAX_HEAP ->
  zoom (mem_sbrk n) (St brk m hf hl ff lf) = Ok (brk, St (brk + n) m hf hl ff lf).
Proof.
  intros. unfold zoom, mem_sbrk. simpl.
  rewrite wrapS_small, wrapU_small by lia.
  replace (n <? 0) with false by lia.
  by replace (H + MAX_HEAP <? brk + n) with false by lia.
Qed.

Lemma sbrk_fail brk m hf hl ff lf n :
  0 < H -> H + MAX_HEAP < 2 ^ 63 -> H <= brk -> 0 <= n < 2 ^ 64 -> H + MAX_HEAP < brk + n ->
  brk <= H + MAX_HEAP ->
  zoom (mem_sbrk n) (St brk m hf hl ff lf) = Ok (PTR_FAILED, St brk m hf hl ff lf).
Proof.
  intros. unfold zoom, mem_sbrk. simpl.
  destruct (Z.ltb_spec n (2 ^ 63)).
  - rewrite wrapS_small, wrapU_small by lia.
    by replace (H + MAX_HEAP <? brk + n) with true by lia; rewrite orb_true_r.
  - replace (wrapS 64 n <? 0) with true; [done|]. symmetry. apply Z.ltb_lt.
    rewrite (wrapS_congr 64 n (n - 2 ^ 64)).
    + rewrite wrapS_small; lia.
    + rewrite <- (Z.mod_add (n - 2 ^ 64) 1 (2 ^ 64)) by lia. f_equal. lia.
Qed.

Lemma first_addr_pos brk m hf hl ff lf bs fl :
  Core brk m hf hl ff lf bs fl -> (hf =? NULL) = bool_decide (bs = []).
Proof.
  intros C. rewrite (core_first C). destruct bs as [|b bs]; [done|].
  rewrite bool_decide_false by done. unfold first_addr; simpl.
  destruct (core_layout C) as (-> & _). pose proof (core_pos C). unfold NULL. lia.
Qed.

(** ** mm_malloc() *)

(** The branch of mm_malloc() that asks the memory system for more. *)
Definition extend (n : Z) : M mm Z :=
  block <- zoom (mem_sbrk n);;
  if block =? PTR_FAILED then ret NULL
  else
    first <- gets mm_heap_first;;
    (if first =? NULL then set_heap_first block else ret tt) ;;;
    set_heap_last block ;;;
    set_header block n true ;;;
    set_footer block n true ;;;
    ret (padd block OFF_PAYLOAD).

Lemma extend_ok brk m hf hl ff lf bs fl n :
  Core brk m hf hl ff lf bs fl -> size_ok n -> brk + n <= H + MAX_HEAP ->
  extend n (St brk m hf hl ff lf) =
  Ok (brk + 8, St (brk + n) (write_tag (Blk brk n true) m)
                  (first_addr (bs ++ [Blk brk n true])) brk ff lf).
Proof.
  intros C Hok Hroom. pose proof Hok as [_ ?].
  pose proof (core_pos C) as Hp. pose proof (core_high C) as Hh.
  pose proof (layout_le _ _ _ (core_layout C)) as Hle.
  unfold extend. erewrite bind_ok by (apply sbrk_ok; lia).
  replace (brk =? PTR_FAILED) with false by (rewrite PTR_FAILED_val; lia).
  mm_run. rewrite (first_addr_pos _ _ _ _ _ _ _ _ C), (core_first C).
  destruct bs as [|b bs].
  - rewrite bool_decide_true by done. mm_run. rewrite exec_write_tag by (done || lia).
    unfold ret, OFF_PAYLOAD. by rewrite padd_small by lia.
  - rewrite bool_decide_false by done. mm_run. rewrite exec_write_tag by (done || lia).
    unfold ret, OFF_PAYLOAD. by rewrite padd_small by lia.
Qed.

Lemma malloc_extend brk m hf hl ff lf bs fl size :
  Core brk m hf hl ff lf bs fl -> fl ≡ₚ free_addrs bs -> no_adj (flags bs) ->
  0 < size < 2 ^ 64 - 32 ->
  (forall b, b ∈ bs -> b_alloc b = false -> b_size b < asize size) ->
  exists p s', extend (asize size) (St brk m hf hl ff lf) = Ok (p, s') /\
               malloc_post size (St brk m hf hl ff lf) bs p s'.
Proof.
  intros C Hfl Hadj Hsz Hsmall. pose proof (asize_bounds size ltac:(lia)) as [Ha Hok].
  pose proof (layout_le _ _ _ (core_layout C)) as Hle. pose proof (core_brk C) as Hb.
  destruct (Z.leb_spec (brk + asize size) (H + MAX_HEAP)) as [Hroom|Hroom].
  - destruct (core_extend _ _ _ _ _ _ _ _ _ C Hok Hroom) as [C' Hp'].
    eexists _, _. split; [by eapply extend_ok|]. right.
    eexists (Blk brk (asize size) true), _, _. split; [done|].
    split; [eapply (core_payload_aligned _ _ _ _ _ _ _ _ (Blk brk (asize size) true) C'); set_solver|].
    split; [simpl; lia|]. split; [done|]. split; [|split; [|done]].
    + eexists _, _, _, _, _, _. split; [reflexivity|]. split; [exact C'|].
      rewrite free_addrs_app. simpl. rewrite app_nil_r. split; [done|].
      unfold flags. rewrite fmap_app. simpl. by apply no_adj_snoc_true.
    + rewrite allocs_app. simpl. by rewrite Permutation_app_comm.
  - pose proof (core_pos C). pose proof (core_high C).
    unfold extend. erewrite bind_ok by (apply sbrk_fail; lia).
    rewrite Z.eqb_refl. eexists _, _. split; [reflexivity|]. by left.
Qed.

Lemma free_in_list bs fl b : fl ≡ₚ free_addrs bs -> b ∈ bs -> b_alloc b = false -> b_addr b ∈ fl.
Proof.
  intros -> Hb Ha. apply list_elem_of_fmap. exists b. split; [done|].
  by apply list_elem_of_filter.
Qed.

Lemma mm_malloc_correct size s bs fl :
  Inv s bs fl -> 0 < size < 2 ^ 64 - 32 ->
  exists p s', mm_malloc size s = Ok (p, s') /\ malloc_post size s bs p s'.
Proof.
  intros (brk & m & hf & hl & ff & lf & -> & C & Hfl & Hadj) Hsz.
  unfold mm_malloc. rewrite round_up_request by done. cbv zeta.
  destruct (find_fit_spec C (asize size)) as ([x s1] & E & Hr).
  rewrite (bind_ok _ _ _ _ _ E).
  destruct Hr as [([= -> ->] & Hsmall)|(l1 & y & l2 & sz & m' & ff' & lf' & [= -> ->] & Hfl' & Hin & Hge & _ & C' & Hpay)].
  - rewrite Z.eqb_refl. cbn [negb]. apply malloc_extend with (fl := fl); try done.
    intros [x sz al] Hin Hal. simpl in Hal. subst al. apply (Hsmall x sz); [|done].
    by apply (free_in_list _ _ _ Hfl Hin).
  - pose proof (core_tag _ C' _ Hin) as [Ht _]. pose proof (core_header _ C' _ Hin) as Hreg.
    pose proof (core_even _ C' _ Hin) as He. pose proof (core_in _ C' _ Hin) as (?&_&_).
    cbn [b_addr b_size b_alloc] in *. pose proof (core_pos C) as Hp.
    replace (y =? NULL) with false by (unfold NULL; lia). mm_run.
    assert (Hy : y ∉ l1 ++ l2).
    { pose proof (core_nodup C) as Hn. rewrite Hfl', <- Permutation_middle in Hn.
      by apply NoDup_cons in Hn as [? _]. }
    apply list_elem_of_split in Hin as (l & r & ->). rewrite Hfl' in Hfl.
    destruct (malloc_fit brk m' hf hl ff' lf' l r y sz (l1 ++ l2) size
                (St brk m hf hl ff lf)) as (s' & E' & Hpost); try done.
    + by eapply free_addrs_free.
    + lia.
    + eauto.
Qed.

(** ** Coalescing *)

(** The blocks [mid], none of them in the list, become one free block. *)
Lemma core_merge brk m hf hl ff lf l mid r fl x sz :
  Core brk m hf hl ff lf (l ++ mid ++ r) fl -> layout x mid (x + sz) -> mid <> [] ->
  size_ok sz -> (forall b, b ∈ mid -> b_addr b ∉ fl) ->
  let m' := write_tag (Blk x sz false) m in
  let bs' := l ++ [Blk x sz false] ++ r in
  Core brk m' hf (last_addr bs') ff lf bs' fl /\ pay_same (l ++ r) m m'.
Proof.
  intros C Hm Hne Hok Hfl m' bs'. pose proof Hok as [_ ?].
  pose proof (core_high C). pose proof (core_pos C).
  destruct (layout_segment _ _ _ _ _ _ _ (core_layout C) Hm Hne) as [Hl Hr].
  apply layout_le in Hl, Hr. pose proof (core_brk C).
  eapply core_replace; try done.
  - apply Forall_singleton, tag_write. simpl. lia.
  - intros a Ha. apply write_tag_out; [done|]. done.
Qed.

(** A block of the heap together with its right neighbours, in memory. *)
Lemma core_at brk m hf hl ff lf l b r fl :
  Core brk m hf hl ff lf (l ++ [b] ++ r) fl ->
  layout (H + 8) l (b_addr b) /\ layout (b_end b) r brk /\ size_ok (b_size b).
Proof.
  intros C. assert (size_ok (b_size b)) by (apply (core_in _ C); set_solver).
  destruct (layout_segment _ _ [b] _ _ (b_addr b) (b_end b) (core_layout C)); [|done..].
  split_and!; done.
Qed.

Lemma core_is_first brk m hf hl ff lf l b r fl :
  Core brk m hf hl ff lf (l ++ [b] ++ r) fl -> (b_addr b =? hf) = bool_decide (l = []).
Proof.
  intros C. destruct (core_at _ _ _ _ _ _ _ _ _ _ C) as (Hl & _ & _).
  rewrite (core_first C). destruct l as [|c l].
  - unfold first_addr; simpl. by rewrite Z.eqb_refl.
  - rewrite bool_decide_false, Z.eqb_neq by done. unfold first_addr; simpl.
    destruct Hl as (? & [_ ?] & Hl). apply layout_le in Hl. unfold b_end in *. lia.
Qed.

(** What coalesce_left() leaves for coalesce_right(). *)
Definition left_post brk m hf l sz r p (s' : mm) : Prop :=
  exists m' hl' ff' lf' l' psz fl',
    s' = St brk m' hf hl' ff' lf' /\
    Core brk m' hf hl' ff' lf' (l' ++ [Blk p psz false] ++ r) fl' /\
    (p ∉ fl') /\ fl' ≡ₚ free_addrs (l' ++ r) /\ allocs l' = allocs l /\
    no_adj (flags l' ++ [false]) /\ sz <= psz /\ pay_same (l ++ r) m m'.

Lemma coalesce_left_alone brk m hf hl ff lf l b sz r fl :
  Core brk m hf hl ff lf (l ++ [Blk b sz true] ++ r) fl ->
  fl ≡ₚ free_addrs (l ++ r) -> no_adj (flags l ++ [false]) ->
  exists s', (set_header b sz false ;;; set_footer b sz false ;;; ret b)
               (St brk m hf hl ff lf) = Ok (b, s') /\ left_post brk m hf l sz r b s'.
Proof.
  intros C Hfl Hadj.
  assert (Hin : Blk b sz true ∈ l ++ [Blk b sz true] ++ r) by set_solver.
  destruct (core_in _ C _ Hin) as (?&?&Hok). unfold b_end in *; cbn [b_addr b_size] in *.
  assert (Hb : b ∉ fl).
  { intros Hb. destruct (core_free C _ Hb) as [s1 Hb1].
    by pose proof (layout_addr_inj _ _ _ _ _ (core_layout C) Hin Hb1 eq_refl). }
  destruct (core_merge brk m hf hl ff lf l [Blk b sz true] r fl b sz C) as [C' Hp]; try done.
  { intros c ->%list_elem_of_singleton. done. }
  rewrite exec_write_tag by (try apply (core_pos C); try apply (core_high C); done || lia).
  eexists. split; [reflexivity|].
  assert (last_addr (l ++ [Blk b sz false] ++ r) = hl) as Hl.
  { rewrite (core_last C). do 2 rewrite (last_addr_app l) by done. simpl.
    destruct r; [done|]. by do 2 rewrite (last_addr_cons (Blk _ _ _)) by done. }
  rewrite Hl in C'. eexists _, _, _, _, l, sz, fl. split; [reflexivity|]. done.
Qed.

(** Unlinking a free block, moving the last block pointer and tagging the
    merged block: the common part of the two coalescing functions. *)
Definition merge_code (x y z sz : Z) : M mm Z :=
  remove_from_freelist y ;;;
  last <- gets mm_heap_last;;
  (if z =? last then set_heap_last x else ret tt) ;;;
  set_header x sz false ;;;
  set_footer x sz false ;;;
  ret x.

Lemma merge_spec brk m hf hl ff lf l mid r fl1 y fl2 x z sz :
  (z =? hl) = bool_decide (r = []) ->
  Core brk m hf hl ff lf (l ++ mid ++ r) (fl1 ++ y :: fl2) ->
  layout x mid (x + sz) -> mid <> [] -> size_ok sz ->
  (forall b, b ∈ mid -> b_addr b = y \/ b_addr b ∉ fl1 ++ y :: fl2) ->
  exists m' ff' lf' hl',
    merge_code x y z sz (St brk m hf hl ff lf) =
      Ok (x, St brk m' hf hl' ff' lf') /\
    Core brk m' hf hl' ff' lf' (l ++ [Blk x sz false] ++ r) (fl1 ++ fl2) /\
    pay_same (l ++ r) m m'.
Proof.
  intros Hz C Hm Hne Hok Hmid.
  destruct (core_remove _ _ _ _ _ _ _ _ _ _ _ C) as (m1 & ff1 & lf1 & E1 & C1 & Hp1).
  destruct (layout_segment _ _ _ _ _ _ _ (core_layout C) Hm Hne) as [Hl Hr].
  apply layout_le in Hl, Hr. pose proof (core_brk C).
  destruct (core_merge _ _ _ _ _ _ _ _ _ _ _ _ C1 Hm Hne Hok) as [C2 Hp2].
  { intros b Hb Hin. pose proof (core_nodup C) as Hn. rewrite <- Permutation_middle in Hn.
    apply NoDup_cons in Hn as [Hy _]. destruct (Hmid b Hb) as [E|Hnin]; [by subst y|].
    set_solver. }
  eexists _, _, _, _. split; [|split; [exact C2|]].
  - unfold merge_code. rewrite (bind_ok _ _ _ _ _ E1). mm_run. rewrite Hz.
    rewrite (last_addr_app l) by done. destruct r as [|c r].
    + rewrite bool_decide_true by done. mm_run.
      rewrite exec_write_tag by (try apply (core_pos C); try apply (core_high C); done || lia).
      done.
    + rewrite bool_decide_false by done. mm_run.
      rewrite exec_write_tag by (try apply (core_pos C); try apply (core_high C); done || lia).
      unfold ret. rewrite (core_last C), app_assoc.
      rewrite (last_addr_app (l ++ mid)), (last_addr_app [_]) by done. done.
  - eapply pay_same_trans; [|exact Hp2]. eapply pay_same_sub; [|exact Hp1]. set_solver.
Qed.

Lemma coalesce_left_spec brk m hf hl ff lf l b sz r fl :
  Core brk m hf hl ff lf (l ++ [Blk b sz true] ++ r) fl ->
  fl ≡ₚ free_addrs (l ++ r) -> no_adj (flags l) ->
  exists p s', coalesce_left b (St brk m hf hl ff lf) = Ok (p, s') /\
               left_post brk m hf l sz r p s'.
Proof.
  intros C Hfl Hadj.
  assert (Hin : Blk b sz true ∈ l ++ [Blk b sz true] ++ r) by set_solver.
  pose proof (core_is_first _ _ _ _ _ _ _ _ _ _ C) as Hfirst.
  pose proof (core_is_last _ _ _ _ _ _ _ _ _ _ C) as Hlast.
  pose proof (core_tag _ C _ Hin) as [Ht _]. pose proof (core_header _ C _ Hin) as Hreg.
  pose proof (core_even _ C _ Hin) as He. pose proof (core_in _ C _ Hin) as (?&?&Hok).
  unfold b_end in *; cbn [b_addr b_size b_alloc] in *.
  pose proof (core_pos C) as Hp. pose proof (core_high C) as Hh.
  unfold coalesce_left. mm_run. rewrite Hfirst.
  destruct l as [|[p psz pal] l _] using rev_ind.
  { rewrite bool_decide_true by done. mm_run.
    destruct (coalesce_left_alone _ _ _ _ _ _ _ _ _ _ _ C Hfl I) as (s' & E & Hpost). eauto. }
  rewrite bool_decide_false by (by destruct l). mm_run.
  assert (Hpin : Blk p psz pal ∈ (l ++ [Blk p psz pal]) ++ [Blk b sz true] ++ r) by set_solver.
  pose proof (core_tag _ C _ Hpin) as [Htp Hfp]. pose proof (core_header _ C _ Hpin) as Hregp.
  pose proof (core_footer _ C _ Hpin) as Hregf.
  pose proof (core_even _ C _ Hpin) as Hep. pose proof (core_in _ C _ Hpin) as (?&?&Hokp).
  assert (Hbp : b = p + psz).
  { destruct (core_at _ _ _ _ _ _ _ _ _ _ C) as (Hl & _ & _).
    apply layout_app in Hl as (c & _ & Hl). destruct Hl as (<- & _ & E). by unfold b_end in E. }
  unfold b_end in *; cbn [b_addr b_size b_alloc] in *. subst b.
  assert (Hf8 : padd (p + psz) (- SIZEOF_SIZE_T) = p + psz - 8).
  { unfold SIZEOF_SIZE_T. rewrite padd_small by (destruct Hokp; lia). lia. }
  pose proof Hokp as [? ?]. pose proof Hok as [? ?].
  rewrite Hf8, bind_ld, Hfp by done. unfold clear_bit0. rewrite land_not1_flag by apply Hep.
  replace (padd (p + psz) (- psz)) with p by (rewrite padd_small; lia). mm_run.
  destruct pal; cbn [negb].
  { mm_run. eexists. eapply coalesce_left_alone; [done..|]. unfold flags. rewrite fmap_app; simpl.
    rewrite <- app_assoc. simpl. apply no_adj_app. split; [|simpl; auto].
    unfold flags in Hadj. by rewrite fmap_app in Hadj. }
  mm_run.
  assert (Hpfl : p ∈ fl).
  { apply (free_in_list _ _ (Blk p psz false) Hfl); [set_solver|done]. }
  apply list_elem_of_split in Hpfl as (l1 & l2 & ->).
  assert (size_ok (psz + sz)) by (split; [Z.to_euclidean_division_equations|]; lia).
  rewrite <- app_assoc in C. simpl app in C.
  destruct (merge_spec brk m hf hl ff lf l [Blk p psz false; Blk (p + psz) sz true] r
              l1 p l2 p (p + psz) (psz + sz) Hlast C) as (m' & ff' & lf' & hl' & E & C' & Hp'); try done.
  { simpl. unfold b_end; simpl. split_and!; try done; lia. }
  { intros c [->|[->|[]%elem_of_nil]%elem_of_cons]%elem_of_cons; [by left|right]. simpl.
    intros Hb. destruct (core_free C _ Hb) as [s1 Hb1].
    assert (Hin' : Blk (p + psz) sz true ∈ l ++ Blk p psz false :: Blk (p + psz) sz true :: r) by set_solver.
    by pose proof (layout_addr_inj _ _ _ _ _ (core_layout C) Hin' Hb1 eq_refl). }
  exists p. eexists. split.
  - etransitivity; [|exact E]. rewrite (wrapU_small 64 (psz + sz)) by lia.
    unfold merge_code, bind. destruct (remove_from_freelist p _) as [[? ?]|]; [|done].
    unfold gets, ret. cbv beta iota. destruct (p + psz =? mm_heap_last m0); reflexivity.
  - exists m', hl', ff', lf', l, (psz + sz), (l1 ++ l2).
    split; [done|]. split; [done|].
    pose proof (core_nodup C) as Hn. rewrite <- Permutation_middle in Hn.
    apply NoDup_cons in Hn as [Hpn _]. split; [done|].
    split; [rewrite <- app_assoc in Hfl; by eapply free_addrs_free|].
    split; [rewrite allocs_app; simpl; by rewrite app_nil_r|].
    split; [unfold flags in *; by rewrite fmap_app in Hadj|]. split; [lia|].
    eapply pay_same_sub; [|done]. intros b Hb Hal. set_unfold. naive_solver.
Qed.
End Proofs.
