(* ===== verification/MMExplicitFree.v ===== *)
(** * Releasing blocks: mm_free(), mm_realloc() and mm_calloc()

    The second half of the correctness of mm-explicit.c, on top of the
    allocation and left-coalescing lemmas of [MMExplicitProofs]. *)
From stdpp Require Import prelude gmap list.
From Stdlib Require Import ZArith Lia.
From S2P Require Import Prelude Memory Memlib MMExplicit FreeList MMExplicitInv MMExplicitProofs.
Open Scope Z_scope.
Open Scope c_scope.

Section Free.
Variable H : Z.
Abbreviation Core := (Core H).
Abbreviation St := (St H).

(** ** coalesce_right() *)

(** A block that is in the heap with a free tag, but not in the list. *)
Lemma core_not_listed brk m hf hl ff lf (bs : list blk) fl b :
  Core brk m hf hl ff lf bs fl -> b ∈ bs -> b_alloc b = true -> b_addr b ∉ fl.
Proof.
  intros C Hb Ha Hin. destruct (core_free C _ Hin) as [s1 Hb1].
  pose proof (layout_addr_inj _ _ _ _ _ (core_layout C) Hb Hb1 eq_refl) as E.
  apply (f_equal b_alloc) in E. simpl in E. congruence.
Qed.

(** Only the allocated blocks matter for [pay_same]. *)
Lemma pay_same_allocs bs bs' m m' :
  allocs bs' = allocs bs -> pay_same bs m m' -> pay_same bs' m m'.
Proof.
  intros E. apply pay_same_sub. intros b Hb Ha.
  assert (Hb' : b ∈ allocs bs') by (by apply list_elem_of_filter).
  rewrite E in Hb'. by apply list_elem_of_filter in Hb' as [_ ?].
Qed.

Definition right_post brk m hf l r p (s' : mm) : Prop :=
  exists m' hl' ff' lf' r' sz' fl',
    s' = St brk m' hf hl' ff' lf' /\
    Core brk m' hf hl' ff' lf' (l ++ [Blk p sz' false] ++ r') fl' /\
    (p ∉ fl') /\ fl' ≡ₚ free_addrs (l ++ r') /\ allocs r' = allocs r /\
    no_adj (false :: flags r') /\ pay_same (l ++ r) m m'.

Lemma coalesce_right_alone brk m hf hl ff lf l p sz r fl :
  Core brk m hf hl ff lf (l ++ [Blk p sz false] ++ r) fl ->
  (p ∉ fl) -> fl ≡ₚ free_addrs (l ++ r) -> no_adj (false :: flags r) ->
  exists s', (set_header p sz false ;;; set_footer p sz false ;;; ret p)
               (St brk m hf hl ff lf) = Ok (p, s') /\ right_post brk m hf l r p s'.
Proof.
  intros C Hpf Hfl Hadj.
  assert (Hin : Blk p sz false ∈ l ++ [Blk p sz false] ++ r) by set_solver.
  destruct (core_in _ C _ Hin) as (?&?&Hok). unfold b_end in *; cbn [b_addr b_size] in *.
  destruct (core_merge _ brk m hf hl ff lf l [Blk p sz false] r fl p sz C) as [C' Hp]; try done.
  { intros c ->%list_elem_of_singleton. done. }
  rewrite exec_write_tag by (try apply (core_pos C); try apply (core_high C); done || lia).
  eexists. split; [reflexivity|]. rewrite <- (core_last C) in C'.
  eexists _, _, _, _, r, sz, fl. split; [reflexivity|]. done.
Qed.

Lemma coalesce_right_spec brk m hf hl ff lf l p sz r fl :
  Core brk m hf hl ff lf (l ++ [Blk p sz false] ++ r) fl ->
  (p ∉ fl) -> fl ≡ₚ free_addrs (l ++ r) -> no_adj (flags r) ->
  exists s', coalesce_right p (St brk m hf hl ff lf) = Ok (p, s') /\
             right_post brk m hf l r p s'.
Proof.
  intros C Hpf Hfl Hadj.
  assert (Hin : Blk p sz false ∈ l ++ [Blk p sz false] ++ r) by set_solver.
  pose proof (core_is_last _ _ _ _ _ _ _ _ _ _ _ C) as Hlast.
  destruct (core_at _ _ _ _ _ _ _ _ _ _ _ C) as (_ & Hr & _).
  pose proof (core_tag _ C _ Hin) as [Ht _]. pose proof (core_header _ C _ Hin) as Hreg.
  pose proof (core_even _ C _ Hin) as He. pose proof (core_in _ C _ Hin) as (?&?&Hok).
  unfold b_end in *; cbn [b_addr b_size b_alloc] in *.
  pose proof (core_pos C) as Hp. pose proof (core_high C) as Hh.
  unfold coalesce_right. mm_run. rewrite Hlast. destruct r as [|[n nsz nal] r].
  { rewrite bool_decide_true by done. mm_run.
    destruct (coalesce_right_alone _ _ _ _ _ _ _ _ _ _ _ C Hpf Hfl I) as (s' & E & Hpost). eauto. }
  rewrite bool_decide_false by done. mm_run. destruct Hr as (E & Hokn & Hr).
  assert (Hnin : Blk n nsz nal ∈ l ++ [Blk p sz false] ++ Blk n nsz nal :: r) by set_solver.
  pose proof (core_tag _ C _ Hnin) as [Htn _]. pose proof (core_header _ C _ Hnin) as Hregn.
  pose proof (core_even _ C _ Hnin) as Hen. pose proof (core_in _ C _ Hnin) as (?&?&_).
  unfold b_end in *; cbn [b_addr b_size b_alloc] in *. subst n.
  pose proof Hok as [? ?]. pose proof Hokn as [? ?].
  rewrite padd_small by lia. cbv zeta. mm_run.
  destruct nal; cbn [negb].
  { mm_run. eapply coalesce_right_alone; try done. split; [by right|done]. }
  mm_run.
  assert (Hnfl : p + sz ∈ fl).
  { apply (free_in_list _ _ (Blk (p + sz) nsz false) Hfl); [set_solver|done]. }
  apply list_elem_of_split in Hnfl as (l1 & l2 & ->).
  assert (size_ok (sz + nsz)) by (split; [Z.to_euclidean_division_equations|]; lia).
  assert (Hlastn : (p + sz =? hl) = bool_decide (r = [])).
  { pose proof C as C1. change (Blk (p + sz) nsz false :: r) with ([Blk (p + sz) nsz false] ++ r) in C1.
    rewrite !app_assoc in C1. rewrite <- app_assoc in C1.
    exact (core_is_last _ _ _ _ _ _ _ _ _ _ _ C1). }
  destruct (merge_spec _ brk m hf hl ff lf l [Blk p sz false; Blk (p + sz) nsz false] r
              l1 (p + sz) l2 p (p + sz) (sz + nsz) Hlastn C) as (m' & ff' & lf' & hl' & E' & C' & Hp'); try done.
  { simpl. unfold b_end; simpl. split_and!; try done; lia. }
  { intros c [->|[->|[]%elem_of_nil]%elem_of_cons]%elem_of_cons; [by right|by left]. }
  eexists. split.
  - etransitivity; [|exact E']. rewrite (wrapU_small 64 (sz + nsz)) by lia.
    unfold merge_code, bind. destruct (remove_from_freelist _ _) as [[? ?]|]; [|done].
    unfold gets, ret. cbv beta iota. destruct (p + sz =? mm_heap_last m0); reflexivity.
  - exists m', hl', ff', lf', r, (sz + nsz), (l1 ++ l2).
    split; [done|]. split; [done|]. split; [set_solver|].
    split; [by eapply (free_addrs_free l r)|]. split; [done|]. split; [done|].
    eapply pay_same_sub; [|exact Hp']. intros b Hb Hal. set_unfold. naive_solver.
Qed.

(** ** mm_free() *)

Definition free_post (b : blk) (s : mm) (bs : list blk) (s' : mm) : Prop :=
  exists bs' fl',
    Inv H s' bs' fl' /\ allocs bs ≡ₚ b :: allocs bs' /\
    pay_same bs' (mram (ml s)) (mram (ml s')).

Lemma mm_free_correct s bs fl b :
  Inv H s bs fl -> b ∈ bs -> b_alloc b = true ->
  exists s', mm_free (b_addr b + 8) s = Ok (tt, s') /\ free_post b s bs s'.
Proof.
  intros (brk & m & hf & hl & ff & lf & -> & C & Hfl & Hadj) Hin Hal.
  destruct b as [b sz al]; cbn [b_addr b_alloc] in *. subst al.
  pose proof (core_in _ C _ Hin) as (?&?&[_ ?]). unfold b_end in *; cbn [b_addr b_size] in *.
  pose proof (core_pos C). pose proof (core_high C).
  apply list_elem_of_split in Hin as (l & r & ->).
  change (Blk b sz true :: r) with ([Blk b sz true] ++ r) in *.
  assert (Hfl' : fl ≡ₚ free_addrs (l ++ r)) by (rewrite Hfl, !free_addrs_app; done).
  assert (no_adj (flags l) /\ no_adj (flags r)) as [Hl Hr].
  { unfold flags in *. rewrite !fmap_app in Hadj. apply no_adj_app in Hadj as [Hl Hr].
    split; [by eapply no_adj_prefix|by eapply no_adj_tail]. }
  destruct (coalesce_left_spec _ _ _ _ _ _ _ _ _ _ _ _ C Hfl' Hl) as
    (p & s1 & E1 & m1 & hl1 & ff1 & lf1 & l1 & psz & fl1 & -> & C1 & Hp1 & Hfl1 & Hal1 & Hadj1 & _ & Hpay1).
  destruct (coalesce_right_spec _ _ _ _ _ _ _ _ _ _ _ C1 Hp1 Hfl1 Hr) as
    (s2 & E2 & m2 & hl2 & ff2 & lf2 & r2 & qsz & fl2 & -> & C2 & Hp2 & Hfl2 & Hal2 & Hadj2 & Hpay2).
  destruct (core_push _ _ _ _ _ _ _ _ _ p qsz C2 ltac:(set_solver) Hp2) as (m3 & ff3 & lf3 & E3 & C3 & Hpay3).
  eexists. split.
  - unfold mm_free, block_from_payload, OFF_PAYLOAD, NULL.
    replace (b + 8 =? 0) with false by lia. rewrite padd_small by lia.
    replace (b + 8 + - (8)) with b by lia. cbv beta iota zeta.
    rewrite (bind_ok _ _ _ _ _ E1), (bind_ok _ _ _ _ _ E2). apply E3.
  - exists (l1 ++ [Blk p qsz false] ++ r2), (p :: fl2). split_and!.
    + eexists _, _, _, _, _, _. split; [reflexivity|]. split; [exact C3|]. split.
      * rewrite Hfl2, !free_addrs_app. unfold free_addrs at 4. simpl. by rewrite Permutation_middle.
      * unfold flags in *. rewrite !fmap_app. simpl. by apply no_adj_app.
    + rewrite !allocs_app, Hal1, Hal2. simpl. by rewrite Permutation_middle.
    + unfold FreeList.St. cbn [ml mram]. eapply pay_same_trans; [|exact Hpay3]. eapply pay_same_trans.
      * refine (pay_same_allocs _ _ _ _ _ Hpay1). rewrite !allocs_app, Hal1, Hal2. done.
      * refine (pay_same_allocs _ _ _ _ _ Hpay2). rewrite !allocs_app, Hal2. done.
Qed.

(** ** Writes of the client *)

(** [m'] differs from [m] only in the payload of [b]. *)
Definition payload_write (b : blk) (m m' : ram) : Prop :=
  forall a, a < b_addr b + 8 \/ b_end b - 8 <= a -> byte_at m' a = byte_at m a.

Lemma payload_write_bytes b m a l :
  b_addr b + 8 <= a -> a + Z.of_nat (length l) <= b_end b - 8 ->
  payload_write b m (write_bytes m a l).
Proof. intros Ha Hl c Hc. apply byte_at_write_out. lia. Qed.

Lemma core_payload_write brk m m' hf hl ff lf bs fl b :
  Core brk m hf hl ff lf bs fl -> b ∈ bs -> b_alloc b = true -> payload_write b m m' ->
  Core brk m' hf hl ff lf bs fl.
Proof.
  intros C Hb Ha Hw. pose proof (core_in _ C _ Hb) as (_&_&[_ ?]).
  assert (Hother : forall c a, c ∈ bs -> b_addr c <= a < b_end c ->
            a < b_addr b + 8 \/ b_end b - 8 <= a \/ c = b).
  { intros c a Hc Hr. destruct (layout_sep _ _ _ _ _ (core_layout C) Hb Hc) as [->|E]; [auto|lia]. }
  split; try apply C.
  - apply Forall_forall. intros c Hc. pose proof (core_in _ C _ Hc) as (_&_&Hok).
    eapply tag_frame; [done| |by apply (core_tag _ C)]. intros a Hr. apply Hw.
    destruct Hok as [_ ?]. destruct (Hother c a Hc) as [?|[?| ->]]; unfold b_end in *; lia.
  - pose proof (core_list C) as (-> & -> & Hc). split_and!; [done..|].
    revert Hc. apply chain_frame; intros x Hx; destruct (core_free C x Hx) as [sz Hf].
    all: pose proof (core_in _ C _ Hf) as (_&_&[_ ?]); apply load_ext; intros a Hr; apply Hw.
    all: destruct (Hother _ a Hf) as [?|[?|E]]; unfold b_end in *; cbn [b_addr b_size] in *; try lia.
    all: subst b; done.
Qed.

Lemma inv_payload_write s bs fl b m' :
  Inv H s bs fl -> b ∈ bs -> b_alloc b = true -> payload_write b (mram (ml s)) m' ->
  Inv H (set_ml (set_ram m' (ml s)) s) bs fl.
Proof.
  intros (brk & m & hf & hl & ff & lf & -> & C & Hfl & Hadj) Hb Ha Hw.
  eexists _, _, _, _, _, _. split; [reflexivity|]. split; [|done].
  by eapply core_payload_write.
Qed.

(** Every payload but the written one survives. *)
Lemma payload_write_same s (bs : list blk) fl b c m' a :
  Inv H s bs fl -> b ∈ bs -> c ∈ bs -> c <> b -> payload_write b (mram (ml s)) m' ->
  b_addr c <= a < b_end c -> byte_at m' a = byte_at (mram (ml s)) a.
Proof.
  intros (brk & m & hf & hl & ff & lf & -> & C & _ & _) Hb Hc Hne Hw Hr. apply Hw.
  pose proof (core_in _ C _ Hb) as (_&_&[_ ?]).
  destruct (layout_sep _ _ _ _ _ (core_layout C) Hb Hc) as [?|?]; [congruence|lia].
Qed.
(** ** mm_realloc() and mm_calloc() *)

Lemma inv_payload_mapped s bs fl b a n :
  Inv H s bs fl -> b ∈ bs -> b_addr b <= a -> 0 <= n -> a + n <= b_end b ->
  mapped (get_ml s) a n = true.
Proof.
  intros (brk & m & hf & hl & ff & lf & -> & C & _ & _) Hb Ha Hn He.
  pose proof (core_in _ C _ Hb) as (?&?&_). unfold mapped, get_ml, mm_MemState, FreeList.St.
  cbn [ml is_mapped heap andb].
  apply andb_true_intro. split; apply Z.leb_le; lia.
Qed.

Lemma inv_size s bs fl b k :
  Inv H s bs fl -> b ∈ bs ->
  bind (get_size (b_addr b)) k s = (k (b_size b) s : res (Z * mm)).
Proof.
  intros (brk & m & hf & hl & ff & lf & -> & C & _ & _) Hb.
  pose proof (core_tag _ C _ Hb) as [Ht _]. pose proof (core_header _ C _ Hb) as Hreg.
  pose proof (core_even _ C _ Hb) as He. pose proof (core_pos C). pose proof (core_high C).
  by erewrite bind_get_size by eauto.
Qed.

Lemma inv_bounds s bs fl b :
  Inv H s bs fl -> b ∈ bs ->
  0 < H /\ H + MAX_HEAP < 2 ^ 63 /\ H + 8 <= b_addr b /\ b_end b <= H + MAX_HEAP /\
  32 <= b_size b.
Proof.
  intros (brk & m & hf & hl & ff & lf & -> & C & _ & _) Hb.
  pose proof (core_in _ C _ Hb) as (?&?&[_ ?]). pose proof (core_pos C). pose proof (core_high C).
  auto.
Qed.

Lemma inv_sep s bs fl b c :
  Inv H s bs fl -> b ∈ bs -> c ∈ bs -> b = c \/ b_end b <= b_addr c \/ b_end c <= b_addr b.
Proof.
  intros (brk & m & hf & hl & ff & lf & -> & C & _ & _) Hb Hc.
  eapply layout_sep; [apply (core_layout C)|done..].
Qed.

Lemma in_allocs (bs : list blk) b : b ∈ allocs bs <-> b_alloc b = true /\ b ∈ bs.
Proof. unfold allocs. by rewrite list_elem_of_filter. Qed.

Lemma layout_nodup a bs e : layout a bs e -> NoDup bs.
Proof.
  revert a. induction bs as [|b bs IH]; intros a; [constructor|]. cbn [layout].
  intros (? & [_ ?] & Hl). apply NoDup_cons. split; [|by eapply IH].
  intros Hb. pose proof (layout_in _ _ _ _ Hl Hb) as (? & _). unfold b_end in *. lia.
Qed.

Lemma inv_nodup s bs fl : Inv H s bs fl -> NoDup (allocs bs).
Proof.
  intros (brk & m & hf & hl & ff & lf & -> & C & _ & _).
  apply NoDup_filter. eapply layout_nodup, (core_layout C).
Qed.

(** memcpy() from one allocated payload to another. *)
Lemma exec_memcpy {A} (k : unit -> M mm A) s bs fl b c n :
  Inv H s bs fl -> b ∈ bs -> c ∈ bs -> b <> c -> 0 <= n ->
  n <= b_size b - 16 -> n <= b_size c - 16 ->
  bind (c_memcpy (b_addr b + 8) (b_addr c + 8) n) k s =
  k tt (set_ml (set_ram (write_bytes (mram (ml s)) (b_addr b + 8)
          (read_bytes (mram (ml s)) (b_addr c + 8) (Z.to_nat n))) (ml s)) s).
Proof.
  intros Hi Hb Hc Hne Hn Hnb Hnc. apply bind_ok. unfold c_memcpy.
  destruct (Z.eqb_spec n 0) as [->|Hn0].
  { destruct s as [[? ? ? ?] ? ? ? ?]. done. }
  rewrite (inv_payload_mapped s bs fl c), (inv_payload_mapped s bs fl b);
    try done; unfold b_end; try lia.
  pose proof (inv_sep _ _ _ _ _ Hi Hb Hc) as [?|Hs]; [done|].
  pose proof (inv_bounds _ _ _ _ Hi Hb). pose proof (inv_bounds _ _ _ _ Hi Hc).
  cbn [negb]. destruct (_ && _) eqn:E; [|done]. unfold b_end in *. lia.
Qed.

(** How mm_realloc() goes on from its allocation. *)
Lemma mm_realloc_unfold s bs fl b size :
  Inv H s bs fl -> b ∈ bs -> 0 < size ->
  mm_realloc (b_addr b + 8) size s =
  (q <- mm_malloc size;;
   c_memcpy q (b_addr b + 8) (Z.min (b_size b - 16) size) ;;;
   mm_free (b_addr b + 8) ;;; ret q) s.
Proof.
  intros Hi Hb Hs. destruct (inv_bounds _ _ _ _ Hi Hb) as (?&?&?&?&?). unfold b_end in *.
  unfold mm_realloc, block_from_payload, OFF_PAYLOAD, NULL, SIZEOF_BLOCK.
  replace (b_addr b + 8 =? 0) with false by lia. replace (size =? 0) with false by lia.
  rewrite padd_small by lia. replace (b_addr b + 8 + - (8)) with (b_addr b) by lia.
  erewrite inv_size by done. rewrite wrapU_small by lia. replace (2 * 8) with 16 by lia.
  destruct (Z.ltb_spec (b_size b - 16) size) as [Hlt|Hge].
  - rewrite Z.min_l by lia. unfold bind. destruct (mm_malloc size s) as [[q s1]|]; [|done].
    by destruct (c_memcpy _ _ _ s1) as [[[] s2]|].
  - rewrite Z.min_r by lia. unfold bind. destruct (mm_malloc size s) as [[q s1]|]; [|done].
    by destruct (c_memcpy _ _ _ s1) as [[[] s2]|].
Qed.

(** What mm_realloc() promises: block [b] is replaced by [c], which starts
    with the bytes of [b]; all other payloads are kept. *)
Definition realloc_post (b : blk) (size : Z) (s : mm) (bs : list blk) (q : Z) (s' : mm) : Prop :=
  exists c bs' fl',
    q = b_addr c + 8 /\ q mod 16 = 0 /\ size <= b_size c - 16 /\
    Inv H s' bs' fl' /\ c :: allocs bs ≡ₚ b :: allocs bs' /\
    (forall i, 0 <= i < Z.min (b_size b - 16) size ->
       byte_at (mram (ml s')) (q + i) = byte_at (mram (ml s)) (b_addr b + 8 + i)) /\
    (forall d, d ∈ allocs bs -> d <> b ->
       forall a, b_addr d + 8 <= a < b_end d - 8 ->
       byte_at (mram (ml s')) a = byte_at (mram (ml s)) a).

Lemma mm_realloc_correct s bs fl b size :
  Inv H s bs fl -> b ∈ bs -> b_alloc b = true -> 0 < size < 2 ^ 64 - 32 ->
  (mm_malloc size s = Ok (NULL, s) /\
   mm_realloc (b_addr b + 8) size s = Err (Segv NULL)) \/
  (exists q s', mm_realloc (b_addr b + 8) size s = Ok (q, s') /\
                realloc_post b size s bs q s').
Proof.
  intros Hi Hb Hal Hs. rewrite (mm_realloc_unfold s bs fl) by (done || lia).
  destruct (inv_bounds _ _ _ _ Hi Hb) as (?&?&?&?&?).
  destruct (mm_malloc_correct H size s bs fl Hi Hs) as (q & s1 & E & [(->&->&_)|Hpost]).
  { left. split; [done|]. rewrite (bind_ok _ _ _ _ _ E). apply bind_err. unfold c_memcpy.
    replace (_ =? 0) with false by lia.
    rewrite (inv_payload_mapped s bs fl b); try done; unfold b_end in *; try lia. cbn [negb].
    assert (mapped (get_ml s) NULL (Z.min (b_size b - 16) size) = false) as ->; [|done].
    destruct Hi as (brk & m & hf & hl & ff & lf & -> & C & _). unfold mapped; simpl.
    unfold NULL. replace (H <=? 0) with false by lia. done. }
  right. destruct Hpost as (c & bs1 & fl1 & -> & Hq & Hsz & Hca & Hi1 & Hperm & Hpay).
  assert (Hb1 : b ∈ allocs bs1) by (rewrite Hperm; apply elem_of_cons; right; by apply in_allocs).
  assert (Hc1 : c ∈ allocs bs1) by (rewrite Hperm; set_solver).
  pose proof (inv_nodup _ _ _ Hi1) as Hnd. rewrite Hperm in Hnd. apply NoDup_cons in Hnd as [Hcn Hnd].
  assert (Hcb : c <> b) by (intros ->; by apply Hcn, in_allocs).
  apply in_allocs in Hb1 as [_ Hb1]. apply in_allocs in Hc1 as [_ Hc1].
  destruct (inv_bounds _ _ _ _ Hi1 Hc1) as (?&?&?&?&?).
  rewrite (bind_ok _ _ _ _ _ E).
  rewrite (exec_memcpy _ s1 bs1 fl1 c b) by (done || lia).
  set (n := Z.min (b_size b - 16) size). set (m2 := write_bytes _ _ _).
  assert (Hw : payload_write c (mram (ml s1)) m2).
  { apply payload_write_bytes; rewrite ?length_read_bytes; unfold b_end; lia. }
  pose proof (inv_payload_write s1 bs1 fl1 c m2 Hi1 Hc1 Hca Hw) as Hi2.
  destruct (mm_free_correct _ _ _ _ Hi2 Hb1 Hal) as (s3 & E3 & bs3 & fl3 & Hi3 & Hperm3 & Hpay3).
  rewrite (bind_ok _ _ _ _ _ E3). eexists _, s3. split; [reflexivity|].
  exists c, bs3, fl3. split; [done|]. split; [done|]. split; [done|]. split; [done|].
  rewrite <- Hperm, <- Hperm3. split; [done|].
  assert (Hkeep : forall d, d ∈ bs1 -> b_alloc d = true -> d <> b ->
            forall a, b_addr d + 8 <= a < b_end d - 8 -> byte_at (mram (ml s3)) a = byte_at m2 a).
  { intros d Hd Hda Hdb a Ha. apply (Hpay3 d); try done.
    assert (Hd' : d ∈ b :: allocs bs3) by (rewrite <- Hperm3; by apply in_allocs).
    apply elem_of_cons in Hd' as [?|Hd']; [done|]. by apply in_allocs in Hd' as [_ ?]. }
  split.
  - intros i Hri. unfold b_end in *. rewrite (Hkeep c) by (try done; unfold b_end; lia).
    rewrite <- (Hpay b) by (try done; unfold b_end; lia).
    unfold m2. rewrite <- (Z2Nat.id i) by lia.
    apply byte_at_write_in. apply read_bytes_lookup. lia.
  - intros d [Hda Hd]%in_allocs Hdb a Ha.
    assert (Hd1 : d ∈ allocs bs1) by (rewrite Hperm; apply elem_of_cons; right; by apply in_allocs).
    assert (d <> c) by (intros ->; by apply Hcn, in_allocs).
    apply in_allocs in Hd1 as [_ Hd1]. rewrite (Hkeep d) by done.
    rewrite <- (Hpay d) by done. eapply (payload_write_same s1 bs1 fl1 c d); try done. lia.
Qed.

(** mm_calloc() zeroes the payload; without memory it writes to NULL. *)
Lemma mm_calloc_correct s bs fl nmemb size :
  Inv H s bs fl -> 0 < size * nmemb < 2 ^ 64 - 32 ->
  (mm_malloc (size * nmemb) s = Ok (NULL, s) /\ mm_calloc nmemb size s = Err (Segv NULL)) \/
  (exists q s', mm_calloc nmemb size s = Ok (q, s') /\
                malloc_post H (size * nmemb) s bs q s' /\ q <> NULL /\
                forall a, q <= a < q + size * nmemb -> byte_at (mram (ml s')) a = 0).
Proof.
  intros Hi Hs. unfold mm_calloc. rewrite wrapU_small by lia.
  destruct (mm_malloc_correct H _ s bs fl Hi Hs) as (q & s1 & E & Hpost).
  rewrite (bind_ok _ _ _ _ _ E). destruct Hpost as [(->&->&_)|Hpost].
  { left. split; [done|]. apply bind_err. unfold c_memset. replace (_ =? 0) with false by lia.
    destruct Hi as (brk & m & hf & hl & ff & lf & -> & C & _). unfold mapped; simpl.
    pose proof (core_pos C). unfold NULL. replace (H <=? 0) with false by lia. done. }
  right. destruct Hpost as (c & bs1 & fl1 & -> & Hq & Hsz & Hca & Hi1 & Hperm & Hpay).
  assert (Hc1 : c ∈ allocs bs1) by (rewrite Hperm; set_solver).
  apply in_allocs in Hc1 as [_ Hc1]. destruct (inv_bounds _ _ _ _ Hi1 Hc1) as (?&?&?&?&?).
  set (n := size * nmemb) in *. set (m2 := write_bytes (mram (ml s1)) (b_addr c + 8) (replicate (Z.to_nat n) 0)).
  assert (Hw : payload_write c (mram (ml s1)) m2).
  { apply payload_write_bytes; rewrite ?length_replicate; unfold b_end; lia. }
  eexists _, (set_ml (set_ram m2 (ml s1)) s1). split.
  { erewrite bind_ok; [reflexivity|]. unfold c_memset. replace (_ =? 0) with false by lia.
    rewrite (inv_payload_mapped s1 bs1 fl1 c); try done; unfold b_end; lia. }
  split; [right; exists c, bs1, fl1|split; [unfold NULL; lia|]].
  - split; [done|]. split; [done|]. split; [done|]. split; [done|].
    split; [by apply inv_payload_write with c|]. split; [done|].
    intros d Hd Hda a Ha. rewrite <- (Hpay d) by done.
    assert (Hd1 : d ∈ allocs bs1) by (rewrite Hperm; apply elem_of_cons; right; by apply in_allocs).
    assert (d <> c).
    { intros ->. pose proof (inv_nodup _ _ _ Hi1) as Hnd. rewrite Hperm in Hnd.
      apply NoDup_cons in Hnd as [Hcn _]. by apply Hcn, in_allocs. }
    apply in_allocs in Hd1 as [_ Hd1]. eapply (payload_write_same s1 bs1 fl1 c d); try done. lia.
  - intros a Ha. cbn [set_ml mm_MemState ml set_ram mram].
    replace a with (b_addr c + 8 + Z.of_nat (Z.to_nat (a - (b_addr c + 8)))) by lia.
    unfold m2. apply byte_at_write_in. apply lookup_replicate_2. lia.
Qed.

(** ** mm_init() *)

Lemma mm_init_correct s :
  0 < H -> H + MAX_HEAP < 2 ^ 63 -> H mod 16 = 0 ->
  is_mapped (ml s) = true -> heap (ml s) = H -> mem_brk (ml s) = H ->
  exists s', mm_init s = Ok (true, s') /\ Inv H s' [] [].
Proof.
  intros Hp Hh Ha Hm Hhp Hb. destruct s as [[m mp hp bk] a b c d]. simpl in *. subst.
  unfold mm_init, ALIGNMENT, SIZEOF_BLOCK, SIZEOF_SIZE_T. unfold MAX_HEAP in *.
  erewrite bind_ok by (apply (sbrk_ok H H m a b c d (2 * 8 - 8)); unfold MAX_HEAP; lia).
  replace (H =? PTR_FAILED) with false by (rewrite PTR_FAILED_val; lia).
  eexists. split; [reflexivity|]. exists (H + 8), m, NULL, NULL, NULL, NULL.
  split; [done|]. split; [|done].
  split; try done; unfold MAX_HEAP; try lia; [constructor|]. set_solver.
Qed.
End Free.
