(* ===== verification/MMExplicitSpec.v ===== *)
(** * The explicit allocator meets its contract

    The instance of [Allocator] for mm-explicit.c, and the properties of the
    single functions. *)
From stdpp Require Import prelude gmap list.
From Stdlib Require Import ZArith Lia.
From S2P Require Import Prelude Memory Memlib Allocator MMExplicit FreeList MMExplicitInv MMExplicitProofs MMExplicitFree.
Open Scope Z_scope.
Open Scope c_scope.

(** The keys of [A] are the payloads of the allocated blocks. *)
Definition represents (A : gmap Z Z) (bs : list blk) : Prop :=
  forall p n, A !! p = Some n <-> Blk (p - 8) (n + 16) true ∈ bs.

Definition mm_live (s : mm) (A : gmap Z Z) : Prop :=
  exists H bs fl, Inv H s bs fl /\ represents A bs.

Lemma represents_block A bs b :
  represents A bs -> b ∈ allocs bs -> A !! (b_addr b + 8) = Some (b_size b - 16).
Proof.
  intros HA [Ha Hb]%in_allocs. apply HA. destruct b as [x sz al]; cbn [b_addr b_size b_alloc] in *. subst.
  by replace (x + 8 - 8) with x by lia; replace (sz - 16 + 16) with sz by lia.
Qed.

Lemma represents_in A bs p n :
  represents A bs -> A !! p = Some n -> Blk (p - 8) (n + 16) true ∈ allocs bs.
Proof. intros HA Hp. apply in_allocs. split; [done|]. by apply HA. Qed.

(** A block is determined by its address. *)
Lemma inv_addr_inj H s bs fl b c :
  Inv H s bs fl -> b ∈ bs -> c ∈ bs -> b_addr b = b_addr c -> b = c.
Proof.
  intros (brk & m & hf & hl & ff & lf & -> & C & _ & _). apply (layout_addr_inj _ _ _ _ _ (core_layout C)).
Qed.

Lemma represents_insert H s A bs bs' fl' b :
  Inv H s bs' fl' -> represents A bs -> allocs bs' ≡ₚ b :: allocs bs ->
  represents (<[b_addr b + 8 := b_size b - 16]> A) bs' /\ A !! (b_addr b + 8) = None.
Proof.
  intros Hi HA Hp. assert (Hb : b ∈ allocs bs') by (rewrite Hp; set_solver).
  pose proof Hb as [Hal Hbb]%in_allocs.
  assert (Hx : forall c, b_alloc c = true -> c ∈ bs' <-> c = b \/ c ∈ bs).
  { intros c Hc. transitivity (c ∈ allocs bs'); [rewrite in_allocs; tauto|].
    rewrite Hp, elem_of_cons, in_allocs. tauto. }
  split.
  - intros p n. rewrite (Hx (Blk (p - 8) (n + 16) true) eq_refl), lookup_insert_Some, (HA p n). split.
    + intros [[<- <-]|[Hne Hin]]; [left|by right].
      destruct b as [x sz al]; cbn [b_addr b_size b_alloc] in *. subst. f_equal; lia.
    + intros [<-|Hin]; [left; cbn [b_addr b_size]; lia|right]. split; [|done]. intros Heq.
      assert (Hc : Blk (p - 8) (n + 16) true ∈ bs') by (apply Hx; auto).
      assert (E : b = Blk (p - 8) (n + 16) true)
        by (eapply inv_addr_inj; [exact Hi|done..|cbn [b_addr]; lia]).
      pose proof (inv_nodup _ _ _ _ Hi) as Hn. rewrite Hp in Hn. apply NoDup_cons in Hn as [Hn _].
      apply Hn, in_allocs. by rewrite E.
  - destruct (A !! _) as [n|] eqn:E; [|done]. exfalso. apply HA in E.
    replace (b_addr b + 8 - 8) with (b_addr b) in E by lia.
    assert (Hc : Blk (b_addr b) (n + 16) true ∈ bs') by (apply Hx; auto).
    pose proof (inv_addr_inj _ _ _ _ _ _ Hi Hbb Hc eq_refl) as Eb.
    pose proof (inv_nodup _ _ _ _ Hi) as Hn. rewrite Hp in Hn. apply NoDup_cons in Hn as [Hn _].
    apply Hn, in_allocs. rewrite Eb. done.
Qed.

Lemma represents_delete H s A bs bs' fl b :
  Inv H s bs fl -> represents A bs -> allocs bs ≡ₚ b :: allocs bs' ->
  represents (delete (b_addr b + 8) A) bs'.
Proof.
  intros Hi HA Hp. assert (Hb : b ∈ allocs bs) by (rewrite Hp; set_solver).
  pose proof Hb as [Hal Hbb]%in_allocs.
  assert (Hx : forall c, b_alloc c = true -> c ∈ bs <-> c = b \/ c ∈ bs').
  { intros c Hc. transitivity (c ∈ allocs bs); [rewrite in_allocs; tauto|].
    rewrite Hp, elem_of_cons, in_allocs. tauto. }
  pose proof (inv_nodup _ _ _ _ Hi) as Hn. rewrite Hp in Hn. apply NoDup_cons in Hn as [Hn _].
  intros p n. rewrite lookup_delete_Some, (HA p n), (Hx (Blk (p - 8) (n + 16) true) eq_refl). split.
  - intros [Hne [E|Hin]]; [|done]. subst b. cbn [b_addr] in Hne. lia.
  - intros Hin. split; [|by right]. intros Heq.
    assert (Hc : Blk (p - 8) (n + 16) true ∈ bs) by (apply Hx; auto).
    assert (E : b = Blk (p - 8) (n + 16) true)
      by (eapply inv_addr_inj; [exact Hi|done..|cbn [b_addr]; lia]).
    apply Hn, in_allocs. by rewrite E.
Qed.

Lemma pay_same_payloads A bs m m' :
  represents A bs -> pay_same bs m m' -> same_payloads A m m'.
Proof.
  intros HA Hp p n HAp a Ha. apply HA in HAp. apply (Hp _ HAp eq_refl). unfold b_end; simpl. lia.
Qed.

Lemma mm_live_payload s A p n :
  mm_live s A -> A !! p = Some n ->
  0 < p /\ p mod 16 = 0 /\ heap (get_ml s) <= p /\ 0 < n /\
  p + n <= mem_brk (get_ml s) <= heap (get_ml s) + MAX_HEAP /\
  heap (get_ml s) + MAX_HEAP < 2 ^ 63 /\ is_mapped (get_ml s) = true.
Proof.
  intros (H & bs & fl & Hi & HA) Hp. apply HA in Hp.
  destruct Hi as (brk & m & hf & hl & ff & lf & -> & C & _ & _).
  pose proof (core_payload_aligned _ _ _ _ _ _ _ _ _ _ C Hp) as Ha. cbn [b_addr] in Ha.
  replace (p - 8 + 8) with p in Ha by lia.
  pose proof (layout_in _ _ _ _ (core_layout C) Hp) as (?&?&[??]).
  pose proof (core_brk C). pose proof (core_pos C). pose proof (core_high C).
  unfold b_end in *; cbn [b_addr b_size] in *. cbn. split_and!; try done; lia.
Qed.

Lemma mm_live_disjoint s A p q n k :
  mm_live s A -> A !! p = Some n -> A !! q = Some k -> p = q \/ p + n <= q \/ q + k <= p.
Proof.
  intros (H & bs & fl & Hi & HA) Hp Hq. apply HA in Hp, Hq.
  destruct (inv_bounds _ _ _ _ _ Hi Hp) as (_&_&_&_&?).
  destruct (inv_bounds _ _ _ _ _ Hi Hq) as (_&_&_&_&?).
  destruct (inv_sep _ _ _ _ _ _ Hi Hp Hq) as [[= ? ?]|?];
    unfold b_end in *; cbn [b_addr b_size] in *; lia.
Qed.

Lemma mm_live_write s A p n m' :
  mm_live s A -> A !! p = Some n ->
  (forall a, a < p \/ p + n <= a -> byte_at m' a = byte_at (mram (get_ml s)) a) ->
  mm_live (set_ml (set_ram m' (get_ml s)) s) A.
Proof.
  intros (H & bs & fl & Hi & HA) Hp Hw. apply HA in Hp. exists H, bs, fl. split; [|done].
  eapply inv_payload_write; [done..|]. intros a Ha. apply Hw.
  unfold b_end in Ha; cbn [b_addr b_size] in Ha. lia.
Qed.

Lemma mm_init_law s :
  is_mapped (get_ml s) = true -> 0 < heap (get_ml s) -> heap (get_ml s) mod 16 = 0 ->
  heap (get_ml s) + MAX_HEAP < 2 ^ 63 -> mem_brk (get_ml s) = heap (get_ml s) ->
  exists s', mm_init s = Ok (true, s') /\ mm_live s' ∅.
Proof.
  intros Hm Hp Ha Hh Hb. destruct (mm_init_correct (heap (ml s)) s) as (s' & E & Hi); try done.
  exists s'. split; [done|]. exists (heap (ml s)), [], []. split; [done|].
  intros p n. rewrite lookup_empty. split; [done|set_solver].
Qed.

Lemma mm_malloc_law s A n :
  mm_live s A -> request_ok n ->
  exists p s', mm_malloc n s = Ok (p, s') /\
    (p = NULL /\ mm_live s' A /\ same_payloads A (mram (get_ml s)) (mram (get_ml s')) \/
     p <> NULL /\ exists k, n <= k /\ A !! p = None /\ mm_live s' (<[p := k]> A) /\
       same_payloads A (mram (get_ml s)) (mram (get_ml s'))).
Proof.
  intros (H & bs & fl & Hi & HA) Hn.
  destruct (mm_malloc_correct H n s bs fl Hi Hn) as (p & s' & E & Hpost).
  exists p, s'. split; [done|].
  destruct Hpost as [(-> & -> & _)|(b & bs' & fl' & -> & Hal & Hsz & Hba & Hi' & Hp & Hpay)].
  { left. split; [done|]. split; [by exists H, bs, fl|]. by intros ???. }
  right. assert (Hb : b ∈ allocs bs') by (rewrite Hp; set_solver).
  apply in_allocs in Hb as [_ Hb]. destruct (inv_bounds _ _ _ _ _ Hi' Hb) as (?&?&?&?&?).
  destruct (represents_insert _ _ _ _ _ _ _ Hi' HA Hp) as [HA' HNone].
  split; [unfold NULL; lia|]. exists (b_size b - 16). split; [done|]. split; [done|].
  split; [by exists H, bs', fl'|]. by eapply pay_same_payloads.
Qed.

Lemma mm_free_law s A p n :
  mm_live s A -> A !! p = Some n ->
  exists s', mm_free p s = Ok (tt, s') /\ mm_live s' (delete p A) /\
    same_payloads (delete p A) (mram (get_ml s)) (mram (get_ml s')).
Proof.
  intros (H & bs & fl & Hi & HA) Hp. pose proof Hp as Hb. apply HA in Hb.
  destruct (mm_free_correct _ _ _ _ _ Hi Hb eq_refl) as (s' & E & bs' & fl' & Hi' & Hperm & Hpay).
  pose proof (represents_delete _ _ _ _ _ _ _ Hi HA Hperm) as HA'.
  cbn [b_addr] in E, HA'. replace (p - 8 + 8) with p in E, HA' by lia.
  exists s'. split; [done|]. split; [by exists H, bs', fl'|]. by eapply pay_same_payloads.
Qed.

Lemma mm_realloc_zero_law s A p n :
  mm_live s A -> A !! p = Some n -> mm_realloc p 0 s = (mm_free p ;;; ret NULL) s.
Proof.
  intros HL Hp. destruct (mm_live_payload _ _ _ _ HL Hp) as (? & _).
  unfold mm_realloc, NULL. by replace (p =? 0) with false by lia.
Qed.

Lemma allocs_id R : (forall d, d ∈ R -> b_alloc d = true) -> allocs R = R.
Proof.
  induction R as [|b R IH]; intros HR; [done|]. unfold allocs. rewrite filter_cons_True.
  - f_equal. apply IH. set_solver.
  - apply HR. set_solver.
Qed.

Lemma mm_realloc_law s A p n k q0 s0 :
  mm_live s A -> A !! p = Some n -> request_ok k ->
  mm_malloc k s = Ok (q0, s0) -> q0 <> NULL ->
  exists q s', mm_realloc p k s = Ok (q, s') /\ q <> NULL /\
    exists k', k <= k' /\ delete p A !! q = None /\ mm_live s' (<[q := k']> (delete p A)) /\
      (forall i, 0 <= i < Z.min n k ->
         byte_at (mram (get_ml s')) (q + i) = byte_at (mram (get_ml s)) (p + i)) /\
      same_payloads (delete p A) (mram (get_ml s)) (mram (get_ml s')).
Proof.
  intros (H & bs & fl & Hi & HA) Hp Hk Em Hq0. pose proof Hp as Hb. apply HA in Hb.
  destruct (mm_realloc_correct _ _ _ _ _ k Hi Hb eq_refl Hk) as [[E _]|(q & s' & E & Hpost)]; [congruence|].
  destruct Hpost as (c & bs' & fl' & -> & Hal & Hsz & Hi' & Hperm & Hcopy & Hpay).
  unfold b_end in Hcopy, Hpay; cbn [b_addr b_size] in *. replace (p - 8 + 8) with p in * by lia.
  (* the blocks that are neither the old nor the new one *)
  assert (exists R, allocs bs ≡ₚ Blk (p - 8) (n + 16) true :: R) as [R HR].
  { assert (Hin : Blk (p - 8) (n + 16) true ∈ allocs bs) by (by apply represents_in with A).
    apply list_elem_of_split in Hin as (l1 & l2 & ->). exists (l1 ++ l2). by rewrite Permutation_middle. }
  assert (HR' : allocs bs' ≡ₚ c :: R).
  { apply (Permutation_cons_inv (a := Blk (p - 8) (n + 16) true)). rewrite <- Hperm, HR. constructor. }
  assert (HallR : allocs R = R).
  { apply allocs_id. intros d Hd.
    assert (d ∈ allocs bs) as [? _]%in_allocs by (rewrite HR; set_solver). done. }
  rewrite <- HallR in HR, HR'.
  pose proof (represents_delete _ _ _ _ _ _ _ Hi HA HR) as HA1. cbn [b_addr] in HA1.
  replace (p - 8 + 8) with p in HA1 by lia.
  destruct (represents_insert _ _ _ _ _ _ _ Hi' HA1 HR') as [HA2 HNone].
  assert (Hc : c ∈ allocs bs') by (rewrite HR'; set_solver). apply in_allocs in Hc as [_ Hc].
  destruct (inv_bounds _ _ _ _ _ Hi' Hc) as (?&?&?&?&?).
  eexists _, s'. split; [done|]. split; [unfold NULL; lia|].
  exists (b_size c - 16). split; [done|]. split; [done|]. split; [by exists H, bs', fl'|]. split.
  - intros i Hr. apply Hcopy. lia.
  - intros d kd Hd a Ha. apply lookup_delete_Some in Hd as [Hne Hd].
    apply (Hpay (Blk (d - 8) (kd + 16) true)); cbn [b_addr b_size]; try lia; [by apply represents_in with A|].
    intros [= ? ?]. lia.
Qed.

Lemma mm_free_null_law s : mm_free NULL s = Ok (tt, s).
Proof. unfold mm_free. rewrite Z.eqb_refl. reflexivity. Qed.

Lemma mm_realloc_null_law s n : mm_realloc NULL n s = mm_malloc n s.
Proof. unfold mm_realloc. rewrite Z.eqb_refl. reflexivity. Qed.

#[export] Instance mm_Allocator : Allocator mm := {|
  al_init := mm_init;
  al_malloc := mm_malloc;
  al_free := mm_free;
  al_realloc := mm_realloc;
  live := mm_live;
  live_payload := mm_live_payload;
  live_disjoint := mm_live_disjoint;
  live_write := mm_live_write;
  init_law := mm_init_law;
  malloc_law := mm_malloc_law;
  free_law := mm_free_law;
  free_null_law := mm_free_null_law;
  realloc_null_law := mm_realloc_null_law;
  realloc_zero_law := mm_realloc_zero_law;
  realloc_law := mm_realloc_law
|}.

(** ** Properties of mm-explicit.c

    The theorems of the explicit allocator, each with a witness on a concrete
    heap that is reached by running the model. *)

(** ** A concrete heap *)

Definition demo_base : Z := 0x800000000.

(** The state after mem_init(): a fresh mapping filled with 0xCC. *)
Definition demo_fresh : mm :=
  mkMM (mkMemlib (mkRam 0xCC ∅) true demo_base demo_base) NULL NULL NULL NULL.

Definition run_state {S A} (m : M S A) (s : S) : S :=
  match m s with Ok (_, s') => s' | Err _ => s end.

(** Three allocations, the middle one released. *)
Definition demo_heap : mm :=
  Eval vm_compute in
  run_state (mm_init ;;; mm_malloc 100 ;;; mm_malloc 40 ;;; mm_malloc 16 ;;;
             mm_free (demo_base + 144)) demo_fresh.

Definition demo_blocks : list blk :=
  [Blk (demo_base + 8) 128 true; Blk (demo_base + 136) 64 false; Blk (demo_base + 200) 32 true].
Definition demo_free : list Z := [demo_base + 136].

Lemma demo_inv : Inv demo_base demo_heap demo_blocks demo_free.
Proof.
  exists (demo_base + 232), (mram (ml demo_heap)), (demo_base + 8), (demo_base + 200),
    (demo_base + 136), (demo_base + 136).
  split; [reflexivity|]. split; [split|split; [reflexivity|simpl; auto]].
  - done.
  - done.
  - done.
  - repeat split; done.
  - done.
  - repeat constructor.
  - done.
  - done.
  - repeat split.
  - apply NoDup_singleton.
  - intros x ->%list_elem_of_singleton. exists 64. unfold demo_blocks. set_solver.
Qed.

Lemma demo_block_in : Blk (demo_base + 8) 128 true ∈ demo_blocks.
Proof. unfold demo_blocks. set_solver. Qed.

(** ** Properties *)

(** C3: from a heap that satisfies the invariant, mm_malloc() terminates
    without a fault.  Either no free block is large enough and the region is
    exhausted, and then it answers NULL and changes nothing; or it answers the
    16-byte aligned payload of a new allocated block with room for the request.
    The invariant holds again, exactly that block is added to the allocated
    ones, and no byte of a live payload changes. *)
Theorem explicit_malloc H size s bs fl :
  Inv H s bs fl -> 0 < size < 2 ^ 64 - 32 ->
  exists p s', mm_malloc size s = Ok (p, s') /\ malloc_post H size s bs p s'.
Proof. apply mm_malloc_correct. Qed.

Lemma explicit_malloc_witness :
  exists p s', mm_malloc 48 demo_heap = Ok (p, s') /\
               malloc_post demo_base 48 demo_heap demo_blocks p s'.
Proof. apply (explicit_malloc demo_base 48 demo_heap demo_blocks demo_free demo_inv). lia. Defined.

(** C4: mm_free() of the payload of an allocated block terminates without a
    fault, removes exactly that block from the allocated ones, merges it with
    both free neighbours (no two adjacent blocks stay free), puts the result in
    the free list, and changes no byte of the other payloads. *)
Theorem explicit_free H s bs fl b :
  Inv H s bs fl -> b ∈ bs -> b_alloc b = true ->
  exists s', mm_free (b_addr b + 8) s = Ok (tt, s') /\ free_post H b s bs s'.
Proof. apply mm_free_correct. Qed.

Lemma explicit_free_witness :
  exists s', mm_free (demo_base + 8 + 8) demo_heap = Ok (tt, s') /\
             free_post demo_base (Blk (demo_base + 8) 128 true) demo_heap demo_blocks s'.
Proof.
  exact (explicit_free demo_base demo_heap demo_blocks demo_free
           (Blk (demo_base + 8) 128 true) demo_inv demo_block_in eq_refl).
Defined.

(** C24: mm_realloc() of a live block to a nonzero size either writes through
    the NULL that its mm_malloc() answered (it does not check it), or replaces
    the block by a new one that starts with the old bytes, as many as fit both,
    keeping the invariant and all other payloads. *)
Theorem explicit_realloc H s bs fl b size :
  Inv H s bs fl -> b ∈ bs -> b_alloc b = true -> 0 < size < 2 ^ 64 - 32 ->
  (mm_malloc size s = Ok (NULL, s) /\
   mm_realloc (b_addr b + 8) size s = Err (Segv NULL)) \/
  (exists q s', mm_realloc (b_addr b + 8) size s = Ok (q, s') /\
                realloc_post H b size s bs q s').
Proof. apply mm_realloc_correct. Qed.

Lemma explicit_realloc_witness :
  (mm_malloc 200 demo_heap = Ok (NULL, demo_heap) /\
   mm_realloc (demo_base + 8 + 8) 200 demo_heap = Err (Segv NULL)) \/
  (exists q s', mm_realloc (demo_base + 8 + 8) 200 demo_heap = Ok (q, s') /\
     realloc_post demo_base (Blk (demo_base + 8) 128 true) 200 demo_heap demo_blocks q s').
Proof.
  apply (explicit_realloc demo_base demo_heap demo_blocks demo_free
           (Blk (demo_base + 8) 128 true) 200 demo_inv demo_block_in eq_refl). lia.
Defined.

(** mm_calloc() of a product that does not overflow answers a payload
    whose requested bytes are all zero and otherwise behaves like mm_malloc();
    when memory is exhausted it calls memset() on NULL. *)
Theorem explicit_calloc H s bs fl nmemb size :
  Inv H s bs fl -> 0 < size * nmemb < 2 ^ 64 - 32 ->
  (mm_malloc (size * nmemb) s = Ok (NULL, s) /\ mm_calloc nmemb size s = Err (Segv NULL)) \/
  (exists q s', mm_calloc nmemb size s = Ok (q, s') /\
                malloc_post H (size * nmemb) s bs q s' /\ q <> NULL /\
                forall a, q <= a < q + size * nmemb -> byte_at (mram (ml s')) a = 0).
Proof. apply mm_calloc_correct. Qed.

Lemma explicit_calloc_witness :
  (mm_malloc (4 * 10) demo_heap = Ok (NULL, demo_heap) /\ mm_calloc 10 4 demo_heap = Err (Segv NULL)) \/
  (exists q s', mm_calloc 10 4 demo_heap = Ok (q, s') /\
                malloc_post demo_base (4 * 10) demo_heap demo_blocks q s' /\ q <> NULL /\
                forall a, q <= a < q + 4 * 10 -> byte_at (mram (ml s')) a = 0).
Proof. apply (explicit_calloc demo_base demo_heap demo_blocks demo_free 10 4 demo_inv). lia. Defined.

(** The state that mm_init() leaves on a freshly reset, 16-byte aligned
    region satisfies the invariant with no block. *)
Theorem explicit_init H s :
  0 < H -> H + MAX_HEAP < 2 ^ 63 -> H mod 16 = 0 ->
  is_mapped (ml s) = true -> heap (ml s) = H -> mem_brk (ml s) = H ->
  exists s', mm_init s = Ok (true, s') /\ Inv H s' [] [].
Proof. apply mm_init_correct. Qed.

Lemma explicit_init_witness : exists s', mm_init demo_fresh = Ok (true, s') /\ Inv demo_base s' [] [].
Proof. by apply (explicit_init demo_base demo_fresh). Defined.

(** find_fit() is first fit: it terminates, and either every listed block
    is too small, or it unlinks a large enough block all of whose predecessors
    in the list are too small, keeping every other block and payload. *)
Theorem explicit_first_fit H brk m hf hl ff lf bs fl n :
  Core H brk m hf hl ff lf bs fl ->
  exists r, find_fit n (St H brk m hf hl ff lf) = Ok r /\
            found H (brk:=brk) (m:=m) (hf:=hf) (hl:=hl) (ff:=ff) (lf:=lf) (bs:=bs) (fl:=fl) n r.
Proof. intros C. by apply find_fit_spec. Qed.

Lemma explicit_first_fit_witness :
  exists brk m hf hl ff lf r,
    demo_heap = St demo_base brk m hf hl ff lf /\
    find_fit 64 (St demo_base brk m hf hl ff lf) = Ok r /\
    found demo_base (brk:=brk) (m:=m) (hf:=hf) (hl:=hl) (ff:=ff) (lf:=lf) (bs:=demo_blocks) (fl:=demo_free) 64 r.
Proof.
  destruct demo_inv as (brk & m & hf & hl & ff & lf & E & C & _).
  destruct (explicit_first_fit _ _ _ _ _ _ _ _ _ 64 C) as (r & Er & Hr).
  exists brk, m, hf, hl, ff, lf, r. auto.
Defined.

(** A run of a fresh heap: a request of zero bytes gets a block of 16 bytes, too
    small for the links of the free list; freeing it overwrites the header of its
    right neighbour with zero, and freeing the neighbour then faults. *)
Example malloc_zero_run :
  match (mm_init ;;; p <- mm_malloc 0;; q <- mm_malloc 100;;
         before <- ld (block_from_payload q);;
         mm_free p ;;;
         after <- ld (block_from_payload q);;
         ret (p, q, before, after)) demo_fresh with
  | Ok ((p, q, before, after), s) =>
      q = p + 16 /\ before = 128 + 1 /\ after = 0 /\
      match mm_free q s with Err (Segv _) => True | _ => False end
  | Err _ => False
  end.
Proof. vm_compute. auto. Qed.
