(* ===== verification/MMImplicit.v ===== *)
(** * The implicit list allocator (malloc/src/mm-implicit.c)

    Blocks carry only a header; the list of blocks is implicit in their sizes,
    and free neighbours are merged by a sweep before every allocation.  One
    definition per C function, over the same memory system as [MMExplicit]. *)
From stdpp Require Import prelude gmap list.
From Stdlib Require Import ZArith Lia.
From S2P Require Import Prelude Memory Memlib.
Open Scope Z_scope.
Open Scope c_scope.

Definition SIZEOF_SIZE_T : Z := 8.
Definition SIZEOF_BLOCK : Z := 8.
Definition OFF_PAYLOAD : Z := 8.
Definition ALIGNMENT : Z := 2 * SIZEOF_SIZE_T.

Record mmi := mkMMI {
  ml : memlib;
  mm_heap_first : Z;
  mm_heap_last : Z
}.

#[export] Instance mmi_MemState : MemState mmi.
Proof.
  refine {| get_ml := ml; set_ml m s := mkMMI m (mm_heap_first s) (mm_heap_last s) |};
    [done|done|by intros []].
Defined.

Definition set_heap_first (p : Z) : M mmi unit := modify (fun s => mkMMI (ml s) p (mm_heap_last s)).
Definition set_heap_last (p : Z) : M mmi unit := modify (fun s => mkMMI (ml s) (mm_heap_first s) p).

Definition padd (p n : Z) : Z := u64 (p + n).

Definition round_up (size n : Z) : Z := u64 (u64 (size + (n - 1)) / n * n).

Definition set_header (block size : Z) (is_allocated : bool) : M mmi unit :=
  st block (Z.lor size (b2z is_allocated)).

Definition get_size (block : Z) : M mmi Z :=
  header <- ld block;; ret (Z.land header (u64 (Z.lnot 1))).

Definition is_allocated (block : Z) : M mmi bool :=
  header <- ld block;; ret (negb (Z.land header 1 =? 0)).

Definition split_block (block size block_size : Z) : M mmi Z :=
  set_header block size true ;;;
  set_header (padd block size) (u64 (block_size - size)) false ;;;
  last <- gets mm_heap_last;;
  (if block =? last then set_heap_last (padd block size) else ret tt) ;;;
  ret (padd block OFF_PAYLOAD).

(** One iteration of the sweep; the loop variables are [prev] and [curr].  The
    second header is not read when the first block is allocated. *)
Definition coalesce_body (v : Z * Z) : M mmi (Z * Z + unit) :=
  let '(prev, curr) := v in
  last <- gets mm_heap_last;;
  if negb (last =? NULL) && (curr <=? last) then
    prev_alloc <- is_allocated prev;;
    both_free <- (if prev_alloc : bool then ret false
                  else a <- is_allocated curr;; ret (negb a));;
    if both_free : bool then
      psz <- get_size prev;;
      csz <- get_size curr;;
      let new_block_size := u64 (psz + csz) in
      (if curr =? last then set_heap_last prev else ret tt) ;;;
      set_header prev new_block_size false ;;;
      ret (inl (prev, padd prev new_block_size))
    else
      psz <- get_size prev;;
      csz <- get_size curr;;
      ret (inl (padd prev psz, padd curr csz))
  else ret (inr tt).

Definition coalesce_blocks : M mmi unit :=
  first <- gets mm_heap_first;;
  size <- get_size first;;
  loopM coalesce_body (first, padd first size).

Definition find_fit_body (size curr : Z) : M mmi (Z + Z) :=
  last <- gets mm_heap_last;;
  if negb (last =? NULL) && (curr <=? last) then
    a <- is_allocated curr;;
    fits <- (if a : bool then ret false
             else sz <- get_size curr;; ret (size <=? sz));;
    if fits : bool then ret (inr curr)
    else sz <- get_size curr;; ret (inl (padd curr sz))
  else ret (inr NULL).

Definition find_fit (size : Z) : M mmi Z :=
  first <- gets mm_heap_first;;
  loopM (find_fit_body size) first.

Definition block_from_payload (ptr : Z) : Z := padd ptr (- OFF_PAYLOAD).

Definition mm_init : M mmi bool :=
  padding <- zoom (mem_sbrk (ALIGNMENT - SIZEOF_BLOCK));;
  if padding =? PTR_FAILED then ret false
  else
    set_heap_first NULL ;;;
    set_heap_last NULL ;;;
    ret true.

Definition mm_malloc (size : Z) : M mmi Z :=
  let size := round_up (u64 (SIZEOF_BLOCK + size)) ALIGNMENT in
  coalesce_blocks ;;;
  block <- find_fit size;;
  if negb (block =? NULL) then
    block_size <- get_size block;;
    if size <? block_size then split_block block size block_size
    else
      sz <- get_size block;;
      set_header block sz true ;;;
      ret (padd block OFF_PAYLOAD)
  else
    block <- zoom (mem_sbrk size);;
    if block =? PTR_FAILED then ret NULL
    else
      first <- gets mm_heap_first;;
      (if first =? NULL then set_heap_first block else ret tt) ;;;
      set_heap_last block ;;;
      set_header block size true ;;;
      ret (padd block OFF_PAYLOAD).

Definition mm_free (ptr : Z) : M mmi unit :=
  if ptr =? NULL then ret tt
  else
    let block := block_from_payload ptr in
    sz <- get_size block;;
    set_header block sz false.

Definition mm_realloc (old_ptr size : Z) : M mmi Z :=
  if old_ptr =? NULL then mm_malloc size
  else if size =? 0 then mm_free old_ptr ;;; ret NULL
  else
    sz <- get_size (block_from_payload old_ptr);;
    let old_size := u64 (sz - SIZEOF_BLOCK) in
    new_ptr <- (if old_size <? size then
                  new_ptr <- mm_malloc size;;
                  c_memcpy new_ptr old_ptr old_size ;;;
                  ret new_ptr
                else
                  new_ptr <- mm_malloc size;;
                  c_memcpy new_ptr old_ptr size ;;;
                  ret new_ptr);;
    mm_free old_ptr ;;;
    ret new_ptr.

Definition mm_calloc (nmemb size : Z) : M mmi Z :=
  new_ptr <- mm_malloc (u64 (size * nmemb));;
  c_memset new_ptr 0 (u64 (size * nmemb)) ;;;
  ret new_ptr.
