(* ===== verification/MMImplicitSpec.v ===== *)
(** * Properties of mm-implicit.c

    The sweep that merges free neighbours is equivalent to a function on the
    list of blocks; the first allocation after mm_init() dereferences NULL. *)
From stdpp Require Import prelude gmap list.
From Stdlib Require Import ZArith Lia.
From S2P Require Import Prelude Memory Memlib MMImplicit.
Open Scope Z_scope.
Open Scope c_scope.

(** ** The heap as a list of blocks *)

(** The headers in [m] of consecutive blocks from [a] to [e]. *)
Fixpoint headers (m : ram) (a : Z) (l : list (Z * bool)) (e : Z) : Prop :=
  match l with
  | [] => a = e
  | (sz, al) :: l =>
      sz mod 16 = 0 /\ 16 <= sz /\ load64 m a = sz + b2z al /\ headers m (a + sz) l e
  end.

Definition extent (l : list (Z * bool)) : Z := foldr (fun b n => fst b + n) 0 l.

(** Address of the last block of a list that starts at [a]. *)
Fixpoint last_block (a : Z) (l : list (Z * bool)) : Z :=
  match l with
  | [] => NULL
  | [_] => a
  | (sz, _) :: l => last_block (a + sz) l
  end.

(** What the sweep computes: each maximal run of free blocks becomes one. *)
Fixpoint sweep (prev : Z * bool) (l : list (Z * bool)) : list (Z * bool) :=
  match l with
  | [] => [prev]
  | c :: l =>
      if negb (snd prev) && negb (snd c) then sweep (fst prev + fst c, false) l
      else prev :: sweep c l
  end.

Definition merge_free (l : list (Z * bool)) : list (Z * bool) :=
  match l with [] => [] | p :: l => sweep p l end.

Definition Sti (H brk : Z) (m : ram) (hf hl : Z) : mmi := mkMMI (mkMemlib m true H brk) hf hl.

(** The addresses of the headers of a list of blocks from [a]. *)
Fixpoint header_addrs (a : Z) (l : list (Z * bool)) : list Z :=
  match l with [] => [] | (sz, _) :: l => a :: header_addrs (a + sz) l end.

(** ** Properties of the reference function *)

Lemma extent_sweep l p : extent (sweep p l) = fst p + extent l.
Proof.
  revert p. induction l as [|c l IH]; intros p; cbn [sweep extent foldr]; [lia|].
  destruct (_ && _); cbn [extent foldr]; fold (extent l);
    [rewrite IH; cbn [fst]; fold (extent l); lia|].
  change (foldr _ 0 (sweep c l)) with (extent (sweep c l)). rewrite IH. fold (extent l). lia.
Qed.

Fixpoint no_adjacent_free (l : list (Z * bool)) : bool :=
  match l with
  | a :: (b :: _) as r => (snd a || snd b) && no_adjacent_free r
  | _ => true
  end.

Lemma sweep_head p l : exists q r, sweep p l = q :: r /\ (snd p = snd q).
Proof.
  revert p. induction l as [|c l IH]; intros p; cbn [sweep]; [eauto|].
  destruct p as [sz [|]]; cbn [snd negb andb]; [eauto|].
  destruct c as [csz [|]]; cbn [snd negb andb]; [eauto|].
  destruct (IH (fst (sz, false) + fst (csz, false), false)) as (q & r & E & Hq). eauto.
Qed.

Lemma sweep_coalesced l p : no_adjacent_free (sweep p l) = true.
Proof.
  revert p. induction l as [|c l IH]; intros p; cbn [sweep]; [done|].
  destruct (negb (snd p) && negb (snd c)) eqn:E; [apply IH|].
  destruct (sweep_head c l) as (q & r & Eq & Hq). specialize (IH c). rewrite Eq in *.
  cbn [no_adjacent_free]. apply andb_true_intro. split; [|done]. rewrite <- Hq.
  by destruct (snd p), (snd c).
Qed.

(** The allocated blocks with their addresses. *)
Fixpoint allocated (a : Z) (l : list (Z * bool)) : list (Z * Z) :=
  match l with
  | [] => []
  | (sz, al) :: l => (if al : bool then [(a, sz)] else []) ++ allocated (a + sz) l
  end.

Lemma allocated_sweep l p a :
  allocated a (sweep p l) = allocated a (p :: l).
Proof.
  revert p a. induction l as [|c l IH]; intros [sz al] a; [done|]. cbn [sweep].
  destruct c as [csz cal]. cbn [fst snd]. destruct al, cal; cbn [negb andb].
  1-3: cbn [allocated]; by rewrite IH.
  rewrite IH. cbn [allocated]. by rewrite Z.add_assoc.
Qed.

(** ** Execution *)

Section Heap.
Variables H brk : Z.
Hypothesis H_pos : 0 < H.
Hypothesis H_high : H + MAX_HEAP < 2 ^ 63.

Definition inside (a : Z) : Prop := H <= a /\ a + 8 <= H + MAX_HEAP.

Lemma ld_inside {A} (k : Z -> M mmi A) m hf hl a :
  inside a -> bind (ld a) k (Sti H brk m hf hl) = k (load64 m a) (Sti H brk m hf hl).
Proof.
  intros [H1 H2]. unfold bind, ld, Sti, mapped. cbn [get_ml mmi_MemState ml is_mapped heap mram].
  by rewrite (proj2 (Z.leb_le _ _) H1), (proj2 (Z.leb_le _ _) H2).
Qed.

Lemma exec_get_size {A} (k : Z -> M mmi A) m hf hl a sz al :
  inside a -> load64 m a = sz + b2z al -> sz mod 16 = 0 -> 0 <= sz < 2 ^ 63 ->
  bind (get_size a) k (Sti H brk m hf hl) = k sz (Sti H brk m hf hl).
Proof.
  intros Ha E Hm Hr. unfold get_size. rewrite bind_bind, ld_inside, bind_ret, E by done.
  rewrite land_not1_flag; [done| |done]. Z.to_euclidean_division_equations. lia.
Qed.

Lemma exec_is_allocated {A} (k : bool -> M mmi A) m hf hl a sz al :
  inside a -> load64 m a = sz + b2z al -> sz mod 16 = 0 ->
  bind (is_allocated a) k (Sti H brk m hf hl) = k al (Sti H brk m hf hl).
Proof.
  intros Ha E Hm. unfold is_allocated. rewrite bind_bind, ld_inside, bind_ret, E by done.
  rewrite land_1_mod, flag_mod; [by destruct al|]. Z.to_euclidean_division_equations. lia.
Qed.

Lemma exec_set_header {A} (k : unit -> M mmi A) m hf hl a sz al :
  inside a -> sz mod 16 = 0 ->
  bind (set_header a sz al) k (Sti H brk m hf hl) = k tt (Sti H brk (store64 m a (sz + b2z al)) hf hl).
Proof.
  intros [H1 H2] Hm. unfold set_header. rewrite lor_flag by (Z.to_euclidean_division_equations; lia).
  unfold bind, st, Sti, mapped. cbn [get_ml set_ml mmi_MemState ml is_mapped heap mram].
  by rewrite (proj2 (Z.leb_le _ _) H1), (proj2 (Z.leb_le _ _) H2).
Qed.

Lemma headers_extent m a l e : headers m a l e -> e = a + extent l /\ 16 * Z.of_nat (length l) <= extent l.
Proof.
  revert a. induction l as [|[sz al] l IH]; intros a; cbn [headers extent foldr length]; [lia|].
  intros (_ & ? & _ & Hl). apply IH in Hl. cbn [fst]. fold (extent l). lia.
Qed.

Lemma headers_frame m m' a l e :
  (forall b, a <= b < e -> byte_at m' b = byte_at m b) -> headers m a l e -> headers m' a l e.
Proof.
  revert a. induction l as [|[sz al] l IH]; intros a Hf; cbn [headers]; [done|].
  intros (? & ? & E & Hl). pose proof (headers_extent _ _ _ _ Hl) as [-> ?].
  split; [done|]. split; [done|]. split.
  - rewrite <- E. apply load_ext. intros b Hb. apply Hf. lia.
  - apply IH; [|done]. intros b Hb. apply Hf. lia.
Qed.

Lemma last_block_bounds m a l e :
  l <> [] -> headers m a l e -> a <= last_block a l /\ last_block a l + 16 <= e.
Proof.
  revert a. induction l as [|[sz al] l IH]; intros a Hne; [done|]. cbn [headers].
  intros (_ & ? & _ & Hl). destruct l as [|c l]; [cbn in *; lia|].
  specialize (IH (a + sz) ltac:(done) Hl). cbn [last_block] in *. lia.
Qed.

Lemma headers_app m a l r e :
  headers m a (l ++ r) e <-> headers m a l (a + extent l) /\ headers m (a + extent l) r e.
Proof.
  revert a. induction l as [|[sz al] l IH]; intros a; cbn [app headers extent foldr].
  - rewrite Z.add_0_r. tauto.
  - rewrite IH. cbn [fst]. fold (extent l). rewrite Z.add_assoc. tauto.
Qed.

Lemma last_block_cons a sz al c l : last_block a ((sz, al) :: c :: l) = last_block (a + sz) (c :: l).
Proof. done. Qed.

Definition sweep_step := fun '(l, s) =>
  match coalesce_body l s with
  | Ok (inl l', s') => Ok (inl (l', s'))
  | Ok (inr a, s') => Ok (inr (a, s'))
  | Err f => Err f
  end.

(** What a sweep from block [p] at [a] leaves. *)
Definition swept (m m' : ram) (a : Z) (p : Z * bool) (l : list (Z * bool)) : Prop :=
  headers m' a (sweep p l) brk /\
  (forall b, b < a \/ brk <= b -> byte_at m' b = byte_at m b) /\
  (forall b sz, (b, sz) ∈ allocated a (p :: l) ->
     forall x, b <= x < b + sz -> byte_at m' x = byte_at m x).

Lemma allocated_in m a l b sz : headers m a l brk -> (b, sz) ∈ allocated a l -> a <= b /\ 16 <= sz.
Proof.
  revert a. induction l as [|[z al] l IH]; intros a; cbn [headers allocated]; [set_solver|].
  intros (_ & ? & _ & Hl) [Hb|Hb]%elem_of_app.
  - destruct al; [apply list_elem_of_singleton in Hb; simplify_eq; lia|set_solver].
  - specialize (IH _ Hl Hb). lia.
Qed.

Lemma coalesce_iter m hf a p l :
  headers m a (p :: l) brk -> H <= a -> brk <= H + MAX_HEAP ->
  exists m', iter_nat sweep_step (S (length l))
               ((a, a + fst p), Sti H brk m hf (last_block a (p :: l))) =
               Ok (inr (tt, Sti H brk m' hf (last_block a (sweep p l)))) /\
             swept m m' a p l.
Proof.
  revert m a p. induction l as [|[csz cal] l IH]; intros m a [psz pal] Hh Ha Hb.
  - exists m. split; [|split; [done|split; done]]. destruct Hh as (_ & ? & _ & ?).
    cbn [length iter_nat sweep last_block fst]. unfold sweep_step, coalesce_body. rewrite bind_gets.
    cbn [Sti mm_heap_last]. replace (a + psz <=? a) with false by lia. by rewrite andb_false_r.
  - pose proof Hh as Hall. destruct Hh as (Hp1 & Hp2 & Ep & Hc1 & Hc2 & Ec & Hh).
    pose proof (last_block_bounds _ (a + psz) ((csz, cal) :: l) brk ltac:(done)
                  (conj Hc1 (conj Hc2 (conj Ec Hh)))) as Hlast.
    pose proof (headers_extent _ _ _ _ Hh) as [Ebrk Hlen].
    assert (Hip : inside a) by (unfold inside; lia).
    assert (Hic : inside (a + psz)) by (unfold inside; lia).
    change (S (length ((csz, cal) :: l))) with (S (S (length l))).
    rewrite last_block_cons. cbn [iter_nat fst]. unfold sweep_step at 1, coalesce_body.
    rewrite bind_gets. cbn [Sti mm_heap_last].
    replace (last_block (a + psz) ((csz, cal) :: l) =? NULL) with false by (unfold NULL; lia).
    replace (a + psz <=? _) with true by lia. cbn [negb andb].
    erewrite exec_is_allocated by done. cbn [sweep fst snd].
    destruct (negb pal && negb cal) eqn:Efree.
    + destruct pal, cal; try done. cbv iota. rewrite bind_bind. erewrite exec_is_allocated by done.
      rewrite bind_ret. cbn [negb]. erewrite exec_get_size by (done || lia).
      erewrite exec_get_size by (done || lia). rewrite (wrapU_small 64 (psz + csz)) by lia.
      assert (Hnew : forall hl',
        (set_header a (psz + csz) false ;;; ret (inl (a, padd a (psz + csz)) : Z * Z + unit))
          (Sti H brk m hf hl') =
        Ok (inl (a, a + (psz + csz)), Sti H brk (store64 m a (psz + csz)) hf hl')).
      { intros hl'. rewrite exec_set_header by (done || Z.to_euclidean_division_equations; lia).
        unfold ret, padd. rewrite wrapU_small by lia. by rewrite Z.add_0_r. }
      set (m1 := store64 m a (psz + csz)).
      assert (Hh1 : headers m1 a ((psz + csz, false) :: l) brk).
      { split; [Z.to_euclidean_division_equations; lia|]. split; [lia|].
        split; [unfold m1; rewrite load64_store64_same by lia; simpl; lia|].
        replace (a + (psz + csz)) with (a + psz + csz) by lia.
        eapply headers_frame; [|exact Hh]. intros b Hbb. unfold m1. apply byte_at_store_out. lia. }
      destruct (IH m1 a (psz + csz, false) Hh1 Ha Hb) as (m' & E & Hs & Hout & Hal).
      exists m'. split; [|split; [done|split]].
      * rewrite <- E. cbn [fst length]. destruct l as [|d l].
        -- cbn [last_block]. rewrite Z.eqb_refl.
           unfold set_heap_last, modify at 1. unfold bind at 1. cbn [Sti ml mm_heap_first].
           change (mkMMI _ hf a) with (Sti H brk m hf a). rewrite Hnew. done.
        -- replace (a + psz =? _) with false; [rewrite bind_ret, Hnew; rewrite !last_block_cons, !Z.add_assoc; done|].
           symmetry. apply Z.eqb_neq. rewrite last_block_cons.
           pose proof (last_block_bounds _ (a + psz + csz) (d :: l) brk ltac:(done) Hh). lia.
      * intros b Hbb. rewrite Hout by done. unfold m1. apply byte_at_store_out. lia.
      * intros b sz Hin x Hx. cbn [allocated app] in Hin. rewrite <- Z.add_assoc in Hin.
        rewrite (Hal b sz) by (done || exact Hin). unfold m1. apply byte_at_store_out.
        replace (a + (psz + csz)) with (a + psz + csz) in Hin by lia.
        pose proof (allocated_in _ _ _ _ _ Hh Hin). lia.
    + assert (Hskip : forall k, bind (if pal then ret false else a0 <- is_allocated (a + psz);; ret (negb a0)) k
                (Sti H brk m hf (last_block (a + psz) ((csz, cal) :: l))) =
              k false (Sti H brk m hf (last_block (a + psz) ((csz, cal) :: l))) :> res ((Z * Z + unit) * mmi)).
      { intros k. destruct pal; [done|]. rewrite bind_bind. erewrite exec_is_allocated by done.
        destruct cal; [done|]. done. }
      rewrite Hskip. erewrite exec_get_size by (done || lia). erewrite exec_get_size by (done || lia).
      unfold ret, padd. rewrite !wrapU_small by lia.
      destruct (IH m (a + psz) (csz, cal) (conj Hc1 (conj Hc2 (conj Ec Hh))) ltac:(lia) Hb)
        as (m' & E & Hs & Hout & Hal).
      exists m'. unfold swept. cbn [sweep fst snd]. rewrite Efree. split; [|split; [|split]].
      * etransitivity; [exact E|]. destruct (sweep_head (csz, cal) l) as (q & r & -> & _). by destruct q.
      * cbn [headers]. split; [done|]. split; [done|]. split; [|done].
        rewrite <- Ep. apply load_ext. intros b Hbb. apply Hout. lia.
      * intros b Hbb. apply Hout. lia.
      * intros b sz Hin x Hx. cbn [allocated] in Hin. apply elem_of_app in Hin as [Hin|Hin]; [|by eapply Hal].
        destruct pal; [|set_solver]. apply list_elem_of_singleton in Hin. simplify_eq. apply Hout. lia.
Qed.

Lemma coalesce_blocks_spec m a l :
  l <> [] -> headers m a l brk -> H <= a -> brk <= H + MAX_HEAP ->
  exists m', coalesce_blocks (Sti H brk m a (last_block a l)) =
               Ok (tt, Sti H brk m' a (last_block a (merge_free l))) /\
             headers m' a (merge_free l) brk /\
             (forall b sz, (b, sz) ∈ allocated a l -> forall x, b <= x < b + sz -> byte_at m' x = byte_at m x).
Proof.
  intros Hne Hh Ha Hb. destruct l as [|[psz pal] l]; [done|].
  destruct (coalesce_iter m a a (psz, pal) l Hh Ha Hb) as (m' & E & Hs & _ & Hal).
  exists m'. split; [|done]. pose proof (headers_extent _ _ _ _ Hh) as [Ebrk Hlen].
  cbn [length] in Hlen. destruct Hh as (? & ? & Ep & Hh).
  pose proof (headers_extent _ _ _ _ Hh) as [Ebrk2 Hlen2].
  unfold coalesce_blocks. rewrite bind_gets. cbn [Sti mm_heap_first].
  erewrite exec_get_size by (done || unfold inside; lia).
  unfold padd. rewrite wrapU_small by lia. unfold loopM.
  apply (loop_nat _ _ _ _ E). lia.
Qed.
End Heap.

(** ** Properties *)

(** C25: on a heap with at least one block, coalesce_blocks() terminates and
    computes exactly [merge_free]: no two neighbours stay free, the blocks
    cover the same bytes, and every allocated block keeps its place, its size
    and its bytes. *)
Theorem implicit_coalesce H brk m a l :
  0 < H -> H + MAX_HEAP < 2 ^ 63 -> H <= a -> brk <= H + MAX_HEAP ->
  l <> [] -> headers m a l brk ->
  exists m', coalesce_blocks (Sti H brk m a (last_block a l)) =
               Ok (tt, Sti H brk m' a (last_block a (merge_free l))) /\
             headers m' a (merge_free l) brk /\
             no_adjacent_free (merge_free l) = true /\
             extent (merge_free l) = extent l /\
             allocated a (merge_free l) = allocated a l /\
             (forall b sz, (b, sz) ∈ allocated a l ->
                forall x, b <= x < b + sz -> byte_at m' x = byte_at m x).
Proof.
  intros Hp Hh Ha Hb Hne Hl.
  destruct (coalesce_blocks_spec H brk Hp Hh m a l Hne Hl Ha Hb) as (m' & E & Hm & Hal).
  exists m'. destruct l as [|p l]; [done|]. split; [done|]. split; [done|]. split; [apply sweep_coalesced|].
  split; [apply extent_sweep|]. split; [apply allocated_sweep|done].
Qed.

(** Headers of an allocated block, two free ones and an allocated one. *)
Definition implicit_demo_ram : ram :=
  store64 (store64 (store64 (store64 (mkRam 0xCC ∅) 0x800000008 33) 0x800000028 16) 0x800000038 48)
    0x800000068 17.
Definition implicit_demo_blocks : list (Z * bool) := [(32, true); (16, false); (48, false); (16, true)].

Lemma implicit_coalesce_witness :
  exists m', coalesce_blocks (Sti 0x800000000 0x800000078 implicit_demo_ram 0x800000008
                                (last_block 0x800000008 implicit_demo_blocks)) =
               Ok (tt, Sti 0x800000000 0x800000078 m' 0x800000008
                         (last_block 0x800000008 (merge_free implicit_demo_blocks))) /\
             headers m' 0x800000008 (merge_free implicit_demo_blocks) 0x800000078 /\
             no_adjacent_free (merge_free implicit_demo_blocks) = true /\
             extent (merge_free implicit_demo_blocks) = extent implicit_demo_blocks /\
             allocated 0x800000008 (merge_free implicit_demo_blocks) = allocated 0x800000008 implicit_demo_blocks /\
             (forall b sz, (b, sz) ∈ allocated 0x800000008 implicit_demo_blocks ->
                forall x, b <= x < b + sz -> byte_at m' x = byte_at implicit_demo_ram x).
Proof.
  apply (implicit_coalesce 0x800000000 0x800000078 implicit_demo_ram 0x800000008 implicit_demo_blocks);
    done.
Defined.

(** The first mm_malloc() after mm_init() reads the header of the block at
    NULL, whatever size is requested: coalesce_blocks() does not test for an
    empty heap. *)
Theorem implicit_first_malloc_faults H m hf hl size :
  0 < H -> H + MAX_HEAP < 2 ^ 63 ->
  exists s, mm_init (Sti H H m hf hl) = Ok (true, s) /\ mm_malloc size s = Err (Segv NULL).
Proof.
  intros Hp Hh. exists (Sti H (H + 8) m NULL NULL). split.
  - unfold mm_init, bind at 1, zoom, mem_sbrk. cbn [get_ml mmi_MemState ml Sti mem_brk heap].
    change (s64 _) with 8. rewrite wrapU_small by (unfold MAX_HEAP in *; lia).
    replace (H + MAX_HEAP <? H + 8) with false by (unfold MAX_HEAP; lia). cbn [Z.ltb Z.compare orb].
    by replace (H =? PTR_FAILED) with false by (rewrite PTR_FAILED_val; unfold MAX_HEAP in *; lia).
  - unfold mm_malloc. apply bind_err. unfold coalesce_blocks. rewrite bind_gets.
    apply bind_err. unfold get_size. apply bind_err. unfold ld, mapped. cbn.
    by replace (H <=? NULL) with false by (unfold NULL; lia).
Qed.

Lemma implicit_first_malloc_faults_witness :
  exists s, mm_init (Sti 0x800000000 0x800000000 (mkRam 0xCC ∅) NULL NULL) = Ok (true, s) /\
            mm_malloc 24 s = Err (Segv NULL).
Proof. by apply (implicit_first_malloc_faults 0x800000000 (mkRam 0xCC ∅) NULL NULL 24). Defined.
