(* ===== verification/Mdriver.v ===== *)
(** * The malloc driver (malloc/driver/mdriver.c)

    The driver replays a trace of requests against an allocator, fills every
    payload with random data and checks that the payloads are aligned, lie in
    the heap, do not overlap and keep their data.  The allocator is any
    instance of [Allocator]; the C library's random() is a stream of numbers,
    of which the driver has consumed [nrandom]. *)
From stdpp Require Import prelude gmap list.
From Stdlib Require Import ZArith Lia.
From S2P Require Import Prelude Memory Memlib Allocator.
Open Scope Z_scope.
Open Scope c_scope.

(** ** Data *)

Inductive optype := ALLOC | FREE | REALLOC.

Record traceop := mkOp { type : optype; index : Z; size : Z }.

Record range_t := mkRange { lo : Z; hi : Z; rindex : Z }.

Inductive debug_mode_t := DBG_NONE | DBG_CHEAP | DBG_EXPENSIVE.

#[export] Instance debug_mode_eq_dec : EqDecision debug_mode_t.
Proof. solve_decision. Defined.

(** The fields of trace_t that the evaluation does not change. *)
Record trace_t := mkTrace {
  ignore_ranges : bool;
  num_ids : nat;
  weight : Z;
  ops : list traceop
}.

Definition RANDOM_DATA_LEN : Z := Z.shiftl 1 16.
Definition DRIVER_ALIGNMENT : Z := 16.

Definition IS_ALIGNED (p : Z) : bool := u64 p mod DRIVER_ALIGNMENT =? 0.

Section Driver.
Context {S : Type} `{Allocator S}.

(** random() and the debug mode the driver was started with. *)
Variable random : nat -> Z.
Variable debug_mode : debug_mode_t.

(** The allocator, the arrays of the trace, the range list and the counters. *)
Record drv := mkDrv {
  alloc : S;
  blocks : list Z;
  block_sizes : list Z;
  block_rand_base : list Z;
  random_data : list Z;
  ranges : list range_t;
  errors : Z;
  nrandom : nat
}.

Definition with_alloc (s : S) (d : drv) : drv :=
  mkDrv s (blocks d) (block_sizes d) (block_rand_base d) (random_data d) (ranges d) (errors d) (nrandom d).
Definition with_ranges (r : list range_t) (d : drv) : drv :=
  mkDrv (alloc d) (blocks d) (block_sizes d) (block_rand_base d) (random_data d) r (errors d) (nrandom d).
Definition with_blocks (b : list Z) (d : drv) : drv :=
  mkDrv (alloc d) b (block_sizes d) (block_rand_base d) (random_data d) (ranges d) (errors d) (nrandom d).
Definition with_sizes (z : list Z) (d : drv) : drv :=
  mkDrv (alloc d) (blocks d) z (block_rand_base d) (random_data d) (ranges d) (errors d) (nrandom d).

(** A call of the allocator or of the memory system. *)
Definition call {A} (m : M S A) : M drv A := fun d =>
  match m (alloc d) with
  | Ok (a, s) => Ok (a, with_alloc s d)
  | Err f => Err f
  end.

Definition malloc_error : M drv unit := modify (fun d =>
  mkDrv (alloc d) (blocks d) (block_sizes d) (block_rand_base d) (random_data d) (ranges d)
        (errors d + 1) (nrandom d)).

Definition app_error {A} : M drv A := fail (Exit 1).

(** random(), one number of the stream. *)
Definition c_random : M drv Z := fun d =>
  Ok (random (nrandom d),
      mkDrv (alloc d) (blocks d) (block_sizes d) (block_rand_base d) (random_data d) (ranges d)
            (errors d) (Datatypes.S (nrandom d))).

(** Reads and writes of the arrays; an index out of range is undefined. *)
Definition array_get (f : drv -> list Z) (i : Z) : M drv Z := fun d =>
  if i <? 0 then Err UB
  else match f d !! Z.to_nat i with Some v => Ok (v, d) | None => Err UB end.
Definition array_set (f : drv -> list Z) (put : list Z -> drv -> drv) (i v : Z) : M drv unit := fun d =>
  if (i <? 0) || (Z.of_nat (length (f d)) <=? i) then Err UB
  else Ok (tt, put (<[Z.to_nat i := v]> (f d)) d).

Definition set_rand_base (i v : Z) : M drv unit :=
  array_set block_rand_base (fun z d =>
    mkDrv (alloc d) (blocks d) (block_sizes d) z (random_data d) (ranges d) (errors d) (nrandom d)) i v.

(** Accesses to single bytes of a payload. *)
Definition ldb (a : Z) : M drv Z := fun d =>
  let m := get_ml (alloc d) in
  if mapped m a 1 then Ok (byte_at (mram m) a, d) else Err (Segv a).
Definition stb (a v : Z) : M drv unit := fun d =>
  let m := get_ml (alloc d) in
  if mapped m a 1 then Ok (tt, with_alloc (set_ml (set_ram (set_byte (mram m) a v) m) (alloc d)) d)
  else Err (Segv a).

(** ** Ranges *)

(** The linear scan of the range list for an overlap. *)
Definition overlaps (l h : Z) (p : range_t) : bool :=
  ((lo p <=? l) && (l <=? hi p)) || ((lo p <=? h) && (h <=? hi p)).

Definition add_range (ignore : bool) (l sz idx : Z) : M drv bool :=
  let sz := s32 sz in
  let h := u64 (l + sz - 1) in
  c_assert (0 <? sz) ;;;
  if negb (IS_ALIGNED l) then malloc_error ;;; ret false
  else
    heap_lo <- gets (fun d => mem_heap_lo (get_ml (alloc d)));;
    heap_hi <- gets (fun d => mem_heap_hi (get_ml (alloc d)));;
    if (l <? heap_lo) || (heap_hi <? l) || (h <? heap_lo) || (heap_hi <? h)
    then malloc_error ;;; ret false
    else if ignore || bool_decide (debug_mode = DBG_NONE) then ret true
    else
      rs <- gets ranges;;
      if existsb (overlaps l h) rs then malloc_error ;;; ret false
      else modify (with_ranges (mkRange l h idx :: rs)) ;;; ret true.

(** Removes the first record whose payload starts at [l]. *)
Fixpoint remove_first_range (l : Z) (rs : list range_t) : list range_t :=
  match rs with
  | [] => []
  | p :: rs => if lo p =? l then rs else p :: remove_first_range l rs
  end.

Definition remove_range (l : Z) : M drv unit :=
  modify (fun d => with_ranges (remove_first_range l (ranges d)) d).

Definition clear_ranges : M drv unit := modify (with_ranges []).

(** ** Random data *)

Fixpoint init_random_loop (n : nat) (len : Z) : M drv unit :=
  match n with
  | O => ret tt
  | Datatypes.S n =>
      r <- c_random;;
      array_set random_data (fun z d =>
        mkDrv (alloc d) (blocks d) (block_sizes d) (block_rand_base d) z (ranges d) (errors d) (nrandom d))
        len (u8 r) ;;;
      init_random_loop n (len + 1)
  end.

Definition init_random_data : M drv unit :=
  if bool_decide (debug_mode = DBG_NONE) then ret tt
  else init_random_loop (Z.to_nat RANDOM_DATA_LEN) 0.

Fixpoint randomize_loop (n : nat) (block base i : Z) : M drv unit :=
  match n with
  | O => ret tt
  | Datatypes.S n =>
      v <- array_get random_data (u64 (base + i) mod RANDOM_DATA_LEN);;
      stb (u64 (block + i)) v ;;;
      randomize_loop n block base (i + 1)
  end.

Definition randomize_block (idx : Z) : M drv unit :=
  if bool_decide (debug_mode = DBG_NONE) then ret tt
  else
    r <- c_random;;
    set_rand_base idx (s32 r) ;;;
    block <- array_get blocks idx;;
    sz <- array_get block_sizes idx;;
    base <- array_get block_rand_base idx;;
    randomize_loop (Z.to_nat sz) block base 0.

(** Counts the bytes that differ from the random data. *)
Fixpoint check_loop (n : nat) (block base i ngarbled : Z) : M drv Z :=
  match n with
  | O => ret ngarbled
  | Datatypes.S n =>
      b <- ldb (u64 (block + i));;
      v <- array_get random_data (u64 (base + i) mod RANDOM_DATA_LEN);;
      check_loop n block base (i + 1) (if negb (b =? v) then ngarbled + 1 else ngarbled)
  end.

Definition check_index (idx : Z) : M drv unit :=
  if idx <? 0 then ret tt
  else if bool_decide (debug_mode = DBG_NONE) then ret tt
  else
    block <- array_get blocks idx;;
    sz <- array_get block_sizes idx;;
    base <- array_get block_rand_base idx;;
    ngarbled <- check_loop (Z.to_nat sz) block base 0 0;;
    if negb (ngarbled =? 0) then malloc_error else ret tt.

Fixpoint check_ranges (rs : list range_t) : M drv unit :=
  match rs with
  | [] => ret tt
  | r :: rs => check_index (rindex r) ;;; check_ranges rs
  end.

(** ** Evaluation *)

Definition reinit_trace (t : trace_t) : M drv unit := modify (fun d =>
  with_sizes (replicate (num_ids t) 0) (with_blocks (replicate (num_ids t) NULL) d)).

(** The three cases of the switch of eval_mm_valid(). *)
Definition valid_alloc (t : trace_t) (idx sz : Z) : M drv bool :=
  p <- call (al_malloc sz);;
  if p =? NULL then malloc_error ;;; ret false
  else
    ok <- add_range (ignore_ranges t) p sz idx;;
    if negb ok then ret false
    else
      array_set blocks with_blocks idx p ;;;
      array_set block_sizes with_sizes idx sz ;;;
      randomize_block idx ;;;
      ret true.

(** After a realloc(): the common prefix of the two sizes must be intact. *)
Definition check_copied (idx sz : Z) : M drv unit :=
  oldsize <- array_get block_sizes idx;;
  (if sz <? oldsize then array_set block_sizes with_sizes idx sz else ret tt) ;;;
  check_index idx.

Definition valid_realloc (t : trace_t) (idx sz : Z) : M drv bool :=
  check_index idx ;;;
  oldp <- array_get blocks idx;;
  newp <- call (al_realloc oldp sz);;
  if (newp =? NULL) && negb (sz =? 0) then malloc_error ;;; ret false
  else if negb (newp =? NULL) && (sz =? 0) then malloc_error ;;; ret false
  else
    remove_range oldp ;;;
    ok <- (if 0 <? sz then add_range (ignore_ranges t) newp sz idx else ret true);;
    if negb ok then ret false
    else
      array_set blocks with_blocks idx newp ;;;
      check_copied idx sz ;;;
      array_set block_sizes with_sizes idx sz ;;;
      randomize_block idx ;;;
      ret true.

Definition valid_free (idx : Z) : M drv bool :=
  check_index idx ;;;
  p <- (if idx =? -1 then ret NULL
        else p <- array_get blocks idx;; remove_range p ;;; ret p);;
  call (al_free p) ;;;
  ret true.

Definition valid_op (t : trace_t) (o : traceop) : M drv bool :=
  (if bool_decide (debug_mode = DBG_EXPENSIVE)
   then rs <- gets ranges;; check_ranges rs
   else ret tt) ;;;
  match type o with
  | ALLOC => valid_alloc t (index o) (size o)
  | REALLOC => valid_realloc t (index o) (size o)
  | FREE => valid_free (index o)
  end.

(** The loop over the requests, left at the first rejection. *)
Fixpoint valid_ops (t : trace_t) (l : list traceop) : M drv bool :=
  match l with
  | [] => ret true
  | o :: l => ok <- valid_op t o;; if negb ok then ret false else valid_ops t l
  end.

Definition eval_mm_valid (t : trace_t) : M drv bool :=
  call (zoom (mem_reset_brk true)) ;;;
  reinit_trace t ;;;
  ok <- call al_init;;
  if negb ok then malloc_error ;;; ret false
  else valid_ops t (ops t).

(** int arithmetic: an overflow is undefined. *)
Definition c_int (x : Z) : M drv Z := if s32 x =? x then ret x else fail UB.

(** Space utilization: the high water mark of the requested bytes and the size
    of the heap, whose quotient the C function returns. *)
Definition util_op (o : traceop) (total : Z) : M drv Z :=
  match type o with
  | ALLOC =>
      let sz := s32 (size o) in
      p <- call (al_malloc (u64 sz));;
      if p =? NULL then app_error
      else
        array_set blocks with_blocks (index o) p ;;;
        array_set block_sizes with_sizes (index o) (u64 sz) ;;;
        c_int (total + sz)
  | REALLOC =>
      let newsize := s32 (size o) in
      old <- array_get block_sizes (index o);;
      oldp <- array_get blocks (index o);;
      newp <- call (al_realloc oldp (u64 newsize));;
      if (newp =? NULL) && negb (newsize =? 0) then app_error
      else
        array_set blocks with_blocks (index o) newp ;;;
        array_set block_sizes with_sizes (index o) (u64 newsize) ;;;
        c_int (total + (newsize - s32 old))
  | FREE =>
      '(sz, p) <- (if index o <? 0 then ret (0, NULL)
                   else sz <- array_get block_sizes (index o);;
                        p <- array_get blocks (index o);;
                        ret (s32 sz, p));;
      call (al_free p) ;;;
      c_int (total - sz)
  end.

Fixpoint util_ops (l : list traceop) (total hwm : Z) : M drv Z :=
  match l with
  | [] => ret hwm
  | o :: l => total <- util_op o total;;
              util_ops l total (if hwm <? total then total else hwm)
  end.

Definition eval_mm_util (t : trace_t) : M drv (Z * Z) :=
  reinit_trace t ;;;
  call (zoom (mem_reset_brk false)) ;;;
  ok <- call al_init;;
  if negb ok then app_error
  else
    hwm <- util_ops (ops t) 0 0;;
    hs <- gets (fun d => mem_heapsize (get_ml (alloc d)));;
    ret (hwm, hs).

Definition speed_op (o : traceop) : M drv unit :=
  match type o with
  | ALLOC =>
      p <- call (al_malloc (u64 (s32 (size o))));;
      if p =? NULL then app_error else array_set blocks with_blocks (index o) p
  | REALLOC =>
      oldp <- array_get blocks (index o);;
      newp <- call (al_realloc oldp (u64 (s32 (size o))));;
      if (newp =? NULL) && negb (s32 (size o) =? 0) then app_error
      else array_set blocks with_blocks (index o) newp
  | FREE =>
      p <- (if index o <? 0 then ret NULL else array_get blocks (index o));;
      call (al_free p)
  end.

Fixpoint speed_ops (l : list traceop) : M drv unit :=
  match l with
  | [] => ret tt
  | o :: l => speed_op o ;;; speed_ops l
  end.

Definition eval_mm_speed (t : trace_t) : M drv unit :=
  reinit_trace t ;;;
  call (zoom (mem_reset_brk false)) ;;;
  ok <- call al_init;;
  if negb ok then app_error else speed_ops (ops t).
End Driver.
