(* ===== verification/MdriverProofs.v ===== *)
(** * The driver accepts every allocator that meets the contract

    Against the interface [Allocator] alone: on a well-formed trace the checks
    of eval_mm_valid() never raise a false alarm. *)
From stdpp Require Import prelude gmap list.
From Stdlib Require Import ZArith Lia.
From S2P Require Import Prelude Memory Memlib Allocator Mdriver.
Open Scope Z_scope.
Open Scope c_scope.

(** ** Well-formed traces *)

(** What a block number stands for while a trace runs. *)
Inductive status := SNull | SLive | SFreed.

#[export] Instance status_eq_dec : EqDecision status.
Proof. solve_decision. Defined.

Definition size_fits (n : Z) : bool := (0 <? n) && (n <? 2 ^ 31).

(** The status of the block numbers after a request, if the request is legal:
    malloc() into a number that is not live, realloc() of a live number or to a
    nonzero size from none, free() of a live or empty number or of -1. *)
Definition op_status (st : list status) (o : traceop) : option (list status) :=
  if (index o =? -1) then
    match type o with FREE => Some st | _ => None end
  else if index o <? 0 then None
  else
    let i := Z.to_nat (index o) in
    match st !! i, type o with
    | Some SLive, ALLOC => None
    | Some _, ALLOC => if size_fits (size o) then Some (<[i := SLive]> st) else None
    | Some SLive, REALLOC =>
        if size o =? 0 then Some (<[i := SNull]> st)
        else if size_fits (size o) then Some (<[i := SLive]> st) else None
    | Some SNull, REALLOC => if size_fits (size o) then Some (<[i := SLive]> st) else None
    | Some SLive, FREE => Some (<[i := SFreed]> st)
    | Some SNull, FREE => Some st
    | _, _ => None
    end.

Fixpoint wf_ops (st : list status) (l : list traceop) : bool :=
  match l with
  | [] => true
  | o :: l => match op_status st o with Some st => wf_ops st l | None => false end
  end.

Definition wf_trace (t : trace_t) : bool := wf_ops (replicate (num_ids t) SNull) (ops t).

Section Accept.
Context {S : Type} `{Allocator S}.
Variable random : nat -> Z.
Variable mode : debug_mode_t.
Hypothesis random_range : forall n, 0 <= random n < 2 ^ 31.

Abbreviation drv := (@drv S).
Abbreviation ramof d := (mram (get_ml (alloc d))).

(** A live block number: pointer, requested size, offset into the random data. *)
Record slot := Slot { sp : Z; sn : Z; sb : Z }.

Definition filled (data : list Z) (m : ram) (x : slot) : Prop :=
  forall j, 0 <= j < sn x ->
    data !! Z.to_nat ((sb x + j) mod RANDOM_DATA_LEN) = Some (byte_at m (sp x + j)).

Record DInv (d : drv) (st : list status) (L : gmap nat slot) (A : gmap Z Z) : Prop := {
  di_live : live (alloc d) A;
  di_len_b : length (blocks d) = length st;
  di_len_s : length (block_sizes d) = length st;
  di_len_r : length (block_rand_base d) = length st;
  di_len_data : length (random_data d) = Z.to_nat RANDOM_DATA_LEN;
  di_status i : st !! i = Some SLive <-> is_Some (L !! i);
  di_null i : st !! i = Some SNull -> blocks d !! i = Some NULL /\ block_sizes d !! i = Some 0;
  di_slot i x : L !! i = Some x ->
    blocks d !! i = Some (sp x) /\ block_sizes d !! i = Some (sn x) /\
    (mode <> DBG_NONE -> block_rand_base d !! i = Some (sb x) /\ 0 <= sb x < 2 ^ 31);
  di_payload i x : L !! i = Some x ->
    0 < sn x < 2 ^ 31 /\ exists k, A !! sp x = Some k /\ sn x <= k;
  di_filled i x : L !! i = Some x -> mode <> DBG_NONE -> filled (random_data d) (ramof d) x;
  di_inj i j x y : L !! i = Some x -> L !! j = Some y -> sp x = sp y -> i = j
}.

(** The range list records live payloads, each at most once. *)
Definition RInv (rs : list range_t) (L : gmap nat slot) : Prop :=
  NoDup (lo <$> rs) /\
  forall r, r ∈ rs -> exists i x, L !! i = Some x /\ r = mkRange (sp x) (sp x + sn x - 1) (Z.of_nat i).

(** ** Arrays and bytes *)

Lemma array_get_ok {B} (f : drv -> list Z) (k : Z -> M drv B) d i v :
  f d !! i = Some v -> bind (array_get f (Z.of_nat i)) k d = k v d.
Proof.
  intros E. unfold bind, array_get. rewrite of_nat_ltb_0.
  by rewrite Nat2Z.id, E.
Qed.

Lemma array_get_ok' {B} (f : drv -> list Z) (k : Z -> M drv B) d i v :
  0 <= i -> f d !! Z.to_nat i = Some v -> bind (array_get f i) k d = k v d.
Proof. intros Hi E. rewrite <- (Z2Nat.id i) by done. by apply array_get_ok. Qed.

Lemma array_set_ok {B} (f : drv -> list Z) put (k : unit -> M drv B) d i v :
  (i < length (f d))%nat ->
  bind (array_set f put (Z.of_nat i) v) k d = k tt (put (<[i := v]> (f d)) d).
Proof.
  intros E. unfold bind, array_set. rewrite of_nat_ltb_0.
  rewrite (proj2 (Z.leb_gt _ _)) by lia. by rewrite Nat2Z.id.
Qed.

Lemma live_mapped (d : drv) A p n a :
  live (alloc d) A -> A !! p = Some n -> p <= a < p + n ->
  mapped (get_ml (alloc d)) a 1 = true /\ 0 < a < 2 ^ 63.
Proof.
  intros HL Hp Ha. destruct (live_payload _ _ _ _ HL Hp) as (?&?&?&?&[??]&?&Hm).
  split; [|lia]. unfold mapped. rewrite Hm. cbn [andb].
  apply andb_true_intro. split; apply Z.leb_le; lia.
Qed.

Lemma rand_index b j : 0 <= b < 2 ^ 31 -> 0 <= j < 2 ^ 31 ->
  u64 (b + j) mod RANDOM_DATA_LEN = (b + j) mod RANDOM_DATA_LEN /\ 0 <= (b + j) mod RANDOM_DATA_LEN.
Proof.
  intros Hb Hj. rewrite wrapU_small by lia. split; [done|].
  apply Z.mod_pos_bound. done.
Qed.

(** ** Checking and filling payloads *)

Lemma check_loop_ok (d : drv) A x k n j g :
  live (alloc d) A -> A !! sp x = Some k -> sn x <= k -> sn x < 2 ^ 31 -> 0 <= sb x < 2 ^ 31 ->
  filled (random_data d) (ramof d) x -> 0 <= j -> j + Z.of_nat n <= sn x ->
  check_loop n (sp x) (sb x) j g d = Ok (g, d).
Proof.
  intros HL Hp Hk Hn Hb Hf. revert j. induction n as [|n IH]; intros j Hj Hjn; [done|].
  cbn [check_loop]. destruct (live_mapped d A (sp x) k (sp x + j) HL Hp) as [Hm Hr]; [lia|].
  unfold bind at 1, ldb. rewrite (wrapU_small 64 (sp x + j)) by lia. rewrite Hm.
  destruct (rand_index (sb x) j) as [-> Hri]; [lia..|].
  erewrite array_get_ok'; [|done|apply Hf; lia]. rewrite Z.eqb_refl. cbn [negb].
  apply IH; lia.
Qed.

Lemma check_index_raw (d : drv) A i x k :
  live (alloc d) A -> blocks d !! i = Some (sp x) -> block_sizes d !! i = Some (sn x) ->
  (i < length (block_rand_base d))%nat ->
  (0 < sn x -> A !! sp x = Some k /\ sn x <= k) -> sn x < 2 ^ 31 ->
  (mode <> DBG_NONE -> 0 < sn x -> block_rand_base d !! i = Some (sb x) /\ 0 <= sb x < 2 ^ 31 /\
     filled (random_data d) (ramof d) x) ->
  check_index mode (Z.of_nat i) d = Ok (tt, d).
Proof.
  intros HL Hb Hs Hlt Hp Hn Hm. unfold check_index. rewrite of_nat_ltb_0.
  case_bool_decide as Hmode; [done|].
  erewrite array_get_ok by done. erewrite array_get_ok by done.
  destruct (Z.leb_spec (sn x) 0) as [Hz|Hz].
  - destruct (lookup_lt_is_Some_2 _ _ Hlt) as [b Hr]. erewrite array_get_ok by done.
    by replace (Z.to_nat (sn x)) with O by lia.
  - destruct (Hm Hmode Hz) as (Hr & Hbr & Hf). destruct (Hp Hz) as [HA Hk].
    erewrite array_get_ok by done.
    erewrite bind_ok; [|eapply check_loop_ok; try done; lia]. done.
Qed.

Lemma check_index_live (d : drv) st L A i x :
  DInv d st L A -> L !! i = Some x -> check_index mode (Z.of_nat i) d = Ok (tt, d).
Proof.
  intros D Hx. destruct (di_slot _ _ _ _ D _ _ Hx) as (Hb & Hs & Hr).
  destruct (di_payload _ _ _ _ D _ _ Hx) as (Hn & k & Hp & Hk).
  eapply check_index_raw; try done; [apply D| | |].
  - rewrite (di_len_r _ _ _ _ D). assert (E : st !! i = Some SLive) by (apply (di_status _ _ _ _ D); eauto).
    by eapply lookup_lt_Some.
  - lia.
  - intros Hm _. destruct (Hr Hm). split; [done|]. split; [done|]. by eapply di_filled.
Qed.

Lemma check_index_null (d : drv) st L A i :
  DInv d st L A -> st !! i = Some SNull -> check_index mode (Z.of_nat i) d = Ok (tt, d).
Proof.
  intros D Hi. destruct (di_null _ _ _ _ D _ Hi) as [Hb Hs].
  eapply (check_index_raw d A i (Slot NULL 0 0) 0); cbn [sn sp sb]; try done; try lia; [apply D|].
  rewrite (di_len_r _ _ _ _ D). by eapply lookup_lt_Some.
Qed.

Lemma check_ranges_ok (d : drv) st L A rs :
  DInv d st L A -> RInv rs L -> check_ranges mode rs d = Ok (tt, d).
Proof.
  intros D [_ HR]. induction rs as [|r rs IH]; [done|]. cbn [check_ranges].
  destruct (HR r) as (i & x & Hx & ->); [set_solver|].
  rewrite (bind_ok _ _ _ _ _ (check_index_live _ _ _ _ _ _ D Hx)). apply IH. set_solver.
Qed.

(** The driver's state with other memory contents. *)
Definition with_ram (m : ram) (d : drv) : drv :=
  with_alloc (set_ml (set_ram m (get_ml (alloc d))) (alloc d)) d.
Lemma alloc_with_ram m (d : drv) : get_ml (alloc (with_ram m d)) = set_ram m (get_ml (alloc d)).
Proof. unfold with_ram. cbn [alloc with_alloc]. by rewrite get_set_ml. Qed.

Lemma with_ram_with_ram m m' (d : drv) : with_ram m' (with_ram m d) = with_ram m' d.
Proof.
  unfold with_ram at 1. rewrite alloc_with_ram. unfold with_ram, with_alloc.
  cbn [alloc blocks block_sizes block_rand_base random_data ranges errors nrandom].
  by rewrite set_set_ml.
Qed.

Lemma with_ram_id (d : drv) : with_ram (ramof d) d = d.
Proof.
  unfold with_ram, set_ram. destruct d as [s ? ? ? ? ? ? ?]. unfold with_alloc. cbn [alloc].
  assert (E : mkMemlib (mram (get_ml s)) (is_mapped (get_ml s)) (heap (get_ml s)) (mem_brk (get_ml s)) = get_ml s)
    by (by destruct (get_ml s)). by rewrite E, set_get_ml.
Qed.

(** [m'] is [m] with the payload of [x] filled from offset [j] on. *)
Lemma randomize_loop_ok (d : drv) A x k n j :
  live (alloc d) A -> A !! sp x = Some k -> sn x <= k -> sn x < 2 ^ 31 -> 0 <= sb x < 2 ^ 31 ->
  length (random_data d) = Z.to_nat RANDOM_DATA_LEN -> 0 <= j -> j + Z.of_nat n = sn x ->
  exists m', randomize_loop n (sp x) (sb x) j d = Ok (tt, with_ram m' d) /\
    (forall a, a < sp x + j \/ sp x + sn x <= a -> byte_at m' a = byte_at (ramof d) a) /\
    (forall i, j <= i < sn x ->
       random_data d !! Z.to_nat ((sb x + i) mod RANDOM_DATA_LEN) = Some (byte_at m' (sp x + i))).
Proof.
  intros HL Hp Hk Hn Hb Hlen. revert d j HL Hlen. induction n as [|n IH]; intros d j HL Hlen Hj Hjn.
  - exists (ramof d). cbn [randomize_loop]. rewrite with_ram_id. split; [done|]. split; [done|lia].
  - cbn [randomize_loop]. destruct (live_mapped d A (sp x) k (sp x + j) HL Hp) as [Hm Hr]; [lia|].
    destruct (rand_index (sb x) j) as [-> Hri]; [lia..|].
    destruct (lookup_lt_is_Some_2 (random_data d) (Z.to_nat ((sb x + j) mod RANDOM_DATA_LEN))) as [v Hv].
    { rewrite Hlen. apply Z2Nat.inj_lt; [lia|done|]. by apply Z.mod_pos_bound. }
    erewrite array_get_ok' by done. unfold bind, stb. rewrite (wrapU_small 64 (sp x + j)) by lia.
    rewrite Hm. set (m1 := set_byte (ramof d) (sp x + j) v).
    change (with_alloc _ d) with (with_ram m1 d).
    assert (Hout1 : forall a, a <> sp x + j -> byte_at m1 a = byte_at (ramof d) a).
    { intros a Ha. unfold m1. rewrite byte_at_set. by case_decide. }
    assert (HL1 : live (alloc (with_ram m1 d)) A).
    { apply (live_write _ _ (sp x) k); [done..|]. intros a Ha. apply Hout1. lia. }
    destruct (IH (with_ram m1 d) (j + 1) HL1) as (m' & E & Hout & Hin); [done|lia..|].
    exists m'. rewrite E, with_ram_with_ram. split; [done|]. rewrite alloc_with_ram in Hout.
    cbn [set_ram mram] in Hout. split.
    + intros a Ha. rewrite Hout, Hout1 by lia. done.
    + intros i Hi. destruct (decide (i = j)) as [->|Hij]; [|apply Hin; lia].
      rewrite Hv, Hout by lia. unfold m1. rewrite byte_at_set. by case_decide.
Qed.
(** ** Steps of the invariant *)

Lemma size_fits_spec n : size_fits n = true -> 0 < n < 2 ^ 31.
Proof. unfold size_fits. intros E. apply andb_prop in E as [?%Z.ltb_lt ?%Z.ltb_lt]. lia. Qed.

Lemma payload_keep (x : slot) k (A : gmap Z Z) m m' :
  A !! sp x = Some k -> sn x <= k -> same_payloads A m m' ->
  forall j, 0 <= j < sn x -> byte_at m' (sp x + j) = byte_at m (sp x + j).
Proof. intros Hp Hk Hs j Hj. apply (Hs _ _ Hp). lia. Qed.

(** Another allocator state in which the slots of [L] but the one of [i] survive. *)
Lemma dinv_step (d : drv) s' st L A i A' :
  DInv d st L A -> live s' A' ->
  (forall j x k, delete i L !! j = Some x -> A !! sp x = Some k -> A' !! sp x = Some k /\
     forall a, sp x <= a < sp x + k -> byte_at (mram (get_ml s')) a = byte_at (ramof d) a) ->
  DInv (with_alloc s' d) (<[i := SFreed]> st) (delete i L) A'.
Proof.
  intros D HL Hk. split; cbn [with_alloc alloc blocks block_sizes block_rand_base random_data]; try done.
  1-3: rewrite length_insert; apply D.
  - apply D.
  - intros j. destruct (decide (i = j)) as [->|Hij].
    + rewrite lookup_delete_eq. split; [|by intros [? ?]].
      by intros [(_ & E & _)|[E _]]%list_lookup_insert_Some.
    + rewrite list_lookup_insert_ne, lookup_delete_ne by done. apply D.
  - intros j Hj. apply list_lookup_insert_Some in Hj as [(_ & E & _)|[_ ?]]; [done|]. by apply D.
  - intros j x Hx. apply lookup_delete_Some in Hx as [_ Hx]. by apply (di_slot _ _ _ _ D).
  - intros j x Hx. pose proof Hx as Hx'. apply lookup_delete_Some in Hx' as [_ Hx'].
    destruct (di_payload _ _ _ _ D _ _ Hx') as (? & k & Hp & ?). split; [done|].
    exists k. split; [by eapply Hk|done].
  - intros j x Hx Hmode y Hy. pose proof Hx as Hx'. apply lookup_delete_Some in Hx' as [_ Hx'].
    destruct (di_payload _ _ _ _ D _ _ Hx') as (? & k & Hp & ?).
    destruct (Hk j x k Hx Hp) as [_ Hb]. rewrite Hb by lia. by eapply (di_filled _ _ _ _ D).
  - intros j j' x y Hx Hy. apply lookup_delete_Some in Hx as [_ Hx], Hy as [_ Hy]. by apply (di_inj _ _ _ _ D).
Qed.

Lemma dinv_blocks (d : drv) st L A i v :
  DInv d st L A -> st !! i = Some SFreed -> DInv (with_blocks (<[i := v]> (blocks d)) d) st L A.
Proof.
  intros D Hi. split; cbn [with_blocks alloc blocks block_sizes block_rand_base random_data]; try apply D.
  - rewrite length_insert. apply D.
  - intros j Hj. rewrite list_lookup_insert_ne by congruence. by apply D.
  - intros j x Hx. rewrite list_lookup_insert_ne; [by apply D|]. intros <-.
    assert (E : st !! i = Some SLive) by (apply (di_status _ _ _ _ D); eauto). congruence.
Qed.

Lemma dinv_sizes (d : drv) st L A i v :
  DInv d st L A -> st !! i = Some SFreed -> DInv (with_sizes (<[i := v]> (block_sizes d)) d) st L A.
Proof.
  intros D Hi. split; cbn [with_sizes alloc blocks block_sizes block_rand_base random_data]; try apply D.
  - rewrite length_insert. apply D.
  - intros j Hj. rewrite list_lookup_insert_ne by congruence. by apply D.
  - intros j x Hx. rewrite list_lookup_insert_ne; [by apply D|]. intros <-.
    assert (E : st !! i = Some SLive) by (apply (di_status _ _ _ _ D); eauto). congruence.
Qed.

Lemma dinv_ranges (d : drv) st L A rs : DInv d st L A -> DInv (with_ranges rs d) st L A.
Proof. intros D. split; cbn [with_ranges alloc blocks block_sizes block_rand_base random_data]; apply D. Qed.
(** ** A new live block number *)

Section Install.
Context {d : drv} {st L A} (D : DInv d st L A) (i : nat) (p n k : Z).
Hypothesis Hi : st !! i = Some SFreed.
Hypothesis Hb : blocks d !! i = Some p.
Hypothesis Hs : block_sizes d !! i = Some n.
Hypothesis Hn : 0 < n < 2 ^ 31.
Hypothesis Hp : A !! p = Some k.
Hypothesis Hk : n <= k.
Hypothesis Hfresh : forall j x, L !! j = Some x -> sp x <> p.

Lemma install_none : L !! i = None.
Proof.
  destruct (L !! i) as [x|] eqn:E; [|done].
  assert (E' : st !! i = Some SLive) by (apply (di_status _ _ _ _ D); eauto). congruence.
Qed.

Lemma dinv_install (d' : drv) b :
  blocks d' = blocks d -> block_sizes d' = block_sizes d -> random_data d' = random_data d ->
  length (block_rand_base d') = length (block_rand_base d) ->
  (mode <> DBG_NONE -> block_rand_base d' = <[i := b]> (block_rand_base d) /\ 0 <= b < 2 ^ 31 /\
                       filled (random_data d) (ramof d') (Slot p n b)) ->
  live (alloc d') A ->
  (forall a, a < p \/ p + k <= a -> byte_at (ramof d') a = byte_at (ramof d) a) ->
  DInv d' (<[i := SLive]> st) (<[i := Slot p n b]> L) A.
Proof.
  intros Eb Es Ed Er Hmode HL Hout. pose proof (lookup_lt_Some _ _ _ Hi) as Hlt.
  split; rewrite ?Eb, ?Es, ?Ed, ?Er, ?length_insert; try apply D; try done.
  - intros j. destruct (decide (i = j)) as [->|Hij].
    + rewrite lookup_insert_eq, list_lookup_insert_eq by done. split; eauto.
    + rewrite lookup_insert_ne, list_lookup_insert_ne by done. apply D.
  - intros j Hj. apply list_lookup_insert_Some in Hj as [(_ & E & _)|[_ ?]]; [done|]. by apply D.
  - intros j x Hx. apply lookup_insert_Some in Hx as [[<- <-]|[Hij Hx]].
    + split; [done|]. split; [done|]. intros Hm. destruct (Hmode Hm) as (-> & ? & _).
      split; [|done]. apply list_lookup_insert_eq. by rewrite (di_len_r _ _ _ _ D).
    + destruct (di_slot _ _ _ _ D _ _ Hx) as (? & ? & Hr). split; [done|]. split; [done|].
      intros Hm. destruct (Hmode Hm) as (-> & _). rewrite list_lookup_insert_ne by done. auto.
  - intros j x Hx. apply lookup_insert_Some in Hx as [[<- <-]|[Hij Hx]]; [eauto|by apply (di_payload _ _ _ _ D _ _ Hx)].
  - intros j x Hx Hm. apply lookup_insert_Some in Hx as [[<- <-]|[Hij Hx]]; [by apply Hmode|].
    destruct (di_payload _ _ _ _ D _ _ Hx) as (? & kx & Hpx & ?). intros y Hy.
    rewrite Hout; [by eapply (di_filled _ _ _ _ D)|].
    pose proof (Hfresh _ _ Hx). pose proof (live_disjoint _ _ _ _ _ _ HL Hpx Hp). lia.
  - intros j j' x y Hx Hy Heq. apply lookup_insert_Some in Hx as [[<- <-]|[Hij Hx]];
      apply lookup_insert_Some in Hy as [[<- <-]|[Hij' Hy]]; try done.
    + by destruct (Hfresh _ _ Hy).
    + by destruct (Hfresh _ _ Hx).
    + by eapply (di_inj _ _ _ _ D).
Qed.

Lemma randomize_ok :
  exists d' b, randomize_block random mode (Z.of_nat i) d = Ok (tt, d') /\
    DInv d' (<[i := SLive]> st) (<[i := Slot p n b]> L) A /\
    ranges d' = ranges d /\ errors d' = errors d.
Proof.
  pose proof (lookup_lt_Some _ _ _ Hi) as Hlt. unfold randomize_block. case_bool_decide as Hm.
  { exists d, 0. split; [done|]. split; [|done]. apply dinv_install; try done. apply D. }
  set (b := random (nrandom d)). pose proof (random_range (nrandom d)) as Hbr. fold b in Hbr.
  unfold bind at 1, c_random. fold b. rewrite wrapS_small by lia.
  unfold set_rand_base. rewrite array_set_ok by (cbn; by rewrite (di_len_r _ _ _ _ D)).
  cbn [alloc blocks block_sizes block_rand_base random_data ranges errors nrandom].
  set (d1 := mkDrv (alloc d) _ _ _ _ _ _ _).
  erewrite (array_get_ok blocks) by done. erewrite (array_get_ok block_sizes) by done.
  erewrite (array_get_ok block_rand_base) by (apply list_lookup_insert_eq; by rewrite (di_len_r _ _ _ _ D)).
  destruct (randomize_loop_ok d1 A (Slot p n b) k (Z.to_nat n) 0) as (m' & E & Hout & Hin);
    try done; cbn [sp sn sb] in *; try lia; try apply D.
  exists (with_ram m' d1), b. split; [done|]. split; [|done].
  apply dinv_install; try done.
  - cbn. by rewrite length_insert.
  - intros _. split; [done|]. split; [done|]. intros j Hj. rewrite alloc_with_ram. by apply Hin.
  - apply (live_write (alloc d1) A p k); [apply D|done|]. intros a Ha. apply Hout. lia.
  - intros a Ha. rewrite alloc_with_ram. apply Hout. lia.
Qed.

(** The range list gets a record, unless ranges are not recorded. *)
Lemma add_range_ok (d1 : drv) ignore :
  alloc d1 = alloc d -> RInv (ranges d1) L ->
  exists rs', add_range mode ignore p n (Z.of_nat i) d1 = Ok (true, with_ranges rs' d1) /\
    forall b, RInv rs' (<[i := Slot p n b]> L).
Proof.
  clear Hb Hs. intros Ea [Hnd HR]. pose proof install_none as HNone. pose proof (di_live _ _ _ _ D) as HL.
  destruct (live_payload _ _ _ _ HL Hp) as (?&Hal&?&?&[??]&?&_).
  assert (HR' : forall b, RInv (ranges d1) (<[i := Slot p n b]> L)).
  { intros b. split; [done|]. intros r Hr. destruct (HR r Hr) as (j & x & Hx & ->).
    exists j, x. split; [|done]. rewrite lookup_insert_ne; [done|]. intros ->. congruence. }
  unfold add_range. rewrite wrapS_small, (wrapU_small 64 (p + n - 1)) by lia. cbv zeta.
  replace (0 <? n) with true by lia. unfold c_assert. rewrite bind_ret.
  assert (IS_ALIGNED p = true) as ->.
  { unfold IS_ALIGNED, DRIVER_ALIGNMENT. rewrite wrapU_small by lia. lia. }
  cbn [negb]. rewrite !bind_gets. unfold mem_heap_lo, mem_heap_hi. rewrite Ea.
  rewrite wrapU_small by lia.
  replace (p <? _) with false by lia. replace (_ <? p) with false by lia.
  replace (p + n - 1 <? _) with false by lia. replace (_ <? p + n - 1) with false by lia. cbn [orb].
  destruct (ignore || _) eqn:Emode.
  { exists (ranges d1). split; [by destruct d1|done]. }
  rewrite bind_gets. destruct (existsb _ _) eqn:Eov.
  { exfalso. apply existsb_exists in Eov as (r & Hr%list_elem_of_In & Ho).
    destruct (HR r Hr) as (j & x & Hx & ->). unfold overlaps in Ho; cbn [lo hi] in Ho.
    destruct (di_payload _ _ _ _ D _ _ Hx) as (? & kx & Hpx & ?).
    pose proof (Hfresh _ _ Hx). pose proof (live_disjoint _ _ _ _ _ _ HL Hpx Hp). lia. }
  exists (mkRange p (p + n - 1) (Z.of_nat i) :: ranges d1). split; [done|]. intros b. split.
  - cbn. apply NoDup_cons. split; [|done]. intros Hlo. apply list_elem_of_fmap in Hlo as (r & Er & Hr).
    destruct (HR r Hr) as (j & x & Hx & ->). cbn in Er. by destruct (Hfresh _ _ Hx).
  - intros r [->|Hr]%elem_of_cons; [|by apply HR'].
    exists i, (Slot p n b). by rewrite lookup_insert_eq.
Qed.
End Install.

(** ** The range list *)

Lemma remove_first_spec l rs r :
  NoDup (lo <$> rs) -> r ∈ remove_first_range l rs -> r ∈ rs /\ lo r <> l.
Proof.
  induction rs as [|q rs IH]; cbn [remove_first_range fmap list_fmap]; [set_solver|].
  intros [Hq Hn]%NoDup_cons. destruct (Z.eqb_spec (lo q) l) as [<-|Hne]; intros Hr.
  - split; [set_solver|]. intros E. apply Hq. apply list_elem_of_fmap. by exists r.
  - apply elem_of_cons in Hr as [->|Hr]; [set_solver|]. destruct (IH Hn Hr). set_solver.
Qed.

Lemma remove_first_nodup l rs : NoDup (lo <$> rs) -> NoDup (lo <$> remove_first_range l rs).
Proof.
  induction rs as [|q rs IH]; cbn [remove_first_range fmap list_fmap]; [done|].
  intros Hnd. pose proof Hnd as [Hq Hn]%NoDup_cons. destruct (lo q =? l); [done|].
  cbn. apply NoDup_cons. split; [|by apply IH]. intros Hin.
  apply list_elem_of_fmap in Hin as (r & Er & Hr). apply Hq. apply list_elem_of_fmap.
  exists r. split; [done|]. by destruct (remove_first_spec l rs r Hn Hr).
Qed.

Lemma rinv_remove rs L i x :
  RInv rs L -> L !! i = Some x -> RInv (remove_first_range (sp x) rs) (delete i L).
Proof.
  intros [Hn HR] Hx. split; [by apply remove_first_nodup|]. intros r Hr.
  destruct (remove_first_spec _ _ _ Hn Hr) as [Hr' Hlo]. destruct (HR r Hr') as (j & y & Hy & ->).
  exists j, y. split; [|done]. rewrite lookup_delete_ne; [done|]. intros ->. cbn in Hlo. congruence.
Qed.

Lemma rinv_remove_null (d : drv) st L A rs :
  DInv d st L A -> RInv rs L -> remove_first_range NULL rs = rs.
Proof.
  intros D [_ HR]. induction rs as [|r rs IH]; [done|]. cbn [remove_first_range].
  destruct (HR r) as (j & y & Hy & ->); [set_solver|]. cbn [lo].
  destruct (di_payload _ _ _ _ D _ _ Hy) as (_ & k & Hp & _).
  destruct (live_payload _ _ _ _ (di_live _ _ _ _ D) Hp) as (? & _).
  replace (sp y =? NULL) with false by (unfold NULL; lia). f_equal. apply IH. set_solver.
Qed.

(** ** The requests *)

Definition op_ok (d : drv) (st' : list status) (r : res (bool * drv)) : Prop :=
  exists d' L' A', r = Ok (true, d') /\ DInv d' st' L' A' /\ RInv (ranges d') L' /\ errors d' = errors d.

Definition exhausted (d : drv) (n : Z) : Prop := exists s', al_malloc n (alloc d) = Ok (NULL, s').

Lemma bind_call {B X} (m : M S X) (k : X -> M drv B) d a s' :
  m (alloc d) = Ok (a, s') -> bind (call m) k d = k a (with_alloc s' d).
Proof. intros E. unfold bind, call. by rewrite E. Qed.

(** From the answer of the allocator to the end of a malloc() request, with
    [mid] what a realloc() request does in between. *)
Lemma finish_ok (d : drv) st L A i p n k ignore (mid : M drv unit) :
  DInv d st L A -> RInv (ranges d) L -> st !! i = Some SFreed ->
  0 < n < 2 ^ 31 -> A !! p = Some k -> n <= k -> (forall j x, L !! j = Some x -> sp x <> p) ->
  (forall d0, blocks d0 = <[i := p]> (blocks d) -> block_sizes d0 = block_sizes d ->
     block_rand_base d0 = block_rand_base d -> random_data d0 = random_data d -> alloc d0 = alloc d ->
     exists v, mid d0 = Ok (tt, with_sizes (<[i := v]> (block_sizes d0)) d0)) ->
  op_ok d (<[i := SLive]> st)
    ((ok <- add_range mode ignore p n (Z.of_nat i);;
      if negb ok then ret false
      else
        array_set blocks with_blocks (Z.of_nat i) p ;;;
        mid ;;;
        array_set block_sizes with_sizes (Z.of_nat i) n ;;;
        randomize_block random mode (Z.of_nat i) ;;;
        ret true) d).
Proof.
  intros D HR Hi Hn Hp Hk Hfresh Hmid. pose proof (lookup_lt_Some _ _ _ Hi) as Hlt.
  destruct (add_range_ok D i p n k Hi Hn Hp Hk Hfresh d ignore eq_refl HR) as (rs' & E & HR').
  rewrite (bind_ok _ _ _ _ _ E). cbn [negb].
  rewrite array_set_ok by (cbn; by rewrite (di_len_b _ _ _ _ D)).
  destruct (Hmid (with_blocks (<[i:=p]> (blocks (with_ranges rs' d))) (with_ranges rs' d))) as [v Ev]; try done.
  rewrite (bind_ok _ _ _ _ _ Ev). cbn [block_sizes with_blocks with_ranges].
  rewrite array_set_ok by (cbn; rewrite length_insert; by rewrite (di_len_s _ _ _ _ D)).
  cbn [block_sizes with_sizes]. rewrite list_insert_insert_eq.
  set (d1 := with_sizes _ _).
  assert (D1 : DInv d1 st L A).
  { apply (dinv_sizes (with_blocks (<[i:=p]> (blocks (with_ranges rs' d))) (with_ranges rs' d))); [|done].
    apply (dinv_blocks (with_ranges rs' d)); [|done]. by apply dinv_ranges. }
  destruct (randomize_ok D1 i p n k) as (d' & b & E' & D' & Er & Ee); try done.
  { apply list_lookup_insert_eq. cbn. by rewrite (di_len_b _ _ _ _ D). }
  { apply list_lookup_insert_eq. cbn. by rewrite (di_len_s _ _ _ _ D). }
  rewrite (bind_ok _ _ _ _ _ E'). exists d', (<[i:=Slot p n b]> L), A.
  split; [done|]. split; [done|]. split; [rewrite Er; apply HR'|by rewrite Ee].
Qed.
Lemma with_ranges_same (d : drv) : with_ranges (ranges d) d = d.
Proof. by destruct d. Qed.

Lemma request_of_size n : 0 < n < 2 ^ 31 -> request_ok n.
Proof. unfold request_ok. lia. Qed.

Lemma not_live (d : drv) st L A i s : DInv d st L A -> st !! i = Some s -> s <> SLive -> L !! i = None.
Proof.
  intros D Hi Hs. destruct (L !! i) eqn:E; [|done].
  assert (E' : st !! i = Some SLive) by (apply (di_status _ _ _ _ D); eauto). congruence.
Qed.

(** malloc() into a block number that is not live. *)
Lemma dinv_malloc (d : drv) st L A i s n p k s' :
  DInv d st L A -> st !! i = Some s -> s <> SLive -> A !! p = None ->
  live s' (<[p := k]> A) -> same_payloads A (ramof d) (mram (get_ml s')) ->
  al_malloc n (alloc d) = Ok (p, s') ->
  DInv (with_alloc s' d) (<[i := SFreed]> st) L (<[p := k]> A) /\
  (forall j x, L !! j = Some x -> sp x <> p).
Proof.
  intros D Hi Hs HNone HL Hsame _. pose proof (not_live _ _ _ _ _ _ D Hi Hs) as HLi.
  assert (Hne : forall j x, L !! j = Some x -> sp x <> p).
  { intros j x Hx E. destruct (di_payload _ _ _ _ D _ _ Hx) as (_ & kx & Hpx & _). congruence. }
  split; [|done]. rewrite <- (delete_id L i HLi) at 1. eapply dinv_step; [done..|].
  intros j x kx Hx Hpx. rewrite delete_id in Hx by done. split.
  - rewrite lookup_insert_ne; [done|]. by apply not_eq_sym, (Hne j).
  - intros a Ha. by apply (Hsame _ _ Hpx).
Qed.

Lemma valid_alloc_ok (d : drv) st L A i s n t :
  DInv d st L A -> RInv (ranges d) L -> st !! i = Some s -> s <> SLive -> 0 < n < 2 ^ 31 ->
  exhausted d n \/ op_ok d (<[i := SLive]> st) (valid_alloc random mode t (Z.of_nat i) n d).
Proof.
  intros D HR Hi Hs Hn.
  destruct (malloc_law (alloc d) A n (di_live _ _ _ _ D) (request_of_size n Hn))
    as (p & s' & E & [(-> & _ & _)|(Hp & k & Hk & HNone & HL & Hsame)]); [by left; exists s'|right].
  destruct (dinv_malloc _ _ _ _ _ _ n _ _ _ D Hi Hs HNone HL Hsame E) as [D' Hfresh].
  unfold valid_alloc. rewrite (bind_call _ _ _ _ _ E). replace (p =? NULL) with false by lia.
  pose proof (lookup_lt_Some _ _ _ Hi) as Hlt.
  destruct (finish_ok (with_alloc s' d) (<[i := SFreed]> st) L (<[p := k]> A) i p n k (ignore_ranges t) (ret tt))
    as (d' & L' & A' & E' & D2 & R2 & Ee); try done.
  - by apply list_lookup_insert_eq.
  - apply lookup_insert_eq.
  - intros d0 _ Es _ _ _.
    destruct (lookup_lt_is_Some_2 (block_sizes d0) i) as [v Hv].
    { rewrite Es. cbn. by rewrite (di_len_s _ _ _ _ D). }
    exists v. rewrite list_insert_id by done. by destruct d0.
  - rewrite list_insert_insert_eq in D2. exists d', L', A'. split; [exact E'|done].
Qed.

Lemma valid_free_ok (d : drv) st L A i s :
  DInv d st L A -> RInv (ranges d) L -> st !! i = Some s -> s <> SFreed ->
  op_ok d (match s with SLive => <[i := SFreed]> st | _ => st end) (valid_free mode (Z.of_nat i) d).
Proof.
  intros D HR Hi Hs. unfold valid_free.
  assert ((Z.of_nat i =? -1) = false) as -> by (apply Z.eqb_neq; lia). destruct s; [| |done].
  - rewrite (bind_ok _ _ _ _ _ (check_index_null _ _ _ _ _ D Hi)).
    destruct (di_null _ _ _ _ D _ Hi) as [Hb _]. rewrite bind_bind. erewrite array_get_ok by done.
    unfold remove_range, modify, bind, ret, call. cbn [alloc with_ranges].
    rewrite (rinv_remove_null _ _ _ _ _ D HR), with_ranges_same, free_null_law.
    exists (with_alloc (alloc d) d), L, A. split; [done|]. by destruct d.
  - assert (is_Some (L !! i)) as [x Hx] by (by apply (di_status _ _ _ _ D)).
    rewrite (bind_ok _ _ _ _ _ (check_index_live _ _ _ _ _ _ D Hx)).
    destruct (di_slot _ _ _ _ D _ _ Hx) as (Hb & _).
    destruct (di_payload _ _ _ _ D _ _ Hx) as (_ & k & Hp & _).
    rewrite bind_bind. erewrite array_get_ok by done.
    destruct (free_law _ _ _ _ (di_live _ _ _ _ D) Hp) as (s' & E & HL & Hsame).
    unfold remove_range, modify, bind, ret, call. cbn [alloc with_ranges]. rewrite E.
    eexists _, (delete i L), (delete (sp x) A). split; [reflexivity|]. split; [|split; [|done]].
    + apply (dinv_step (with_ranges (remove_first_range (sp x) (ranges d)) d) s' st L A);
        [by apply dinv_ranges|done|].
      intros j y ky Hy Hpy. apply lookup_delete_Some in Hy as [Hij Hy].
      assert (Hne : sp x <> sp y) by (intros Heq; apply Hij; by eapply (di_inj _ _ _ _ D)).
      split; [by rewrite lookup_delete_ne|]. intros a Ha. apply (Hsame (sp y) ky); [|done].
      by rewrite lookup_delete_ne.
    + cbn. by apply rinv_remove.
Qed.
(** The check in the middle of a realloc() request. *)
Lemma check_copied_ok (d : drv) A i q old n b k :
  live (alloc d) A -> blocks d !! i = Some q -> block_sizes d !! i = Some old ->
  (i < length (block_rand_base d))%nat -> 0 <= n < 2 ^ 31 -> 0 <= old ->
  (0 < Z.min n old -> A !! q = Some k /\ Z.min n old <= k) ->
  (mode <> DBG_NONE -> 0 < Z.min n old -> block_rand_base d !! i = Some b /\ 0 <= b < 2 ^ 31 /\
     filled (random_data d) (ramof d) (Slot q (Z.min n old) b)) ->
  exists v, check_copied mode (Z.of_nat i) n d = Ok (tt, with_sizes (<[i := v]> (block_sizes d)) d).
Proof.
  intros HL Hb Hs Hlt Hn Hold Hk Hm. unfold check_copied. erewrite array_get_ok by done.
  pose proof (lookup_lt_Some _ _ _ Hs) as Hls.
  destruct (Z.ltb_spec n old) as [Hlt'|Hge].
  - rewrite array_set_ok by done. exists n.
    eapply (check_index_raw (with_sizes (<[i := n]> (block_sizes d)) d) A i (Slot q n b) k);
      cbn [sp sn sb with_sizes alloc blocks block_sizes block_rand_base random_data]; try done; try lia.
    + by apply list_lookup_insert_eq.
    + intros ?. rewrite Z.min_l in Hk by lia. by apply Hk.
    + intros Hmode ?. rewrite Z.min_l in Hm by lia. by apply Hm.
  - rewrite bind_ret. exists old. rewrite list_insert_id by done.
    replace (with_sizes (block_sizes d) d) with d by (by destruct d).
    eapply (check_index_raw d A i (Slot q old b) k); cbn [sp sn sb]; try done; try lia.
    + intros ?. rewrite Z.min_r in Hk by lia. by apply Hk.
    + intros Hmode ?. rewrite Z.min_r in Hm by lia. by apply Hm.
Qed.

Lemma realloc_null_ok (d : drv) st L A i n t :
  DInv d st L A -> RInv (ranges d) L -> st !! i = Some SNull -> 0 < n < 2 ^ 31 ->
  exhausted d n \/ op_ok d (<[i := SLive]> st) (valid_realloc random mode t (Z.of_nat i) n d).
Proof.
  intros D HR Hi Hn. destruct (di_null _ _ _ _ D _ Hi) as [Hb Hs].
  pose proof (lookup_lt_Some _ _ _ Hi) as Hlt.
  destruct (malloc_law (alloc d) A n (di_live _ _ _ _ D) (request_of_size n Hn))
    as (p & s' & E & [(-> & _ & _)|(Hp & k & Hk & HNone & HL & Hsame)]); [by left; exists s'|right].
  destruct (dinv_malloc _ _ _ _ _ SNull n _ _ _ D Hi ltac:(done) HNone HL Hsame E) as [D' Hfresh].
  unfold valid_realloc. rewrite (bind_ok _ _ _ _ _ (check_index_null _ _ _ _ _ D Hi)).
  erewrite array_get_ok by done. rewrite <- realloc_null_law in E. rewrite (bind_call _ _ _ _ _ E).
  replace (p =? NULL) with false by lia. replace (n =? 0) with false by lia.
  replace (0 <? n) with true by lia. cbn [andb negb].
  unfold remove_range, modify. unfold bind at 1. cbn [ranges with_alloc].
  rewrite (rinv_remove_null _ _ _ _ _ D HR). change (ranges d) with (ranges (with_alloc s' d)) at 1.
  rewrite with_ranges_same.
  destruct (finish_ok (with_alloc s' d) (<[i := SFreed]> st) L (<[p := k]> A) i p n k (ignore_ranges t)
              (check_copied mode (Z.of_nat i) n)) as (d' & L' & A' & E' & D2 & R2 & Ee); try done.
  - by apply list_lookup_insert_eq.
  - apply lookup_insert_eq.
  - cbn [with_alloc alloc blocks block_sizes block_rand_base random_data].
    intros d0 Eb Es Er _ Ea. eapply (check_copied_ok d0 (<[p := k]> A) i p 0 n 0 k).
    + by rewrite Ea.
    + rewrite Eb. apply list_lookup_insert_eq. by rewrite (di_len_b _ _ _ _ D).
    + by rewrite Es.
    + rewrite Er. by rewrite (di_len_r _ _ _ _ D).
    + lia.
    + lia.
    + lia.
    + lia.
  - rewrite list_insert_insert_eq in D2. exists d', L', A'. split; [exact E'|done].
Qed.

Lemma realloc_live_ok (d : drv) st L A i n t :
  DInv d st L A -> RInv (ranges d) L -> st !! i = Some SLive -> 0 < n < 2 ^ 31 ->
  exhausted d n \/ op_ok d (<[i := SLive]> st) (valid_realloc random mode t (Z.of_nat i) n d).
Proof.
  intros D HR Hi Hn. pose proof (lookup_lt_Some _ _ _ Hi) as Hlt.
  assert (is_Some (L !! i)) as [x Hx] by (by apply (di_status _ _ _ _ D)).
  destruct (di_slot _ _ _ _ D _ _ Hx) as (Hb & Hs & Hr).
  destruct (di_payload _ _ _ _ D _ _ Hx) as (Hsn & kx & Hpx & Hkx).
  destruct (malloc_law (alloc d) A n (di_live _ _ _ _ D) (request_of_size n Hn))
    as (q0 & s0 & E0 & [(-> & _ & _)|(Hq0 & _)]); [by left; exists s0|right].
  destruct (realloc_law _ _ _ _ _ _ _ (di_live _ _ _ _ D) Hpx (request_of_size n Hn) E0 Hq0)
    as (q & s' & E & Hq & k & Hk & HNone & HL & Hcopy & Hsame).
  assert (Hne : forall j y, delete i L !! j = Some y -> sp x <> sp y).
  { intros j y Hy Heq. apply lookup_delete_Some in Hy as [Hij Hy]. apply Hij. by eapply (di_inj _ _ _ _ D). }
  assert (Hfresh : forall j y, delete i L !! j = Some y -> sp y <> q).
  { intros j y Hy Heq. pose proof (Hne _ _ Hy) as Hne'. apply lookup_delete_Some in Hy as [_ Hy].
    destruct (di_payload _ _ _ _ D _ _ Hy) as (_ & ky & Hpy & _).
    rewrite <- Heq, lookup_delete_ne in HNone by done. congruence. }
  set (d1 := with_ranges (remove_first_range (sp x) (ranges d)) d).
  assert (D1 : DInv (with_alloc s' d1) (<[i := SFreed]> st) (delete i L) (<[q := k]> (delete (sp x) A))).
  { eapply dinv_step; [by apply dinv_ranges|done|]. intros j y ky Hy Hpy.
    pose proof (Hne _ _ Hy). pose proof (Hfresh _ _ Hy). split.
    - by rewrite lookup_insert_ne, lookup_delete_ne.
    - intros a Ha. apply (Hsame (sp y) ky); [by rewrite lookup_delete_ne|done]. }
  unfold valid_realloc. rewrite (bind_ok _ _ _ _ _ (check_index_live _ _ _ _ _ _ D Hx)).
  erewrite array_get_ok by done. rewrite (bind_call _ _ _ _ _ E).
  replace (q =? NULL) with false by lia. replace (n =? 0) with false by lia.
  replace (0 <? n) with true by lia. cbn [andb negb].
  unfold remove_range, modify. unfold bind at 1. cbn [ranges with_alloc].
  change (with_ranges _ (with_alloc s' d)) with (with_alloc s' d1).
  destruct (finish_ok (with_alloc s' d1) (<[i := SFreed]> st) (delete i L) (<[q := k]> (delete (sp x) A)) i q n k
              (ignore_ranges t) (check_copied mode (Z.of_nat i) n)) as (d' & L' & A' & E' & D2 & R2 & Ee); try done.
  - cbn. by apply rinv_remove.
  - by apply list_lookup_insert_eq.
  - apply lookup_insert_eq.
  - cbn [with_alloc alloc blocks block_sizes block_rand_base random_data d1 with_ranges].
    intros d0 Eb Es Er Ed Ea.
    eapply (check_copied_ok d0 (<[q := k]> (delete (sp x) A)) i q (sn x) n (sb x) k).
    + by rewrite Ea.
    + rewrite Eb. apply list_lookup_insert_eq. by rewrite (di_len_b _ _ _ _ D).
    + by rewrite Es.
    + rewrite Er. by rewrite (di_len_r _ _ _ _ D).
    + lia.
    + lia.
    + intros _. rewrite lookup_insert_eq. split; [done|lia].
    + intros Hmode _. rewrite Er, Ea, Ed. destruct (Hr Hmode) as [Hr1 Hr2]. split; [done|]. split; [done|].
      intros j Hj. cbn [sp sn sb] in *. rewrite Hcopy by lia. apply (di_filled _ _ _ _ D _ _ Hx Hmode). lia.
  - rewrite list_insert_insert_eq in D2. exists d', L', A'. split; [exact E'|done].
Qed.
(** Filling an empty payload only draws a random number. *)
Lemma randomize_zero (d : drv) st L A i p :
  DInv d st L A -> st !! i = Some SFreed -> blocks d !! i = Some p -> block_sizes d !! i = Some 0 ->
  exists d', randomize_block random mode (Z.of_nat i) d = Ok (tt, d') /\ DInv d' st L A /\
    blocks d' = blocks d /\ block_sizes d' = block_sizes d /\ ranges d' = ranges d /\ errors d' = errors d.
Proof.
  intros D Hi Hb Hs. unfold randomize_block. case_bool_decide as Hm; [by exists d|].
  pose proof (lookup_lt_Some _ _ _ Hi) as Hlt.
  unfold bind at 1, c_random, set_rand_base. rewrite array_set_ok by (cbn; by rewrite (di_len_r _ _ _ _ D)).
  cbn [alloc blocks block_sizes block_rand_base random_data ranges errors nrandom].
  set (d1 := mkDrv _ _ _ _ _ _ _ _). erewrite (array_get_ok blocks) by done.
  erewrite (array_get_ok block_sizes) by done.
  erewrite (array_get_ok block_rand_base) by (apply list_lookup_insert_eq; by rewrite (di_len_r _ _ _ _ D)).
  exists d1. split; [done|]. split; [|done].
  split; cbn [alloc blocks block_sizes block_rand_base random_data d1]; try apply D.
  - rewrite length_insert. apply D.
  - intros j x Hx. destruct (di_slot _ _ _ _ D _ _ Hx) as (? & ? & Hr). split; [done|]. split; [done|].
    intros Hmode. rewrite list_lookup_insert_ne; [auto|]. intros <-.
    assert (E' : st !! i = Some SLive) by (apply (di_status _ _ _ _ D); eauto). congruence.
Qed.

Lemma dinv_to_null (d : drv) st L A i :
  DInv d st L A -> st !! i = Some SFreed -> blocks d !! i = Some NULL -> block_sizes d !! i = Some 0 ->
  DInv d (<[i := SNull]> st) L A.
Proof.
  intros D Hi Hb Hs. pose proof (lookup_lt_Some _ _ _ Hi) as Hlt.
  split; rewrite ?length_insert; try apply D.
  - intros j. rewrite <- (di_status _ _ _ _ D j). destruct (decide (i = j)) as [->|Hij].
    + rewrite list_lookup_insert_eq, Hi by done. done.
    + by rewrite list_lookup_insert_ne.
  - intros j Hj. apply list_lookup_insert_Some in Hj as [(-> & _ & _)|[_ Hj]]; [done|]. by apply D.
Qed.

Lemma realloc_zero_ok (d : drv) st L A i t :
  DInv d st L A -> RInv (ranges d) L -> st !! i = Some SLive ->
  op_ok d (<[i := SNull]> st) (valid_realloc random mode t (Z.of_nat i) 0 d).
Proof.
  intros D HR Hi. pose proof (lookup_lt_Some _ _ _ Hi) as Hlt.
  assert (is_Some (L !! i)) as [x Hx] by (by apply (di_status _ _ _ _ D)).
  destruct (di_slot _ _ _ _ D _ _ Hx) as (Hb & Hs & _).
  destruct (di_payload _ _ _ _ D _ _ Hx) as (Hsn & kx & Hpx & Hkx).
  destruct (free_law _ _ _ _ (di_live _ _ _ _ D) Hpx) as (s' & E & HL & Hsame).
  assert (E1 : al_realloc (sp x) 0 (alloc d) = Ok (NULL, s')).
  { rewrite (realloc_zero_law _ _ _ _ (di_live _ _ _ _ D) Hpx). by rewrite (bind_ok _ _ _ _ _ E). }
  set (d1 := with_ranges (remove_first_range (sp x) (ranges d)) d).
  assert (D1 : DInv (with_alloc s' d1) (<[i := SFreed]> st) (delete i L) (delete (sp x) A)).
  { eapply dinv_step; [by apply dinv_ranges|done|]. intros j y ky Hy Hpy.
    apply lookup_delete_Some in Hy as [Hij Hy].
    assert (Hne : sp x <> sp y) by (intros Heq; apply Hij; by eapply (di_inj _ _ _ _ D)).
    split; [by rewrite lookup_delete_ne|]. intros a Ha. apply (Hsame (sp y) ky); [|done].
    by rewrite lookup_delete_ne. }
  assert (Hi1 : <[i := SFreed]> st !! i = Some SFreed) by (by apply list_lookup_insert_eq).
  unfold valid_realloc. rewrite (bind_ok _ _ _ _ _ (check_index_live _ _ _ _ _ _ D Hx)).
  erewrite array_get_ok by done. rewrite (bind_call _ _ _ _ _ E1).
  change (NULL =? NULL) with true. change (0 =? 0) with true. change (0 <? 0) with false. cbn [andb negb].
  unfold remove_range, modify. unfold bind at 1. cbn [ranges with_alloc].
  change (with_ranges _ (with_alloc s' d)) with (with_alloc s' d1). rewrite bind_ret. cbn [negb].
  rewrite array_set_ok by (cbn; by rewrite (di_len_b _ _ _ _ D)).
  set (d2 := with_blocks _ _).
  assert (D2 : DInv d2 (<[i := SFreed]> st) (delete i L) (delete (sp x) A)) by (by apply dinv_blocks).
  assert (Hb2 : blocks d2 !! i = Some NULL).
  { apply list_lookup_insert_eq. cbn. by rewrite (di_len_b _ _ _ _ D). }
  destruct (check_copied_ok d2 (delete (sp x) A) i NULL (sn x) 0 0 0) as [v Ev]; try done; try lia.
  { cbn. by rewrite (di_len_r _ _ _ _ D). }
  rewrite (bind_ok _ _ _ _ _ Ev). rewrite array_set_ok
    by (cbn; rewrite length_insert; by rewrite (di_len_s _ _ _ _ D)).
  cbn [block_sizes with_sizes]. rewrite list_insert_insert_eq.
  change (with_sizes ?a (with_sizes _ d2)) with (with_sizes a d2).
  destruct (randomize_zero (with_sizes (<[i:=0]> (block_sizes d2)) d2) (<[i := SFreed]> st) (delete i L)
              (delete (sp x) A) i NULL) as (d3 & E3 & D3 & Eb3 & Es3 & Er3 & Ee3); try done.
  { by apply dinv_sizes. }
  { apply list_lookup_insert_eq. cbn. by rewrite (di_len_s _ _ _ _ D). }
  rewrite (bind_ok _ _ _ _ _ E3). exists d3, (delete i L), (delete (sp x) A).
  split; [done|]. split; [|split; [rewrite Er3; cbn; by apply rinv_remove|done]].
  rewrite <- (list_insert_insert_eq st i SNull SFreed). apply dinv_to_null; try done.
  - by rewrite Eb3.
  - rewrite Es3. apply list_lookup_insert_eq. cbn. by rewrite (di_len_s _ _ _ _ D).
Qed.

(** ** The whole trace *)

Lemma valid_op_ok (d : drv) st st' L A t o :
  DInv d st L A -> RInv (ranges d) L -> op_status st o = Some st' ->
  (type o <> FREE /\ exhausted d (size o)) \/ op_ok d st' (valid_op random mode t o d).
Proof.
  intros D HR Ho. unfold valid_op.
  assert (Hchk : forall k, ((if bool_decide (mode = DBG_EXPENSIVE) then rs <- gets ranges;; check_ranges mode rs else ret tt) ;;; k) d
            = k d :> res (bool * drv)).
  { intros k. case_bool_decide; [|done]. rewrite bind_bind, bind_gets.
    by rewrite (bind_ok _ _ _ _ _ (check_ranges_ok _ _ _ _ _ D HR)). }
  rewrite Hchk. clear Hchk. unfold op_status in Ho.
  destruct (Z.eqb_spec (index o) (-1)) as [E|_].
  { rewrite E. destruct (type o); try done. simplify_eq. right.
    unfold valid_free, check_index. change (-1 =? -1) with true. change (-1 <? 0) with true.
    unfold bind, ret, call. rewrite free_null_law. exists (with_alloc (alloc d) d), L, A.
    split; [done|]. by destruct d. }
  destruct (Z.ltb_spec (index o) 0) as [?|Hpos]; [done|].
  rewrite <- (Z2Nat.id (index o)) by done. set (i := Z.to_nat (index o)) in *.
  destruct (st !! i) as [s|] eqn:Hi; [|done]. destruct (type o) eqn:Et.
  - destruct s; [destruct (size_fits (size o)) eqn:Ef; [|done]|done|destruct (size_fits (size o)) eqn:Ef; [|done]].
    all: simplify_eq; apply size_fits_spec in Ef.
    all: destruct (valid_alloc_ok d st L A i _ (size o) t D HR Hi) as [?|?]; try done; auto.
  - destruct s; simplify_eq; right; by apply (valid_free_ok d _ L A i _ D HR Hi).
  - destruct s; [|destruct (Z.eqb_spec (size o) 0) as [E0|_]|done].
    + destruct (size_fits (size o)) eqn:Ef; [|done]. simplify_eq. apply size_fits_spec in Ef.
      destruct (realloc_null_ok d st L A i (size o) t D HR Hi Ef); auto.
    + simplify_eq. right. rewrite E0. by eapply realloc_zero_ok.
    + destruct (size_fits (size o)) eqn:Ef; [|done]. simplify_eq. apply size_fits_spec in Ef.
      destruct (realloc_live_ok d st L A i (size o) t D HR Hi Ef); auto.
Qed.

(** Either all requests are accepted, or all up to one for which the allocator
    has no memory. *)
Definition verdict (t : trace_t) (l : list traceop) (d : drv) : Prop :=
  (exists d', valid_ops random mode t l d = Ok (true, d') /\ errors d' = errors d) \/
  (exists l1 o l2 d1, l = l1 ++ o :: l2 /\ valid_ops random mode t l1 d = Ok (true, d1) /\
     errors d1 = errors d /\ type o <> FREE /\ exhausted d1 (size o)).

Lemma valid_ops_ok (d : drv) st L A t l :
  DInv d st L A -> RInv (ranges d) L -> wf_ops st l = true -> verdict t l d.
Proof.
  revert d st L A. induction l as [|o l IH]; intros d st L A D HR Hwf; [left; by exists d|].
  cbn [wf_ops] in Hwf. destruct (op_status st o) as [st'|] eqn:Ho; [|done].
  destruct (valid_op_ok d st st' L A t o D HR Ho) as [[Ht He]|(d1 & L1 & A1 & E & D1 & R1 & Ee)].
  - right. exists [], o, l, d. done.
  - destruct (IH d1 st' L1 A1 D1 R1 Hwf) as [(d' & E' & Ee')|(l1 & o' & l2 & d2 & -> & E' & Ee' & Ht & Hx)].
    + left. exists d'. cbn [valid_ops]. rewrite (bind_ok _ _ _ _ _ E). split; [done|congruence].
    + right. exists (o :: l1), o', l2, d2. split; [done|]. cbn [valid_ops].
      rewrite (bind_ok _ _ _ _ _ E). split; [done|]. split; [congruence|done].
Qed.

(** What the driver provides when it starts a trace: the region is mapped and
    aligned, the random data and the arrays are there, no range is recorded. *)
Definition ready (t : trace_t) (d : drv) : Prop :=
  is_mapped (get_ml (alloc d)) = true /\ 0 < heap (get_ml (alloc d)) /\
  heap (get_ml (alloc d)) mod 16 = 0 /\ heap (get_ml (alloc d)) + MAX_HEAP < 2 ^ 63 /\
  length (random_data d) = Z.to_nat RANDOM_DATA_LEN /\
  length (block_rand_base d) = num_ids t /\ ranges d = [].

Lemma start_ok (d : drv) t :
  ready t d ->
  exists d', (call (zoom (mem_reset_brk true)) ;;; reinit_trace t ;;; call al_init) d = Ok (true, d') /\
    DInv d' (replicate (num_ids t) SNull) ∅ ∅ /\ ranges d' = [] /\ errors d' = errors d.
Proof.
  intros (Hm & Hp & Ha & Hh & Hd & Hr & Hrs).
  set (s1 := set_ml (set_ram (mkRam 0xCC ∅) (set_brk (heap (get_ml (alloc d))) (get_ml (alloc d)))) (alloc d)).
  assert (E1 : zoom (mem_reset_brk true) (alloc d) = Ok (tt, s1)).
  { unfold zoom, mem_reset_brk, mapped, set_brk. cbn [is_mapped heap]. rewrite Hm. cbn [andb].
    rewrite (Z.leb_refl (heap (get_ml (alloc d)))), Z.leb_refl. cbn [andb]. unfold s1, set_brk, set_ram. cbn [is_mapped heap mem_brk]. by rewrite Hm. }
  assert (G1 : get_ml s1 = set_ram (mkRam 0xCC ∅) (set_brk (heap (get_ml (alloc d))) (get_ml (alloc d))))
    by (apply get_set_ml).
  destruct (init_law s1) as (s2 & E2 & HL); rewrite ?G1; try done.
  eexists. split; [|split; [|split]].
  - rewrite (bind_call _ _ _ _ _ E1). unfold reinit_trace, modify, bind, call.
    cbn [with_sizes with_blocks with_alloc alloc]. rewrite E2. reflexivity.
  - split; cbn [alloc with_alloc with_sizes with_blocks blocks block_sizes block_rand_base random_data];
      rewrite ?length_replicate; try done.
    + intros i. rewrite lookup_empty. split; [|by intros [? ?]].
      intros E%lookup_replicate. by destruct E.
    + intros i [_ Hi]%lookup_replicate. rewrite !lookup_replicate_2 by done. done.
  - done.
  - done.
Qed.

Lemma eval_mm_valid_accepts (d : drv) t :
  ready t d -> wf_trace t = true ->
  (exists d', eval_mm_valid random mode t d = Ok (true, d') /\ errors d' = errors d) \/
  (exists l1 o l2 d1, ops t = l1 ++ o :: l2 /\
     eval_mm_valid random mode (mkTrace (ignore_ranges t) (num_ids t) (weight t) l1) d = Ok (true, d1) /\
     errors d1 = errors d /\ type o <> FREE /\ exhausted d1 (size o)).
Proof.
  intros Hready Hwf. destruct (start_ok d t Hready) as (d0 & E0 & D0 & R0 & Ee0).
  assert (Hev : forall t', num_ids t' = num_ids t -> ignore_ranges t' = ignore_ranges t ->
            eval_mm_valid random mode t' d = valid_ops random mode t' (ops t') d0).
  { intros t' En Ei. unfold eval_mm_valid. revert E0. unfold reinit_trace. rewrite En. unfold bind.
    destruct (call (zoom (mem_reset_brk true)) d) as [[[] d1]|]; [|done].
    unfold modify. destruct (call al_init _) as [[b d2]|]; [|done]. by intros [= -> ->]. }
  assert (Hops : forall t' l d, ignore_ranges t' = ignore_ranges t ->
            valid_ops random mode t' l d = valid_ops random mode t l d).
  { intros t' l. induction l as [|o l IH]; intros d1 Ei; [done|]. cbn [valid_ops]. unfold bind.
    assert (valid_op random mode t' o d1 = valid_op random mode t o d1) as ->.
    { unfold valid_op, valid_alloc, valid_realloc. by rewrite Ei. }
    destruct (valid_op _ _ _ _ _) as [[[] ?]|]; auto. }
  destruct (valid_ops_ok d0 _ ∅ ∅ t (ops t) D0) as [(d' & E & Ee)|(l1 & o & l2 & d1 & El & E & Ee & Ht & Hx)].
  - rewrite R0. split; [constructor|]. set_solver.
  - done.
  - left. exists d'. rewrite Hev by done. split; [done|congruence].
  - right. exists l1, o, l2, d1. split; [done|]. rewrite Hev by done. cbn [ops]. rewrite Hops by done.
    split; [done|]. split; [congruence|done].
Qed.
End Accept.
