(* ===== verification/MdriverSpec.v ===== *)
(** * Properties of the malloc driver *)
From stdpp Require Import prelude gmap list.
From Stdlib Require Import ZArith Lia.
From S2P Require Import Prelude Memory Memlib Allocator MMExplicit MMExplicitSpec Mdriver MdriverProofs.
Open Scope Z_scope.
Open Scope c_scope.

(** ** eval_mm_valid() *)

(** C17: no false alarms.  For every allocator that meets the contract
    [Allocator], in every debug mode and with every random data, replaying a
    well-formed trace either accepts it without reporting an error, or accepts
    all requests up to one at which the allocator answers NULL to the size
    requested. *)
Theorem driver_accepts {S} `{Allocator S} (random : nat -> Z) mode (d : @drv S) t :
  (forall n, 0 <= random n < 2 ^ 31) ->
  ready t d -> wf_trace t = true ->
  (exists d', eval_mm_valid random mode t d = Ok (true, d') /\ errors d' = errors d) \/
  (exists l1 o l2 d1, ops t = l1 ++ o :: l2 /\
     eval_mm_valid random mode (mkTrace (ignore_ranges t) (num_ids t) (weight t) l1) d = Ok (true, d1) /\
     errors d1 = errors d /\ type o <> FREE /\ exhausted d1 (size o)).
Proof. intros Hr. by apply eval_mm_valid_accepts. Qed.

Definition demo_random (n : nat) : Z := Z.of_nat n mod 251.

Definition demo_trace : trace_t :=
  mkTrace false 3 1
    [mkOp ALLOC 0 100; mkOp ALLOC 1 40; mkOp REALLOC 0 200; mkOp FREE 1 0; mkOp ALLOC 2 16;
     mkOp REALLOC 0 0; mkOp FREE (-1) 0; mkOp REALLOC 1 8].

(** The trace is well formed except for its last request, a realloc() of a
    block number that was freed. *)
Definition demo_trace_ok : trace_t :=
  mkTrace false 3 1
    [mkOp ALLOC 0 100; mkOp ALLOC 1 40; mkOp REALLOC 0 200; mkOp FREE 1 0; mkOp ALLOC 2 16;
     mkOp REALLOC 0 0; mkOp FREE (-1) 0; mkOp REALLOC 0 8].

Definition demo_driver : @drv mm :=
  mkDrv demo_fresh [NULL; NULL; NULL] [0; 0; 0] [0; 0; 0] (replicate (Z.to_nat RANDOM_DATA_LEN) 7) [] 0 0.

Example demo_trace_rejected : wf_trace demo_trace = false.
Proof. reflexivity. Qed.

Lemma driver_accepts_witness :
  (exists d', eval_mm_valid demo_random DBG_EXPENSIVE demo_trace_ok demo_driver = Ok (true, d') /\
              errors d' = errors demo_driver) \/
  (exists l1 o l2 d1, ops demo_trace_ok = l1 ++ o :: l2 /\
     eval_mm_valid demo_random DBG_EXPENSIVE
       (mkTrace (ignore_ranges demo_trace_ok) (num_ids demo_trace_ok) (weight demo_trace_ok) l1) demo_driver
       = Ok (true, d1) /\
     errors d1 = errors demo_driver /\ type o <> FREE /\ exhausted d1 (size o)).
Proof.
  apply (driver_accepts demo_random DBG_EXPENSIVE demo_driver demo_trace_ok).
  - intros n. unfold demo_random. pose proof (Z.mod_pos_bound (Z.of_nat n) 251). lia.
  - split_and!; done.
  - reflexivity.
Defined.

(** ** add_range() *)

(** The exact acceptance condition of add_range() when ranges are checked.
    A payload is accepted if and only if it is aligned, lies inside the heap,
    and every recorded payload is either disjoint from it or strictly inside
    it: the overlap test compares only the two ends of the new payload. *)
Theorem add_range_exact {S} `{MemState S} mode (d : @drv S) l n i :
  mode <> DBG_NONE -> 0 < n < 2 ^ 31 -> 0 <= l < 2 ^ 63 ->
  (forall r, r ∈ ranges d -> lo r <= hi r) ->
  (exists b d', add_range mode false l n i d = Ok (b, d') /\
    (b = true <->
     l mod 16 = 0 /\
     (mem_heap_lo (get_ml (alloc d)) <= l /\ l + n - 1 <= mem_heap_hi (get_ml (alloc d))) /\
     forall r, r ∈ ranges d ->
       hi r < l \/ l + n - 1 < lo r \/ (l < lo r /\ hi r < l + n - 1)) /\
    ranges d' = (if b then [mkRange l (l + n - 1) i] else []) ++ ranges d).
Proof.
  intros Hmode Hn Hl Hr. unfold add_range.
  rewrite wrapS_small, (wrapU_small 64 (l + n - 1)) by lia. cbv zeta.
  replace (0 <? n) with true by lia. unfold c_assert. rewrite bind_ret.
  unfold IS_ALIGNED, DRIVER_ALIGNMENT. rewrite (wrapU_small 64 l) by lia.
  destruct (Z.eqb_spec (l mod 16) 0) as [Ha|Ha]; cbn [negb].
  2: { eexists _, _. split; [reflexivity|]. split; [|done]. split; [done|]. intros (? & _). done. }
  rewrite !bind_gets. rewrite (bool_decide_false (mode = DBG_NONE)) by done. cbn [orb].
  set (hlo := mem_heap_lo _). set (hhi := mem_heap_hi _).
  destruct ((l <? hlo) || (hhi <? l) || (l + n - 1 <? hlo) || (hhi <? l + n - 1)) eqn:Eh.
  { eexists _, _. split; [reflexivity|]. split; [|done]. split; [done|]. intros (_ & ? & _). lia. }
  rewrite bind_gets. destruct (existsb _ _) eqn:Eo.
  - eexists _, _. split; [reflexivity|]. split; [|done]. split; [done|]. intros (_ & _ & Hall).
    apply existsb_exists in Eo as (r & Hin%list_elem_of_In & Ho). unfold overlaps in Ho.
    pose proof (Hall r Hin). pose proof (Hr r Hin). lia.
  - eexists _, _. split; [reflexivity|]. split; [|done]. split; [|done]. intros _.
    split; [done|]. split; [lia|]. intros r Hin.
    assert (Ho : overlaps l (l + n - 1) r = false).
    { destruct (overlaps l (l + n - 1) r) eqn:Er; [|done].
      assert (existsb (overlaps l (l + n - 1)) (ranges d) = true); [|congruence].
      apply existsb_exists. exists r. by rewrite <- list_elem_of_In. }
    unfold overlaps in Ho. pose proof (Hr r Hin). lia.
Qed.

(** A payload of 48 bytes around a live payload of 16 bytes. *)
Definition demo_overlap : @drv mm :=
  mkDrv demo_heap [] [] [] [] [mkRange (demo_base + 32) (demo_base + 47) 0] 0 0.

Lemma add_range_exact_witness :
  exists b d', add_range DBG_CHEAP false (demo_base + 16) 48 1 demo_overlap = Ok (b, d') /\
    (b = true <->
     (demo_base + 16) mod 16 = 0 /\
     (mem_heap_lo (get_ml (alloc demo_overlap)) <= demo_base + 16 /\
      demo_base + 16 + 48 - 1 <= mem_heap_hi (get_ml (alloc demo_overlap))) /\
     forall r, r ∈ ranges demo_overlap ->
       hi r < demo_base + 16 \/ demo_base + 16 + 48 - 1 < lo r \/
       (demo_base + 16 < lo r /\ hi r < demo_base + 16 + 48 - 1)) /\
    ranges d' = (if b then [mkRange (demo_base + 16) (demo_base + 16 + 48 - 1) 1] else []) ++ ranges demo_overlap.
Proof.
  apply (add_range_exact DBG_CHEAP demo_overlap (demo_base + 16) 48 1); try done.
  intros r ->%list_elem_of_singleton. done.
Defined.

(** The consequence for the checks: an overlapping payload is accepted. *)
Example add_range_accepts_overlap :
  match add_range DBG_CHEAP false (demo_base + 16) 48 1 demo_overlap with
  | Ok (b, d) => b = true /\ errors d = 0
  | Err _ => False
  end.
Proof. vm_compute. auto. Qed.
