(* ===== verification/ReadClass.v ===== *)
(** * Class files (java-virtual-machine/class_file.h, read_class.c)

    The reader of Java class files: a cursor over the bytes of the file, the
    constant pool, the methods with their code, and the lookups that the
    interpreter makes in them.  Failed assertions are the fault
    [AssertFail].  Strings are lists of bytes; the C code compares them with
    strcmp(), which stops at the first NUL.  The operands of [|] in read_u2()
    and read_u4() are read from left to right. *)
From stdpp Require Import prelude gmap list.
From Stdlib Require Import ZArith Lia.
From S2P Require Import Prelude.
Open Scope Z_scope.
Open Scope c_scope.

(** ** Data *)

Record class_header_t := mkHeader { magic : Z; minor_version : Z; major_version : Z }.
Record class_info_t := mkClassInfo { c_access_flags : Z; this_class : Z; super_class : Z }.
Record method_info := mkMethodInfo {
  access_flags : Z; name_index : Z; descriptor_index : Z; attributes_count : Z
}.

Record code_t := mkCode {
  max_stack : Z;
  max_locals : Z;
  code_length : Z;
  code : list Z
}.

Record method_t := mkMethod { name : list Z; descriptor : list Z; mcode : code_t }.

(** A constant with its tag; the payloads are the structs that [info] points to. *)
Inductive cp_info :=
  | CONSTANT_Utf8 (bytes : list Z)
  | CONSTANT_Integer (bytes : Z)
  | CONSTANT_Class (string_index : Z)
  | CONSTANT_Fieldref (class_index name_and_type_index : Z)
  | CONSTANT_Methodref (class_index name_and_type_index : Z)
  | CONSTANT_NameAndType (name_idx descriptor_idx : Z).

(** The arrays without the entry that marks their end. *)
Record class_file_t := mkClass { constant_pool : list cp_info; methods : list method_t }.

Definition CLASS_MAGIC : Z := 0xCAFEBABE.
Definition IS_STATIC : Z := 0x0008.

(** The tag byte of a constant. *)
Definition cp_tag (c : cp_info) : Z :=
  match c with
  | CONSTANT_Utf8 _ => 1
  | CONSTANT_Integer _ => 3
  | CONSTANT_Class _ => 7
  | CONSTANT_Fieldref _ _ => 9
  | CONSTANT_Methodref _ _ => 10
  | CONSTANT_NameAndType _ _ => 12
  end.

(** ** The file *)

Record FILE := mkFile { data : list Z; pos : Z }.

Definition read_u1 : M FILE Z := fun f =>
  if (0 <=? pos f) && (pos f <? Z.of_nat (length (data f))) then
    match data f !! Z.to_nat (pos f) with
    | Some b => Ok (b, mkFile (data f) (pos f + 1))
    | None => Err AssertFail
    end
  else Err AssertFail.

Definition read_u2 : M FILE Z :=
  hi <- read_u1;; lo <- read_u1;; ret (u16 (Z.lor (Z.shiftl hi 8) lo)).

Definition read_u4 : M FILE Z :=
  hi <- read_u2;; lo <- read_u2;; ret (u32 (Z.lor (u32 (Z.shiftl hi 16)) lo)).

(** fread() of [n] bytes followed by the assertion that all were read. *)
Fixpoint fread_all (n : nat) : M FILE (list Z) :=
  match n with
  | O => ret []
  | S n => b <- read_u1;; l <- fread_all n;; ret (b :: l)
  end.

Definition ftell : M FILE Z := gets pos.
Definition fseek (p : Z) : M FILE unit := modify (fun f => mkFile (data f) p).

(** ** The constant pool *)

Definition constant_pool_size (pool : list cp_info) : Z := u16 (Z.of_nat (length pool)).

Definition get_constant (pool : list cp_info) (index : Z) : res cp_info :=
  if (0 <? index) && (index <=? constant_pool_size pool) then
    match pool !! Z.to_nat (index - 1) with
    | Some c => Ok c
    | None => Err UB
    end
  else Err AssertFail.

(** The string constant at an index, with the assertion on its tag. *)
Definition get_utf8 (pool : list cp_info) (index : Z) : res (list Z) :=
  c <-! get_constant pool index;;
  match c with CONSTANT_Utf8 s => Ok s | _ => Err AssertFail end.

Definition get_method_name_and_type (pool : list cp_info) (index : Z) : res (Z * Z) :=
  method_constant <-! get_constant pool index;;
  match method_constant with
  | CONSTANT_Methodref _ nt =>
      name_and_type_constant <-! get_constant pool nt;;
      match name_and_type_constant with
      | CONSTANT_NameAndType n d => Ok (n, d)
      | _ => Err AssertFail
      end
  | _ => Err AssertFail
  end.

(** ** Methods *)

(** strchr(): the bytes from the first occurrence of [c] on. *)
Fixpoint strchr (l : list Z) (c : Z) : option (list Z) :=
  match l with
  | [] => None
  | b :: l' => if b =? c then Some l else if b =? 0 then None else strchr l' c
  end.

Definition CH_OPEN : Z := 40.     (* left parenthesis *)
Definition CH_CLOSE : Z := 41.    (* right parenthesis *)
Definition CH_BRACKET : Z := 91.  (* left square bracket *)

(** The loop of get_number_of_parameters(): [l] starts at the cursor and [n]
    bytes are left before the closing parenthesis. *)
Fixpoint count_params (l : list Z) (n params : Z) : Z :=
  if 0 <? n then
    match l with
    | [] => params
    | b :: l =>
        if b =? CH_BRACKET then
          match l with
          | [] => u16 (params + 1)
          | _ :: l => count_params l (n - 2) (u16 (params + 1))
          end
        else count_params l (n - 1) (u16 (params + 1))
    end
  else params.

Definition get_number_of_parameters (m : method_t) : res Z :=
  match strchr (c_str (descriptor m)) CH_CLOSE, strchr (c_str (descriptor m)) CH_OPEN with
  | Some e, Some s =>
      match s with
      | [] => Err UB
      | _ :: l => Ok (count_params l (Z.of_nat (length s) - Z.of_nat (length e) - 1) 0)
      end
  | None, Some _ => Ok 0
  | _, None => Err UB
  end.

Fixpoint find_method_in (nm desc : list Z) (ms : list method_t) : option method_t :=
  match ms with
  | [] => None
  | m :: ms => if strcmp_eq (name m) nm && strcmp_eq (descriptor m) desc then Some m
               else find_method_in nm desc ms
  end.

Definition find_method (nm desc : list Z) (cls : class_file_t) : option method_t :=
  find_method_in nm desc (methods cls).

Definition find_method_from_index (index : Z) (cls : class_file_t) : res (option method_t) :=
  '(ni, di) <-! get_method_name_and_type (constant_pool cls) index;;
  nm <-! get_utf8 (constant_pool cls) ni;;
  desc <-! get_utf8 (constant_pool cls) di;;
  Ok (find_method nm desc cls).

(** ** Reading *)

Definition get_class_header : M FILE class_header_t :=
  magic <- read_u4;;
  c_assert (magic =? CLASS_MAGIC) ;;;
  major <- read_u2;;
  minor <- read_u2;;
  ret (mkHeader magic minor major).

(** One constant: the switch on its tag. *)
Definition read_constant : M FILE cp_info :=
  tag <- read_u1;;
  if tag =? 1 then
    length <- read_u2;;
    info <- fread_all (Z.to_nat length);;
    ret (CONSTANT_Utf8 info)
  else if tag =? 3 then
    bytes <- read_u4;; ret (CONSTANT_Integer (s32 bytes))
  else if tag =? 7 then
    i <- read_u2;; ret (CONSTANT_Class i)
  else if tag =? 10 then
    c <- read_u2;; n <- read_u2;; ret (CONSTANT_Methodref c n)
  else if tag =? 9 then
    c <- read_u2;; n <- read_u2;; ret (CONSTANT_Fieldref c n)
  else if tag =? 12 then
    n <- read_u2;; d <- read_u2;; ret (CONSTANT_NameAndType n d)
  else fail AssertFail.

Fixpoint read_constants (n : nat) : M FILE (list cp_info) :=
  match n with
  | O => ret []
  | S n => c <- read_constant;; l <- read_constants n;; ret (c :: l)
  end.

Definition get_constant_pool : M FILE (list cp_info) :=
  count <- read_u2;;
  read_constants (Z.to_nat (u16 (count - 1))).

Definition get_class_info : M FILE class_info_t :=
  access <- read_u2;;
  this <- read_u2;;
  super <- read_u2;;
  interfaces_count <- read_u2;;
  c_assert (interfaces_count =? 0) ;;;
  fields_count <- read_u2;;
  c_assert (fields_count =? 0) ;;;
  ret (mkClassInfo access this super).

(** The bytes of "Code" and of "<init>". *)
Definition STR_CODE : list Z := [67; 111; 100; 101].
Definition STR_INIT : list Z := [60; 105; 110; 105; 116; 62].

(** One iteration over the attributes of a method; [found] is the code read so far. *)
Definition read_attribute (pool : list cp_info) (found : option code_t) : M FILE (option code_t) :=
  attribute_name_index <- read_u2;;
  attribute_length <- read_u4;;
  here <- ftell;;
  let attribute_end := here + attribute_length in
  type_name <- lift (get_utf8 pool attribute_name_index);;
  found <- (if strcmp_eq type_name STR_CODE then
              c_assert (match found with None => true | Some _ => false end) ;;;
              max_stack <- read_u2;;
              max_locals <- read_u2;;
              code_length <- read_u4;;
              code <- fread_all (Z.to_nat code_length);;
              ret (Some (mkCode max_stack max_locals code_length code))
            else ret found);;
  fseek attribute_end ;;;
  ret found.

Fixpoint read_attributes (n : nat) (pool : list cp_info) (found : option code_t) : M FILE (option code_t) :=
  match n with
  | O => ret found
  | S n => found <- read_attribute pool found;; read_attributes n pool found
  end.

Definition read_method_attributes (info : method_info) (pool : list cp_info) : M FILE code_t :=
  found <- read_attributes (Z.to_nat (attributes_count info)) pool None;;
  match found with
  | Some c => ret c
  | None => fail AssertFail
  end.

Definition read_method (pool : list cp_info) : M FILE method_t :=
  access <- read_u2;;
  ni <- read_u2;;
  di <- read_u2;;
  ac <- read_u2;;
  nm <- lift (get_utf8 pool ni);;
  desc <- lift (get_utf8 pool di);;
  (if negb (strcmp_eq nm STR_INIT) then c_assert (negb (Z.land access IS_STATIC =? 0)) else ret tt) ;;;
  code <- read_method_attributes (mkMethodInfo access ni di ac) pool;;
  ret (mkMethod nm desc code).

Fixpoint read_methods (n : nat) (pool : list cp_info) : M FILE (list method_t) :=
  match n with
  | O => ret []
  | S n => m <- read_method pool;; l <- read_methods n pool;; ret (m :: l)
  end.

Definition get_methods (pool : list cp_info) : M FILE (list method_t) :=
  method_count <- read_u2;;
  read_methods (Z.to_nat method_count) pool.

Definition get_class : M FILE class_file_t :=
  get_class_header ;;;
  pool <- get_constant_pool;;
  get_class_info ;;;
  methods <- get_methods pool;;
  ret (mkClass pool methods).
