(* ===== verification/Jvm.v ===== *)
(** * The bytecode interpreter (java-virtual-machine/jvm.c, jvm.h, heap.c)

    One definition per C function, over the frame of the running method (the
    operand stack array with its stack pointer, the program counter and the
    locals) and the state shared by all frames (the heap of int arrays and the
    lines printed).  int arithmetic wraps around, as the program is built with
    the integer sanitizer off; a division that traps, a shift distance outside
    0..31 and any access outside an array are the fault [UB].  Allocation
    succeeds. *)
From stdpp Require Import prelude gmap list.
From Stdlib Require Import ZArith Lia Zquot.
From S2P Require Import Prelude ReadClass.
Open Scope Z_scope.
Open Scope c_scope.

(** ** Opcodes *)

Definition i_nop : Z := 0x0.
Definition i_iconst_m1 : Z := 0x2.
Definition i_iconst_0 : Z := 0x3.
Definition i_iconst_5 : Z := 0x8.
Definition i_bipush : Z := 0x10.
Definition i_sipush : Z := 0x11.
Definition i_ldc : Z := 0x12.
Definition i_iload : Z := 0x15.
Definition i_aload : Z := 0x19.
Definition i_iload_0 : Z := 0x1a.
Definition i_iload_3 : Z := 0x1d.
Definition i_aload_0 : Z := 0x2a.
Definition i_aload_3 : Z := 0x2d.
Definition i_iaload : Z := 0x2e.
Definition i_istore : Z := 0x36.
Definition i_astore : Z := 0x3a.
Definition i_istore_0 : Z := 0x3b.
Definition i_istore_3 : Z := 0x3e.
Definition i_astore_0 : Z := 0x4b.
Definition i_astore_3 : Z := 0x4e.
Definition i_iastore : Z := 0x4f.
Definition i_dup : Z := 0x59.
Definition i_iadd : Z := 0x60.
Definition i_isub : Z := 0x64.
Definition i_imul : Z := 0x68.
Definition i_idiv : Z := 0x6c.
Definition i_irem : Z := 0x70.
Definition i_ineg : Z := 0x74.
Definition i_ishl : Z := 0x78.
Definition i_ishr : Z := 0x7a.
Definition i_iushr : Z := 0x7c.
Definition i_iand : Z := 0x7e.
Definition i_ior : Z := 0x80.
Definition i_ixor : Z := 0x82.
Definition i_iinc : Z := 0x84.
Definition i_ifeq : Z := 0x99.
Definition i_ifne : Z := 0x9a.
Definition i_iflt : Z := 0x9b.
Definition i_ifge : Z := 0x9c.
Definition i_ifgt : Z := 0x9d.
Definition i_ifle : Z := 0x9e.
Definition i_if_icmpeq : Z := 0x9f.
Definition i_if_icmpne : Z := 0xa0.
Definition i_if_icmplt : Z := 0xa1.
Definition i_if_icmpge : Z := 0xa2.
Definition i_if_icmpgt : Z := 0xa3.
Definition i_if_icmple : Z := 0xa4.
Definition i_goto : Z := 0xa7.
Definition i_ireturn : Z := 0xac.
Definition i_areturn : Z := 0xb0.
Definition i_return : Z := 0xb1.
Definition i_getstatic : Z := 0xb2.
Definition i_invokevirtual : Z := 0xb6.
Definition i_invokestatic : Z := 0xb8.
Definition i_newarray : Z := 0xbc.
Definition i_arraylength : Z := 0xbe.

(** ** The heap (heap.c)

    References are indices; each array is stored with its length in element 0. *)

Definition heap_t := list (list Z).

Definition heap_init : heap_t := [].
Definition heap_add (h : heap_t) (arr : list Z) : heap_t * Z := (h ++ [arr], Z.of_nat (length h)).
Definition heap_get (h : heap_t) (ref : Z) : res (list Z) :=
  if ref <? 0 then Err UB
  else match h !! Z.to_nat ref with Some a => Ok a | None => Err UB end.

(** ** State *)

Record vm := mkVM {
  stack : list Z;
  stack_p : Z;
  pc : Z;
  locals : list Z;
  heap : heap_t;
  out : list Z         (* the numbers printed, latest first *)
}.

Definition with_stack (l : list Z) (v : vm) : vm := mkVM l (stack_p v) (pc v) (locals v) (heap v) (out v).
Definition with_sp (p : Z) (v : vm) : vm := mkVM (stack v) p (pc v) (locals v) (heap v) (out v).
Definition with_pc (p : Z) (v : vm) : vm := mkVM (stack v) (stack_p v) p (locals v) (heap v) (out v).
Definition with_locals (l : list Z) (v : vm) : vm := mkVM (stack v) (stack_p v) (pc v) l (heap v) (out v).
Definition with_heap (h : heap_t) (v : vm) : vm := mkVM (stack v) (stack_p v) (pc v) (locals v) h (out v).
Definition with_out (o : list Z) (v : vm) : vm := mkVM (stack v) (stack_p v) (pc v) (locals v) (heap v) o.

(** An element of an array of known length. *)
Definition nth_res (l : list Z) (i : Z) : res Z :=
  if i <? 0 then Err UB
  else match l !! Z.to_nat i with Some x => Ok x | None => Err UB end.
Definition upd_res (l : list Z) (i x : Z) : res (list Z) :=
  if (i <? 0) || (Z.of_nat (length l) <=? i) then Err UB else Ok (<[Z.to_nat i := x]> l).

(** stack[i] with a size_t index. *)
Definition get_stack (i : Z) : M vm Z := v <- get;; lift (nth_res (stack v) (u64 i)).
Definition set_stack (i x : Z) : M vm unit :=
  v <- get;; l <- lift (upd_res (stack v) (u64 i) x);; modify (with_stack l).
Definition get_sp : M vm Z := gets stack_p.
Definition add_sp (n : Z) : M vm unit := modify (fun v => with_sp (u64 (stack_p v + n)) v).
Definition get_pc : M vm Z := gets pc.
Definition add_pc (n : Z) : M vm unit := modify (fun v => with_pc (u64 (pc v + n)) v).
Definition get_local (i : Z) : M vm Z := v <- get;; lift (nth_res (locals v) i).
Definition set_local (i x : Z) : M vm unit :=
  v <- get;; l <- lift (upd_res (locals v) i x);; modify (with_locals l).

(** method->code.code[*pc + k], a byte. *)
Definition code_byte (m : method_t) (k : Z) : M vm Z :=
  p <- get_pc;; lift (nth_res (code (mcode m)) (u64 (p + k))).

(** ** Instructions *)

Definition quot_res (a b : Z) : res Z :=
  if (a =? - 2 ^ 31) && (b =? -1) then Err UB else Ok (Z.quot a b).
Definition rem_res (a b : Z) : res Z :=
  if (a =? - 2 ^ 31) && (b =? -1) then Err UB else Ok (Z.rem a b).
Definition shift_ok (b : Z) : res unit := if (0 <=? b) && (b <? 32) then Ok tt else Err UB.

(** The switch of add_to_xor() for the binary operations.  In the case of
    irem a zero divisor falls through to the case of ineg. *)
Definition binop (op a b : Z) : res Z :=
  if op =? i_iadd then Ok (s32 (a + b))
  else if op =? i_isub then Ok (s32 (a - b))
  else if op =? i_imul then Ok (s32 (a * b))
  else if op =? i_idiv then (if negb (b =? 0) then quot_res a b else Ok 0)
  else if op =? i_irem then (if negb (b =? 0) then rem_res a b else Ok (s32 (- a)))
  else if op =? i_ineg then Ok (s32 (- a))
  else if op =? i_ishl then (_ <-! shift_ok b;; Ok (s32 (Z.shiftl a b)))
  else if op =? i_ishr then (_ <-! shift_ok b;; Ok (Z.shiftr a b))
  else if op =? i_iushr then (_ <-! shift_ok b;; Ok (s32 (Z.shiftr (u32 a) b)))
  else if op =? i_iand then Ok (Z.land a b)
  else if op =? i_ior then Ok (Z.lor a b)
  else if op =? i_ixor then Ok (Z.lxor a b)
  else Ok 0.

Definition add_to_xor (cur_method : Z) : M vm unit :=
  sp <- get_sp;;
  if cur_method =? i_ineg then
    x <- get_stack (sp - 1);;
    set_stack (sp - 1) (s32 (- x))
  else
    a <- get_stack (sp - 2);;
    b <- get_stack (sp - 1);;
    result <- lift (binop cur_method a b);;
    set_stack (sp - 2) result ;;;
    set_stack (sp - 1) 0 ;;;
    add_sp (-1).

Definition bi_push (m : method_t) : M vm unit :=
  sp <- get_sp;;
  b <- code_byte m 1;;
  set_stack sp (s8 b) ;;;
  add_sp 1 ;;;
  add_pc 1.

Definition invoke_virtual : M vm unit :=
  sp <- get_sp;;
  set_stack sp 0 ;;;
  add_sp (-1) ;;;
  sp' <- get_sp;;
  x <- get_stack sp';;
  modify (fun v => with_out (x :: out v) v) ;;;
  add_pc 2.

Definition get_static : M vm unit := add_pc 2.

Definition i_const (m : method_t) : M vm unit :=
  sp <- get_sp;;
  b <- code_byte m 0;;
  set_stack sp (b - i_iconst_0) ;;;
  add_sp 1.

(** Two code bytes as a signed 16-bit number. *)
Definition code_short (m : method_t) : M vm Z :=
  b1 <- code_byte m 1;;
  b2 <- code_byte m 2;;
  ret (s16 (Z.lor (Z.shiftl b1 8) b2)).

Definition si_push (m : method_t) : M vm unit :=
  sp <- get_sp;;
  x <- code_short m;;
  set_stack sp x ;;;
  add_sp 1 ;;;
  add_pc 2.

(** Pushes local [i]; the common part of the load instructions. *)
Definition push_local (i : Z) : M vm unit :=
  sp <- get_sp;;
  x <- get_local i;;
  set_stack sp x ;;;
  add_sp 1.

(** Pops into local [i]; the common part of the store instructions. *)
Definition pop_local (i : Z) : M vm unit :=
  sp <- get_sp;;
  a <- get_stack (sp - 1);;
  set_local i a ;;;
  set_stack (sp - 1) 0 ;;;
  add_sp (-1).

Definition i_load (m : method_t) : M vm unit :=
  i <- code_byte m 1;; push_local i ;;; add_pc 1.
Definition i_store (m : method_t) : M vm unit :=
  i <- code_byte m 1;; pop_local i ;;; add_pc 1.
Definition i_inc (m : method_t) : M vm unit :=
  i <- code_byte m 1;;
  b <- code_byte m 2;;
  x <- get_local i;;
  set_local i (s32 (x + s8 b)) ;;;
  add_pc 2.
Definition i_iload_nums (m : method_t) : M vm unit :=
  b <- code_byte m 0;; push_local (b - i_iload_0).
Definition i_istore_nums (m : method_t) : M vm unit :=
  b <- code_byte m 0;; pop_local (b - i_istore_0).
Definition aload (m : method_t) : M vm unit :=
  i <- code_byte m 1;; push_local i ;;; add_pc 1.
Definition astore (m : method_t) : M vm unit :=
  i <- code_byte m 1;; pop_local i ;;; add_pc 1.
Definition aload_nums (m : method_t) : M vm unit :=
  b <- code_byte m 0;; push_local (u8 (b - i_aload_0)).
Definition astore_nums (m : method_t) : M vm unit :=
  b <- code_byte m 0;; pop_local (u8 (b - i_astore_0)).

(** The constant is read as an integer whatever its tag says. *)
Definition ldc (cls : class_file_t) (m : method_t) : M vm unit :=
  sp <- get_sp;;
  i <- code_byte m 1;;
  x <- lift (if i - 1 <? 0 then Err UB
             else match constant_pool cls !! Z.to_nat (i - 1) with
                  | Some (CONSTANT_Integer x) => Ok x
                  | _ => Err UB
                  end);;
  set_stack sp x ;;;
  add_sp 1 ;;;
  add_pc 1.

Definition compare_jump (op a b : Z) : res bool :=
  if op =? i_ifeq then Ok (a =? 0)
  else if op =? i_ifne then Ok (negb (a =? 0))
  else if op =? i_iflt then Ok (a <? 0)
  else if op =? i_ifge then Ok (0 <=? a)
  else if op =? i_ifgt then Ok (0 <? a)
  else if op =? i_ifle then Ok (a <=? 0)
  else if op =? i_if_icmpeq then Ok (a =? b)
  else if op =? i_if_icmpne then Ok (negb (a =? b))
  else if op =? i_if_icmplt then Ok (a <? b)
  else if op =? i_if_icmpge then Ok (b <=? a)
  else if op =? i_if_icmpgt then Ok (b <? a)
  else if op =? i_if_icmple then Ok (a <=? b)
  else Err AssertFail.

Definition jump (cur_method : Z) (m : method_t) : M vm unit :=
  offset <- code_short m;;
  sp <- get_sp;;
  a <- get_stack (sp - 1);;
  '(a, b) <- (if i_if_icmpeq <=? cur_method then
                a <- get_stack (sp - 2);;
                b <- get_stack (sp - 1);;
                set_stack (sp - 2) 0 ;;;
                set_stack (sp - 1) 0 ;;;
                add_sp (-2) ;;;
                ret (a, b)
              else
                set_stack (sp - 1) 0 ;;;
                add_sp (-1) ;;;
                ret (a, 0));;
  add_offset <- lift (compare_jump cur_method a b);;
  if add_offset : bool then add_pc (offset - 1) else add_pc 2.

Definition go_to (m : method_t) : M vm unit :=
  offset <- code_short m;; add_pc (offset - 1).

Definition dup : M vm unit :=
  sp <- get_sp;;
  x <- get_stack (sp - 1);;
  set_stack sp x ;;;
  add_sp 1.

(** A negative length makes the element count of malloc() useless, the largest
    one overflows the loop bound. *)
Definition newarray : M vm unit :=
  sp <- get_sp;;
  n <- get_stack (sp - 1);;
  if (n <? 0) || (2 ^ 31 - 1 <=? n) then fail UB
  else
    h <- gets heap;;
    let '(h, ref) := heap_add h (n :: replicate (Z.to_nat n) 0) in
    modify (with_heap h) ;;;
    set_stack (sp - 1) (s32 ref) ;;;
    add_pc 1.

Definition get_array (ref : Z) : M vm (list Z) := h <- gets heap;; lift (heap_get h ref).

Definition arraylength : M vm unit :=
  sp <- get_sp;;
  ref <- get_stack (sp - 1);;
  arr <- get_array ref;;
  count <- lift (nth_res arr 0);;
  set_stack (sp - 1) count.

Definition iastore : M vm unit :=
  sp <- get_sp;;
  ref <- get_stack (sp - 3);;
  arr <- get_array ref;;
  i <- get_stack (sp - 2);;
  x <- get_stack (sp - 1);;
  arr' <- lift (upd_res arr (i + 1) x);;
  modify (fun v => with_heap (<[Z.to_nat ref := arr']> (heap v)) v) ;;;
  set_stack (sp - 1) 0 ;;;
  set_stack (sp - 2) 0 ;;;
  set_stack (sp - 3) 0 ;;;
  add_sp (-3).

Definition iaload : M vm unit :=
  sp <- get_sp;;
  ref <- get_stack (sp - 2);;
  arr <- get_array ref;;
  i <- get_stack (sp - 1);;
  value <- lift (nth_res arr (i + 1));;
  set_stack (sp - 1) 0 ;;;
  set_stack (sp - 2) 0 ;;;
  add_sp (-2) ;;;
  set_stack (sp - 2) value ;;;
  add_sp 1.

Definition between (lo x hi : Z) : bool := (lo <=? x) && (x <=? hi).

(** The switch of execute(), without the calls and the returns. *)
Definition step_instr (cls : class_file_t) (m : method_t) (op : Z) : M vm unit :=
  if between i_iadd op i_ixor then add_to_xor op
  else if op =? i_bipush then bi_push m
  else if op =? i_getstatic then get_static
  else if op =? i_invokevirtual then invoke_virtual
  else if between i_iconst_m1 op i_iconst_5 then i_const m
  else if op =? i_sipush then si_push m
  else if op =? i_iload then i_load m
  else if op =? i_istore then i_store m
  else if op =? i_iinc then i_inc m
  else if between i_iload_0 op i_iload_3 then i_iload_nums m
  else if between i_istore_0 op i_istore_3 then i_istore_nums m
  else if op =? i_ldc then ldc cls m
  else if between i_ifeq op i_if_icmple then jump op m
  else if op =? i_goto then go_to m
  else if op =? i_nop then ret tt
  else if op =? i_dup then dup
  else if op =? i_newarray then newarray
  else if op =? i_arraylength then arraylength
  else if op =? i_iastore then iastore
  else if op =? i_iaload then iaload
  else if op =? i_aload then aload m
  else if op =? i_astore then astore m
  else if between i_aload_0 op i_aload_3 then aload_nums m
  else if between i_astore_0 op i_astore_3 then astore_nums m
  else fail (Exit 1).

(** The loop that moves the arguments into the locals of the callee:
    [n] arguments are left, the next one goes to local [idx]. *)
Fixpoint pass_args (n : nat) (idx num_params : Z) (new_locals : list Z) : M vm (list Z) :=
  match n with
  | O => ret new_locals
  | S n =>
      sp <- get_sp;;
      x <- get_stack (sp - (num_params - idx));;
      new_locals <- lift (upd_res new_locals idx x);;
      set_stack (sp - (num_params - idx)) 0 ;;;
      pass_args n (idx + 1) num_params new_locals
  end.

(** The frame in which execute() starts a method. *)
Definition new_frame (m : method_t) (ls : list Z) (h : heap_t) (o : list Z) : vm :=
  mkVM (replicate (Z.to_nat (max_stack (mcode m))) 0) 0 0 ls h o.

(** execute(): the loop over the instructions of a method.  [fuel] bounds the
    number of instructions along each chain of nested calls. *)
Fixpoint execute (fuel : nat) (cls : class_file_t) (m : method_t) (v : vm) : res (option Z * vm) :=
  match fuel with
  | O => Err OutOfFuel
  | S fuel =>
      if negb (pc v <? code_length (mcode m)) then Ok (None, v)
      else
        op <-! nth_res (code (mcode m)) (pc v);;
        if op =? i_invokestatic then
          '(index, v) <-! (b1 <- code_byte m 1;; b2 <- code_byte m 2;;
                           ret (u16 (Z.lor (Z.shiftl b1 8) b2))) v;;
          found <-! find_method_from_index index cls;;
          match found with
          | None => Err AssertFail
          | Some new_method =>
              num_params <-! get_number_of_parameters new_method;;
              '(new_locals, v) <-! pass_args (Z.to_nat num_params) 0 num_params
                                     (replicate (Z.to_nat (max_locals (mcode new_method))) 0) v;;
              '(_, v) <-! add_sp (- num_params) v;;
              '(new_result, v') <-! execute fuel cls new_method (new_frame new_method new_locals (heap v) (out v));;
              let v := with_out (out v') (with_heap (heap v') v) in
              '(_, v) <-! (match new_result with
                           | Some x => sp <- get_sp;; set_stack sp x ;;; add_sp 1
                           | None => ret tt
                           end) v;;
              execute fuel cls m (with_pc (u64 (pc v + 3)) v)
          end
        else if (op =? i_areturn) || (op =? i_ireturn) then
          '(x, v) <-! (sp <- get_sp;; get_stack (sp - 1)) v;;
          Ok (Some x, v)
        else if op =? i_return then Ok (None, v)
        else
          '(_, v) <-! step_instr cls m op v;;
          execute fuel cls m (with_pc (u64 (pc v + 1)) v)
  end.

(** The bytes of main and of its descriptor. *)
Definition MAIN_METHOD : list Z := [109; 97; 105; 110].
Definition MAIN_DESCRIPTOR : list Z :=
  [40; 91; 76; 106; 97; 118; 97; 47; 108; 97; 110; 103; 47; 83; 116; 114; 105; 110; 103; 59; 41; 86].

(** main(): reads the class, runs its main method and answers what it printed. *)
Definition jvm_main (fuel : nat) (bytes : list Z) : res (list Z) :=
  '(cls, _) <-! get_class (mkFile bytes 0);;
  match find_method MAIN_METHOD MAIN_DESCRIPTOR cls with
  | None => Err AssertFail
  | Some m =>
      '(result, v) <-! execute fuel cls m
                         (new_frame m (replicate (Z.to_nat (max_locals (mcode m))) 0) heap_init []);;
      match result with
      | None => Ok (rev (out v))
      | Some _ => Err AssertFail
      end
  end.
