(* ===== verification/JvmSem.v ===== *)
(** * Reference semantics of the supported bytecode

    A machine in the style of the JVM specification, independent of the C code:
    instructions are decoded into a datatype, the operand stack is a list with
    its top first, arrays are lists of elements.  A partial result [None] is a
    program the specification rejects or that is outside the supported subset
    (an exception, a type error, a stack overflow).  getstatic and
    invokevirtual stand for System.out and println(int): the reference to the
    stream is not represented, but println() needs its place on the stack. *)
From stdpp Require Import prelude gmap list.
From Stdlib Require Import ZArith Lia Zquot.
From S2P Require Import Prelude ReadClass.
Open Scope Z_scope.

Inductive bop := Add | Sub | Mul | Div | Rem | Shl | Shr | Ushr | And | Or | Xor.
Inductive cmp := CEq | CNe | CLt | CGe | CGt | CLe.

Inductive instr :=
  | Nop
  | Const (z : Z)
  | Load (i : Z)
  | Store (i : Z)
  | Inc (i z : Z)
  | Bin (o : bop)
  | Neg
  | If (c : cmp) (off : Z)
  | IfCmp (c : cmp) (off : Z)
  | Goto (off : Z)
  | Dup
  | GetStatic
  | Println
  | NewArray
  | ArrayLength
  | IaLoad
  | IaStore
  | InvokeStatic (index : Z)
  | ValueReturn
  | Return.

(** ** Decoding *)

Definition byte (c : list Z) (p : Z) : option Z := if p <? 0 then None else c !! Z.to_nat p.

Definition u2_at (c : list Z) (p : Z) : option Z :=
  hi ← byte c p; lo ← byte c (p + 1); Some (256 * hi + lo).
Definition s2_at (c : list Z) (p : Z) : option Z := x ← u2_at c p; Some (s16 x).

Definition int_constant (pool : list cp_info) (i : Z) : option Z :=
  if i <? 1 then None
  else match pool !! Z.to_nat (i - 1) with Some (CONSTANT_Integer x) => Some x | _ => None end.

(** The instruction at [p] and its length in bytes. *)
Definition decode (pool : list cp_info) (c : list Z) (p : Z) : option (instr * Z) :=
  op ← byte c p;
  match op with
  | 0x00 => Some (Nop, 1)
  | 0x02 => Some (Const (-1), 1)
  | 0x03 => Some (Const 0, 1)
  | 0x04 => Some (Const 1, 1)
  | 0x05 => Some (Const 2, 1)
  | 0x06 => Some (Const 3, 1)
  | 0x07 => Some (Const 4, 1)
  | 0x08 => Some (Const 5, 1)
  | 0x10 => b ← byte c (p + 1); Some (Const (s8 b), 2)
  | 0x11 => x ← s2_at c (p + 1); Some (Const x, 3)
  | 0x12 => i ← byte c (p + 1); x ← int_constant pool i; Some (Const x, 2)
  | 0x15 => i ← byte c (p + 1); Some (Load i, 2)
  | 0x19 => i ← byte c (p + 1); Some (Load i, 2)
  | 0x1a => Some (Load 0, 1)
  | 0x1b => Some (Load 1, 1)
  | 0x1c => Some (Load 2, 1)
  | 0x1d => Some (Load 3, 1)
  | 0x2a => Some (Load 0, 1)
  | 0x2b => Some (Load 1, 1)
  | 0x2c => Some (Load 2, 1)
  | 0x2d => Some (Load 3, 1)
  | 0x2e => Some (IaLoad, 1)
  | 0x36 => i ← byte c (p + 1); Some (Store i, 2)
  | 0x3a => i ← byte c (p + 1); Some (Store i, 2)
  | 0x3b => Some (Store 0, 1)
  | 0x3c => Some (Store 1, 1)
  | 0x3d => Some (Store 2, 1)
  | 0x3e => Some (Store 3, 1)
  | 0x4b => Some (Store 0, 1)
  | 0x4c => Some (Store 1, 1)
  | 0x4d => Some (Store 2, 1)
  | 0x4e => Some (Store 3, 1)
  | 0x4f => Some (IaStore, 1)
  | 0x59 => Some (Dup, 1)
  | 0x60 => Some (Bin Add, 1)
  | 0x64 => Some (Bin Sub, 1)
  | 0x68 => Some (Bin Mul, 1)
  | 0x6c => Some (Bin Div, 1)
  | 0x70 => Some (Bin Rem, 1)
  | 0x74 => Some (Neg, 1)
  | 0x78 => Some (Bin Shl, 1)
  | 0x7a => Some (Bin Shr, 1)
  | 0x7c => Some (Bin Ushr, 1)
  | 0x7e => Some (Bin And, 1)
  | 0x80 => Some (Bin Or, 1)
  | 0x82 => Some (Bin Xor, 1)
  | 0x84 => i ← byte c (p + 1); b ← byte c (p + 2); Some (Inc i (s8 b), 3)
  | 0x99 => o ← s2_at c (p + 1); Some (If CEq o, 3)
  | 0x9a => o ← s2_at c (p + 1); Some (If CNe o, 3)
  | 0x9b => o ← s2_at c (p + 1); Some (If CLt o, 3)
  | 0x9c => o ← s2_at c (p + 1); Some (If CGe o, 3)
  | 0x9d => o ← s2_at c (p + 1); Some (If CGt o, 3)
  | 0x9e => o ← s2_at c (p + 1); Some (If CLe o, 3)
  | 0x9f => o ← s2_at c (p + 1); Some (IfCmp CEq o, 3)
  | 0xa0 => o ← s2_at c (p + 1); Some (IfCmp CNe o, 3)
  | 0xa1 => o ← s2_at c (p + 1); Some (IfCmp CLt o, 3)
  | 0xa2 => o ← s2_at c (p + 1); Some (IfCmp CGe o, 3)
  | 0xa3 => o ← s2_at c (p + 1); Some (IfCmp CGt o, 3)
  | 0xa4 => o ← s2_at c (p + 1); Some (IfCmp CLe o, 3)
  | 0xa7 => o ← s2_at c (p + 1); Some (Goto o, 3)
  | 0xac => Some (ValueReturn, 1)
  | 0xb0 => Some (ValueReturn, 1)
  | 0xb1 => Some (Return, 1)
  | 0xb2 => Some (GetStatic, 3)
  | 0xb6 => Some (Println, 3)
  | 0xb8 => i ← u2_at c (p + 1); Some (InvokeStatic i, 3)
  | 0xbc => Some (NewArray, 2)
  | 0xbe => Some (ArrayLength, 1)
  | _ => None
  end.

(** ** Arithmetic *)

(** The result of an operation, for the operands on which the C operation is
    defined: no division by zero or overflowing division, and shift distances
    from 0 to 31. *)
Definition jbin (o : bop) (a b : Z) : option Z :=
  let in_range := (0 <=? b) && (b <? 32) in
  let divides := negb (b =? 0) && negb ((a =? - 2 ^ 31) && (b =? -1)) in
  match o with
  | Add => Some (s32 (a + b))
  | Sub => Some (s32 (a - b))
  | Mul => Some (s32 (a * b))
  | Div => if divides then Some (Z.quot a b) else None
  | Rem => if divides then Some (Z.rem a b) else None
  | Shl => if in_range then Some (s32 (a * 2 ^ b)) else None
  | Shr => if in_range then Some (a / 2 ^ b) else None
  | Ushr => if in_range then Some (s32 (u32 a / 2 ^ b)) else None
  | And => Some (Z.land a b)
  | Or => Some (Z.lor a b)
  | Xor => Some (Z.lxor a b)
  end.

Definition jcmp (c : cmp) (a b : Z) : bool :=
  match c with
  | CEq => a =? b
  | CNe => negb (a =? b)
  | CLt => a <? b
  | CGe => b <=? a
  | CGt => b <? a
  | CLe => a <=? b
  end.

(** ** Steps *)

Record frame := mkFrame {
  ops : list Z;            (* operand stack, top first *)
  vars : list Z;
  at_pc : Z;
  arrays : list (list Z);
  printed : list Z
}.

Definition push (limit x : Z) (s : list Z) : option (list Z) :=
  if Z.of_nat (length s) <? limit then Some (x :: s) else None.

Definition get_var (vs : list Z) (i : Z) : option Z := if i <? 0 then None else vs !! Z.to_nat i.
Definition set_var (vs : list Z) (i x : Z) : option (list Z) :=
  if (i <? 0) || (Z.of_nat (length vs) <=? i) then None else Some (<[Z.to_nat i := x]> vs).

Definition get_arr (h : list (list Z)) (r : Z) : option (list Z) := if r <? 0 then None else h !! Z.to_nat r.

(** One instruction that is neither a call nor a return; [limit] is max_stack,
    [len] the length of the instruction. *)
Definition step (limit : Z) (i : instr) (len : Z) (s : frame) : option frame :=
  let next := at_pc s + len in
  let '(mkFrame st vs p h o) := s in
  match i, st with
  | Nop, _ => Some (mkFrame st vs next h o)
  | GetStatic, _ => Some (mkFrame st vs next h o)
  | Const x, _ => st' ← push limit x st; Some (mkFrame st' vs next h o)
  | Load i, _ => x ← get_var vs i; st' ← push limit x st; Some (mkFrame st' vs next h o)
  | Store i, x :: st => vs' ← set_var vs i x; Some (mkFrame st vs' next h o)
  | Inc i z, _ => x ← get_var vs i; vs' ← set_var vs i (s32 (x + z)); Some (mkFrame st vs' next h o)
  | Bin op, b :: a :: st => x ← jbin op a b; Some (mkFrame (x :: st) vs next h o)
  | Neg, a :: st => Some (mkFrame (s32 (- a) :: st) vs next h o)
  | If c off, a :: st => Some (mkFrame st vs (if jcmp c a 0 then p + off else next) h o)
  | IfCmp c off, b :: a :: st => Some (mkFrame st vs (if jcmp c a b then p + off else next) h o)
  | Goto off, _ => Some (mkFrame st vs (p + off) h o)
  | Dup, x :: st' => st'' ← push limit x st; Some (mkFrame st'' vs next h o)
  | Println, x :: st' =>
      if Z.of_nat (length st) <? limit then Some (mkFrame st' vs next h (x :: o)) else None
  | NewArray, n :: st =>
      if (0 <=? n) && (n <? 2 ^ 31 - 1) && (Z.of_nat (length h) <? 2 ^ 31)
      then Some (mkFrame (Z.of_nat (length h) :: st) vs next (h ++ [replicate (Z.to_nat n) 0]) o)
      else None
  | ArrayLength, r :: st =>
      a ← get_arr h r; Some (mkFrame (Z.of_nat (length a) :: st) vs next h o)
  | IaLoad, j :: r :: st =>
      a ← get_arr h r; x ← get_var a j; Some (mkFrame (x :: st) vs next h o)
  | IaStore, x :: j :: r :: st =>
      a ← get_arr h r; a' ← set_var a j x;
      Some (mkFrame st vs next (<[Z.to_nat r := a']> h) o)
  | _, _ => None
  end.

(** ** Calls *)

Definition utf8 (pool : list cp_info) (i : Z) : option (list Z) :=
  if i <? 1 then None
  else match pool !! Z.to_nat (i - 1) with Some (CONSTANT_Utf8 s) => Some s | _ => None end.

(** The method a constant pool index refers to. *)
Definition resolve (cls : class_file_t) (i : Z) : option method_t :=
  if i <? 1 then None
  else match constant_pool cls !! Z.to_nat (i - 1) with
       | Some (CONSTANT_Methodref _ nt) =>
           if nt <? 1 then None
           else match constant_pool cls !! Z.to_nat (nt - 1) with
                | Some (CONSTANT_NameAndType n d) =>
                    nm ← utf8 (constant_pool cls) n;
                    desc ← utf8 (constant_pool cls) d;
                    snd <$> list_find (fun m => name m = nm /\ descriptor m = desc) (methods cls)
                | _ => None
                end
       | _ => None
       end.

(** The number of parameters of a descriptor whose parameters are int or int[]. *)
Fixpoint params (l : list Z) : option nat :=
  match l with
  | 41 :: _ => Some O                                (* right parenthesis *)
  | 73 :: l => S <$> params l                        (* I *)
  | 91 :: 73 :: l => S <$> params l                  (* [I *)
  | _ => None
  end.

Definition arity (desc : list Z) : option nat :=
  match desc with 40 :: l => params l | _ => None end.

(** Runs a method to its return. *)
Fixpoint eval (fuel : nat) (cls : class_file_t) (m : method_t) (s : frame) : option (option Z * frame) :=
  match fuel with
  | O => None
  | S fuel =>
      if negb (at_pc s <? Z.of_nat (length (code (mcode m)))) then None
      else
        d ← decode (constant_pool cls) (code (mcode m)) (at_pc s);
        match d with
        | (Return, _) => Some (None, s)
        | (ValueReturn, _) => x ← head (ops s); Some (Some x, s)
        | (InvokeStatic i, len) =>
            callee ← resolve cls i;
            n ← arity (descriptor callee);
            if bool_decide (n <= length (ops s))%nat && (Z.of_nat n <=? max_locals (mcode callee)) then
              r ← eval fuel cls callee
                    (mkFrame [] (rev (take n (ops s)) ++
                                 replicate (Z.to_nat (max_locals (mcode callee)) - n) 0) 0
                       (arrays s) (printed s));
              st ← match fst r with
                   | Some x => push (max_stack (mcode m)) x (drop n (ops s))
                   | None => Some (drop n (ops s))
                   end;
              eval fuel cls m (mkFrame st (vars s) (at_pc s + len) (arrays (snd r)) (printed (snd r)))
            else None
        | (i, len) => s' ← step (max_stack (mcode m)) i len s; eval fuel cls m s'
        end
  end.
