(* ===== verification/JvmRefine.v ===== *)
(** * The interpreter refines the reference semantics

    A simulation between [JvmSem] and the C interpreter [Jvm]: the array of the
    operand stack holds the abstract stack from the bottom up, every heap array
    carries its length in front, the program counter is the abstract one
    modulo 2^64. *)
From stdpp Require Import prelude gmap list.
From Stdlib Require Import ZArith Lia Zquot.
From S2P Require Import Prelude ReadClass Jvm JvmSem.
Open Scope Z_scope.
Open Scope c_scope.

(** ** The operand stack *)

(** The array [l] of [n] elements holds the stack [s] (top first). *)
Definition stk (n : nat) (l s : list Z) : Prop := length l = n /\ take (length s) l = rev s.

Lemma stk_length n l s : stk n l s -> (length s <= n)%nat.
Proof.
  intros [Hn Ht]. apply (f_equal length) in Ht. rewrite length_take, length_rev in Ht. lia.
Qed.

Lemma stk_lookup n l a x s : stk n l (a ++ x :: s) -> l !! length s = Some x.
Proof.
  intros [Hn Ht]. rewrite <- (lookup_take_lt l (length (a ++ x :: s))) by (rewrite length_app; simpl; lia).
  rewrite Ht, rev_app_distr. cbn [rev]. rewrite <- app_assoc. cbn [app].
  rewrite lookup_app_r by (rewrite length_rev; lia). by rewrite length_rev, Nat.sub_diag.
Qed.

Lemma stk_drop n l a s : stk n l (a ++ s) -> stk n l s.
Proof.
  intros [Hn Ht]. split; [done|]. rewrite rev_app_distr in Ht. rewrite length_app in Ht.
  rewrite <- (take_app_length (rev s) (rev a)), <- Ht, length_rev, take_take. f_equal. lia.
Qed.

Lemma stk_write n l s i x : stk n l s -> (length s <= i)%nat -> stk n (<[i := x]> l) s.
Proof. intros [Hn Ht] Hi. split; [by rewrite length_insert|]. by rewrite take_insert_ge. Qed.

Lemma stk_push n l s x : stk n l s -> (length s < n)%nat -> stk n (<[length s := x]> l) (x :: s).
Proof.
  intros [Hn Ht] Hlt. split; [by rewrite length_insert|]. cbn [length rev].
  rewrite (take_S_r _ _ x) by (apply list_lookup_insert_eq; lia).
  rewrite take_insert_ge by lia. by rewrite Ht.
Qed.

(** Replacing the top. *)
Lemma stk_replace n l s x y : stk n l (x :: s) -> stk n (<[length s := y]> l) (y :: s).
Proof.
  intros H. pose proof (stk_length _ _ _ H). cbn [length] in *.
  apply stk_push; [|lia]. by apply (stk_drop _ _ [x]).
Qed.

Lemma stk_nil n : stk n (replicate n 0) [].
Proof. split; [apply length_replicate|]. done. Qed.

(** ** Execution *)

Section Exec.
Context {A : Type} (n : nat) (Hn : (Z.of_nat n < 2 ^ 16)).
Context (l : list Z) (sp p : Z) (ls : list Z) (h : heap_t) (o : list Z).

Lemma exec_get (k : Z -> M vm A) i j x :
  i = Z.of_nat j -> l !! j = Some x -> length l = n ->
  bind (get_stack i) k (mkVM l sp p ls h o) = k x (mkVM l sp p ls h o).
Proof.
  intros -> Hx Hl. pose proof (lookup_lt_Some _ _ _ Hx).
  unfold get_stack, bind, get, lift, nth_res. cbn [stack].
  rewrite wrapU_small by lia. by rewrite of_nat_ltb_0, Nat2Z.id, Hx.
Qed.

Lemma exec_set (k : unit -> M vm A) i j x :
  i = Z.of_nat j -> (j < length l)%nat -> length l = n ->
  bind (set_stack i x) k (mkVM l sp p ls h o) = k tt (mkVM (<[j := x]> l) sp p ls h o).
Proof.
  intros -> Hx Hl. unfold set_stack, bind, get, lift, upd_res. cbn [stack].
  rewrite wrapU_small by lia. rewrite of_nat_ltb_0, (proj2 (Z.leb_gt _ _)), Nat2Z.id by lia. done.
Qed.

Lemma set_stack_ok i j x :
  i = Z.of_nat j -> (j < length l)%nat -> length l = n ->
  set_stack i x (mkVM l sp p ls h o) = Ok (tt, mkVM (<[j := x]> l) sp p ls h o).
Proof.
  intros -> Hx Hl. unfold set_stack, bind, get, lift, upd_res. cbn [stack].
  rewrite wrapU_small by lia. rewrite of_nat_ltb_0, (proj2 (Z.leb_gt _ _)), Nat2Z.id by lia. done.
Qed.

Lemma exec_add_sp (k : unit -> M vm A) d :
  0 <= sp + d < 2 ^ 64 -> bind (add_sp d) k (mkVM l sp p ls h o) = k tt (mkVM l (sp + d) p ls h o).
Proof. intros Hd. unfold bind, add_sp, modify, with_sp. cbn. by rewrite wrapU_small. Qed.

Lemma exec_get_sp (k : Z -> M vm A) : bind get_sp k (mkVM l sp p ls h o) = k sp (mkVM l sp p ls h o).
Proof. done. Qed.

Lemma exec_add_pc (k : unit -> M vm A) d :
  bind (add_pc d) k (mkVM l sp p ls h o) = k tt (mkVM l sp (u64 (p + d)) ls h o).
Proof. done. Qed.

Lemma exec_get_local (k : Z -> M vm A) i x :
  get_var ls i = Some x -> bind (get_local i) k (mkVM l sp p ls h o) = k x (mkVM l sp p ls h o).
Proof.
  unfold get_var, get_local, bind, get, lift, nth_res. cbn [locals].
  destruct (i <? 0); [done|]. by intros ->.
Qed.

Lemma exec_set_local (k : unit -> M vm A) i x ls' :
  set_var ls i x = Some ls' ->
  bind (set_local i x) k (mkVM l sp p ls h o) = k tt (mkVM l sp p ls' h o).
Proof.
  unfold set_var, set_local, bind, get, lift, upd_res. cbn [locals].
  destruct (_ || _); [done|]. by intros [= <-].
Qed.

Lemma exec_code (m : method_t) (k : Z -> M vm A) d b :
  0 <= p + d < 2 ^ 64 -> byte (code (mcode m)) (p + d) = Some b ->
  bind (code_byte m d) k (mkVM l sp p ls h o) = k b (mkVM l sp p ls h o).
Proof.
  intros Hd. unfold byte, code_byte, bind, get_pc, gets, lift, nth_res. cbn [pc].
  rewrite wrapU_small by done. destruct (p + d <? 0); [done|]. by intros ->.
Qed.

Lemma exec_lift {B} (r : res B) (k : B -> M vm A) x v : r = Ok x -> bind (lift r) k v = k x v.
Proof. intros ->. done. Qed.
End Exec.

(** ** Bytes *)

Definition bytes_ok (c : list Z) : Prop := Forall (fun b => 0 <= b < 256) c.

Lemma byte_range c p b : bytes_ok c -> byte c p = Some b -> 0 <= b < 256 /\ 0 <= p < Z.of_nat (length c).
Proof.
  intros Hc. unfold byte. destruct (Z.ltb_spec p 0); [done|]. intros Hb.
  split; [by eapply Forall_lookup_1 in Hc|]. apply lookup_lt_Some in Hb. lia.
Qed.

(** Two bytes put together with shifts and with arithmetic. *)
Lemma lor_shift8 a b : 0 <= a < 256 -> 0 <= b < 256 -> Z.lor (Z.shiftl a 8) b = 256 * a + b.
Proof.
  intros Ha Hb. rewrite Z.shiftl_mul_pow2 by lia. change (2 ^ 8) with 256. rewrite (Z.mul_comm a).
  symmetry. apply Z.add_nocarry_lor.
  replace (256 * a) with (Z.shiftl a 8) by (rewrite Z.shiftl_mul_pow2 by lia; lia).
  apply Z.bits_inj'. intros i Hi. rewrite Z.land_spec, Z.bits_0, Z.shiftl_spec by done.
  destruct (Z.ltb_spec i 8); [rewrite (Z.testbit_neg_r a) by lia; done|].
  rewrite (Z.bits_above_log2 b i); [by rewrite andb_false_r|lia|].
  destruct (decide (b = 0)) as [->|]; [cbn; lia|]. apply Z.log2_lt_pow2; [lia|].
  apply Z.lt_le_trans with (2 ^ 8); [lia|]. apply Z.pow_le_mono_r; lia.
Qed.

(** ** The simulation *)

(** What the reader guarantees about a method. *)
Record wf_method (m : method_t) : Prop := {
  wf_length : code_length (mcode m) = Z.of_nat (length (code (mcode m)));
  wf_code : bytes_ok (code (mcode m));
  wf_size : Z.of_nat (length (code (mcode m))) < 2 ^ 32;
  wf_stack : 0 <= max_stack (mcode m) < 2 ^ 16;
  wf_locals : 0 <= max_locals (mcode m)
}.

Definition c_arrays (h : list (list Z)) : heap_t := (fun a => Z.of_nat (length a) :: a) <$> h.

Section Sim.
Variable cls : class_file_t.
Variable m : method_t.
Hypothesis wf : wf_method m.

Abbreviation N := (Z.to_nat (max_stack (mcode m))).

(** The C state [v] represents the abstract frame [s]. *)
Definition R (s : frame) (v : vm) : Prop :=
  stk N (stack v) (ops s) /\ stack_p v = Z.of_nat (length (ops s)) /\
  pc v = u64 (at_pc s) /\ locals v = vars s /\ heap v = c_arrays (arrays s) /\ out v = printed s.

(** After the instruction the loop of execute() increments the counter. *)
Definition lands (r : res (unit * vm)) (s : frame) : Prop :=
  exists v, r = Ok (tt, v) /\ R s (with_pc (u64 (pc v + 1)) v).

Lemma N_small : Z.of_nat N < 2 ^ 16.
Proof. pose proof (wf_stack _ wf). lia. Qed.

Lemma pc_next p d : 0 <= p < 2 ^ 32 -> u64 (u64 (p + d) + 1) = u64 (p + (d + 1)).
Proof. intros. unfold wrapU. rewrite Zplus_mod_idemp_l. f_equal. lia. Qed.

Context (vs : list Z) (p : Z) (h : list (list Z)) (o : list Z).
Hypothesis Hp : 0 <= p < 2 ^ 32.

Abbreviation V l st := (mkVM l (Z.of_nat (length st)) p vs (c_arrays h) o).

(** Pushing a value and moving on by [d] bytes. *)
Lemma sim_push l st x d st' :
  stk N l st -> push (max_stack (mcode m)) x st = Some st' ->
  lands ((set_stack (Z.of_nat (length st)) x ;;; add_sp 1 ;;; add_pc d) (V l st))
        (mkFrame st' vs (p + (d + 1)) h o).
Proof.
  intros Hs Hpush. unfold push in Hpush. pose proof N_small. pose proof (wf_stack _ wf).
  destruct (Z.ltb_spec (Z.of_nat (length st)) (max_stack (mcode m))) as [Hlt|]; [|done]. simplify_eq.
  pose proof Hs as [Hl _]. rewrite (exec_set N) with (j := length st) by (done || lia).
  rewrite exec_add_sp by lia. eexists. split; [reflexivity|].
  split; [by apply stk_push; [|lia]|]. cbn [stack_p ops length with_pc pc].
  split; [lia|]. split; [by apply pc_next|done].
Qed.

(** The same for handlers that do not touch the counter themselves. *)
Lemma sim_push0 l st x st' :
  stk N l st -> push (max_stack (mcode m)) x st = Some st' ->
  lands ((set_stack (Z.of_nat (length st)) x ;;; add_sp 1) (V l st)) (mkFrame st' vs (p + 1) h o).
Proof.
  intros Hs Hpush. destruct (sim_push l st x 0 st' Hs Hpush) as (v & E & HR). revert E.
  unfold bind. destruct (set_stack _ _ _) as [[[] v0]|]; [|done]. unfold add_sp, add_pc, modify.
  intros [= <-]. eexists. split; [reflexivity|]. destruct HR as (H1 & H2 & H3 & H4).
  split; [done|]. split; [done|]. split; [|done]. revert H3. cbn [pc with_pc with_sp at_pc].
  unfold wrapU. rewrite Z.add_0_r, Zplus_mod_idemp_l. done.
Qed.

Lemma sim_load l st i x d st' :
  stk N l st -> get_var vs i = Some x -> push (max_stack (mcode m)) x st = Some st' ->
  lands ((push_local i ;;; add_pc d) (V l st)) (mkFrame st' vs (p + (d + 1)) h o).
Proof.
  intros Hs Hx Hpush. unfold push_local. rewrite bind_bind, exec_get_sp, bind_bind.
  erewrite exec_get_local by done. rewrite bind_bind. by apply sim_push.
Qed.

Lemma sim_load0 l st i x st' :
  stk N l st -> get_var vs i = Some x -> push (max_stack (mcode m)) x st = Some st' ->
  lands (push_local i (V l st)) (mkFrame st' vs (p + 1) h o).
Proof.
  intros Hs Hx Hpush. unfold push_local. rewrite exec_get_sp. erewrite exec_get_local by done.
  by apply sim_push0.
Qed.

Lemma pop_local_exec l st i x vs' :
  stk N l (x :: st) -> set_var vs i x = Some vs' ->
  exists l', stk N l' st /\
    pop_local i (V l (x :: st)) = Ok (tt, mkVM l' (Z.of_nat (length st)) p vs' (c_arrays h) o).
Proof.
  intros Hs Hx. pose proof N_small. pose proof (stk_length _ _ _ Hs) as Hlen. pose proof Hs as [Hl _].
  cbn [length] in *. unfold pop_local. rewrite exec_get_sp.
  erewrite (exec_get N) with (j := length st) by (done || lia || by apply (stk_lookup _ _ [] _ _ Hs)).
  erewrite exec_set_local by done. rewrite (exec_set N) with (j := length st) by (done || lia).
  unfold add_sp, modify, with_sp. cbn [stack stack_p pc locals heap out].
  rewrite wrapU_small by lia. exists (<[length st := 0]> l).
  split; [apply stk_write; [by apply (stk_drop _ _ [x])|done]|]. do 3 f_equal. lia.
Qed.

Lemma sim_store l st i x d vs' :
  stk N l (x :: st) -> set_var vs i x = Some vs' ->
  lands ((pop_local i ;;; add_pc d) (V l (x :: st))) (mkFrame st vs' (p + (d + 1)) h o).
Proof.
  intros Hs Hx. destruct (pop_local_exec l st i x vs' Hs Hx) as (l' & Hs' & E).
  rewrite (bind_ok _ _ _ _ _ E). eexists. split; [reflexivity|]. split; [done|]. split; [done|].
  split; [by apply pc_next|done].
Qed.

Lemma sim_store0 l st i x vs' :
  stk N l (x :: st) -> set_var vs i x = Some vs' ->
  lands (pop_local i (V l (x :: st))) (mkFrame st vs' (p + 1) h o).
Proof.
  intros Hs Hx. destruct (pop_local_exec l st i x vs' Hs Hx) as (l' & Hs' & E).
  rewrite E. eexists. split; [reflexivity|]. done.
Qed.
(** *** Arithmetic *)

Definition bop_code (b : bop) : Z :=
  match b with
  | Add => i_iadd | Sub => i_isub | Mul => i_imul | Div => i_idiv | Rem => i_irem
  | Shl => i_ishl | Shr => i_ishr | Ushr => i_iushr | And => i_iand | Or => i_ior | Xor => i_ixor
  end.

Lemma binop_agrees b x y z : jbin b x y = Some z -> binop (bop_code b) x y = Ok z.
Proof.
  intros E. destruct b; cbn [jbin bop_code] in *; unfold binop; cbn [Z.eqb Pos.eqb i_iadd i_isub i_imul
    i_idiv i_irem i_ineg i_ishl i_ishr i_iushr i_iand i_ior i_ixor]; try congruence.
  - unfold quot_res. destruct (y =? 0); [done|]. destruct ((x =? - 2 ^ 31) && (y =? -1)); cbn [negb andb] in *; congruence.
  - unfold rem_res. destruct (y =? 0); [done|]. destruct ((x =? - 2 ^ 31) && (y =? -1)); cbn [negb andb] in *; congruence.
  - unfold shift_ok. destruct ((0 <=? y) && (y <? 32)) eqn:E2; [|done]. cbn.
    rewrite Z.shiftl_mul_pow2 by lia. congruence.
  - unfold shift_ok. destruct ((0 <=? y) && (y <? 32)) eqn:E2; [|done]. cbn.
    rewrite Z.shiftr_div_pow2 by lia. congruence.
  - unfold shift_ok. destruct ((0 <=? y) && (y <? 32)) eqn:E2; [|done]. cbn.
    rewrite Z.shiftr_div_pow2 by lia. congruence.
Qed.

Lemma bop_code_not_neg b : (bop_code b =? i_ineg) = false.
Proof. by destruct b. Qed.

Lemma sim_bin l st b x y z :
  stk N l (y :: x :: st) -> jbin b x y = Some z ->
  lands (add_to_xor (bop_code b) (V l (y :: x :: st))) (mkFrame (z :: st) vs (p + 1) h o).
Proof.
  intros Hs Hz. pose proof N_small. pose proof (stk_length _ _ _ Hs) as Hlen. pose proof Hs as [Hl _].
  cbn [length] in *. unfold add_to_xor. rewrite exec_get_sp, bop_code_not_neg.
  erewrite (exec_get N) with (j := length st) by (done || lia || by apply (stk_lookup _ _ [y] _ _ Hs)).
  erewrite (exec_get N) with (j := S (length st)) by (done || lia || by apply (stk_lookup _ _ [] _ (x :: st) Hs)).
  rewrite (exec_lift _ _ z) by (by apply binop_agrees).
  rewrite (exec_set N) with (j := length st) by (done || lia).
  rewrite (exec_set N) with (j := S (length st)) by (rewrite ?length_insert; (done || lia)).
  unfold add_sp, modify. eexists. split; [reflexivity|].
  split; [|split; [cbn; rewrite wrapU_small; lia|done]].
  cbn [stack ops with_pc with_sp]. apply stk_write; [|cbn; lia]. apply (stk_replace _ _ _ x).
  by apply (stk_drop _ _ [y]).
Qed.

Lemma sim_neg l st x :
  stk N l (x :: st) ->
  lands (add_to_xor i_ineg (V l (x :: st))) (mkFrame (s32 (- x) :: st) vs (p + 1) h o).
Proof.
  intros Hs. pose proof N_small. pose proof (stk_length _ _ _ Hs) as Hlen. pose proof Hs as [Hl _].
  cbn [length] in *. unfold add_to_xor. rewrite exec_get_sp, Z.eqb_refl.
  erewrite (exec_get N) with (j := length st) by (done || lia || by apply (stk_lookup _ _ [] _ _ Hs)).
  rewrite (set_stack_ok N) with (j := length st) by (done || lia).
  eexists. split; [reflexivity|]. split; [|done]. by apply (stk_replace _ _ _ x).
Qed.

Lemma sim_inc l st i z x vs' :
  stk N l st -> get_var vs i = Some x -> set_var vs i (s32 (x + z)) = Some vs' ->
  lands ((y <- get_local i;; set_local i (s32 (y + z)) ;;; add_pc 2) (V l st)) (mkFrame st vs' (p + 3) h o).
Proof.
  intros Hs Hx Hv. erewrite exec_get_local by done. erewrite exec_set_local by done.
  eexists. split; [reflexivity|]. split; [done|]. split; [done|]. split; [by apply pc_next|done].
Qed.

(** *** Jumps *)

Lemma code_short_exec {A} (k : Z -> M vm A) l (st : list Z) off :
  s2_at (code (mcode m)) (p + 1) = Some off ->
  bind (code_short m) k (V l st) = k off (V l st).
Proof.
  unfold s2_at, u2_at, code_short. intros E.
  destruct (byte _ (p + 1)) as [b1|] eqn:E1; [|done]. cbn in E.
  destruct (byte _ (p + 1 + 1)) as [b2|] eqn:E2; [|done]. cbn in E. simplify_eq.
  replace (p + 1 + 1) with (p + 2) in E2 by lia.
  pose proof (byte_range _ _ _ (wf_code _ wf) E1) as [? _].
  pose proof (byte_range _ _ _ (wf_code _ wf) E2) as [? _].
  rewrite bind_bind. erewrite exec_code by (done || lia). rewrite bind_bind.
  erewrite exec_code by (done || lia). rewrite bind_ret, lor_shift8 by done. done.
Qed.

Lemma pc_jump off : u64 (u64 (p + (off - 1)) + 1) = u64 (p + off).
Proof. rewrite pc_next by done. f_equal. lia. Qed.

Definition if_code (c : cmp) : Z :=
  match c with CEq => i_ifeq | CNe => i_ifne | CLt => i_iflt | CGe => i_ifge | CGt => i_ifgt | CLe => i_ifle end.
Definition icmp_code (c : cmp) : Z :=
  match c with
  | CEq => i_if_icmpeq | CNe => i_if_icmpne | CLt => i_if_icmplt
  | CGe => i_if_icmpge | CGt => i_if_icmpgt | CLe => i_if_icmple
  end.

Lemma sim_if l st c off x :
  stk N l (x :: st) -> s2_at (code (mcode m)) (p + 1) = Some off ->
  lands (jump (if_code c) m (V l (x :: st)))
        (mkFrame st vs (if jcmp c x 0 then p + off else p + 3) h o).
Proof.
  intros Hs Hoff. pose proof N_small. pose proof (stk_length _ _ _ Hs) as Hlen. pose proof Hs as [Hl _].
  unfold jump. erewrite code_short_exec by done. rewrite exec_get_sp. cbn [length] in *.
  erewrite (exec_get N) with (j := length st) by (done || lia || by apply (stk_lookup _ _ [] _ _ Hs)).
  replace (i_if_icmpeq <=? if_code c) with false by (by destruct c).
  rewrite bind_bind, (exec_set N) with (j := length st) by (done || lia).
  rewrite bind_bind, exec_add_sp by lia. rewrite bind_ret.
  rewrite (exec_lift _ _ (jcmp c x 0)) by (by destruct c).
  assert (Hs' : stk N (<[length st := 0]> l) st).
  { apply stk_write; [by apply (stk_drop _ _ [x])|done]. }
  destruct (jcmp c x 0); eexists; (split; [reflexivity|]); (split; [exact Hs'|]);
    (split; [cbn; lia|]); (split; [|done]); [apply pc_jump|by apply pc_next].
Qed.

Lemma sim_icmp l st c off x y :
  stk N l (y :: x :: st) -> s2_at (code (mcode m)) (p + 1) = Some off ->
  lands (jump (icmp_code c) m (V l (y :: x :: st)))
        (mkFrame st vs (if jcmp c x y then p + off else p + 3) h o).
Proof.
  intros Hs Hoff. pose proof N_small. pose proof (stk_length _ _ _ Hs) as Hlen. pose proof Hs as [Hl _].
  unfold jump. erewrite code_short_exec by done. rewrite exec_get_sp. cbn [length] in *.
  erewrite (exec_get N) with (j := S (length st)) by (done || lia || by apply (stk_lookup _ _ [] _ (x :: st) Hs)).
  replace (i_if_icmpeq <=? icmp_code c) with true by (by destruct c). rewrite bind_bind.
  erewrite (exec_get N) with (j := length st) by (done || lia || by apply (stk_lookup _ _ [y] _ _ Hs)).
  rewrite bind_bind.
  erewrite (exec_get N) with (j := S (length st)) by (done || lia || by apply (stk_lookup _ _ [] _ (x :: st) Hs)).
  rewrite bind_bind, (exec_set N) with (j := length st) by (done || lia).
  rewrite bind_bind, (exec_set N) with (j := S (length st)) by (rewrite ?length_insert; (done || lia)).
  rewrite bind_bind, exec_add_sp by lia. rewrite bind_ret.
  rewrite (exec_lift _ _ (jcmp c x y)) by (by destruct c).
  assert (Hs' : stk N (<[S (length st) := 0]> (<[length st := 0]> l)) st).
  { apply stk_write; [|lia]. apply stk_write; [by apply (stk_drop _ _ [y; x])|done]. }
  destruct (jcmp c x y); eexists; (split; [reflexivity|]); (split; [exact Hs'|]);
    (split; [cbn; lia|]); (split; [|done]); [apply pc_jump|by apply pc_next].
Qed.

Lemma sim_goto l st off :
  stk N l st -> s2_at (code (mcode m)) (p + 1) = Some off ->
  lands (go_to m (V l st)) (mkFrame st vs (p + off) h o).
Proof.
  intros Hs Hoff. unfold go_to. erewrite code_short_exec by done.
  eexists. split; [reflexivity|]. split; [done|]. split; [done|]. split; [apply pc_jump|done].
Qed.
(** *** Stack, printing and arrays *)

Lemma sim_dup l st x st' :
  stk N l (x :: st) -> push (max_stack (mcode m)) x (x :: st) = Some st' ->
  lands (dup (V l (x :: st))) (mkFrame st' vs (p + 1) h o).
Proof.
  intros Hs Hpush. pose proof N_small. pose proof (stk_length _ _ _ Hs) as Hlen. pose proof Hs as [Hl _].
  unfold dup. rewrite exec_get_sp.
  erewrite (exec_get N) with (j := length st) by (done || cbn [length] in *; lia || by apply (stk_lookup _ _ [] _ _ Hs)).
  by apply sim_push0.
Qed.

Lemma sim_println l st x :
  stk N l (x :: st) -> Z.of_nat (length (x :: st)) < max_stack (mcode m) ->
  lands (invoke_virtual (V l (x :: st))) (mkFrame st vs (p + 3) h (x :: o)).
Proof.
  intros Hs Hlt. pose proof N_small. pose proof (stk_length _ _ _ Hs) as Hlen. pose proof Hs as [Hl _].
  cbn [length] in *. unfold invoke_virtual. rewrite exec_get_sp.
  rewrite (exec_set N) with (j := S (length st)) by (done || lia).
  assert (Hs' : stk N (<[S (length st) := 0]> l) (x :: st)) by (apply stk_write; [done|cbn; lia]).
  rewrite exec_add_sp by lia. rewrite exec_get_sp.
  erewrite (exec_get N) with (j := length st) by (rewrite ?length_insert; done || lia || by apply (stk_lookup _ _ [] _ _ Hs')).
  unfold bind, modify. eexists. split; [reflexivity|].
  split; [by apply (stk_drop _ _ [x])|]. split; [cbn; lia|]. split; [by apply pc_next|done].
Qed.

Lemma length_c_arrays : length (c_arrays h) = length h.
Proof. apply length_fmap. Qed.

Lemma c_arrays_get r a : get_arr h r = Some a -> heap_get (c_arrays h) r = Ok (Z.of_nat (length a) :: a).
Proof.
  unfold get_arr, heap_get. destruct (r <? 0); [done|]. intros E.
  assert (c_arrays h !! Z.to_nat r = Some (Z.of_nat (length a) :: a)) as ->; [|done].
  unfold c_arrays. etransitivity; [apply list_lookup_fmap|]. by rewrite E.
Qed.

Lemma exec_array {A} (k : list Z -> M vm A) l sp ls r a :
  get_arr h r = Some a ->
  bind (get_array r) k (mkVM l sp p ls (c_arrays h) o) = k (Z.of_nat (length a) :: a) (mkVM l sp p ls (c_arrays h) o).
Proof.
  intros E. unfold get_array. rewrite bind_bind, bind_gets. cbn [heap].
  by rewrite (exec_lift _ _ _ _ (c_arrays_get _ _ E)).
Qed.

Lemma sim_newarray l st n :
  stk N l (n :: st) -> 0 <= n < 2 ^ 31 - 1 -> Z.of_nat (length h) < 2 ^ 31 ->
  lands (newarray (V l (n :: st)))
        (mkFrame (Z.of_nat (length h) :: st) vs (p + 2) (h ++ [replicate (Z.to_nat n) 0]) o).
Proof.
  intros Hs Hn Hh. pose proof N_small. pose proof (stk_length _ _ _ Hs) as Hlen. pose proof Hs as [Hl _].
  cbn [length] in *. unfold newarray. rewrite exec_get_sp.
  erewrite (exec_get N) with (j := length st) by (done || lia || by apply (stk_lookup _ _ [] _ _ Hs)).
  rewrite (proj2 (Z.ltb_ge _ _)), (proj2 (Z.leb_gt _ _)) by lia. cbn [orb]. rewrite bind_gets.
  unfold heap_add. cbn [heap]. unfold bind at 1, modify, with_heap at 1.
  cbn [stack stack_p pc locals heap out]. rewrite length_c_arrays.
  rewrite wrapS_small by lia. rewrite (exec_set N) with (j := length st) by (done || lia).
  eexists. split; [reflexivity|]. split; [by apply (stk_replace _ _ _ n)|].
  split; [done|]. split; [by apply pc_next|]. split; [done|]. split; [|done].
  cbn [heap with_pc arrays]. unfold c_arrays. etransitivity; [|symmetry; apply fmap_app]. f_equal.
  cbn. rewrite length_replicate. by rewrite Z2Nat.id by lia.
Qed.

Lemma sim_arraylength l st r a :
  stk N l (r :: st) -> get_arr h r = Some a ->
  lands (arraylength (V l (r :: st))) (mkFrame (Z.of_nat (length a) :: st) vs (p + 1) h o).
Proof.
  intros Hs Ha. pose proof N_small. pose proof (stk_length _ _ _ Hs) as Hlen. pose proof Hs as [Hl _].
  cbn [length] in *. unfold arraylength. rewrite exec_get_sp.
  erewrite (exec_get N) with (j := length st) by (done || lia || by apply (stk_lookup _ _ [] _ _ Hs)).
  erewrite exec_array by done. rewrite (exec_lift _ _ (Z.of_nat (length a))) by done.
  rewrite (set_stack_ok N) with (j := length st) by (done || lia).
  eexists. split; [reflexivity|]. split; [|done]. by apply (stk_replace _ _ _ r).
Qed.

(** Element [j] of an array is element [j + 1] of its C representation. *)
Lemma nth_elem a j x : get_var a j = Some x -> nth_res (Z.of_nat (length a) :: a) (j + 1) = Ok x.
Proof.
  unfold get_var, nth_res. destruct (Z.ltb_spec j 0); [done|].
  rewrite (proj2 (Z.ltb_ge _ _)) by lia. replace (Z.to_nat (j + 1)) with (S (Z.to_nat j)) by lia.
  change ((Z.of_nat (length a) :: a) !! S (Z.to_nat j)) with (a !! Z.to_nat j). by intros ->.
Qed.

Lemma upd_elem a j x a' :
  set_var a j x = Some a' ->
  upd_res (Z.of_nat (length a) :: a) (j + 1) x = Ok (Z.of_nat (length a') :: a').
Proof.
  unfold set_var, upd_res. destruct (Z.ltb_spec j 0); [done|]. cbn [orb].
  destruct (Z.leb_spec (Z.of_nat (length a)) j); [done|]. intros [= <-]. cbn [length].
  rewrite (proj2 (Z.ltb_ge _ _)), (proj2 (Z.leb_gt _ _)) by lia. cbn [orb].
  replace (Z.to_nat (j + 1)) with (S (Z.to_nat j)) by lia. by rewrite length_insert.
Qed.

Lemma sim_iaload l st r j a x :
  stk N l (j :: r :: st) -> get_arr h r = Some a -> get_var a j = Some x ->
  lands (iaload (V l (j :: r :: st))) (mkFrame (x :: st) vs (p + 1) h o).
Proof.
  intros Hs Ha Hx. pose proof N_small. pose proof (stk_length _ _ _ Hs) as Hlen. pose proof Hs as [Hl _].
  cbn [length] in *. unfold iaload. rewrite exec_get_sp.
  erewrite (exec_get N) with (j := length st) by (done || lia || by apply (stk_lookup _ _ [j] _ _ Hs)).
  erewrite exec_array by done.
  erewrite (exec_get N) with (j := S (length st)) by (done || lia || by apply (stk_lookup _ _ [] _ (r :: st) Hs)).
  rewrite (exec_lift _ _ x) by (by apply nth_elem).
  rewrite (exec_set N) with (j := S (length st)) by (done || lia).
  rewrite (exec_set N) with (j := length st) by (rewrite ?length_insert; (done || lia)).
  rewrite exec_add_sp by lia.
  rewrite (exec_set N) with (j := length st) by (rewrite ?length_insert; (done || lia)).
  unfold add_sp, modify. eexists. split; [reflexivity|].
  split; [|split; [cbn; rewrite wrapU_small; lia|done]]. cbn [stack with_pc with_sp ops].
  apply stk_push; [|lia]. apply stk_write; [|done]. apply stk_write; [|lia].
  by apply (stk_drop _ _ [j; r]).
Qed.

Lemma sim_iastore l st r j x a a' :
  stk N l (x :: j :: r :: st) -> get_arr h r = Some a -> set_var a j x = Some a' ->
  lands (iastore (V l (x :: j :: r :: st))) (mkFrame st vs (p + 1) (<[Z.to_nat r := a']> h) o).
Proof.
  intros Hs Ha Hx. pose proof N_small. pose proof (stk_length _ _ _ Hs) as Hlen. pose proof Hs as [Hl _].
  cbn [length] in *. unfold iastore. rewrite exec_get_sp.
  erewrite (exec_get N) with (j := length st) by (done || lia || by apply (stk_lookup _ _ [x; j] _ _ Hs)).
  erewrite exec_array by done.
  erewrite (exec_get N) with (j := S (length st)) by (done || lia || by apply (stk_lookup _ _ [x] _ (r :: st) Hs)).
  erewrite (exec_get N) with (j := S (S (length st))) by (done || lia || by apply (stk_lookup _ _ [] _ (j :: r :: st) Hs)).
  rewrite (exec_lift _ _ (Z.of_nat (length a') :: a')) by (by apply upd_elem).
  unfold bind at 1, modify at 1, with_heap at 1. cbn [stack stack_p pc locals heap out].
  rewrite (exec_set N) with (j := S (S (length st))) by (done || lia).
  rewrite (exec_set N) with (j := S (length st)) by (rewrite ?length_insert; (done || lia)).
  rewrite (exec_set N) with (j := length st) by (rewrite ?length_insert; (done || lia)).
  unfold add_sp, modify. eexists. split; [reflexivity|].
  split; [|split; [cbn; rewrite wrapU_small; lia|]].
  - cbn [stack with_pc with_sp ops]. apply stk_write; [|lia]. apply stk_write; [|lia]. apply stk_write; [|lia].
    by apply (stk_drop _ _ [x; j; r]).
  - split; [done|]. split; [done|]. split; [|done].
    cbn [heap with_pc with_sp arrays]. unfold c_arrays. symmetry.
    apply (list_fmap_insert (fun a : list Z => Z.of_nat (length a) :: a) h (Z.to_nat r) a').
Qed.
(** *** Instructions with operands in the code *)

Lemma sim_bipush l st b st' :
  stk N l st -> byte (code (mcode m)) (p + 1) = Some b ->
  push (max_stack (mcode m)) (s8 b) st = Some st' ->
  lands (bi_push m (V l st)) (mkFrame st' vs (p + 2) h o).
Proof.
  intros Hs Hb Hpush. unfold bi_push. rewrite exec_get_sp. erewrite exec_code by (done || lia).
  by apply (sim_push l st _ 1).
Qed.

Lemma sim_sipush l st x st' :
  stk N l st -> s2_at (code (mcode m)) (p + 1) = Some x ->
  push (max_stack (mcode m)) x st = Some st' ->
  lands (si_push m (V l st)) (mkFrame st' vs (p + 3) h o).
Proof.
  intros Hs Hx Hpush. unfold si_push. rewrite exec_get_sp. erewrite code_short_exec by done.
  by apply (sim_push l st _ 2).
Qed.

Lemma sim_ldc l st i x st' :
  stk N l st -> byte (code (mcode m)) (p + 1) = Some i -> int_constant (constant_pool cls) i = Some x ->
  push (max_stack (mcode m)) x st = Some st' ->
  lands (ldc cls m (V l st)) (mkFrame st' vs (p + 2) h o).
Proof.
  intros Hs Hi Hx Hpush. unfold ldc. rewrite exec_get_sp. erewrite exec_code by (done || lia).
  erewrite exec_lift; [by apply (sim_push l st _ 1)|].
  unfold int_constant in Hx. destruct (Z.ltb_spec i 1); [done|].
  rewrite (proj2 (Z.ltb_ge _ _)) by lia. destruct (constant_pool cls !! _) as [[]|]; try done. congruence.
Qed.

Section Opcode.
Variable op : Z.
Hypothesis Hop : byte (code (mcode m)) p = Some op.

Lemma exec_opcode {A} (k : Z -> M vm A) l (st : list Z) :
  bind (code_byte m 0) k (V l st) = k op (V l st).
Proof. apply exec_code; rewrite Z.add_0_r; [lia|done]. Qed.

Lemma sim_iconst l st st' :
  stk N l st -> push (max_stack (mcode m)) (op - 3) st = Some st' ->
  lands (i_const m (V l st)) (mkFrame st' vs (p + 1) h o).
Proof.
  intros Hs Hpush. unfold i_const. rewrite exec_get_sp, exec_opcode. by apply sim_push0.
Qed.

Lemma sim_load_n (f : method_t -> M vm unit) l st i x st' :
  f m = (b <- code_byte m 0;; push_local (i b)) ->
  stk N l st -> get_var vs (i op) = Some x -> push (max_stack (mcode m)) x st = Some st' ->
  lands (f m (V l st)) (mkFrame st' vs (p + 1) h o).
Proof. intros -> Hs Hx Hpush. rewrite exec_opcode. by eapply sim_load0. Qed.

Lemma sim_store_n (f : method_t -> M vm unit) l st i x vs' :
  f m = (b <- code_byte m 0;; pop_local (i b)) ->
  stk N l (x :: st) -> set_var vs (i op) x = Some vs' ->
  lands (f m (V l (x :: st))) (mkFrame st vs' (p + 1) h o).
Proof. intros -> Hs Hx. rewrite exec_opcode. by eapply sim_store0. Qed.
End Opcode.

Lemma sim_load_i (f : method_t -> M vm unit) l st i x st' :
  f m = (i <- code_byte m 1;; push_local i ;;; add_pc 1) ->
  stk N l st -> byte (code (mcode m)) (p + 1) = Some i -> get_var vs i = Some x ->
  push (max_stack (mcode m)) x st = Some st' ->
  lands (f m (V l st)) (mkFrame st' vs (p + 2) h o).
Proof.
  intros -> Hs Hi Hx Hpush. erewrite exec_code by (done || lia). by apply (sim_load l st i x 1).
Qed.

Lemma sim_store_i (f : method_t -> M vm unit) l st i x vs' :
  f m = (i <- code_byte m 1;; pop_local i ;;; add_pc 1) ->
  stk N l (x :: st) -> byte (code (mcode m)) (p + 1) = Some i -> set_var vs i x = Some vs' ->
  lands (f m (V l (x :: st))) (mkFrame st vs' (p + 2) h o).
Proof.
  intros -> Hs Hi Hx. erewrite exec_code by (done || lia). by apply (sim_store l st i x 1).
Qed.

Lemma sim_iinc l st i b x vs' :
  stk N l st -> byte (code (mcode m)) (p + 1) = Some i -> byte (code (mcode m)) (p + 2) = Some b ->
  get_var vs i = Some x -> set_var vs i (s32 (x + s8 b)) = Some vs' ->
  lands (i_inc m (V l st)) (mkFrame st vs' (p + 3) h o).
Proof.
  intros Hs Hi Hb Hx Hv. unfold i_inc. erewrite exec_code by (done || lia).
  erewrite exec_code by (done || lia). by eapply sim_inc.
Qed.
End Sim.
