(* ===== verification/JvmStep.v ===== *)
(** * One instruction and whole runs of the interpreter

    Assembles the per-instruction lemmas of [JvmRefine] into the simulation of
    a step and, by induction on the length of the run, of complete executions
    with their nested calls. *)
From stdpp Require Import prelude gmap list.
From Stdlib Require Import ZArith Lia Zquot.
From S2P Require Import Prelude ReadClass Jvm JvmSem JvmRefine.
Open Scope Z_scope.
Open Scope c_scope.

(** Splits on the opcode and drops the bytes that are not instructions. *)
Ltac split_opcode op Hd :=
  destruct op as [|op|op]; [|repeat (destruct op as [op|op|]; try discriminate Hd)|discriminate Hd].

(** Opens the sequences of partial lookups in the hypotheses. *)
Ltac open_binds :=
  repeat match goal with
         | H : (_ ≫= _) = Some _ |- _ => apply bind_Some in H as (? & ? & H)
         | H : Some _ = Some _ |- _ => injection H as H; subst
         | H : (_, _) = (_, _) |- _ => injection H as ? ?; subst
         end.

(** Chooses the handler of a known opcode. *)
Ltac select_handler :=
  match goal with
  | |- lands _ (?f _) _ =>
      let f' := eval cbv beta iota zeta delta
    [step_instr between andb Z.leb Z.eqb Z.compare Pos.compare Pos.compare_cont Pos.eqb
     i_nop i_iconst_m1 i_iconst_0 i_iconst_5 i_bipush i_sipush i_ldc i_iload i_aload i_iload_0 i_iload_3
     i_aload_0 i_aload_3 i_iaload i_istore i_astore i_istore_0 i_istore_3 i_astore_0 i_astore_3 i_iastore
     i_dup i_iadd i_isub i_imul i_idiv i_irem i_ineg i_ishl i_ishr i_iushr i_iand i_ior i_ixor i_iinc
     i_ifeq i_ifne i_iflt i_ifge i_ifgt i_ifle i_if_icmpeq i_if_icmpne i_if_icmplt i_if_icmpge i_if_icmpgt
     i_if_icmple i_goto i_ireturn i_areturn i_return i_getstatic i_invokevirtual i_invokestatic i_newarray
     i_arraylength] in f in
      change f with f'
  end.

(** Takes apart the operand stack and the results of an instruction. *)
Ltac open_step Hst st :=
  cbn [step at_pc] in Hst; try discriminate Hst;
  repeat match type of Hst with
         | context [match ?l with [] => _ | _ => _ end] => is_var l; destruct l as [|? ?]; try discriminate Hst
         end;
  open_binds.

Ltac sim_bin_with b' :=
  eapply sim_bin with (b := b'); [eassumption..|first [eassumption|reflexivity]].

Lemma step_sim cls m (wf : wf_method m) s v op i len s' :
  R m s v -> 0 <= at_pc s < 2 ^ 32 ->
  byte (code (mcode m)) (at_pc s) = Some op ->
  decode (constant_pool cls) (code (mcode m)) (at_pc s) = Some (i, len) ->
  step (max_stack (mcode m)) i len s = Some s' ->
  lands m (step_instr cls m op v) s'.
Proof.
  intros HR Hp Hop Hd Hst. destruct s as [st vs p h o], v as [l sp vp ls hp ov].
  destruct HR as (Hs & E1 & E2 & E3 & E4 & E5). cbn [stack stack_p pc locals heap out ops at_pc vars arrays printed] in *.
  subst. rewrite wrapU_small by lia. unfold decode in Hd. rewrite Hop in Hd. cbn [mbind option_bind] in Hd.
  split_opcode op Hd; open_binds; open_step Hst st; select_handler.
  all: lazymatch goal with
  | |- lands _ (ret tt _) _ => eexists; split; [reflexivity|]; split; [done|]; done
  | |- lands _ (get_static _) _ =>
      eexists; split; [reflexivity|]; split; [done|]; split; [done|]; split; [by apply pc_next|done]
  | |- lands _ (jump ?k _ _) _ =>
      first [eapply sim_if with (c := CEq); eassumption | eapply sim_if with (c := CNe); eassumption
            |eapply sim_if with (c := CLt); eassumption | eapply sim_if with (c := CGe); eassumption
            |eapply sim_if with (c := CGt); eassumption | eapply sim_if with (c := CLe); eassumption
            |eapply sim_icmp with (c := CEq); eassumption | eapply sim_icmp with (c := CNe); eassumption
            |eapply sim_icmp with (c := CLt); eassumption | eapply sim_icmp with (c := CGe); eassumption
            |eapply sim_icmp with (c := CGt); eassumption | eapply sim_icmp with (c := CLe); eassumption]
  | |- lands _ (add_to_xor 116 _) _ => eapply sim_neg; eassumption
  | |- lands _ (add_to_xor ?k _) _ =>
      first [sim_bin_with Add | sim_bin_with Sub | sim_bin_with Mul | sim_bin_with Div | sim_bin_with Rem
            |sim_bin_with Shl | sim_bin_with Shr | sim_bin_with Ushr | sim_bin_with And | sim_bin_with Or
            |sim_bin_with Xor]
  | |- lands _ (i_iload_nums _ _) _ =>
      eapply sim_load_n with (f := i_iload_nums) (i := fun b => b - i_iload_0); [..|eassumption]; done
  | |- lands _ (aload_nums _ _) _ =>
      eapply sim_load_n with (f := aload_nums) (i := fun b => u8 (b - i_aload_0)); [..|eassumption]; done
  | |- lands _ (i_istore_nums _ _) _ =>
      eapply sim_store_n with (f := i_istore_nums) (i := fun b => b - i_istore_0); done
  | |- lands _ (astore_nums _ _) _ =>
      eapply sim_store_n with (f := astore_nums) (i := fun b => u8 (b - i_astore_0)); done
  | |- lands _ (go_to _ _) _ => eapply sim_goto; eassumption
  | |- lands _ (dup _) _ => eapply sim_dup; eassumption
  | |- lands _ (iastore _) _ => eapply sim_iastore; eassumption
  | |- lands _ (iaload _) _ => eapply sim_iaload; eassumption
  | |- lands _ (arraylength _) _ => eapply sim_arraylength; eassumption
  | |- lands _ (bi_push _ _) _ => eapply sim_bipush; eassumption
  | |- lands _ (si_push _ _) _ => eapply sim_sipush; eassumption
  | |- lands _ (ldc _ _ _) _ => eapply sim_ldc; eassumption
  | |- lands _ (i_inc _ _) _ => eapply sim_iinc; eassumption
  | |- lands _ (i_const _ _) _ => eapply sim_iconst; eassumption
  | |- lands _ (i_load _ _) _ => eapply sim_load_i; [..|eassumption|eassumption|eassumption|eassumption]; done
  | |- lands _ (aload _ _) _ => eapply sim_load_i; [..|eassumption|eassumption|eassumption|eassumption]; done
  | |- lands _ (i_store _ _) _ => eapply sim_store_i; [..|eassumption|eassumption|eassumption]; done
  | |- lands _ (astore _ _) _ => eapply sim_store_i; [..|eassumption|eassumption|eassumption]; done
  | _ => idtac
  end.
  - destruct (Z.ltb_spec (Z.of_nat (length (z :: st))) (max_stack (mcode m))); [|done]. simplify_eq.
    by eapply sim_println.
  - destruct (_ && _) eqn:E; [|done]. simplify_eq. eapply sim_newarray; [done..|lia|lia].
Qed.

(** ** Method lookup *)

Record wf_class (cls : class_file_t) : Prop := {
  wf_methods : Forall wf_method (methods cls);
  wf_names : Forall (fun m => no_nul (name m) /\ no_nul (descriptor m)) (methods cls);
  wf_pool : Z.of_nat (length (constant_pool cls)) < 2 ^ 16;
  wf_strings i x : constant_pool cls !! i = Some (CONSTANT_Utf8 x) -> no_nul x
}.

Section Lookup.
Context {cls : class_file_t} (wfc : wf_class cls).

Lemma get_constant_ok i c :
  (i <? 1) = false -> constant_pool cls !! Z.to_nat (i - 1) = Some c ->
  get_constant (constant_pool cls) i = Ok c.
Proof.
  intros Hi Hc. unfold get_constant, constant_pool_size. pose proof (wf_pool _ wfc).
  pose proof (lookup_lt_Some _ _ _ Hc). rewrite wrapU_small by lia.
  apply Z.ltb_ge in Hi. rewrite (proj2 (Z.ltb_lt _ _)), (proj2 (Z.leb_le _ _)) by lia. cbn. by rewrite Hc.
Qed.

Lemma utf8_ok i x : utf8 (constant_pool cls) i = Some x -> get_utf8 (constant_pool cls) i = Ok x /\ no_nul x.
Proof.
  unfold utf8, get_utf8. destruct (i <? 1) eqn:Hi; [done|].
  destruct (constant_pool cls !! _) as [[]|] eqn:E; try done. intros [= ->].
  rewrite (get_constant_ok _ _ Hi E). split; [done|]. by eapply wf_strings.
Qed.

Lemma find_ok nm desc ms m :
  no_nul nm -> no_nul desc -> Forall (fun m => no_nul (name m) /\ no_nul (descriptor m)) ms ->
  snd <$> list_find (fun m => name m = nm /\ descriptor m = desc) ms = Some m ->
  find_method_in nm desc ms = Some m /\ m ∈ ms.
Proof.
  intros Hn Hd. induction 1 as [|a ms [Ha1 Ha2] _ IH]; [done|]. cbn [list_find find_method_in].
  unfold strcmp_eq at 1 2. rewrite !c_str_id by done. destruct (decide _) as [[-> ->]|Hne].
  - rewrite !bool_decide_true by done. cbn. intros [= ->]. split; [done|set_solver].
  - intros E. assert ((bool_decide (name a = nm) && bool_decide (descriptor a = desc)) = false) as ->.
    { apply andb_false_iff. destruct (decide (name a = nm)); [right|left]; apply bool_decide_false; tauto. }
    destruct IH as [? ?]; [|set_solver].
    rewrite <- E. by destruct (list_find _ ms) as [[]|].
Qed.

Lemma resolve_ok i m :
  resolve cls i = Some m ->
  find_method_from_index i cls = Ok (Some m) /\ wf_method m /\ no_nul (descriptor m).
Proof.
  unfold resolve, find_method_from_index, get_method_name_and_type. destruct (i <? 1) eqn:Hi; [done|].
  destruct (constant_pool cls !! _) as [[]|] eqn:E1; try done.
  rewrite (get_constant_ok _ _ Hi E1). cbn [rbind].
  destruct (name_and_type_index <? 1) eqn:Hi2; [done|].
  destruct (constant_pool cls !! Z.to_nat (name_and_type_index - 1)) as [[]|] eqn:E2; try done.
  rewrite (get_constant_ok _ _ Hi2 E2). cbn [rbind].
  intros H. apply bind_Some in H as (nm & Hnm & H). apply bind_Some in H as (desc & Hdesc & H).
  destruct (utf8_ok _ _ Hnm) as [-> Hn1]. destruct (utf8_ok _ _ Hdesc) as [-> Hn2]. cbn [rbind].
  destruct (find_ok _ _ _ _ Hn1 Hn2 (wf_names _ wfc) H) as [Hf Hin].
  unfold find_method. rewrite Hf. split; [done|].
  pose proof (wf_methods _ wfc) as H1. pose proof (wf_names _ wfc) as H2.
  rewrite Forall_forall in H1, H2. split; [by apply H1|by apply H2].
Qed.
End Lookup.

(** ** The number of parameters *)

Lemma params_count l n :
  params l = Some n ->
  exists pre e, l = pre ++ CH_CLOSE :: e /\ strchr l CH_CLOSE = Some (CH_CLOSE :: e) /\
    forall acc, 0 <= acc -> acc + Z.of_nat n < 2 ^ 16 ->
      count_params l (Z.of_nat (length pre)) acc = acc + Z.of_nat n.
Proof.
  revert n. induction l as [l IH] using (induction_ltof1 _ (@length Z)); intros n Hp. unfold ltof in IH.
  destruct l as [|b l]; [done|]. cbn [params] in Hp.
  destruct (decide (b = 41)) as [->|].
  { injection Hp as <-. exists [], l. split; [done|]. split; [done|]. intros acc _ _. by rewrite Z.add_0_r. }
  destruct (decide (b = 73)) as [->|].
  { apply fmap_Some in Hp as (k & Hk & ->). destruct (IH l ltac:(cbn; lia) k Hk) as (pre & e & -> & Hs & Hc).
    exists (73 :: pre), e. split; [done|]. split; [exact Hs|]. intros acc Ha Hb.
    cbn [count_params length]. rewrite (proj2 (Z.ltb_lt _ _)) by lia.
    change (73 =? CH_BRACKET) with false. cbv iota.
    replace (Z.of_nat (S (length pre)) - 1) with (Z.of_nat (length pre)) by lia.
    rewrite wrapU_small, Hc by lia. lia. }
  destruct (decide (b = 91)) as [->|].
  { destruct l as [|c l]; [done|]. destruct (decide (c = 73)) as [->|].
    - apply fmap_Some in Hp as (k & Hk & ->). destruct (IH l ltac:(cbn; lia) k Hk) as (pre & e & -> & Hs & Hc).
      exists (91 :: 73 :: pre), e. split; [done|]. split; [exact Hs|]. intros acc Ha Hb.
      cbn [count_params length]. rewrite (proj2 (Z.ltb_lt _ _)) by lia.
      change (91 =? CH_BRACKET) with true. cbv iota.
      replace (Z.of_nat (S (S (length pre))) - 2) with (Z.of_nat (length pre)) by lia.
      rewrite wrapU_small, Hc by lia. lia.
    - exfalso. repeat (case_match; try done; try congruence). }
  exfalso. repeat (case_match; try done; try congruence).
Qed.

Lemma arity_ok m n :
  no_nul (descriptor m) -> arity (descriptor m) = Some n -> Z.of_nat n < 2 ^ 16 ->
  get_number_of_parameters m = Ok (Z.of_nat n).
Proof.
  intros Hnul Ha Hn. unfold get_number_of_parameters. rewrite c_str_id by done.
  unfold arity in Ha. destruct (descriptor m) as [|b l]; [done|].
  destruct (decide (b = 40)) as [->|]; [|repeat (case_match; try done; try congruence)].
  destruct (params_count _ _ Ha) as (pre & e & El & Hs & Hc).
  assert (strchr (40 :: l) CH_CLOSE = Some (CH_CLOSE :: e)) as -> by done.
  assert (strchr (40 :: l) CH_OPEN = Some (40 :: l)) as -> by done.
  replace (Z.of_nat (length (40 :: l)) - Z.of_nat (length (CH_CLOSE :: e)) - 1) with (Z.of_nat (length pre)).
  - by rewrite Hc by lia.
  - rewrite El. cbn [length]. rewrite length_app. cbn [length]. lia.
Qed.

(** ** Passing arguments *)

Lemma pass_args_ok N l p ls h o (A base : list Z) ml j k :
  Z.of_nat N < 2 ^ 16 -> stk N l base -> (length base + length A <= N)%nat ->
  (k + j = length A)%nat -> (length A <= ml)%nat ->
  (forall i, (k <= i < length A)%nat -> l !! (length base + i)%nat = A !! i) ->
  exists l', stk N l' base /\
    pass_args j (Z.of_nat k) (Z.of_nat (length A)) (take k A ++ replicate (ml - k) 0)
      (mkVM l (Z.of_nat (length base + length A)) p ls h o) =
    Ok (A ++ replicate (ml - length A) 0, mkVM l' (Z.of_nat (length base + length A)) p ls h o).
Proof.
  intros HN. revert l k. induction j as [|j IH]; intros l k Hs Hlen Hkj Hml HA.
  - exists l. split; [done|]. cbn [pass_args]. replace k with (length A) by lia. by rewrite take_ge by lia.
  - cbn [pass_args]. pose proof Hs as [Hl _]. rewrite exec_get_sp.
    destruct (lookup_lt_is_Some_2 A k) as [x Hx]; [lia|].
    erewrite (exec_get N) with (j := (length base + k)%nat) (x := x) by (done || lia || by rewrite HA by lia).
    rewrite (exec_lift _ _ (take (S k) A ++ replicate (ml - S k) 0)).
    + rewrite (exec_set N) with (j := (length base + k)%nat) by (done || lia).
      replace (Z.of_nat k + 1) with (Z.of_nat (S k)) by lia.
      apply IH; try lia; [apply stk_write; [done|lia]|].
      intros i Hi. rewrite list_lookup_insert_ne by lia. apply HA. lia.
    + unfold upd_res. rewrite of_nat_ltb_0. cbn [orb].
      rewrite (proj2 (Z.leb_gt _ _)) by (rewrite length_app, length_take, length_replicate; lia).
      rewrite Nat2Z.id. f_equal. rewrite (take_S_r _ _ _ Hx), <- app_assoc. cbn [app].
      replace (ml - k)%nat with (S (ml - S k)) by lia. cbn [replicate].
      rewrite insert_app_r_alt by (rewrite length_take; lia).
      by rewrite length_take, Nat.min_l, Nat.sub_diag by lia.
Qed.

(** ** Whole runs *)

(** Which opcodes are calls and returns. *)
Lemma decode_kind pool c p op i len :
  byte c p = Some op -> decode pool c p = Some (i, len) ->
  match i with
  | InvokeStatic j => op = i_invokestatic /\ u2_at c (p + 1) = Some j /\ len = 3
  | ValueReturn => op = i_areturn \/ op = i_ireturn
  | Return => op = i_return
  | _ => (op =? i_invokestatic) = false /\ ((op =? i_areturn) || (op =? i_ireturn)) = false /\
         (op =? i_return) = false
  end.
Proof.
  intros Hop Hd. unfold decode in Hd. rewrite Hop in Hd. cbn [mbind option_bind] in Hd.
  split_opcode op Hd; open_binds; auto.
Qed.

Lemma execute_value_return fuel cls m l st p vs h o x :
  wf_method m -> 0 <= p < code_length (mcode m) -> stk (Z.to_nat (max_stack (mcode m))) l (x :: st) ->
  byte (code (mcode m)) p = Some i_areturn \/ byte (code (mcode m)) p = Some i_ireturn ->
  execute (S fuel) cls m (mkVM l (Z.of_nat (length (x :: st))) p vs h o) =
  Ok (Some x, mkVM l (Z.of_nat (length (x :: st))) p vs h o).
Proof.
  intros wf Hp Hs Hop. cbn [execute pc]. rewrite (proj2 (Z.ltb_lt _ _)) by lia. cbn [negb].
  pose proof (N_small _ wf). pose proof (stk_length _ _ _ Hs). pose proof Hs as [Hl _].
  unfold nth_res, byte in *. rewrite (proj2 (Z.ltb_ge _ _)) in * by lia.
  assert (Hget : (sp <- get_sp;; get_stack (sp - 1)) (mkVM l (Z.of_nat (length (x :: st))) p vs h o) =
            Ok (x, mkVM l (Z.of_nat (length (x :: st))) p vs h o)).
  { rewrite exec_get_sp. unfold get_stack, bind, get, lift, nth_res. cbn [stack length] in *.
    rewrite wrapU_small by lia. rewrite (proj2 (Z.ltb_ge _ _)) by lia.
    replace (Z.to_nat (Z.of_nat (S (length st)) - 1)) with (length st) by lia.
    by rewrite (stk_lookup _ _ [] _ _ Hs). }
  destruct Hop as [-> | ->]; cbn [rbind];
    change (i_areturn =? i_invokestatic) with false; change (i_ireturn =? i_invokestatic) with false;
    change (i_areturn =? i_areturn) with true; change (i_ireturn =? i_ireturn) with true;
    rewrite ?orb_true_r; cbn [orb]; cbv iota; rewrite Hget; done.
Qed.

Lemma u2_code m p j l sp ls h o :
  wf_method m -> 0 <= p < 2 ^ 32 -> u2_at (code (mcode m)) (p + 1) = Some j ->
  (b1 <- code_byte m 1;; b2 <- code_byte m 2;; ret (u16 (Z.lor (Z.shiftl b1 8) b2))) (mkVM l sp p ls h o) =
  Ok (j, mkVM l sp p ls h o).
Proof.
  intros wf Hp Hj. unfold u2_at in Hj. apply bind_Some in Hj as (b1 & E1 & Hj). apply bind_Some in Hj as (b2 & E2 & Hj).
  injection Hj as <-. replace (p + 1 + 1) with (p + 2) in E2 by lia.
  pose proof (byte_range _ _ _ (wf_code _ wf) E1) as [? _]. pose proof (byte_range _ _ _ (wf_code _ wf) E2) as [? _].
  erewrite exec_code by (done || lia). erewrite exec_code by (done || lia).
  rewrite lor_shift8, wrapU_small by lia. done.
Qed.

Lemma eval_sim cls (wfc : wf_class cls) fuel : forall m s v x s',
  wf_method m -> R m s v -> eval fuel cls m s = Some (x, s') ->
  exists v', execute fuel cls m v = Ok (x, v') /\ heap v' = c_arrays (arrays s') /\ out v' = printed s'.
Proof.
  induction fuel as [|fuel IH]; intros m s v x s' wf HR He; [done|].
  cbn [eval] in He. destruct (Z.ltb_spec (at_pc s) (Z.of_nat (length (code (mcode m))))) as [Hlt|]; [|done].
  cbn [negb] in He. apply bind_Some in He as ([i len] & Hd & He).
  assert (exists op, byte (code (mcode m)) (at_pc s) = Some op) as [op Hop].
  { unfold decode in Hd. apply bind_Some in Hd as (op & Hop & _). by exists op. }
  pose proof (byte_range _ _ _ (wf_code _ wf) Hop) as [_ Hp]. pose proof (wf_size _ wf). pose proof (wf_length _ wf) as Hcl.
  pose proof (decode_kind _ _ _ _ _ _ Hop Hd) as Hkind.
  destruct s as [st vs p h o], v as [l sp vp ls hp ov].
  pose proof HR as (Hs & E1 & E2 & E3 & E4 & E5).
  cbn [stack stack_p pc locals heap out ops at_pc vars arrays printed] in *. subst.
  rewrite (wrapU_small 64 p) in * by lia.
  (* an instruction that is neither a call nor a return *)
  assert (Hplain : forall s1, (op =? i_invokestatic) = false -> ((op =? i_areturn) || (op =? i_ireturn)) = false ->
    (op =? i_return) = false ->
    step (max_stack (mcode m)) i len (mkFrame st vs p h o) = Some s1 -> eval fuel cls m s1 = Some (x, s') ->
    exists v', execute (S fuel) cls m (mkVM l (Z.of_nat (length st)) p vs (c_arrays h) o) = Ok (x, v') /\
               heap v' = c_arrays (arrays s') /\ out v' = printed s').
  { intros s1 K1 K2 K3 Hst He1.
    destruct (step_sim cls m wf (mkFrame st vs p h o) _ op i len s1 HR) as (v1 & Ev1 & HR1); cbn [at_pc]; try done; [lia|].
    destruct (IH m s1 _ x s' wf HR1 He1) as (v' & Ev' & ?). exists v'. split; [|done].
    cbn [execute pc]. rewrite (proj2 (Z.ltb_lt _ _)) by lia. cbn [negb].
    assert (nth_res (code (mcode m)) p = Ok op) as ->.
    { unfold nth_res, byte in *. destruct (p <? 0); [done|]. by rewrite Hop. }
    cbn [rbind]. rewrite K1, K2, K3, Ev1. cbn [rbind]. done. }
  destruct i; try (apply bind_Some in He as (s1 & Hst & He1); destruct Hkind as (K1 & K2 & K3); by apply (Hplain s1)).
  - (* a call *)
    destruct Hkind as (-> & Hj & ->).
    apply bind_Some in He as (callee & Hres & He). apply bind_Some in He as (n & Hn & He).
    destruct (bool_decide _ && _) eqn:Hcond; [|done]. apply andb_prop in Hcond as [Hle%bool_decide_eq_true Hml%Z.leb_le].
    apply bind_Some in He as ([x1 s1] & He1 & He). apply bind_Some in He as (st1 & Hst1 & He2).
    cbn [fst snd ops arrays printed vars at_pc] in *.
    destruct (resolve_ok wfc _ _ Hres) as (Hf & wf' & Hnul).
    pose proof (N_small _ wf). pose proof (stk_length _ _ _ Hs) as Hlen.
    assert (Hlr : length (rev (take n st)) = n) by (rewrite length_rev, length_take; lia).
    assert (Hld : length st = (length (drop n st) + n)%nat) by (rewrite length_drop; lia).
    destruct (pass_args_ok (Z.to_nat (max_stack (mcode m))) l p vs (c_arrays h) o (rev (take n st)) (drop n st)
                (Z.to_nat (max_locals (mcode callee))) n 0) as (l' & Hs' & Epass); try lia.
    { apply (stk_drop _ _ (take n st)). by rewrite take_drop. }
    { intros i Hi. rewrite Hlr in Hi.
      destruct (lookup_lt_is_Some_2 (rev (take n st)) i) as [y Hy]; [lia|]. rewrite Hy.
      assert (Hy2 : take (length st) l !! (length (drop n st) + i)%nat = Some y).
      { rewrite (proj2 Hs). rewrite <- (take_drop n st), rev_app_distr, take_drop.
        rewrite lookup_app_r by (rewrite length_rev; lia).
        rewrite length_rev. by replace (length (drop n st) + i - length (drop n st))%nat with i by lia. }
      rewrite lookup_take_lt in Hy2 by lia. done. }
    rewrite Hlr, <- Hld in Epass. rewrite take_0, Nat.sub_0_r in Epass. cbn [app] in Epass.
    assert (HR1 : R callee (mkFrame [] (rev (take n st) ++ replicate (Z.to_nat (max_locals (mcode callee)) - n) 0) 0 h o)
              (new_frame callee (rev (take n st) ++ replicate (Z.to_nat (max_locals (mcode callee)) - n) 0) (c_arrays h) o)).
    { split; [apply stk_nil|]. done. }
    destruct (IH callee _ _ x1 s1 wf' HR1 He1) as (v1 & Ev1 & Eh1 & Eo1).
    assert (exists l2, (match x1 with Some y => sp <- get_sp;; set_stack sp y ;;; add_sp 1 | None => ret tt end)
              (mkVM l' (Z.of_nat (length (drop n st))) p vs (c_arrays (arrays s1)) (printed s1)) =
              Ok (tt, mkVM l2 (Z.of_nat (length st1)) p vs (c_arrays (arrays s1)) (printed s1)) /\
            stk (Z.to_nat (max_stack (mcode m))) l2 st1) as (l2 & E2 & Hs2).
    { destruct x1 as [y|]; [|simplify_eq; by exists l'].
      unfold push in Hst1. destruct (Z.ltb_spec (Z.of_nat (length (drop n st))) (max_stack (mcode m))); [|done].
      simplify_eq. pose proof Hs' as [Hl' _]. rewrite exec_get_sp.
      rewrite (exec_set (Z.to_nat (max_stack (mcode m)))) with (j := length (drop n st)) by (done || lia).
      unfold add_sp, modify, with_sp. cbn [stack stack_p pc locals heap out]. rewrite wrapU_small by lia.
      exists (<[length (drop n st) := y]> l'). split; [do 3 f_equal; cbn [length]; lia|]. apply stk_push; [done|lia]. }
    assert (HR2 : R m (mkFrame st1 vs (p + 3) (arrays s1) (printed s1))
              (mkVM l2 (Z.of_nat (length st1)) (u64 (p + 3)) vs (c_arrays (arrays s1)) (printed s1))) by done.
    destruct (IH m _ _ x s' wf HR2 He2) as (v' & Ev' & ?). exists v'. split; [|done].
    cbn [execute pc]. rewrite (proj2 (Z.ltb_lt _ _)) by lia. cbn [negb].
    assert (nth_res (code (mcode m)) p = Ok i_invokestatic) as ->.
    { unfold nth_res, byte in *. destruct (p <? 0); [done|]. by rewrite Hop. }
    cbn [rbind]. rewrite Z.eqb_refl, (u2_code m p index) by (done || lia). cbn [rbind].
    rewrite Hf. cbn [rbind]. rewrite (arity_ok callee n Hnul Hn) by lia. cbn [rbind].
    rewrite Nat2Z.id. change (Z.of_nat 0) with 0 in Epass. rewrite Epass. cbn [rbind].
    unfold add_sp at 1, modify at 1, with_sp at 1. cbn [stack stack_p pc locals heap out rbind].
    rewrite Ev1. cbn [rbind]. unfold with_out, with_heap. cbn [stack stack_p pc locals heap out].
    rewrite Eh1, Eo1, wrapU_small by lia. replace (Z.of_nat (length st) + - Z.of_nat n) with (Z.of_nat (length (drop n st))) by lia.
    rewrite E2. cbn [rbind]. done.
  - (* a return with a value *)
    destruct st as [|y st]; [done|]. cbn in He. simplify_eq.
    exists (mkVM l (Z.of_nat (length (y :: st))) p vs (c_arrays h) o). split; [|done].
    apply execute_value_return; try done; [lia|]. destruct Hkind; subst; auto.
  - (* a return *)
    simplify_eq. exists (mkVM l (Z.of_nat (length st)) p vs (c_arrays h) o). split; [|done]. cbn [execute pc]. rewrite (proj2 (Z.ltb_lt _ _)) by lia. cbn [negb].
    unfold nth_res, byte in *. destruct (p <? 0); [done|]. rewrite Hop. done.
Qed.
