(* ===== verification/ReadClassSpec.v ===== *)
(** * Reading class files: round trip with a printer

    [print_class] writes a class file in the format of the JVM specification;
    reading it back gives the constant pool and the methods.  The reader is
    compositional: [reads m bs a] says that [m] consumes exactly the bytes [bs]
    wherever they stand in the file and answers [a]. *)
From stdpp Require Import prelude gmap list.
From Stdlib Require Import ZArith Lia.
From S2P Require Import Prelude ReadClass JvmRefine.
Open Scope Z_scope.
Open Scope c_scope.

Definition reads {A} (m : M FILE A) (bs : list Z) (a : A) : Prop :=
  forall pre post,
    m (mkFile (pre ++ bs ++ post) (Z.of_nat (length pre))) =
    Ok (a, mkFile (pre ++ bs ++ post) (Z.of_nat (length pre + length bs))).

Lemma reads_ret {A} (a : A) : reads (ret a) [] a.
Proof. intros pre post. unfold ret. by rewrite Nat.add_0_r. Qed.

Lemma reads_bind {A B} (m : M FILE A) (k : A -> M FILE B) bs1 bs2 a b :
  reads m bs1 a -> reads (k a) bs2 b -> reads (bind m k) (bs1 ++ bs2) b.
Proof.
  intros H1 H2 pre post. unfold bind. rewrite <- app_assoc, H1.
  specialize (H2 (pre ++ bs1) post). rewrite !length_app, <- app_assoc in H2.
  rewrite H2. by rewrite length_app, Nat.add_assoc.
Qed.

Lemma reads_last {A B} (m : M FILE A) (k : A -> M FILE B) bs a b :
  reads m bs a -> reads (k a) [] b -> reads (bind m k) bs b.
Proof. intros H1 H2. rewrite <- (app_nil_r bs). by eapply reads_bind. Qed.

(** A computation that consumes nothing. *)
Lemma reads_pure {A B} (m : M FILE A) (k : A -> M FILE B) bs a b :
  (forall f, m f = Ok (a, f)) -> reads (k a) bs b -> reads (bind m k) bs b.
Proof. intros H1 H2 pre post. unfold bind. rewrite H1. apply H2. Qed.

Lemma reads_u1 b : reads read_u1 [b] b.
Proof.
  intros pre post. unfold read_u1. cbn [data pos].
  rewrite (proj2 (Z.leb_le _ _)), (proj2 (Z.ltb_lt _ _)) by (rewrite ?length_app; cbn [length]; lia).
  cbn [andb]. rewrite Nat2Z.id, lookup_app_r, Nat.sub_diag by done. cbn [lookup list_lookup app].
  do 3 f_equal. cbn [length]. lia.
Qed.

Definition print_u2 (n : Z) : list Z := [n / 256; n mod 256].
Definition print_u4 (n : Z) : list Z := print_u2 (n / 2 ^ 16) ++ print_u2 (n mod 2 ^ 16).

Definition is_u2 (n : Z) : Prop := 0 <= n < 2 ^ 16.
Definition is_u4 (n : Z) : Prop := 0 <= n < 2 ^ 32.

Lemma reads_u2 n : is_u2 n -> reads read_u2 (print_u2 n) n.
Proof.
  intros Hn. unfold is_u2 in Hn. unfold read_u2, print_u2.
  assert (0 <= n / 256 < 256) by (Z.to_euclidean_division_equations; lia).
  assert (0 <= n mod 256 < 256) by (apply Z.mod_pos_bound; lia).
  change [n / 256; n mod 256] with ([n / 256] ++ [n mod 256] ++ []).
  eapply reads_bind; [apply reads_u1|]. eapply reads_bind; [apply reads_u1|].
  rewrite lor_shift8 by done. rewrite wrapU_small by lia.
  replace (256 * (n / 256) + n mod 256) with n by (apply Z.div_mod; lia). apply reads_ret.
Qed.

(** Two halves of a 32-bit number put together with shifts. *)
Lemma lor_shift16 a b : 0 <= a < 2 ^ 16 -> 0 <= b < 2 ^ 16 -> Z.lor (Z.shiftl a 16) b = 2 ^ 16 * a + b.
Proof.
  intros Ha Hb. rewrite Z.shiftl_mul_pow2 by lia.
  rewrite (Z.mul_comm a). symmetry. apply Z.add_nocarry_lor.
  replace (2 ^ 16 * a) with (Z.shiftl a 16) by (rewrite Z.shiftl_mul_pow2 by lia; lia).
  apply Z.bits_inj'. intros i Hi. rewrite Z.land_spec, Z.bits_0, Z.shiftl_spec by done.
  destruct (Z.ltb_spec i 16); [rewrite (Z.testbit_neg_r a) by lia; done|].
  rewrite (Z.bits_above_log2 b i); [by rewrite andb_false_r|lia|].
  destruct (decide (b = 0)) as [->|]; [cbn; lia|]. apply Z.log2_lt_pow2; [lia|].
  apply Z.lt_le_trans with (2 ^ 16); [lia|]. apply Z.pow_le_mono_r; lia.
Qed.

Lemma reads_u4 n : is_u4 n -> reads read_u4 (print_u4 n) n.
Proof.
  intros Hn. unfold is_u4 in Hn. unfold read_u4, print_u4.
  assert (0 <= n / 2 ^ 16 < 2 ^ 16) by (Z.to_euclidean_division_equations; lia).
  assert (0 <= n mod 2 ^ 16 < 2 ^ 16) by (apply Z.mod_pos_bound; lia).
  eapply reads_bind; [by apply reads_u2|].
  eapply reads_last; [by apply reads_u2|].
  rewrite (wrapU_small 32 (Z.shiftl _ _)) by (rewrite Z.shiftl_mul_pow2 by lia; lia).
  rewrite lor_shift16 by done. rewrite wrapU_small by lia.
  replace (2 ^ 16 * (n / 2 ^ 16) + n mod 2 ^ 16) with n by (apply Z.div_mod; lia). apply reads_ret.
Qed.

Lemma reads_bytes l : reads (fread_all (length l)) l l.
Proof.
  induction l as [|b l IH]; cbn [fread_all length]; [apply reads_ret|].
  change (b :: l) with ([b] ++ l) at 1. eapply reads_bind; [apply reads_u1|].
  eapply reads_last; [apply IH|apply reads_ret].
Qed.

(** ** The constant pool *)

Definition print_constant (c : cp_info) : list Z :=
  [cp_tag c] ++
  match c with
  | CONSTANT_Utf8 s => print_u2 (Z.of_nat (length s)) ++ s
  | CONSTANT_Integer x => print_u4 (u32 x)
  | CONSTANT_Class i => print_u2 i
  | CONSTANT_Fieldref a b => print_u2 a ++ print_u2 b
  | CONSTANT_Methodref a b => print_u2 a ++ print_u2 b
  | CONSTANT_NameAndType a b => print_u2 a ++ print_u2 b
  end.

Definition constant_ok (c : cp_info) : Prop :=
  match c with
  | CONSTANT_Utf8 s => is_u2 (Z.of_nat (length s))
  | CONSTANT_Integer x => - 2 ^ 31 <= x < 2 ^ 31
  | CONSTANT_Class i => is_u2 i
  | CONSTANT_Fieldref a b | CONSTANT_Methodref a b | CONSTANT_NameAndType a b => is_u2 a /\ is_u2 b
  end.

Lemma s32_u32 x : - 2 ^ 31 <= x < 2 ^ 31 -> s32 (u32 x) = x.
Proof.
  intros Hx. rewrite <- (wrapS_small 32 x) at 2 by lia. apply wrapS_congr. apply Zmod_mod.
Qed.

Lemma reads_constant c : constant_ok c -> reads read_constant (print_constant c) c.
Proof.
  intros Hc. unfold read_constant, print_constant. eapply reads_bind; [apply reads_u1|].
  destruct c; cbn [cp_tag constant_ok] in *.
  - change (1 =? 1) with true. cbv iota. eapply reads_bind; [by apply reads_u2|].
    rewrite Nat2Z.id. eapply reads_last; [apply reads_bytes|apply reads_ret].
  - change (3 =? 1) with false. change (3 =? 3) with true. cbv iota.
    eapply reads_last; [apply reads_u4, wrapU_range; lia|]. rewrite s32_u32 by done. apply reads_ret.
  - change (7 =? 1) with false. change (7 =? 3) with false. change (7 =? 7) with true. cbv iota.
    eapply reads_last; [by apply reads_u2|apply reads_ret].
  - change (9 =? 1) with false. change (9 =? 3) with false. change (9 =? 7) with false.
    change (9 =? 10) with false. change (9 =? 9) with true. cbv iota. destruct Hc.
    eapply reads_bind; [by apply reads_u2|]. eapply reads_last; [by apply reads_u2|apply reads_ret].
  - change (10 =? 1) with false. change (10 =? 3) with false. change (10 =? 7) with false.
    change (10 =? 10) with true. cbv iota. destruct Hc.
    eapply reads_bind; [by apply reads_u2|]. eapply reads_last; [by apply reads_u2|apply reads_ret].
  - change (12 =? 1) with false. change (12 =? 3) with false. change (12 =? 7) with false.
    change (12 =? 10) with false. change (12 =? 9) with false. change (12 =? 12) with true. cbv iota. destruct Hc.
    eapply reads_bind; [by apply reads_u2|]. eapply reads_last; [by apply reads_u2|apply reads_ret].
Qed.

Lemma reads_constants l : Forall constant_ok l -> reads (read_constants (length l)) (l ≫= print_constant) l.
Proof.
  induction 1 as [|c l Hc _ IH]; cbn [read_constants length mbind list_bind]; [apply reads_ret|].
  eapply reads_bind; [by apply reads_constant|]. eapply reads_last; [apply IH|apply reads_ret].
Qed.

Definition print_pool (l : list cp_info) : list Z :=
  print_u2 (Z.of_nat (length l) + 1) ++ (l ≫= print_constant).

Lemma reads_pool l :
  Z.of_nat (length l) + 1 < 2 ^ 16 -> Forall constant_ok l -> reads get_constant_pool (print_pool l) l.
Proof.
  intros Hl Hc. unfold get_constant_pool, print_pool. eapply reads_bind; [apply reads_u2; unfold is_u2; lia|].
  rewrite wrapU_small by lia. replace (Z.to_nat _) with (length l) by lia. by apply reads_constants.
Qed.

(** ** Attributes and methods *)

Inductive attr :=
  | ACode (aname : Z) (c : code_t) (rest : list Z)   (* the Code attribute, with what follows the code *)
  | AOther (aname : Z) (body : list Z).

Definition attr_name (a : attr) : Z := match a with ACode n _ _ | AOther n _ => n end.

Definition print_code (c : code_t) : list Z :=
  print_u2 (max_stack c) ++ print_u2 (max_locals c) ++ print_u4 (code_length c) ++ code c.

Definition attr_body (a : attr) : list Z :=
  match a with ACode _ c rest => print_code c ++ rest | AOther _ body => body end.

Definition print_attr (a : attr) : list Z :=
  print_u2 (attr_name a) ++ print_u4 (Z.of_nat (length (attr_body a))) ++ attr_body a.

Definition code_ok (c : code_t) : Prop :=
  is_u2 (max_stack c) /\ is_u2 (max_locals c) /\ is_u4 (code_length c) /\
  code_length c = Z.of_nat (length (code c)).

Definition attr_ok (pool : list cp_info) (found : option code_t) (a : attr) : Prop :=
  is_u2 (attr_name a) /\ is_u4 (Z.of_nat (length (attr_body a))) /\
  exists s, get_utf8 pool (attr_name a) = Ok s /\
    match a with
    | ACode _ c _ => strcmp_eq s STR_CODE = true /\ code_ok c /\ found = None
    | AOther _ _ => strcmp_eq s STR_CODE = false
    end.

Definition attr_found (found : option code_t) (a : attr) : option code_t :=
  match a with ACode _ c _ => Some c | AOther _ _ => found end.

Fixpoint attrs_ok (pool : list cp_info) (found : option code_t) (l : list attr) : Prop :=
  match l with
  | [] => True
  | a :: l => attr_ok pool found a /\ attrs_ok pool (attr_found found a) l
  end.

Lemma lift_ok {A} (r : res A) a (f : FILE) : r = Ok a -> lift r f = Ok (a, f).
Proof. by intros ->. Qed.

Lemma reads_code c :
  code_ok c ->
  reads (max_stack <- read_u2;; max_locals <- read_u2;; code_length <- read_u4;;
         code <- fread_all (Z.to_nat code_length);;
         ret (Some (mkCode max_stack max_locals code_length code))) (print_code c) (Some c).
Proof.
  intros (H1 & H2 & H3 & H4). unfold print_code.
  eapply reads_bind; [by apply reads_u2|]. eapply reads_bind; [by apply reads_u2|].
  eapply reads_bind; [by apply reads_u4|]. rewrite H4, Nat2Z.id.
  eapply reads_last; [apply reads_bytes|]. rewrite <- H4. destruct c. apply reads_ret.
Qed.

Lemma reads_attr pool found a :
  attr_ok pool found a -> reads (read_attribute pool found) (print_attr a) (attr_found found a).
Proof.
  intros (Hn & Hl & s & Hs & Ha). unfold read_attribute, print_attr.
  eapply reads_bind; [by apply reads_u2|]. eapply reads_bind; [by apply reads_u4|].
  intros pre post. unfold bind at 1, ftell, gets. cbn [pos].
  rewrite (bind_ok _ _ _ _ _ (lift_ok _ _ _ Hs)).
  destruct a as [n c rest|n body]; cbn [attr_body attr_found] in *.
  - destruct Ha as (-> & Hc & ->). cbn [c_assert]. rewrite bind_bind, bind_ret.
    rewrite <- app_assoc. rewrite (bind_ok _ _ _ _ _ (reads_code c Hc pre (rest ++ post))).
    unfold fseek, modify, bind, ret. cbn [data pos]. do 3 f_equal. lia.
  - rewrite Ha. unfold fseek, modify, bind, ret. cbn [data pos]. do 3 f_equal. lia.
Qed.

Lemma reads_attrs pool l : forall found,
  attrs_ok pool found l ->
  reads (read_attributes (length l) pool found) (l ≫= print_attr) (foldl attr_found found l).
Proof.
  induction l as [|a l IH]; intros found; cbn [attrs_ok read_attributes length mbind list_bind foldl]; [intros; apply reads_ret|].
  intros [Ha Hl]. eapply reads_bind; [by apply reads_attr|]. by apply IH.
Qed.

(** A method as it stands in the file. *)
Record method_entry := mkEntry {
  e_access : Z; e_name : Z; e_descriptor : Z; e_attributes : list attr
}.

Definition print_method (e : method_entry) : list Z :=
  print_u2 (e_access e) ++ print_u2 (e_name e) ++ print_u2 (e_descriptor e) ++
  print_u2 (Z.of_nat (length (e_attributes e))) ++ (e_attributes e ≫= print_attr).

(** [e] is an entry of a static method (or of a constructor) that means [m]. *)
Definition entry_of (pool : list cp_info) (e : method_entry) (m : method_t) : Prop :=
  is_u2 (e_access e) /\ is_u2 (e_name e) /\ is_u2 (e_descriptor e) /\
  is_u2 (Z.of_nat (length (e_attributes e))) /\
  get_utf8 pool (e_name e) = Ok (name m) /\ get_utf8 pool (e_descriptor e) = Ok (descriptor m) /\
  (strcmp_eq (name m) STR_INIT = true \/ Z.land (e_access e) IS_STATIC <> 0) /\
  attrs_ok pool None (e_attributes e) /\ foldl attr_found None (e_attributes e) = Some (mcode m).

Lemma reads_method pool e m : entry_of pool e m -> reads (read_method pool) (print_method e) m.
Proof.
  intros (H1 & H2 & H3 & H4 & Hn & Hd & Hst & Hat & Hc). unfold read_method, print_method.
  eapply reads_bind; [by apply reads_u2|]. eapply reads_bind; [by apply reads_u2|].
  eapply reads_bind; [by apply reads_u2|]. eapply reads_bind; [by apply reads_u2|].
  eapply reads_pure; [intros f; by apply lift_ok|]. eapply reads_pure; [intros f; by apply lift_ok|].
  eapply (reads_pure _ _ _ tt).
  { intros f. destruct Hst as [-> |Hst]; [done|]. destruct (strcmp_eq _ _); [done|]. cbn [negb].
    unfold c_assert. by rewrite (proj2 (Z.eqb_neq _ _) Hst). }
  apply (reads_last _ _ _ (mcode m)); [|destruct m; apply reads_ret].
  unfold read_method_attributes. cbn [attributes_count]. rewrite Nat2Z.id.
  eapply reads_last; [by apply reads_attrs|]. rewrite Hc. apply reads_ret.
Qed.

Lemma reads_methods pool es ms :
  Forall2 (entry_of pool) es ms -> reads (read_methods (length es) pool) (es ≫= print_method) ms.
Proof.
  induction 1 as [|e m es ms He _ IH]; cbn [read_methods length mbind list_bind]; [apply reads_ret|].
  eapply reads_bind; [by apply reads_method|]. eapply reads_last; [apply IH|apply reads_ret].
Qed.

(** ** The file *)

Record class_entry := mkClassEntry {
  ce_version : Z * Z;
  ce_pool : list cp_info;
  ce_info : Z * Z * Z;
  ce_methods : list method_entry
}.

Definition print_class (c : class_entry) : list Z :=
  (print_u4 CLASS_MAGIC ++ print_u2 (fst (ce_version c)) ++ print_u2 (snd (ce_version c))) ++
  print_pool (ce_pool c) ++
  (print_u2 (fst (fst (ce_info c))) ++ print_u2 (snd (fst (ce_info c))) ++ print_u2 (snd (ce_info c)) ++
   print_u2 0 ++ print_u2 0) ++
  print_u2 (Z.of_nat (length (ce_methods c))) ++ (ce_methods c ≫= print_method).

Definition class_of (c : class_entry) (cls : class_file_t) : Prop :=
  is_u2 (fst (ce_version c)) /\ is_u2 (snd (ce_version c)) /\
  is_u2 (fst (fst (ce_info c))) /\ is_u2 (snd (fst (ce_info c))) /\ is_u2 (snd (ce_info c)) /\
  Z.of_nat (length (ce_pool c)) + 1 < 2 ^ 16 /\ Forall constant_ok (ce_pool c) /\
  is_u2 (Z.of_nat (length (ce_methods c))) /\
  constant_pool cls = ce_pool c /\ Forall2 (entry_of (ce_pool c)) (ce_methods c) (methods cls).

Lemma reads_class c cls : class_of c cls -> reads get_class (print_class c) cls.
Proof.
  intros (V1 & V2 & I1 & I2 & I3 & Hp & Hc & Hm & Ep & Hms). unfold get_class, print_class.
  eapply reads_bind.
  { unfold get_class_header. eapply reads_bind; [apply reads_u4; by unfold is_u4, CLASS_MAGIC|].
    rewrite Z.eqb_refl. eapply (reads_pure _ _ _ tt); [done|].
    eapply reads_bind; [by apply reads_u2|]. eapply reads_last; [by apply reads_u2|apply reads_ret]. }
  eapply reads_bind; [by apply reads_pool|].
  eapply reads_bind.
  { unfold get_class_info. eapply reads_bind; [by apply reads_u2|]. eapply reads_bind; [by apply reads_u2|].
    eapply reads_bind; [by apply reads_u2|]. eapply reads_bind; [by apply reads_u2|].
    eapply (reads_pure _ _ _ tt); [done|]. eapply reads_last; [by apply reads_u2|].
    eapply (reads_pure _ _ _ tt); [done|apply reads_ret]. }
  apply (reads_last _ _ _ (methods cls)).
  - unfold get_methods. eapply reads_bind; [by apply reads_u2|]. rewrite Nat2Z.id. by apply reads_methods.
  - rewrite <- Ep. destruct cls. apply reads_ret.
Qed.
