(* ===== verification/JvmSpec.v ===== *)
(** * Properties of the Java virtual machine *)
From stdpp Require Import prelude gmap list.
From Stdlib Require Import ZArith Lia Zquot.
From S2P Require Import Prelude ReadClass Jvm JvmSem JvmRefine JvmStep ReadClassSpec.
Open Scope Z_scope.
Open Scope c_scope.

(** ** A class with a recursive method

    class C {
      static int fact(int n) { if (n <= 1) return 1; return n * fact(n - 1); }
      static void main(String[] a) { int[] x = new int[2]; x[1] = fact(5); System.out.println(x[1] % 7 + x.length); }
    } *)

Definition str_fact : list Z := [102; 97; 99; 116].
Definition desc_fact : list Z := [40; 73; 41; 73].

Definition demo_pool : list cp_info :=
  [CONSTANT_Methodref 2 3; CONSTANT_Class 4; CONSTANT_NameAndType 5 6; CONSTANT_Utf8 [67];
   CONSTANT_Utf8 str_fact; CONSTANT_Utf8 desc_fact; CONSTANT_Utf8 MAIN_METHOD;
   CONSTANT_Utf8 MAIN_DESCRIPTOR; CONSTANT_Utf8 STR_CODE].

Definition code_fact : list Z :=
  [0x1a; 0x04; 0xa3; 0; 5; 0x04; 0xac;                 (* iload_0; iconst_1; if_icmpgt +5; iconst_1; ireturn *)
   0x1a; 0x1a; 0x04; 0x64; 0xb8; 0; 1; 0x68; 0xac].    (* iload_0; iload_0; iconst_1; isub; invokestatic #1; imul; ireturn *)
Definition code_main : list Z :=
  [0x05; 0xbc; 10; 0x4c; 0x2b; 0x04; 0x10; 5; 0xb8; 0; 1; 0x4f;   (* x = new int[2]; x[1] = fact(5) *)
   0xb2; 0; 0; 0x2b; 0x04; 0x2e; 0x10; 7; 0x70; 0x2b; 0xbe; 0x60; (* System.out; x[1] % 7 + x.length *)
   0xb6; 0; 0; 0xb1].                                             (* println; return *)

Definition method_fact : method_t := mkMethod str_fact desc_fact (mkCode 3 1 16 code_fact).
Definition method_main : method_t := mkMethod MAIN_METHOD MAIN_DESCRIPTOR (mkCode 4 2 28 code_main).

Definition demo_class : class_file_t := mkClass demo_pool [method_fact; method_main].
Definition demo_entry : class_entry :=
  mkClassEntry (0, 55) demo_pool (0x21, 2, 2)
    [mkEntry 9 5 6 [ACode 9 (mcode method_fact) [0; 0; 0; 0]];
     mkEntry 9 7 8 [ACode 9 (mcode method_main) [0; 0; 0; 0]]].

Ltac solve_bytes := repeat (apply Forall_cons; split; [lia|]); apply Forall_nil; exact I.

Lemma demo_class_wf : wf_class demo_class.
Proof.
  split.
  - repeat (apply Forall_cons; split; [split; [done| |done|done|done]; unfold bytes_ok; solve_bytes|]). by apply Forall_nil.
  - repeat (apply Forall_cons; split; [split; unfold no_nul; solve_bytes|]). by apply Forall_nil.
  - done.
  - intros i x Hi. cbn in Hi.
    repeat (destruct i as [|i]; [cbn in Hi; simplify_eq; try (unfold no_nul; solve_bytes)|cbn in Hi]). done.
Qed.

Lemma demo_code_entry e m c :
  e_attributes e = [ACode 9 c [0; 0; 0; 0]] -> mcode m = c -> code_ok c -> Z.of_nat (length (code c)) < 2 ^ 16 ->
  is_u2 (e_access e) -> is_u2 (e_name e) -> is_u2 (e_descriptor e) ->
  get_utf8 demo_pool (e_name e) = Ok (name m) -> get_utf8 demo_pool (e_descriptor e) = Ok (descriptor m) ->
  Z.land (e_access e) IS_STATIC <> 0 -> entry_of demo_pool e m.
Proof.
  intros Ea Em Hc Hl H1 H2 H3 Hn Hd Hs. unfold entry_of. rewrite Ea, Em.
  split; [done|]. split; [done|]. split; [done|]. split; [by unfold is_u2|]. split; [done|]. split; [done|].
  split; [by right|]. split; [|done]. split; [|done]. split; [by unfold is_u2|]. split.
  - unfold is_u4. cbn [attr_body]. unfold print_code. rewrite !length_app. cbn [length print_u2 print_u4 app]. lia.
  - exists STR_CODE. split; [reflexivity|]. done.
Qed.

Lemma demo_entry_ok : class_of demo_entry demo_class.
Proof.
  unfold class_of. repeat (split; [unfold is_u2; cbn; lia|]).
  split; [repeat (apply Forall_cons; split; [cbn; unfold is_u2; lia|]); by apply Forall_nil|].
  split; [by unfold is_u2|]. split; [done|].
  apply Forall2_cons; split; [|apply Forall2_cons; split; [|by apply Forall2_nil]].
  - apply (demo_code_entry _ _ (mcode method_fact)); try done; by unfold code_ok, is_u2, is_u4.
  - apply (demo_code_entry _ _ (mcode method_main)); try done; by unfold code_ok, is_u2, is_u4.
Qed.

(** ** Refinement *)

(** C5: the interpreter refines the reference semantics.  If a method of a
    well-formed class returns in [JvmSem] (with its nested calls, loops,
    arrays and prints), then execute() started in the same state returns
    within the same bound, without a fault, with the same value, the same heap
    and the same output. *)
Theorem jvm_refines_semantics cls m fuel ls h o x s' :
  wf_class cls -> wf_method m ->
  eval fuel cls m (mkFrame [] ls 0 h o) = Some (x, s') ->
  exists v', execute fuel cls m (new_frame m ls (c_arrays h) o) = Ok (x, v') /\
             heap v' = c_arrays (arrays s') /\ out v' = printed s'.
Proof.
  intros Hc Hm He. apply (eval_sim cls Hc fuel m (mkFrame [] ls 0 h o)); [done| |done].
  split; [apply stk_nil|]. done.
Qed.

Lemma demo_method_wf : wf_method method_fact /\ wf_method method_main.
Proof. pose proof (wf_methods _ demo_class_wf) as H. apply Forall_cons in H as [? [? _]%Forall_cons]. done. Qed.

Lemma jvm_refines_semantics_witness :
  eval 100 demo_class method_main (mkFrame [] [0; 0] 0 [] []) <> None /\
  exists s' v', execute 100 demo_class method_main (new_frame method_main [0; 0] [] []) = Ok (None, v') /\
                heap v' = c_arrays (arrays s') /\ out v' = printed s'.
Proof.
  destruct (eval 100 demo_class method_main (mkFrame [] [0; 0] 0 [] [])) as [[x s']|] eqn:E; [|by vm_compute in E].
  split; [done|]. exists s'.
  assert (x = None) as -> by (vm_compute in E; congruence).
  exact (jvm_refines_semantics demo_class method_main 100 [0; 0] [] [] None s' demo_class_wf
           (proj2 demo_method_wf) E).
Defined.

(** ** Class files *)

(** C28: reading is a left inverse of printing.  Every class file printed in
    the format of the specification, wherever it stands in the input, is read
    back as its constant pool and its methods; exactly its bytes are consumed,
    and no assertion of the reader fails. *)
Theorem class_roundtrip c cls pre post :
  class_of c cls ->
  get_class (mkFile (pre ++ print_class c ++ post) (Z.of_nat (length pre))) =
  Ok (cls, mkFile (pre ++ print_class c ++ post) (Z.of_nat (length pre + length (print_class c)))).
Proof. intros Hc. by apply reads_class. Qed.

Lemma class_roundtrip_witness :
  get_class (mkFile ([] ++ print_class demo_entry ++ [1; 2; 3]) 0) =
  Ok (demo_class, mkFile ([] ++ print_class demo_entry ++ [1; 2; 3]) (Z.of_nat (0 + length (print_class demo_entry)))).
Proof. exact (class_roundtrip demo_entry demo_class [] [1; 2; 3] demo_entry_ok). Defined.

(** C18: the whole program.  Given the bytes of a class file whose main method
    returns in the reference semantics, the virtual machine parses it, runs it
    and prints the same numbers in the same order. *)
Theorem jvm_main_correct c cls m fuel post s' :
  class_of c cls -> wf_class cls ->
  find_method MAIN_METHOD MAIN_DESCRIPTOR cls = Some m -> wf_method m ->
  eval fuel cls m (mkFrame [] (replicate (Z.to_nat (max_locals (mcode m))) 0) 0 [] []) = Some (None, s') ->
  jvm_main fuel (print_class c ++ post) = Ok (rev (printed s')).
Proof.
  intros Hc Hw Hf Hm He. unfold jvm_main.
  pose proof (reads_class c cls Hc [] post) as Hr. cbn [app length] in Hr.
  change (Z.of_nat 0) with 0 in Hr. rewrite Hr. cbn [rbind]. rewrite Hf.
  destruct (eval_sim cls Hw fuel m (mkFrame [] (replicate (Z.to_nat (max_locals (mcode m))) 0) 0 [] [])
              (new_frame m (replicate (Z.to_nat (max_locals (mcode m))) 0) heap_init [])
              None s' Hm) as (v' & E & _ & Eo); [|exact He|].
  - split; [apply stk_nil|]. done.
  - rewrite E. cbn [rbind]. by rewrite Eo.
Qed.

Lemma jvm_main_correct_witness :
  exists s', jvm_main 100 (print_class demo_entry ++ []) = Ok (rev (printed s')) /\ printed s' = [3].
Proof.
  destruct (eval 100 demo_class method_main (mkFrame [] (replicate (Z.to_nat (max_locals (mcode method_main))) 0) 0 [] []))
    as [[x s']|] eqn:E; [|by vm_compute in E].
  assert (x = None) as -> by (vm_compute in E; congruence).
  exists s'. split; [|vm_compute in E; injection E as <-; reflexivity].
  exact (jvm_main_correct demo_entry demo_class method_main 100 [] s' demo_entry_ok demo_class_wf eq_refl
           (proj2 demo_method_wf) E).
Defined.

(** ** Division *)

(** What the interpreter does where the Java specification throws an
    ArithmeticException.  A division by zero gives 0; a remainder by zero falls
    through the switch into the case of ineg and gives the negated dividend. *)
Theorem jvm_division_by_zero a :
  binop i_idiv a 0 = Ok 0 /\ binop i_irem a 0 = Ok (s32 (- a)) /\
  jbin Div a 0 = None /\ jbin Rem a 0 = None.
Proof. done. Qed.

(** ** Arrays *)

(** Array accesses are not bounds checked against index -1, which hits the
    element that stores the length: iaload answers the length instead of an
    exception, for every array on the heap. *)
Theorem jvm_array_index_minus_one l p vs h o st r a n :
  stk n l (-1 :: r :: st) -> Z.of_nat n < 2 ^ 16 -> get_arr h r = Some a ->
  exists l', iaload (mkVM l (Z.of_nat (length (-1 :: r :: st))) p vs (c_arrays h) o) =
               Ok (tt, mkVM l' (Z.of_nat (length (Z.of_nat (length a) :: st))) p vs (c_arrays h) o) /\
             stk n l' (Z.of_nat (length a) :: st) /\ get_var a (-1) = None.
Proof.
  intros Hs Hn Ha. pose proof (stk_length _ _ _ Hs) as Hlen. pose proof Hs as [Hl _].
  cbn [length] in *. unfold iaload. rewrite exec_get_sp.
  erewrite (exec_get n) with (j := length st) by (done || lia || by apply (stk_lookup _ _ [-1] _ _ Hs)).
  erewrite exec_array by done.
  erewrite (exec_get n) with (j := S (length st)) by (done || lia || by apply (stk_lookup _ _ [] _ (r :: st) Hs)).
  rewrite (exec_lift _ _ (Z.of_nat (length a))) by done.
  rewrite (exec_set n) with (j := S (length st)) by (done || lia).
  rewrite (exec_set n) with (j := length st) by (rewrite ?length_insert; (done || lia)).
  rewrite exec_add_sp by lia.
  rewrite (exec_set n) with (j := length st) by (rewrite ?length_insert; (done || lia)).
  unfold add_sp, modify, with_sp. cbn [stack stack_p pc locals heap out]. rewrite wrapU_small by lia.
  eexists. split; [do 3 f_equal; lia|]. split; [|done].
  apply stk_push; [|lia]. apply stk_write; [|done]. apply stk_write; [|lia].
  by apply (stk_drop _ _ [-1; r]).
Qed.

Lemma jvm_array_index_minus_one_witness :
  exists l', iaload (mkVM [0; -1] 2 0 [] (c_arrays [[7; 8; 9]]) []) =
               Ok (tt, mkVM l' 1 0 [] (c_arrays [[7; 8; 9]]) []) /\ stk 2 l' [3] /\ get_var [7; 8; 9] (-1) = None.
Proof. by apply (jvm_array_index_minus_one [0; -1] 0 [] [[7; 8; 9]] [] [] 0 [7; 8; 9] 2). Defined.

(** ** The class files of the repository *)

(** tests/PrintOnePlusTwo.class *)
Definition PrintOnePlusTwo : list Z :=
  [202; 254; 186; 190; 0; 3; 0; 45; 0; 22; 12; 0; 19; 0; 21; 1; 0; 22; 40; 91; 76; 106; 97; 118; 97;
    47; 108; 97; 110; 103; 47; 83; 116; 114; 105; 110; 103; 59; 41; 86; 1; 0; 16; 106; 97; 118; 97; 47;
    108; 97; 110; 103; 47; 79; 98; 106; 101; 99; 116; 7; 0; 3; 7; 0; 16; 10; 0; 5; 0; 20; 1; 0; 15; 80;
    114; 105; 110; 116; 79; 110; 101; 80; 108; 117; 115; 84; 119; 111; 7; 0; 18; 1; 0; 4; 67; 111; 100;
    101; 1; 0; 4; 109; 97; 105; 110; 9; 0; 8; 0; 1; 1; 0; 17; 80; 114; 105; 110; 116; 79; 110; 101; 80;
    108; 117; 115; 84; 119; 111; 46; 106; 1; 0; 10; 83; 111; 117; 114; 99; 101; 70; 105; 108; 101; 1; 0;
    4; 40; 73; 41; 86; 7; 0; 7; 1; 0; 19; 106; 97; 118; 97; 47; 105; 111; 47; 80; 114; 105; 110; 116;
    83; 116; 114; 101; 97; 109; 1; 0; 7; 112; 114; 105; 110; 116; 108; 110; 1; 0; 16; 106; 97; 118; 97;
    47; 108; 97; 110; 103; 47; 83; 121; 115; 116; 101; 109; 1; 0; 3; 111; 117; 116; 12; 0; 17; 0; 14; 1;
    0; 21; 76; 106; 97; 118; 97; 47; 105; 111; 47; 80; 114; 105; 110; 116; 83; 116; 114; 101; 97; 109;
    59; 0; 33; 0; 15; 0; 4; 0; 0; 0; 0; 0; 1; 0; 9; 0; 10; 0; 2; 0; 1; 0; 9; 0; 0; 0; 24; 0; 5; 0; 1; 0;
    0; 0; 12; 178; 0; 11; 16; 1; 16; 2; 96; 182; 0; 6; 177; 0; 0; 0; 0; 0; 1; 0; 13; 0; 0; 0; 2; 0; 12].

Example print_one_plus_two : jvm_main 50 PrintOnePlusTwo = Ok [3].
Proof. vm_compute. reflexivity. Qed.
