(* ===== verification/Ast.v ===== *)
(** * The syntax tree of TeenyBASIC (assembly-compiler/include/ast.h, src/ast.c)

    A node_t pointer is an [option node], NULL being [None]; characters are
    their codes.  The constructors answer NULL when a child they need is NULL,
    as the C functions do (which also release the other children). *)
From stdpp Require Import prelude list.
From Stdlib Require Import ZArith Lia.
From S2P Require Import Prelude.
Open Scope Z_scope.

Unset Elimination Schemes.
Inductive node :=
  | NUM (value : Z)
  | BINARY_OP (op : Z) (left right : node)
  | VAR (name : Z)
  | SEQUENCE (statements : list node)
  | PRINT (expr : node)
  | LET (var : Z) (value : node)
  | IF (condition if_branch : node) (else_branch : option node)
  | WHILE (condition body : node).
Set Elimination Schemes.

(** Induction over a tree, through the array of statements and the optional
    branch. *)
Section NodeInd.
Variable P : node -> Prop.
Hypothesis Hnum : forall v, P (NUM v).
Hypothesis Hbin : forall o l r, P l -> P r -> P (BINARY_OP o l r).
Hypothesis Hvar : forall x, P (VAR x).
Hypothesis Hseq : forall l, Forall P l -> P (SEQUENCE l).
Hypothesis Hprint : forall e, P e -> P (PRINT e).
Hypothesis Hlet : forall x e, P e -> P (LET x e).
Hypothesis Hif : forall c a b, P c -> P a -> (forall x, b = Some x -> P x) -> P (IF c a b).
Hypothesis Hwhile : forall c b, P c -> P b -> P (WHILE c b).

Fixpoint node_ind (n : node) : P n :=
  match n with
  | NUM v => Hnum v
  | BINARY_OP o l r => Hbin o l r (node_ind l) (node_ind r)
  | VAR x => Hvar x
  | SEQUENCE l =>
      Hseq l ((fix go (l : list node) : Forall P l :=
                 match l with
                 | [] => Forall_nil_2 _
                 | x :: l => Forall_cons_2 _ x l (node_ind x) (go l)
                 end) l)
  | PRINT e => Hprint e (node_ind e)
  | LET x e => Hlet x e (node_ind e)
  | IF c a b =>
      Hif c a b (node_ind c) (node_ind a)
        (match b return (forall x, b = Some x -> P x) with
         | Some y => fun x E => eq_ind y P (node_ind y) x (Some_inj _ _ E)
         | None => fun x E => match (ltac:(discriminate E) : False) with end
         end)
  | WHILE c b => Hwhile c b (node_ind c) (node_ind b)
  end.
End NodeInd.

(** ** Constructors *)

Definition init_num_node (value : Z) : option node := Some (NUM value).

Definition init_binary_node (op : Z) (left right : option node) : option node :=
  match left, right with
  | Some l, Some r => Some (BINARY_OP op l r)
  | _, _ => None
  end.

Definition init_var_node (name : Z) : option node :=
  if name =? 0 then None else Some (VAR name).

Definition init_sequence_node (statements : list node) : option node :=
  Some (SEQUENCE statements).

Definition init_print_node (expr : option node) : option node :=
  match expr with Some e => Some (PRINT e) | None => None end.

Definition init_let_node (var : Z) (value : option node) : option node :=
  match value with
  | Some e => if var =? 0 then None else Some (LET var e)
  | None => None
  end.

Definition init_if_node (condition if_branch else_branch : option node) : option node :=
  match condition, if_branch with
  | Some c, Some a => Some (IF c a else_branch)
  | _, _ => None
  end.

Definition init_while_node (condition body : option node) : option node :=
  match condition, body with
  | Some c, Some b => Some (WHILE c b)
  | _, _ => None
  end.

(** ** Printing (print_ast writes to stderr; the bytes are the result) *)

(** The decimal digits of a non-negative number. *)
Fixpoint dec_digits (fuel : nat) (n : Z) (acc : list Z) : list Z :=
  match fuel with
  | O => acc
  | S f => let acc := (48 + n mod 10) :: acc in
           if n / 10 =? 0 then acc else dec_digits f (n / 10) acc
  end.

(** The "%ld" conversion: 20 digits are enough for 64 bits. *)
Definition show_int (n : Z) : list Z :=
  if n <? 0 then 45 :: dec_digits 20 (- n) [] else dec_digits 20 n [].

Definition print_indent (indent : nat) : list Z := replicate indent 9.

(** The literals of the format strings. *)
Definition str_PRINT : list Z := [80; 82; 73; 78; 84].
Definition str_LET : list Z := [76; 69; 84].
Definition str_IF : list Z := [73; 70].
Definition str_WHILE : list Z := [87; 72; 73; 76; 69].
Definition str_ELSE : list Z := [69; 76; 83; 69].
Definition str_END : list Z := [69; 78; 68].

Fixpoint print_ast_indented (n : node) (indent : nat) : list Z :=
  match n with
  | NUM v => show_int v
  | BINARY_OP o l r =>
      [o; 40] ++ print_ast_indented l indent ++ [44; 32] ++ print_ast_indented r indent ++ [41]
  | VAR x => [x]
  | SEQUENCE l =>
      (fix go (l : list node) : list Z :=
         match l with [] => [] | x :: l => print_ast_indented x indent ++ go l end) l
  | PRINT e => print_indent indent ++ str_PRINT ++ [40] ++ print_ast_indented e indent ++ [41; 10]
  | LET x e =>
      print_indent indent ++ str_LET ++ [40; x; 44; 32] ++ print_ast_indented e indent ++ [41; 10]
  | IF c a b =>
      print_indent indent ++ str_IF ++ [40] ++ print_ast_indented c indent ++ [44; 10] ++
      print_ast_indented a (S indent) ++
      match b with
      | Some b => print_indent indent ++ [44; 10] ++ print_ast_indented b (S indent)
      | None => []
      end ++
      print_indent indent ++ [41; 10]
  | WHILE c b =>
      print_indent indent ++ str_WHILE ++ [40] ++ print_ast_indented c indent ++ [44; 10] ++
      print_ast_indented b (S indent) ++ print_indent indent ++ [41; 10]
  end.

Definition print_ast (n : node) : list Z := print_ast_indented n 0.
