(* ===== verification/Parser.v ===== *)
(** * The TeenyBASIC parser (assembly-compiler/src/parser.c)

    A recursive-descent parser over a seekable stream.  The stream is its bytes
    and a position; fgetc() at the end leaves the position, and seeking back
    from position 0 fails without an effect.  Every loop and every recursive
    call takes a bound; [parse] starts with one more than the number of bytes,
    and [ParserTotal] shows that this is never exhausted. *)
From stdpp Require Import prelude list.
From Stdlib Require Import ZArith Lia.
From S2P Require Import Prelude Ast.
Open Scope Z_scope.
Open Scope c_scope.

Definition MAX_KEYWORD_LENGTH : Z := 100.

Record parser_state := mkParser { stream : list Z; position : nat }.

(** ** Characters (ctype.h in the C locale) *)

Definition isspace (c : Z) : bool := ((9 <=? c) && (c <=? 13)) || (c =? 32).
Definition isupper (c : Z) : bool := (65 <=? c) && (c <=? 90).

Definition is_variable_name (c : Z) : bool := isupper c.
Definition is_open_paren (c : Z) : bool := c =? 40.
Definition is_close_paren (c : Z) : bool := c =? 41.
Definition is_factor_op (c : Z) : bool := (c =? 42) || (c =? 47).
Definition is_term_op (c : Z) : bool := (c =? 43) || (c =? 45).
Definition is_comparison_op (c : Z) : bool := (c =? 60) || (c =? 61) || (c =? 62).
Definition is_operator (c : Z) : bool :=
  is_open_paren c || is_close_paren c || is_factor_op c || is_term_op c || is_comparison_op c.
Definition is_comment_start (c : Z) : bool := c =? 35.

(** ** The stream *)

Definition fgetc : M parser_state (option Z) := fun s =>
  match stream s !! position s with
  | Some b => Ok (Some b, mkParser (stream s) (S (position s)))
  | None => Ok (None, s)
  end.

Definition save_position : M parser_state nat := gets position.
Definition restore_position (p : nat) : M parser_state unit :=
  modify (fun s => mkParser (stream s) p).
Definition rewind_one : M parser_state unit :=
  modify (fun s => mkParser (stream s) (pred (position s))).

(** The next character that is not a space, or 0 at the end. *)
Fixpoint advance (fuel : nat) : M parser_state Z :=
  match fuel with
  | O => fail OutOfFuel
  | S f =>
      result <- fgetc;;
      match result with
      | None => ret 0
      | Some c => if negb (isspace c) then ret c else advance f
      end
  end.

Definition try_advance (fuel : nat) (predicate : Z -> bool) : M parser_state Z :=
  next <- advance fuel;;
  if negb (next =? 0) && negb (predicate next) then
    rewind_one;;; ret 0
  else ret next.

(** The loop of advance_until_separator(): [result] is the buffer filled so
    far, of [index] bytes. *)
Fixpoint separator_loop (fuel : nat) (result : list Z) : M parser_state (option (list Z)) :=
  match fuel with
  | O => fail OutOfFuel
  | S f =>
      let index := Z.of_nat (length result) in
      if MAX_KEYWORD_LENGTH <? index then ret None
      else
        c <- fgetc;;
        match c with
        | None => if 0 <? index then ret (Some result) else ret None
        | Some c =>
            if is_operator c && (0 <? index) then rewind_one;;; ret (Some result)
            else if isspace c then
              if 0 <? index then ret (Some result) else separator_loop f result
            else separator_loop f (result ++ [c])
        end
  end.

Definition advance_until_separator (fuel : nat) : M parser_state (option (list Z)) :=
  separator_loop fuel [].

Definition at_end (fuel : nat) : M parser_state bool :=
  c <- advance fuel;;
  if negb (c =? 0) then rewind_one;;; ret false else ret true.

Fixpoint skip_line (fuel : nat) : M parser_state unit :=
  match fuel with
  | O => fail OutOfFuel
  | S f =>
      character <- fgetc;;
      match character with
      | None => ret tt
      | Some c => if c =? 10 then ret tt else skip_line f
      end
  end.

(** ** Numbers: strtol() with base 0 *)

Definition digit_value (c : Z) : Z :=
  if (48 <=? c) && (c <=? 57) then c - 48
  else if (97 <=? c) && (c <=? 122) then c - 87
  else if (65 <=? c) && (c <=? 90) then c - 55
  else 36.

(** The value of the longest prefix of digits, and the rest. *)
Fixpoint strtol_digits (base : Z) (s : list Z) (acc : Z) : Z * list Z :=
  match s with
  | c :: s' => if digit_value c <? base then strtol_digits base s' (acc * base + digit_value c)
               else (acc, s)
  | [] => (acc, [])
  end.

Definition strtol_base (s : list Z) : Z * list Z :=
  match s with
  | 48 :: x :: d :: s' =>
      if ((x =? 120) || (x =? 88)) && (digit_value d <? 16) then (16, d :: s') else (8, s)
  | 48 :: _ => (8, s)
  | _ => (10, s)
  end.

Fixpoint skip_spaces (s : list Z) : list Z :=
  match s with
  | c :: s' => if isspace c then skip_spaces s' else s
  | [] => []
  end.

(** The value, the unread rest of the string and whether errno is ERANGE. *)
Definition strtol (str : list Z) : Z * list Z * bool :=
  let s := skip_spaces str in
  let '(negative, s) := match s with
                        | 45 :: s => (true, s)
                        | 43 :: s => (false, s)
                        | _ => (false, s)
                        end in
  let '(base, digits) := strtol_base s in
  match digits with
  | d :: _ =>
      if digit_value d <? base then
        let '(v, rest) := strtol_digits base digits 0 in
        let v := if negative then - v else v in
        if v <? - 2 ^ 63 then (- 2 ^ 63, rest, true)
        else if 2 ^ 63 <=? v then (2 ^ 63 - 1, rest, true)
        else (v, rest, false)
      else (0, str, false)
  | [] => (0, str, false)
  end.

Definition num (fuel : nat) : M parser_state (option node) :=
  num_string <- advance_until_separator fuel;;
  match num_string with
  | None => ret None
  | Some str =>
      let '(value, num_end, erange) := strtol (c_str str) in
      if erange || negb (bool_decide (num_end = [])) then ret None
      else ret (init_num_node value)
  end.

(** ** Expressions *)

Definition factor_with (expression : M parser_state (option node)) (fuel : nat) :
    M parser_state (option node) :=
  c <- try_advance fuel is_open_paren;;
  if negb (c =? 0) then
    node <- expression;;
    c <- try_advance fuel is_close_paren;;
    if c =? 0 then ret None else ret node
  else
    var <- try_advance fuel is_variable_name;;
    if negb (var =? 0) then ret (init_var_node var)
    else num fuel.

(** The loops of term() and expression(): operands joined by operators that
    satisfy [is_op], to the left. *)
Fixpoint operator_loop (fuel : nat) (is_op : Z -> bool) (operand : M parser_state (option node))
    (result : option node) : M parser_state (option node) :=
  match fuel with
  | O => fail OutOfFuel
  | S f =>
      next <- try_advance fuel is_op;;
      if next =? 0 then ret result
      else
        right <- operand;;
        operator_loop f is_op operand (init_binary_node next result right)
  end.

Definition term_with (expression : M parser_state (option node)) (fuel : nat) :
    M parser_state (option node) :=
  result <- factor_with expression fuel;;
  operator_loop fuel is_factor_op (factor_with expression fuel) result.

Fixpoint expression (fuel : nat) : M parser_state (option node) :=
  match fuel with
  | O => fail OutOfFuel
  | S f =>
      result <- term_with (expression f) fuel;;
      operator_loop fuel is_term_op (term_with (expression f) fuel) result
  end.

Definition comparison (fuel : nat) : M parser_state (option node) :=
  left <- expression fuel;;
  op <- try_advance fuel is_comparison_op;;
  right <- expression fuel;;
  ret (init_binary_node op left right).

(** ** Statements *)

Fixpoint skip_comments (fuel : nat) : M parser_state unit :=
  match fuel with
  | O => fail OutOfFuel
  | S f =>
      c <- try_advance fuel is_comment_start;;
      if c =? 0 then ret tt else skip_line fuel;;; skip_comments f
  end.

(** strcmp(next, keyword) == 0 on a string that may be NULL. *)
Definition is_keyword (next : option (list Z)) (keyword : list Z) : bool :=
  match next with Some s => strcmp_eq s keyword | None => false end.

Definition if_statement (sequence : M parser_state (option node)) (fuel : nat) :
    M parser_state (option node) :=
  condition <- comparison fuel;;
  if_branch <- sequence;;
  next <- advance_until_separator fuel;;
  '(else_branch, next) <-
    (if is_keyword next str_ELSE then
       else_branch <- sequence;;
       next <- advance_until_separator fuel;;
       ret (else_branch, next)
     else ret (None, next));;
  if negb (is_keyword next str_END) then ret None
  else
    next <- advance_until_separator fuel;;
    if negb (is_keyword next str_IF) then ret None
    else ret (init_if_node condition if_branch else_branch).

Definition while_statement (sequence : M parser_state (option node)) (fuel : nat) :
    M parser_state (option node) :=
  condition <- comparison fuel;;
  body <- sequence;;
  next <- advance_until_separator fuel;;
  if negb (is_keyword next str_END) then ret None
  else
    next <- advance_until_separator fuel;;
    if negb (is_keyword next str_WHILE) then ret None
    else ret (init_while_node condition body).

Definition let_statement (fuel : nat) : M parser_state (option node) :=
  var <- advance fuel;;
  if negb (is_variable_name var) then ret None
  else
    c <- advance fuel;;
    if negb (c =? 61) then ret None
    else
      value <- expression fuel;;
      ret (init_let_node var value).

(** The statement and the flag *end. *)
Definition statement_with (sequence : M parser_state (option node)) (fuel : nat) :
    M parser_state (option node * bool) :=
  skip_comments fuel;;;
  start <- save_position;;
  next <- advance_until_separator fuel;;
  match next with
  | None => ret (None, true)
  | Some _ =>
      if is_keyword next str_ELSE then
        restore_position start;;; ret (None, true)
      else if is_keyword next str_END then
        next <- advance_until_separator fuel;;
        if negb (is_keyword next str_IF || is_keyword next str_WHILE) then ret (None, false)
        else restore_position start;;; ret (None, true)
      else if is_keyword next str_PRINT then
        e <- expression fuel;; ret (init_print_node e, false)
      else if is_keyword next str_LET then
        n <- let_statement fuel;; ret (n, false)
      else if is_keyword next str_IF then
        n <- if_statement sequence fuel;; ret (n, false)
      else if is_keyword next str_WHILE then
        n <- while_statement sequence fuel;; ret (n, false)
      else ret (None, false)
  end.

(** The loop of sequence(): [statements] is the array filled so far. *)
Fixpoint sequence_loop (fuel : nat) (statement : M parser_state (option node * bool))
    (statements : list node) : M parser_state (option node) :=
  match fuel with
  | O => fail OutOfFuel
  | S f =>
      '(next, end_) <- statement;;
      if (end_ : bool) then
        match statements with
        | [statement] => ret (Some statement)
        | _ => ret (init_sequence_node statements)
        end
      else
        match next with
        | None => ret None
        | Some n => sequence_loop f statement (statements ++ [n])
        end
  end.

Fixpoint sequence (fuel : nat) : M parser_state (option node) :=
  match fuel with
  | O => fail OutOfFuel
  | S f => sequence_loop fuel (statement_with (sequence f) fuel) []
  end.

(** parse(): the tree, or NULL on a syntax error. *)
Definition parse_stream (fuel : nat) : M parser_state (option node) :=
  ast <- sequence fuel;;
  b <- at_end fuel;;
  if negb b then ret None else ret ast.

Definition parse (input : list Z) : res (option node) :=
  match parse_stream (S (length input)) (mkParser input 0) with
  | Ok (ast, _) => Ok ast
  | Err f => Err f
  end.
