(* ===== verification/ParserTotal.v ===== *)
(** * The parser terminates on every input

    Every parsing function started with a bound above the number of unread
    bytes returns, never moves the stream backwards, and moves it forward
    whenever it answers a token. *)
From stdpp Require Import prelude list.
From Stdlib Require Import ZArith Lia.
From S2P Require Import Prelude Ast Parser.
Open Scope Z_scope.
Open Scope c_scope.

Section Total.
Variable input : list Z.

(** [tot b n m q]: from every position of the input at or after [b] with fewer
    than [n] bytes left, [m] returns at a position at or after [b], and
    strictly after [b] if the value satisfies [q]. *)
Definition tot {A} (b n : nat) (m : M parser_state A) (q : A -> bool) : Prop :=
  forall p, (b <= p <= length input)%nat -> (length input - p < n)%nat ->
  exists a p', m (mkParser input p) = Ok (a, mkParser input p') /\
               (b <= p' <= length input)%nat /\ (q a = true -> (b < p')%nat).

Definition never {A} : A -> bool := fun _ => false.

(** The same, relative to the starting position. *)
Definition total {A} (n : nat) (m : M parser_state A) (q : A -> bool) : Prop :=
  forall b, tot b n m q.

Lemma tot_weaken {A} b n n' (m : M parser_state A) (q q' : A -> bool) :
  tot b n m q -> (n' <= n)%nat -> (forall a, q' a = true -> q a = true) -> tot b n' m q'.
Proof.
  intros H Hn Hq p Hp Hr. destruct (H p Hp) as (a & p' & E & Hp' & Hs); [lia|].
  exists a, p'. split_and!; [done|lia..|]. intros. by apply Hs, Hq.
Qed.

Lemma total_weaken {A} n n' (m : M parser_state A) (q q' : A -> bool) :
  total n m q -> (n' <= n)%nat -> (forall a, q' a = true -> q a = true) -> total n' m q'.
Proof. intros H Hn Hq b. by eapply tot_weaken. Qed.

Lemma tot_ret {A} b n (a : A) q : q a = false -> tot b n (ret a) q.
Proof. intros Hq p Hp _. exists a, p. split_and!; [done|lia..|]. by rewrite Hq. Qed.

(** After a step that moves forward, the rest has a smaller bound and moves
    forward as a whole. *)
Lemma total_bind {A B} n (m : M parser_state A) (k : A -> M parser_state B) p q :
  total n m p ->
  (forall a, p a = false -> total n (k a) q) ->
  (forall a, p a = true -> total (pred n) (k a) never) ->
  total n (bind m k) q.
Proof.
  intros Hm Hk Hs b x Hx Hr.
  destruct (Hm x x) as (a & x' & E & Hx' & Hst); [lia..|].
  rewrite (bind_ok _ _ _ _ _ E). destruct (p a) eqn:Ep.
  - specialize (Hst eq_refl).
    destruct (Hs a Ep x' x') as (c & y & E' & Hy & _); [lia..|].
    exists c, y. split_and!; [done|lia..].
  - apply (Hk a Ep b x'); lia.
Qed.

(** The common case: what follows does not depend on the progress of [m]. *)
Lemma total_seq {A B} n (m : M parser_state A) (k : A -> M parser_state B) p :
  total n m p -> (forall a, total n (k a) never) -> total n (bind m k) never.
Proof.
  intros Hm Hk. eapply total_bind; [done|auto|]. intros a _.
  eapply total_weaken; [apply Hk|lia|done].
Qed.

Lemma total_ret {A} n (a : A) : total n (ret a) never.
Proof. intros b. by apply tot_ret. Qed.

(** ** The stream *)

Definition nonzero (c : Z) : bool := negb (c =? 0).

Lemma fgetc_at p :
  (p <= length input)%nat ->
  (exists c, fgetc (mkParser input p) = Ok (Some c, mkParser input (S p)) /\ (p < length input)%nat) \/
  fgetc (mkParser input p) = Ok (None, mkParser input p).
Proof.
  intros Hp. unfold fgetc. cbn. destruct (input !! p) as [c|] eqn:E; [|by right].
  left. exists c. split; [done|]. by eapply lookup_lt_Some.
Qed.

Lemma advance_at n p :
  (p <= length input)%nat -> (length input - p < n)%nat ->
  exists c p', advance n (mkParser input p) = Ok (c, mkParser input p') /\
               (p <= p' <= length input)%nat /\ (c <> 0 -> (p < p')%nat).
Proof.
  revert p. induction n as [|n IH]; intros p Hp Hr; [lia|]. cbn [advance].
  destruct (fgetc_at p Hp) as [(c & E & Hlt)|E]; rewrite (bind_ok _ _ _ _ _ E).
  - destruct (isspace c); cbn [negb].
    + destruct (IH (S p)) as (c' & p' & -> & Hp' & _); [lia..|]. exists c', p'. split_and!; [done|lia..].
    + exists c, (S p). split_and!; [done|lia..].
  - exists 0, p. split_and!; [done|lia..].
Qed.

Lemma total_advance n : total n (advance n) nonzero.
Proof.
  intros b p Hp Hr. destruct (advance_at n p) as (c & p' & E & Hp' & Hs); [lia..|].
  exists c, p'. split_and!; [done|lia..|]. unfold nonzero. intros Hc.
  destruct (Z.eqb_spec c 0); [done|]. specialize (Hs n0). lia.
Qed.

Lemma total_try_advance n f : total n (try_advance n f) nonzero.
Proof.
  intros b p Hp Hr. unfold try_advance.
  destruct (advance_at n p) as (c & p' & E & Hp' & Hs); [lia..|].
  rewrite (bind_ok _ _ _ _ _ E). destruct (Z.eqb_spec c 0) as [-> |Hc]; cbn [negb andb].
  - exists 0, p'. split_and!; [done|lia..|done].
  - specialize (Hs Hc). destruct (f c); cbn [negb].
    + exists c, p'. split_and!; [done|lia..].
    + exists 0, (pred p'). split_and!; [done|lia..|done].
Qed.

Definition some {A} (o : option A) : bool := match o with Some _ => true | None => false end.

(** The buffer of advance_until_separator() is never written past its end. *)
Lemma separator_at n p tok :
  (p <= length input)%nat -> (length input - p < n)%nat -> (length tok <= 101)%nat ->
  exists r p', separator_loop n tok (mkParser input p) = Ok (r, mkParser input p') /\
               (p <= p' <= length input)%nat /\
               (forall t, r = Some t -> (tok <> [] \/ p < p')%nat /\ (length t <= 100)%nat).
Proof.
  revert p tok. induction n as [|n IH]; intros p tok Hp Hr Ht; [lia|]. cbn [separator_loop].
  unfold MAX_KEYWORD_LENGTH. destruct (Z.ltb_spec 100 (Z.of_nat (length tok))) as [Hlong|Hlong].
  { exists None, p. split_and!; [done|lia..|done]. }
  assert (Hpos : (0 <? Z.of_nat (length tok)) = match tok with [] => false | _ => true end)
    by (by destruct tok).
  destruct (fgetc_at p Hp) as [(c & E & Hlt)|E]; rewrite (bind_ok _ _ _ _ _ E), Hpos.
  - assert (Hgo : forall tok', (length tok' <= 101)%nat ->
      exists r p', separator_loop n tok' (mkParser input (S p)) = Ok (r, mkParser input p') /\
               (p < p' <= length input)%nat /\
               (forall t, r = Some t -> (length t <= 100)%nat)).
    { intros tok' Ht'. destruct (IH (S p) tok') as (r & p' & E' & H1 & H2); [lia..|].
      exists r, p'. split_and!; [done|lia..|]. intros t Et. by apply H2. }
    destruct tok as [|t0 tok0].
    + rewrite andb_false_r.
      destruct (isspace c); [destruct (Hgo []) as (r & p' & -> & H1 & H2)
                            |destruct (Hgo ([] ++ [c])) as (r & p' & -> & H1 & H2)]; [simpl; lia| |simpl; lia|];
        exists r, p'; (split_and!; [done|lia..|]); intros t Et; (split; [right; lia|auto]).
    + remember (t0 :: tok0) as tok eqn:Etok. assert (tok <> []) by (by subst). clear Etok.
      rewrite andb_true_r. destruct (is_operator c).
      { exists (Some tok), p. split_and!; [done|lia..|]. intros t [= <-]. split; [by left|clear Hpos; lia]. }
      destruct (isspace c).
      { exists (Some tok), (S p). split_and!; [done|lia..|]. intros t [= <-]. split; [by left|clear Hpos; lia]. }
      destruct (Hgo (tok ++ [c])) as (r & p' & -> & H1 & H2); [rewrite length_app; simpl length; lia|].
      exists r, p'. split_and!; [done|lia..|]. intros t Et. split; [by left|auto].
  - destruct tok as [|t0 tok0].
    + exists None, p. split_and!; [done|lia..|done].
    + exists (Some (t0 :: tok0)), p. split_and!; [done|lia..|]. intros t [= <-]. split; [by left|lia].
Qed.

Lemma total_separator n : total n (advance_until_separator n) some.
Proof.
  intros b p Hp Hr. destruct (separator_at n p []) as (r & p' & E & H2 & H3); [lia|lia|simpl; lia|].
  exists r, p'. split_and!; [done|lia..|].
  destruct r as [t|]; [|done]. intros _. destruct (H3 t eq_refl) as [[?|?] _]; [done|lia].
Qed.

Lemma total_skip_line n : total n (skip_line n) never.
Proof.
  induction n as [|n IH]; intros b p Hp Hr; [lia|]. cbn [skip_line].
  destruct (fgetc_at p) as [(c & E & Hlt)|E]; [lia|..]; rewrite (bind_ok _ _ _ _ _ E).
  - destruct (c =? 10); [by exists tt, (S p); split_and!; [|lia..|]|].
    destruct (IH b (S p)) as (a & p' & -> & ? & _); [lia..|]. by exists a, p'.
  - exists tt, p. by split_and!; [|lia..|].
Qed.

(** ** Expressions *)

Lemma total_num n : total n (num n) never.
Proof.
  eapply total_seq; [apply total_separator|]. intros [str|]; [|apply total_ret].
  destruct (strtol _) as [[v e] er]. destruct (_ || _); apply total_ret.
Qed.

Lemma total_factor n e : total (pred n) e never -> total n (factor_with e n) never.
Proof.
  intros He. eapply total_bind; [apply total_try_advance| |].
  - intros c Hc. unfold nonzero in Hc. rewrite Hc. eapply total_seq; [apply total_try_advance|].
    intros v. destruct (negb (v =? 0)); [apply total_ret|apply total_num].
  - intros c Hc. unfold nonzero in Hc. rewrite Hc. eapply total_seq; [done|]. intros nd.
    eapply total_seq; [eapply total_weaken; [apply (total_try_advance n)|lia|done]|].
    intros c'. destruct (c' =? 0); apply total_ret.
Qed.

Lemma total_operators n f e r :
  total n e never -> total n (operator_loop n f e r) never.
Proof.
  revert r. induction n as [|n IH]; intros r He; [by intros b p Hp Hr; lia|]. cbn [operator_loop].
  eapply total_bind; [apply total_try_advance| |]; intros c Hc; unfold nonzero in Hc.
  - destruct (c =? 0); [apply total_ret|done].
  - destruct (c =? 0); [done|]. cbn [pred]. eapply total_seq.
    + eapply total_weaken; [apply He|lia|done].
    + intros x. apply IH. eapply total_weaken; [apply He|lia|done].
Qed.

Lemma total_term n e : total (pred n) e never -> total n (term_with e n) never.
Proof.
  intros He. eapply total_seq; [by apply total_factor|]. intros r.
  by apply total_operators, total_factor.
Qed.

Lemma total_expression n : total n (expression n) never.
Proof.
  induction n as [|n IH]; [by intros b p Hp Hr; lia|]. cbn [expression].
  eapply total_seq; [by apply total_term|]. intros r. by apply total_operators, total_term.
Qed.

Lemma total_comparison n : total n (comparison n) never.
Proof.
  eapply total_seq; [apply total_expression|]. intros l.
  eapply total_seq; [apply total_try_advance|]. intros o.
  eapply total_seq; [apply total_expression|]. intros r. apply total_ret.
Qed.

(** ** Statements *)

Lemma total_skip_comments n : total n (skip_comments n) never.
Proof.
  induction n as [|n IH]; [by intros b p Hp Hr; lia|]. cbn [skip_comments].
  eapply total_bind; [apply total_try_advance| |]; intros c Hc; unfold nonzero in Hc.
  - destruct (c =? 0); [apply total_ret|done].
  - destruct (c =? 0); [done|]. cbn [pred]. eapply total_seq; [|intros; apply IH].
    eapply total_weaken; [apply (total_skip_line (S n))|lia|done].
Qed.

(** One step of a total computation: the tactic picks the lemma of the callee. *)
Ltac total_step :=
  match goal with
  | |- total _ (ret _) never => apply total_ret
  | |- total _ (if ?b then _ else _) never => destruct b
  | |- total _ (bind (bind _ _) _) never => apply (total_seq _ _ _ never); [|intros ?]
  | |- total _ (bind (if ?b then _ else _) _) never => apply (total_seq _ _ _ never); [|intros ?]
  | |- total _ (bind (advance_until_separator _) _) never => eapply total_seq; [eapply total_weaken; [apply total_separator|lia|by intros ? ?]|intros ?]
  | |- total _ (bind (advance _) _) never => eapply total_seq; [eapply total_weaken; [apply total_advance|lia|by intros ? ?]|intros ?]
  | |- total _ (bind (comparison _) _) never => eapply total_seq; [eapply total_weaken; [apply total_comparison|lia|by intros ? ?]|intros ?]
  | |- total _ (bind (expression _) _) never => eapply total_seq; [eapply total_weaken; [apply total_expression|lia|by intros ? ?]|intros ?]
  | H : total _ ?m never |- total _ (bind ?m _) never => eapply total_seq; [apply H|intros ?]
  | |- total _ (match ?x with _ => _ end) never => destruct x
  end.

Lemma total_if m n q : (m <= n)%nat -> total m q never -> total m (if_statement q n) never.
Proof. intros Hm Hq. unfold if_statement. repeat total_step. Qed.

Lemma total_while m n q : (m <= n)%nat -> total m q never -> total m (while_statement q n) never.
Proof. intros Hm Hq. unfold while_statement. repeat total_step. Qed.

Lemma total_let m n : (m <= n)%nat -> total m (let_statement n) never.
Proof. intros Hm. unfold let_statement. repeat total_step. Qed.

Definition more (r : option node * bool) : bool := some r.1 && negb r.2.

Lemma total_statement n q : total (pred n) q never -> total n (statement_with q n) more.
Proof.
  intros Hq b p Hp Hr. unfold statement_with.
  destruct (total_skip_comments n p p) as (u & start & E & Hst & _); [lia..|].
  rewrite (bind_ok _ _ _ _ _ E). unfold save_position. rewrite bind_gets. cbn [position].
  destruct (total_separator n start start) as (next & p1 & E1 & Hp1 & Hs1); [lia..|].
  rewrite (bind_ok _ _ _ _ _ E1). destruct next as [tok|].
  2: { exists (None, true), p1. split_and!; [done|lia..|done]. }
  specialize (Hs1 eq_refl).
  assert (Hafter : forall m : M parser_state (option node * bool),
            total (pred n) m never ->
            exists a p', m (mkParser input p1) = Ok (a, mkParser input p') /\
                         (b <= p' <= length input)%nat /\ (more a = true -> (b < p')%nat)).
  { intros m Hm. destruct (Hm p1 p1) as (a & p' & Em & Hp' & _); [lia..|].
    exists a, p'. split_and!; [done|lia..]. }
  assert (Hback : exists a p', (restore_position start;;; ret (None, true)) (mkParser input p1) =
                    Ok (a, mkParser input p') /\ (b <= p' <= length input)%nat /\
                    (more a = true -> (b < p')%nat)).
  { exists (None, true), start. split_and!; [done|lia..|done]. }
  set (next := Some tok).
  destruct (is_keyword next str_ELSE); [done|].
  destruct (is_keyword next str_END).
  { destruct (total_separator n p1 p1) as (next' & p2 & E2 & Hp2 & _); [lia..|].
    rewrite (bind_ok _ _ _ _ _ E2). destruct (negb _).
    - exists (None, false), p2. split_and!; [done|lia..|done].
    - exists (None, true), start. split_and!; [done|lia..|done]. }
  assert (Hlt : (pred n <= n)%nat) by lia.
  destruct (is_keyword next str_PRINT); [apply Hafter; repeat total_step|].
  destruct (is_keyword next str_LET).
  { apply Hafter. eapply total_seq; [by apply (total_let (pred n) n)|intros ?; apply total_ret]. }
  destruct (is_keyword next str_IF).
  { apply Hafter. eapply total_seq; [by apply total_if|intros ?; apply total_ret]. }
  destruct (is_keyword next str_WHILE).
  { apply Hafter. eapply total_seq; [by apply total_while|intros ?; apply total_ret]. }
  exists (None, false), p1. split_and!; [done|lia..|done].
Qed.

Lemma total_sequence_loop n m st l :
  (n <= m)%nat -> total m st more -> total n (sequence_loop n st l) never.
Proof.
  revert l. induction n as [|n IH]; intros l Hn Hst; [by intros b p Hp Hr; lia|]. cbn [sequence_loop].
  eapply total_bind; [eapply total_weaken; [apply Hst|lia|by intros ? ?]| |]; intros [x e] Hx.
  - destruct e; [destruct l as [|y [|z l]]; apply total_ret|]. destruct x; [done|apply total_ret].
  - destruct x as [x|]; [|done]. destruct e; [done|]. apply IH; [lia|done].
Qed.

Lemma total_sequence n : total n (sequence n) never.
Proof.
  induction n as [|n IH]; [by intros b p Hp Hr; lia|]. cbn [sequence].
  apply (total_sequence_loop (S n) (S n)); [lia|]. by apply total_statement.
Qed.

Lemma total_parse n : total n (parse_stream n) never.
Proof.
  eapply total_seq; [apply total_sequence|]. intros t.
  intros b p Hp Hr. unfold at_end.
  destruct (advance_at n p) as (c & p' & E & Hp' & Hs); [lia..|].
  rewrite bind_bind, (bind_ok _ _ _ _ _ E). destruct (Z.eqb_spec c 0) as [-> |Hc]; cbn [negb].
  - exists t, p'. by split_and!; [|lia..|].
  - specialize (Hs Hc). exists None, (pred p'). by split_and!; [|lia..|].
Qed.
End Total.

(** parse() returns on every input. *)
Lemma parse_returns input : exists ast, parse input = Ok ast.
Proof.
  destruct (total_parse input (S (length input)) 0%nat 0%nat) as (t & p & E & _); [lia..|].
  exists t. unfold parse. by rewrite E.
Qed.
