(* ===== verification/ParserRoundtrip.v ===== *)
(** * A printer of TeenyBASIC and the parser on its output

    [show] prints a tree as source text, every token followed by one space.
    The lemmas follow the parser over that text: a state is described by the
    text that is left once leading spaces are skipped. *)
From stdpp Require Import prelude list.
From Stdlib Require Import ZArith Lia.
From S2P Require Import Prelude Ast Parser.
Open Scope Z_scope.
Open Scope c_scope.

(** ** The printer *)

Definition token (w : list Z) : list Z := w ++ [32].

Fixpoint show (n : node) : list Z :=
  match n with
  | NUM v => token (show_int v)
  | VAR x => token [x]
  | BINARY_OP o l r => token [40] ++ show l ++ token [o] ++ show r ++ token [41]
  | SEQUENCE l => (fix go (l : list node) : list Z := match l with [] => [] | x :: l => show x ++ go l end) l
  | PRINT e => token str_PRINT ++ show e
  | LET x e => token str_LET ++ token [x] ++ token [61] ++ show e
  | IF c a b =>
      token str_IF ++ show_condition c ++ show a ++
      match b with Some b => token str_ELSE ++ show b | None => [] end ++
      token str_END ++ token str_IF
  | WHILE c b => token str_WHILE ++ show_condition c ++ show b ++ token str_END ++ token str_WHILE
  end
with show_condition (c : node) : list Z :=
  match c with
  | BINARY_OP o l r => show l ++ token [o] ++ show r
  | _ => []
  end.

(** ** The trees the parser builds *)

Definition is_arith (o : Z) : bool := is_factor_op o || is_term_op o.

Fixpoint wf_expr (n : node) : bool :=
  match n with
  | NUM v => (- 2 ^ 63 <=? v) && (v <? 2 ^ 63)
  | VAR x => isupper x
  | BINARY_OP o l r => is_arith o && wf_expr l && wf_expr r
  | _ => false
  end.

Definition wf_cond (n : node) : bool :=
  match n with
  | BINARY_OP o l r => is_comparison_op o && wf_expr l && wf_expr r
  | _ => false
  end.

Definition is_sequence (n : node) : bool := match n with SEQUENCE _ => true | _ => false end.

(** A statement, or a block: a sequence of a number of statements other than
    one. *)
Fixpoint wf_block (n : node) : bool :=
  match n with
  | SEQUENCE l =>
      negb (length l =? 1)%nat &&
      (fix go (l : list node) : bool :=
         match l with [] => true | x :: l => negb (is_sequence x) && wf_block x && go l end) l
  | PRINT e => wf_expr e
  | LET x e => isupper x && wf_expr e
  | IF c a b => wf_cond c && wf_block a && match b with Some b => wf_block b | None => true end
  | WHILE c b => wf_cond c && wf_block b
  | _ => false
  end.

(** ** Following the parser over a text *)

Definition norm (t : list Z) : Prop := skip_spaces t = t.

Section Text.
Variable input : list Z.

(** The text left at position [p], leading spaces aside. *)
Definition here (p : nat) (t : list Z) : Prop :=
  (p <= length input)%nat /\ skip_spaces (drop p input) = t.

(** [m] with a bound above the unread bytes turns the text [t] into [t'] and
    answers [a]. *)
Definition eats {A} (n : nat) (m : M parser_state A) (t : list Z) (a : A) (t' : list Z) : Prop :=
  forall p, here p t -> (length input - p < n)%nat ->
  exists p', m (mkParser input p) = Ok (a, mkParser input p') /\ (p <= p')%nat /\ here p' t'.

Lemma eats_ret {A} n (a : A) t : eats n (ret a) t a t.
Proof. intros p Hp _. by exists p. Qed.

Lemma eats_bind {A B} n (m : M parser_state A) (k : A -> M parser_state B) t a t' b t'' :
  eats n m t a t' -> eats n (k a) t' b t'' -> eats n (bind m k) t b t''.
Proof.
  intros Hm Hk p Hp Hr. destruct (Hm p Hp Hr) as (p' & E & Hle & Hp').
  destruct (Hk p' Hp') as (p'' & E' & Hle' & Hp''); [lia|].
  exists p''. rewrite (bind_ok _ _ _ _ _ E). split_and!; [done|lia|done].
Qed.

(** After a step that shortens the text, a smaller bound is enough. *)
Lemma eats_bind_strict {A B} n (m : M parser_state A) (k : A -> M parser_state B) t a t' b t'' :
  eats n m t a t' -> (length t' < length t)%nat -> eats (pred n) (k a) t' b t'' ->
  eats n (bind m k) t b t''.
Proof.
  intros Hm Hlt Hk p Hp Hr. destruct (Hm p Hp Hr) as (p' & E & Hle & Hp').
  assert (p <> p') by (intros <-; destruct Hp as [_ <-], Hp' as [_ <-]; lia).
  destruct Hp' as [Hpl Hpt]. destruct (Hk p') as (p'' & E' & Hle' & Hp''); [done|lia|].
  exists p''. rewrite (bind_ok _ _ _ _ _ E). split_and!; [done|lia|done].
Qed.

Lemma eats_weaken {A} n n' (m : M parser_state A) t a t' :
  eats n m t a t' -> (n' <= n)%nat -> eats n' m t a t'.
Proof. intros H Hn p Hp Hr. apply H; [done|lia]. Qed.

(** *** Characters *)

Lemma drop_here p c t :
  drop p input = c :: t -> fgetc (mkParser input p) = Ok (Some c, mkParser input (S p)) /\
  drop (S p) input = t /\ (p < length input)%nat.
Proof.
  intros E. assert (Hl : input !! p = Some c).
  { rewrite <- (Nat.add_0_r p), <- lookup_drop, E. done. }
  unfold fgetc. cbn. rewrite Hl. split_and!; [done| |by eapply lookup_lt_Some].
  rewrite <- Nat.add_1_r, <- drop_drop, E. done.
Qed.

Lemma drop_end p : (p <= length input)%nat -> drop p input = [] -> fgetc (mkParser input p) = Ok (None, mkParser input p).
Proof.
  intros Hp E. unfold fgetc. cbn. assert (input !! p = None) as ->; [|done].
  apply lookup_ge_None. apply (f_equal length) in E. rewrite length_drop in E. simpl in E. lia.
Qed.

(** advance() and the loop that skips spaces in front of a token. *)
Lemma advance_skip n p c t :
  skip_spaces (drop p input) = c :: t -> (length input - p < n)%nat ->
  exists p', advance n (mkParser input p) = Ok (c, mkParser input (S p')) /\ (p <= p')%nat /\
             drop p' input = c :: t /\ drop (S p') input = t /\ (p' < length input)%nat.
Proof.
  revert p. induction n as [|n IH]; intros p E Hr; [lia|].
  destruct (drop p input) as [|d u] eqn:Ed; [done|]. destruct (drop_here p d u Ed) as (Ef & Ed' & Hlt).
  cbn [advance]. rewrite (bind_ok _ _ _ _ _ Ef). cbn [skip_spaces] in E. destruct (isspace d) eqn:Es.
  - cbn [negb]. destruct (IH (S p)) as (p' & Ea & Hle & H1 & H2); [by rewrite Ed'|lia|].
    exists p'. destruct H2. split_and!; done || lia.
  - simplify_eq. exists p. split_and!; done || lia.
Qed.

Lemma advance_end n p :
  (p <= length input)%nat -> skip_spaces (drop p input) = [] -> (length input - p < n)%nat ->
  exists p', advance n (mkParser input p) = Ok (0, mkParser input p') /\ (p <= p')%nat /\ here p' [].
Proof.
  revert p. induction n as [|n IH]; intros p Hp E Hr; [lia|]. cbn [advance].
  destruct (drop p input) as [|d u] eqn:Ed.
  - rewrite (bind_ok _ _ _ _ _ (drop_end p Hp Ed)). exists p. unfold here. rewrite Ed. split_and!; done || lia.
  - destruct (drop_here p d u Ed) as (Ef & Ed' & Hlt). rewrite (bind_ok _ _ _ _ _ Ef).
    cbn [skip_spaces] in E. destruct (isspace d) eqn:Es; [|done]. cbn [negb].
    destruct (IH (S p)) as (p' & -> & Hle & Hh); [lia|by rewrite Ed'|lia|]. exists p'. split_and!; done || lia || apply Hh.
Qed.

Lemma eats_advance n c t : eats n (advance n) (c :: t) c (skip_spaces t).
Proof.
  intros p [Hp E] Hr. destruct (advance_skip n p c t E Hr) as (p' & Ea & Hle & _ & Ed & Hlt).
  exists (S p'). unfold here; rewrite Ed; split_and!; done || lia.
Qed.

Lemma eats_try_hit n f c t :
  f c = true -> eats n (try_advance n f) (c :: t) c (skip_spaces t).
Proof.
  intros Hf. eapply eats_bind; [apply eats_advance|]. cbv beta. rewrite Hf, andb_false_r. apply eats_ret.
Qed.

Lemma eats_try_miss n f c t :
  c <> 0 -> f c = false -> norm (c :: t) -> eats n (try_advance n f) (c :: t) 0 (c :: t).
Proof.
  intros Hc Hf Hn p [Hp E] Hr. destruct (advance_skip n p c t E Hr) as (p' & Ea & Hle & Ed & _ & Hlt).
  exists p'. unfold try_advance. rewrite (bind_ok _ _ _ _ _ Ea), Hf. destruct (Z.eqb_spec c 0); [done|].
  unfold here; rewrite Ed; split_and!; done || lia.
Qed.

Lemma eats_try_end n f : eats n (try_advance n f) [] 0 [].
Proof.
  intros p [Hp E] Hr. destruct (advance_end n p Hp E Hr) as (p' & Ea & Hle & Hh).
  exists p'. unfold try_advance. by rewrite (bind_ok _ _ _ _ _ Ea).
Qed.

(** *** Words *)

Definition word_char (c : Z) : bool := negb (isspace c) && negb (is_operator c).

(** The loop once the buffer is not empty, up to the space after the word. *)
Lemma separator_word n p tok w t :
  tok <> [] -> Forall (fun c => word_char c = true) w -> (length (tok ++ w) <= 100)%nat ->
  drop p input = w ++ 32 :: t -> (length input - p < n)%nat ->
  exists p', separator_loop n tok (mkParser input p) = Ok (Some (tok ++ w), mkParser input p') /\
             (p < p' <= length input)%nat /\ drop p' input = t.
Proof.
  intros Htok Hw. revert n p tok Htok.
  induction Hw as [|c w Hc Hw IH]; intros n p tok Htok Hlen Ed Hr.
  - destruct n as [|n]; [lia|]. destruct (drop_here p 32 t Ed) as (Ef & Ed' & Hlt).
    cbn [separator_loop]. rewrite app_nil_r in *. unfold MAX_KEYWORD_LENGTH.
    replace (100 <? Z.of_nat (length tok)) with false by (symmetry; apply Z.ltb_ge; lia).
    rewrite (bind_ok _ _ _ _ _ Ef).
    replace (0 <? Z.of_nat (length tok)) with true by (destruct tok; done).
    exists (S p). split_and!; [done|lia..|done].
  - destruct n as [|n]; [lia|]. cbn [app] in Ed. destruct (drop_here p c _ Ed) as (Ef & Ed' & Hlt).
    rewrite length_app in Hlen. simpl in Hlen.
    cbn [separator_loop]. unfold MAX_KEYWORD_LENGTH.
    replace (100 <? Z.of_nat (length tok)) with false by (symmetry; apply Z.ltb_ge; lia).
    rewrite (bind_ok _ _ _ _ _ Ef). unfold word_char in Hc.
    apply andb_true_iff in Hc as [Hs Ho]. apply negb_true_iff in Hs, Ho. rewrite Hs, Ho. cbn [andb].
    destruct (IH n (S p) (tok ++ [c])) as (p' & E & Hp' & Hd).
    { by destruct tok. } { rewrite !length_app. simpl. lia. } { done. } { lia. }
    exists p'. rewrite E. split_and!; [by rewrite <- app_assoc|lia..|done].
Qed.

(** The loop in front of a word. *)
Lemma separator_skip n p c w t :
  skip_spaces (drop p input) = c :: w ++ 32 :: t -> Forall (fun c => word_char c = true) w ->
  (length w < 100)%nat -> (length input - p < n)%nat ->
  exists p', separator_loop n [] (mkParser input p) = Ok (Some (c :: w), mkParser input p') /\
             (p < p' <= length input)%nat /\ drop p' input = t.
Proof.
  intros E Hw Hl. revert p E. induction n as [|n IH]; intros p E Hr; [lia|].
  destruct (drop p input) as [|d u] eqn:Ed; [done|]. destruct (drop_here p d u Ed) as (Ef & Ed' & Hlt).
  cbn [separator_loop length]. change (Z.of_nat 0) with 0. change (MAX_KEYWORD_LENGTH <? 0) with false. cbv iota.
  rewrite (bind_ok _ _ _ _ _ Ef). change (0 <? 0) with false. rewrite andb_false_r.
  cbn [skip_spaces] in E. destruct (isspace d) eqn:Es.
  - destruct (IH (S p)) as (p' & -> & Hle & H1); [by rewrite Ed'|lia|].
    exists p'. split_and!; [done|lia..|done].
  - simplify_eq. change ([] ++ [c]) with [c]. destruct (separator_word n (S p) [c] w t) as (p' & -> & Hp' & Hd); [done|done|simpl; lia|done|lia|].
    exists p'. split_and!; [done|lia..|done].
Qed.

Lemma eats_word n c w t :
  Forall (fun c => word_char c = true) w -> (length w < 100)%nat ->
  eats n (advance_until_separator n) (token (c :: w) ++ t) (Some (c :: w)) (skip_spaces t).
Proof.
  intros Hw Hl p [Hp E] Hr. unfold token in E. rewrite <- app_assoc in E.
  destruct (separator_skip n p c w t E Hw Hl Hr) as (p' & Es & Hp' & Hd).
  exists p'. unfold here; rewrite Hd; split_and!; done || lia.
Qed.

Lemma eats_no_word n : eats n (advance_until_separator n) [] None [].
Proof.
  intros p [Hp E]. revert p Hp E. induction n as [|n IH]; intros p Hp E Hr; [lia|].
  unfold advance_until_separator in *. cbn [separator_loop length]. change (Z.of_nat 0) with 0.
  change (MAX_KEYWORD_LENGTH <? 0) with false. cbv iota.
  destruct (drop p input) as [|d u] eqn:Ed.
  - rewrite (bind_ok _ _ _ _ _ (drop_end p Hp Ed)). exists p. unfold here. rewrite Ed. split_and!; done || lia.
  - destruct (drop_here p d u Ed) as (Ef & Ed' & Hlt). rewrite (bind_ok _ _ _ _ _ Ef).
    change (0 <? 0) with false. rewrite andb_false_r. cbn [skip_spaces] in E.
    destruct (isspace d); [|done].
    destruct (IH (S p)) as (p' & -> & Hle & Hh); [lia|by rewrite Ed'|lia|]. exists p'. split_and!; done || lia || apply Hh.
Qed.
End Text.

(** ** Printing a program and parsing it again

    The parser reads back every tree it can build from the text of
    [show]. *)

(** ** Numbers *)

Definition digit (c : Z) : Prop := 48 <= c <= 57.

Lemma digit_value_digit c : digit c -> digit_value c = c - 48.
Proof. intros [H1 H2]. unfold digit_value. by rewrite (proj2 (Z.leb_le _ _) H1), (proj2 (Z.leb_le _ _) H2). Qed.

Lemma digit_word c : digit c -> word_char c = true /\ c <> 0.
Proof.
  intros H. split; [|unfold digit in H; lia].
  assert (c ∈ [48; 49; 50; 51; 52; 53; 54; 55; 56; 57]) as Hc.
  { unfold digit in H. rewrite !elem_of_cons. lia. }
  repeat (apply elem_of_cons in Hc as [-> |Hc]; [reflexivity|]). by apply not_elem_of_nil in Hc.
Qed.

(** The digits of a number, most significant first. *)
Lemma dec_digits_spec fuel n acc :
  0 <= n < 10 ^ Z.of_nat (S fuel) ->
  exists d ds, dec_digits (S fuel) n acc = d :: ds ++ acc /\ Forall digit (d :: ds) /\
               (0 < n -> d <> 48) /\ (n = 0 -> d :: ds = [48]) /\ (length ds <= fuel)%nat /\
               forall a rest, strtol_digits 10 (d :: ds ++ rest) a =
                              strtol_digits 10 rest (a * 10 ^ Z.of_nat (S (length ds)) + n).
Proof.
  assert (Hstep : forall m, 0 <= m < 10 -> digit (48 + m) /\
            forall rest a, strtol_digits 10 ((48 + m) :: rest) a = strtol_digits 10 rest (a * 10 + m)).
  { intros m Hm. assert (Hd : digit (48 + m)) by (unfold digit; lia). split; [done|].
    intros rest a. cbn [strtol_digits]. rewrite digit_value_digit by done.
    rewrite (proj2 (Z.ltb_lt _ _)) by lia. do 2 f_equal. lia. }
  revert n acc. induction fuel as [|fuel IH]; intros n acc Hn.
  all: pose proof (Z.mod_pos_bound n 10 ltac:(lia)) as Hm; pose proof (Z.div_mod n 10 ltac:(lia)) as Hdm;
       destruct (Hstep (n mod 10) Hm) as [Hd Hs];
       change (dec_digits (S ?f) n acc) with
         (if n / 10 =? 0 then (48 + n mod 10) :: acc else dec_digits f (n / 10) ((48 + n mod 10) :: acc)).
  - change (10 ^ Z.of_nat 1) with 10 in Hn. rewrite (Z.div_small n 10), Z.eqb_refl by lia.
    rewrite Z.mod_small in * by lia.
    exists (48 + n), []. split_and!; [done|by constructor|lia|by intros ->|done|].
    intros a rest. rewrite app_nil_l, Hs. do 2 f_equal.
  - destruct (Z.eqb_spec (n / 10) 0) as [E|E].
    + exists (48 + n mod 10), []. split_and!; [done|by constructor|lia|by intros ->|simpl; lia|].
      intros a rest. rewrite app_nil_l, Hs. f_equal. change (10 ^ Z.of_nat (S (length []))) with 10. lia.
    + destruct (IH (n / 10) ((48 + n mod 10) :: acc)) as (d & ds & -> & Hds & Hd0 & _ & Hlen & Hval).
      { split; [apply Z.div_pos; lia|]. apply Z.div_lt_upper_bound; [lia|].
        rewrite Nat2Z.inj_succ, Z.pow_succ_r in Hn by lia. lia. }
      pose proof (Z.div_pos n 10 ltac:(lia) ltac:(lia)).
      exists d, (ds ++ [48 + n mod 10]). rewrite <- app_assoc. split_and!.
      * done.
      * inversion_clear Hds. constructor; [done|]. apply Forall_app. by split; [|constructor].
      * intros _. apply Hd0. lia.
      * intros ->. by destruct E.
      * rewrite length_app. simpl. lia.
      * intros a rest. rewrite <- app_assoc, Hval. cbn [app]. rewrite Hs. f_equal.
        rewrite length_app. cbn [length]. rewrite Nat.add_1_r.
        rewrite (Nat2Z.inj_succ (S (length ds))), Z.pow_succ_r by lia. lia.
Qed.

Lemma strtol_base_nonzero c s : c <> 48 -> digit c -> strtol_base (c :: s) = (10, c :: s).
Proof.
  intros Hc Hd. assert (c ∈ [49; 50; 51; 52; 53; 54; 55; 56; 57]) as Hi.
  { unfold digit in Hd. rewrite !elem_of_cons. lia. }
  repeat (apply elem_of_cons in Hi as [-> |Hi]; [reflexivity|]). by apply not_elem_of_nil in Hi.
Qed.

(** strtol() on decimal digits without a sign. *)
Definition strtol_unsigned (str : list Z) (negative : bool) (s : list Z) : Z * list Z * bool :=
  let '(base, digits) := strtol_base s in
  match digits with
  | d :: _ =>
      if digit_value d <? base then
        let '(v, rest) := strtol_digits base digits 0 in
        let v := if negative then - v else v in
        if v <? - 2 ^ 63 then (- 2 ^ 63, rest, true)
        else if 2 ^ 63 <=? v then (2 ^ 63 - 1, rest, true)
        else (v, rest, false)
      else (0, str, false)
  | [] => (0, str, false)
  end.

Lemma strtol_neg s : strtol (45 :: s) = strtol_unsigned (45 :: s) true s.
Proof. done. Qed.

Lemma strtol_digit c s : digit c -> strtol (c :: s) = strtol_unsigned (c :: s) false (c :: s).
Proof.
  intros Hd. assert (c ∈ [48; 49; 50; 51; 52; 53; 54; 55; 56; 57]) as Hi.
  { unfold digit in Hd. rewrite !elem_of_cons. lia. }
  repeat (apply elem_of_cons in Hi as [-> |Hi]; [reflexivity|]). by apply not_elem_of_nil in Hi.
Qed.

Lemma strtol_dec str (negative : bool) n :
  0 <= n < 10 ^ 20 -> - 2 ^ 63 <= (if negative then - n else n) < 2 ^ 63 ->
  strtol_unsigned str negative (dec_digits 20 n []) = (if negative then - n else n, [], false).
Proof.
  intros Hn Hr. destruct (dec_digits_spec 19 n [] Hn) as (d & ds & -> & Hds & Hd0 & Hz & _ & Hval).
  rewrite app_nil_r. unfold strtol_unsigned. inversion_clear Hds as [|? ? Hd _].
  assert (0 < n \/ n = 0) as [Hpos| ->] by lia.
  2: { specialize (Hz eq_refl). simplify_eq. by destruct negative. }
  rewrite strtol_base_nonzero by auto. rewrite digit_value_digit by done.
  rewrite (proj2 (Z.ltb_lt _ _)) by (unfold digit in Hd; lia).
  specialize (Hval 0 []). rewrite app_nil_r in Hval. rewrite Hval. cbn [strtol_digits].
  rewrite Z.mul_0_l, Z.add_0_l.
  by rewrite (proj2 (Z.ltb_ge _ _)), (proj2 (Z.leb_gt _ _)) by lia.
Qed.

(** A printed number is one word, which strtol() reads back. *)
Lemma show_int_word v :
  - 2 ^ 63 <= v < 2 ^ 63 ->
  exists c w, show_int v = c :: w /\ (c = 45 \/ digit c) /\ Forall (fun c => word_char c = true) w /\
              no_nul (c :: w) /\ (length w < 100)%nat /\ strtol (c :: w) = (v, [], false).
Proof.
  assert (Hds : forall n, 0 <= n < 10 ^ 20 -> exists d ds, dec_digits 20 n [] = d :: ds /\ digit d /\
            Forall digit ds /\ (length ds <= 19)%nat).
  { intros n Hn. destruct (dec_digits_spec 19 n [] Hn) as (d & ds & -> & Hf & _ & _ & Hl & _).
    inversion_clear Hf. exists d, ds. by rewrite app_nil_r. }
  assert (Hw : forall l, Forall digit l -> Forall (fun c => word_char c = true) l /\ no_nul l).
  { intros l Hl. split; (eapply Forall_impl; [exact Hl|]); intros; by apply digit_word. }
  intros Hv. unfold show_int. destruct (Z.ltb_spec v 0).
  - destruct (Hds (- v)) as (d & ds & E & Hd & Hf & Hl); [lia|].
    pose proof (strtol_dec (45 :: dec_digits 20 (- v) []) true (- v) ltac:(lia) ltac:(cbv iota; lia)) as Hs.
    rewrite <- strtol_neg in Hs. cbv iota in Hs. rewrite Z.opp_involutive in Hs. rewrite E in *.
    destruct (Hw (d :: ds)) as [? ?]; [by constructor|].
    exists 45, (d :: ds). split_and!; [done|by left|done|by constructor|simpl; lia|done].
  - destruct (Hds v) as (d & ds & E & Hd & Hf & Hl); [lia|].
    pose proof (strtol_dec (dec_digits 20 v []) false v ltac:(lia) ltac:(cbv iota; lia)) as Hs.
    rewrite E in *. rewrite <- strtol_digit in Hs by done. destruct (Hw ds Hf) as [? ?].
    destruct (digit_word d Hd).
    exists d, ds. split_and!; [done|by right|done|by constructor|lia|done].
Qed.

(** ** Expressions *)

(** The head of the text ends an expression. *)
Definition stop (t : list Z) : Prop :=
  match t with
  | [] => True
  | c :: _ => c <> 0 /\ isspace c = false /\ is_factor_op c = false /\ is_term_op c = false
  end.

Lemma stop_norm t : stop t -> norm t.
Proof. destruct t as [|c t]; [done|]. intros (_ & Hs & _). unfold norm. cbn. by rewrite Hs. Qed.

Lemma norm_cons c t : isspace c = false -> norm (c :: t).
Proof. intros Hs. unfold norm. cbn. by rewrite Hs. Qed.

Lemma skip_token t : norm t -> skip_spaces (32 :: t) = t.
Proof. done. Qed.

Lemma upper_char c : isupper c = true ->
  c <> 0 /\ isspace c = false /\ is_factor_op c = false /\ is_term_op c = false /\
  is_open_paren c = false /\ is_comment_start c = false.
Proof.
  unfold isupper. intros H. apply andb_true_iff in H as [H1 H2]. apply Z.leb_le in H1, H2.
  unfold isspace, is_factor_op, is_term_op, is_open_paren, is_comment_start.
  repeat match goal with |- context [?a =? ?b] => rewrite (proj2 (Z.eqb_neq a b)) by lia end.
  rewrite (proj2 (Z.leb_gt c 13)) by lia. rewrite andb_false_r. split_and!; done || lia.
Qed.

Lemma op_char o : is_arith o || is_comparison_op o = true -> o <> 0 /\ isspace o = false.
Proof.
  unfold is_arith, is_factor_op, is_term_op, is_comparison_op. intros H.
  repeat (apply orb_true_iff in H as [H|H]); apply Z.eqb_eq in H as ->; done.
Qed.

Lemma show_head e t : wf_expr e = true ->
  exists c u, show e ++ t = c :: u /\ isspace c = false /\ c <> 0.
Proof.
  destruct e as [v|o l r|x| | | | |]; try done; cbn [wf_expr show]; intros H.
  - apply andb_true_iff in H as [H1 H2]. apply Z.leb_le in H1. apply Z.ltb_lt in H2.
    destruct (show_int_word v) as (c & w & -> & Hc & _ & Hn & _); [done|].
    exists c, ((w ++ [32]) ++ t). split_and!; [done| |by inversion Hn].
    destruct Hc as [-> |[??]]; [done|]. unfold isspace. lia.
  - by eexists _, _.
  - destruct (upper_char x H) as (? & ? & _). by eexists _, _.
Qed.

Lemma norm_show e t : wf_expr e = true -> norm (show e ++ t).
Proof. intros H. destruct (show_head e t H) as (c & u & -> & Hc & _). by apply norm_cons. Qed.

Section Roundtrip.
Variable input : list Z.
Local Abbreviation eats := (eats input).

Lemma eats_try_token n f c t :
  f c = true -> norm t -> eats n (try_advance n f) (token [c] ++ t) c t.
Proof. intros Hf Ht. rewrite <- (skip_token t Ht) at 2. by apply eats_try_hit. Qed.

Lemma eats_keyword n c w t :
  Forall (fun c => word_char c = true) w -> (length w < 100)%nat -> norm t ->
  eats n (advance_until_separator n) (token (c :: w) ++ t) (Some (c :: w)) t.
Proof. intros Hw Hl Ht. rewrite <- (skip_token t Ht) at 2. cbn [skip_spaces isspace]. by apply eats_word. Qed.

Lemma eats_num n v t :
  - 2 ^ 63 <= v < 2 ^ 63 -> norm t -> eats n (num n) (token (show_int v) ++ t) (Some (NUM v)) t.
Proof.
  intros Hv Ht. destruct (show_int_word v Hv) as (c & w & -> & _ & Hw & Hn & Hl & Hs).
  eapply eats_bind; [by apply eats_keyword|]. cbv beta iota. rewrite c_str_id, Hs by done. apply eats_ret.
Qed.

Lemma eats_loop_stop n f e r t :
  match t with [] => True | c :: _ => c <> 0 /\ f c = false /\ isspace c = false end ->
  eats n (operator_loop n f e r) t r t.
Proof.
  intros Ht p Hp Hr. destruct n as [|n]; [lia|]. revert p Hp Hr. cbn [operator_loop].
  change (eats (S n) (next <- try_advance (S n) f;;
    (if next =? 0 then ret r else right <- e;; operator_loop n f e (init_binary_node next r right))) t r t).
  apply (eats_bind _ _ _ _ t 0 t); [|apply eats_ret].
  destruct t as [|c t]; [apply eats_try_end|]. destruct Ht as (? & ? & ?).
  apply eats_try_miss; [done..|by apply norm_cons].
Qed.

(** One operator and its right operand, then the end of the loop. *)
Lemma eats_loop_one n f (e : M parser_state (option node)) l r o t u :
  f o = true -> o <> 0 -> norm u -> (length u < length (token [o] ++ u))%nat ->
  eats (pred n) e u (Some r) t ->
  match t with [] => True | c :: _ => c <> 0 /\ f c = false /\ isspace c = false end ->
  eats n (operator_loop n f e (Some l)) (token [o] ++ u) (Some (BINARY_OP o l r)) t.
Proof.
  intros Hf Ho Hu Hlen He Ht p Hp Hr. destruct n as [|n]; [lia|]. revert p Hp Hr.
  change (eats (S n) (next <- try_advance (S n) f;;
    (if next =? 0 then ret (Some l)
     else right <- e;; operator_loop n f e (init_binary_node next (Some l) right)))
    (token [o] ++ u) (Some (BINARY_OP o l r)) t).
  eapply eats_bind_strict; [by apply eats_try_token|done|]. cbv beta. destruct (Z.eqb_spec o 0); [done|].
  eapply eats_bind; [exact He|]. by apply eats_loop_stop.
Qed.

Definition factor_ok (e : node) : Prop := forall n t, norm t ->
  eats n (factor_with (expression (pred n)) n) (show e ++ t) (Some e) t.

Lemma eats_term e n t : factor_ok e -> stop t ->
  eats n (term_with (expression (pred n)) n) (show e ++ t) (Some e) t.
Proof.
  intros He Ht. eapply eats_bind; [by apply He, stop_norm|]. apply eats_loop_stop.
  destruct t; [done|]. by destruct Ht as (? & ? & ? & ?).
Qed.

(** [expression n] with its bound exposed. *)
Lemma eats_expression_unfold n t a t' :
  eats n (result <- term_with (expression (pred n)) n;;
          operator_loop n is_term_op (term_with (expression (pred n)) n) result) t a t' ->
  eats n (expression n) t a t'.
Proof. intros H. destruct n as [|n]; [|exact H]. intros p _ Hr. lia. Qed.

Lemma eats_expression_ok e n t : factor_ok e -> stop t ->
  eats n (expression n) (show e ++ t) (Some e) t.
Proof.
  intros He Ht. apply eats_expression_unfold. eapply eats_bind; [by apply eats_term|].
  apply eats_loop_stop. destruct t; [done|]. by destruct Ht as (? & ? & ? & ?).
Qed.

Lemma eats_binary o l r n t :
  is_arith o = true -> factor_ok l -> factor_ok r -> wf_expr r = true -> stop t ->
  eats n (expression n) (show l ++ token [o] ++ show r ++ t) (Some (BINARY_OP o l r)) t.
Proof.
  intros Ho Hl Hr Hwr Ht. destruct (op_char o) as [Ho0 Hos]; [by rewrite Ho|].
  pose proof (norm_show r t Hwr) as Hn. apply eats_expression_unfold.
  assert (Hno : norm (token [o] ++ show r ++ t)) by by apply norm_cons.
  assert (Hlt : (length (show r ++ t) < length (token [o] ++ show r ++ t))%nat)
    by (rewrite (length_app (token [o])); simpl; lia).
  apply orb_true_iff in Ho as [Ho|Ho].
  - eapply eats_bind; [eapply eats_bind; [by apply Hl|]|].
    + eapply eats_loop_one; [done..| |].
      * eapply eats_weaken; [by apply Hr, stop_norm|lia].
      * destruct t; [done|]. by destruct Ht as (? & ? & ? & ?).
    + apply eats_loop_stop. destruct t; [done|]. by destruct Ht as (? & ? & ? & ?).
  - assert (Hnf : is_factor_op o = false).
    { unfold is_term_op in Ho. apply orb_true_iff in Ho as [Ho|Ho]; apply Z.eqb_eq in Ho as ->; done. }
    eapply eats_bind; [eapply eats_bind; [by apply Hl|]; by apply eats_loop_stop|].
    eapply eats_loop_one; [done..| |].
    + eapply eats_weaken; [by apply eats_term|lia].
    + destruct t; [done|]. by destruct Ht as (? & ? & ? & ?).
Qed.

Lemma eats_factor e : wf_expr e = true -> factor_ok e.
Proof.
  induction e as [v|o l r IHl IHr|x| | | | |] using node_ind; try done; cbn [wf_expr]; intros Hw n t Ht.
  - apply andb_true_iff in Hw as [H1 H2]. apply Z.leb_le in H1. apply Z.ltb_lt in H2.
    pose proof (eats_num n v t ltac:(lia) Ht) as Hnum. cbn [show].
    destruct (show_int_word v) as (c & w & E & Hc & _ & Hn & _); [lia|].
    rewrite E in *. inversion_clear Hn as [|? ? Hc0 _].
    assert (isspace c = false /\ is_open_paren c = false /\ is_variable_name c = false) as (? & ? & ?).
    { destruct Hc as [-> |[??]]; [done|].
      unfold isspace, is_open_paren, is_variable_name, isupper. split_and!; lia. }
    eapply eats_bind; [apply eats_try_miss; [done..|by apply norm_cons]|]. cbv beta.
    eapply eats_bind; [apply eats_try_miss; [done..|by apply norm_cons]|]. exact Hnum.
  - apply andb_true_iff in Hw as [Hw Hwr]. apply andb_true_iff in Hw as [Ho Hwl]. cbn [show].
    rewrite <- !app_assoc. eapply eats_bind_strict; [apply eats_try_token; [done|by apply norm_show]| |].
    { rewrite (length_app (token [40])). simpl. lia. }
    cbv beta. cbn [Z.eqb negb].
    eapply eats_bind; [apply eats_binary; auto|]; [done|]. cbv beta.
    eapply eats_bind; [eapply eats_weaken; [by apply eats_try_token|lia]|]. apply eats_ret.
  - destruct (upper_char x Hw) as (Hx0 & Hxs & _ & _ & Hxo & _). cbn [show].
    eapply eats_bind; [apply eats_try_miss; [done..|by apply norm_cons]|]. cbv beta.
    eapply eats_bind; [by apply eats_try_token|]. cbv beta.
    unfold init_var_node. destruct (Z.eqb_spec x 0); [done|]. apply eats_ret.
Qed.

Lemma eats_expression e n t : wf_expr e = true -> stop t ->
  eats n (expression n) (show e ++ t) (Some e) t.
Proof. intros. apply eats_expression_ok; [by apply eats_factor|done]. Qed.

Lemma eats_comparison c n t : wf_cond c = true -> stop t ->
  eats n (comparison n) (show_condition c ++ t) (Some c) t.
Proof.
  destruct c as [|o l r| | | | | |]; try done. cbn [wf_cond show_condition]. intros Hw Ht.
  apply andb_true_iff in Hw as [Hw Hwr]. apply andb_true_iff in Hw as [Ho Hwl]. rewrite <- !app_assoc.
  destruct (op_char o) as [Ho0 Hos]; [by rewrite Ho, orb_true_r|].
  eapply eats_bind; [apply eats_expression; [done|]|].
  { unfold is_comparison_op in Ho. repeat (apply orb_true_iff in Ho as [Ho|Ho]);
      apply Z.eqb_eq in Ho as ->; done. }
  eapply eats_bind; [apply eats_try_token; [done|by apply norm_show]|].
  eapply eats_bind; [by apply eats_expression|]. apply eats_ret.
Qed.

(** ** Statements *)

(** The head of the text starts a keyword. *)
Definition upper (t : list Z) : Prop :=
  match t with [] => True | c :: _ => isupper c = true end.

Lemma upper_stop t : upper t -> stop t.
Proof. destruct t as [|c t]; [done|]. intros H. by destruct (upper_char c H) as (? & ? & ? & ? & _). Qed.

Lemma eats_comments n t : upper t -> eats n (skip_comments n) t tt t.
Proof.
  intros Ht p Hp Hr. destruct n as [|n]; [lia|]. revert p Hp Hr.
  change (eats (S n) (c <- try_advance (S n) is_comment_start;;
    (if c =? 0 then ret tt else skip_line (S n);;; skip_comments n)) t tt t).
  apply (eats_bind _ _ _ _ t 0 t); [|apply eats_ret].
  destruct t as [|c t]; [apply eats_try_end|].
  destruct (upper_char c Ht) as (? & ? & _ & _ & _ & ?). apply eats_try_miss; [done..|by apply norm_cons].
Qed.

(** The texts after a block: its end, or the end of the program. *)
Definition final (t : list Z) : Prop :=
  t = [] \/ (exists u, t = token str_ELSE ++ u) \/
  (exists k u, (k = str_IF \/ k = str_WHILE) /\ t = token str_END ++ token k ++ u).

Lemma final_upper t : final t -> upper t.
Proof. by intros [-> |[(u & ->)|(k & u & _ & ->)]]. Qed.

(** statement() at the end of a block: the stream goes back to its end. *)
Lemma eats_end n q t : final t -> eats n (statement_with q n) t (None, true) t.
Proof.
  intros Ht p Hp Hr. unfold statement_with.
  destruct (eats_comments n t (final_upper t Ht) p Hp Hr) as (p1 & E1 & Hle1 & Hp1).
  rewrite (bind_ok _ _ _ _ _ E1). unfold save_position. rewrite bind_gets. cbn [position].
  assert (Hr1 : (length input - p1 < n)%nat) by lia.
  destruct Ht as [-> |[(u & ->)|(k & u & Hk & ->)]].
  - destruct (eats_no_word input n p1 Hp1 Hr1) as (p2 & E2 & Hle2 & Hp2).
    rewrite (bind_ok _ _ _ _ _ E2). exists p2. split_and!; [done|lia|done].
  - destruct (eats_word input n 69 [76; 83; 69] u ltac:(by repeat constructor) ltac:(simpl; lia)
                p1 Hp1 Hr1) as (p2 & E2 & Hle2 & _).
    rewrite (bind_ok _ _ _ _ _ E2). exists p1. split_and!; [done|lia|done].
  - destruct (eats_keyword n 69 [78; 68] (token k ++ u) ltac:(by repeat constructor) ltac:(simpl; lia)
                ltac:(by destruct Hk as [-> | ->]) p1 Hp1 Hr1) as (p2 & E2 & Hle2 & Hp2).
    rewrite (bind_ok _ _ _ _ _ E2).
    assert (exists c w, k = c :: w /\ Forall (fun c => word_char c = true) w /\ (length w < 100)%nat)
      as (c & w & Ek & Hw & Hl).
    { destruct Hk as [-> | ->]; eexists _, _; (split; [reflexivity|]); (split; [by repeat constructor|simpl; lia]). }
    rewrite Ek in Hp2. destruct (eats_word input n c w u Hw Hl p2 Hp2 ltac:(lia)) as (p3 & E3 & Hle3 & _).
    rewrite <- Ek in E3.
    change (is_keyword (Some [69; 78; 68]) str_ELSE) with false. cbv iota beta.
    change (is_keyword (Some [69; 78; 68]) str_END) with true. cbv iota beta.
    rewrite (bind_ok _ _ _ _ _ E3).
    replace (is_keyword (Some k) str_IF || is_keyword (Some k) str_WHILE) with true
      by (destruct Hk as [-> | ->]; done).
    exists p1. split_and!; [done|lia|done].
Qed.

Definition stmt_ok (s : node) : Prop := forall n t, upper t ->
  eats n (statement_with (sequence (pred n)) n) (show s ++ t) (Some s, false) t.

Definition block_ok (s : node) : Prop := forall n t, final t ->
  eats n (sequence n) (show s ++ t) (Some s) t.

(** statement() past its keyword [k], whose rest of the text is [u]. *)
Lemma eats_statement n q k c w u s t :
  k = c :: w -> Forall (fun c => word_char c = true) w -> (length w < 100)%nat -> isupper c = true ->
  is_keyword (Some k) str_ELSE = false -> is_keyword (Some k) str_END = false ->
  norm u ->
  eats (pred n)
    (if is_keyword (Some k) str_PRINT then e <- expression n;; ret (init_print_node e, false)
     else if is_keyword (Some k) str_LET then x <- let_statement n;; ret (x, false)
     else if is_keyword (Some k) str_IF then x <- if_statement q n;; ret (x, false)
     else if is_keyword (Some k) str_WHILE then x <- while_statement q n;; ret (x, false)
     else ret (None, false)) u s t ->
  eats n (statement_with q n) (token k ++ u) s t.
Proof.
  intros -> Hw Hl Hc Helse Hend Hu Hs.
  eapply eats_bind; [by apply eats_comments|]. intros p Hp Hr.
  unfold save_position. rewrite bind_gets. cbv beta.
  eapply (eats_bind_strict input n (advance_until_separator n)); [by apply eats_keyword| | |exact Hp|exact Hr].
  { rewrite (length_app (token (c :: w))). simpl. lia. }
  cbv beta iota. rewrite Helse, Hend. exact Hs.
Qed.

(** Solves the side conditions on a literal keyword. *)
Ltac keyword := first [reflexivity | by repeat constructor | simpl; lia].

Lemma norm_upper c t : isupper c = true -> norm (c :: t).
Proof. intros H. apply norm_cons. by destruct (upper_char c H) as (_ & ? & _). Qed.

Lemma wf_cond_norm c t : wf_cond c = true -> norm (show_condition c ++ t).
Proof.
  destruct c as [|o l r| | | | | |]; try done. cbn [wf_cond show_condition]. intros H.
  apply andb_true_iff in H as [H _]. apply andb_true_iff in H as [_ H]. rewrite <- app_assoc. by apply norm_show.
Qed.

Lemma stmt_print e : wf_expr e = true -> stmt_ok (PRINT e).
Proof.
  intros He n t Ht. cbn [show]. rewrite <- app_assoc.
  eapply eats_statement; [keyword..|by apply norm_show|].
  change (is_keyword (Some str_PRINT) str_PRINT) with true. cbv iota.
  eapply eats_bind; [eapply eats_weaken; [by apply eats_expression, upper_stop|lia]|]. apply eats_ret.
Qed.

Lemma eats_advance_token n c t : norm t -> eats n (advance n) (token [c] ++ t) c t.
Proof. intros Ht. rewrite <- (skip_token t Ht) at 2. apply eats_advance. Qed.

Lemma stmt_let x e : isupper x = true -> wf_expr e = true -> stmt_ok (LET x e).
Proof.
  intros Hx He n t Ht. cbn [show]. rewrite <- !app_assoc.
  eapply eats_statement; [keyword..|by apply norm_upper|].
  change (is_keyword (Some str_LET) str_PRINT) with false. cbv iota.
  change (is_keyword (Some str_LET) str_LET) with true. cbv iota.
  eapply eats_weaken with (n := n); [|lia]. eapply eats_bind; [|apply eats_ret]. unfold let_statement.
  eapply eats_bind; [by apply eats_advance_token|]. cbv beta. unfold is_variable_name. rewrite Hx. cbn [negb].
  eapply eats_bind; [by apply eats_advance_token, norm_show|]. cbv beta. cbn [Z.eqb Pos.eqb negb].
  eapply eats_bind; [by apply eats_expression, upper_stop|]. cbv beta. cbn [init_let_node].
  destruct (upper_char x Hx) as (Hx0 & _). destruct (Z.eqb_spec x 0); [done|]. apply eats_ret.
Qed.

Lemma show_upper s t : wf_block s = true -> upper t -> upper (show s ++ t).
Proof.
  intros Hs Ht. destruct s as [| | |l|e|x e|c a b|c b]; try done. destruct l as [|y l]; [done|].
  cbn [wf_block] in Hs. apply andb_true_iff in Hs as [_ Hs].
  apply andb_true_iff in Hs as [Hs _]. apply andb_true_iff in Hs as [Hq Hy].
  by destruct y.
Qed.

(** The closing keywords END and [k]. *)
Lemma eats_close {A} n m k c w t (x y : A) f :
  (m <= n)%nat -> k = c :: w -> Forall (fun c => word_char c = true) w -> (length w < 100)%nat ->
  upper t ->
  (forall next, f next = if negb (is_keyword next k) then ret y else ret x) ->
  is_keyword (Some k) k = true -> norm (token k ++ t) ->
  eats m (next <- advance_until_separator n;;
          (if negb (is_keyword next str_END) then ret y
           else next <- advance_until_separator n;; f next))
    (token str_END ++ token k ++ t) x t.
Proof.
  intros Hm -> Hw Hl Ht Hf Hk Hn. eapply eats_weaken; [|exact Hm].
  eapply eats_bind; [apply eats_keyword; [keyword..|done]|]. cbv beta.
  change (negb (is_keyword (Some [69; 78; 68]) str_END)) with false. cbv iota.
  eapply eats_bind; [apply eats_keyword; [done..|by apply stop_norm, upper_stop]|].
  rewrite Hf, Hk. apply eats_ret.
Qed.

Lemma eats_while n m c b t :
  (m <= n)%nat -> wf_cond c = true -> wf_block b = true -> block_ok b -> upper t ->
  eats m (while_statement (sequence m) n)
    (show_condition c ++ show b ++ token str_END ++ token str_WHILE ++ t) (Some (WHILE c b)) t.
Proof.
  intros Hm Hc Hwb Hb Ht. unfold while_statement.
  eapply eats_bind; [eapply eats_weaken; [apply eats_comparison; [done|]|exact Hm]|].
  { by apply upper_stop, show_upper. }
  eapply eats_bind; [apply Hb|].
  { right. right. exists str_WHILE, t. auto. }
  cbv beta. eapply eats_close; [done|keyword..|done| |keyword|keyword]. by intros next.
Qed.

Lemma eats_if n m c a b t :
  (m <= n)%nat -> wf_cond c = true -> wf_block a = true -> block_ok a ->
  (forall x, b = Some x -> wf_block x = true /\ block_ok x) -> upper t ->
  eats m (if_statement (sequence m) n)
    (show_condition c ++ show a ++ match b with Some b => token str_ELSE ++ show b | None => [] end ++
     token str_END ++ token str_IF ++ t) (Some (IF c a b)) t.
Proof.
  intros Hm Hc Hwa Ha Hb Ht. unfold if_statement.
  set (close := token str_END ++ token str_IF ++ t).
  assert (Hfin : final close) by (right; right; exists str_IF, t; auto).
  assert (Hclose : forall els, eats m (next <- advance_until_separator n;;
             (if negb (is_keyword next str_END) then ret None
              else next <- advance_until_separator n;;
                   (if negb (is_keyword next str_IF) then ret None
                    else ret (init_if_node (Some c) (Some a) els)))) close (Some (IF c a els)) t).
  { intros els. eapply eats_close; [done|keyword..|done| |keyword|keyword]. by intros next. }
  destruct b as [b|].
  - destruct (Hb b eq_refl) as [Hwb Hbb]. rewrite <- app_assoc.
    eapply eats_bind; [eapply eats_weaken; [apply eats_comparison; [done|]|exact Hm]|].
    { by apply upper_stop, show_upper. }
    eapply eats_bind; [apply Ha; right; left; by eexists|]. cbv beta.
    eapply eats_bind; [eapply eats_weaken; [apply eats_keyword; [keyword..|]|exact Hm]|].
    { apply stop_norm, upper_stop, show_upper; [done|by apply final_upper]. }
    change (is_keyword (Some [69; 76; 83; 69]) str_ELSE) with true. cbv iota.
    intros p Hp Hr. rewrite !bind_bind. revert p Hp Hr.
    change (eats m (else_branch <- sequence m;;
       bind (bind (advance_until_separator n) (fun next => ret (else_branch, next)))
         (fun x => let '(else_branch, next) := x in
            if negb (is_keyword next str_END) then ret None
            else next <- advance_until_separator n;;
                 (if negb (is_keyword next str_IF) then ret None
                  else ret (init_if_node (Some c) (Some a) else_branch))))
       (show b ++ close) (Some (IF c a (Some b))) t).
    eapply eats_bind; [by apply Hbb|]. cbv beta. intros p Hp Hr. rewrite bind_bind. revert p Hp Hr.
    apply Hclose.
  - cbn [app]. eapply eats_bind; [eapply eats_weaken; [apply eats_comparison; [done|]|exact Hm]|].
    { apply upper_stop, show_upper; [done|by apply final_upper]. }
    eapply eats_bind; [by apply Ha|]. cbv beta.
    intros p Hp Hr. destruct (Hclose None p Hp Hr) as (p' & E & Hle & Hp').
    exists p'. split_and!; [|done..]. rewrite <- E.
    destruct (eats_keyword n 69 [78; 68] (token str_IF ++ t) ltac:(keyword) ltac:(simpl; lia)
                ltac:(keyword) p Hp ltac:(lia)) as (p2 & E2 & _ & _).
    by rewrite !(bind_ok _ _ _ _ _ E2).
Qed.

Lemma stmt_while c b :
  wf_cond c = true -> wf_block b = true -> block_ok b -> stmt_ok (WHILE c b).
Proof.
  intros Hc Hwb Hb n t Ht. cbn [show]. rewrite <- !app_assoc.
  eapply eats_statement; [keyword..|by apply wf_cond_norm|].
  change (is_keyword (Some str_WHILE) str_PRINT) with false.
  change (is_keyword (Some str_WHILE) str_LET) with false.
  change (is_keyword (Some str_WHILE) str_IF) with false.
  change (is_keyword (Some str_WHILE) str_WHILE) with true. cbv iota.
  eapply eats_bind; [by apply eats_while; [lia|..]|]. apply eats_ret.
Qed.

Lemma stmt_if c a b :
  wf_cond c = true -> wf_block a = true -> block_ok a ->
  (forall x, b = Some x -> wf_block x = true /\ block_ok x) -> stmt_ok (IF c a b).
Proof.
  intros Hc Hwa Ha Hb n t Ht. cbn [show]. rewrite <- !app_assoc.
  eapply eats_statement; [keyword..|by apply wf_cond_norm|].
  change (is_keyword (Some str_IF) str_PRINT) with false.
  change (is_keyword (Some str_IF) str_LET) with false.
  change (is_keyword (Some str_IF) str_IF) with true. cbv iota.
  eapply eats_bind; [by apply eats_if; [lia|..]|]. apply eats_ret.
Qed.

(** ** Blocks *)

Definition show_list (l : list node) : list Z := concat (map show l).

Lemma show_sequence l : show (SEQUENCE l) = show_list l.
Proof. unfold show_list. cbn [show]. induction l as [|x l IH]; [done|]. cbn. by rewrite <- IH. Qed.

(** The tree sequence() builds from a list of statements. *)
Definition block_of (l : list node) : node := match l with [s] => s | _ => SEQUENCE l end.

Lemma eats_statements n k l acc t :
  Forall (fun s => stmt_ok s /\ show s <> [] /\ forall u, upper (show s ++ u)) l ->
  final t -> (k <= n)%nat ->
  eats k (sequence_loop k (statement_with (sequence (pred n)) n) acc) (show_list l ++ t)
    (Some (block_of (acc ++ l))) t.
Proof.
  intros Hl Ht. revert k acc. induction Hl as [|s l (Hs & Hne & Hup) Hl IH]; intros k acc Hk.
  all: intros p Hp Hr; destruct k as [|k]; [lia|]; revert p Hp Hr; cbn [sequence_loop].
  - eapply eats_bind; [eapply eats_weaken; [by apply eats_end|exact Hk]|]. cbv beta iota.
    rewrite app_nil_r. destruct acc as [|x [|y acc]]; apply eats_ret.
  - unfold show_list. cbn [map concat]. rewrite <- app_assoc.
    eapply eats_bind_strict; [eapply eats_weaken; [apply Hs|exact Hk]| |].
    + destruct Hl as [|s' l' (_ & _ & Hup') _]; [by apply final_upper|]. cbn [map concat]. rewrite <- app_assoc. apply Hup'.
    + rewrite (length_app (show s)). destruct (show s) eqn:E; [done|]. cbn [length]. lia.
    + cbv beta iota. cbn [pred].
      replace (acc ++ s :: l) with ((acc ++ [s]) ++ l) by (by rewrite <- app_assoc).
      apply IH. lia.
Qed.

Lemma eats_block l n t :
  Forall (fun s => stmt_ok s /\ show s <> [] /\ forall u, upper (show s ++ u)) l -> final t ->
  eats n (sequence n) (show_list l ++ t) (Some (block_of l)) t.
Proof.
  intros Hl Ht p Hp Hr. destruct n as [|n]; [lia|].
  exact (eats_statements (S n) (S n) l [] t Hl Ht (le_n _) p Hp Hr).
Qed.

Lemma stmt_head s : is_sequence s = false -> wf_block s = true ->
  show s <> [] /\ forall u, upper (show s ++ u).
Proof. by destruct s. Qed.

(** Every well-formed statement and block is read back. *)
Lemma eats_program s :
  wf_block s = true -> (is_sequence s = false -> stmt_ok s) /\ block_ok s.
Proof.
  assert (Hsingle : forall s, is_sequence s = false -> wf_block s = true -> stmt_ok s ->
            (is_sequence s = false -> stmt_ok s) /\ block_ok s).
  { intros x Hx Hw Hs. split; [done|]. intros n t Ht.
    pose proof (eats_block [x] n t) as H. unfold show_list in H. cbn [map concat] in H.
    rewrite app_nil_r in H. apply H; [|done]. constructor; [|done]. split; [done|by apply stmt_head]. }
  induction s as [| | |l IH|e _|x e _|c a b _ IHa IHb|c b _ IHb] using node_ind; try done; intros Hw.
  - split; [done|]. intros n t Ht. rewrite show_sequence. cbn [wf_block] in Hw.
    apply andb_true_iff in Hw as [Hlen Hall].
    assert (block_of l = SEQUENCE l) as <- by (destruct l as [|x [|y l]]; done).
    apply eats_block; [|done]. clear Hlen. induction IH as [|x l Hx _ IHl]; [constructor|].
    apply andb_true_iff in Hall as [Hall Hrest]. apply andb_true_iff in Hall as [Hq Hwx].
    apply negb_true_iff in Hq. constructor; [|by apply IHl].
    destruct (Hx Hwx) as [Hok _]. split; [by apply Hok|by apply stmt_head].
  - apply Hsingle; [done..|]. by apply stmt_print.
  - apply Hsingle; [done..|]. apply andb_true_iff in Hw as [? ?]. by apply stmt_let.
  - apply Hsingle; [done..|]. apply andb_true_iff in Hw as [Hw Hwb]. apply andb_true_iff in Hw as [Hc Hwa].
    apply stmt_if; [done..|by apply IHa|]. intros y ->. split; [done|by apply IHb].
  - apply Hsingle; [done..|]. apply andb_true_iff in Hw as [Hc Hwb].
    apply stmt_while; [done..|by apply IHb].
Qed.
End Roundtrip.

(** The whole parser. *)
Lemma parse_show s : wf_block s = true -> parse (show s) = Ok (Some s).
Proof.
  intros Hw. destruct (eats_program (show s) s Hw) as [_ Hb].
  assert (Hh : here (show s) 0 (show s ++ [])).
  { split; [lia|]. rewrite drop_0, app_nil_r.
    pose proof (stop_norm _ (upper_stop _ (show_upper s [] Hw I))) as Hn. by rewrite app_nil_r in Hn. }
  destruct (Hb (S (length (show s))) [] (or_introl eq_refl) 0%nat Hh) as (p & E & _ & Hp & Hd); [lia|].
  destruct (advance_end (show s) (S (length (show s))) p Hp Hd) as (p' & E' & _); [lia|].
  unfold parse, parse_stream. rewrite (bind_ok _ _ _ _ _ E). unfold at_end.
  by rewrite bind_bind, (bind_ok _ _ _ _ _ E').
Qed.
