(* ===== verification/ParserWf.v ===== *)
(** * Every tree the parser builds is well formed

    Literals are 64-bit, variables are letters, operators are those of the
    grammar, operands are expressions and conditions are binary nodes, whose
    operator is missing (0) when the source has none. *)
From stdpp Require Import prelude list.
From Stdlib Require Import ZArith Lia.
From S2P Require Import Prelude Ast Parser ParserRoundtrip.
Open Scope Z_scope.
Open Scope c_scope.

Definition wf_condition (n : node) : bool :=
  match n with
  | BINARY_OP o l r => (is_comparison_op o || (o =? 0)) && wf_expr l && wf_expr r
  | _ => false
  end.

Fixpoint wf_tree (n : node) : bool :=
  match n with
  | SEQUENCE l =>
      negb (length l =? 1)%nat &&
      (fix go (l : list node) : bool :=
         match l with [] => true | x :: l => negb (is_sequence x) && wf_tree x && go l end) l
  | PRINT e => wf_expr e
  | LET x e => isupper x && wf_expr e
  | IF c a b => wf_condition c && wf_tree a && match b with Some b => wf_tree b | None => true end
  | WHILE c b => wf_condition c && wf_tree b
  | _ => false
  end.

(** [m] only answers values in [P]. *)
Definition yields {A} (m : M parser_state A) (P : A -> Prop) : Prop :=
  forall s a s', m s = Ok (a, s') -> P a.

Lemma yields_ret {A} (a : A) (P : A -> Prop) : P a -> yields (ret a) P.
Proof. intros Ha s x s' [= <- <-]. done. Qed.

Lemma yields_bind {A B} (m : M parser_state A) (k : A -> M parser_state B) P Q :
  yields m P -> (forall a, P a -> yields (k a) Q) -> yields (bind m k) Q.
Proof.
  intros Hm Hk s b s'. unfold bind. destruct (m s) as [[a s1]|] eqn:E; [|done].
  intros Hb. by eapply (Hk a (Hm _ _ _ E)).
Qed.

Lemma yields_any {A} (m : M parser_state A) : yields m (fun _ => True).
Proof. done. Qed.

Lemma yields_step {A B} (m : M parser_state A) (k : A -> M parser_state B) Q :
  (forall a, yields (k a) Q) -> yields (bind m k) Q.
Proof. intros Hk. eapply yields_bind; [apply yields_any|]. auto. Qed.

(** A tree or NULL. *)
Definition null_or (P : node -> bool) (o : option node) : Prop :=
  match o with Some n => P n = true | None => True end.

Lemma yields_try n f : yields (try_advance n f) (fun c => c = 0 \/ f c = true).
Proof.
  apply yields_step. intros c. destruct (c =? 0) eqn:E; cbn [negb andb].
  - apply Z.eqb_eq in E as ->. apply yields_ret. by left.
  - destruct (f c) eqn:Ef; cbn [negb]; [apply yields_ret; by right|].
    apply yields_step. intros []. apply yields_ret. by left.
Qed.

Lemma strtol_range str v rest :
  strtol str = (v, rest, false) -> - 2 ^ 63 <= v < 2 ^ 63.
Proof.
  unfold strtol. intros H. destruct (match skip_spaces str with 45 :: s => (true, s) | 43 :: s => (false, s) | _ => _ end)
    as [neg s]. destruct (strtol_base s) as [base [|d ds]]; [by injection H as <- <-; lia|].
  destruct (_ <? base); [|injection H as <- <-; lia].
  destruct (strtol_digits base (d :: ds) 0) as [w r]. cbv zeta in H.
  destruct (Z.ltb_spec (if neg then - w else w) (- 2 ^ 63)); [done|].
  destruct (Z.leb_spec (2 ^ 63) (if neg then - w else w)); [done|]. injection H as <- <-. lia.
Qed.

Lemma yields_num n : yields (num n) (null_or wf_expr).
Proof.
  apply yields_step. intros [str|]; [|by apply yields_ret].
  destruct (strtol (c_str str)) as [[v e] er] eqn:E. destruct er; [by apply yields_ret|].
  destruct (bool_decide _); apply yields_ret; [|done]. apply strtol_range in E.
  cbn. rewrite (proj2 (Z.leb_le _ _)), (proj2 (Z.ltb_lt _ _)) by lia. done.
Qed.

Lemma yields_factor e n :
  yields e (null_or wf_expr) -> yields (factor_with e n) (null_or wf_expr).
Proof.
  intros He. apply yields_step. intros c. destruct (negb (c =? 0)).
  - eapply yields_bind; [exact He|]. intros nd Hn. apply yields_step. intros c'.
    destruct (c' =? 0); by apply yields_ret.
  - eapply yields_bind; [apply yields_try|]. intros x Hx. destruct (Z.eqb_spec x 0) as [-> |Hne]; cbn [negb].
    + apply yields_num.
    + apply yields_ret. unfold init_var_node. rewrite (proj2 (Z.eqb_neq _ _)) by done. by destruct Hx.
Qed.

Lemma yields_operators n f e r :
  (forall c, f c = true -> is_arith c = true) ->
  yields e (null_or wf_expr) -> null_or wf_expr r -> yields (operator_loop n f e r) (null_or wf_expr).
Proof.
  intros Hf He. revert r. induction n as [|n IH]; intros r Hr; [done|]. cbn [operator_loop].
  eapply yields_bind; [apply yields_try|]. intros c Hc. destruct (Z.eqb_spec c 0) as [-> |Hne]; [by apply yields_ret|].
  eapply yields_bind; [exact He|]. intros x Hx. apply IH. destruct Hc as [?|Hc]; [done|].
  destruct r as [r|], x as [x|]; cbn; try done. cbn in Hr, Hx. by rewrite (Hf c Hc), Hr, Hx.
Qed.

Lemma yields_expression n : yields (expression n) (null_or wf_expr).
Proof.
  induction n as [|n IH]; [done|]. cbn [expression].
  assert (Hterm : yields (term_with (expression n) (S n)) (null_or wf_expr)).
  { eapply yields_bind; [by apply yields_factor|]. intros r Hr.
    apply yields_operators; [|by apply yields_factor|done]. intros c Hc. unfold is_arith. by rewrite Hc. }
  eapply yields_bind; [exact Hterm|]. intros r Hr. apply yields_operators; [|done|done].
  intros c Hc. unfold is_arith. rewrite Hc. apply orb_true_r.
Qed.

Lemma yields_comparison n : yields (comparison n) (null_or wf_condition).
Proof.
  eapply yields_bind; [apply yields_expression|]. intros l Hl.
  eapply yields_bind; [apply yields_try|]. intros o Ho.
  eapply yields_bind; [apply yields_expression|]. intros r Hr. apply yields_ret.
  destruct l as [l|], r as [r|]; cbn; try done. cbn in Hl, Hr. rewrite Hl, Hr, !andb_true_r.
  destruct Ho as [-> | ->]; [apply orb_true_r|done].
Qed.

Lemma wf_if c a b : null_or wf_condition c -> null_or wf_tree a -> null_or wf_tree b ->
  null_or (fun n => wf_tree n && negb (is_sequence n)) (init_if_node c a b).
Proof.
  destruct c as [c|], a as [a|]; cbn; try done. intros -> ->. destruct b as [b|]; cbn; [|done]. by intros ->.
Qed.

Lemma yields_if q n : yields q (null_or wf_tree) ->
  yields (if_statement q n) (null_or (fun n => wf_tree n && negb (is_sequence n))).
Proof.
  intros Hq. eapply yields_bind; [apply yields_comparison|]. intros c Hc.
  eapply yields_bind; [exact Hq|]. intros a Ha. apply yields_step. intros next.
  eapply (yields_bind _ _ (fun x => null_or wf_tree x.1)).
  - destruct (is_keyword next str_ELSE); [|by apply yields_ret].
    eapply yields_bind; [exact Hq|]. intros b Hb. apply yields_step. intros. by apply yields_ret.
  - intros [b next'] Hb. destruct (negb _); [by apply yields_ret|]. apply yields_step. intros next2.
    destruct (negb _); apply yields_ret; [done|]. by apply wf_if.
Qed.

Lemma yields_while q n : yields q (null_or wf_tree) ->
  yields (while_statement q n) (null_or (fun n => wf_tree n && negb (is_sequence n))).
Proof.
  intros Hq. eapply yields_bind; [apply yields_comparison|]. intros c Hc.
  eapply yields_bind; [exact Hq|]. intros b Hb. apply yields_step. intros next.
  destruct (negb _); [by apply yields_ret|]. apply yields_step. intros next2.
  destruct (negb _); apply yields_ret; [done|]. destruct c, b; cbn in *; try done. by rewrite Hc, Hb.
Qed.

Lemma yields_let n : yields (let_statement n) (null_or (fun n => wf_tree n && negb (is_sequence n))).
Proof.
  apply yields_step. intros x. unfold is_variable_name. destruct (isupper x) eqn:Hx; [|by apply yields_ret].
  apply yields_step. intros c. destruct (negb _); [by apply yields_ret|].
  eapply yields_bind; [apply yields_expression|]. intros e He. apply yields_ret.
  destruct e as [e|]; cbn; [|done]. destruct (x =? 0); cbn; [done|]. cbn in He. by rewrite Hx, He.
Qed.

Lemma yields_statement q n : yields q (null_or wf_tree) ->
  yields (statement_with q n) (fun r => null_or (fun n => wf_tree n && negb (is_sequence n)) r.1).
Proof.
  intros Hq. apply yields_step. intros []. apply yields_step. intros start. apply yields_step.
  intros [tok|]; [|by apply yields_ret].
  assert (Hans : forall m : M parser_state (option node),
            yields m (null_or (fun n => wf_tree n && negb (is_sequence n))) ->
            yields (x <- m;; ret (x, false)) (fun r => null_or (fun n => wf_tree n && negb (is_sequence n)) r.1)).
  { intros m Hm. eapply yields_bind; [exact Hm|]. intros x Hx. by apply yields_ret. }
  destruct (is_keyword _ str_ELSE); [apply yields_step; intros []; by apply yields_ret|].
  destruct (is_keyword _ str_END).
  { apply yields_step. intros next. destruct (negb _); [by apply yields_ret|].
    apply yields_step; intros []; by apply yields_ret. }
  destruct (is_keyword _ str_PRINT).
  { eapply yields_bind; [apply yields_expression|]. intros [e|] He; apply yields_ret; cbn; [|done].
    cbn in He. by rewrite He. }
  destruct (is_keyword _ str_LET); [apply Hans, yields_let|].
  destruct (is_keyword _ str_IF); [by apply Hans, yields_if|].
  destruct (is_keyword _ str_WHILE); [by apply Hans, yields_while|].
  by apply yields_ret.
Qed.

Lemma wf_sequence l :
  Forall (fun n => wf_tree n && negb (is_sequence n) = true) l -> (length l <> 1)%nat -> wf_tree (SEQUENCE l) = true.
Proof.
  intros Hl Hlen. cbn [wf_tree]. rewrite (proj2 (Nat.eqb_neq _ _) Hlen). cbn [negb andb]. clear Hlen.
  induction Hl as [|x l Hx _ IH]; [done|]. apply andb_true_iff in Hx as [-> ->]. done.
Qed.

Lemma yields_sequence_loop n st l :
  yields st (fun r => null_or (fun n => wf_tree n && negb (is_sequence n)) r.1) ->
  Forall (fun n => wf_tree n && negb (is_sequence n) = true) l ->
  yields (sequence_loop n st l) (null_or wf_tree).
Proof.
  intros Hst. revert l. induction n as [|n IH]; intros l Hl; [done|]. cbn [sequence_loop].
  eapply yields_bind; [exact Hst|]. intros [x e] Hx. destruct e.
  - destruct l as [|y [|z l]]; apply yields_ret.
    + done.
    + inversion_clear Hl as [|? ? Hy _]. apply andb_true_iff in Hy as [Hy _]. done.
    + apply wf_sequence; [done|simpl; lia].
  - destruct x as [x|]; [|by apply yields_ret]. apply IH. apply Forall_app. split; [done|]. by repeat constructor.
Qed.

Lemma yields_sequence n : yields (sequence n) (null_or wf_tree).
Proof.
  induction n as [|n IH]; [done|]. cbn [sequence].
  apply yields_sequence_loop; [by apply yields_statement|constructor].
Qed.

(** The trees of parse(). *)
Lemma parse_wf input t : parse input = Ok (Some t) -> wf_tree t = true.
Proof.
  unfold parse. destruct (parse_stream _ _) as [[a s]|] eqn:E; [|done]. intros [= ->].
  assert (yields (parse_stream (S (length input))) (null_or wf_tree)) as Hy.
  { eapply yields_bind; [apply yields_sequence|]. intros x Hx. apply yields_step. intros b.
    destruct (negb b); by apply yields_ret. }
  exact (Hy _ _ _ E).
Qed.
