(* ===== verification/Compile.v ===== *)
(** * The code generator (assembly-compiler/src/compile.c, src/compiler.c)

    compile_ast() prints assembly; here it returns the list of the lines it
    prints, as instructions.  [asm_text] is their text.  The generator folds
    constants by overwriting NUM nodes in place: see [compute_folds]. *)
From stdpp Require Import prelude list.
From Stdlib Require Import ZArith Lia String Ascii.
From S2P Require Import Prelude Ast Parser.
Open Scope Z_scope.
Open Scope c_scope.

(** ** Assembly *)

Inductive label :=
  | L_IF (n : Z) | L_ELSE (n : Z) | L_END_IF (n : Z)
  | L_START_WHILE (n : Z) | L_WHILE (n : Z) | L_WHILE_END (n : Z).

Inductive reg := RAX | RCX | RDX | RDI | RBP | RSP.
Inductive cond := JL | JGE | JG | JLE | JE | JNE.

#[export] Instance label_eq_dec : EqDecision label.
Proof. solve_decision. Defined.
#[export] Instance reg_eq_dec : EqDecision reg.
Proof. solve_decision. Defined.

(** The instructions the compiler emits, in AT&T order: source, destination. *)
Inductive instr :=
  | MOV_imm (v : Z) (r : reg)
  | MOV (s d : reg)
  | LOAD (off : Z) (r : reg)      (* movq -off(%rbp), r *)
  | STORE (r : reg) (off : Z)     (* movq r, -off(%rbp) *)
  | PUSH (r : reg)
  | POP (r : reg)
  | CMP (s d : reg)
  | ADD (s d : reg)
  | SUB (s d : reg)
  | IMUL (s d : reg)
  | SUB_imm (n : Z) (d : reg)
  | SHL (k : Z) (d : reg)
  | CQTO
  | IDIV (s : reg)
  | CALL_print_int
  | JCC (c : cond) (l : label)
  | JMP (l : label)
  | LABEL (l : label)
  | LEAVE
  | RET.

(** ** Constants of the sources *)

Definition A_ASCII : Z := 65.
Definition NUM_VARS : Z := 26.
Definition SIZEOF_VALUE : Z := 8.

Definition OP_ADD : Z := 43.
Definition OP_SUB : Z := 45.
Definition OP_MUL : Z := 42.
Definition OP_DIV : Z := 47.
Definition OP_LT : Z := 60.
Definition OP_EQ : Z := 61.
Definition OP_GT : Z := 62.

(** (unsigned int) ((name - A_ASCII + 1) * sizeof(value_t)) *)
Definition var_offset (name : Z) : Z := u32 (u64 (u64 (name - A_ASCII + 1) * SIZEOF_VALUE)).

(** ** Constant folding *)

(** The arithmetic of compute_folds(), done by the compiler itself.  It is
    built without the integer sanitizer and wraps around; a division that traps
    stops the compiler. *)
Definition fold_arith (op a b : Z) : res Z :=
  if op =? OP_ADD then Ok (s64 (a + b))
  else if op =? OP_SUB then Ok (s64 (a - b))
  else if op =? OP_MUL then Ok (s64 (a * b))
  else if (b =? 0) || ((a =? - 2 ^ 63) && (b =? -1)) then Err UB
  else Ok (Z.quot a b).

(** ((num_node_t * ) left)->value = v through a pointer that compute_folds() has
    moved to the leftmost leaf of the tree. *)
Fixpoint set_leftmost (v : Z) (n : node) : node :=
  match n with
  | BINARY_OP o l r => BINARY_OP o (set_leftmost v l) r
  | NUM _ => NUM v
  | n => n
  end.

(** compute_folds(&node).  The nodes are updated in place but the pointers
    stored in them are not: [left] and [right] are local variables.  The result
    is the tree as it is in memory afterwards and where the caller's pointer
    points to: still at the root ([None]), or at the leftmost leaf of the tree,
    a NUM node of the given value ([Some v]).  A NUM node is its own leftmost
    leaf. *)
Fixpoint compute_folds (n : node) : res (node * option Z) :=
  match n with
  | BINARY_OP bi_op l r =>
      '(l, lp) <-! compute_folds l;;
      '(r, rp) <-! compute_folds r;;
      match lp, rp with
      | Some left_val, Some right_val =>
          if is_term_op bi_op || is_factor_op bi_op then
            v <-! fold_arith bi_op left_val right_val;;
            Ok (BINARY_OP bi_op (set_leftmost v l) r, Some v)
          else Ok (BINARY_OP bi_op l r, None)
      | _, _ => Ok (BINARY_OP bi_op l r, None)
      end
  | NUM v => Ok (NUM v, Some v)
  | _ => Ok (n, None)
  end.

(** What the caller's pointer points to after compute_folds(). *)
Definition folded (n : node) : res node :=
  '(n', p) <-! compute_folds n;;
  Ok (match p with Some v => NUM v | None => n' end).

(** ** Expressions *)

(** check_power_two(): the shift that replaces a multiplication by [value]. *)
Definition check_power_two (value : Z) : option Z :=
  if (1 <? value) && (Z.land value (value - 1) =? 0) then Some (Z.log2 value) else None.

Definition op_code (op : Z) : list instr :=
  if (op =? OP_LT) || (op =? OP_GT) || (op =? OP_EQ) then [CMP RCX RDI]
  else if op =? OP_ADD then [ADD RCX RDI]
  else if op =? OP_SUB then [SUB RCX RDI]
  else if op =? OP_MUL then [IMUL RCX RDI]
  else if op =? OP_DIV then [MOV RDI RAX; CQTO; IDIV RCX; MOV RAX RDI]
  else [].

Definition power_of (op : Z) (right : node) : option Z :=
  match right with
  | NUM v => if op =? OP_MUL then check_power_two v else None
  | _ => None
  end.

(** The cases NUM, VAR and BINARY_OP of compile_ast().  An operand is never a
    statement ([ParserWf]). *)
Fixpoint compile_expr (n : node) : res (list instr) :=
  match n with
  | NUM v => Ok [MOV_imm v RDI]
  | VAR name => Ok [LOAD (var_offset name) RDI]
  | BINARY_OP op l r =>
      match power_of op r with
      | Some shifted_right =>
          cl <-! compile_expr l;;
          Ok (cl ++ [SHL shifted_right RDI])
      | None =>
          cl <-! compile_expr l;;
          cr <-! compile_expr r;;
          Ok (cl ++ [PUSH RDI] ++ cr ++ [PUSH RDI; POP RCX; POP RDI] ++ op_code op)
      end
  | _ => Err UB
  end.

(** ** Statements *)

(** The counters that number the labels. *)
Record counters := mkCounters { if_local : Z; while_local : Z }.

Definition next_if : M counters Z := fun s =>
  let n := if_local s + 1 in Ok (n, mkCounters n (while_local s)).
Definition next_while : M counters Z := fun s =>
  let n := while_local s + 1 in Ok (n, mkCounters (if_local s) n).

(** condition->op *)
Definition condition_op (c : node) : res Z :=
  match c with BINARY_OP op _ _ => Ok op | _ => Err UB end.

(** The two jumps after a comparison; none for another operator. *)
Definition branch (op : Z) (yes no : label) : list instr :=
  if op =? OP_LT then [JCC JL yes; JCC JGE no]
  else if op =? OP_GT then [JCC JG yes; JCC JLE no]
  else if op =? OP_EQ then [JCC JE yes; JCC JNE no]
  else [].

Fixpoint compile_ast (n : node) : M counters (list instr) :=
  match n with
  | NUM _ | VAR _ | BINARY_OP _ _ _ => lift (compile_expr n)
  | PRINT e =>
      e <- lift (folded e);;
      c <- lift (compile_expr e);;
      ret (c ++ [CALL_print_int])
  | SEQUENCE l =>
      (fix go (l : list node) : M counters (list instr) :=
         match l with
         | [] => ret []
         | x :: l => c <- compile_ast x;; cs <- go l;; ret (c ++ cs)
         end) l
  | LET x e =>
      c <- lift (compile_expr e);;
      ret (c ++ [STORE RDI (var_offset x)])
  | IF cnd a b =>
      cur_local <- next_if;;
      op <- lift (condition_op cnd);;
      cnd <- lift (folded cnd);;
      c <- lift (compile_expr cnd);;
      ca <- compile_ast a;;
      cb <- match b with Some b => compile_ast b | None => ret [] end;;
      ret (c ++
           branch op (L_IF cur_local)
             (match b with Some _ => L_ELSE cur_local | None => L_END_IF cur_local end) ++
           [LABEL (L_IF cur_local)] ++ ca ++ [JMP (L_END_IF cur_local)] ++
           [LABEL (L_ELSE cur_local)] ++ cb ++ [LABEL (L_END_IF cur_local)])
  | WHILE cnd b =>
      cur_local <- next_while;;
      op <- lift (condition_op cnd);;
      cnd <- lift (folded cnd);;
      c <- lift (compile_expr cnd);;
      cb <- compile_ast b;;
      ret ([LABEL (L_START_WHILE cur_local)] ++ c ++
           branch op (L_WHILE cur_local) (L_WHILE_END cur_local) ++
           [LABEL (L_WHILE cur_local)] ++ cb ++
           [JMP (L_START_WHILE cur_local); LABEL (L_WHILE_END cur_local)])
  end.

(** ** The whole compiler (compiler.c) *)

Definition header : list instr :=
  [PUSH RBP; MOV RSP RBP; SUB_imm (NUM_VARS * SIZEOF_VALUE) RSP].

Definition footer : list instr := [LEAVE; RET].

(** main() on the bytes of the program file: the instructions printed. *)
Definition compiler_main (input : list Z) : res (list instr) :=
  ast <-! parse input;;
  match ast with
  | None => Err (Exit 2)
  | Some ast =>
      '(c, _) <-! compile_ast ast (mkCounters 0 0);;
      Ok (header ++ c ++ footer)
  end.

(** ** The text of the output *)

Fixpoint bytes (s : string) : list Z :=
  match s with
  | EmptyString => []
  | String c s => Z.of_nat (nat_of_ascii c) :: bytes s
  end.

Fixpoint hex_digits (fuel : nat) (n : Z) (acc : list Z) : list Z :=
  match fuel with
  | O => acc
  | S f => let d := n mod 16 in
           let acc := (if d <? 10 then 48 + d else 87 + d) :: acc in
           if n / 16 =? 0 then acc else hex_digits f (n / 16) acc
  end.

Definition label_text (l : label) : list Z :=
  match l with
  | L_IF n => bytes ".IF_" ++ show_int n
  | L_ELSE n => bytes ".ELSE_" ++ show_int n
  | L_END_IF n => bytes ".END_IF_" ++ show_int n
  | L_START_WHILE n => bytes ".START_WHILE_" ++ show_int n
  | L_WHILE n => bytes ".WHILE_" ++ show_int n
  | L_WHILE_END n => bytes ".WHILE_END_" ++ show_int n
  end.

Definition reg_text (r : reg) : list Z :=
  match r with
  | RAX => bytes "%rax" | RCX => bytes "%rcx" | RDX => bytes "%rdx"
  | RDI => bytes "%rdi" | RBP => bytes "%rbp" | RSP => bytes "%rsp"
  end.

Definition cond_text (c : cond) : list Z :=
  match c with
  | JL => bytes "jl" | JGE => bytes "jge" | JG => bytes "jg"
  | JLE => bytes "jle" | JE => bytes "je" | JNE => bytes "jne"
  end.

Definition instr_text (i : instr) : list Z :=
  match i with
  | MOV_imm v r => bytes "movq $" ++ show_int v ++ bytes ", " ++ reg_text r
  | MOV s d => bytes "movq " ++ reg_text s ++ bytes ", " ++ reg_text d
  | LOAD off r => bytes "movq -0x" ++ hex_digits 8 off [] ++ bytes "(%rbp), " ++ reg_text r
  | STORE r off => bytes "movq " ++ reg_text r ++ bytes ", -0x" ++ hex_digits 8 off [] ++ bytes "(%rbp)"
  | PUSH r => bytes "push " ++ reg_text r
  | POP r => bytes "pop " ++ reg_text r
  | CMP s d => bytes "cmp " ++ reg_text s ++ bytes ", " ++ reg_text d
  | ADD s d => bytes "addq " ++ reg_text s ++ bytes ", " ++ reg_text d
  | SUB s d => bytes "subq " ++ reg_text s ++ bytes ", " ++ reg_text d
  | IMUL s d => bytes "imulq " ++ reg_text s ++ bytes ", " ++ reg_text d
  | SUB_imm n d => bytes "subq $" ++ show_int n ++ bytes ", " ++ reg_text d
  | SHL k d => bytes "shlq $" ++ show_int k ++ bytes ", " ++ reg_text d
  | CQTO => bytes "cqto"
  | IDIV s => bytes "idiv " ++ reg_text s
  | CALL_print_int => bytes "call print_int"
  | JCC c l => cond_text c ++ bytes " " ++ label_text l
  | JMP l => bytes "jmp " ++ label_text l
  | LABEL l => label_text l ++ bytes ":"
  | LEAVE => bytes "leave"
  | RET => bytes "ret"
  end.

Definition asm_text (c : list instr) : list Z :=
  List.concat (map (fun i => [9] ++ instr_text i ++ [10]) c).
