(* ===== verification/X86.v ===== *)
(** * The machine that runs the generated code, and the meaning of TeenyBASIC

    A semantics of the x86-64 instructions the compiler emits: registers and
    stack words hold signed 64-bit integers, the flags hold the result of the
    last comparison, and the stack may not grow below [stack_lo].  print_int
    (runtime/print_int.s) is any function that follows the calling convention:
    it prints %rdi, may overwrite the caller-saved registers and the memory
    below the stack pointer, and preserves the rest.  Below it is the reference
    semantics of the language. *)
From stdpp Require Import prelude list.
From Stdlib Require Import ZArith Lia.
From S2P Require Import Prelude Ast Parser Compile.
Open Scope Z_scope.
Open Scope c_scope.

(** ** Machine states *)

Record x86 := mkX86 {
  regs : reg -> Z;
  mem : Z -> Z;                     (* 8-byte words by address *)
  flags : option Datatypes.comparison;        (* destination compared with source *)
  printed : list Z                  (* latest first *)
}.

Definition reg_eqb (r r' : reg) : bool :=
  match r, r' with
  | RAX, RAX | RCX, RCX | RDX, RDX | RDI, RDI | RBP, RBP | RSP, RSP => true
  | _, _ => false
  end.

Definition rset (r : reg) (v : Z) (f : reg -> Z) : reg -> Z :=
  fun r' => if reg_eqb r r' then v else f r'.
Definition mset (a v : Z) (m : Z -> Z) : Z -> Z := fun a' => if a' =? a then v else m a'.

Definition with_reg (r : reg) (v : Z) (s : x86) : x86 :=
  mkX86 (rset r v (regs s)) (mem s) (flags s) (printed s).
Definition with_mem (a v : Z) (s : x86) : x86 :=
  mkX86 (regs s) (mset a v (mem s)) (flags s) (printed s).
Definition with_flags (f : option Datatypes.comparison) (s : x86) : x86 :=
  mkX86 (regs s) (mem s) f (printed s).

(** An arithmetic instruction: the result, with flags that no later jump of
    the generated code reads. *)
Definition arith (d : reg) (v : Z) (s : x86) : x86 := with_flags None (with_reg d (s64 v) s).

(** Whether a conditional jump is taken after a comparison. *)
Definition taken (c : cond) (f : Datatypes.comparison) : bool :=
  match c, f with
  | JL, Lt | JGE, (Gt | Eq) | JG, Gt | JLE, (Lt | Eq) | JE, Eq | JNE, (Lt | Gt) => true
  | _, _ => false
  end.

Section Machine.
(** What print_int leaves in the registers and the memory it may overwrite. *)
Variable print_int_junk : x86 -> (reg -> Z) * (Z -> Z).
(** The lowest address of the stack. *)
Variable stack_lo : Z.

Definition caller_saved (r : reg) : bool :=
  match r with RAX | RCX | RDX | RDI => true | RBP | RSP => false end.

Definition call_print_int (s : x86) : x86 :=
  let '(jr, jm) := print_int_junk s in
  mkX86 (fun r => if caller_saved r then s64 (jr r) else regs s r)
        (fun a => if a <? regs s RSP then s64 (jm a) else mem s a)
        None (regs s RDI :: printed s).

Definition push (v : Z) (s : x86) : res x86 :=
  let sp := s64 (regs s RSP - 8) in
  if sp <? stack_lo then Err (Segv sp) else Ok (with_mem sp v (with_reg RSP sp s)).

Definition pop (s : x86) : Z * x86 :=
  (mem s (regs s RSP), with_reg RSP (s64 (regs s RSP + 8)) s).

Section Code.
Variable C : list instr.

(** The position of a label. *)
Fixpoint find_label (l : label) (c : list instr) : option nat :=
  match c with
  | [] => None
  | LABEL l' :: c' => if decide (l = l') then Some O else S <$> find_label l c'
  | _ :: c' => S <$> find_label l c'
  end.

Inductive outcome := Next (pc : nat) (s : x86) | Done (s : x86).

Definition jump_to (l : label) (s : x86) : res outcome :=
  match find_label l C with Some p => Ok (Next p s) | None => Err UB end.

Definition exec_instr (i : instr) (pc : nat) (s : x86) : res outcome :=
  let next s := Ok (Next (S pc) s) in
  let r := regs s in
  match i with
  | MOV_imm v d => next (with_reg d v s)
  | MOV a d => next (with_reg d (r a) s)
  | LOAD off d => next (with_reg d (mem s (r RBP - off)) s)
  | STORE a off => next (with_mem (r RBP - off) (r a) s)
  | PUSH a => s' <-! push (r a) s;; next s'
  | POP d => let '(v, s') := pop s in next (with_reg d v s')
  | CMP a d => next (with_flags (Some (r d ?= r a)) s)
  | ADD a d => next (arith d (r d + r a) s)
  | SUB a d => next (arith d (r d - r a) s)
  | IMUL a d => next (arith d (r d * r a) s)
  | SUB_imm n d => next (arith d (r d - n) s)
  | SHL k d => next (arith d (Z.shiftl (r d) k) s)
  | CQTO => next (with_reg RDX (if r RAX <? 0 then -1 else 0) s)
  | IDIV a =>
      (* %rdx:%rax is the sign extension of %rax; #DE otherwise not modelled *)
      if negb (r RDX =? (if r RAX <? 0 then -1 else 0)) then Err UB
      else if (r a =? 0) || ((r RAX =? - 2 ^ 63) && (r a =? -1)) then Err UB
      else next (with_flags None (with_reg RDX (Z.rem (r RAX) (r a)) (with_reg RAX (Z.quot (r RAX) (r a)) s)))
  | CALL_print_int => next (call_print_int s)
  | JCC c l =>
      match flags s with
      | Some f => if taken c f then jump_to l s else next s
      | None => Err UB
      end
  | JMP l => jump_to l s
  | LABEL _ => next s
  | LEAVE =>
      let '(v, s') := pop (with_reg RSP (r RBP) s) in next (with_reg RBP v s')
  | RET => let '(_, s') := pop s in Ok (Done s')
  end.

Definition step (o : outcome) : res outcome :=
  match o with
  | Done s => Ok (Done s)
  | Next pc s => match C !! pc with Some i => exec_instr i pc s | None => Err UB end
  end.

Fixpoint run (n : nat) (o : outcome) : res outcome :=
  match n with
  | O => Ok o
  | S n => o' <-! step o;; run n o'
  end.

Lemma run_add n m o o' : run n o = Ok o' -> run (n + m) o = run m o'.
Proof.
  revert o. induction n as [|n IH]; intros o E; simpl in *; [by simplify_eq|].
  destruct (step o); [|done]. cbn [rbind] in *. by apply IH.
Qed.
End Code.
End Machine.

(** ** The meaning of TeenyBASIC *)

(** 64-bit arithmetic that wraps around; dividing by zero and the one
    overflowing division have no meaning. *)
Definition basic_arith (op a b : Z) : option Z :=
  if op =? OP_ADD then Some (s64 (a + b))
  else if op =? OP_SUB then Some (s64 (a - b))
  else if op =? OP_MUL then Some (s64 (a * b))
  else if op =? OP_DIV then
    if (b =? 0) || ((a =? - 2 ^ 63) && (b =? -1)) then None else Some (Z.quot a b)
  else None.

Definition basic_compare (op a b : Z) : option bool :=
  if op =? OP_LT then Some (a <? b)
  else if op =? OP_GT then Some (b <? a)
  else if op =? OP_EQ then Some (a =? b)
  else None.

Definition env := Z -> Z.

Fixpoint eval (e : env) (n : node) : option Z :=
  match n with
  | NUM v => Some v
  | VAR x => Some (e x)
  | BINARY_OP o l r => a ← eval e l; b ← eval e r; basic_arith o a b
  | _ => None
  end.

Definition eval_cond (e : env) (n : node) : option bool :=
  match n with
  | BINARY_OP o l r => a ← eval e l; b ← eval e r; basic_compare o a b
  | _ => None
  end.

Definition set_env (x v : Z) (e : env) : env := fun y => if y =? x then v else e y.

(** Running a statement: the variables and the printed numbers, latest first;
    [None] if the bound is exhausted or a division has no meaning. *)
Fixpoint exec (fuel : nat) (n : node) (s : env * list Z) : option (env * list Z) :=
  match fuel with
  | O => None
  | S f =>
      let '(e, o) := s in
      match n with
      | SEQUENCE l => (fix go (l : list node) (s : env * list Z) : option (env * list Z) :=
                         match l with
                         | [] => Some s
                         | x :: l => s' ← exec f x s; go l s'
                         end) l s
      | PRINT x => v ← eval e x; Some (e, v :: o)
      | LET x y => v ← eval e y; Some (set_env x v e, o)
      | IF c a b =>
          t ← eval_cond e c;
          if (t : bool) then exec f a s
          else match b with Some b => exec f b s | None => Some s end
      | WHILE c b =>
          t ← eval_cond e c;
          if (t : bool) then s' ← exec f b s; exec f (WHILE c b) s' else Some s
      | _ => None
      end
  end.
