(* ===== verification/CompileExpr.v ===== *)
(** * The code of an expression computes its value *)
From stdpp Require Import prelude list.
From Stdlib Require Import ZArith Lia.
From S2P Require Import Prelude Ast Parser Compile X86.
Open Scope Z_scope.
Open Scope c_scope.

(** ** Code fragments *)

Definition code_at (C : list instr) (pc : nat) (c : list instr) : Prop :=
  forall i x, c !! i = Some x -> C !! (pc + i)%nat = Some x.

Lemma code_at_app C pc a b :
  code_at C pc (a ++ b) <-> code_at C pc a /\ code_at C (pc + length a) b.
Proof.
  split.
  - intros H. split; intros i x E.
    + apply H. by apply lookup_app_l_Some.
    + rewrite <- Nat.add_assoc. apply H. rewrite lookup_app_r by lia.
      by replace (length a + i - length a)%nat with i by lia.
  - intros [Ha Hb] i x E. apply lookup_app_Some in E as [E|[Hl E]]; [by apply Ha|].
    replace (pc + i)%nat with (pc + length a + (i - length a))%nat by lia. by apply Hb.
Qed.

Lemma code_at_cons C pc i c :
  code_at C pc (i :: c) <-> C !! pc = Some i /\ code_at C (S pc) c.
Proof.
  split.
  - intros H. split; [rewrite <- (Nat.add_0_r pc); by apply H|]. intros j x E.
    rewrite Nat.add_succ_comm. by apply H.
  - intros [Hi Hc] [|j] x E; [injection E as <-; by rewrite Nat.add_0_r|].
    rewrite <- Nat.add_succ_comm. by apply Hc.
Qed.

Lemma code_at_self C pre c post : C = pre ++ c ++ post -> code_at C (length pre) c.
Proof.
  intros -> i x E. rewrite lookup_app_r by lia. rewrite lookup_app_l.
  - by replace (length pre + i - length pre)%nat with i by lia.
  - apply lookup_lt_Some in E. lia.
Qed.

Section Run.
Variable junk : x86 -> (reg -> Z) * (Z -> Z).
Variable stack_lo : Z.
Variable C : list instr.

Local Abbreviation run := (run junk stack_lo C).
Local Abbreviation exec_instr := (exec_instr junk stack_lo C).

(** Reaching a later point of the code. *)
Definition reach (pc : nat) (s : x86) (pc' : nat) (s' : x86) : Prop :=
  exists n, run n (Next pc s) = Ok (Next pc' s').

Lemma reach_refl pc s : reach pc s pc s.
Proof. by exists O. Qed.

Lemma reach_trans pc s pc' s' pc'' s'' :
  reach pc s pc' s' -> reach pc' s' pc'' s'' -> reach pc s pc'' s''.
Proof.
  intros [n Hn] [m Hm]. exists (n + m)%nat. by rewrite (run_add _ _ _ _ _ _ _ Hn).
Qed.

Lemma reach_step pc i s pc' s' pc'' s'' :
  C !! pc = Some i -> exec_instr i pc s = Ok (Next pc' s') -> reach pc' s' pc'' s'' ->
  reach pc s pc'' s''.
Proof.
  intros Hi He. apply reach_trans. exists 1%nat. cbn [X86.run]. unfold step. by rewrite Hi, He.
Qed.

(** Straight-line instructions: one step to the next line. *)
Lemma reach_next pc i s s' pc'' s'' :
  C !! pc = Some i -> exec_instr i pc s = Ok (Next (S pc) s') -> reach (S pc) s' pc'' s'' ->
  reach pc s pc'' s''.
Proof. intros. by eapply reach_step. Qed.

(** ** Frames *)

(** What the code of an expression preserves. *)
Record same_frame (s s' : x86) : Prop := {
  sf_bp : regs s' RBP = regs s RBP;
  sf_sp : regs s' RSP = regs s RSP;
  sf_out : printed s' = printed s;
  sf_mem a : regs s RSP <= a -> mem s' a = mem s a
}.

Lemma same_frame_refl s : same_frame s s.
Proof. done. Qed.

Lemma same_frame_trans s s' s'' : same_frame s s' -> same_frame s' s'' -> same_frame s s''.
Proof.
  intros [B1 S1 O1 M1] [B2 S2 O2 M2]. split; [congruence..|].
  intros a Ha. rewrite M2 by (rewrite S1; lia). auto.
Qed.

(** The variables live in the frame below %rbp. *)
Definition vars_at (bp : Z) (e : env) (m : Z -> Z) : Prop :=
  forall x, isupper x = true -> m (bp - (x - 64) * 8) = e x.

Lemma var_offset_upper x : isupper x = true -> var_offset x = (x - 64) * 8.
Proof.
  unfold isupper. intros H. apply andb_true_iff in H as [H1 H2]. apply Z.leb_le in H1, H2.
  unfold var_offset, A_ASCII, SIZEOF_VALUE.
  rewrite (wrapU_small 64 (x - 65 + 1)) by lia. rewrite (wrapU_small 64) by lia.
  rewrite wrapU_small by lia. lia.
Qed.

Lemma vars_frame s s' e :
  same_frame s s' -> regs s RSP <= regs s RBP - 208 -> vars_at (regs s RBP) e (mem s) ->
  vars_at (regs s' RBP) e (mem s').
Proof.
  intros [B S O M] Hsp Hv x Hx. rewrite B, M, (Hv x Hx); [done|].
  unfold isupper in Hx. apply andb_true_iff in Hx as [H1 H2]. apply Z.leb_le in H1, H2. lia.
Qed.

(** The names of the variables are letters. *)
Fixpoint vars_ok (n : node) : bool :=
  match n with
  | VAR x => isupper x
  | BINARY_OP _ l r => vars_ok l && vars_ok r
  | _ => true
  end.

(** The number of words the code of an expression pushes at once. *)
Fixpoint depth (n : node) : Z :=
  match n with
  | BINARY_OP _ l r => Z.max (depth l) (1 + Z.max 1 (depth r))
  | _ => 0
  end.

Lemma depth_nonneg n : 0 <= depth n.
Proof. induction n using node_ind; cbn [depth]; lia. Qed.

Hypothesis Hlo : 0 <= stack_lo.

(** The states from which an expression that needs [d] words can run. *)
Record ready (d : Z) (e : env) (s : x86) : Prop := {
  rd_room : stack_lo + 8 * d <= regs s RSP;
  rd_sp : regs s RSP <= regs s RBP - 208;
  rd_bp : regs s RBP < 2 ^ 63;
  rd_vars : vars_at (regs s RBP) e (mem s)
}.

Lemma ready_frame d d' e s s' : ready d e s -> same_frame s s' -> d' <= d -> ready d' e s'.
Proof.
  intros [H1 H2 H3 H4] Hf Hd. pose proof (vars_frame _ _ _ Hf H2 H4) as Hv. destruct Hf as [B S O M].
  split; rewrite ?B, ?S in *; [lia..|done].
Qed.

Definition computes (n : node) (c : list instr) (v : Z) (e : env) : Prop :=
  forall pc s, code_at C pc c -> ready (depth n) e s ->
  exists s', reach pc s (pc + length c) s' /\ regs s' RDI = v /\ same_frame s s'.

(** A push, and the state in which the next operand runs. *)
Lemma push_ok e d v s :
  ready d e s -> 1 <= d ->
  exists s', push stack_lo v s = Ok s' /\ regs s' RSP = regs s RSP - 8 /\ regs s' RBP = regs s RBP /\
             printed s' = printed s /\ mem s' (regs s RSP - 8) = v /\
             (forall a, regs s RSP <= a -> mem s' a = mem s a) /\ ready (d - 1) e s' /\
             regs s' RDI = regs s RDI.
Proof.
  intros [H1 H2 H3 H4] Hd. unfold push. rewrite wrapS_small by lia.
  rewrite (proj2 (Z.ltb_ge _ _)) by lia.
  eexists; split; [reflexivity|]. cbn. unfold mset. split_and!; try done.
  - by rewrite Z.eqb_refl.
  - intros a Ha. by rewrite (proj2 (Z.eqb_neq _ _)) by lia.
  - split; cbn; [lia..|]. intros x Hx. unfold mset. rewrite (proj2 (Z.eqb_neq _ _)).
    + by apply H4.
    + unfold isupper in Hx. apply andb_true_iff in Hx as [Hx1 Hx2]. apply Z.leb_le in Hx1, Hx2. lia.
Qed.

(** Both operands: the left one in %rdi, the right one in %rcx. *)
Lemma operands_correct o l r cl cr a b e pc s :
  computes l cl a e -> computes r cr b e ->
  code_at C pc (cl ++ [PUSH RDI] ++ cr ++ [PUSH RDI; POP RCX; POP RDI]) ->
  ready (depth (BINARY_OP o l r)) e s ->
  exists s', reach pc s (pc + length (cl ++ [PUSH RDI] ++ cr ++ [PUSH RDI; POP RCX; POP RDI])) s' /\
             regs s' RDI = a /\ regs s' RCX = b /\ same_frame s s'.
Proof.
  intros Hl Hr Hc Hs. cbn [depth] in Hs. pose proof (depth_nonneg r).
  apply code_at_app in Hc as [Hcl Hc]. apply code_at_cons in Hc as [Hp Hc].
  apply code_at_app in Hc as [Hcr Hc]. apply code_at_cons in Hc as [Hp2 Hc].
  apply code_at_cons in Hc as [Hp3 Hc]. apply code_at_cons in Hc as [Hp4 _].
  destruct (Hl pc s Hcl) as (s1 & R1 & E1 & F1).
  { eapply ready_frame; [exact Hs|apply same_frame_refl|lia]. }
  pose proof (ready_frame _ (1 + Z.max 1 (depth r)) _ _ _ Hs F1 ltac:(lia)) as Hs1.
  destruct (push_ok e _ a s1 Hs1 ltac:(lia)) as (s2 & P2 & Esp2 & Ebp2 & Eo2 & Em2 & Ef2 & Hs2 & _).
  destruct (Hr _ s2 Hcr) as (s3 & R3 & E3 & F3).
  { eapply ready_frame; [exact Hs2|apply same_frame_refl|lia]. }
  pose proof (ready_frame _ 1 _ _ _ Hs2 F3 ltac:(lia)) as Hs3.
  destruct (push_ok e _ b s3 Hs3 ltac:(lia)) as (s4 & P4 & Esp4 & Ebp4 & Eo4 & Em4 & Ef4 & _ & _).
  destruct Hs1 as [Hroom1 Hsp1 Hbp1 _]. destruct F3 as [B3 S3 O3 M3].
  set (s5 := with_reg RCX b (with_reg RSP (regs s3 RSP) s4)).
  set (s6 := with_reg RDI a (with_reg RSP (regs s1 RSP) s5)).
  assert (X5 : exec_instr (POP RCX) (S (S (pc + length cl) + length cr)) s4 =
               Ok (Next (S (S (S (pc + length cl) + length cr))) s5)).
  { cbn. unfold s5. rewrite Esp4, Em4. replace (regs s3 RSP - 8 + 8) with (regs s3 RSP) by lia.
    by rewrite wrapS_small by lia. }
  assert (X6 : exec_instr (POP RDI) (S (S (S (pc + length cl) + length cr))) s5 =
               Ok (Next (S (S (S (S (pc + length cl) + length cr)))) s6)).
  { cbn. unfold s6. rewrite Ef4 by lia. rewrite S3, Esp2. rewrite (M3 (regs s1 RSP - 8)) by lia. rewrite Em2.
    replace (regs s1 RSP - 8 + 8) with (regs s1 RSP) by lia. by rewrite wrapS_small by lia. }
  exists s6. split; [|split; [done|split; [done|]]].
  - eapply reach_trans; [exact R1|]. eapply reach_next; [exact Hp|cbn [X86.exec_instr]; by rewrite E1, P2|].
    eapply reach_trans; [exact R3|].
    eapply reach_next; [exact Hp2|cbn [X86.exec_instr]; by rewrite E3, P4|].
    eapply reach_next; [exact Hp3|exact X5|]. eapply reach_next; [exact Hp4|exact X6|].
    rewrite !length_app. cbn [length].
    match goal with |- reach ?x _ ?y _ => replace y with x by lia end. apply reach_refl.
  - destruct F1 as [B1 S1 O1 M1]. split; cbn; [congruence..|].
    intros x Hx. rewrite Ef4, M3, Ef2, M1; [done|rewrite ?S3, ?Esp2; lia..].
Qed.

(** A register other than the frame registers changes. *)
Lemma same_frame_reg d v f s :
  d <> RBP -> d <> RSP -> same_frame s (with_flags f (with_reg d v s)).
Proof. intros. split; cbn; unfold rset; destruct d; done. Qed.

Lemma same_frame_reg' d v s : d <> RBP -> d <> RSP -> same_frame s (with_reg d v s).
Proof. intros. split; cbn; unfold rset; destruct d; done. Qed.

Lemma op_code_correct op a b v pc s :
  basic_arith op a b = Some v -> regs s RDI = a -> regs s RCX = b -> code_at C pc (op_code op) ->
  exists s', reach pc s (pc + length (op_code op)) s' /\ regs s' RDI = v /\ same_frame s s'.
Proof.
  unfold basic_arith, op_code. intros Hv Ha Hb Hc.
  assert (Hone : forall i w, (pc + length [i] = S pc)%nat -> code_at C pc [i] ->
            exec_instr i pc s = Ok (Next (S pc) (arith RDI w s)) ->
            exists s', reach pc s (pc + length [i]) s' /\ regs s' RDI = s64 w /\ same_frame s s').
  { intros i w El Hi Hx. apply code_at_cons in Hi as [Hi _]. exists (arith RDI w s). rewrite El.
    split; [eapply reach_next; [exact Hi|exact Hx|apply reach_refl]|]. split; [done|by apply same_frame_reg]. }
  destruct (Z.eqb_spec op OP_ADD) as [-> |H1].
  { simplify_eq. apply Hone; [cbn [length]; lia|done|done]. }
  destruct (Z.eqb_spec op OP_SUB) as [-> |H2].
  { simplify_eq. apply Hone; [cbn [length]; lia|done|done]. }
  destruct (Z.eqb_spec op OP_MUL) as [-> |H3].
  { simplify_eq. apply Hone; [cbn [length]; lia|done|done]. }
  destruct (Z.eqb_spec op OP_DIV) as [-> |H4]; [|done].
  destruct ((b =? 0) || _) eqn:E; [done|]. simplify_eq. cbn [orb Z.eqb Pos.eqb OP_DIV OP_LT OP_GT OP_EQ] in *.
  apply code_at_cons in Hc as [I1 Hc]. apply code_at_cons in Hc as [I2 Hc].
  apply code_at_cons in Hc as [I3 Hc]. apply code_at_cons in Hc as [I4 _].
  eexists. split.
  - eapply reach_next; [exact I1|reflexivity|]. eapply reach_next; [exact I2|reflexivity|].
    eapply reach_next; [exact I3| |].
    { cbn. rewrite Z.eqb_refl. cbn [negb]. rewrite E. reflexivity. }
    eapply reach_next; [exact I4|reflexivity|]. cbn [length].
    match goal with |- reach ?x _ ?y _ => replace y with x by lia end. apply reach_refl.
  - split; [done|]. split; done.
Qed.

Lemma power_of_spec op r k : power_of op r = Some k -> op = OP_MUL /\ r = NUM (2 ^ k) /\ 0 <= k.
Proof.
  destruct r as [v| | | | | | |]; try done. cbn [power_of]. destruct (Z.eqb_spec op OP_MUL) as [-> |]; [|done].
  unfold check_power_two. destruct (_ && _) eqn:E; [|done]. intros [= <-].
  apply andb_true_iff in E as [E1 E2]. apply Z.ltb_lt in E1. apply Z.eqb_eq in E2.
  pose proof (Z.log2_spec v ltac:(lia)) as [Hlo' Hhi]. pose proof (Z.log2_nonneg v). split; [done|].
  split; [|done]. f_equal. destruct (Z.eq_dec v (2 ^ Z.log2 v)) as [?|Hne]; [done|]. exfalso.
  (* both v and v - 1 have the leading bit *)
  assert (Hb : Z.testbit (Z.land v (v - 1)) (Z.log2 v) = true).
  { rewrite Z.land_spec, Z.bit_log2 by lia. cbn [andb].
    assert (Z.log2 (v - 1) = Z.log2 v) as <- by (apply Z.log2_unique; lia).
    apply Z.bit_log2. lia. }
  by rewrite E2, Z.bits_0 in Hb.
Qed.

Lemma split_operands cl cr t :
  cl ++ PUSH RDI :: cr ++ PUSH RDI :: POP RCX :: POP RDI :: t =
  (cl ++ [PUSH RDI] ++ cr ++ [PUSH RDI; POP RCX; POP RDI]) ++ t.
Proof. by rewrite <- !app_assoc. Qed.

(** The code of an expression computes its value. *)
Lemma compile_expr_correct n e : forall c v,
  vars_ok n = true -> compile_expr n = Ok c -> eval e n = Some v -> computes n c v e.
Proof.
  induction n as [w|o l r IHl IHr|x| | | | |] using node_ind; try done; cbn [vars_ok compile_expr eval]; intros c v Hok Hc He.
  - simplify_eq. intros pc s Hp Hs. apply code_at_cons in Hp as [Hi _].
    exists (with_reg RDI v s). split; [|split; [done|by apply same_frame_reg']].
    eapply reach_next; [exact Hi|reflexivity|]. cbn [length]. rewrite Nat.add_1_r. apply reach_refl.
  - apply andb_true_iff in Hok as [Hokl Hokr].
    apply bind_Some in He as (a & Ha & He). apply bind_Some in He as (b & Hb & He).
    destruct (power_of o r) as [k|] eqn:Ep.
    + destruct (compile_expr l) as [cl|] eqn:El; [|done]. cbn [rbind] in Hc. simplify_eq.
      apply power_of_spec in Ep as (-> & -> & Hk). cbn in Hb. simplify_eq.
      intros pc s Hp Hs. apply code_at_app in Hp as [Hpl Hp]. apply code_at_cons in Hp as [Hi _].
      destruct (IHl cl a Hokl eq_refl Ha pc s Hpl) as (s1 & R1 & E1 & F1).
      { eapply ready_frame; [exact Hs|apply same_frame_refl|cbn [depth]; lia]. }
      exists (arith RDI (Z.shiftl (regs s1 RDI) k) s1). split; [|split].
      * eapply reach_trans; [exact R1|]. eapply reach_next; [exact Hi|reflexivity|].
        rewrite length_app, Nat.add_assoc, Nat.add_1_r. apply reach_refl.
      * cbn. rewrite E1, Z.shiftl_mul_pow2 by done. unfold basic_arith in He. cbn in He. congruence.
      * eapply same_frame_trans; [exact F1|by apply same_frame_reg].
    + destruct (compile_expr l) as [cl|] eqn:El; [|done]. cbn [rbind] in Hc.
      destruct (compile_expr r) as [cr|] eqn:Er; [|done]. cbn [rbind] in Hc.
      injection Hc as <-. intros pc s Hp Hs.
      cbn [app] in *. rewrite split_operands in *.
      apply code_at_app in Hp as [Hp1 Hp2].
      destruct (operands_correct o l r cl cr a b e pc s) as (s1 & R1 & Ea & Eb & F1);
        [by apply IHl|by apply IHr|done|done|].
      destruct (op_code_correct o a b v _ s1 He Ea Eb Hp2) as (s2 & R2 & Ev & F2).
      exists s2. split; [|split; [done|by eapply same_frame_trans]].
      rewrite length_app, Nat.add_assoc. by eapply reach_trans.
  - simplify_eq. intros pc s Hp Hs. apply code_at_cons in Hp as [Hi _].
    exists (with_reg RDI (e x) s). split; [|split; [done|by apply same_frame_reg']].
    eapply reach_next; [exact Hi| |].
    { cbn. rewrite var_offset_upper by done. destruct Hs as [_ _ _ Hv]. by rewrite (Hv x Hok). }
    cbn [length]. rewrite Nat.add_1_r. apply reach_refl.
Qed.

(** The code of a comparison sets the flags. *)
Lemma compile_cond_correct o l r e c a b pc s :
  is_comparison_op o = true -> vars_ok (BINARY_OP o l r) = true -> compile_expr (BINARY_OP o l r) = Ok c ->
  eval e l = Some a -> eval e r = Some b ->
  code_at C pc c -> ready (depth (BINARY_OP o l r)) e s ->
  exists s', reach pc s (pc + length c) s' /\ flags s' = Some (a ?= b) /\ same_frame s s'.
Proof.
  intros Ho Hok Hc Ha Hb Hp Hs.
  assert (op_code o = [CMP RCX RDI] /\ power_of o r = None) as [Hcode Hpow].
  { unfold is_comparison_op in Ho. repeat (apply orb_true_iff in Ho as [Ho|Ho]);
      apply Z.eqb_eq in Ho as ->; (split; [done|]); by destruct r. }
  cbn [compile_expr] in Hc. rewrite Hpow, Hcode in Hc. cbn [vars_ok] in Hok. apply andb_true_iff in Hok as [Hokl Hokr].
  destruct (compile_expr l) as [cl|] eqn:El; [|done]. cbn [rbind] in Hc.
  destruct (compile_expr r) as [cr|] eqn:Er; [|done]. cbn [rbind] in Hc. injection Hc as <-.
  cbn [app] in *. rewrite split_operands in *.
  apply code_at_app in Hp as [Hp1 Hp2]. apply code_at_cons in Hp2 as [Hi _].
  destruct (operands_correct o l r cl cr a b e pc s) as (s1 & R1 & Ea & Eb & F1);
    [by apply compile_expr_correct|by apply compile_expr_correct|done|done|].
  exists (with_flags (Some (a ?= b)) s1). split; [|split; [done|by destruct F1]].
  eapply reach_trans; [exact R1|]. eapply reach_next; [exact Hi|cbn; by rewrite Ea, Eb|].
  rewrite (length_app _ [CMP RCX RDI]), Nat.add_assoc. cbn [length]. rewrite Nat.add_1_r. apply reach_refl.
Qed.
End Run.
