(* ===== verification/CompileStmt.v ===== *)
(** * The code of a program runs like the program

    The generator is split into constant folding of the whole tree
    ([fold_ast]) and code generation without folding ([emit]); the generated
    code simulates the reference semantics of the folded tree. *)
From stdpp Require Import prelude list.
From Stdlib Require Import ZArith Lia.
From S2P Require Import Prelude Ast Parser Compile X86 CompileExpr.
Open Scope Z_scope.
Open Scope c_scope.

(** ** Folding and emission *)

Fixpoint fold_ast (n : node) : res node :=
  match n with
  | PRINT e => e <-! folded e;; Ok (PRINT e)
  | SEQUENCE l =>
      l <-! (fix go (l : list node) : res (list node) :=
               match l with
               | [] => Ok []
               | x :: l => x <-! fold_ast x;; l <-! go l;; Ok (x :: l)
               end) l;;
      Ok (SEQUENCE l)
  | IF c a b =>
      c <-! folded c;;
      a <-! fold_ast a;;
      b <-! match b with Some b => b <-! fold_ast b;; Ok (Some b) | None => Ok None end;;
      Ok (IF c a b)
  | WHILE c b => c <-! folded c;; b <-! fold_ast b;; Ok (WHILE c b)
  | n => Ok n
  end.

Fixpoint emit (n : node) : M counters (list instr) :=
  match n with
  | NUM _ | VAR _ | BINARY_OP _ _ _ => lift (compile_expr n)
  | PRINT e => c <- lift (compile_expr e);; ret (c ++ [CALL_print_int])
  | SEQUENCE l =>
      (fix go (l : list node) : M counters (list instr) :=
         match l with
         | [] => ret []
         | x :: l => c <- emit x;; cs <- go l;; ret (c ++ cs)
         end) l
  | LET x e => c <- lift (compile_expr e);; ret (c ++ [STORE RDI (var_offset x)])
  | IF cnd a b =>
      n <- next_if;;
      op <- lift (condition_op cnd);;
      c <- lift (compile_expr cnd);;
      ca <- emit a;;
      cb <- match b with Some b => emit b | None => ret [] end;;
      ret (c ++ branch op (L_IF n) (match b with Some _ => L_ELSE n | None => L_END_IF n end) ++
           [LABEL (L_IF n)] ++ ca ++ [JMP (L_END_IF n)] ++ [LABEL (L_ELSE n)] ++ cb ++ [LABEL (L_END_IF n)])
  | WHILE cnd b =>
      n <- next_while;;
      op <- lift (condition_op cnd);;
      c <- lift (compile_expr cnd);;
      cb <- emit b;;
      ret ([LABEL (L_START_WHILE n)] ++ c ++ branch op (L_WHILE n) (L_WHILE_END n) ++
           [LABEL (L_WHILE n)] ++ cb ++ [JMP (L_START_WHILE n); LABEL (L_WHILE_END n)])
  end.

(** Conditions are comparisons, or binary nodes without an operator: the
    trees of the parser. *)
Definition cond_ok (c : node) : bool :=
  match c with BINARY_OP o _ _ => negb (is_term_op o || is_factor_op o) | _ => false end.

Fixpoint conds_ok (n : node) : bool :=
  match n with
  | SEQUENCE l => (fix go (l : list node) : bool := match l with [] => true | x :: l => conds_ok x && go l end) l
  | IF c a b => cond_ok c && conds_ok a && match b with Some b => conds_ok b | None => true end
  | WHILE c b => cond_ok c && conds_ok b
  | _ => true
  end.

Lemma lift_ok_inv {S A} (r : res A) (s : S) x : lift r s = Ok x -> exists a, r = Ok a /\ x = (a, s).
Proof. unfold lift. destruct r as [a|]; [|done]. intros [= <-]. eauto. Qed.

Lemma bind_ok_inv {S A B} (m : M S A) (k : A -> M S B) s x :
  bind m k s = Ok x -> exists a s', m s = Ok (a, s') /\ k a s' = Ok x.
Proof. unfold bind. destruct (m s) as [[a s']|]; [eauto|done]. Qed.

(** Takes a successful run of a sequence of steps apart. *)
Ltac run_inv :=
  repeat match goal with
  | H : bind _ _ _ = Ok _ |- _ => apply bind_ok_inv in H as (? & ? & ? & H)
  | H : lift _ _ = Ok _ |- _ => apply lift_ok_inv in H as (? & ? & ?)
  | H : ret _ _ = Ok _ |- _ => unfold ret in H
  | H : next_if _ = Ok _ |- _ => unfold next_if in H
  | H : next_while _ = Ok _ |- _ => unfold next_while in H
  | H : Ok _ = Ok _ |- _ => injection H; clear H; intros; subst
  | H : (_, _) = (_, _) |- _ => injection H; clear H; intros; subst
  end.

(** Folding a condition keeps its operator. *)
Lemma folded_cond c c' : cond_ok c = true -> folded c = Ok c' -> condition_op c' = condition_op c.
Proof.
  destruct c as [|o l r| | | | | |]; try done. cbn [cond_ok]. intros Ho. apply negb_true_iff in Ho.
  unfold folded. cbn [compute_folds]. destruct (compute_folds l) as [[l' lp]|]; [|done]. cbn [rbind].
  destruct (compute_folds r) as [[r' rp]|]; [|done]. cbn [rbind]. rewrite Ho.
  destruct lp, rp; cbn [rbind]; by intros [= <-].
Qed.

Lemma compile_emit n : conds_ok n = true -> forall s c s',
  compile_ast n s = Ok (c, s') -> exists n', fold_ast n = Ok n' /\ emit n' s = Ok (c, s').
Proof.
  induction n as [v|o l r IHl IHr|x|l IH|e _|x e _|cnd a b _ IHa IHb|cnd b _ IHb] using node_ind;
    cbn [conds_ok compile_ast fold_ast]; intros Hok s c s' H.
  - by exists (NUM v).
  - by exists (BINARY_OP o l r).
  - by exists (VAR x).
  - revert s c s' Hok H. induction IH as [|x l Hx _ IHl]; intros s c s' Hok H; run_inv.
    + by exists (SEQUENCE []).
    + apply andb_true_iff in Hok as [Hokx Hokl].
      destruct (Hx Hokx _ _ _ H0) as (x' & Ex & Hx').
      destruct (IHl _ _ _ Hokl H1) as (n' & En & Hn').
      rewrite Ex. cbn [rbind]. match type of En with rbind (?f l) _ = _ => destruct (f l) as [l'|] eqn:El end; [|done].
      cbn [rbind] in En |- *.
      injection En as <-. eexists; split; [reflexivity|]. cbn [emit].
      rewrite (bind_ok _ _ _ _ _ Hx'). cbn [emit] in Hn'. by rewrite (bind_ok _ _ _ _ _ Hn').
  - run_inv. rewrite H0. cbn [rbind]. eexists; split; [reflexivity|]. cbn [emit]. rewrite H1. done.
  - run_inv. eexists; split; [reflexivity|]. cbn [emit]. rewrite H0. done.
  - apply andb_true_iff in Hok as [Hok Hokb]. apply andb_true_iff in Hok as [Hokc Hoka]. run_inv.
    match goal with H : folded cnd = Ok _ |- _ => rewrite H; pose proof (folded_cond _ _ Hokc H) as Hop end.
    cbn [rbind]. match goal with H : compile_ast a _ = _ |- _ => destruct (IHa Hoka _ _ _ H) as (a' & -> & Ha') end.
    cbn [rbind]. destruct b as [b|].
    + match goal with H : compile_ast b _ = _ |- _ => destruct (IHb b eq_refl Hokb _ _ _ H) as (b' & -> & Hb') end.
      cbn [rbind]. eexists; split; [reflexivity|]. cbn [emit]. unfold next_if, bind at 1. cbv beta iota.
      rewrite Hop. repeat match goal with H : ?x = Ok _ |- context [lift ?x] => rewrite H end.
      unfold bind at 1, lift at 1. unfold bind at 1, lift at 1.
      rewrite (bind_ok _ _ _ _ _ Ha'), (bind_ok _ _ _ _ _ Hb'). done.
    + run_inv. eexists; split; [reflexivity|]. cbn [emit]. unfold next_if, bind at 1. cbv beta iota.
      rewrite Hop. repeat match goal with H : ?x = Ok _ |- context [lift ?x] => rewrite H end.
      unfold bind at 1, lift at 1. unfold bind at 1, lift at 1. by rewrite (bind_ok _ _ _ _ _ Ha').
  - apply andb_true_iff in Hok as [Hokc Hokb]. run_inv.
    match goal with H : folded cnd = Ok _ |- _ => rewrite H; pose proof (folded_cond _ _ Hokc H) as Hop end.
    cbn [rbind]. match goal with H : compile_ast b _ = _ |- _ => destruct (IHb Hokb _ _ _ H) as (b' & -> & Hb') end.
    cbn [rbind]. eexists; split; [reflexivity|]. cbn [emit]. unfold next_while, bind at 1. cbv beta iota.
    rewrite Hop. repeat match goal with H : ?x = Ok _ |- context [lift ?x] => rewrite H end.
    unfold bind at 1, lift at 1. unfold bind at 1, lift at 1. by rewrite (bind_ok _ _ _ _ _ Hb').
Qed.

(** ** Labels *)

Definition labels (c : list instr) : list label :=
  omap (fun i => match i with LABEL l => Some l | _ => None end) c.

Lemma labels_app a b : labels (a ++ b) = labels a ++ labels b.
Proof. apply omap_app. Qed.

Lemma labels_cons i c :
  labels (i :: c) = match i with LABEL l => l :: labels c | _ => labels c end.
Proof. by destruct i. Qed.

Lemma elem_labels c p l : c !! p = Some (LABEL l) -> l ∈ labels c.
Proof.
  intros H. apply list_elem_of_omap. exists (LABEL l). split; [|done]. by eapply list_elem_of_lookup_2.
Qed.

(** In a code without duplicate labels, a jump finds its label. *)
Lemma find_label_at c p l : NoDup (labels c) -> c !! p = Some (LABEL l) -> find_label l c = Some p.
Proof.
  revert p. induction c as [|i c IH]; intros p Hd Hp; [done|].
  destruct p as [|p].
  - injection Hp as ->. cbn [find_label]. by rewrite decide_True.
  - cbn in Hp. destruct i as [| | | | | | | | | | | | | | | | |l'| |]; cbn [find_label];
      try (rewrite (IH p Hd Hp); done).
    apply NoDup_cons in Hd as [Hn Hd]. rewrite (IH p Hd Hp). rewrite decide_False; [done|].
    intros ->. apply Hn. by eapply elem_labels.
Qed.

(** The labels numbered by the counters between [s] and [s']. *)
Definition fresh (s s' : counters) (l : label) : Prop :=
  match l with
  | L_IF n | L_ELSE n | L_END_IF n => if_local s < n <= if_local s'
  | L_START_WHILE n | L_WHILE n | L_WHILE_END n => while_local s < n <= while_local s'
  end.

Definition counters_le (s s' : counters) : Prop :=
  if_local s <= if_local s' /\ while_local s <= while_local s'.

Lemma fresh_mono s s' t t' l : counters_le t s -> counters_le s' t' -> fresh s s' l -> fresh t t' l.
Proof. intros [H1 H2] [H3 H4] Hl. destruct l; cbn in *; lia. Qed.

Definition labels_ok (s s' : counters) (ls : list label) : Prop :=
  counters_le s s' /\ Forall (fresh s s') ls /\ NoDup ls.

Lemma labels_ok_app s s1 s2 a b :
  labels_ok s s1 a -> labels_ok s1 s2 b -> labels_ok s s2 (a ++ b).
Proof.
  intros ([H1 H2] & Ha & Hda) ([H3 H4] & Hb & Hdb). split; [split; lia|]. split.
  - apply Forall_app. split; (eapply Forall_impl; [eassumption|]); intros l; apply fresh_mono; split; lia.
  - apply NoDup_app. split; [done|]. split; [|done]. intros l Hl Hl'.
    rewrite Forall_forall in Ha, Hb. specialize (Ha l Hl). specialize (Hb l Hl'). destruct l; cbn in *; lia.
Qed.

Lemma labels_ok_nil s : labels_ok s s [].
Proof. split; [split; lia|]. split; constructor. Qed.

Lemma labels_expr n : forall c, compile_expr n = Ok c -> labels c = [].
Proof.
  induction n as [|o l r IHl IHr| | | | | |] using node_ind; cbn [compile_expr]; intros c Hc; simplify_eq; try done.
  destruct (power_of o r).
  - destruct (compile_expr l) as [cl|]; [|done]. cbn [rbind] in Hc. simplify_eq.
    by rewrite labels_app, (IHl cl).
  - destruct (compile_expr l) as [cl|]; [|done]. destruct (compile_expr r) as [cr|]; [|done].
    cbn [rbind] in Hc. injection Hc as <-. cbn [app]. rewrite split_operands, !labels_app, (IHl cl), (IHr cr) by done. unfold op_code.
    by repeat match goal with |- context [if ?b then _ else _] => destruct b end.
Qed.

Lemma labels_branch op y n : labels (branch op y n) = [].
Proof. unfold branch. by repeat match goal with |- context [if ?b then _ else _] => destruct b end. Qed.

(** A statement adds its own labels, of the number just drawn, to those of its
    parts. *)
Lemma labels_ok_add s s1 s' own inner ls :
  counters_le s s1 -> ls ≡ₚ own ++ inner -> NoDup own ->
  Forall (fun l => fresh s s1 l /\ (forall t, fresh s1 t l -> False)) own ->
  labels_ok s1 s' inner -> labels_ok s s' ls.
Proof.
  intros [H1 H2] Hp Hd Hown ([H3 H4] & Hf & Hdi). unfold labels_ok. rewrite Hp. split; [split; lia|]. split.
  - apply Forall_app. split; (eapply Forall_impl; [eassumption|]); cbv beta.
    + intros l [Hl _]. revert Hl. apply fresh_mono; split; lia.
    + intros l. apply fresh_mono; split; lia.
  - apply NoDup_app. split; [done|]. split; [|done]. intros l Hl Hl'. rewrite Forall_forall in Hown, Hf.
    destruct (Hown l Hl) as [_ Hno]. apply (Hno s'), Hf, Hl'.
Qed.

(** The labels of the generated code are those of its range of numbers, each
    defined once. *)
Lemma emit_labels n : forall s c s', emit n s = Ok (c, s') -> labels_ok s s' (labels c).
Proof.
  induction n as [v|o l r IHl IHr|x|l IH|e _|x e _|cnd a b _ IHa IHb|cnd b _ IHb] using node_ind;
    cbn [emit]; intros s c s' H.
  1-3: run_inv; erewrite labels_expr by done; apply labels_ok_nil.
  - revert s c s' H. induction IH as [|x l Hx _ IHl]; intros s c s' H; run_inv; [apply labels_ok_nil|].
    rewrite labels_app. eapply labels_ok_app; eauto.
  - run_inv. rewrite labels_app. erewrite labels_expr by done. apply labels_ok_nil.
  - run_inv. rewrite labels_app. erewrite labels_expr by done. apply labels_ok_nil.
  - run_inv. repeat (rewrite labels_app || rewrite labels_cons). rewrite labels_branch.
    erewrite (labels_expr cnd) by done.
    match goal with Ha : emit a _ = Ok (?ca, ?s1), Hb : _ ?s1 = Ok (?cb, s') |- _ =>
      pose proof (IHa _ _ _ Ha) as La;
      assert (labels_ok s1 s' (labels cb)) as Lb by (destruct b as [b|]; [by eapply IHb|run_inv; apply labels_ok_nil])
    end.
    pose proof (labels_ok_app _ _ _ _ _ La Lb) as Hin. set (n := if_local s + 1) in *.
    refine (labels_ok_add _ _ _ [L_IF n; L_ELSE n; L_END_IF n] _ _ _ _ _ _ Hin).
    + unfold n. split; cbn; lia.
    + cbn. apply Permutation_skip. rewrite <- Permutation_middle. apply Permutation_skip.
      by rewrite app_assoc, Permutation_app_comm.
    + repeat (constructor; [set_solver|]); constructor.
    + unfold n. repeat (constructor; [split; [cbn; lia|intros t; cbn; lia]|]); constructor.
  - run_inv. repeat (rewrite labels_app || rewrite labels_cons). rewrite labels_branch.
    erewrite (labels_expr cnd) by done.
    match goal with Hb : emit b _ = Ok (?cb, s') |- _ => pose proof (IHb _ _ _ Hb) as Hin end.
    set (n := while_local s + 1) in *.
    refine (labels_ok_add _ _ _ [L_START_WHILE n; L_WHILE n; L_WHILE_END n] _ _ _ _ _ _ Hin).
    + unfold n. split; cbn; lia.
    + cbn. do 2 apply Permutation_skip. by rewrite Permutation_app_comm.
    + repeat (constructor; [set_solver|]); constructor.
    + unfold n. repeat (constructor; [split; [cbn; lia|intros t; cbn; lia]|]); constructor.
Qed.
