(* ===== verification/CompileSim.v ===== *)
(** * Simulation: the generated code runs like the folded program *)
From stdpp Require Import prelude list.
From Stdlib Require Import ZArith Lia.
From S2P Require Import Prelude Ast Parser Compile X86 CompileExpr CompileStmt.
Open Scope Z_scope.
Open Scope c_scope.

(** The statements whose variables are letters and whose expressions push at
    most [d] words. *)
Fixpoint stmt_ok (d : Z) (n : node) : bool :=
  match n with
  | SEQUENCE l => (fix go (l : list node) : bool := match l with [] => true | x :: l => stmt_ok d x && go l end) l
  | PRINT e => vars_ok e && (depth e <=? d)
  | LET x e => isupper x && vars_ok e && (depth e <=? d)
  | IF c a b => vars_ok c && (depth c <=? d) && stmt_ok d a && match b with Some b => stmt_ok d b | None => true end
  | WHILE c b => vars_ok c && (depth c <=? d) && stmt_ok d b
  | _ => false
  end.

Section Sim.
Variable junk : x86 -> (reg -> Z) * (Z -> Z).
Variable stack_lo : Z.
Variable C : list instr.
Variable d bp : Z.
Variable m0 : Z -> Z.

Hypothesis Hlo : 0 <= stack_lo.
Hypothesis Hroom : stack_lo + 8 * d <= bp - 208.
Hypothesis Hbp : bp < 2 ^ 63.
Hypothesis Hlabels : NoDup (labels C).

Local Abbreviation reach := (reach junk stack_lo C).
Local Abbreviation exec_instr := (exec_instr junk stack_lo C).

(** The machine state between two statements. *)
Record at_stmt (e : env) (o : list Z) (s : x86) : Prop := {
  as_bp : regs s RBP = bp;
  as_sp : regs s RSP = bp - 208;
  as_out : printed s = o;
  as_vars : vars_at bp e (mem s);
  as_mem a : bp <= a -> mem s a = m0 a
}.

Lemma at_stmt_ready e o s n : at_stmt e o s -> depth n <= d -> ready stack_lo (depth n) e s.
Proof. intros [B S O V M] Hd. split; rewrite ?B, ?S; [lia..|done]. Qed.

Lemma at_stmt_frame e o s s' : at_stmt e o s -> same_frame s s' -> at_stmt e o s'.
Proof.
  intros [B S O V M] F. pose proof F as [B' S' O' M'].
  assert (vars_at (regs s' RBP) e (mem s')) as V' by (eapply vars_frame; [exact F|lia|by rewrite B]).
  split; [congruence..| |].
  - by rewrite B', B in V'.
  - intros a Ha. rewrite M' by lia. auto.
Qed.

(** ** Jumps *)

Lemma reach_jump pc l p s pc' s' :
  C !! pc = Some (JMP l) -> C !! p = Some (LABEL l) -> reach (S p) s pc' s' -> reach pc s pc' s'.
Proof.
  intros Hj Hl Hr. eapply reach_step; [exact Hj| |].
  - cbn. unfold jump_to. by rewrite (find_label_at _ _ _ Hlabels Hl).
  - eapply reach_next; [exact Hl|reflexivity|exact Hr].
Qed.

(** The jumps after a comparison lead behind the right label. *)
Lemma branch_correct op yes no a b t pc py pn s pc' s' :
  basic_compare op a b = Some t -> flags s = Some (a ?= b) -> code_at C pc (branch op yes no) ->
  C !! py = Some (LABEL yes) -> C !! pn = Some (LABEL no) ->
  reach (S (if t then py else pn)) s pc' s' -> reach pc s pc' s'.
Proof.
  intros Hb Hf Hc Hy Hn Hr.
  pose proof (find_label_at _ _ _ Hlabels Hy) as Fy. pose proof (find_label_at _ _ _ Hlabels Hn) as Fn.
  assert (Htwo : forall j1 j2, branch op yes no = [JCC j1 yes; JCC j2 no] ->
            taken j1 (a ?= b) = t -> taken j2 (a ?= b) = negb t -> reach pc s pc' s').
  { intros j1 j2 E T1 T2. rewrite E in Hc. apply code_at_cons in Hc as [I1 Hc].
    apply code_at_cons in Hc as [I2 _]. destruct t.
    - eapply reach_step; [exact I1|cbn; rewrite Hf, T1; unfold jump_to; by rewrite Fy|].
      eapply reach_next; [exact Hy|reflexivity|exact Hr].
    - eapply reach_step; [exact I1|cbn; rewrite Hf, T1; reflexivity|].
      eapply reach_step; [exact I2|cbn; rewrite Hf, T2; unfold jump_to; by rewrite Fn|].
      eapply reach_next; [exact Hn|reflexivity|exact Hr]. }
  unfold basic_compare in Hb. unfold branch in *.
  destruct (op =? OP_LT); [apply (Htwo JL JGE)|destruct (op =? OP_GT);
    [apply (Htwo JG JLE)|destruct (op =? OP_EQ); [apply (Htwo JE JNE)|done]]]; try done; simplify_eq.
  all: destruct (Z.compare_spec a b); cbn [taken negb];
    first [by destruct (Z.ltb_spec a b); (done || lia)|by destruct (Z.ltb_spec b a); (done || lia)
          |by destruct (Z.eqb_spec a b); (done || lia)].
Qed.

(** A condition is evaluated and leads behind one of two labels. *)
Lemma condition_correct cnd c op yes no e o t pc py pn s pc' (Q : x86 -> Prop) :
  vars_ok cnd = true -> depth cnd <= d -> compile_expr cnd = Ok c -> condition_op cnd = Ok op ->
  eval_cond e cnd = Some t -> code_at C pc (c ++ branch op yes no) -> at_stmt e o s ->
  C !! py = Some (LABEL yes) -> C !! pn = Some (LABEL no) ->
  (forall s1, at_stmt e o s1 -> exists s', reach (S (if t then py else pn)) s1 pc' s' /\ Q s') ->
  exists s', reach pc s pc' s' /\ Q s'.
Proof.
  intros Hv Hd Hc Ho He Hp Hs Hy Hn Hk.
  destruct cnd as [|o' l r| | | | | |]; try done. injection Ho as ->. cbn [eval_cond] in He.
  apply bind_Some in He as (a & Ha & He). apply bind_Some in He as (b & Hb & He).
  apply code_at_app in Hp as [Hp1 Hp2].
  assert (is_comparison_op op = true) as Hcmp.
  { unfold basic_compare in He. unfold is_comparison_op. unfold OP_LT, OP_GT, OP_EQ in He.
    destruct (op =? 60); [done|]. destruct (op =? 62); [by rewrite orb_true_r|]. by destruct (op =? 61). }
  destruct (compile_cond_correct junk stack_lo C Hlo op l r e c a b pc s Hcmp Hv Hc Ha Hb Hp1) as (s1 & R1 & F1 & SF).
  { by eapply at_stmt_ready. }
  destruct (Hk s1) as (s' & R & HQ); [by eapply at_stmt_frame|].
  exists s'. split; [|done]. eapply reach_trans; [exact R1|]. by eapply branch_correct.
Qed.

(** ** Statements *)

Lemma upper_range x : isupper x = true -> 65 <= x <= 90.
Proof. unfold isupper. intros H. apply andb_true_iff in H as [H1 H2]. apply Z.leb_le in H1, H2. lia. Qed.

Lemma store_correct x v e o s :
  isupper x = true -> at_stmt e o s -> regs s RDI = v ->
  at_stmt (set_env x v e) o (with_mem (regs s RBP - var_offset x) (regs s RDI) s).
Proof.
  intros Hx [B S O V M] Hv. pose proof (upper_range x Hx). rewrite var_offset_upper by done.
  split; cbn; [done..| |].
  - intros y Hy. pose proof (upper_range y Hy). unfold mset, set_env. rewrite B, Hv.
    destruct (Z.eqb_spec y x) as [-> |Hne]; [by rewrite Z.eqb_refl|].
    rewrite (proj2 (Z.eqb_neq _ _)) by lia. by apply V.
  - intros a Ha. unfold mset. rewrite (proj2 (Z.eqb_neq _ _)) by lia. auto.
Qed.

Lemma print_correct e o s :
  at_stmt e o s -> at_stmt e (regs s RDI :: o) (call_print_int junk s).
Proof.
  intros [B S O V M]. unfold call_print_int. destruct (junk s) as [jr jm].
  split; cbn; [done|done|by rewrite O| |].
  - intros x Hx. pose proof (upper_range x Hx). rewrite (proj2 (Z.ltb_ge _ _)) by lia. by apply V.
  - intros a Ha. rewrite (proj2 (Z.ltb_ge _ _)) by lia. auto.
Qed.

Definition simulates (f : nat) (n : node) : Prop :=
  forall cs c cs' pc s e o e' o',
  emit n cs = Ok (c, cs') -> stmt_ok d n = true -> exec f n (e, o) = Some (e', o') ->
  code_at C pc c -> at_stmt e o s ->
  exists s', reach pc s (pc + length c) s' /\ at_stmt e' o' s'.

Lemma sim_print f e : simulates (S f) (PRINT e).
Proof.
  intros cs c cs' pc s en o e' o' Hc Hok He Hp Hs. cbn [emit] in Hc. run_inv.
  cbn [stmt_ok] in Hok. apply andb_true_iff in Hok as [Hv Hd]. apply Z.leb_le in Hd.
  cbn [exec] in He. apply bind_Some in He as (v & Hev & [= <- <-]).
  apply code_at_app in Hp as [Hp1 Hp2]. apply code_at_cons in Hp2 as [Hi _].
  destruct (compile_expr_correct junk stack_lo C Hlo e en _ v Hv H Hev pc s Hp1) as (s1 & R1 & Ev & F1).
  { by eapply at_stmt_ready. }
  pose proof (at_stmt_frame _ _ _ _ Hs F1) as Hs1. apply print_correct in Hs1. rewrite Ev in Hs1.
  eexists; split; [|exact Hs1]. eapply reach_trans; [exact R1|]. eapply reach_next; [exact Hi|reflexivity|].
  rewrite length_app, Nat.add_assoc. cbn [length]. rewrite Nat.add_1_r. apply reach_refl.
Qed.

Lemma sim_let f x e : simulates (S f) (LET x e).
Proof.
  intros cs c cs' pc s en o e' o' Hc Hok He Hp Hs. cbn [emit] in Hc. run_inv.
  cbn [stmt_ok] in Hok. apply andb_true_iff in Hok as [Hok Hd]. apply andb_true_iff in Hok as [Hx Hv].
  apply Z.leb_le in Hd. cbn [exec] in He. apply bind_Some in He as (v & Hev & [= <- <-]).
  apply code_at_app in Hp as [Hp1 Hp2]. apply code_at_cons in Hp2 as [Hi _].
  destruct (compile_expr_correct junk stack_lo C Hlo e en _ v Hv H Hev pc s Hp1) as (s1 & R1 & Ev & F1).
  { by eapply at_stmt_ready. }
  pose proof (store_correct x v _ _ _ Hx (at_stmt_frame _ _ _ _ Hs F1) Ev) as Hs1.
  eexists; split; [|exact Hs1]. eapply reach_trans; [exact R1|]. eapply reach_next; [exact Hi|reflexivity|].
  rewrite length_app, Nat.add_assoc. cbn [length]. rewrite Nat.add_1_r. apply reach_refl.
Qed.

Lemma sim_sequence f l : (forall n, simulates f n) -> simulates (S f) (SEQUENCE l).
Proof.
  intros IH cs c cs' pc s en o e' o'. cbn [emit stmt_ok exec].
  revert cs c pc s en o. induction l as [|x l IHl]; intros cs c pc s en o Hc Hok He Hp Hs; run_inv.
  - injection He as <- <-. exists s. split; [|done]. cbn [length]. rewrite Nat.add_0_r. apply reach_refl.
  - apply andb_true_iff in Hok as [Hokx Hokl]. apply bind_Some in He as ([e1 o1] & Hx & He).
    apply code_at_app in Hp as [Hp1 Hp2].
    destruct (IH x _ _ _ _ _ _ _ _ _ H Hokx Hx Hp1 Hs) as (s1 & R1 & Hs1).
    destruct (IHl _ _ _ _ _ _ H0 Hokl He Hp2 Hs1) as (s2 & R2 & Hs2).
    exists s2. split; [|done]. rewrite length_app, Nat.add_assoc. by eapply reach_trans.
Qed.

(** Ends a run at the end of the code of a statement. *)
Ltac at_end_of_code :=
  repeat first [rewrite length_app | progress (cbn [length])];
  match goal with |- reach ?x _ ?y _ => replace y with x by lia end; apply reach_refl.

Lemma sim_if_node f cnd a b : (forall n, simulates f n) -> simulates (S f) (IF cnd a b).
Proof.
  intros IH cs c cs' pc s en o e' o' Hc Hok He Hp Hs. cbn [emit] in Hc. run_inv.
  rename x10 into op, x9 into cc, x5 into ca, x7 into cb, H2 into Ha, H3 into Hb. set (n := if_local cs + 1) in *.
  cbn [stmt_ok] in Hok. apply andb_true_iff in Hok as [Hok Hokb]. apply andb_true_iff in Hok as [Hok Hoka].
  apply andb_true_iff in Hok as [Hv Hd]. apply Z.leb_le in Hd.
  cbn [exec] in He. apply bind_Some in He as (t & Ht & He).
  assert (Hp' := Hp). rewrite app_assoc in Hp'. apply code_at_app in Hp' as [Hcnd Hp'].
  apply code_at_app in Hp as [_ Hp]. apply code_at_app in Hp as [_ Hp].
  apply code_at_cons in Hp as [Lif Hp]. apply code_at_app in Hp as [Hca Hp].
  apply code_at_cons in Hp as [Jend Hp]. apply code_at_cons in Hp as [Lelse Hp].
  apply code_at_app in Hp as [Hcb Hp]. apply code_at_cons in Hp as [Lend _].
  set (p0 := (pc + length cc + length (branch op (L_IF n) (match b with Some _ => L_ELSE n | None => L_END_IF n end)))%nat) in *.
  eapply (condition_correct cnd cc op _ _ en o t pc p0
            (match b with Some _ => S (S p0 + length ca) | None => S (S (S p0 + length ca)) + length cb end)%nat);
    try done.
  { by destruct b. }
  intros s1 Hs1. destruct t.
  - destruct (IH a _ _ _ _ _ _ _ _ _ Ha Hoka He Hca Hs1) as (s2 & R2 & Hs2).
    exists s2. split; [|done]. eapply reach_trans; [exact R2|]. eapply reach_jump; [exact Jend|exact Lend|].
    unfold p0. at_end_of_code.
  - destruct b as [b|].
    + destruct (IH b _ _ _ _ _ _ _ _ _ Hb Hokb He Hcb Hs1) as (s2 & R2 & Hs2).
      exists s2. split; [|done]. eapply reach_trans; [exact R2|].
      eapply reach_next; [exact Lend|reflexivity|]. unfold p0. at_end_of_code.
    + injection He as <- <-. exists s1. split; [|done]. unfold p0. at_end_of_code.
Qed.

Lemma sim_while f cnd b : (forall n, simulates f n) -> simulates (S f) (WHILE cnd b).
Proof.
  intros IH cs c cs' pc s en o e' o' Hc Hok He Hp Hs. pose proof Hc as Hwhile. pose proof Hok as Hokw.
  pose proof Hp as Hpw. cbn [emit] in Hc. run_inv.
  rename x8 into op, x7 into cc, x5 into cb.
  match goal with H : emit b _ = _ |- _ => rename H into Hemit end. set (n := while_local cs + 1) in *.
  cbn [stmt_ok] in Hok. apply andb_true_iff in Hok as [Hok Hokb].
  apply andb_true_iff in Hok as [Hv Hd]. apply Z.leb_le in Hd.
  cbn [exec] in He. apply bind_Some in He as (t & Ht & He).
  apply code_at_cons in Hp as [Lstart Hp]. assert (Hp' := Hp). rewrite app_assoc in Hp'.
  apply code_at_app in Hp' as [Hcnd _]. apply code_at_app in Hp as [_ Hp]. apply code_at_app in Hp as [_ Hp].
  apply code_at_cons in Hp as [Lbody Hp]. apply code_at_app in Hp as [Hcb Hp].
  apply code_at_cons in Hp as [Jback Hp]. apply code_at_cons in Hp as [Lend _].
  set (p0 := (S pc + length cc + length (branch op (L_WHILE n) (L_WHILE_END n)))%nat) in *.
  assert (Hend : exists s', reach (S pc) s (pc + length (LABEL (L_START_WHILE n) :: cc ++ branch op (L_WHILE n) (L_WHILE_END n) ++
             LABEL (L_WHILE n) :: cb ++ [JMP (L_START_WHILE n); LABEL (L_WHILE_END n)])) s' /\ at_stmt e' o' s').
  { eapply (condition_correct cnd cc op _ _ en o t (S pc) p0 (S (S p0 + length cb))); try done.
    intros s1 Hs1. destruct t.
    - apply bind_Some in He as ([e1 o1] & Hb & He).
      destruct (IH b _ _ _ _ _ _ _ _ _ Hemit Hokb Hb Hcb Hs1) as (s2 & R2 & Hs2).
      destruct (IH (WHILE cnd b) _ _ _ _ _ _ _ _ _ Hwhile Hokw He Hpw Hs2) as (s3 & R3 & Hs3).
      exists s3. split; [|done]. eapply reach_trans; [exact R2|].
      eapply reach_step; [exact Jback| |exact R3].
      cbn. unfold jump_to. by rewrite (find_label_at _ _ _ Hlabels Lstart).
    - injection He as <- <-. exists s1. split; [|done]. unfold p0. at_end_of_code. }
  destruct Hend as (s' & R & Hs'). exists s'. split; [|done].
  eapply reach_next; [exact Lstart|reflexivity|exact R].
Qed.

Lemma emit_correct f n : simulates f n.
Proof.
  revert n. induction f as [|f IH]; intros n; [by intros cs c cs' pc s e o e' o' _ _ He|].
  destruct n as [| | |l|e|x e|c a b|c b].
  1-3: intros cs ? cs' pc s en o e' o' _ Hok; done.
  - by apply sim_sequence.
  - apply sim_print.
  - apply sim_let.
  - by apply sim_if_node.
  - by apply sim_while.
Qed.
End Sim.
