(* ===== verification/CompileFold.v ===== *)
(** * Constant folding: what it preserves, and where it is sound

    compute_folds() overwrites the leftmost leaf of every constant subtree,
    but only the pointer of its caller is moved.  The result is right when the
    whole expression is constant, or when no operation has only constants. *)
From stdpp Require Import prelude list.
From Stdlib Require Import ZArith Lia.
From S2P Require Import Prelude Ast Parser ParserRoundtrip ParserWf Compile X86 CompileExpr CompileStmt CompileSim.
Open Scope Z_scope.
Open Scope c_scope.

(** ** The shape of the tree *)

Lemma set_leftmost_shape v n : vars_ok (set_leftmost v n) = vars_ok n /\ depth (set_leftmost v n) = depth n.
Proof.
  induction n as [|o l r [IHv IHd] _| | | | | |] using node_ind; try done. cbn. by rewrite IHv, IHd.
Qed.

Lemma compute_folds_shape n : forall n' p,
  compute_folds n = Ok (n', p) -> vars_ok n' = vars_ok n /\ depth n' = depth n.
Proof.
  induction n as [v|o l r IHl IHr|x| | | | |] using node_ind; cbn [compute_folds]; intros n' p E.
  2: { destruct (compute_folds l) as [[l' lp]|]; [|done]. cbn [rbind] in E.
       destruct (compute_folds r) as [[r' rp]|]; [|done]. cbn [rbind] in E.
       destruct (IHl _ _ eq_refl) as [Vl Dl]. destruct (IHr _ _ eq_refl) as [Vr Dr].
       assert (forall w, vars_ok (set_leftmost w l') = vars_ok l /\ depth (set_leftmost w l') = depth l) as Hset.
       { intros w. destruct (set_leftmost_shape w l'). by split; congruence. }
       destruct lp as [a|], rp as [b|]; try (injection E as <- <-; cbn; by rewrite Vl, Vr, Dl, Dr).
       destruct (_ || _); [|injection E as <- <-; cbn; by rewrite Vl, Vr, Dl, Dr].
       destruct (fold_arith o a b) as [w|]; [|done]. cbn [rbind] in E. injection E as <- <-.
       destruct (Hset w) as [Vs Ds]. cbn. by rewrite Vs, Vr, Ds, Dr. }
  all: by injection E as <- <-.
Qed.

Lemma folded_shape n n' d :
  folded n = Ok n' -> vars_ok n = true -> depth n <= d -> vars_ok n' = true /\ depth n' <= d.
Proof.
  unfold folded. destruct (compute_folds n) as [[n1 p]|] eqn:E; [|done]. cbn [rbind]. intros [= <-] Hv Hd.
  destruct (compute_folds_shape _ _ _ E) as [V D]. pose proof (depth_nonneg n).
  destruct p; cbn; [split; [done|lia]|split; [congruence|lia]].
Qed.

Lemma fold_ast_ok d n : forall n', fold_ast n = Ok n' -> stmt_ok d n = true -> stmt_ok d n' = true.
Proof.
  induction n as [| | |l IH|e _|x e _|c a b _ IHa IHb|c b _ IHb] using node_ind; try done;
    cbn [fold_ast stmt_ok]; intros n' E Hok.
  - revert n' E Hok. induction IH as [|x l Hx _ IHl]; intros n' E Hok; [by injection E as <-|].
    apply andb_true_iff in Hok as [Hokx Hokl]. destruct (fold_ast x) as [x'|]; [|done]. cbn [rbind] in E.
    match type of E with context [rbind (?f l) _] => destruct (f l) as [l'|] end; [|done].
    cbn [rbind] in *. injection E as <-. cbn [stmt_ok]. rewrite (Hx x' eq_refl Hokx).
    exact (IHl _ eq_refl Hokl).
  - destruct (folded e) as [e'|] eqn:Ee; [|done]. injection E as <-. apply andb_true_iff in Hok as [Hv Hd].
    apply Z.leb_le in Hd. destruct (folded_shape e e' d Ee Hv Hd) as [Hv' Hd']. cbn [stmt_ok].
    rewrite Hv'. by apply Z.leb_le.
  - injection E as <-. exact Hok.
  - destruct (folded c) as [c'|] eqn:Ec; [|done]. cbn [rbind] in E.
    apply andb_true_iff in Hok as [Hok Hokb]. apply andb_true_iff in Hok as [Hok Hoka].
    apply andb_true_iff in Hok as [Hv Hd]. apply Z.leb_le in Hd.
    destruct (folded_shape c c' d Ec Hv Hd) as [Hv' Hd']. apply Z.leb_le in Hd'.
    destruct (fold_ast a) as [a'|]; [|done]. cbn [rbind] in E. destruct b as [b|].
    + destruct (fold_ast b) as [b'|] eqn:Eb; [|done]. injection E as <-. cbn [stmt_ok].
      by rewrite Hv', Hd', (IHa a' eq_refl Hoka), (IHb b eq_refl b' Eb Hokb).
    + injection E as <-. cbn [stmt_ok]. by rewrite Hv', Hd', (IHa a' eq_refl Hoka).
  - destruct (folded c) as [c'|] eqn:Ec; [|done]. cbn [rbind] in E.
    apply andb_true_iff in Hok as [Hok Hokb].
    apply andb_true_iff in Hok as [Hv Hd]. apply Z.leb_le in Hd.
    destruct (folded_shape c c' d Ec Hv Hd) as [Hv' Hd']. apply Z.leb_le in Hd'.
    destruct (fold_ast b) as [b'|]; [|done]. injection E as <-. cbn [stmt_ok].
    by rewrite Hv', Hd', (IHb b' eq_refl Hokb).
Qed.

(** ** Sound folding *)

Fixpoint is_const (n : node) : bool :=
  match n with
  | NUM _ => true
  | BINARY_OP o l r => is_arith o && is_const l && is_const r
  | _ => false
  end.

(** No operation of the tree has only constants below it. *)
Fixpoint no_const_op (n : node) : bool :=
  match n with
  | BINARY_OP o l r => negb (is_const n) && no_const_op l && no_const_op r
  | _ => true
  end.

Definition fold_safe (n : node) : bool := is_const n || no_const_op n.

Fixpoint fold_safe_stmt (n : node) : bool :=
  match n with
  | SEQUENCE l => (fix go (l : list node) : bool := match l with [] => true | x :: l => fold_safe_stmt x && go l end) l
  | PRINT e => fold_safe e
  | IF c a b => fold_safe c && fold_safe_stmt a && match b with Some b => fold_safe_stmt b | None => true end
  | WHILE c b => fold_safe c && fold_safe_stmt b
  | _ => true
  end.

Lemma fold_arith_eval o a b v :
  is_arith o = true -> fold_arith o a b = Ok v -> basic_arith o a b = Some v.
Proof.
  unfold is_arith, is_factor_op, is_term_op. intros Ho. unfold fold_arith, basic_arith.
  destruct (Z.eqb_spec o OP_ADD); [by intros [= <-]|]. destruct (Z.eqb_spec o OP_SUB); [by intros [= <-]|].
  destruct (Z.eqb_spec o OP_MUL); [by intros [= <-]|].
  assert (o = OP_DIV) as ->.
  { unfold OP_ADD, OP_SUB, OP_MUL, OP_DIV in *.
    repeat (apply orb_true_iff in Ho as [Ho|Ho]); apply Z.eqb_eq in Ho; lia. }
  rewrite (Z.eqb_refl OP_DIV). destruct ((b =? 0) || _); [done|by intros [= <-]].
Qed.

(** A constant expression is folded to its value. *)
Lemma compute_folds_const n : forall n' p,
  is_const n = true -> compute_folds n = Ok (n', p) ->
  exists v, p = Some v /\ forall e, eval e n = Some v.
Proof.
  induction n as [v|o l r IHl IHr|x| | | | |] using node_ind; try done; cbn [is_const compute_folds]; intros n' p Hc E.
  - injection E as <- <-. by exists v.
  - apply andb_true_iff in Hc as [Hc Hr]. apply andb_true_iff in Hc as [Ho Hl].
    destruct (compute_folds l) as [[l' lp]|]; [|done]. cbn [rbind] in E.
    destruct (compute_folds r) as [[r' rp]|]; [|done]. cbn [rbind] in E.
    destruct (IHl _ _ Hl eq_refl) as (a & -> & Ha). destruct (IHr _ _ Hr eq_refl) as (b & -> & Hb).
    rewrite orb_comm in E. change (is_factor_op o || is_term_op o) with (is_arith o) in E. rewrite Ho in E.
    destruct (fold_arith o a b) as [v|] eqn:Ev; [|done]. cbn [rbind] in E. injection E as <- <-.
    exists v. split; [done|]. intros e. cbn [eval]. rewrite Ha, Hb. cbn. by apply fold_arith_eval.
Qed.

(** Without constant operations nothing is overwritten. *)
Lemma compute_folds_none n :
  no_const_op n = true ->
  compute_folds n = Ok (n, match n with NUM v => Some v | _ => None end).
Proof.
  induction n as [v|o l r IHl IHr|x| | | | |] using node_ind; try done.
  cbn [no_const_op compute_folds]. intros H.
  apply andb_true_iff in H as [H Hr]. apply andb_true_iff in H as [Hc Hl].
  rewrite (IHl Hl), (IHr Hr). cbn [rbind]. destruct l; try done. destruct r; try done.
  cbn [is_const] in Hc. rewrite !andb_true_r in Hc. apply negb_true_iff in Hc. rewrite orb_comm.
  by change (is_factor_op o || is_term_op o) with (is_arith o); rewrite Hc.
Qed.

Lemma folded_safe n n' : fold_safe n = true -> folded n = Ok n' ->
  n' = n \/ (is_const n = true /\ exists v, n' = NUM v /\ forall e, eval e n = Some v).
Proof.
  unfold fold_safe, folded. intros Hs E. destruct (is_const n) eqn:Hc.
  - right. split; [done|]. destruct (compute_folds n) as [[n1 p]|] eqn:En; [|done]. cbn [rbind] in E.
    destruct (compute_folds_const _ _ _ Hc En) as (v & -> & Hv). injection E as <-. eauto.
  - left. rewrite compute_folds_none in E by done. cbn [rbind] in E. by destruct n; injection E as <-.
Qed.

Lemma folded_eval n n' e : fold_safe n = true -> folded n = Ok n' -> eval e n' = eval e n.
Proof. intros Hs E. destruct (folded_safe n n' Hs E) as [-> |(_ & v & -> & Hv)]; [done|]. by rewrite Hv. Qed.

Lemma folded_eval_cond n n' e :
  cond_ok n = true -> fold_safe n = true -> folded n = Ok n' -> eval_cond e n' = eval_cond e n.
Proof.
  intros Hc Hs E. destruct (folded_safe n n' Hs E) as [-> |(Hk & _)]; [done|].
  destruct n as [|o l r| | | | | |]; try done. cbn [cond_ok is_const] in *.
  rewrite orb_comm in Hc. change (is_factor_op o || is_term_op o) with (is_arith o) in Hc.
  apply negb_true_iff in Hc. by rewrite Hc in Hk.
Qed.

(** A program whose folds are sound means the same after folding. *)
Lemma fold_ast_exec f : forall n n' s,
  conds_ok n = true -> fold_safe_stmt n = true -> fold_ast n = Ok n' -> exec f n' s = exec f n s.
Proof.
  induction f as [|f IH]; intros n n' [e o] Hc Hs E; [done|].
  destruct n as [| | |l|x|x y|c a b|c b]; cbn [conds_ok fold_safe_stmt fold_ast] in *; try (by injection E as <-).
  - match type of E with context [rbind (?f l) _] => destruct (f l) as [l'|] eqn:El end; [|done].
    injection E as <-. cbn [exec]. generalize (e, o). clear e o.
    revert l' El Hc Hs. induction l as [|x l IHl]; intros l' El Hc Hs s; [by injection El as <-|].
    apply andb_true_iff in Hc as [Hcx Hcl]. apply andb_true_iff in Hs as [Hsx Hsl].
    destruct (fold_ast x) as [x'|] eqn:Ex; [|done]. cbn [rbind] in El.
    match type of El with context [rbind (?f l) _] => destruct (f l) as [l1|] eqn:El1 end; [|done].
    injection El as <-. rewrite (IH x x' s Hcx Hsx Ex). destruct (exec f x s); [|done]. cbn. by apply IHl.
  - destruct (folded x) as [x'|] eqn:Ex; [|done]. injection E as <-. cbn [exec].
    by rewrite (folded_eval x x' e Hs Ex).
  - destruct (folded c) as [c'|] eqn:Ec; [|done]. cbn [rbind] in E.
    apply andb_true_iff in Hc as [Hc Hcb]. apply andb_true_iff in Hc as [Hcc Hca].
    apply andb_true_iff in Hs as [Hs Hsb]. apply andb_true_iff in Hs as [Hsc Hsa].
    destruct (fold_ast a) as [a'|] eqn:Ea; [|done]. cbn [rbind] in E.
    destruct b as [b|].
    + destruct (fold_ast b) as [b'|] eqn:Eb; [|done]. injection E as <-. cbn [exec].
      rewrite (folded_eval_cond c c' e Hcc Hsc Ec). destruct (eval_cond e c) as [[]|]; cbn; auto.
    + injection E as <-. cbn [exec].
      rewrite (folded_eval_cond c c' e Hcc Hsc Ec). destruct (eval_cond e c) as [[]|]; cbn; auto.
  - pose proof E as Ew. destruct (folded c) as [c'|] eqn:Ec; [|done]. cbn [rbind] in E.
    apply andb_true_iff in Hc as [Hcc Hcb]. apply andb_true_iff in Hs as [Hsc Hsb].
    destruct (fold_ast b) as [b'|] eqn:Eb; [|done]. injection E as <-. cbn [exec].
    rewrite (folded_eval_cond c c' e Hcc Hsc Ec). destruct (eval_cond e c) as [[]|]; cbn; [|done..].
    rewrite (IH b b' _ Hcb Hsb Eb). destruct (exec f b (e, o)) as [s|]; cbn; [|done]. apply IH; cbn.
    + by rewrite Hcc, Hcb.
    + by rewrite Hsc, Hsb.
    + by rewrite Ec, Eb.
Qed.

(** ** Trees of the parser *)

Fixpoint max_depth (n : node) : Z :=
  match n with
  | SEQUENCE l => (fix go (l : list node) : Z := match l with [] => 0 | x :: l => Z.max (max_depth x) (go l) end) l
  | PRINT e | LET _ e => depth e
  | IF c a b => Z.max (depth c) (Z.max (max_depth a) match b with Some b => max_depth b | None => 0 end)
  | WHILE c b => Z.max (depth c) (max_depth b)
  | _ => 0
  end.

Lemma wf_expr_vars n : wf_expr n = true -> vars_ok n = true.
Proof.
  induction n as [v|o l r IHl IHr|x| | | | |] using node_ind; try done. cbn [wf_expr vars_ok]. intros H.
  apply andb_true_iff in H as [H Hr]. apply andb_true_iff in H as [_ Hl]. by rewrite IHl, IHr.
Qed.

Lemma wf_condition_ok c : wf_condition c = true -> vars_ok c = true /\ cond_ok c = true.
Proof.
  destruct c as [|o l r| | | | | |]; try done. cbn [wf_condition vars_ok cond_ok]. intros H.
  apply andb_true_iff in H as [H Hr]. apply andb_true_iff in H as [Ho Hl].
  rewrite !wf_expr_vars by done. split; [done|]. unfold is_comparison_op in Ho.
  repeat (apply orb_true_iff in Ho as [Ho|Ho]); apply Z.eqb_eq in Ho as ->; done.
Qed.

Lemma wf_tree_ok n : forall d,
  wf_tree n = true -> max_depth n <= d -> stmt_ok d n = true /\ conds_ok n = true.
Proof.
  induction n as [| | |l IH|e _|x e _|c a b _ IHa IHb|c b _ IHb] using node_ind; try done;
    cbn [wf_tree max_depth stmt_ok conds_ok]; intros d Hw Hd.
  - apply andb_true_iff in Hw as [_ Hw]. induction IH as [|x l Hx _ IHl]; [done|].
    apply andb_true_iff in Hw as [Hwx Hwl]. apply andb_true_iff in Hwx as [_ Hwx].
    destruct (Hx d Hwx ltac:(lia)) as [-> ->]. cbn [andb]. apply IHl; [done|lia].
  - rewrite wf_expr_vars by done. split; [by apply Z.leb_le|done].
  - apply andb_true_iff in Hw as [Hx He]. rewrite Hx, wf_expr_vars by done. split; [by apply Z.leb_le|done].
  - apply andb_true_iff in Hw as [Hw Hwb]. apply andb_true_iff in Hw as [Hwc Hwa].
    destruct (wf_condition_ok c Hwc) as [-> ->]. destruct (IHa d Hwa ltac:(lia)) as [-> ->].
    rewrite (proj2 (Z.leb_le _ _)) by lia. cbn [andb].
    destruct b as [b|]; [|done]. by apply (IHb b eq_refl d Hwb); lia.
  - apply andb_true_iff in Hw as [Hwc Hwb]. destruct (wf_condition_ok c Hwc) as [-> ->].
    rewrite (proj2 (Z.leb_le _ _)) by lia. cbn [andb]. apply IHb; [done|lia].
Qed.
