(* ===== verification/BasicSpec.v ===== *)
(** * TeenyBASIC: the properties of the parser and the compiler *)
From stdpp Require Import prelude list.
From Stdlib Require Import ZArith Lia.
From S2P Require Import Prelude Ast Parser ParserTotal ParserRoundtrip ParserWf Compile X86 CompileExpr CompileStmt CompileSim CompileFold.
Open Scope Z_scope.
Open Scope c_scope.

(** ** The parser *)

(** C31: parse() returns on every input, and the tree it returns, if any, is
    well formed: 64-bit literals, variables A to Z, the operators of the
    grammar, expressions as operands, and statements in the branches. *)
Theorem parser_total input :
  exists ast, parse input = Ok ast /\ forall t, ast = Some t -> wf_tree t = true.
Proof.
  destruct (parse_returns input) as [ast E]. exists ast. split; [done|]. intros t ->. by apply (parse_wf input).
Qed.

(** C21: parsing is a left inverse of printing: every program whose conditions
    are comparisons is read back from its source text. *)
Theorem parser_roundtrip t : wf_block t = true -> parse (show t) = Ok (Some t).
Proof. apply parse_show. Qed.

(** LET A = 3; while A > 0: print A * 4 - 1 and decrement A. *)
Definition demo_program : node :=
  SEQUENCE [LET 65 (NUM 3);
            WHILE (BINARY_OP OP_GT (VAR 65) (NUM 0))
              (SEQUENCE [PRINT (BINARY_OP OP_SUB (BINARY_OP OP_MUL (VAR 65) (NUM 4)) (NUM 1));
                         LET 65 (BINARY_OP OP_SUB (VAR 65) (NUM 1))]);
            IF (BINARY_OP OP_EQ (VAR 65) (NUM 0)) (PRINT (BINARY_OP OP_DIV (NUM (-7)) (NUM 2))) (Some (PRINT (NUM 1)))].

Lemma parser_roundtrip_witness : parse (show demo_program) = Ok (Some demo_program).
Proof. apply (parser_roundtrip demo_program). reflexivity. Defined.

(** ** The generated code *)

Definition targets (c : list instr) : list label :=
  omap (fun i => match i with JMP l | JCC _ l => Some l | _ => None end) c.

Lemma targets_app a b : targets (a ++ b) = targets a ++ targets b.
Proof. apply omap_app. Qed.

Lemma targets_cons i c :
  targets (i :: c) = match i with JMP l | JCC _ l => l :: targets c | _ => targets c end.
Proof. by destruct i. Qed.

Lemma targets_expr n : forall c, compile_expr n = Ok c -> targets c = [].
Proof.
  induction n as [|o l r IHl IHr| | | | | |] using node_ind; cbn [compile_expr]; intros c Hc; simplify_eq; try done.
  destruct (power_of o r).
  - destruct (compile_expr l) as [cl|]; [|done]. cbn [rbind] in Hc. simplify_eq.
    by rewrite targets_app, (IHl cl).
  - destruct (compile_expr l) as [cl|]; [|done]. destruct (compile_expr r) as [cr|]; [|done].
    cbn [rbind] in Hc. injection Hc as <-. cbn [app]. rewrite split_operands, !targets_app, (IHl cl), (IHr cr) by done.
    unfold op_code. by repeat match goal with |- context [if ?b then _ else _] => destruct b end.
Qed.

Lemma targets_branch op y n : targets (branch op y n) ⊆ [y; n].
Proof. unfold branch. repeat match goal with |- context [if ?b then _ else _] => destruct b end; set_solver. Qed.

(** Every jump of the generated code has its label. *)
Lemma emit_targets n : forall s c s', emit n s = Ok (c, s') -> targets c ⊆ labels c.
Proof.
  induction n as [v|o l r IHl IHr|x|l IH|e _|x e _|cnd a b _ IHa IHb|cnd b _ IHb] using node_ind;
    cbn [emit]; intros s c s' H.
  1-3: run_inv; erewrite targets_expr by done; set_solver.
  - revert s c s' H. induction IH as [|x l Hx _ IHl]; intros s c s' H; run_inv; [set_solver|].
    rewrite labels_app, targets_app. specialize (Hx _ _ _ H0). specialize (IHl _ _ _ H1). set_solver.
  - run_inv. rewrite targets_app. erewrite targets_expr by done. set_solver.
  - run_inv. rewrite targets_app. erewrite targets_expr by done. set_solver.
  - run_inv. repeat (rewrite targets_app || rewrite targets_cons).
    repeat (rewrite labels_app || rewrite labels_cons). erewrite (targets_expr cnd) by done.
    match goal with Ha : emit a _ = Ok (?ca, ?s1), Hb : _ ?s1 = Ok (?cb, s') |- _ =>
      pose proof (IHa _ _ _ Ha) as Ta;
      assert (targets cb ⊆ labels cb) as Tb by (destruct b as [b|]; [by eapply IHb|run_inv; set_solver])
    end.
    match goal with |- context [targets (branch ?op ?y ?n)] => pose proof (targets_branch op y n) as Tc end.
    destruct b; set_solver.
  - run_inv. repeat (rewrite targets_app || rewrite targets_cons).
    repeat (rewrite labels_app || rewrite labels_cons). erewrite (targets_expr cnd) by done.
    match goal with Hb : emit b _ = Ok (?cb, s') |- _ => pose proof (IHb _ _ _ Hb) as Tb end.
    match goal with |- context [targets (branch ?op ?y ?n)] => pose proof (targets_branch op y n) as Tc end.
    set_solver.
Qed.

(** The parts of a successful compilation. *)
Lemma compiler_main_inv input code :
  compiler_main input = Ok code ->
  exists ast ast' c cs, parse input = Ok (Some ast) /\ wf_tree ast = true /\ fold_ast ast = Ok ast' /\
    emit ast' (mkCounters 0 0) = Ok (c, cs) /\ code = header ++ c ++ footer.
Proof.
  unfold compiler_main. destruct (parse input) as [[ast|]|] eqn:Ep; [|done..]. cbn [rbind].
  destruct (compile_ast ast (mkCounters 0 0)) as [[c cs]|] eqn:Ec; [|done]. cbn [rbind]. intros [= <-].
  pose proof (parse_wf _ _ Ep) as Hw. destruct (wf_tree_ok ast _ Hw (Z.le_refl _)) as [_ Hc].
  destruct (compile_emit ast Hc _ _ _ Ec) as (ast' & Hf & He). by exists ast, ast', c, cs.
Qed.

(** C39: the output assembles: every label is defined exactly once and every
    jump has its label. *)
Theorem compiler_labels input code :
  compiler_main input = Ok code -> NoDup (labels code) /\ targets code ⊆ labels code.
Proof.
  intros H. destruct (compiler_main_inv _ _ H) as (ast & ast' & c & cs & _ & _ & _ & He & ->).
  destruct (emit_labels _ _ _ _ He) as (_ & _ & Hd). pose proof (emit_targets _ _ _ _ He).
  rewrite !labels_app, !targets_app. cbn. rewrite !app_nil_r. done.
Qed.

Definition demo_code : list instr := match compiler_main (show demo_program) with Ok c => c | Err _ => [] end.

Lemma compiler_labels_witness : NoDup (labels demo_code) /\ targets demo_code ⊆ labels demo_code.
Proof. apply (compiler_labels (show demo_program)). vm_compute. reflexivity. Defined.

(** ** Running the program *)

Section Program.
Variable junk : x86 -> (reg -> Z) * (Z -> Z).
Variable stack_lo : Z.

(** The stack of basic_main(): the return address at the top, room for the
    frame and [d] words, and the initial values of the variables. *)
Record starts (d : Z) (e : env) (s : x86) : Prop := {
  st_lo : 0 <= stack_lo;
  st_room : stack_lo + 8 * d + 216 <= regs s RSP;
  st_top : regs s RSP < 2 ^ 63 - 8;
  st_vars : vars_at (regs s RSP - 8) e (mem s);
  st_out : printed s = []
}.

(** How basic_main() must leave the machine: the calling convention. *)
Record returns (o : list Z) (s s' : x86) : Prop := {
  rt_out : printed s' = o;
  rt_bp : regs s' RBP = regs s RBP;
  rt_sp : regs s' RSP = regs s RSP + 8;
  rt_mem a : regs s RSP <= a -> mem s' a = mem s a
}.

(** The prologue and the epilogue around code that keeps the frame. *)
Lemma program_correct c cs ast f d e e' o s :
  emit ast (mkCounters 0 0) = Ok (c, cs) -> stmt_ok d ast = true -> 0 <= d ->
  exec f ast (e, []) = Some (e', o) -> starts d e s ->
  exists k s', run junk stack_lo (header ++ c ++ footer) k (Next 0 s) = Ok (Done s') /\ returns o s s'.
Proof.
  intros He Hok Hd Hx [Hlo Hroom Htop Hvars Hout]. set (C := header ++ c ++ footer).
  assert (HC : NoDup (labels C)).
  { unfold C. destruct (emit_labels _ _ _ _ He) as (_ & _ & Hn). rewrite !labels_app. cbn. by rewrite app_nil_r. }
  assert (Hbody : code_at C 3 c) by (by apply (code_at_self C header c footer)).
  assert (Hfoot : code_at C (3 + length c) footer).
  { replace (3 + length c)%nat with (length (header ++ c)) by (rewrite length_app; done).
    apply (code_at_self C (header ++ c) footer []). unfold C. by rewrite app_nil_r, app_assoc. }
  apply code_at_cons in Hfoot as [Hleave Hfoot]. apply code_at_cons in Hfoot as [Hret _].
  set (bp := regs s RSP - 8).
  set (s1 := with_mem bp (regs s RBP) (with_reg RSP bp s)).
  set (s3 := arith RSP (bp - 208) (with_reg RBP bp s1)).
  assert (R0 : reach junk stack_lo C 0 s 3 s3).
  { eapply reach_next; [reflexivity| |].
    { cbn [exec_instr]. unfold push. rewrite wrapS_small by lia.
      rewrite (proj2 (Z.ltb_ge _ _)) by lia. reflexivity. }
    eapply reach_next; [reflexivity|reflexivity|]. eapply reach_next; [reflexivity|reflexivity|]. apply reach_refl. }
  assert (Hs3 : at_stmt bp (mem s3) e [] s3).
  { split; cbn; unfold rset, mset; cbn; [done|by rewrite wrapS_small by (unfold bp; lia)|done| |done].
    intros x Hx'. pose proof (upper_range x Hx'). rewrite (proj2 (Z.eqb_neq _ _)) by (unfold bp; lia). by apply Hvars. }
  destruct (emit_correct junk stack_lo C d bp (mem s3) Hlo ltac:(unfold bp; lia) ltac:(unfold bp; lia) HC
              f ast _ _ _ 3%nat s3 e [] e' o He Hok Hx Hbody Hs3) as (s4 & R4 & [B4 S4 O4 V4 M4]).
  destruct (reach_trans _ _ _ _ _ _ _ _ _ R0 R4) as [k Hk].
  exists (k + 2)%nat. eexists. split.
  - rewrite (run_add _ _ _ _ _ _ _ Hk). cbn [run]. unfold step at 1. rewrite Hleave. cbn [exec_instr rbind pop].
    unfold step at 1. cbn [rbind]. rewrite Hret. cbn [exec_instr rbind pop]. reflexivity.
  - split; cbn; unfold rset; cbn.
    + done.
    + rewrite B4, M4 by lia. cbn. unfold mset. by rewrite Z.eqb_refl.
    + rewrite B4. rewrite (wrapS_small 64 (bp + 8)) by (unfold bp; lia). rewrite wrapS_small by (unfold bp; lia).
      unfold bp. lia.
    + intros a Ha. rewrite M4 by (unfold bp; lia). cbn. unfold mset.
      by rewrite (proj2 (Z.eqb_neq _ _)) by (unfold bp; lia).
Qed.

Lemma max_depth_nonneg n : 0 <= max_depth n.
Proof.
  induction n as [| | |l IH|e _|x e _|c a b _ IHa IHb|c b _ IHb] using node_ind; cbn [max_depth];
    try (pose proof (depth_nonneg e)); try (pose proof (depth_nonneg c)); try lia.
  induction IH as [|x l Hx _ IHl]; lia.
Qed.

(** C29: for every source text that compiles, the code runs the program the
    constant folder leaves in memory: if that program terminates in the
    reference semantics, basic_main() returns to its caller having printed the
    same numbers, with %rbp, %rsp and the caller's memory as the calling
    convention requires. *)
Theorem compiler_runs_folded input code ast ast' f e e' o s :
  compiler_main input = Ok code -> parse input = Ok (Some ast) -> fold_ast ast = Ok ast' ->
  exec f ast' (e, []) = Some (e', o) -> starts (max_depth ast) e s ->
  exists k s', run junk stack_lo code k (Next 0 s) = Ok (Done s') /\ returns o s s'.
Proof.
  intros Hc Hp Hf Hx Hs.
  destruct (compiler_main_inv _ _ Hc) as (a & a' & c & cs & Hp' & Hw & Hf' & He & ->).
  rewrite Hp in Hp'. injection Hp' as <-. rewrite Hf in Hf'. injection Hf' as <-.
  destruct (wf_tree_ok ast _ Hw (Z.le_refl _)) as [Hok _].
  eapply program_correct; [exact He|by eapply fold_ast_ok|apply max_depth_nonneg|exact Hx|exact Hs].
Qed.

(** C1: compiler correctness.  For every source text that compiles and whose
    folded expressions are either constant or free of constant operations, the
    generated code prints what the program prints, and obeys the calling
    convention. *)
Theorem compiler_correct input code ast f e e' o s :
  compiler_main input = Ok code -> parse input = Ok (Some ast) -> fold_safe_stmt ast = true ->
  exec f ast (e, []) = Some (e', o) -> starts (max_depth ast) e s ->
  exists k s', run junk stack_lo code k (Next 0 s) = Ok (Done s') /\ returns o s s'.
Proof.
  intros Hc Hp Hsafe Hx Hs.
  destruct (compiler_main_inv _ _ Hc) as (a & a' & c & cs & Hp' & Hw & Hf & He & ->).
  rewrite Hp in Hp'. injection Hp' as <-.
  destruct (wf_tree_ok ast _ Hw (Z.le_refl _)) as [Hok Hcond].
  eapply program_correct; [exact He|by eapply fold_ast_ok|apply max_depth_nonneg| |exact Hs].
  by rewrite (fold_ast_exec f ast a' _ Hcond Hsafe Hf).
Qed.
End Program.

Definition demo_junk (_ : x86) : (reg -> Z) * (Z -> Z) := (fun _ => 0x6A2CFE91073BD845, fun _ => -1).
Definition demo_state : x86 :=
  mkX86 (fun r => match r with RSP => 4096 | _ => 77 end) (fun _ => 0) None [].

Lemma demo_starts d : 0 <= d <= 16 -> starts 0 d (fun _ => 0) demo_state.
Proof. intros Hd. split; cbn; done || lia. Qed.

Lemma compiler_correct_witness :
  exists k s', run demo_junk 0 demo_code k (Next 0 demo_state) = Ok (Done s') /\
               returns [-3; 3; 7; 11] demo_state s'.
Proof.
  eapply (compiler_correct demo_junk 0 (show demo_program) demo_code demo_program 20 (fun _ => 0)).
  - vm_compute. reflexivity.
  - vm_compute. reflexivity.
  - reflexivity.
  - reflexivity.
  - apply demo_starts. vm_compute. split; discriminate.
Defined.

(** PRINT (1 + 2) + X *)
Definition folded_program : node :=
  PRINT (BINARY_OP OP_ADD (BINARY_OP OP_ADD (NUM 1) (NUM 2)) (VAR 88)).
Definition folded_code : list instr :=
  match compiler_main (show folded_program) with Ok c => c | Err _ => [] end.

Lemma compiler_runs_folded_witness :
  exists k s', run demo_junk 0 folded_code k (Next 0 demo_state) = Ok (Done s') /\
               returns [5] demo_state s'.
Proof.
  eapply (compiler_runs_folded demo_junk 0 (show folded_program) folded_code folded_program _ 20 (fun _ => 0)).
  - vm_compute. reflexivity.
  - vm_compute. reflexivity.
  - reflexivity.
  - reflexivity.
  - apply demo_starts. vm_compute. split; discriminate.
Defined.

(** ** Where constant folding is wrong *)

Lemma s64_cancel x y z : s64 (s64 x + z) = s64 (s64 y + z) -> x mod 2 ^ 64 = y mod 2 ^ 64.
Proof.
  intros E. apply (f_equal (fun v => v mod 2 ^ 64)) in E. rewrite !wrapS_eqm in E by lia.
  rewrite <- (Zplus_mod_idemp_l (s64 x)), <- (Zplus_mod_idemp_l (s64 y)), !wrapS_eqm, !Zplus_mod_idemp_l in E by lia.
  pose proof (Z.mod_divide (x + z - (y + z)) (2 ^ 64) ltac:(lia)) as [H1 _].
  assert ((x + z - (y + z)) mod 2 ^ 64 = 0) as H by (rewrite Zminus_mod, E, Z.sub_diag; reflexivity).
  destruct (H1 H) as [q Hq]. replace x with (y + q * 2 ^ 64) by lia. apply Z.mod_add. lia.
Qed.

(** C40: the folder miscompiles a constant sum inside a larger sum: for all
    literals [a] and [b], (a + b) + X is compiled as ((a + b) + b) + X, because
    the folded value is written into the node of [a] while the sum stays in
    the tree.  The value changes whenever [b] is not zero. *)
Theorem fold_miscompiles a b x e :
  - 2 ^ 63 <= b < 2 ^ 63 -> b <> 0 ->
  exists n', folded (BINARY_OP OP_ADD (BINARY_OP OP_ADD (NUM a) (NUM b)) (VAR x)) = Ok n' /\
    n' = BINARY_OP OP_ADD (BINARY_OP OP_ADD (NUM (s64 (a + b))) (NUM b)) (VAR x) /\
    eval e n' <> eval e (BINARY_OP OP_ADD (BINARY_OP OP_ADD (NUM a) (NUM b)) (VAR x)).
Proof.
  intros Hb Hne. eexists. split; [reflexivity|]. split; [reflexivity|]. cbn.
  unfold basic_arith. cbn. intros E. injection E as E. apply s64_cancel in E.
  rewrite <- Zplus_mod_idemp_l, wrapS_eqm, Zplus_mod_idemp_l in E by lia.
  assert ((a + b + b - (a + b)) mod 2 ^ 64 = 0) as H by (rewrite Zminus_mod, E, Z.sub_diag; reflexivity).
  replace (a + b + b - (a + b)) with b in H by lia. apply Z.mod_divide in H as [q Hq]; [|lia]. lia.
Qed.

Lemma fold_miscompiles_witness :
  exists n', folded (BINARY_OP OP_ADD (BINARY_OP OP_ADD (NUM 1) (NUM 2)) (VAR 88)) = Ok n' /\
    n' = BINARY_OP OP_ADD (BINARY_OP OP_ADD (NUM (s64 (1 + 2))) (NUM 2)) (VAR 88) /\
    eval (fun _ => 0) n' <> eval (fun _ => 0) (BINARY_OP OP_ADD (BINARY_OP OP_ADD (NUM 1) (NUM 2)) (VAR 88)).
Proof. apply (fold_miscompiles 1 2 88 (fun _ => 0)); lia. Defined.

(** A constant division by zero stops the compiler itself. *)
Example fold_division_by_zero :
  compiler_main (show (PRINT (BINARY_OP OP_DIV (NUM 1) (NUM 0)))) = Err UB.
Proof. vm_compute. reflexivity. Qed.
