(* ===== verification/DirectoryTree.v ===== *)
(** * Directory trees (file-directory-tree/include/directory_tree.h,
      src/directory_tree.c and src/test_tree.c)

    Names are the bytes of C strings, without the terminating zero.  The array
    of children of a directory is a list; an access outside it is a fault.
    The printed tree is a list of bytes, and the files created on disk are a
    map from paths to directories and contents.  The map knows paths whose
    components are ordinary names, not the empty name, [.] or [..]. *)
From stdpp Require Import prelude list gmap sorting.
From Stdlib Require Import ZArith Lia.
From S2P Require Import Prelude.
Open Scope Z_scope.
Open Scope c_scope.

(** file_node_t and directory_node_t; the size of a file is the length of its
    contents, the number of children the length of the list. *)
Unset Elimination Schemes.
Inductive node :=
  | file_node (name : list Z) (contents : list Z)
  | directory_node (name : list Z) (children : list node).
Set Elimination Schemes.

Lemma node_ind (P : node -> Prop) :
  (forall n c, P (file_node n c)) ->
  (forall n l, Forall P l -> P (directory_node n l)) -> forall n, P n.
Proof.
  intros Hf Hd. fix IH 1. intros [n c|n l]; [apply Hf|]. apply Hd.
  induction l as [|x l IHl]; constructor; [apply IH|exact IHl].
Qed.

Definition node_name (n : node) : list Z :=
  match n with file_node name _ | directory_node name _ => name end.

Definition STR_ROOT : list Z := [82; 79; 79; 84].
Definition SPACES_PER_LEVEL : nat := 4.

(** init_node() replaces a NULL name by ROOT. *)
Definition init_node (name : option (list Z)) : list Z :=
  match name with Some n => n | None => STR_ROOT end.

Definition init_file_node (name : option (list Z)) (contents : list Z) : node :=
  file_node (init_node name) contents.
Definition init_directory_node (name : option (list Z)) : node :=
  directory_node (init_node name) [].

(** strcmp(): the difference of the first bytes that differ. *)
Fixpoint strcmp (a b : list Z) : Z :=
  match a, b with
  | [], [] => 0
  | [], y :: _ => 0 - y
  | x :: _, [] => x - 0
  | x :: a, y :: b => if x =? y then strcmp a b else x - y
  end.

(** dnode->children[i] *)
Definition child (l : list node) (i : nat) : res node :=
  match l !! i with Some n => Ok n | None => Err UB end.

(** The inner loop of sorted_dir() over the indices [js]. *)
Fixpoint min_loop (l : list node) (js : list nat) (min_string : list Z) (min_idx : nat) : res nat :=
  match js with
  | [] => Ok min_idx
  | j :: js =>
      cur_node <-! child l j;;
      if strcmp (node_name cur_node) min_string <? 0
      then min_loop l js (node_name cur_node) j
      else min_loop l js min_string min_idx
  end.

(** One iteration of the outer loop: the index of the smallest remaining name,
    and the exchange. *)
Definition sort_step (l : list node) (i : nat) : res (list node) :=
  first <-! child l i;;
  min_idx <-! min_loop l (seq (S i) (length l - S i)) (node_name first) i;;
  temp_node <-! child l i;;
  m <-! child l min_idx;;
  Ok (<[min_idx := temp_node]> (<[i := m]> l)).

Fixpoint sort_loop (l : list node) (idx : list nat) : res (list node) :=
  match idx with
  | [] => Ok l
  | i :: idx => l' <-! sort_step l i;; sort_loop l' idx
  end.

Definition sorted_dir (l : list node) : res (list node) := sort_loop l (seq 0 (length l)).

Definition add_child_directory_tree (children : list node) (c : node) : res (list node) :=
  sorted_dir (children ++ [c]).

(** ** Searching (test_tree.c) *)

(** The binary search of get_child() between [left] and [right]. *)
Fixpoint get_child_loop (fuel : nat) (l : list node) (name : list Z) (left right : nat) : res (option node) :=
  match fuel with
  | O => Err OutOfFuel
  | S f =>
      if (left <? right)%nat then
        let mid := ((left + right) / 2)%nat in
        mid_child <-! child l mid;;
        let cmp := strcmp name (node_name mid_child) in
        if cmp =? 0 then Ok (Some mid_child)
        else if cmp <? 0 then get_child_loop f l name left mid
        else get_child_loop f l name (S mid) right
      else Ok None
  end.

Definition get_child (l : list node) (name : list Z) : res (option node) :=
  get_child_loop (S (length l)) l name 0 (length l).

(** ** Printing *)

Fixpoint print_directory_tree_helper (n : node) (level : nat) : list Z :=
  match n with
  | file_node name _ => replicate (SPACES_PER_LEVEL * level) 32 ++ name ++ [10]
  | directory_node name children =>
      replicate (SPACES_PER_LEVEL * level) 32 ++ name ++ [10] ++
      (fix go (l : list node) : list Z :=
         match l with
         | [] => []
         | x :: l => print_directory_tree_helper x (S level) ++ go l
         end) children
  end.

Definition print_directory_tree (n : node) : list Z := print_directory_tree_helper n 0.

(** ** Creating the files *)

(** The file system below the working directory, by path: a directory or the
    contents of a file. *)
Inductive fsentry := FsDir | FsFile (contents : list Z).
Abbreviation fs := (gmap (list Z) fsentry).

Definition SLASH : Z := 47.

(** The path in front of the last slash, [None] in the working directory. *)
Fixpoint parent (p : list Z) : option (list Z) :=
  match p with
  | [] => None
  | c :: p' =>
      match parent p' with
      | Some q => Some (c :: q)
      | None => if c =? SLASH then Some [] else None
      end
  end.

Definition parent_exists (s : fs) (p : list Z) : bool :=
  match parent p with
  | None => true
  | Some q => match s !! q with Some FsDir => true | _ => false end
  end.

(** mkdir(): fails if the path exists or its directory does not. *)
Definition mkdir (p : list Z) : M fs bool := fun s =>
  match s !! p with
  | None => if parent_exists s p then Ok (true, <[p := FsDir]> s) else Ok (false, s)
  | Some _ => Ok (false, s)
  end.

(** fopen(path, w), fwrite() and fclose(): creates or truncates the file. *)
Definition write_file (p : list Z) (contents : list Z) : M fs bool := fun s =>
  match s !! p with
  | Some FsDir => Ok (false, s)
  | _ => if parent_exists s p then Ok (true, <[p := FsFile contents]> s) else Ok (false, s)
  end.

(** new_path *)
Definition join_path (path name : list Z) : list Z :=
  match path with [] => name | _ => path ++ [SLASH] ++ name end.

Fixpoint create_directory_tree_helper (n : node) (path : list Z) : M fs unit :=
  let new_path := join_path path (node_name n) in
  match n with
  | file_node _ contents => ok <- write_file new_path contents;; c_assert ok
  | directory_node _ children =>
      ok <- mkdir new_path;;
      c_assert ok;;;
      (fix go (l : list node) : M fs unit :=
         match l with
         | [] => ret tt
         | x :: l => create_directory_tree_helper x new_path;;; go l
         end) children
  end.

Definition create_directory_tree (n : node) : M fs unit := create_directory_tree_helper n [].

(** ** The program test_tree (test_tree.c) *)

(** strchr(): the string before the first [c], and after it. *)
Fixpoint strchr (c : Z) (s : list Z) : option (list Z * list Z) :=
  match s with
  | [] => None
  | x :: s' =>
      if x =? c then Some ([], s')
      else match strchr c s' with Some (a, b) => Some (x :: a, b) | None => None end
  end.

(** A change to the child directory called [name].  add_file() holds a pointer
    to it; in the trees it builds siblings have different names. *)
Fixpoint in_child (l : list node) (name : list Z) (f : list node -> res (list node)) : res (list node) :=
  match l with
  | [] => Err UB
  | x :: l' =>
      if decide (node_name x = name) then
        match x with
        | directory_node n sub => sub' <-! f sub;; Ok (directory_node n sub' :: l')
        | file_node _ _ => Err UB
        end
      else l'' <-! in_child l' name f;; Ok (x :: l'')
  end.

(** add_file() on the children of a directory; abort() ends the process like
    a failed assertion. *)
Fixpoint add_file_loop (fuel : nat) (l : list node) (remaining_path contents : list Z) : res (list node) :=
  match fuel with
  | O => Err OutOfFuel
  | S fuel =>
      match strchr SLASH remaining_path with
      | None =>
          child <-! get_child l remaining_path;;
          match child with
          | Some _ => Err AssertFail
          | None => add_child_directory_tree l (init_file_node (Some remaining_path) contents)
          end
      | Some (name, rest) =>
          child <-! get_child l name;;
          l' <-! match child with
                 | None => add_child_directory_tree l (init_directory_node (Some name))
                 | Some (directory_node _ _) => Ok l
                 | Some (file_node _ _) => Err AssertFail
                 end;;
          in_child l' name (fun sub => add_file_loop fuel sub rest contents)
      end
  end.

Definition add_file (l : list node) (path contents : list Z) : res (list node) :=
  add_file_loop (S (length path)) l path contents.

(** getline(): a line with its newline, and the rest of the file. *)
Fixpoint getline (s : list Z) : list Z * list Z :=
  match s with
  | [] => ([], [])
  | x :: s' => if x =? 10 then ([x], s') else let '(a, b) := getline s' in (x :: a, b)
  end.

Definition COLON : Z := 58.

(** The loop of main() over the lines. *)
Fixpoint read_files (fuel : nat) (l : list node) (input : list Z) : res (list node) :=
  match fuel with
  | O => Err OutOfFuel
  | S fuel =>
      let '(line, input') := getline input in
      if (0 <? length line)%nat then
        match strchr COLON (c_str line) with
        | None => Err AssertFail
        | Some (path, contents) =>
            l' <-! add_file l path contents;;
            read_files fuel l' input'
        end
      else Ok l
  end.

(** main(): the printed tree, and the files in the new output directory;
    [mkdir_ok] says whether that directory can be made and entered. *)
Definition test_tree_main (mkdir_ok : bool) (input : list Z) : res (list Z * fs) :=
  match init_directory_node None with
  | directory_node name children =>
      l <-! read_files (S (length input)) children input;;
      let root := directory_node name l in
      if mkdir_ok then '(_, s) <-! create_directory_tree root ∅;; Ok (print_directory_tree root, s)
      else Err AssertFail
  | file_node _ _ => Err UB
  end.
