(* ===== verification/DirectoryTreeProofs.v ===== *)
(** * Directory trees: ordering, sorting, searching, and the files on disk *)
From stdpp Require Import prelude list gmap sorting.
From Stdlib Require Import ZArith Lia.
From S2P Require Import Prelude DirectoryTree.
Open Scope Z_scope.
Open Scope c_scope.

(** ** strcmp() is a total order on C strings *)

Definition c_string (s : list Z) : Prop := Forall (fun b => 0 < b < 256) s.

Lemma strcmp_antisym a : forall b, strcmp a b = - strcmp b a.
Proof.
  induction a as [|x a IH]; intros [|y b]; cbn; try lia.
  rewrite (Z.eqb_sym y x). destruct (Z.eqb_spec x y); [apply IH|lia].
Qed.

Lemma strcmp_eq_0 a : forall b, c_string a -> c_string b -> strcmp a b = 0 <-> a = b.
Proof.
  induction a as [|x a IH]; intros [|y b] Ha Hb; cbn; try done.
  - inversion_clear Hb. split; [lia|done].
  - inversion_clear Ha. split; [lia|done].
  - inversion_clear Ha. inversion_clear Hb. destruct (Z.eqb_spec x y) as [-> |Hne].
    + rewrite IH by done. split; congruence.
    + split; [lia|congruence].
Qed.

Lemma strcmp_trans a : forall b c, c_string a -> c_string b -> c_string c ->
  strcmp a b <= 0 -> strcmp b c <= 0 -> strcmp a c <= 0.
Proof.
  induction a as [|x a IH]; intros [|y b] [|z c] Ha Hb Hc; cbn; try (inversion_clear Ha; lia);
    try (inversion_clear Hc; lia); try lia.
  - inversion_clear Hb. lia.
  - inversion_clear Ha. inversion_clear Hb. inversion_clear Hc. intros Hab Hbc.
    destruct (Z.eqb_spec x y), (Z.eqb_spec y z), (Z.eqb_spec x z); subst; try lia; try done. by apply (IH b c).
Qed.

Definition name_ok (n : node) : Prop := c_string (node_name n).
Definition le_name (x y : node) : Prop := strcmp (node_name x) (node_name y) <= 0.

Lemma le_name_refl x : le_name x x.
Proof. unfold le_name. pose proof (strcmp_antisym (node_name x) (node_name x)). lia. Qed.

Lemma le_name_trans x y z : name_ok x -> name_ok y -> name_ok z -> le_name x y -> le_name y z -> le_name x z.
Proof. apply strcmp_trans. Qed.

(** The children stand in the order of their names. *)
Definition sorted (l : list node) : Prop :=
  forall i j x y, (i < j)%nat -> l !! i = Some x -> l !! j = Some y -> le_name x y.

(** ** Selection sort *)

Lemma min_loop_spec l js k n0 :
  Forall name_ok l -> l !! k = Some n0 -> Forall (fun j => (j < length l)%nat) js ->
  exists m nm, min_loop l js (node_name n0) k = Ok m /\ l !! m = Some nm /\ (m = k \/ m ∈ js) /\
               le_name nm n0 /\ forall j n, j ∈ js -> l !! j = Some n -> le_name nm n.
Proof.
  intros Hok. revert k n0. induction js as [|j js IH]; intros k n0 Hk Hjs; cbn [min_loop].
  - exists k, n0. split_and!; [done|done|by left|apply le_name_refl|]. intros j n Hj. by apply not_elem_of_nil in Hj.
  - inversion_clear Hjs as [|? ? Hj Hjs']. apply lookup_lt_is_Some in Hj as [nj Hnj].
    unfold child. rewrite Hnj. cbn [rbind].
    assert (name_ok n0 /\ name_ok nj) as [Ho0 Hoj] by (split; by eapply Forall_lookup_1).
    destruct (Z.ltb_spec (strcmp (node_name nj) (node_name n0)) 0) as [Hlt|Hge].
    + destruct (IH j nj Hnj Hjs') as (m & nm & -> & Hm & Hin & Hle & Hall).
      assert (name_ok nm) as Hom by (by eapply Forall_lookup_1).
      exists m, nm. split_and!; [done|done|right; set_solver|eapply (le_name_trans _ nj); try done; unfold le_name; lia|].
      intros j' n Hj' Hn. apply elem_of_cons in Hj' as [-> |Hj']; [|by eapply Hall].
      by simplify_eq.
    + destruct (IH k n0 Hk Hjs') as (m & nm & -> & Hm & Hin & Hle & Hall).
      assert (name_ok nm) as Hom by (by eapply Forall_lookup_1).
      exists m, nm. split_and!; [done|done|set_solver|done|].
      intros j' n Hj' Hn. apply elem_of_cons in Hj' as [-> |Hj']; [|by eapply Hall]. simplify_eq.
      eapply (le_name_trans _ n0); try done. unfold le_name.
      rewrite strcmp_antisym. lia.
Qed.

(** Exchanging two elements. *)
Lemma swap_Permutation {A} (l : list A) i j x y :
  (i <= j)%nat -> l !! i = Some x -> l !! j = Some y -> <[j := x]> (<[i := y]> l) ≡ₚ l.
Proof.
  intros Hij Hi Hj. destruct (decide (i = j)) as [-> |Hne].
  - simplify_eq. by rewrite list_insert_insert_eq, list_insert_id.
  - apply list_elem_of_split_length in Hi as (l1 & l2 & -> & ->).
    rewrite lookup_app_r in Hj by lia. destruct (j - length l1)%nat as [|k] eqn:Ek; [lia|]. cbn in Hj.
    apply list_elem_of_split_length in Hj as (l3 & l4 & -> & ->).
    assert (Hmid : forall (u v : list A) w z, <[length u := w]> (u ++ z :: v) = u ++ w :: v).
    { intros u v w z. rewrite insert_app_r_alt, Nat.sub_diag by lia. done. }
    rewrite Hmid, insert_app_r_alt, Ek by lia. cbn [insert list_insert]. rewrite Hmid.
    apply Permutation_app_head. rewrite <- !Permutation_middle. apply Permutation_swap.
Qed.

Lemma sort_step_spec l i :
  Forall name_ok l -> (i < length l)%nat ->
  exists l', sort_step l i = Ok l' /\ l' ≡ₚ l /\ (forall k, (k < i)%nat -> l' !! k = l !! k) /\
             forall x k y, l' !! i = Some x -> (i < k)%nat -> l' !! k = Some y -> le_name x y.
Proof.
  intros Hok Hi. apply lookup_lt_is_Some in Hi as [n0 Hn0]. pose proof (lookup_lt_Some _ _ _ Hn0) as Hlt.
  unfold sort_step, child. rewrite Hn0. cbn [rbind].
  destruct (min_loop_spec l (seq (S i) (length l - S i)) i n0 Hok Hn0) as (m & nm & -> & Hm & Hin & Hle & Hall).
  { apply Forall_forall. intros j Hj. apply elem_of_seq in Hj. lia. }
  cbn [rbind]. rewrite Hm. cbn [rbind].
  assert (Him : (i <= m)%nat) by (destruct Hin as [-> |Hin]; [lia|apply elem_of_seq in Hin; lia]).
  pose proof (lookup_lt_Some _ _ _ Hm) as Hmlt.
  assert (Hnew : <[m := n0]> (<[i := nm]> l) !! i = Some nm).
  { destruct (decide (m = i)) as [-> |Hne].
    - simplify_eq. rewrite list_insert_insert_eq, list_lookup_insert_eq by done. done.
    - rewrite list_lookup_insert_ne by done. by rewrite list_lookup_insert_eq. }
  eexists. split_and!; [reflexivity|by apply swap_Permutation| |].
  - intros k Hk. rewrite !list_lookup_insert_ne by lia. done.
  - intros x k y Hx Hk Hy. rewrite Hnew in Hx. injection Hx as <-.
    destruct (decide (k = m)) as [-> |Hkm].
    + rewrite list_lookup_insert_eq in Hy by (rewrite length_insert; lia). by injection Hy as <-.
    + rewrite !list_lookup_insert_ne in Hy by lia. pose proof (lookup_lt_Some _ _ _ Hy).
      eapply Hall; [|exact Hy]. apply elem_of_seq. lia.
Qed.

(** After [i] rounds the first [i] elements are final. *)
Definition prefix_sorted (l : list node) (i : nat) : Prop :=
  forall a b x y, (a < b)%nat -> (a < i)%nat -> l !! a = Some x -> l !! b = Some y -> le_name x y.

Lemma sort_loop_spec n : forall l i,
  Forall name_ok l -> (i + n = length l)%nat -> prefix_sorted l i ->
  exists l', sort_loop l (seq i n) = Ok l' /\ l' ≡ₚ l /\ prefix_sorted l' (length l).
Proof.
  induction n as [|n IH]; intros l i Hok Hlen Hp; cbn [seq sort_loop].
  - exists l. split_and!; [done|done|]. by replace (length l) with i by lia.
  - destruct (sort_step_spec l i Hok) as (l1 & -> & Hperm & Hsame & Hmin); [lia|]. cbn [rbind].
    destruct (IH l1 (S i)) as (l2 & -> & Hperm2 & Hp2).
    + by rewrite Hperm.
    + rewrite (Permutation_length Hperm). lia.
    + intros a b x y Hab Ha Hx Hy. destruct (decide (a = i)) as [-> |Hne]; [exact (Hmin x b y Hx Hab Hy)|].
      rewrite Hsame in Hx by lia.
      (* y occurs in l at or after i, or before *)
      destruct (decide (b < i)%nat) as [Hb|Hb].
      * rewrite Hsame in Hy by lia. apply (Hp a b x y); done || lia.
      * assert (Hy' : exists b', (i <= b')%nat /\ l !! b' = Some y).
        { assert (y ∈ drop i l) as Hd.
          { assert (drop i l1 ≡ₚ drop i l) as <-.
            { apply (Permutation_app_inv_l (take i l)). rewrite (take_drop i l).
              assert (take i l = take i l1) as ->; [|by rewrite take_drop].
              apply list_eq. intros k. destruct (decide (k < i)%nat).
              - rewrite !lookup_take_lt by done. by rewrite Hsame.
              - by rewrite !lookup_take_ge by lia. }
            eapply list_elem_of_lookup_2. rewrite lookup_drop. replace (i + (b - i))%nat with b by lia. exact Hy. }
          apply list_elem_of_lookup_1 in Hd as [k Hk]. rewrite lookup_drop in Hk. exists (i + k)%nat. split; [lia|done]. }
        destruct Hy' as (b' & Hb' & Hy'). apply (Hp a b' x y); done || lia.
    + exists l2. split_and!; [done|by rewrite Hperm2|]. by rewrite <- (Permutation_length Hperm).
Qed.

Lemma sorted_dir_correct l :
  Forall name_ok l -> exists l', sorted_dir l = Ok l' /\ l' ≡ₚ l /\ sorted l'.
Proof.
  intros Hok. destruct (sort_loop_spec (length l) l 0 Hok eq_refl) as (l' & E & Hp & Hs).
  { intros a b x y _ Ha. lia. }
  exists l'. split_and!; [done|done|]. intros i j x y Hij Hx Hy.
  apply (Hs i j x y Hij); [|done..]. apply lookup_lt_Some in Hx. by rewrite <- (Permutation_length Hp).
Qed.

Lemma add_child_correct l c :
  Forall name_ok l -> name_ok c ->
  exists l', add_child_directory_tree l c = Ok l' /\ l' ≡ₚ c :: l /\ sorted l'.
Proof.
  intros Hl Hc. destruct (sorted_dir_correct (l ++ [c])) as (l' & E & Hp & Hs).
  { apply Forall_app. split; [done|by constructor]. }
  exists l'. split_and!; [done| |done]. by rewrite Hp, <- Permutation_cons_append.
Qed.

(** ** Binary search *)

Lemma get_child_loop_correct fuel l name left right :
  Forall name_ok l -> c_string name -> sorted l -> (right <= length l)%nat -> (right - left < fuel)%nat ->
  (forall i x, (i < left \/ right <= i)%nat -> l !! i = Some x -> node_name x <> name) ->
  exists r, get_child_loop fuel l name left right = Ok r /\
            match r with
            | Some c => c ∈ l /\ node_name c = name
            | None => forall c, c ∈ l -> node_name c <> name
            end.
Proof.
  intros Hok Hn Hs. revert left right. induction fuel as [|fuel IH]; intros left right Hr Hf Hout; [lia|].
  cbn [get_child_loop]. destruct (Nat.ltb_spec left right) as [Hlt|Hge].
  - set (mid := ((left + right) / 2)%nat).
    assert (left <= mid < right)%nat as Hmid.
    { unfold mid. split; [apply Nat.div_le_lower_bound; lia|apply Nat.Div0.div_lt_upper_bound; lia]. }
    destruct (lookup_lt_is_Some_2 l mid) as [c Hc]; [lia|]. unfold child. rewrite Hc. cbn [rbind].
    assert (name_ok c) as Hoc by (by eapply Forall_lookup_1).
    destruct (Z.eqb_spec (strcmp name (node_name c)) 0) as [E|Hne].
    + apply strcmp_eq_0 in E; [|done..]. exists (Some c). split; [done|]. split; [by eapply list_elem_of_lookup_2|done].
    + destruct (Z.ltb_spec (strcmp name (node_name c)) 0) as [Hless|Hmore].
      * apply IH; [lia|lia|]. intros i x Hi Hx Ex. destruct Hi as [Hi|Hi]; [eapply (Hout i x); [lia|done..]|].
        destruct (decide (i = mid)) as [-> |Him].
        { rewrite Hc in Hx. injection Hx as <-. rewrite Ex in *. pose proof (strcmp_antisym name name). lia. }
        pose proof (Hs mid i c x ltac:(lia) Hc Hx) as Hle. unfold le_name in Hle. rewrite strcmp_antisym, <- Ex in Hless. lia.
      * apply IH; [lia|lia|]. intros i x Hi Hx Ex. destruct Hi as [Hi|Hi]; [|eapply (Hout i x); [lia|done..]].
        destruct (decide (i = mid)) as [-> |Him].
        { rewrite Hc in Hx. injection Hx as <-. rewrite Ex in *. pose proof (strcmp_antisym name name). lia. }
        pose proof (Hs i mid x c ltac:(lia) Hx Hc) as Hle. unfold le_name in Hle. rewrite Ex in Hle. lia.
  - exists None. split; [done|]. intros c Hc. apply list_elem_of_lookup_1 in Hc as [i Hi].
    apply (Hout i c); [lia|done].
Qed.

Lemma get_child_correct l name :
  Forall name_ok l -> c_string name -> sorted l ->
  exists r, get_child l name = Ok r /\
            match r with
            | Some c => c ∈ l /\ node_name c = name
            | None => forall c, c ∈ l -> node_name c <> name
            end.
Proof.
  intros Hok Hn Hs. apply get_child_loop_correct; [done..|lia|lia|].
  intros i x [Hi|Hi] Hx; [lia|]. apply lookup_lt_Some in Hx. lia.
Qed.

(** ** The files on disk *)

Definition no_slash (n : list Z) : Prop := SLASH ∉ n.

(** The paths of a tree and what is stored there. *)
Fixpoint tree_entries (n : node) (path : list Z) : list (list Z * fsentry) :=
  let new_path := join_path path (node_name n) in
  match n with
  | file_node _ contents => [(new_path, FsFile contents)]
  | directory_node _ children =>
      (new_path, FsDir) ::
      (fix go (l : list node) : list (list Z * fsentry) :=
         match l with [] => [] | x :: l => tree_entries x new_path ++ go l end) children
  end.

(** A name that a path can name: not empty, not the directory itself or its parent. *)
Definition ordinary (n : list Z) : Prop := n <> [] /\ n <> [46] /\ n <> [46; 46].

(** A tree that can be created: siblings have different names, and a name is a
    component of a path. *)
Inductive creatable : node -> Prop :=
  | creatable_file n c : ordinary n -> no_slash n -> creatable (file_node n c)
  | creatable_dir n l : ordinary n -> no_slash n -> NoDup (node_name <$> l) -> Forall creatable l ->
      creatable (directory_node n l).

Lemma creatable_name n : creatable n -> node_name n <> [] /\ no_slash (node_name n).
Proof. by destruct 1 as [? ? []|? ? []]. Qed.

(** [k] is [p] or lies below it. *)
Definition under (p k : list Z) : Prop := k = p \/ exists r, k = p ++ SLASH :: r.

Lemma join_nonempty path n : n <> [] -> join_path path n <> [].
Proof. by destruct path. Qed.

Lemma parent_no_slash n : no_slash n -> parent n = None.
Proof.
  induction n as [|c n IH]; intros H; [done|]. cbn. unfold no_slash in *. rewrite IH by set_solver.
  destruct (Z.eqb_spec c SLASH) as [-> |]; [set_solver|done].
Qed.

Lemma parent_join path n : path <> [] -> no_slash n -> parent (join_path path n) = Some path.
Proof.
  intros Hp Hn. destruct path as [|c path]; [done|]. unfold join_path. generalize (c :: path). clear c path Hp.
  intros path. induction path as [|d path IH].
  - cbn. by rewrite parent_no_slash.
  - cbn [app parent]. cbn [app] in IH. by rewrite IH.
Qed.

(** Below a directory, the first component of a path decides the child. *)
Lemma split_component (a b r s : list Z) :
  no_slash a -> no_slash b -> (r = [] \/ exists r', r = SLASH :: r') -> (s = [] \/ exists s', s = SLASH :: s') ->
  a ++ r = b ++ s -> a = b.
Proof.
  intros Ha. revert b. induction a as [|x a IH]; intros [|y b] Hb Hr Hs E; [done|..].
  - cbn in E. destruct Hr as [-> |[r' ->]]; [done|]. simplify_eq. unfold no_slash in Hb. set_solver.
  - cbn in E. destruct Hs as [-> |[s' ->]]; [done|]. simplify_eq. unfold no_slash in Ha. set_solver.
  - simplify_eq/=. f_equal. apply IH; try done; unfold no_slash in *; set_solver.
Qed.

Lemma under_component p n k : under (join_path p n) k ->
  exists r, (r = [] \/ exists r', r = SLASH :: r') /\ k = join_path p (n ++ r).
Proof.
  intros [-> |[r ->]].
  - exists []. rewrite app_nil_r. auto.
  - exists (SLASH :: r). split; [eauto|]. destruct p; [done|]. unfold join_path. cbn. by rewrite <- !app_assoc.
Qed.

Lemma join_inj p a b : join_path p a = join_path p b -> a = b.
Proof. destruct p; [done|]. unfold join_path. intros E. apply app_inv_head in E. by injection E. Qed.

Lemma under_disjoint p a b k :
  no_slash a -> no_slash b -> under (join_path p a) k -> under (join_path p b) k -> a = b.
Proof.
  intros Ha Hb Hu Hv. destruct (under_component _ _ _ Hu) as (r & Hr & ->).
  destruct (under_component _ _ _ Hv) as (s & Hs & E). apply join_inj in E.
  by apply (split_component a b r s).
Qed.

Lemma under_child p n k : p <> [] -> under (join_path p n) k -> under p k /\ k <> p.
Proof.
  intros Hp Hu. destruct (under_component _ _ _ Hu) as (r & _ & ->). destruct p as [|c p]; [done|].
  split; [right; eexists; reflexivity|]. intros E. apply (f_equal length) in E. unfold join_path in E.
  rewrite length_app in E. simpl in E. lia.
Qed.

(** Equal results of two runs. *)
Ltac same_fs := refine (f_equal (fun m : fs => Ok (tt, m)) _).

(** The entries of a list of siblings, and their creation one after the other. *)
Fixpoint entries_list (l : list node) (p : list Z) : list (list Z * fsentry) :=
  match l with [] => [] | x :: l => tree_entries x p ++ entries_list l p end.

Fixpoint create_list (l : list node) (p : list Z) : M fs unit :=
  match l with [] => ret tt | x :: l => create_directory_tree_helper x p;;; create_list l p end.

Lemma tree_entries_dir n l path :
  tree_entries (directory_node n l) path = (join_path path n, FsDir) :: entries_list l (join_path path n).
Proof. cbn [tree_entries node_name]. f_equal. induction l as [|x l IH]; [done|]. cbn [entries_list]. by rewrite <- IH. Qed.

Lemma create_dir n l path s :
  create_directory_tree_helper (directory_node n l) path s =
  (ok <- mkdir (join_path path n);; c_assert ok;;; create_list l (join_path path n)) s.
Proof.
  cbn [create_directory_tree_helper node_name]. set (p := join_path path n). unfold bind.
  destruct (mkdir p s) as [[ok s1]|]; [|done]. destruct (c_assert ok s1) as [[[] s2]|]; [|done]. clearbody p. revert s2.
  induction l as [|x l IH]; intros s2; [done|]. cbn [create_list]. unfold bind.
  destruct (create_directory_tree_helper x p s2) as [[[] s3]|]; [|done]. apply IH.
Qed.

Lemma entries_list_elem l p k v : (k, v) ∈ entries_list l p -> exists x, x ∈ l /\ (k, v) ∈ tree_entries x p.
Proof.
  induction l as [|x l IH]; cbn [entries_list]; [by intros H%not_elem_of_nil|].
  intros [H|H]%elem_of_app; [exists x; split; [left|done]|].
  destruct (IH H) as (y & Hy & Hk). exists y. split; [by right|done].
Qed.

Lemma tree_entries_under n : forall path k v, (k, v) ∈ tree_entries n path -> creatable n ->
  under (join_path path (node_name n)) k.
Proof.
  induction n as [n c|n l IH] using node_ind; intros path k v Hk Hc; [|rewrite tree_entries_dir in Hk].
  - apply elem_of_cons in Hk as [[= -> ->]|Hk]; [by left|by apply not_elem_of_nil in Hk].
  - cbn [node_name]. apply elem_of_cons in Hk as [[= -> ->]|Hk]; [by left|].
    inversion_clear Hc as [|? ? [Hne _] _ _ Hl].
    apply entries_list_elem in Hk as (x & Hx & Hk). rewrite Forall_forall in IH, Hl.
    pose proof (IH x Hx _ _ _ Hk (Hl x Hx)) as Hu.
    by destruct (under_child (join_path path n) (node_name x) k (join_nonempty _ _ Hne) Hu).
Qed.

(** What one tree adds is not in the way of its siblings. *)
Lemma sibling_fresh x y p k :
  creatable x -> creatable y -> node_name x <> node_name y -> under (join_path p (node_name y)) k ->
  (list_to_map (tree_entries x p) : fs) !! k = None.
Proof.
  intros Hx Hy Hne Hu. destruct ((list_to_map (tree_entries x p) : fs) !! k) as [v|] eqn:E; [exfalso|done].
  apply elem_of_list_to_map_2, tree_entries_under in E; [|done].
  apply Hne. apply (under_disjoint p _ _ k); [by apply creatable_name|by apply creatable_name|done|done].
Qed.

Definition creates (n : node) : Prop := forall path s,
  creatable n -> (path = [] \/ s !! path = Some FsDir) ->
  (forall k, under (join_path path (node_name n)) k -> s !! k = None) ->
  create_directory_tree_helper n path s = Ok (tt, list_to_map (tree_entries n path) ∪ s).

Lemma create_list_correct l p : forall s,
  p <> [] -> Forall creates l -> Forall creatable l -> NoDup (node_name <$> l) -> s !! p = Some FsDir ->
  (forall x k, x ∈ l -> under (join_path p (node_name x)) k -> s !! k = None) ->
  create_list l p s = Ok (tt, list_to_map (entries_list l p) ∪ s).
Proof.
  induction l as [|x l IHl]; intros s Hp Hcr Hcl Hnd Hs Hf; cbn [create_list entries_list].
  { unfold ret. same_fs. cbn. by rewrite (left_id_L ∅ _). }
  inversion_clear Hcr as [|? ? Hx Hcr']. inversion_clear Hcl as [|? ? Hcx Hcl'].
  apply NoDup_cons in Hnd as [Hnx Hnd]. rewrite Forall_forall in Hcl'.
  assert (Hne : forall y, y ∈ l -> node_name x <> node_name y).
  { intros y Hy E. apply Hnx. rewrite E. by apply list_elem_of_fmap_2. }
  unfold bind. rewrite (Hx p s Hcx (or_intror Hs)) by (intros k Hk; apply (Hf x k); [left|done]).
  rewrite IHl; [|done|done|by apply Forall_forall|done| |].
  - same_fs. rewrite list_to_map_app, (assoc_L (∪)). f_equal. apply map_union_comm.
    apply map_disjoint_spec. intros k v w Hv Hw.
    apply elem_of_list_to_map_2, entries_list_elem in Hv as (y & Hy & Hv).
    apply tree_entries_under in Hv; [|by apply Hcl'].
    by rewrite (sibling_fresh x y p k) in Hw by auto.
  - rewrite lookup_union_r; [done|].
    destruct ((list_to_map (tree_entries x p) : fs) !! p) as [v|] eqn:E; [exfalso|done].
    apply elem_of_list_to_map_2, tree_entries_under in E; [|done].
    by destruct (under_child _ _ _ Hp E).
  - intros y k Hy Hu. rewrite lookup_union_r by (apply (sibling_fresh x y p k); auto). by apply (Hf y); [right|].
Qed.

(** Creating a tree in a place where nothing is: exactly its paths are added. *)
Lemma create_correct n : creates n.
Proof.
  induction n as [n c|n l IH] using node_ind; intros path s Hc Hpar Hfresh; cbn [node_name] in Hfresh.
  all: set (p := join_path path n) in *.
  all: assert (Hpe : parent_exists s p = true)
    by (destruct (creatable_name _ Hc) as [_ Hns]; unfold parent_exists, p; cbn in Hns; destruct Hpar as [-> |Hs];
        [cbn; by rewrite parent_no_slash|destruct path as [|z path]; [cbn; by rewrite parent_no_slash|];
         by rewrite parent_join, Hs]).
  all: assert (Hp0 : s !! p = None) by (apply Hfresh; by left).
  - cbn [create_directory_tree_helper node_name tree_entries]. unfold write_file, bind. fold p. rewrite Hp0, Hpe.
    cbn. same_fs. by rewrite insert_union_singleton_l.
  - rewrite create_dir, tree_entries_dir. fold p. unfold mkdir, bind at 1. rewrite Hp0, Hpe.
    unfold bind, c_assert, ret. inversion_clear Hc as [|? ? [Hne _] Hns Hnd Hl].
    assert (Hpn : p <> []) by by apply join_nonempty.
    rewrite create_list_correct; [|done..| |].
    + same_fs. cbn [list_to_map foldr]. rewrite <- insert_union_l.
      assert (Hnone : (list_to_map (entries_list l p) : fs) !! p = None).
      { destruct ((list_to_map (entries_list l p) : fs) !! p) as [v|] eqn:E; [exfalso|done].
        apply elem_of_list_to_map_2, entries_list_elem in E as (x & Hx & E).
        rewrite Forall_forall in Hl. apply tree_entries_under in E; [|by apply Hl].
        by destruct (under_child _ _ _ Hpn E). }
      by rewrite insert_union_r.
    + by rewrite lookup_insert_eq.
    + intros x k Hx Hu. destruct (under_child _ _ _ Hpn Hu) as [Hu' Hkp].
      rewrite lookup_insert_ne by done. by apply Hfresh.
Qed.

(** ** Building a tree from paths

    A directory is seen as a map from paths (lists of names) to entries. *)

Definition component (n : list Z) : Prop := c_string n /\ no_slash n.

Fixpoint find_name (x : list Z) (l : list node) : option node :=
  match l with
  | [] => None
  | n :: l => if decide (node_name n = x) then Some n else find_name x l
  end.

Abbreviation view := (list (list Z) -> option fsentry).

Fixpoint look (l : list node) (p : list (list Z)) : option fsentry :=
  match p with
  | [] => Some FsDir
  | x :: p' =>
      match find_name x l with
      | Some (file_node _ c) => match p' with [] => Some (FsFile c) | _ => None end
      | Some (directory_node _ l') => look l' p'
      | None => None
      end
  end.

Definition is_file (e : option fsentry) : bool := match e with Some (FsFile _) => true | _ => false end.

(** A file can be added if its path is free and passes through no file. *)
Definition can_add (m : view) (p : list (list Z)) : bool :=
  bool_decide (m p = None) && forallb (fun i => negb (is_file (m (take i p)))) (seq 0 (length p)).

(** What adding a file should do: the directories on its path appear with it. *)
Definition spec_add (m : view) (p : list (list Z)) (c : list Z) : view := fun q =>
  if decide (q = p) then Some (FsFile c)
  else if decide (q `prefix_of` p) then Some FsDir
  else m q.

(** Children sorted by name, with different names, at every level. *)
Inductive wf_dir : list node -> Prop :=
  wf_dir_intro l : sorted l -> NoDup (node_name <$> l) -> Forall name_ok l ->
    (forall n sub, directory_node n sub ∈ l -> wf_dir sub) -> wf_dir l.

Fixpoint path_string (p : list (list Z)) : list Z :=
  match p with
  | [] => []
  | [x] => x
  | x :: p' => x ++ SLASH :: path_string p'
  end.

Lemma find_name_Some x l n : NoDup (node_name <$> l) -> find_name x l = Some n <-> n ∈ l /\ node_name n = x.
Proof.
  induction l as [|y l IH]; intros Hnd; cbn [find_name].
  - split; [done|]. intros [H _]. by apply not_elem_of_nil in H.
  - rewrite fmap_cons, NoDup_cons in Hnd. destruct Hnd as [Hy Hnd]. case_decide as E.
    + split; [intros [= <-]; split; [left|done]|]. intros [[-> |H]%elem_of_cons Hn]; [done|].
      destruct Hy. rewrite E, <- Hn. by apply list_elem_of_fmap_2.
    + rewrite IH by done. split; intros [H Hn]; split; [by right|done| |done].
      apply elem_of_cons in H as [-> |H]; done.
Qed.

Lemma find_name_None x l : find_name x l = None <-> forall n, n ∈ l -> node_name n <> x.
Proof.
  induction l as [|y l IH]; cbn [find_name].
  - split; [|done]. intros _ n H. by apply not_elem_of_nil in H.
  - case_decide as E.
    + split; [done|]. intros H. exfalso. apply (H y); [left|done].
    + rewrite IH. split; intros H n; [intros [-> |Hn]%elem_of_cons; [done|by apply H]|]. intros Hn. apply H. by right.
Qed.

(** In a well-formed directory the binary search is a lookup by name. *)
Lemma get_child_find l x : wf_dir l -> c_string x -> get_child l x = Ok (find_name x l).
Proof.
  intros [l' Hs Hnd Hok _] Hx. destruct (get_child_correct l' x Hok Hx Hs) as (r & -> & Hr). f_equal.
  destruct r as [n|]; symmetry; [by apply find_name_Some|by apply find_name_None].
Qed.

Lemma add_child_wf l c :
  wf_dir l -> name_ok c -> find_name (node_name c) l = None ->
  (forall n sub, c = directory_node n sub -> wf_dir sub) ->
  exists l', add_child_directory_tree l c = Ok l' /\ wf_dir l' /\
    forall y, find_name y l' = if decide (y = node_name c) then Some c else find_name y l.
Proof.
  intros [l0 Hs Hnd Hok Hsub] Hc Hfree Hdir. destruct (add_child_correct l0 c Hok Hc) as (l' & E & Hp & Hs').
  assert (NoDup (node_name <$> c :: l0)) as Hnd1.
  { rewrite fmap_cons, NoDup_cons. split; [|done]. intros (n & Hn & Hin)%list_elem_of_fmap_1.
    rewrite find_name_None in Hfree. by apply (Hfree n). }
  assert (NoDup (node_name <$> l')) as Hnd' by by rewrite Hp.
  exists l'. split; [done|]. split.
  - split; [done|done| |].
    + rewrite Hp. by constructor.
    + intros n sub. rewrite Hp. intros [E1|H]%elem_of_cons; [by apply (Hdir n)|by apply (Hsub n)].
  - intros y. destruct (decide (y = node_name c)) as [-> |Hne].
    + apply find_name_Some; [done|]. rewrite Hp. split; [left|done].
    + destruct (find_name y l0) as [n|] eqn:En.
      * apply find_name_Some in En as [Hin Hn]; [|done]. apply find_name_Some; [done|]. rewrite Hp. split; [by right|done].
      * rewrite find_name_None in *. intros n. rewrite Hp. intros [-> |Hin]%elem_of_cons; [done|by apply En].
Qed.

Lemma in_child_err l x f n sub e :
  find_name x l = Some (directory_node n sub) -> f sub = Err e -> in_child l x f = Err e.
Proof.
  intros Hf He. induction l as [|y l IH]; cbn [find_name in_child] in *; [done|]. case_decide.
  - injection Hf as ->. by rewrite He.
  - by rewrite (IH Hf).
Qed.

Lemma sorted_names l l' : node_name <$> l = node_name <$> l' -> sorted l -> sorted l'.
Proof.
  intros E Hs i j a b Hij Ha Hb.
  assert (forall k c, l' !! k = Some c -> exists c0, l !! k = Some c0 /\ node_name c0 = node_name c) as H.
  { intros k c Hk. apply (f_equal (fun z => z !! k)) in E. rewrite !list_lookup_fmap, Hk in E.
    destruct (l !! k) as [c0|]; [|done]. injection E as E. by exists c0. }
  destruct (H _ _ Ha) as (a0 & Ha0 & Ea), (H _ _ Hb) as (b0 & Hb0 & Eb).
  unfold le_name. rewrite <- Ea, <- Eb. exact (Hs i j a0 b0 Hij Ha0 Hb0).
Qed.

Lemma in_child_split l x f sub sub' :
  find_name x l = Some (directory_node x sub) -> f sub = Ok sub' ->
  exists a b, l = a ++ directory_node x sub :: b /\ in_child l x f = Ok (a ++ directory_node x sub' :: b) /\
    (forall y, find_name y (a ++ directory_node x sub' :: b) = if decide (y = x) then Some (directory_node x sub') else find_name y l).
Proof.
  intros Hf He. induction l as [|z l IH]; cbn [find_name in_child] in *; [done|]. destruct (decide (node_name z = x)) as [Ez|Ez].
  - injection Hf as ->. exists [], l. rewrite He. split; [done|]. split; [done|]. intros y. cbn [app find_name node_name].
    destruct (decide (x = y)), (decide (y = x)); congruence || done.
  - destruct (IH Hf) as (a & b & -> & E & Hy). rewrite E. exists (z :: a), b. split; [done|]. split; [done|].
    intros y. cbn [app find_name]. rewrite Hy. destruct (decide (node_name z = y)), (decide (y = x)); congruence || done.
Qed.

Lemma in_child_wf l x f sub sub' :
  wf_dir l -> find_name x l = Some (directory_node x sub) -> f sub = Ok sub' -> wf_dir sub' ->
  exists l', in_child l x f = Ok l' /\ wf_dir l' /\
    forall y, find_name y l' = if decide (y = x) then Some (directory_node x sub') else find_name y l.
Proof.
  intros [l0 Hs Hnd Hok Hsub] Hf He Hw. destruct (in_child_split l0 x f sub sub' Hf He) as (a & b & -> & E & Hy).
  exists (a ++ directory_node x sub' :: b). split; [exact E|]. split; [|exact Hy].
  assert (node_name <$> a ++ directory_node x sub :: b = node_name <$> a ++ directory_node x sub' :: b) as En.
  { by rewrite !fmap_app, !fmap_cons. }
  split; [by apply (sorted_names _ _ En)|by rewrite <- En| |].
  - apply Forall_app in Hok as [Ha Hb]. apply Forall_app. split; [done|]. inversion_clear Hb. by constructor.
  - intros n s [H|[[= -> ->]|H]%elem_of_cons]%elem_of_app; [|done|]; apply (Hsub n); apply elem_of_app; [by left|right; by right].
Qed.

Lemma strchr_component c x r : c ∉ x -> strchr c (x ++ c :: r) = Some (x, r).
Proof.
  induction x as [|y x IH]; intros H; cbn; [by rewrite Z.eqb_refl|]. apply not_elem_of_cons in H as [Hy H].
  rewrite (proj2 (Z.eqb_neq y c)) by congruence. by rewrite IH.
Qed.

Lemma strchr_none c x : c ∉ x -> strchr c x = None.
Proof.
  induction x as [|y x IH]; intros H; cbn; [done|]. apply not_elem_of_cons in H as [Hy H].
  rewrite (proj2 (Z.eqb_neq y c)) by congruence. by rewrite IH.
Qed.

Lemma forallb_shift (f g : nat -> bool) n a : (forall i, f (S i) = g i) -> forallb f (seq (S a) n) = forallb g (seq a n).
Proof. intros H. revert a. induction n as [|n IH]; intros a; cbn; [done|]. by rewrite H, IH. Qed.

(** Looking below one name. *)
Lemma can_add_below m sub x p :
  (forall q, m (x :: q) = look sub q) -> m [] = Some FsDir -> can_add m (x :: p) = can_add (look sub) p.
Proof.
  intros Hm H0. unfold can_add. rewrite Hm. f_equal. cbn [length seq forallb take]. rewrite H0. cbn [is_file negb andb].
  apply forallb_shift. intros i. cbn [take]. by rewrite Hm.
Qed.

Lemma can_add_new m x p : p <> [] -> (forall q, m (x :: q) = None) -> m [] = Some FsDir -> can_add m (x :: p) = true.
Proof.
  intros Hp Hm H0. unfold can_add. rewrite Hm. cbn [length seq forallb take]. rewrite H0. cbn.
  apply forallb_forall. intros i Hi. apply in_seq in Hi. destruct i as [|i]; [lia|]. cbn [take]. by rewrite Hm.
Qed.

Lemma can_add_blocked m x y p c : m [x] = Some (FsFile c) -> can_add m (x :: y :: p) = false.
Proof. intros Hm. unfold can_add. cbn. rewrite Hm. cbn. by rewrite !andb_false_r. Qed.

Lemma look_empty q : look [] q = match q with [] => Some FsDir | _ => None end.
Proof. by destruct q. Qed.

Lemma spec_add_below (m : view) sub x p c q : (forall q, q `prefix_of` p \/ m (x :: q) = look sub q) -> m [] = Some FsDir ->
  match q with [] => Some FsDir | y :: q' => if decide (y = x) then spec_add (look sub) p c q' else m (y :: q') end =
  spec_add m (x :: p) c q.
Proof.
  intros Hm H0. unfold spec_add. destruct q as [|y q].
  - rewrite decide_False by done. rewrite decide_True by apply prefix_nil. done.
  - destruct (decide (y = x)) as [-> |Hne].
    + destruct (decide (q = p)) as [-> |Hq]; [by rewrite decide_True|]. rewrite (decide_False (P := x :: q = x :: p)) by congruence.
      destruct (decide (q `prefix_of` p)) as [Hp|Hp].
      * rewrite decide_True; [done|]. by apply prefix_cons.
      * rewrite decide_False by (intros H; by apply prefix_cons_inv_2 in H). destruct (Hm q); [done|congruence].
    + rewrite decide_False by congruence. rewrite decide_False; [done|]. intros H. by apply prefix_cons_inv_1 in H.
Qed.

(** What add_file() should do to a directory seen as [m]. *)
Definition adds (l : list node) (p : list (list Z)) (c : list Z) (r : res (list node)) : Prop :=
  if can_add (look l) p
  then exists l', r = Ok l' /\ wf_dir l' /\ forall q, look l' q = spec_add (look l) p c q
  else r = Err AssertFail.

(** The step into the directory [x], in [l1] that differs from [l] at most by an empty directory [x]. *)
Lemma adds_below l l1 sub x p c f :
  wf_dir l1 -> wf_dir sub -> find_name x l1 = Some (directory_node x sub) ->
  (forall z, z <> x -> find_name z l1 = find_name z l) -> (forall q, look l (x :: q) = look sub q \/ q = []) ->
  can_add (look l) (x :: p) = can_add (look sub) p -> adds sub p c (f sub) -> adds l (x :: p) c (in_child l1 x f).
Proof.
  intros Hw1 Hsub Hf1 Hother Hlook Hcan IH. unfold adds in *. rewrite Hcan.
  destruct (can_add (look sub) p); [|by apply (in_child_err l1 x _ x sub)].
  destruct IH as (sub' & E & Hwsub & Hl).
  destruct (in_child_wf l1 x f sub sub' Hw1 Hf1 E Hwsub) as (l' & El & Hw' & Hf'). exists l'. split; [exact El|]. split; [exact Hw'|].
  intros q. rewrite <- (spec_add_below (look l) sub x p c q).
  - destruct q as [|z q]; [done|]. cbn [look]. rewrite Hf'. destruct (decide (z = x)) as [-> |Hz]; [apply Hl|]. by rewrite Hother.
  - intros q0. destruct (Hlook q0) as [->| ->]; [by right|left; apply prefix_nil].
  - done.
Qed.

Lemma wf_dir_nil : wf_dir [].
Proof. split; [intros ? ? ? ? _ H; done|constructor|constructor|by intros ? ? H%not_elem_of_nil]. Qed.

Lemma add_file_last l x c fuel :
  component x -> wf_dir l -> adds l [x] c (add_file_loop (S fuel) l x c).
Proof.
  intros [Hx Hs] Hw. cbn [add_file_loop]. rewrite strchr_none, get_child_find by done. cbn [rbind].
  unfold adds, can_add. cbn [length seq forallb take look is_file negb andb]. rewrite andb_true_r.
  destruct (find_name x l) as [[n c'|n l']|] eqn:E; cbn [look]; [done|by destruct l'|].
  rewrite bool_decide_true by done.
  destruct (add_child_wf l (file_node x c) Hw Hx E) as (l' & El & Hw' & Hf); [done|]. exists l'. split; [exact El|]. split; [done|].
  intros q. unfold spec_add. destruct q as [|z q]; [by rewrite decide_False, decide_True by (done || apply prefix_nil)|].
  cbn [look]. rewrite Hf. cbn [node_name]. destruct (decide (z = x)) as [-> |Hz].
  - destruct q as [|z' q]; [by rewrite decide_True|]. rewrite decide_False by congruence.
    rewrite decide_False by (intros [k [=]]). by rewrite E.
  - rewrite decide_False by congruence. rewrite decide_False; [done|]. intros H. by apply prefix_cons_inv_1 in H.
Qed.

Lemma add_file_loop_spec p c : forall l fuel,
  p <> [] -> Forall component p -> wf_dir l -> (length p <= fuel)%nat ->
  adds l p c (add_file_loop fuel l (path_string p) c).
Proof.
  induction p as [|x p IH]; intros l fuel Hne Hp Hw Hfuel; [done|]. destruct fuel as [|fuel]; [cbn in Hfuel; lia|].
  inversion_clear Hp as [|? ? [Hx Hs] Hp']. destruct p as [|y p]; [by apply add_file_last|].
  assert (forall sub, wf_dir sub -> adds sub (y :: p) c (add_file_loop fuel sub (path_string (y :: p)) c)) as IHs.
  { intros sub Hsub. apply IH; [done..|cbn in *; lia]. } clear IH.
  change (path_string (x :: y :: p)) with (x ++ SLASH :: path_string (y :: p)). cbn [add_file_loop].
  rewrite strchr_component, get_child_find by done. cbn [rbind].
  destruct (find_name x l) as [[n c'|n sub]|] eqn:E; cbn [rbind].
  - unfold adds. rewrite can_add_blocked with (c := c'); [done|]. cbn [look]. by rewrite E.
  - assert (n = x) as ->. { apply find_name_Some in E as [_ E]; [done|]. by destruct Hw. }
    assert (wf_dir sub) as Hsub. { apply find_name_Some in E as [E _]; [|by destruct Hw]. inversion_clear Hw. eauto. }
    apply (adds_below l l sub); [done..|intros q; left; cbn [look]; by rewrite E| |by apply IHs].
    apply can_add_below; [|done]. intros q. cbn [look]. by rewrite E.
  - destruct (add_child_wf l (directory_node x []) Hw Hx E) as (l1 & El & Hw1 & Hf1).
    { intros ? ? [= <- <-]. apply wf_dir_nil. }
    cbn [node_name] in Hf1. change (init_directory_node (Some x)) with (directory_node x []). rewrite El. cbn [rbind].
    assert (Hnone : forall q, look l (x :: q) = None) by (intros q; cbn [look]; by rewrite E).
    apply (adds_below l l1 []); [done|apply wf_dir_nil|by rewrite Hf1, decide_True| | | |apply IHs, wf_dir_nil].
    + intros z Hz. by rewrite Hf1, decide_False.
    + intros q. rewrite Hnone, look_empty. destruct q; [by right|by left].
    + rewrite can_add_new by done. unfold can_add. symmetry. rewrite look_empty. cbn.
      apply forallb_forall. intros i Hi. apply in_seq in Hi. destruct i; [lia|]. done.
Qed.

(** ** The files of a tree by their paths *)

Lemma path_string_join base x q :
  base <> [] -> path_string (base :: x :: q) = path_string (join_path base x :: q).
Proof.
  intros Hb. destruct base as [|b base]; [done|]. unfold join_path. destruct q as [|y q]; [done|].
  change (path_string ((b :: base) :: x :: y :: q)) with ((b :: base) ++ SLASH :: x ++ SLASH :: path_string (y :: q)).
  change (path_string (((b :: base) ++ [SLASH] ++ x) :: y :: q)) with (((b :: base) ++ [SLASH] ++ x) ++ SLASH :: path_string (y :: q)).
  by rewrite <- !app_assoc.
Qed.

Lemma path_string_under base q : under base (path_string (base :: q)) /\ (q <> [] -> path_string (base :: q) <> base).
Proof.
  destruct q as [|x q]; [split; [by left|done]|]. change (path_string (base :: x :: q)) with (base ++ SLASH :: path_string (x :: q)).
  split; [right; by eexists|]. intros _ E. apply (f_equal length) in E. rewrite length_app in E. cbn in E. lia.
Qed.

Lemma entries_find l base x k :
  Forall creatable l -> NoDup (node_name <$> l) -> ordinary x -> no_slash x -> under (join_path base x) k ->
  (list_to_map (entries_list l base) : fs) !! k =
  match find_name x l with Some n => (list_to_map (tree_entries n base) : fs) !! k | None => None end.
Proof.
  intros Hc Hnd Hx Hs Hu. induction Hc as [|n l Hn _ IH]; cbn [entries_list find_name]; [done|].
  rewrite fmap_cons, NoDup_cons in Hnd. destruct Hnd as [Hnl Hnd]. rewrite list_to_map_app, lookup_union, (IH Hnd).
  case_decide as E.
  - assert (find_name x l = None) as ->; [|by destruct ((list_to_map (tree_entries n base) : fs) !! k)]. apply find_name_None. intros m Hm Em.
    apply Hnl. rewrite E, <- Em. by apply list_elem_of_fmap_2.
  - rewrite (sibling_fresh n (file_node x []) base k); [by rewrite (left_id_L None _)|done|by constructor|done|done].
Qed.

Lemma entries_look q : forall l base,
  base <> [] -> Forall creatable l -> wf_dir l -> q <> [] -> Forall (fun x => ordinary x /\ no_slash x) q ->
  (list_to_map (entries_list l base) : fs) !! path_string (base :: q) = look l q.
Proof.
  induction q as [|x q IH]; intros l base Hb Hl Hw Hne Hq; [done|]. inversion_clear Hq as [|? ? [Hx Hs] Hq'].
  rewrite path_string_join by done. pose proof (path_string_under (join_path base x) q) as [Hu Hd].
  assert (NoDup (node_name <$> l)) as Hnd by by destruct Hw.
  rewrite (entries_find l base x) by done. cbn [look]. destruct (find_name x l) as [n|] eqn:E; [|done].
  apply find_name_Some in E as [Hin En]; [|done]. assert (creatable n) as Hn by (by rewrite Forall_forall in Hl; apply Hl).
  destruct n as [y c|y sub]; cbn [node_name] in En; subst y.
  - cbn [tree_entries node_name list_to_map foldr]. destruct q as [|z q]; [by rewrite lookup_insert_eq|].
    rewrite lookup_insert_ne by (symmetry; by apply Hd). apply lookup_empty.
  - rewrite tree_entries_dir. cbn [list_to_map foldr]. destruct q as [|z q]; [by rewrite lookup_insert_eq|].
    rewrite lookup_insert_ne by (symmetry; by apply Hd). inversion_clear Hn.
    apply IH; [by apply join_nonempty, Hx|done| |done|done]. inversion_clear Hw. eauto.
Qed.

Lemma tree_entries_path n : forall path k v, (k, v) ∈ tree_entries n path -> creatable n ->
  exists q, k = path_string (join_path path (node_name n) :: q) /\ Forall (fun x => ordinary x /\ no_slash x) q.
Proof.
  induction n as [n c|n l IH] using node_ind; intros path k v Hk Hc; [|rewrite tree_entries_dir in Hk]; cbn [node_name].
  - apply elem_of_cons in Hk as [[= -> ->]|Hk]; [by exists []|by apply not_elem_of_nil in Hk].
  - apply elem_of_cons in Hk as [[= -> ->]|Hk]; [by exists []|]. inversion_clear Hc as [|? ? Hn _ _ Hl].
    apply entries_list_elem in Hk as (x & Hx & Hk). rewrite Forall_forall in IH, Hl.
    destruct (IH x Hx _ _ _ Hk (Hl x Hx)) as (q & -> & Hq). exists (node_name x :: q).
    split; [by rewrite path_string_join by (by apply join_nonempty, Hn)|]. constructor; [|done].
    specialize (Hl x Hx). by destruct Hl.
Qed.

(** Names that the view reaches are names of the tree. *)
Lemma look_creatable l :
  wf_dir l -> (forall q, look l q <> None -> Forall (fun x => ordinary x /\ no_slash x) q) -> Forall creatable l.
Proof.
  induction 1 as [l Hs Hnd Hok Hsub IH]; intros Hq. apply Forall_forall. intros n Hn.
  assert (find_name (node_name n) l = Some n) as E by (by apply find_name_Some).
  assert (ordinary (node_name n) /\ no_slash (node_name n)) as [Ho Hsl].
  { apply (Forall_singleton (fun x => ordinary x /\ no_slash x)), Hq. cbn [look]. rewrite E. by destruct n. }
  destruct n as [x c|x sub]; cbn [node_name] in *; constructor; [done..| |].
  - by destruct (Hsub x sub Hn).
  - apply (IH x sub Hn). intros q Hl. specialize (Hq (x :: q)). cbn [look] in Hq. rewrite E in Hq.
    specialize (Hq Hl). by inversion Hq.
Qed.

(** ** The input of test_tree *)

(** A name without the bytes that separate names, paths and lines. *)
Definition file_name (x : list Z) : Prop := component x /\ ordinary x /\ (COLON ∉ x) /\ (10 ∉ x).

Definition file_ok (f : list (list Z) * list Z) : Prop :=
  f.1 <> [] /\ Forall file_name f.1 /\ c_string f.2 /\ 10 ∉ f.2.

Definition print_file (f : list (list Z) * list Z) : list Z := path_string f.1 ++ COLON :: f.2 ++ [10].

(** What the program should build: the files one after the other, or [None] if one of them cannot be added. *)
Fixpoint build (m : view) (files : list (list (list Z) * list Z)) : option view :=
  match files with
  | [] => Some m
  | (p, c) :: files => if can_add m p then build (spec_add m p (c ++ [10])) files else None
  end.

#[export] Instance can_add_proper : Proper (pointwise_relation _ eq ==> eq ==> eq) can_add.
Proof.
  intros m m' Hm p _ <-. unfold can_add. rewrite (Hm p). f_equal. generalize (seq 0 (length p)).
  intros l. induction l as [|i l IH]; cbn; [done|]. by rewrite (Hm (take i p)), IH.
Qed.

#[export] Instance spec_add_proper : Proper (pointwise_relation _ eq ==> eq ==> eq ==> pointwise_relation _ eq) spec_add.
Proof. intros m m' Hm p _ <- c _ <- q. unfold spec_add. by rewrite (Hm q). Qed.

Lemma path_string_forall (P : Z -> Prop) p : P SLASH -> Forall (Forall P) p -> Forall P (path_string p).
Proof.
  intros HP. induction 1 as [|x p Hx Hp IH]; [constructor|]. destruct p as [|y p]; [exact Hx|].
  change (path_string (x :: y :: p)) with (x ++ SLASH :: path_string (y :: p)). apply Forall_app. split; [done|]. by constructor.
Qed.

Lemma notin_forall (c : Z) l : c ∉ l <-> Forall (fun b => b <> c) l.
Proof. rewrite Forall_forall. split; [intros H b Hb ->; done|intros H Hc; by apply (H c)]. Qed.

Lemma getline_line a rest : 10 ∉ a -> getline (a ++ 10 :: rest) = (a ++ [10], rest).
Proof.
  induction a as [|x a IH]; intros H; cbn; [done|]. apply not_elem_of_cons in H as [Hx H].
  rewrite (proj2 (Z.eqb_neq x 10)) by congruence. by rewrite IH.
Qed.

Lemma path_string_length p : Forall ordinary p -> (length p <= length (path_string p))%nat.
Proof.
  induction 1 as [|x p [Hx _] _ IH]; [done|]. destruct p as [|y p]; [destruct x; cbn; [done|lia]|].
  change (path_string (x :: y :: p)) with (x ++ SLASH :: path_string (y :: p)). rewrite length_app. cbn in *. lia.
Qed.

(** One line: its path and its contents. *)
Lemma print_file_line f rest :
  file_ok f -> getline (print_file f ++ rest) = (print_file f, rest) /\
    strchr COLON (c_str (print_file f)) = Some (path_string f.1, f.2 ++ [10]).
Proof.
  destruct f as [p c]. intros (Hne & Hp & Hc & Hn). unfold print_file. cbn [fst snd] in *.
  assert (forall P : Z -> Prop, P SLASH -> (forall x, file_name x -> Forall P x) -> Forall P (path_string p)) as Hall.
  { intros P H1 H2. apply path_string_forall; [done|]. eapply Forall_impl; [exact Hp|exact H2]. }
  split.
  - replace ((path_string p ++ COLON :: c ++ [10]) ++ rest) with ((path_string p ++ COLON :: c) ++ 10 :: rest)
      by (by rewrite <- !app_assoc; cbn; rewrite <- app_assoc).
    rewrite getline_line; [by rewrite <- app_assoc|]. apply notin_forall, Forall_app. split; [|constructor; [done|by apply notin_forall]].
    apply Hall; [done|]. intros x (_ & _ & _ & H). by apply notin_forall.
  - rewrite c_str_id.
    + apply strchr_component, notin_forall, Hall; [done|]. intros x (_ & _ & H & _). by apply notin_forall.
    + apply Forall_app. split; [apply Hall; [done|]; intros x ((H & _) & _); eapply Forall_impl; [exact H|]; cbn; lia|].
      constructor; [done|]. apply Forall_app. split; [|by repeat constructor]. eapply Forall_impl; [exact Hc|]. cbn. lia.
Qed.

Lemma read_files_spec files : forall l (m : view) fuel,
  Forall file_ok files -> wf_dir l -> (forall q, look l q = m q) -> (length files < fuel)%nat ->
  match build m files with
  | Some m' => exists l', read_files fuel l (mjoin (print_file <$> files)) = Ok l' /\ wf_dir l' /\ forall q, look l' q = m' q
  | None => read_files fuel l (mjoin (print_file <$> files)) = Err AssertFail
  end.
Proof.
  induction files as [|[p c] files IH]; intros l m fuel Hok Hw Hm Hf; (destruct fuel as [|fuel]; [cbn in Hf; lia|]); cbn [build].
  - cbn. by exists l.
  - inversion_clear Hok as [|? ? Hfile Hok']. change (mjoin (print_file <$> (p, c) :: files)) with (print_file (p, c) ++ mjoin (print_file <$> files)).
    destruct (print_file_line (p, c) (mjoin (print_file <$> files)) Hfile) as [E1 E2]. cbn [read_files]. rewrite E1, E2.
    assert ((0 <? length (print_file (p, c)))%nat = true) as ->.
    { apply Nat.ltb_lt. unfold print_file. rewrite length_app. cbn. lia. }
    cbn [fst snd]. destruct Hfile as (Hne & Hp & _ & _). cbn [fst snd] in *.
    pose proof (add_file_loop_spec p (c ++ [10]) l (S (length (path_string p))) Hne) as Hadd.
    unfold adds, add_file in *. rewrite <- (can_add_proper _ _ Hm p p eq_refl).
    destruct (can_add (look l) p).
    + destruct Hadd as (l' & -> & Hw' & Hl'); [by eapply Forall_impl; [exact Hp|]; intros x []|done| |].
      { etrans; [apply path_string_length; by eapply Forall_impl; [exact Hp|]; intros x (_ & ? & _)|lia]. }
      cbn [rbind]. apply IH; [done|done| |cbn in Hf; lia]. intros q. rewrite Hl'. by apply spec_add_proper.
    + rewrite Hadd; [done|by eapply Forall_impl; [exact Hp|]; intros x []|done|].
      etrans; [apply path_string_length; by eapply Forall_impl; [exact Hp|]; intros x (_ & ? & _)|lia].
Qed.

(** Only paths of the files appear. *)
Lemma build_paths files : forall m m' q,
  build m files = Some m' -> Forall file_ok files -> m' q <> None -> m q <> None \/ Forall file_name q.
Proof.
  induction files as [|[p c] files IH]; intros m m' q E Hok Hq; cbn [build] in E; [injection E as <-; by left|].
  destruct (can_add m p); [|done]. inversion_clear Hok as [|? ? (_ & Hp & _) Hok'].
  destruct (IH _ _ _ E Hok' Hq) as [H|H]; [|by right]. unfold spec_add in H. cbn [fst] in Hp.
  case_decide as Hd; [subst; by right|]. case_decide as Hr; [|by left]. right. destruct Hr as [r ->]. by apply Forall_app in Hp as [? _].
Qed.

Lemma print_files_length files : (length files <= length (mjoin (print_file <$> files)))%nat.
Proof.
  induction files as [|f files IH]; [done|]. change (mjoin (print_file <$> f :: files)) with (print_file f ++ mjoin (print_file <$> files)).
  rewrite length_app. unfold print_file at 1. rewrite length_app. cbn. lia.
Qed.
