(* ===== verification/Fat16.v ===== *)
(** * FAT16 volumes and their recovery (file-directory-tree/include/fat16.h,
      src/fat16.c, src/recover.c)

    The disk image is a list of bytes with a position.  The packed structures
    are decoded from their bytes in little-endian order. *)
From stdpp Require Import prelude list.
From Stdlib Require Import ZArith Lia.
From S2P Require Import Prelude DirectoryTree.
Open Scope Z_scope.
Open Scope c_scope.

(** ** Structures *)

Record bios_parameter_block_t := mkBpb {
  bytes_per_sector : Z;
  sectors_per_cluster : Z;
  reserved_sectors : Z;
  num_fats : Z;
  max_root_entries : Z;
  logical_sectors : Z;
  media_descriptor : Z;
  sectors_per_fat : Z;
  padding : list Z;
  volume_name : list Z;
  bpb_type : list Z
}.

Record directory_entry_t := mkEntry {
  filename : list Z;
  extension : list Z;
  attribute : Z;
  reserved : list Z;
  high_size : Z;
  time : list Z;
  date : list Z;
  first_cluster : Z;
  file_size : Z
}.

Definition SIZEOF_BPB : Z := 51.
Definition SIZEOF_ENTRY : Z := 32.

(** The integer stored in little-endian bytes. *)
Fixpoint le (l : list Z) : Z := match l with [] => 0 | b :: l => b + 256 * le l end.

(** The [n] bytes at offset [o] of a structure. *)
Definition field (l : list Z) (o n : nat) : list Z := take n (drop o l).

Definition decode_bpb (l : list Z) : bios_parameter_block_t :=
  mkBpb (le (field l 0 2)) (le (field l 2 1)) (le (field l 3 2)) (le (field l 5 1)) (le (field l 6 2))
        (le (field l 8 2)) (le (field l 10 1)) (le (field l 11 2)) (field l 13 19) (field l 32 11) (field l 43 8).

Definition decode_entry (l : list Z) : directory_entry_t :=
  mkEntry (field l 0 8) (field l 8 3) (le (field l 11 1)) (field l 12 8) (le (field l 20 2))
          (field l 22 2) (field l 24 2) (le (field l 26 2)) (le (field l 28 4)).

(** fat_attribute_t *)
Definition READ_ONLY : Z := 0x1.
Definition HIDDEN : Z := 0x2.
Definition SYSTEM : Z := 0x4.
Definition VOLUME_LABEL : Z := 0x8.
Definition SUBDIRECTORY : Z := 0x10.
Definition ARCHIVE : Z := 0x20.
Definition DEVICE : Z := 0x40.

Definition DELETED : Z := 0xE5.

(** ** fat16.c *)

Definition get_root_directory_location (bpb : bios_parameter_block_t) : Z :=
  let fat_sectors := u64 (num_fats bpb * sectors_per_fat bpb) in
  u64 (u64 (1 + reserved_sectors bpb + fat_sectors) * bytes_per_sector bpb).

Definition get_offset_from_cluster (cluster : Z) (bpb : bios_parameter_block_t) : Z :=
  u64 (get_root_directory_location bpb + max_root_entries bpb * SIZEOF_ENTRY +
       u64 (u64 (cluster - 2) * sectors_per_cluster bpb) * bytes_per_sector bpb).

Definition is_directory (entry : directory_entry_t) : bool :=
  negb (Z.land (attribute entry) SUBDIRECTORY =? 0).

Definition byte_of (l : list Z) (i : nat) : Z := default 0 (l !! i).

Definition is_hidden (entry : directory_entry_t) : bool :=
  (byte_of (filename entry) 0 =? 46) || (byte_of (filename entry) 1 =? 46) ||
  (attribute entry =? 0) ||
  negb (Z.land (attribute entry) (Z.lor HIDDEN (Z.lor SYSTEM VOLUME_LABEL)) =? 0).

(** The two loops of get_file_name(), up to the first space. *)
Fixpoint filename_loop (l : list Z) : list Z :=
  match l with
  | [] => []
  | c :: l => if c =? 32 then [] else (if c =? DELETED then 63 else c) :: filename_loop l
  end.

Fixpoint extension_loop (l : list Z) : list Z :=
  match l with
  | [] => []
  | c :: l => if c =? 32 then [] else c :: extension_loop l
  end.

(** The buffer, without the final zero. *)
Definition file_name_buffer (entry : directory_entry_t) : list Z :=
  filename_loop (filename entry) ++
  if negb (byte_of (extension entry) 0 =? 32) then 46 :: extension_loop (extension entry) else [].

Definition get_file_name (entry : directory_entry_t) : list Z := c_str (file_name_buffer entry).

(** ** The disk *)

Record DISK := mkDisk { data : list Z; pos : Z }.

(** fread(ptr, size, 1, disk): [None] if it does not return 1, which it never
    does for size 0. *)
Definition fread (size : Z) : M DISK (option (list Z)) := fun d =>
  let l := take (Z.to_nat size) (drop (Z.to_nat (pos d)) (data d)) in
  if (0 <? size) && (Z.of_nat (length l) =? size)
  then Ok (Some l, mkDisk (data d) (pos d + size))
  else Ok (None, mkDisk (data d) (pos d + Z.of_nat (length l))).

(** fread() followed by assert(read == 1) *)
Definition fread_assert (size : Z) : M DISK (list Z) :=
  r <- fread size;;
  match r with Some l => ret l | None => fail AssertFail end.

Definition ftell : M DISK Z := gets pos.

(** fseek(disk, offset, SEEK_SET): the offset becomes a long; a negative one is
    an error, which the code ignores. *)
Definition fseek (offset : Z) : M DISK unit :=
  modify (fun d => if s64 offset <? 0 then d else mkDisk (data d) (s64 offset)).

(** ** recover.c *)

Definition MASTER_BOOT_RECORD_SIZE : Z := 0x20B.

(** follow_file(): the children of [node] afterwards. *)
Definition follow_file (children : list node) (bpb : bios_parameter_block_t) (entry : directory_entry_t) :
    M DISK (list node) :=
  prev_offset <- ftell;;
  fseek (get_offset_from_cluster (first_cluster entry) bpb);;;
  contents <- fread_assert (file_size entry);;
  children <- lift (add_child_directory_tree children
                      (init_file_node (Some (get_file_name entry)) contents));;
  fseek prev_offset;;;
  ret children.

(** follow() and follow_directory(): the children of the directory, whose
    entries start at the position of the disk.  The source adds a new
    directory to its parent before it fills it in; its name does not change
    when it is filled, so neither does its place. *)
Fixpoint follow (fuel : nat) (children : list node) (bpb : bios_parameter_block_t) : M DISK (list node) :=
  match fuel with
  | O => fail OutOfFuel
  | S f =>
      bytes <- fread_assert SIZEOF_ENTRY;;
      let entry := decode_entry bytes in
      match get_file_name entry with
      | [] => ret children
      | _ =>
          children <-
            (if negb (is_hidden entry) then
               if is_directory entry then
                 prev_offset <- ftell;;
                 fseek (get_offset_from_cluster (first_cluster entry) bpb);;;
                 sub <- follow f [] bpb;;
                 children <- lift (add_child_directory_tree children
                                     (directory_node (init_node (Some (get_file_name entry))) sub));;
                 fseek prev_offset;;;
                 ret children
               else follow_file children bpb entry
             else ret children);;
          follow f children bpb
      end
  end.

(** main() up to the finished tree. *)
Definition recover (fuel : nat) (image : list Z) : res node :=
  let d := mkDisk image 0 in
  match (fseek MASTER_BOOT_RECORD_SIZE;;;
         bytes <- fread_assert SIZEOF_BPB;;
         let bpb := decode_bpb bytes in
         fseek (get_root_directory_location bpb);;;
         follow fuel [] bpb) d with
  | Ok (children, _) => Ok (directory_node (init_node None) children)
  | Err f => Err f
  end.
