(* ===== verification/Fat16Spec.v ===== *)
(** * Directory trees and FAT16 recovery: properties *)
From stdpp Require Import prelude list gmap.
From Stdlib Require Import ZArith Lia.
From S2P Require Import Prelude DirectoryTree DirectoryTreeProofs Fat16.
Open Scope Z_scope.
Open Scope c_scope.

(** ** File names *)

Lemma filename_loop_word a r :
  Forall (fun c => c <> 32 /\ c <> DELETED) a -> filename_loop (a ++ 32 :: r) = a /\ filename_loop a = a.
Proof.
  induction 1 as [|c a [Hs Hd] _ [IH1 IH2]]; [done|]. cbn.
  rewrite (proj2 (Z.eqb_neq _ _) Hs), (proj2 (Z.eqb_neq _ _) Hd). by rewrite IH1, IH2.
Qed.

Lemma extension_loop_word a r :
  Forall (fun c => c <> 32) a -> extension_loop (a ++ 32 :: r) = a /\ extension_loop a = a.
Proof.
  induction 1 as [|c a Hs _ [IH1 IH2]]; [done|]. cbn. rewrite (proj2 (Z.eqb_neq _ _) Hs). by rewrite IH1, IH2.
Qed.

(** A field of [n] bytes padded with spaces. *)
Definition pad (n : nat) (s : list Z) : list Z := s ++ replicate (n - length s) 32.

Lemma pad_cases n s : (length s <= n)%nat -> pad n s = s \/ exists r, pad n s = s ++ 32 :: r.
Proof.
  intros H. unfold pad. destruct (n - length s)%nat as [|k]; [left; apply app_nil_r|]. right. by eexists.
Qed.

Lemma get_file_name_short base ext attr res hs tm dt fc sz :
  (length base <= 8)%nat -> (length ext <= 3)%nat ->
  Forall (fun c => c <> 32 /\ c <> DELETED /\ c <> 0) base -> Forall (fun c => c <> 32 /\ c <> 0) ext ->
  get_file_name (mkEntry (pad 8 base) (pad 3 ext) attr res hs tm dt fc sz) =
  base ++ match ext with [] => [] | _ => 46 :: ext end.
Proof.
  intros Hb He Fb Fe. unfold get_file_name, file_name_buffer. cbn [filename extension].
  assert (filename_loop (pad 8 base) = base) as ->.
  { assert (Forall (fun c => c <> 32 /\ c <> DELETED) base) as F by (eapply Forall_impl; [exact Fb|]; naive_solver).
    destruct (pad_cases 8 base Hb) as [-> |[r ->]]; [by apply (filename_loop_word base [])|by apply filename_loop_word]. }
  assert ((if negb (byte_of (pad 3 ext) 0 =? 32) then 46 :: extension_loop (pad 3 ext) else []) =
          match ext with [] => [] | _ => 46 :: ext end) as ->.
  { destruct ext as [|x ext]; [done|]. inversion_clear Fe as [|? ? [Hx _] Fe'].
    change (byte_of (pad 3 (x :: ext)) 0) with x. rewrite (proj2 (Z.eqb_neq _ _) Hx). cbn [negb]. f_equal.
    assert (Forall (fun c => c <> 32) (x :: ext)) as F.
    { constructor; [done|]. eapply Forall_impl; [exact Fe'|]. naive_solver. }
    destruct (pad_cases 3 (x :: ext) He) as [-> |[r ->]]; [by apply (extension_loop_word _ [])|by apply extension_loop_word]. }
  apply c_str_id, Forall_app. split; [eapply Forall_impl; [exact Fb|]; naive_solver|].
  destruct ext as [|x ext]; [constructor|]. constructor; [done|]. eapply Forall_impl; [exact Fe|]. naive_solver.
Qed.

(** ** Names read from a disk are C strings *)

Lemma c_str_positive l : Forall (fun b => 0 <= b < 256) l -> c_string (c_str l).
Proof.
  induction 1 as [|b l Hb _ IH]; [constructor|]. cbn. destruct (Z.eqb_spec b 0); [constructor|].
  constructor; [lia|done].
Qed.

Lemma filename_loop_bytes l : Forall (fun b => 0 <= b < 256) l -> Forall (fun b => 0 <= b < 256) (filename_loop l).
Proof.
  induction 1 as [|b l Hb _ IH]; [constructor|]. cbn. destruct (b =? 32); [constructor|].
  constructor; [destruct (b =? DELETED); lia|done].
Qed.

Lemma extension_loop_bytes l : Forall (fun b => 0 <= b < 256) l -> Forall (fun b => 0 <= b < 256) (extension_loop l).
Proof.
  induction 1 as [|b l Hb _ IH]; [constructor|]. cbn. destruct (b =? 32); by constructor.
Qed.

Lemma get_file_name_c_string l :
  Forall (fun b => 0 <= b < 256) l -> c_string (get_file_name (decode_entry l)).
Proof.
  intros H. apply c_str_positive, Forall_app.
  assert (forall o n, Forall (fun b => 0 <= b < 256) (field l o n)) as Hf by (intros; by apply Forall_take, Forall_drop).
  split; [apply filename_loop_bytes, Hf|]. destruct (negb _); [|constructor].
  constructor; [lia|apply extension_loop_bytes, Hf].
Qed.

(** ** Recovery *)

Section Recovery.
Variable image : list Z.
Variable bpb : bios_parameter_block_t.
Hypothesis Hbytes : Forall (fun b => 0 <= b < 256) image.
Hypothesis Hsize : Z.of_nat (length image) < 2 ^ 63.

(** The [n] bytes at position [p] of the image. *)
Definition bytes_at (p : Z) (n : Z) (l : list Z) : Prop :=
  0 <= p /\ 0 < n /\ Z.of_nat (length l) = n /\ take (Z.to_nat n) (drop (Z.to_nat p) image) = l.

(** What the code makes of the entries from position [p] of the image on, in the
    terms of the code, up to the sorting of the children. *)
Inductive read_as : Z -> list node -> Prop :=
  | read_end p b :
      bytes_at p SIZEOF_ENTRY b -> get_file_name (decode_entry b) = [] -> read_as p []
  | read_hidden p b l :
      bytes_at p SIZEOF_ENTRY b -> get_file_name (decode_entry b) <> [] -> is_hidden (decode_entry b) = true ->
      read_as (p + SIZEOF_ENTRY) l -> read_as p l
  | read_file p b c l :
      bytes_at p SIZEOF_ENTRY b -> get_file_name (decode_entry b) <> [] -> is_hidden (decode_entry b) = false ->
      is_directory (decode_entry b) = false ->
      bytes_at (get_offset_from_cluster (first_cluster (decode_entry b)) bpb) (file_size (decode_entry b)) c ->
      read_as (p + SIZEOF_ENTRY) l -> read_as p (file_node (get_file_name (decode_entry b)) c :: l)
  | read_dir p b sub l :
      bytes_at p SIZEOF_ENTRY b -> get_file_name (decode_entry b) <> [] -> is_hidden (decode_entry b) = false ->
      is_directory (decode_entry b) = true ->
      read_as (get_offset_from_cluster (first_cluster (decode_entry b)) bpb) sub ->
      read_as (p + SIZEOF_ENTRY) l -> read_as p (directory_node (get_file_name (decode_entry b)) sub :: l).

(** The same tree, with the children of every directory sorted. *)
Inductive recovered : node -> node -> Prop :=
  | recovered_file n c : recovered (file_node n c) (file_node n c)
  | recovered_dir n l l1 l2 : recovered_list l l1 -> l1 ≡ₚ l2 -> sorted l2 ->
      recovered (directory_node n l) (directory_node n l2)
with recovered_list : list node -> list node -> Prop :=
  | recovered_nil : recovered_list [] []
  | recovered_cons x y l l1 : recovered x y -> recovered_list l l1 -> recovered_list (x :: l) (y :: l1).

Lemma bytes_at_end p n l : bytes_at p n l -> p + n <= Z.of_nat (length image).
Proof.
  intros (Hp & Hn & Hl & E). apply (f_equal length) in E. rewrite length_take, length_drop in E. lia.
Qed.

Lemma fread_at p n l : bytes_at p n l -> fread_assert n (mkDisk image p) = Ok (l, mkDisk image (p + n)).
Proof.
  intros (Hp & Hn & Hl & E). unfold fread_assert, bind, fread. cbn [pos data]. rewrite E.
  rewrite (proj2 (Z.ltb_lt _ _) Hn), Hl, Z.eqb_refl. done.
Qed.

Lemma fseek_at p q : 0 <= q < 2 ^ 63 -> fseek q (mkDisk image p) = Ok (tt, mkDisk image q).
Proof. intros H. unfold fseek, modify. rewrite wrapS_small by lia. by rewrite (proj2 (Z.ltb_ge _ _)) by lia. Qed.

Lemma bytes_at_bytes p n l : bytes_at p n l -> Forall (fun b => 0 <= b < 256) l.
Proof. intros (_ & _ & _ & <-). by apply Forall_take, Forall_drop. Qed.

Lemma read_range p l : read_as p l -> 0 <= p < 2 ^ 63.
Proof. intros H. destruct H as [? ? Hb|? ? ? Hb|? ? ? ? Hb|? ? ? ? Hb]; pose proof (bytes_at_end _ _ _ Hb); destruct Hb; unfold SIZEOF_ENTRY in *; lia. Qed.

Lemma follow_file_at children p b c :
  Forall name_ok children -> 0 <= p < 2 ^ 63 -> Forall (fun b => 0 <= b < 256) b ->
  bytes_at (get_offset_from_cluster (first_cluster (decode_entry b)) bpb) (file_size (decode_entry b)) c ->
  exists l', follow_file children bpb (decode_entry b) (mkDisk image p) = Ok (l', mkDisk image p) /\
             l' ≡ₚ file_node (get_file_name (decode_entry b)) c :: children /\ sorted l'.
Proof.
  intros Hc Hp Hb Hat. pose proof (bytes_at_end _ _ _ Hat) as He. 
  assert (Hoff : 0 <= get_offset_from_cluster (first_cluster (decode_entry b)) bpb < 2 ^ 63) by (destruct Hat as (? & ? & _); lia).
  destruct (add_child_correct children (file_node (get_file_name (decode_entry b)) c)) as (l' & E & Hperm & Hs); [done|by apply get_file_name_c_string|].
  exists l'. split_and!; [|done..]. unfold follow_file, ftell. rewrite bind_gets. cbn [pos].
  rewrite (bind_ok _ _ _ _ _ (fseek_at p _ Hoff)).
  rewrite (bind_ok _ _ _ _ _ (fread_at _ _ _ Hat)).
  unfold bind, lift, init_file_node, init_node. rewrite E. by rewrite (fseek_at _ p Hp).
Qed.

(** What follow() does with one visible or hidden entry. *)
Definition follow_entry (f : nat) (children : list node) (entry : directory_entry_t) : M DISK (list node) :=
  if negb (is_hidden entry) then
    if is_directory entry then
      prev_offset <- ftell;;
      fseek (get_offset_from_cluster (first_cluster entry) bpb);;;
      sub <- follow f [] bpb;;
      children <- lift (add_child_directory_tree children
                          (directory_node (init_node (Some (get_file_name entry))) sub));;
      fseek prev_offset;;;
      ret children
    else follow_file children bpb entry
  else ret children.

Lemma follow_next p b f children :
  bytes_at p SIZEOF_ENTRY b -> get_file_name (decode_entry b) <> [] ->
  follow (S f) children bpb (mkDisk image p) =
  bind (follow_entry f children (decode_entry b)) (fun children => follow f children bpb)
    (mkDisk image (p + SIZEOF_ENTRY)).
Proof.
  intros Hb Hn. cbn [follow]. rewrite (bind_ok _ _ _ _ _ (fread_at _ _ _ Hb)). cbv zeta.
  destruct (get_file_name (decode_entry b)) eqn:E; [done|]. rewrite <- E. done.
Qed.

(** The directory entry, once its subdirectory is read. *)
Lemma follow_dir_at f children p p' b sub :
  Forall name_ok children -> 0 <= p < 2 ^ 63 -> Forall (fun b => 0 <= b < 256) b ->
  is_hidden (decode_entry b) = false -> is_directory (decode_entry b) = true ->
  0 <= get_offset_from_cluster (first_cluster (decode_entry b)) bpb < 2 ^ 63 ->
  follow f [] bpb (mkDisk image (get_offset_from_cluster (first_cluster (decode_entry b)) bpb)) = Ok (sub, mkDisk image p') ->
  exists l', follow_entry f children (decode_entry b) (mkDisk image p) = Ok (l', mkDisk image p) /\
             l' ≡ₚ directory_node (get_file_name (decode_entry b)) sub :: children /\ sorted l'.
Proof.
  intros Hc Hp Hb Hh Hd Ho Hf.
  destruct (add_child_correct children (directory_node (get_file_name (decode_entry b)) sub)) as (l' & E & Hperm & Hs);
    [done|by apply get_file_name_c_string|].
  exists l'. split_and!; [|done..]. unfold follow_entry. rewrite Hh, Hd. cbn [negb]. unfold ftell. rewrite bind_gets. cbn [pos].
  rewrite (bind_ok _ _ _ _ _ (fseek_at p _ Ho)), (bind_ok _ _ _ _ _ Hf).
  unfold bind, lift, init_node. rewrite E. by rewrite (fseek_at _ p Hp).
Qed.

(** follow() started at the entries of a directory adds its nodes, sorted, and
    terminates. *)
Lemma follow_correct p l : read_as p l ->
  exists F, forall f children, (F <= f)%nat -> Forall name_ok children ->
  exists l' l1 p', follow f children bpb (mkDisk image p) = Ok (l', mkDisk image p') /\
    recovered_list l l1 /\ l' ≡ₚ l1 ++ children /\ Forall name_ok l1 /\ (sorted children -> sorted l').
Proof.
  induction 1 as [p b Hb Hn|p b l Hb Hn Hh Hst IH|p b c l Hb Hn Hh Hd Hc Hst IH|p b sub l Hb Hn Hh Hd Hsub IHs Hst IH].
  - exists 1%nat. intros [|f] children Hf Hc; [lia|]. exists children, [], (p + SIZEOF_ENTRY).
    split_and!; [|constructor|done|constructor|done]. cbn [follow].
    rewrite (bind_ok _ _ _ _ _ (fread_at _ _ _ Hb)). cbv zeta. by rewrite Hn.
  - destruct IH as [F IH]. exists (S F). intros [|f] children Hf Hc; [lia|].
    rewrite (follow_next p b f children Hb Hn). unfold follow_entry. rewrite Hh. apply (IH f children); [lia|done].
  - destruct IH as [F IH]. exists (S F). intros [|f] children Hf Hok; [lia|].
    pose proof (read_range _ _ Hst) as Hr. pose proof (bytes_at_bytes _ _ _ Hb) as Hbb.
    destruct (follow_file_at children _ b c Hok Hr Hbb Hc) as (l1 & E & Hperm & Hs).
    destruct (IH f l1) as (l2 & r & p' & E2 & Hrec & Hp2 & Hok2 & Hs2); [lia|rewrite Hperm; by constructor; [apply get_file_name_c_string|]|].
    exists l2, (file_node (get_file_name (decode_entry b)) c :: r), p'.
    split_and!; [| |by rewrite Hp2, Hperm, <- Permutation_middle| |intros _; by apply Hs2].
    + rewrite (follow_next p b f children Hb Hn). unfold follow_entry. rewrite Hh, Hd. cbn [negb].
      by rewrite (bind_ok _ _ _ _ _ E).
    + constructor; [constructor|done].
    + constructor; [by apply get_file_name_c_string|done].
  - destruct IHs as [F1 IHs], IH as [F2 IH]. exists (S (F1 + F2)). intros [|f] children Hf Hok; [lia|].
    pose proof (read_range _ _ Hst) as Hr. pose proof (read_range _ _ Hsub) as Ho.
    pose proof (bytes_at_bytes _ _ _ Hb) as Hbb.
    destruct (IHs f []) as (sl & s1 & q & Es & Hrs & Hps & _ & Hss); [lia|constructor|].
    destruct (follow_dir_at f children (p + SIZEOF_ENTRY) q b sl Hok Hr Hbb Hh Hd Ho Es) as (l1 & E & Hperm & Hs).
    destruct (IH f l1) as (l2 & r & p' & E2 & Hrec & Hp2 & Hok2 & Hs2); [lia|rewrite Hperm; by constructor; [apply get_file_name_c_string|]|].
    exists l2, (directory_node (get_file_name (decode_entry b)) sl :: r), p'.
    split_and!; [| |by rewrite Hp2, Hperm, <- Permutation_middle| |intros _; by apply Hs2].
    + by rewrite (follow_next p b f children Hb Hn), (bind_ok _ _ _ _ _ E).
    + constructor; [|done]. econstructor; [exact Hrs|by rewrite Hps, app_nil_r|].
      apply Hss. intros i j x y _ Hx. by rewrite lookup_nil in Hx.
    + constructor; [by apply get_file_name_c_string|done].
Qed.
End Recovery.

(** ** The directory tree *)

Definition file_a : node := file_node [97] [1; 2; 3].
Definition file_b : node := file_node [98; 46; 99] [4].

Lemma demo_names : Forall name_ok [file_a] /\ name_ok file_b /\ c_string [97].
Proof. repeat constructor; cbn; lia. Qed.

(** add_child_directory_tree() terminates without leaving the array, adds
    exactly the given child, and leaves the children sorted by name, whatever
    their order was before; and the binary search of get_child() on the result
    terminates, finds a child with a given name if the new child or one of the old
    ones has it, and answers NULL only if none has. *)
Theorem dirtree_children l c name :
  Forall name_ok l -> name_ok c -> c_string name ->
  exists l' r, add_child_directory_tree l c = Ok l' /\ l' ≡ₚ c :: l /\ sorted l' /\
    get_child l' name = Ok r /\
    match r with
    | Some n => n ∈ c :: l /\ node_name n = name
    | None => forall n, n ∈ c :: l -> node_name n <> name
    end.
Proof.
  intros Hl Hc Hn. destruct (add_child_correct l c Hl Hc) as (l' & E & Hp & Hs).
  assert (Forall name_ok l') as Hl' by (rewrite Hp; by constructor).
  destruct (get_child_correct l' name Hl' Hn Hs) as (r & Er & Hr).
  exists l', r. do 4 (split; [done|]). destruct r; setoid_rewrite Hp in Hr; done.
Qed.

Lemma dirtree_children_witness :
  exists l' r, add_child_directory_tree [file_b] file_a = Ok l' /\ l' ≡ₚ file_a :: [file_b] /\ sorted l' /\
    get_child l' [98; 46; 99] = Ok r /\
    match r with
    | Some n => n ∈ file_a :: [file_b] /\ node_name n = [98; 46; 99]
    | None => forall n, n ∈ file_a :: [file_b] -> node_name n <> [98; 46; 99]
    end.
Proof. apply (dirtree_children [file_b] file_a [98; 46; 99]); repeat constructor; cbn; lia. Defined.

(** create_directory_tree() on a place where nothing exists creates
    directories before their contents, so that no call fails, and adds exactly
    the paths of the tree with their contents. *)
Theorem dirtree_create n s :
  creatable n -> (forall k, under (node_name n) k -> s !! k = None) ->
  create_directory_tree n s = Ok (tt, list_to_map (tree_entries n []) ∪ s).
Proof. intros Hc Hf. apply create_correct; [done|by left|done]. Qed.

Lemma dirtree_create_witness :
  create_directory_tree (directory_node [82] [file_a; file_b]) ∅ =
  Ok (tt, list_to_map (tree_entries (directory_node [82] [file_a; file_b]) []) ∪ ∅).
Proof.
  apply (dirtree_create (directory_node [82] [file_a; file_b]) ∅); [|intros k _; apply lookup_empty].
  repeat constructor; try discriminate; unfold no_slash, SLASH; set_solver.
Defined.

(** C14: The program test_tree.  For an input file whose lines spell files by
    their paths (path:contents), the program builds exactly those files: if some
    file cannot be added, because its path exists or leads through a file, it
    ends with an assertion failure or abort; otherwise it prints the tree of
    those files and their directories, with the children of every directory
    sorted and without duplicates, and in the new output directory a path below ROOT holds a file with the contents of its
    line, or a directory if it is the beginning of a file's path, or nothing. *)
Theorem test_tree_correct files :
  Forall file_ok files ->
  match build (look []) files with
  | None => test_tree_main true (mjoin (print_file <$> files)) = Err AssertFail
  | Some m =>
      exists l s, test_tree_main true (mjoin (print_file <$> files)) = Ok (print_directory_tree (directory_node STR_ROOT l), s) /\
        wf_dir l /\ (forall q, look l q = m q) /\ (forall q, Forall file_name q -> s !! path_string (STR_ROOT :: q) = m q) /\
        (forall k, is_Some (s !! k) -> exists q, k = path_string (STR_ROOT :: q) /\ is_Some (m q))
  end.
Proof.
  intros Hok. pose proof (read_files_spec files [] (look []) (S (length (mjoin (print_file <$> files)))) Hok wf_dir_nil (fun _ => eq_refl)) as H.
  unfold test_tree_main. change (init_directory_node None) with (directory_node STR_ROOT []). cbv iota.
  assert (length files < S (length (mjoin (print_file <$> files))))%nat as Hlen by (by apply Nat.lt_succ_r, print_files_length).
  destruct (build (look []) files) as [m|] eqn:E; [|by rewrite (H Hlen)].
  destruct (H Hlen) as (l & -> & Hw & Hl). cbn [rbind]. clear H.
  assert (Forall creatable l) as Hc.
  { apply look_creatable; [done|]. intros q Hq. rewrite Hl in Hq. destruct (build_paths _ _ _ _ E Hok Hq) as [H|H].
    - rewrite look_empty in H. by destruct q.
    - eapply Forall_impl; [exact H|]. by intros x ([] & ? & _). }
  assert (creatable (directory_node STR_ROOT l)) as Hroot.
  { constructor; [by repeat split|unfold no_slash, STR_ROOT, SLASH; set_solver|by destruct Hw|done]. }
  unfold create_directory_tree. rewrite create_correct; [|done|by left|intros; apply lookup_empty]. cbn [rbind].
  exists l. eexists. split; [reflexivity|]. split; [done|]. split; [done|]. rewrite map_union_empty, tree_entries_dir. cbn [join_path].
  assert (forall q, Forall (fun x => ordinary x /\ no_slash x) q ->
    (list_to_map ((STR_ROOT, FsDir) :: entries_list l STR_ROOT) : fs) !! path_string (STR_ROOT :: q) = m q) as Hlook.
  { intros q Hq. rewrite <- Hl. cbn [list_to_map foldr]. destruct q as [|x q]; [by rewrite lookup_insert_eq|].
    rewrite lookup_insert_ne by (symmetry; by apply path_string_under). by apply entries_look. }
  split.
  - intros q Hq. apply Hlook. eapply Forall_impl; [exact Hq|]. by intros x ([] & ? & _).
  - intros k [v Hk]. pose proof Hk as Hk'. apply elem_of_list_to_map_2 in Hk'.
    destruct (tree_entries_path (directory_node STR_ROOT l) [] k v) as (q & -> & Hq); [by rewrite tree_entries_dir|done|].
    exists q. split; [done|]. exists v. rewrite <- Hlook; done.
Qed.

(** a/b:x, c:yz and a/d: *)
Definition demo_files : list (list (list Z) * list Z) := [([[97]; [98]], [120]); ([[99]], [121; 122]); ([[97]; [100]], [])].

Lemma demo_files_ok : Forall file_ok demo_files.
Proof.
  repeat (apply Forall_cons; split; [|]); [..|by apply Forall_nil].
  all: split; [discriminate|]; split; [|split; [repeat constructor; cbn; lia|cbn; set_solver]].
  all: repeat (apply Forall_cons; split; [|]); [..|by apply Forall_nil].
  all: split; [split; [repeat constructor; lia|unfold no_slash, SLASH; set_solver]|].
  all: split; [repeat split; discriminate|unfold COLON; set_solver].
Qed.

Lemma test_tree_correct_witness :
  exists m, build (look []) demo_files = Some m /\ m [[97]; [98]] = Some (FsFile [120; 10]) /\ m [[97]] = Some FsDir /\ m [[98]] = None /\
  exists l s, test_tree_main true (mjoin (print_file <$> demo_files)) = Ok (print_directory_tree (directory_node STR_ROOT l), s) /\
    wf_dir l /\ (forall q, look l q = m q) /\ (forall q, Forall file_name q -> s !! path_string (STR_ROOT :: q) = m q) /\
    (forall k, is_Some (s !! k) -> exists q, k = path_string (STR_ROOT :: q) /\ is_Some (m q)).
Proof.
  pose proof (test_tree_correct demo_files demo_files_ok) as H.
  destruct (build (look []) demo_files) as [m|] eqn:E; [|exfalso; revert E; vm_compute; discriminate].
  exists m. split; [reflexivity|]. split; [|split; [|split; [|exact H]]]; clear H; revert E; vm_compute; intros [= <-]; reflexivity.
Defined.

(** A file under a file, and a file twice. *)
Example test_tree_conflicts :
  test_tree_main true (mjoin (print_file <$> [([[97]], []); ([[97]; [98]], [])])) = Err AssertFail /\
  test_tree_main true (mjoin (print_file <$> [([[97]], []); ([[97]], [120])])) = Err AssertFail.
Proof. split; vm_compute; reflexivity. Qed.

(** ** The volume *)

(** get_file_name() inverts the padding of a short name: a base of at most
    8 and an extension of at most 3 bytes without spaces come back as
    base.ext, or the base alone, and fit the 13-byte buffer. *)
Theorem fat16_short_name base ext attr res hs tm dt fc sz :
  (length base <= 8)%nat -> (length ext <= 3)%nat ->
  Forall (fun c => c <> 32 /\ c <> DELETED /\ c <> 0) base -> Forall (fun c => c <> 32 /\ c <> 0) ext ->
  let entry := mkEntry (pad 8 base) (pad 3 ext) attr res hs tm dt fc sz in
  get_file_name entry = base ++ match ext with [] => [] | _ => 46 :: ext end /\
  (length (get_file_name entry) + 1 <= 13)%nat.
Proof.
  intros Hb He Fb Fe entry. unfold entry. rewrite get_file_name_short by done. split; [done|].
  rewrite length_app. destruct ext; simpl in *; lia.
Qed.

Definition demo_entry : directory_entry_t := mkEntry (pad 8 [65; 66]) (pad 3 [67]) 32 [] 0 [] [] 2 3.

Lemma fat16_short_name_witness :
  get_file_name demo_entry = [65; 66; 46; 67] /\ (length (get_file_name demo_entry) + 1 <= 13)%nat.
Proof.
  apply (fat16_short_name [65; 66] [67] 32 [] 0 [] [] 2 3); [simpl; lia..|repeat constructor; done|repeat constructor; done].
Defined.

(** ** The layout of a volume

    The disk starts with the sector of the partition table; the volume follows
    it.  Its first sectors are reserved, then come the tables, the root directory
    and the clusters, which are numbered from 2. *)
Section Layout.
Variable image : list Z.

Definition byte (o : Z) : Z := nth (Z.to_nat o) image 0.
Definition word (o : Z) : Z := byte o + 256 * byte (o + 1).

(** The parameters of the volume, 11 bytes into its first sector. *)
Definition sector_bytes : Z := word (512 + 11).
Definition cluster_sectors : Z := byte (512 + 13).
Definition first_sectors : Z := word (512 + 14).
Definition tables : Z := byte (512 + 16).
Definition root_entries : Z := word (512 + 17).
Definition table_sectors : Z := word (512 + 22).

Definition root_start : Z := sector_bytes * (1 + first_sectors + tables * table_sectors).
Definition cluster_start (n : Z) : Z := root_start + 32 * root_entries + sector_bytes * cluster_sectors * (n - 2).

(** The image holds the bytes [l] from position [p] on. *)
Definition holds (p : Z) (l : list Z) : Prop := 0 <= p /\ forall i b, l !! i = Some b -> image !! (Z.to_nat p + i)%nat = Some b.

(** A directory entry: name and extension padded with spaces, the attributes, 14
    bytes of times and the like, the first cluster and the size in bytes. *)
Definition short_entry (base ext : list Z) (attr : Z) (times : list Z) (cluster size : Z) : list Z :=
  pad 8 base ++ pad 3 ext ++ [attr] ++ times ++ [cluster mod 256; cluster / 256] ++
  [size mod 256; size / 256 mod 256; size / 65536 mod 256; size / 16777216].

(** A name: some characters that are neither 0 nor a space. *)
Definition name_part (n : nat) (s : list Z) : Prop := (length s <= n)%nat /\ Forall (fun c => c <> 0 /\ c <> 32) s.

(** The name of the file; a character 0xE5, which marks a deleted file, is shown as [?]. *)
Definition shown_name (base ext : list Z) : list Z :=
  ((fun c => if decide (c = 0xE5) then 63 else c) <$> base) ++ match ext with [] => [] | _ => 46 :: ext end.

(** Entries that recover passes over: a dot as first or second character, no
    attribute, or one of hidden (bit 1), system (bit 2) and volume label (bit 3). *)
Definition passed_over (c0 c1 attr : Z) : Prop :=
  c0 = 46 \/ c1 = 46 \/ attr = 0 \/ Z.testbit attr 1 = true \/ Z.testbit attr 2 = true \/ Z.testbit attr 3 = true.

Record entry_at (p : Z) (base ext : list Z) (attr cluster size : Z) : Prop := {
  ea_base : name_part 8 base /\ base <> [];
  ea_ext : name_part 3 ext;
  ea_visible : ~ passed_over (nth 0 (pad 8 base) 0) (nth 1 (pad 8 base) 0) attr;
  ea_cluster : 2 <= cluster < 2 ^ 16;
  ea_size : 0 <= size < 2 ^ 32;
  ea_bytes : exists times, length times = 14%nat /\ holds p (short_entry base ext attr times cluster size)
}.

(** The directory at position [p] lists the nodes [l]: a zero byte ends it; the
    data of a file and the entries of a directory (bit 4) lie in one piece from
    the start of its first cluster on; no file is empty. *)
Inductive stored : Z -> list node -> Prop :=
  | stored_end p : 0 <= p -> p + 32 <= Z.of_nat (length image) -> byte p = 0 -> stored p []
  | stored_hidden p l : 0 <= p -> p + 32 <= Z.of_nat (length image) -> byte p <> 0 -> byte p <> 32 ->
      passed_over (byte p) (byte (p + 1)) (byte (p + 11)) -> stored (p + 32) l -> stored p l
  | stored_file p base ext attr cluster c l :
      entry_at p base ext attr cluster (Z.of_nat (length c)) -> Z.testbit attr 4 = false -> c <> [] ->
      holds (cluster_start cluster) c -> stored (p + 32) l -> stored p (file_node (shown_name base ext) c :: l)
  | stored_dir p base ext attr cluster size sub l :
      entry_at p base ext attr cluster size -> Z.testbit attr 4 = true ->
      stored (cluster_start cluster) sub -> stored (p + 32) l -> stored p (directory_node (shown_name base ext) sub :: l).

Hypothesis Hbytes : Forall (fun b => 0 <= b < 256) image.
Hypothesis Hsize : Z.of_nat (length image) < 2 ^ 63.

Lemma byte_lookup p : 0 <= p < Z.of_nat (length image) -> image !! Z.to_nat p = Some (byte p).
Proof. intros Hp. unfold byte. destruct (lookup_lt_is_Some_2 image (Z.to_nat p)) as [b E]; [lia|]. by rewrite E, (nth_lookup_Some _ _ _ _ E). Qed.

Lemma image_byte_range o : 0 <= byte o < 256.
Proof.
  unfold byte. destruct (nth_in_or_default (Z.to_nat o) image 0) as [Hin|E]; [|lia].
  rewrite Forall_forall in Hbytes. by apply Hbytes, list_elem_of_In.
Qed.

Lemma holds_bytes p l : holds p l -> l <> [] -> bytes_at image p (Z.of_nat (length l)) l.
Proof.
  intros [Hp H] Hne. split; [done|]. split; [destruct l; [done|cbn [length]; lia]|]. split; [done|]. rewrite Nat2Z.id. apply list_eq. intros i.
  destruct (l !! i) as [b|] eqn:E; [|apply lookup_ge_None_1 in E; by rewrite lookup_take_ge].
  pose proof (lookup_lt_Some _ _ _ E). rewrite lookup_take_lt, lookup_drop by done. by apply H.
Qed.

(** The bytes of the image from position [p] on, one by one. *)
Lemma bytes_lookup p n b i : bytes_at image p n b -> (i < length b)%nat -> b !! i = Some (byte (p + Z.of_nat i)).
Proof.
  intros Hb Hi. pose proof (bytes_at_end _ _ _ _ Hb). destruct Hb as (Hp & Hn & Hl & <-). rewrite length_take, length_drop in Hi.
  rewrite lookup_take_lt, lookup_drop by lia. rewrite <- byte_lookup by lia. f_equal. lia.
Qed.

Lemma image_slice p n : 0 <= p -> 0 < n -> p + n <= Z.of_nat (length image) ->
  bytes_at image p n (take (Z.to_nat n) (drop (Z.to_nat p) image)).
Proof. intros Hp Hn Hl. split; [done|]. split; [done|]. split; [|done]. rewrite length_take, length_drop. lia. Qed.

Lemma field_lookup (b : list Z) o x : b !! o = Some x -> field b o 1 = [x].
Proof. intros E. unfold field. by rewrite (drop_S _ _ _ E). Qed.

Lemma field_lookup2 (b : list Z) o x y : b !! o = Some x -> b !! S o = Some y -> field b o 2 = [x; y].
Proof. intros E E'. unfold field. by rewrite (drop_S _ _ _ E), (drop_S _ _ _ E'). Qed.

(** *** The parameters *)

Lemma parameters b : bytes_at image MASTER_BOOT_RECORD_SIZE SIZEOF_BPB b ->
  let bpb := decode_bpb b in
  bytes_per_sector bpb = sector_bytes /\ sectors_per_cluster bpb = cluster_sectors /\ reserved_sectors bpb = first_sectors /\
  num_fats bpb = tables /\ max_root_entries bpb = root_entries /\ sectors_per_fat bpb = table_sectors.
Proof.
  intros Hb. assert (Hl : length b = 51%nat) by (destruct Hb as (_ & _ & Hl & _); unfold SIZEOF_BPB in Hl; lia).
  assert (H1 : forall o, (o < 51)%nat -> le (field b o 1) = byte (0x20B + Z.of_nat o)).
  { intros o Ho. rewrite (field_lookup b o _ (bytes_lookup _ _ _ o Hb ltac:(lia))). cbn [le]. unfold MASTER_BOOT_RECORD_SIZE. lia. }
  assert (H2 : forall o, (S o < 51)%nat -> le (field b o 2) = word (0x20B + Z.of_nat o)).
  { intros o Ho. rewrite (field_lookup2 b o _ _ (bytes_lookup _ _ _ o Hb ltac:(lia)) (bytes_lookup _ _ _ (S o) Hb ltac:(lia))). cbn [le].
    unfold word, MASTER_BOOT_RECORD_SIZE. replace (0x20B + Z.of_nat (S o)) with (0x20B + Z.of_nat o + 1) by lia. lia. }
  unfold decode_bpb. cbn [bytes_per_sector sectors_per_cluster reserved_sectors num_fats max_root_entries sectors_per_fat].
  rewrite !H1, !H2 by lia. done.
Qed.

Lemma word_range o : 0 <= word o < 65536.
Proof. unfold word. pose proof (image_byte_range o). pose proof (image_byte_range (o + 1)). lia. Qed.

Lemma layout_ranges : 0 <= sector_bytes < 65536 /\ 0 <= cluster_sectors < 256 /\ 0 <= root_entries < 65536 /\
  0 <= 1 + first_sectors + tables * table_sectors < 2 ^ 25 /\ 0 <= root_start < 2 ^ 41.
Proof.
  pose proof (word_range (512 + 11)). pose proof (image_byte_range (512 + 13)). pose proof (word_range (512 + 14)). pose proof (image_byte_range (512 + 16)).
  pose proof (word_range (512 + 17)). pose proof (word_range (512 + 22)). fold sector_bytes cluster_sectors first_sectors tables root_entries table_sectors in *.
  assert (0 <= 1 + first_sectors + tables * table_sectors < 2 ^ 25) by nia. unfold root_start. nia.
Qed.

Lemma root_location b : bytes_at image MASTER_BOOT_RECORD_SIZE SIZEOF_BPB b -> get_root_directory_location (decode_bpb b) = root_start.
Proof.
  intros Hb. destruct (parameters b Hb) as (E1 & _ & E3 & E4 & _ & E6). unfold get_root_directory_location. rewrite E1, E3, E4, E6.
  destruct layout_ranges as (R1 & _ & _ & R2 & R3). unfold root_start in *. pose proof (image_byte_range (512 + 16)) as Rt. pose proof (word_range (512 + 22)) as Rs.
  fold tables in Rt. fold table_sectors in Rs. rewrite (wrapU_small _ (tables * table_sectors)) by nia. rewrite (wrapU_small _ (1 + _ + _)) by lia.
  rewrite wrapU_small by lia. lia.
Qed.

Lemma cluster_location b n : bytes_at image MASTER_BOOT_RECORD_SIZE SIZEOF_BPB b -> 2 <= n < 2 ^ 16 ->
  get_offset_from_cluster n (decode_bpb b) = cluster_start n.
Proof.
  intros Hb Hn. destruct (parameters b Hb) as (E1 & E2 & _ & _ & E5 & _). unfold get_offset_from_cluster, cluster_start.
  rewrite (root_location b Hb), E1, E2, E5. destruct layout_ranges as (R1 & R2 & R3 & _ & R4). rewrite (wrapU_small _ (n - 2)) by lia.
  assert (0 <= (n - 2) * cluster_sectors < 2 ^ 24) by nia. rewrite (wrapU_small _ ((n - 2) * _)) by lia. unfold SIZEOF_ENTRY.
  assert (0 <= (n - 2) * cluster_sectors * sector_bytes < 2 ^ 40) by nia. rewrite wrapU_small by lia. lia.
Qed.

(** *** Directory entries *)

Lemma length_pad n s : (length s <= n)%nat -> length (pad n s) = n.
Proof. intros H. unfold pad. rewrite length_app, length_replicate. lia. Qed.

Lemma decode_short base ext attr times cluster size :
  (length base <= 8)%nat -> (length ext <= 3)%nat -> length times = 14%nat -> 0 <= size < 2 ^ 32 ->
  exists r1 r2 r3 r4, decode_entry (short_entry base ext attr times cluster size) =
    mkEntry (pad 8 base) (pad 3 ext) attr r1 r2 r3 r4 cluster size.
Proof.
  intros Hb He Ht Hs. apply length_pad in Hb, He. unfold short_entry. revert Hb He. generalize (pad 8 base) (pad 3 ext). intros f e Hb He.
  do 8 (destruct f as [|? f]; [done|]). destruct f; [|done]. do 3 (destruct e as [|? e]; [done|]). destruct e; [|done].
  do 14 (destruct times as [|? times]; [done|]). destruct times; [|done]. do 4 eexists. unfold decode_entry, field. cbn [app drop take le].
  f_equal; [lia|pose proof (Z.div_mod cluster 256 ltac:(lia)); lia|].
  pose proof (Z.div_mod size 256 ltac:(lia)). pose proof (Z.div_mod (size / 256) 256 ltac:(lia)). pose proof (Z.div_mod (size / 65536) 256 ltac:(lia)).
  pose proof (Z.div_div size 256 256 ltac:(lia) ltac:(lia)). pose proof (Z.div_div size 65536 256 ltac:(lia) ltac:(lia)).
  change (256 * 256) with 65536 in *. change (65536 * 256) with 16777216 in *. lia.
Qed.

Lemma short_entry_length base ext attr times cluster size :
  (length base <= 8)%nat -> (length ext <= 3)%nat -> length times = 14%nat -> length (short_entry base ext attr times cluster size) = 32%nat.
Proof. intros Hb He Ht. unfold short_entry. rewrite !length_app, !length_pad, Ht by done. done. Qed.

Lemma filename_loop_shown a r : Forall (fun c => c <> 0 /\ c <> 32) a ->
  filename_loop (a ++ 32 :: r) = (fun c => if decide (c = 0xE5) then 63 else c) <$> a /\
  filename_loop a = (fun c => if decide (c = 0xE5) then 63 else c) <$> a.
Proof.
  induction 1 as [|c a [_ Hs] _ [IH1 IH2]]; [done|]. cbn [app filename_loop fmap list_fmap]. rewrite (proj2 (Z.eqb_neq _ _) Hs), IH1, IH2.
  unfold DELETED. destruct (Z.eqb_spec c 0xE5); [by rewrite decide_True|by rewrite decide_False].
Qed.

Lemma name_shown base ext attr r1 r2 r3 r4 cluster size : name_part 8 base -> name_part 3 ext ->
  get_file_name (mkEntry (pad 8 base) (pad 3 ext) attr r1 r2 r3 r4 cluster size) = shown_name base ext.
Proof.
  intros [Hb Fb] [He Fe]. unfold get_file_name, file_name_buffer. cbn [filename extension].
  assert (filename_loop (pad 8 base) = (fun c => if decide (c = 0xE5) then 63 else c) <$> base) as ->.
  { destruct (pad_cases 8 base Hb) as [-> |[r ->]]; [by apply (filename_loop_shown base [])|by apply filename_loop_shown]. }
  assert ((if negb (byte_of (pad 3 ext) 0 =? 32) then 46 :: extension_loop (pad 3 ext) else []) = match ext with [] => [] | _ => 46 :: ext end) as ->.
  { destruct ext as [|x ext]; [done|]. assert (Hx : x <> 32) by (by inversion_clear Fe as [|? ? [_ ?]]).
    change (byte_of (pad 3 (x :: ext)) 0) with x. rewrite (proj2 (Z.eqb_neq _ _) Hx). cbn [negb]. f_equal.
    assert (Forall (fun c => c <> 32) (x :: ext)) as F by (eapply Forall_impl; [exact Fe|]; naive_solver).
    destruct (pad_cases 3 (x :: ext) He) as [-> |[r ->]]; [by apply (extension_loop_word _ [])|by apply extension_loop_word]. }
  apply c_str_id, Forall_app. split.
  - apply Forall_fmap. eapply Forall_impl; [exact Fb|]. intros c [Hc _]. cbn. by case_decide.
  - destruct ext as [|x ext]; [constructor|]. constructor; [done|]. eapply Forall_impl; [exact Fe|]. naive_solver.
Qed.

Lemma attribute_bits attr : 0 <= attr < 256 ->
  negb (Z.land attr (Z.lor HIDDEN (Z.lor SYSTEM VOLUME_LABEL)) =? 0) = Z.testbit attr 1 || (Z.testbit attr 2 || Z.testbit attr 3) /\
  negb (Z.land attr SUBDIRECTORY =? 0) = Z.testbit attr 4.
Proof.
  intros Ha. assert (H : forallb (fun n => let a := Z.of_nat n in
    Bool.eqb (negb (Z.land a (Z.lor HIDDEN (Z.lor SYSTEM VOLUME_LABEL)) =? 0)) (Z.testbit a 1 || (Z.testbit a 2 || Z.testbit a 3)) &&
    Bool.eqb (negb (Z.land a SUBDIRECTORY =? 0)) (Z.testbit a 4)) (seq 0 256) = true) by (vm_compute; reflexivity).
  rewrite forallb_forall in H. specialize (H (Z.to_nat attr) ltac:(apply in_seq; lia)). cbv zeta in H. rewrite Z2Nat.id in H by lia.
  apply andb_true_iff in H as [H1 H2]. split; by apply Bool.eqb_prop.
Qed.

Lemma hidden_iff e : 0 <= attribute e < 256 ->
  is_hidden e = true <-> passed_over (byte_of (filename e) 0) (byte_of (filename e) 1) (attribute e).
Proof.
  intros Ha. unfold is_hidden, passed_over. rewrite (proj1 (attribute_bits _ Ha)), !orb_true_iff, !Z.eqb_eq. tauto.
Qed.

Lemma nth_byte_of l i : nth i l 0 = byte_of l i.
Proof. unfold byte_of. rewrite <- nth_lookup. done. Qed.

(** An entry on the disk is what the code reads, with its name and attributes. *)
Lemma entry_read p base ext attr cluster size : entry_at p base ext attr cluster size ->
  exists b, bytes_at image p SIZEOF_ENTRY b /\ get_file_name (decode_entry b) = shown_name base ext /\ shown_name base ext <> [] /\
    is_hidden (decode_entry b) = false /\ is_directory (decode_entry b) = Z.testbit attr 4 /\
    first_cluster (decode_entry b) = cluster /\ file_size (decode_entry b) = size.
Proof.
  intros [[Hb Hne] He Hv Hc Hs (times & Ht & Hh)]. set (b := short_entry base ext attr times cluster size) in *.
  assert (Hl : length b = 32%nat) by (apply short_entry_length; [apply Hb|apply He|done]).
  assert (Hat : bytes_at image p SIZEOF_ENTRY b).
  { replace SIZEOF_ENTRY with (Z.of_nat (length b)) by (rewrite Hl; done). apply holds_bytes; [done|]. intros E. by rewrite E in Hl. }
  destruct (decode_short base ext attr times cluster size (proj1 Hb) (proj1 He) Ht Hs) as (r1 & r2 & r3 & r4 & E). fold b in E.
  assert (Ha : 0 <= attr < 256).
  { assert (Ea : b !! 11%nat = Some attr).
    { unfold b, short_entry. rewrite app_assoc, lookup_app_r by (rewrite length_app, !length_pad by (apply Hb || apply He); lia).
      rewrite length_app, !length_pad by (apply Hb || apply He). done. }
    rewrite (bytes_lookup _ _ _ 11 Hat ltac:(lia)) in Ea. injection Ea as <-. apply image_byte_range. }
  exists b. split; [done|]. rewrite E. split; [by apply name_shown|]. split; [by destruct base|]. split.
  - apply not_true_is_false. intros Hhid. apply Hv. rewrite !nth_byte_of. by apply (hidden_iff (mkEntry (pad 8 base) (pad 3 ext) attr r1 r2 r3 r4 cluster size)).
  - split; [|done]. unfold is_directory. cbn [attribute]. apply attribute_bits, Ha.
Qed.

Lemma shown_nonempty (b : list Z) c rest : field b 0 8 = c :: rest -> c <> 0 -> c <> 32 -> get_file_name (decode_entry b) <> [].
Proof.
  intros E H0 H32. unfold get_file_name, file_name_buffer, decode_entry. cbn [filename]. rewrite E. cbn [filename_loop app].
  rewrite (proj2 (Z.eqb_neq c 32) H32). cbn [app c_str]. destruct (c =? DELETED); [done|]. by rewrite (proj2 (Z.eqb_neq c 0) H0).
Qed.

(** What the layout says is what the code reads. *)
Lemma stored_read b : bytes_at image MASTER_BOOT_RECORD_SIZE SIZEOF_BPB b -> forall p l, stored p l -> read_as image (decode_bpb b) p l.
Proof.
  intros Hbpb. induction 1 as [p Hp Hl H0|p l Hp Hl H0 H32 Hh Hst IH|p base ext attr cluster c l He Hd Hne Hc Hst IH|p base ext attr cluster size sub l He Hd Hsub IHs Hst IH].
  - pose proof (image_slice p 32 Hp ltac:(lia) Hl) as Hb. set (e := take _ _) in Hb. assert (Hle : length e = 32%nat) by (destruct Hb as (_ & _ & Hle & _); lia).
    apply (read_end _ _ p e Hb). pose proof (bytes_lookup _ _ _ 0 Hb ltac:(lia)) as E. rewrite Z.add_0_r, H0 in E.
    destruct e as [|x e]; [done|]. injection E as ->. done.
  - pose proof (image_slice p 32 Hp ltac:(lia) Hl) as Hb. set (e := take _ _) in Hb. assert (Hle : length e = 32%nat) by (destruct Hb as (_ & _ & Hle & _); lia).
    assert (Hi : forall i, (i < 32)%nat -> e !! i = Some (byte (p + Z.of_nat i))) by (intros i Hi; apply (bytes_lookup _ _ _ i Hb); lia).
    pose proof (Hi 0%nat ltac:(lia)) as E0. pose proof (Hi 1%nat ltac:(lia)) as E1. pose proof (Hi 11%nat ltac:(lia)) as E11. rewrite Z.add_0_r in E0.
    assert (Ef : exists rest, field e 0 8 = byte p :: byte (p + 1) :: rest).
    { unfold field. rewrite (drop_S _ _ _ E0), (drop_S _ _ _ E1). by eexists. } destruct Ef as [rest Ef].
    apply (read_hidden _ _ p e _ Hb); [by eapply shown_nonempty| |done]. apply hidden_iff; unfold decode_entry; cbn [attribute filename];
      rewrite (field_lookup _ _ _ E11); cbn [le]; rewrite Z.mul_0_r, Z.add_0_r; [apply image_byte_range|]. by rewrite Ef.
  - destruct (entry_read _ _ _ _ _ _ He) as (e & Hb & En & Hn & Hv & Hdir & Ec & Es). rewrite <- En in *.
    apply read_file; [done..|congruence| |done]. rewrite Ec, Es, (cluster_location b cluster Hbpb (ea_cluster _ _ _ _ _ _ He)). by apply holds_bytes.
  - destruct (entry_read _ _ _ _ _ _ He) as (e & Hb & En & Hn & Hv & Hdir & Ec & Es). rewrite <- En in *.
    apply read_dir; [done..|congruence| |done]. by rewrite Ec, (cluster_location b cluster Hbpb (ea_cluster _ _ _ _ _ _ He)).
Qed.
End Layout.

(** C9: recovery.  If the root directory of a FAT16 image, at the place that the
    parameters of the volume give, lists the nodes [l] (nested directories
    included, names of eight and three characters, every file and directory in
    one piece from its first cluster on), then with enough steps recover rebuilds
    the same tree, the children of every directory sorted by name. *)
Theorem fat16_recover image l :
  Forall (fun b => 0 <= b < 256) image -> 512 + 62 <= Z.of_nat (length image) < 2 ^ 63 -> stored image (root_start image) l ->
  exists F, forall f, (F <= f)%nat ->
  exists t, recover f image = Ok t /\ recovered (directory_node STR_ROOT l) t.
Proof.
  intros Hb [Hlen Hl] Hst. pose proof (image_slice image 0x20B 51 ltac:(lia) ltac:(lia) Hlen) as Hbpb.
  set (b := take _ _) in Hbpb. pose proof (stored_read image Hb b Hbpb _ _ Hst) as Hrd.
  destruct (follow_correct image (decode_bpb b) Hb Hl _ _ Hrd) as [F HF].
  exists F. intros f Hf. destruct (HF f [] Hf (Forall_nil_2 _)) as (l' & l1 & p' & E & Hr & Hp & _ & Hs).
  exists (directory_node STR_ROOT l'). split.
  - unfold recover. rewrite (bind_ok _ _ _ _ _ (fseek_at image 0 MASTER_BOOT_RECORD_SIZE ltac:(vm_compute; by split))).
    rewrite (bind_ok _ _ _ _ _ (fread_at _ _ _ _ Hbpb)). cbv zeta. rewrite (root_location image Hb b Hbpb).
    rewrite (bind_ok _ _ _ _ _ (fseek_at image _ _ (read_range image _ Hl _ _ Hrd))). by rewrite E.
  - econstructor; [exact Hr|by rewrite Hp, app_nil_r|]. apply Hs. intros i j x y _ Hx. by rewrite lookup_nil in Hx.
Qed.

(** A volume with 32-byte sectors: a file A.TXT, and a directory D with a file B. *)
Definition demo_image : list Z :=
  replicate 523 0 ++ [32; 0; 1; 18; 0; 0; 3; 0; 0; 0; 0; 0; 0] ++ replicate 38 0 ++ replicate 34 0 ++
  short_entry [68] [] 16 (replicate 14 0) 3 0 ++ short_entry [65] [84; 88; 84] 32 (replicate 14 0) 2 3 ++ replicate 32 0 ++
  ([10; 20; 30] ++ replicate 29 0) ++ (short_entry [66] [] 32 (replicate 14 0) 5 2 ++ replicate 32 0) ++ ([7; 8] ++ replicate 30 0).
Definition demo_tree : list node := [directory_node [68] [file_node [66] [7; 8]]; file_node [65; 46; 84; 88; 84] [10; 20; 30]].

(** A decision procedure for [holds]. *)
Definition holds_b (image : list Z) (p : Z) (l : list Z) : bool :=
  (0 <=? p) && bool_decide (take (length l) (drop (Z.to_nat p) image) = l).

Lemma holds_b_sound image p l : holds_b image p l = true -> holds image p l.
Proof.
  unfold holds_b. rewrite andb_true_iff, Z.leb_le, bool_decide_eq_true. intros [Hp E]. split; [done|]. intros i b Hi.
  pose proof (lookup_lt_Some _ _ _ Hi). rewrite <- E, lookup_take_lt, lookup_drop in Hi by done. done.
Qed.

Lemma demo_entry_at p base ext attr cluster size : name_part 8 base -> base <> [] -> name_part 3 ext ->
  ~ passed_over (nth 0 (pad 8 base) 0) (nth 1 (pad 8 base) 0) attr -> 2 <= cluster < 2 ^ 16 -> 0 <= size < 2 ^ 32 ->
  holds_b demo_image p (short_entry base ext attr (replicate 14 0) cluster size) = true -> entry_at demo_image p base ext attr cluster size.
Proof. intros H1 H2 H3 H4 H5 H6 H7. split; [done..|]. exists (replicate 14 0). split; [done|by apply holds_b_sound]. Qed.

Lemma demo_stored : stored demo_image (root_start demo_image) demo_tree.
Proof.
  assert (N : forall n s, (length s <=? n)%nat && forallb (fun c => negb (c =? 0) && negb (c =? 32)) s = true -> name_part n s).
  { intros n s Hs. apply andb_true_iff in Hs as [Hl Hs]. split; [by apply Nat.leb_le|]. apply Forall_forall. intros c Hc.
    rewrite forallb_forall in Hs. specialize (Hs c (proj1 (list_elem_of_In _ _) Hc)). lia. }
  assert (V : forall c0 c1 a, passed_over c0 c1 a -> ((c0 =? 46) || (c1 =? 46) || (a =? 0) || Z.testbit a 1 || Z.testbit a 2 || Z.testbit a 3) = true).
  { intros c0 c1 a. unfold passed_over. rewrite !orb_true_iff, !Z.eqb_eq. tauto. }
  replace (root_start demo_image) with 608 by (by vm_compute). unfold demo_tree.
  apply (stored_dir _ 608 [68] [] 16 3 0).
  - apply demo_entry_at; [by apply N|done|by apply N|by intros H%V|lia|lia|by vm_compute].
  - reflexivity.
  - replace (cluster_start demo_image 3) with 736 by (by vm_compute). apply (stored_file _ 736 [66] [] 32 5 [7; 8]).
    + apply demo_entry_at; [by apply N|done|by apply N|by intros H%V|lia|cbn; lia|by vm_compute].
    + reflexivity.
    + discriminate.
    + apply holds_b_sound. by vm_compute.
    + apply stored_end; [lia|by vm_compute|by vm_compute].
  - apply (stored_file _ 640 [65] [84; 88; 84] 32 2 [10; 20; 30]).
    + apply demo_entry_at; [by apply N|done|by apply N|by intros H%V|lia|cbn; lia|by vm_compute].
    + reflexivity.
    + discriminate.
    + apply holds_b_sound. by vm_compute.
    + apply stored_end; [lia|by vm_compute|by vm_compute].
Qed.

Lemma fat16_recover_witness :
  exists F, forall f, (F <= f)%nat ->
  exists t, recover f demo_image = Ok t /\ recovered (directory_node STR_ROOT demo_tree) t.
Proof.
  apply (fat16_recover demo_image demo_tree).
  - apply Forall_forall. intros x Hx. apply list_elem_of_lookup_1 in Hx as [i Hi].
    assert (forallb (fun b => (0 <=? b) && (b <? 256)) demo_image = true) as H by (vm_compute; reflexivity).
    rewrite forallb_forall in H. specialize (H x). rewrite andb_true_iff, Z.leb_le, Z.ltb_lt in H.
    apply H. apply list_elem_of_In. by eapply list_elem_of_lookup_2.
  - vm_compute. split; [discriminate|reflexivity].
  - apply demo_stored.
Defined.

(** An empty file stops the recovery: fread() of size 0 returns 0, so the
    assertion after it fails whatever the disk holds. *)
Theorem fat16_empty_file_aborts children bpb entry d :
  file_size entry = 0 -> follow_file children bpb entry d = Err AssertFail.
Proof.
  intros Hz. unfold follow_file. rewrite bind_ok with (a := pos d) (s' := d) by done.
  destruct (fseek (get_offset_from_cluster (first_cluster entry) bpb) d) as [[[] d']|] eqn:E.
  - rewrite (bind_ok _ _ _ _ _ E). apply bind_err. unfold fread_assert, bind, fread. rewrite Hz. done.
  - unfold fseek, modify in E. done.
Qed.

Lemma fat16_empty_file_aborts_witness :
  follow_file [] (decode_bpb (drop 523 demo_image)) (mkEntry (pad 8 [65]) (pad 3 []) 32 [] 0 [] [] 0 0) (mkDisk demo_image 640) = Err AssertFail.
Proof.
  apply (fat16_empty_file_aborts [] (decode_bpb (drop 523 demo_image)) (mkEntry (pad 8 [65]) (pad 3 []) 32 [] 0 [] [] 0 0)). reflexivity.
Defined.
