(* ===== verification/MyAsan.v ===== *)
(** * The address sanitizer (signal-handler/myasan.c, util.c)

    malloc() gives every allocation a header page and payload pages of its
    own, inside one region reserved with mmap(), and controls the access to
    them with mprotect().  An access to a page without permission raises
    SIGSEGV, whose handler ends the process with a status code.  The model's
    address space is that region; an access outside it is to an unmapped
    page. *)
From stdpp Require Import prelude gmap list.
From Stdlib Require Import ZArith Lia.
From S2P Require Import Prelude Memory.
Open Scope Z_scope.
Open Scope c_scope.

Definition PAGE_SIZE : Z := 4096.
Definition START_PAGE : Z := Z.shiftl 1 32.
Definition MAX_HEAP_SIZE : Z := Z.shiftl 1 30.
Definition HEADER_MAGIC : Z := 0x0123456789ABCDEF.
Definition NULL : Z := 0.

(** util.c *)
Definition SEG_FAULT : Z := 10.
Definition INVALID_HEAP_ACCESS : Z := 11.
Definition INVALID_FREE : Z := 20.
Definition DOUBLE_FREE : Z := 21.
Definition MEMORY_LEAK : Z := 30.

(** header_t: the offsets of its fields. *)
Definition OFF_MAGIC : Z := 0.
Definition OFF_SIZE : Z := 8.
Definition OFF_ALLOCATED : Z := 16.

(** The statics of the file, the region (mapped, its contents, and whether a
    page may be read and written), and whether check_for_leaks() runs at exit. *)
Record asan := mkAsan {
  is_initialized : bool;
  current_page : Z;
  mapped : bool;
  aram : ram;
  prot : Z -> bool;
  leak_check : bool
}.

Definition asan_initial : asan := mkAsan false NULL false (mkRam 0 ∅) (fun _ => false) false.

(** ** Reports: the process exits with a status code *)

Definition report_seg_fault {A} (address : Z) : M asan A := fail (Exit SEG_FAULT).
Definition report_invalid_heap_access {A} (address : Z) : M asan A := fail (Exit INVALID_HEAP_ACCESS).
Definition report_invalid_free {A} (address : Z) : M asan A := fail (Exit INVALID_FREE).
Definition report_double_free {A} (allocation size : Z) : M asan A := fail (Exit DOUBLE_FREE).
Definition report_memory_leak {A} (allocation size : Z) : M asan A := fail (Exit MEMORY_LEAK).

(** ** The region *)

Definition in_region (s : asan) (a : Z) : bool :=
  mapped s && (START_PAGE <=? a) && (a <? START_PAGE + MAX_HEAP_SIZE).

Definition page_of (a : Z) : Z := a / PAGE_SIZE.

(** mprotect(): the pages of the region that overlap [len] bytes at [addr]; an
    unaligned address is an error without an effect. *)
Definition mprotect (addr len : Z) (rw : bool) : M asan unit := modify (fun s =>
  if addr mod PAGE_SIZE =? 0 then
    mkAsan (is_initialized s) (current_page s) (mapped s) (aram s)
      (fun p => if (page_of addr <=? p) && (p * PAGE_SIZE <? addr + len) && in_region s (p * PAGE_SIZE)
                then rw else prot s p)
      (leak_check s)
  else s).

Definition accessible (s : asan) (a : Z) : bool := in_region s a && prot s (page_of a).

(** The handler of SIGSEGV, installed by asan_init(). *)
Definition sigsegv_handler {A} (addr : Z) : M asan A :=
  s <- get;;
  if negb (is_initialized s) || (current_page s =? NULL) then report_seg_fault addr
  else if (START_PAGE <=? addr) && (addr <? current_page s + PAGE_SIZE) then
    mprotect START_PAGE MAX_HEAP_SIZE false;;;
    report_invalid_heap_access addr
  else report_seg_fault addr.

(** A load and a store of [n] bytes inside one page. *)
Definition ld (n : nat) (a : Z) : M asan Z :=
  s <- get;;
  if accessible s a then ret (load n (aram s) a) else sigsegv_handler a.

Definition st (n : nat) (a v : Z) : M asan unit :=
  s <- get;;
  if accessible s a then
    modify (fun s => mkAsan (is_initialized s) (current_page s) (mapped s) (store n (aram s) a v) (prot s) (leak_check s))
  else sigsegv_handler a.

(** ** myasan.c *)

Definition pages_round_up (size : Z) : Z := u64 (size + PAGE_SIZE - 1) / PAGE_SIZE.

Definition set_header (header_page size : Z) (is_allocated : bool) : M asan unit :=
  mprotect header_page PAGE_SIZE true;;;
  st 8 (header_page + OFF_MAGIC) HEADER_MAGIC;;;
  st 8 (header_page + OFF_SIZE) size;;;
  st 1 (header_page + OFF_ALLOCATED) (b2z is_allocated);;;
  mprotect header_page PAGE_SIZE false.

Definition get_payload (header_page size : Z) : Z :=
  u64 (header_page + PAGE_SIZE + pages_round_up size * PAGE_SIZE - size).

(** The loop of check_for_leaks() over (current_addr, header). *)
Definition leaks_body (v : Z * Z) : M asan (Z * Z + unit) :=
  let '(current_addr, header) := v in
  s <- get;;
  if header <? current_page s then
    let header := current_addr in
    mprotect header PAGE_SIZE true;;;
    size <- ld 8 (header + OFF_SIZE);;
    allocated <- ld 1 (header + OFF_ALLOCATED);;
    if negb (allocated =? 0) then
      mprotect START_PAGE MAX_HEAP_SIZE false;;;
      report_memory_leak (get_payload header size) size
    else
      let current_addr := u64 (header + PAGE_SIZE + pages_round_up size * PAGE_SIZE) in
      mprotect header PAGE_SIZE false;;;
      ret (inl (current_addr, header))
  else ret (inr tt).

Definition check_for_leaks : M asan unit := loopM leaks_body (START_PAGE, START_PAGE).

(** [mmap_result] is what the kernel answered; the util.h assert exits with 1. *)
Definition asan_init (mmap_result : Z) : M asan unit :=
  s <- get;;
  if is_initialized s then ret tt
  else if negb (mmap_result =? START_PAGE) then fail (Exit 1)
  else modify (fun s => mkAsan true mmap_result true (mkRam 0 ∅) (fun _ => false) true).

Definition malloc (mmap_result size : Z) : M asan Z :=
  asan_init mmap_result;;;
  let pages_necessary := pages_round_up size in
  header_page <- gets current_page;;
  mprotect (header_page + PAGE_SIZE) (PAGE_SIZE * pages_necessary) true;;;
  mprotect header_page PAGE_SIZE true;;;
  set_header header_page size true;;;
  mprotect header_page PAGE_SIZE false;;;
  modify (fun s => mkAsan (is_initialized s) (current_page s + PAGE_SIZE * (1 + pages_necessary)) (mapped s)
                     (aram s) (prot s) (leak_check s));;;
  ret (get_payload header_page size).

Definition free (mmap_result ptr : Z) : M asan unit :=
  asan_init mmap_result;;;
  if ptr =? NULL then ret tt
  else if (ptr <? START_PAGE + PAGE_SIZE) || (START_PAGE + MAX_HEAP_SIZE * PAGE_SIZE <? ptr) then
    mprotect START_PAGE MAX_HEAP_SIZE false;;;
    report_invalid_free ptr
  else
    let header := ptr - PAGE_SIZE - (ptr - START_PAGE) mod PAGE_SIZE in
    mprotect header PAGE_SIZE true;;;
    size <- ld 8 (header + OFF_SIZE);;
    magic <- ld 8 (header + OFF_MAGIC);;
    if negb (magic =? HEADER_MAGIC) || negb (get_payload header size =? ptr) then
      mprotect START_PAGE MAX_HEAP_SIZE false;;;
      report_invalid_free ptr
    else
      allocated <- ld 1 (header + OFF_ALLOCATED);;
      if allocated =? 0 then
        mprotect START_PAGE MAX_HEAP_SIZE false;;;
        report_double_free ptr size
      else
        set_header header size false;;;
        mprotect header PAGE_SIZE false;;;
        mprotect (header + PAGE_SIZE) (PAGE_SIZE * pages_round_up size) false.

(** The program's own accesses. *)
Definition user_load (a : Z) : M asan Z := ld 1 a.
Definition user_store (a v : Z) : M asan unit := st 1 a v.
