(* ===== verification/MyAsanProofs.v ===== *)
(** * The address sanitizer: the page discipline

    The heap is described by the list of its allocations, in address order:
    their sizes and whether they are live.  Pages are numbered; [Q0] is the
    first page of the region and [QE] the page after the last. *)
From stdpp Require Import prelude gmap list.
From Stdlib Require Import ZArith Lia.
From S2P Require Import Prelude Memory MyAsan.
Open Scope Z_scope.
Open Scope c_scope.

Definition Q0 : Z := 2 ^ 20.
Definition QE : Z := 2 ^ 20 + 2 ^ 18.

Lemma region_consts : START_PAGE = Q0 * 4096 /\ START_PAGE + MAX_HEAP_SIZE = QE * 4096.
Proof. done. Qed.

(** ** Single operations *)

(** The fields that the page operations leave alone. *)
Record frame (s s' : asan) : Prop := {
  fr_init : is_initialized s' = is_initialized s;
  fr_page : current_page s' = current_page s;
  fr_map : mapped s' = mapped s;
  fr_leak : leak_check s' = leak_check s
}.

Lemma frame_refl s : frame s s.
Proof. done. Qed.

Lemma frame_trans s1 s2 s3 : frame s1 s2 -> frame s2 s3 -> frame s1 s3.
Proof. intros [] []. split; congruence. Qed.

Lemma in_region_page s q off :
  mapped s = true -> Q0 <= q < QE -> 0 <= off < 4096 -> in_region s (q * 4096 + off) = true.
Proof.
  intros Hm Hq Ho. unfold in_region. rewrite Hm. destruct region_consts as [H1 H2].
  rewrite H2, H1. cbn [andb]. apply andb_true_iff. split; [apply Z.leb_le|apply Z.ltb_lt]; lia.
Qed.

Lemma page_of_off q off : 0 <= off < 4096 -> page_of (q * 4096 + off) = q.
Proof. intros H. unfold page_of, PAGE_SIZE. rewrite Z.div_add_l by lia. rewrite (Z.div_small off) by lia. lia. Qed.

Lemma mprotect_spec q n b s :
  mapped s = true ->
  exists s', mprotect (q * 4096) (4096 * n) b s = Ok (tt, s') /\ frame s s' /\ aram s' = aram s /\
             forall p, Q0 <= p < QE -> prot s' p = if decide (q <= p < q + n) then b else prot s p.
Proof.
  intros Hm. eexists. split; [reflexivity|]. unfold PAGE_SIZE. rewrite Z.mod_mul, Z.eqb_refl by lia.
  split; [done|]. split; [done|]. intros p Hp. cbn [prot].
  rewrite <- (Z.add_0_r (q * 4096)), page_of_off by lia.
  rewrite <- (Z.add_0_r (p * 4096)) at 2. rewrite in_region_page by (done || lia). rewrite andb_true_r.
  destruct (decide _).
  - rewrite (proj2 (Z.leb_le _ _)), (proj2 (Z.ltb_lt _ _)) by lia. done.
  - destruct (Z.leb_spec q p); [|done]. rewrite (proj2 (Z.ltb_ge _ _)) by lia. done.
Qed.

Lemma ld_page n q off s :
  mapped s = true -> Q0 <= q < QE -> 0 <= off < 4096 -> prot s q = true ->
  ld n (q * 4096 + off) s = Ok (load n (aram s) (q * 4096 + off), s).
Proof.
  intros Hm Hq Ho Hp. unfold ld, bind, get, accessible.
  by rewrite in_region_page, page_of_off, Hp.
Qed.

Lemma st_page n q off v s :
  mapped s = true -> Q0 <= q < QE -> 0 <= off < 4096 -> prot s q = true ->
  st n (q * 4096 + off) v s =
  Ok (tt, mkAsan (is_initialized s) (current_page s) (mapped s) (store n (aram s) (q * 4096 + off) v) (prot s) (leak_check s)).
Proof.
  intros Hm Hq Ho Hp. unfold st, bind, get, accessible. by rewrite in_region_page, page_of_off, Hp.
Qed.

(** ** Headers *)

Definition header_ok (r : ram) (q size : Z) (live : bool) : Prop :=
  load64 r (q * 4096) = HEADER_MAGIC /\ load64 r (q * 4096 + 8) = size /\
  load 1 r (q * 4096 + 16) = b2z live.

Lemma header_ok_ext r r' q size live :
  header_ok r q size live -> (forall a, q * 4096 <= a < q * 4096 + 17 -> byte_at r' a = byte_at r a) ->
  header_ok r' q size live.
Proof.
  intros (H1 & H2 & H3) He. unfold header_ok. rewrite <- H1, <- H2, <- H3.
  split_and!; apply load_ext; intros; apply He; lia.
Qed.

Lemma set_header_spec q size live s :
  mapped s = true -> Q0 <= q < QE -> 0 <= size < 2 ^ 64 ->
  exists s', set_header (q * 4096) size live s = Ok (tt, s') /\ frame s s' /\
             header_ok (aram s') q size live /\
             (forall a, a < q * 4096 \/ q * 4096 + 17 <= a -> byte_at (aram s') a = byte_at (aram s) a) /\
             forall p, Q0 <= p < QE -> prot s' p = if decide (p = q) then false else prot s p.
Proof.
  intros Hm Hq Hs. unfold set_header, PAGE_SIZE, OFF_MAGIC, OFF_SIZE, OFF_ALLOCATED.
  destruct (mprotect_spec q 1 true s Hm) as (s1 & E1 & F1 & R1 & P1). rewrite Z.mul_1_r in E1.
  rewrite (bind_ok _ _ _ _ _ E1). pose proof F1 as [_ _ M1 _]. rewrite Hm in M1.
  assert (prot s1 q = true) as Hp1 by (rewrite P1 by lia; by rewrite decide_True by lia).
  rewrite (bind_ok _ _ _ _ _ (st_page 8 q 0 HEADER_MAGIC s1 M1 Hq ltac:(lia) Hp1)).
  erewrite bind_ok by (by apply st_page; [..|lia|]). erewrite bind_ok by (by apply st_page; [..|lia|]).
  cbn [is_initialized current_page mapped aram prot leak_check].
  set (r := store 1 _ _ _).
  destruct (mprotect_spec q 1 false (mkAsan (is_initialized s1) (current_page s1) (mapped s1) r (prot s1) (leak_check s1)) M1)
    as (s2 & E2 & F2 & R2 & P2). rewrite Z.mul_1_r in E2.
  exists s2. split_and!; [exact E2| |rewrite R2; cbn [aram]|rewrite R2; cbn [aram]|].
  - destruct F1, F2. by split; cbn in *; congruence.
  - unfold r. unfold header_ok. rewrite Z.add_0_r. split_and!.
    + rewrite load_store_disjoint, load_store_disjoint by lia. by apply load64_store64_same.
    + rewrite load_store_disjoint by lia. by apply load64_store64_same.
    + rewrite load_store_same. by destruct live.
  - intros a Ha. unfold r. rewrite Z.add_0_r. by rewrite !byte_at_store_out, R1 by lia.
  - intros p Hp. rewrite P2 by done. cbn [prot]. destruct (decide (p = q)) as [-> |Hne].
    + by rewrite decide_True by lia.
    + rewrite decide_False by lia. rewrite P1 by done. by rewrite decide_False by lia.
Qed.

(** ** The heap as a list of allocations *)

Definition pages (size : Z) : Z := (size + 4095) / 4096.

Lemma pages_nonneg size : 0 <= size -> 0 <= pages size.
Proof. intros. apply Z.div_pos; lia. Qed.

Lemma pages_round_up_small size : 0 <= size < 2 ^ 63 -> pages_round_up size = pages size.
Proof.
  intros. unfold pages_round_up, PAGE_SIZE, pages. rewrite wrapU_small by lia. f_equal. lia.
Qed.

Lemma pages_bounds size : 0 <= size -> size <= 4096 * pages size < size + 4096.
Proof.
  intros. unfold pages. pose proof (Z.div_mod (size + 4095) 4096 ltac:(lia)).
  pose proof (Z.mod_pos_bound (size + 4095) 4096 ltac:(lia)). lia.
Qed.

Fixpoint npages (bs : list (Z * bool)) : Z :=
  match bs with [] => 0 | (size, _) :: bs => 1 + pages size + npages bs end.

Lemma npages_app a b : npages (a ++ b) = npages a + npages b.
Proof. induction a as [|[sz l] a IH]; cbn; lia. Qed.

Lemma npages_nonneg bs : Forall (fun b => 0 <= b.1) bs -> 0 <= npages bs.
Proof.
  induction 1 as [|[sz l] bs Hb _ IH]; cbn; [lia|]. pose proof (pages_nonneg sz Hb). lia.
Qed.

(** The header page [q] of an allocation and its payload pages. *)
Record block_ok (s : asan) (q size : Z) (live : bool) : Prop := {
  bk_header : header_ok (aram s) q size live;
  bk_closed : prot s q = false;
  bk_payload p : q < p <= q + pages size -> prot s p = live
}.

Record heap_ok (s : asan) (bs : list (Z * bool)) : Prop := {
  hp_init : is_initialized s = true;
  hp_map : mapped s = true;
  hp_sizes : Forall (fun b => 0 <= b.1) bs;
  hp_end : current_page s = (Q0 + npages bs) * 4096;
  hp_room : Q0 + npages bs <= QE;
  hp_blocks pre size live post : bs = pre ++ (size, live) :: post -> block_ok s (Q0 + npages pre) size live;
  hp_rest p : Q0 + npages bs <= p < QE -> prot s p = false;
  hp_zero a : (Q0 + npages bs) * 4096 <= a -> byte_at (aram s) a = 0;
  hp_leak : leak_check s = true
}.

(** Two places in the same list. *)
Lemma split_cases {A} (pre pre' post post' : list A) x x' :
  pre ++ x :: post = pre' ++ x' :: post' ->
  (pre = pre' /\ x = x' /\ post = post') \/ (exists mid, pre' = pre ++ x :: mid) \/
  (exists mid, pre = pre' ++ x' :: mid /\ post' = mid ++ x :: post).
Proof.
  revert pre'. induction pre as [|y pre IH]; intros [|y' pre'] E; simplify_eq/=.
  - by left.
  - right; left. by exists pre'.
  - right; right. by exists pre.
  - match goal with H : pre ++ _ = _ |- _ => destruct (IH _ H) as [(-> & -> & ->)|[[mid ->]|[mid [-> ->]]]] end.
    + by left.
    + right; left. by exists mid.
    + right; right. by exists mid.
Qed.

(** A block is left alone by changes elsewhere. *)
Lemma block_ok_ext s s' q size live :
  block_ok s q size live ->
  (forall a, q * 4096 <= a < q * 4096 + 17 -> byte_at (aram s') a = byte_at (aram s) a) ->
  (forall p, q <= p <= q + pages size -> prot s' p = prot s p) ->
  0 <= size -> block_ok s' q size live.
Proof.
  intros [H1 H2 H3] Hm Hp Hs. pose proof (pages_nonneg size Hs). split.
  - by eapply header_ok_ext.
  - by rewrite Hp by lia.
  - intros p Hr. rewrite Hp by lia. by apply H3.
Qed.

(** ** Allocation *)

Definition payload (q size : Z) : Z := (q + 1 + pages size) * 4096 - size.

Lemma get_payload_page q size :
  Q0 <= q -> 0 <= size -> q + 1 + pages size <= QE -> get_payload (q * 4096) size = payload q size.
Proof.
  intros Hq Hs He. pose proof (pages_bounds size Hs). unfold Q0, QE in *. unfold get_payload, payload.
  rewrite pages_round_up_small by lia. unfold PAGE_SIZE. rewrite wrapU_small by lia. lia.
Qed.

Lemma init_noop r s : is_initialized s = true -> asan_init r s = Ok (tt, s).
Proof. intros H. unfold asan_init, bind, get. by rewrite H. Qed.

Lemma malloc_correct r s bs size :
  heap_ok s bs -> 0 <= size -> Q0 + npages bs + 1 + pages size <= QE ->
  exists s', malloc r size s = Ok (payload (Q0 + npages bs) size, s') /\
             heap_ok s' (bs ++ [(size, true)]) /\
             forall a, a < current_page s \/ current_page s + 17 <= a -> byte_at (aram s') a = byte_at (aram s) a.
Proof.
  intros H Hs Hroom. pose proof H as [Hi Hm Hsz Hend _ Hb Hrest Hz]. pose proof (npages_nonneg bs Hsz) as Hnn.
  pose proof (pages_nonneg size Hs) as Hpn. pose proof (pages_bounds size Hs) as Hpb.
  remember (Q0 + npages bs) as q eqn:Eq.
  assert (Hq : Q0 <= q < QE) by lia.
  assert (Hsmall : 0 <= size < 2 ^ 63) by (unfold Q0, QE in *; lia).
  unfold malloc. rewrite (bind_ok _ _ _ _ _ (init_noop r s Hi)). rewrite bind_gets, Hend.
  rewrite pages_round_up_small by done. unfold PAGE_SIZE.
  replace (q * 4096 + 4096) with ((q + 1) * 4096) by lia.
  destruct (mprotect_spec (q + 1) (pages size) true s Hm) as (s1 & E1 & F1 & R1 & P1).
  rewrite (bind_ok _ _ _ _ _ E1). pose proof (fr_map _ _ F1) as M1. rewrite Hm in M1.
  destruct (mprotect_spec q 1 true s1 M1) as (s2 & E2 & F2 & R2 & P2). rewrite Z.mul_1_r in E2.
  rewrite (bind_ok _ _ _ _ _ E2). pose proof (fr_map _ _ F2) as M2. rewrite M1 in M2.
  destruct (set_header_spec q size true s2 M2 Hq ltac:(lia)) as (s3 & E3 & F3 & H3 & B3 & P3).
  rewrite (bind_ok _ _ _ _ _ E3). pose proof (fr_map _ _ F3) as M3. rewrite M2 in M3.
  destruct (mprotect_spec q 1 false s3 M3) as (s4 & E4 & F4 & R4 & P4). rewrite Z.mul_1_r in E4.
  rewrite (bind_ok _ _ _ _ _ E4). unfold bind, modify, ret. rewrite get_payload_page by lia.
  pose proof (frame_trans _ _ _ (frame_trans _ _ _ F1 F2) (frame_trans _ _ _ F3 F4)) as [FI FP FM FL].
  assert (Hbytes : forall a, a < q * 4096 \/ q * 4096 + 17 <= a -> byte_at (aram s4) a = byte_at (aram s) a).
  { intros a Ha. rewrite R4, B3, R2, R1 by lia. done. }
  assert (Hprot : forall p, Q0 <= p < QE -> prot s4 p =
            if decide (p = q) then false else if decide (q < p <= q + pages size) then true else prot s p).
  { intros p Hp. rewrite P4 by done. destruct (decide (p = q)) as [-> |Hne]; [by rewrite decide_True by lia|].
    rewrite decide_False by lia. rewrite P3 by done. rewrite decide_False by lia. rewrite P2 by done.
    rewrite decide_False by lia. rewrite P1 by done.
    destruct (decide (q < p <= q + pages size)); [by rewrite decide_True by lia|by rewrite decide_False by lia]. }
  eexists. split; [reflexivity|]. split; [|exact Hbytes].
  assert (Hn : npages (bs ++ [(size, true)]) = npages bs + (1 + pages size)) by (rewrite npages_app; cbn; lia).
  split; cbn [is_initialized current_page mapped aram prot leak_check]; try congruence.
  - apply Forall_app. split; [done|]. by constructor.
  - rewrite Hn, FP, Hend. lia.
  - rewrite Hn. lia.
  - intros pre sz lv post E.
    assert (E' : pre ++ (sz, lv) :: post = bs ++ (size, true) :: []) by done.
    destruct (split_cases _ _ _ _ _ _ E') as [(-> & [= -> ->] & _)|[[mid ->]|[mid [-> Emid]]]].
    + rewrite <- Eq. split; cbn [aram prot].
      * by rewrite R4.
      * rewrite Hprot by lia. by rewrite decide_True.
      * intros p Hp. rewrite Hprot by lia. rewrite decide_False, decide_True by lia. done.
    + pose proof (Hb pre sz lv mid eq_refl) as Hblk.
      apply Forall_app in Hsz as [Hszp Hszr]. inversion_clear Hszr as [|? ? Hsz1 Hsz2]. cbn in Hsz1.
      pose proof (npages_nonneg pre Hszp). pose proof (npages_nonneg mid Hsz2). pose proof (pages_nonneg sz Hsz1).
      rewrite npages_app in *. cbn [npages] in *.
      eapply block_ok_ext; [exact Hblk| | |done].
      * intros a Ha. apply Hbytes. lia.
      * intros p Hp. cbn [prot]. rewrite Hprot by lia. rewrite !decide_False by lia. done.
    + by destruct mid.
  - intros p Hp. rewrite Hprot by lia. rewrite !decide_False by lia.
    apply Hrest. lia.
  - intros a Ha. rewrite Hbytes by lia. apply Hz. lia.
Qed.

(** ** Release *)

(** A place of the list: its pages lie in the region, before the break. *)
Lemma place_range s pre size live post :
  heap_ok s (pre ++ (size, live) :: post) ->
  0 <= size /\ 0 <= npages pre /\ 0 <= pages size /\ 0 <= npages post /\
  Q0 + npages pre + 1 + pages size + npages post <= QE.
Proof.
  intros H. pose proof (hp_sizes _ _ H) as Hsz. apply Forall_app in Hsz as [H1 H2].
  inversion_clear H2 as [|? ? H3 H4]. pose proof (hp_room _ _ H) as Hr. rewrite npages_app in Hr. cbn [npages] in Hr.
  pose proof (npages_nonneg pre H1). pose proof (npages_nonneg post H4). pose proof (pages_nonneg size H3).
  cbn in H3. split_and!; lia.
Qed.

(** free() up to the test of the header: the page before the one of [ptr]. *)
Definition free_rest (ptr q : Z) : M asan unit :=
  size <- ld 8 (q * 4096 + 8);;
  magic <- ld 8 (q * 4096 + 0);;
  if negb (magic =? HEADER_MAGIC) || negb (get_payload (q * 4096) size =? ptr) then
    mprotect START_PAGE MAX_HEAP_SIZE false;;; report_invalid_free ptr
  else
    allocated <- ld 1 (q * 4096 + 16);;
    if allocated =? 0 then
      mprotect START_PAGE MAX_HEAP_SIZE false;;; report_double_free ptr size
    else
      set_header (q * 4096) size false;;;
      mprotect (q * 4096) 4096 false;;;
      mprotect (q * 4096 + 4096) (4096 * pages_round_up size) false.

Lemma free_start r s q ptr :
  is_initialized s = true -> mapped s = true -> Q0 <= q < QE -> (q + 1) * 4096 <= ptr < (q + 2) * 4096 ->
  exists s1, free r ptr s = free_rest ptr q s1 /\ frame s s1 /\ aram s1 = aram s /\ prot s1 q = true /\
             forall p, Q0 <= p < QE -> p <> q -> prot s1 p = prot s p.
Proof.
  intros Hi Hm Hq Hp. destruct (mprotect_spec q 1 true s Hm) as (s1 & E1 & F1 & R1 & P1). rewrite Z.mul_1_r in E1.
  exists s1. split_and!; [|done|done|rewrite P1 by lia; by rewrite decide_True by lia|
    intros p Hp1 Hne; rewrite P1 by done; by rewrite decide_False by lia].
  unfold free. rewrite (bind_ok _ _ _ _ _ (init_noop r s Hi)). unfold Q0, QE, NULL, PAGE_SIZE in *.
  change START_PAGE with (2 ^ 20 * 4096). change MAX_HEAP_SIZE with (2 ^ 30).
  rewrite (proj2 (Z.eqb_neq _ _)), (proj2 (Z.ltb_ge _ _)), (proj2 (Z.ltb_ge _ _)) by lia. cbn [orb].
  assert (Hmod : (ptr - 2 ^ 20 * 4096) mod 4096 = ptr - (q + 1) * 4096).
  { replace (ptr - 2 ^ 20 * 4096) with (ptr - (q + 1) * 4096 + (q + 1 - 2 ^ 20) * 4096) by lia.
    rewrite Z.mod_add, Z.mod_small by lia. done. }
  rewrite Hmod. replace (ptr - 4096 - (ptr - (q + 1) * 4096)) with (q * 4096) by lia.
  rewrite (bind_ok _ _ _ _ _ E1). done.
Qed.

(** The header of the block is readable now. *)
Lemma free_rest_header s q ptr size live :
  mapped s = true -> Q0 <= q < QE -> prot s q = true -> header_ok (aram s) q size live ->
  0 <= size -> q + 1 + pages size <= QE ->
  free_rest ptr q s =
    (if negb (payload q size =? ptr) then mprotect START_PAGE MAX_HEAP_SIZE false;;; report_invalid_free ptr
     else if live then
       set_header (q * 4096) size false;;;
       mprotect (q * 4096) 4096 false;;;
       mprotect (q * 4096 + 4096) (4096 * pages_round_up size) false
     else mprotect START_PAGE MAX_HEAP_SIZE false;;; report_double_free ptr size) s.
Proof.
  intros Hm Hq Hp (H1 & H2 & H3) Hs He. unfold free_rest.
  rewrite (bind_ok _ _ _ _ _ (ld_page 8 q 8 s Hm Hq ltac:(lia) Hp)).
  rewrite (bind_ok _ _ _ _ _ (ld_page 8 q 0 s Hm Hq ltac:(lia) Hp)). rewrite Z.add_0_r, H1, H2.
  rewrite Z.eqb_refl, get_payload_page by lia. cbn [negb orb]. destruct (Z.eqb_spec (payload q size) ptr); [|done]. cbn [negb].
  rewrite (bind_ok _ _ _ _ _ (ld_page 1 q 16 s Hm Hq ltac:(lia) Hp)), H3. by destruct live.
Qed.

Lemma payload_page q size : 0 <= size -> 0 <= pages size -> (q + 1) * 4096 <= payload q size <= (q + 1) * 4096 + 4095.
Proof. intros Hs Hp. pose proof (pages_bounds size Hs). unfold payload. lia. Qed.

(** The two errors: a block that is not live, a pointer that is no block. *)
Lemma free_double r s pre size post :
  heap_ok s (pre ++ (size, false) :: post) ->
  free r (payload (Q0 + npages pre) size) s = Err (Exit DOUBLE_FREE).
Proof.
  intros H. destruct (place_range _ _ _ _ _ H) as (Hs & H1 & H2 & H3 & H4). pose proof (payload_page (Q0 + npages pre) size Hs H2).
  destruct (free_start r s (Q0 + npages pre) (payload (Q0 + npages pre) size) (hp_init _ _ H) (hp_map _ _ H) ltac:(lia) ltac:(lia))
    as (s1 & -> & F1 & R1 & P1 & _).
  pose proof (hp_blocks _ _ H _ _ _ _ eq_refl) as [Hh _ _].
  erewrite free_rest_header; [|by rewrite (fr_map _ _ F1), (hp_map _ _ H)|lia|done|by rewrite R1|done|lia].
  by rewrite Z.eqb_refl.
Qed.

Lemma free_not_block r s pre size live post ptr :
  heap_ok s (pre ++ (size, live) :: post) ->
  (Q0 + npages pre + 1) * 4096 <= ptr < (Q0 + npages pre + 2) * 4096 -> ptr <> payload (Q0 + npages pre) size ->
  free r ptr s = Err (Exit INVALID_FREE).
Proof.
  intros H Hp Hne. destruct (place_range _ _ _ _ _ H) as (Hs & H1 & H2 & H3 & H4).
  destruct (free_start r s (Q0 + npages pre) ptr (hp_init _ _ H) (hp_map _ _ H) ltac:(lia) ltac:(lia))
    as (s1 & -> & F1 & R1 & P1 & _).
  pose proof (hp_blocks _ _ H _ _ _ _ eq_refl) as [Hh _ _].
  erewrite free_rest_header; [|by rewrite (fr_map _ _ F1), (hp_map _ _ H)|lia|done|by rewrite R1|done|lia].
  by rewrite (proj2 (Z.eqb_neq _ _)) by done.
Qed.

(** The effect of a release on the description of the heap. *)
Lemma heap_ok_release s s4 pre size post :
  heap_ok s (pre ++ (size, true) :: post) -> frame s s4 ->
  header_ok (aram s4) (Q0 + npages pre) size false ->
  (forall a, a < (Q0 + npages pre) * 4096 \/ (Q0 + npages pre) * 4096 + 17 <= a -> byte_at (aram s4) a = byte_at (aram s) a) ->
  (forall p, Q0 <= p < QE -> prot s4 p =
     if decide (Q0 + npages pre <= p <= Q0 + npages pre + pages size) then false else prot s p) ->
  heap_ok s4 (pre ++ (size, false) :: post).
Proof.
  intros H [FI FP FM FL] Hh4 Hbytes Hprot. destruct (place_range _ _ _ _ _ H) as (Hs & H1 & H2 & H3 & H4).
  remember (Q0 + npages pre) as q eqn:Eq.
  assert (Hn : forall l, npages (pre ++ (size, l) :: post) = npages pre + (1 + pages size + npages post))
    by (intros; rewrite npages_app; done).
  pose proof H as [Hi Hm Hsz Hend Hroom Hb Hrest Hz]. rewrite Hn in Hend, Hroom, Hrest, Hz.
  split; try congruence; rewrite ?Hn; try done.
  - apply Forall_app in Hsz as [Hz1 Hz2]. apply Forall_app. split; [done|]. inversion_clear Hz2. by constructor.
  - intros pre' sz lv post' E.
    destruct (split_cases _ _ _ _ _ _ E) as [(<- & [= <- <-] & _)|[[mid ->]|[mid [-> ->]]]].
    + rewrite <- Eq. split.
      * done.
      * rewrite Hprot by lia. by rewrite decide_True by lia.
      * intros p Hp. rewrite Hprot by lia. by rewrite decide_True by lia.
    + rewrite <- app_assoc in E. apply app_inv_head in E. injection E as Epost.
      assert (E' : pre ++ (size, true) :: post = (pre ++ (size, true) :: mid) ++ (sz, lv) :: post')
        by (by rewrite <- app_assoc, Epost).
      pose proof (Hb _ _ _ _ E') as Hblk. rewrite E' in H. destruct (place_range _ _ _ _ _ H) as (? & ? & ? & ? & ?).
      rewrite npages_app in *. cbn [npages] in *. apply Forall_app in Hsz as [_ Hz2]. inversion_clear Hz2 as [|? ? _ Hzp].
      rewrite Epost in Hzp. apply Forall_app in Hzp as [Hzm _]. pose proof (npages_nonneg mid Hzm).
      eapply block_ok_ext; [exact Hblk| | |done].
      * intros a Ha. apply Hbytes. lia.
      * intros p Hp. rewrite Hprot by lia. by rewrite decide_False by lia.
    + assert (E' : (pre' ++ (sz, lv) :: mid) ++ (size, true) :: post = pre' ++ (sz, lv) :: (mid ++ (size, true) :: post))
        by (by rewrite <- app_assoc).
      pose proof (Hb _ _ _ _ E') as Hblk. rewrite E' in H. destruct (place_range _ _ _ _ _ H) as (? & ? & ? & ? & ?).
      rewrite npages_app in Eq, H1. cbn [npages] in Eq, H1.
      apply Forall_app in Hsz as [Hz1 _]. apply Forall_app in Hz1 as [_ Hz1]. inversion_clear Hz1 as [|? ? _ Hzm].
      pose proof (npages_nonneg mid Hzm).
      eapply block_ok_ext; [exact Hblk| | |done].
      * intros a Ha. apply Hbytes. lia.
      * intros p Hp. rewrite Hprot by lia. by rewrite decide_False by lia.
  - intros p Hp. rewrite Hprot by lia. rewrite decide_False by lia. apply Hrest. lia.
  - intros a Ha. rewrite Hbytes by lia. apply Hz. lia.
Qed.

(** A live block is released: nothing else changes. *)
Lemma free_correct r s pre size post :
  heap_ok s (pre ++ (size, true) :: post) ->
  exists s', free r (payload (Q0 + npages pre) size) s = Ok (tt, s') /\
             heap_ok s' (pre ++ (size, false) :: post) /\
             forall a, a < (Q0 + npages pre) * 4096 \/ (Q0 + npages pre) * 4096 + 17 <= a ->
                       byte_at (aram s') a = byte_at (aram s) a.
Proof.
  intros H. destruct (place_range _ _ _ _ _ H) as (Hs & H1 & H2 & H3 & H4).
  remember (Q0 + npages pre) as q eqn:Eq. pose proof (payload_page q size Hs H2). pose proof (pages_bounds size Hs).
  assert (Hsmall : 0 <= size < 2 ^ 63) by (unfold Q0, QE in *; lia).
  destruct (free_start r s q (payload q size) (hp_init _ _ H) (hp_map _ _ H) ltac:(lia) ltac:(lia))
    as (s1 & -> & F1 & R1 & P1 & P1').
  pose proof (hp_blocks _ _ H _ _ _ _ eq_refl) as [Hh _ _]. rewrite <- Eq in Hh.
  pose proof (fr_map _ _ F1) as M1. rewrite (hp_map _ _ H) in M1.
  erewrite free_rest_header; [|done|lia|done|by rewrite R1|done|lia]. rewrite Z.eqb_refl. cbn [negb].
  destruct (set_header_spec q size false s1 M1 ltac:(lia) ltac:(lia)) as (s2 & E2 & F2 & H2' & B2 & P2).
  rewrite (bind_ok _ _ _ _ _ E2). pose proof (fr_map _ _ F2) as M2. rewrite M1 in M2.
  destruct (mprotect_spec q 1 false s2 M2) as (s3 & E3 & F3 & R3 & P3). rewrite Z.mul_1_r in E3.
  rewrite (bind_ok _ _ _ _ _ E3). pose proof (fr_map _ _ F3) as M3. rewrite M2 in M3.
  rewrite pages_round_up_small by done. replace (q * 4096 + 4096) with ((q + 1) * 4096) by lia.
  destruct (mprotect_spec (q + 1) (pages size) false s3 M3) as (s4 & E4 & F4 & R4 & P4).
  exists s4. split; [exact E4|].
  pose proof (frame_trans _ _ _ (frame_trans _ _ _ F1 F2) (frame_trans _ _ _ F3 F4)) as [FI FP FM FL].
  assert (Hbytes : forall a, a < q * 4096 \/ q * 4096 + 17 <= a -> byte_at (aram s4) a = byte_at (aram s) a).
  { intros a Ha. rewrite R4, R3, B2, R1 by lia. done. }
  assert (Hprot : forall p, Q0 <= p < QE -> prot s4 p =
            if decide (q <= p <= q + pages size) then false else prot s p).
  { intros p Hp. rewrite P4 by done. destruct (decide (p = q)) as [-> |Hne].
    - rewrite decide_False by lia. rewrite P3 by done. rewrite !decide_True by lia. done.
    - destruct (decide (q + 1 <= p < q + 1 + pages size)); [by rewrite decide_True by lia|].
      rewrite P3 by done. rewrite decide_False by lia. rewrite P2 by done. rewrite decide_False by done.
      rewrite decide_False by lia. by apply P1'. }
  split; [|exact Hbytes].
  subst q. eapply heap_ok_release; [exact H|by split|by rewrite R4, R3|exact Hbytes|exact Hprot].
Qed.

(** ** Accesses *)

(** A page of the payload of a live allocation. *)
Definition live_page (bs : list (Z * bool)) (p : Z) : Prop :=
  exists pre size post, bs = pre ++ (size, true) :: post /\
    Q0 + npages pre < p <= Q0 + npages pre + pages size.

(** Every page below the break belongs to one allocation. *)
Lemma find_place bs p : Forall (fun b => 0 <= b.1) bs -> 0 <= p < npages bs ->
  exists pre size live post, bs = pre ++ (size, live) :: post /\ npages pre <= p <= npages pre + pages size.
Proof.
  revert p. induction bs as [|[size live] bs IH]; intros p Hs Hp; cbn [npages] in Hp; [lia|].
  inversion_clear Hs as [|? ? Hs1 Hs2]. cbn in Hs1.
  destruct (decide (p < 1 + pages size)).
  - exists [], size, live, bs. cbn. split; [done|lia].
  - destruct (IH (p - (1 + pages size)) Hs2) as (pre & sz & lv & post & -> & Hr); [lia|].
    exists ((size, live) :: pre), sz, lv, post. cbn [npages]. split; [done|lia].
Qed.

Lemma prot_live s bs p : heap_ok s bs -> Q0 <= p < QE -> prot s p = true <-> live_page bs p.
Proof.
  intros H Hp. pose proof H as [Hi Hm Hsz Hend Hroom Hb Hrest Hz]. split.
  - intros Ht. destruct (decide (p < Q0 + npages bs)) as [Hlt|Hge]; [|by rewrite Hrest in Ht by lia].
    destruct (find_place bs (p - Q0) Hsz) as (pre & size & live & post & E & Hr); [lia|].
    pose proof (Hb _ _ _ _ E) as [_ Hc Hpl]. exists pre, size, post.
    destruct (decide (p = Q0 + npages pre)) as [-> |Hne]; [congruence|].
    rewrite (Hpl p) in Ht by lia. subst live. split; [done|lia].
  - intros (pre & size & post & E & Hr). pose proof (Hb _ _ _ _ E) as [_ _ Hpl]. by apply Hpl.
Qed.

(** A load of the program, anywhere in the region. *)
Lemma user_load_classify s bs a : heap_ok s bs -> START_PAGE <= a < START_PAGE + MAX_HEAP_SIZE ->
  (live_page bs (page_of a) /\ user_load a s = Ok (byte_at (aram s) a, s)) \/
  (~ live_page bs (page_of a) /\
   user_load a s = Err (Exit (if a <? current_page s + PAGE_SIZE then INVALID_HEAP_ACCESS else SEG_FAULT))).
Proof.
  intros H Ha. destruct region_consts as [E1 E2].
  pose proof (Z.div_mod a 4096 ltac:(lia)) as Hdm. pose proof (Z.mod_pos_bound a 4096 ltac:(lia)) as Hm.
  assert (Hq : Q0 <= page_of a < QE) by (unfold page_of, PAGE_SIZE; lia).
  pose proof (prot_live s bs (page_of a) H Hq) as Hp. unfold user_load, ld, bind, get, accessible, in_region.
  rewrite (hp_map _ _ H), (proj2 (Z.leb_le _ _)), (proj2 (Z.ltb_lt _ _)) by lia. cbn [andb].
  destruct (prot s (page_of a)) eqn:Epr.
  - left. split; [by apply Hp|]. unfold ret, load. cbn. do 2 f_equal. lia.
  - right. split; [intros Hl; apply Hp in Hl; done|]. unfold sigsegv_handler, bind, get.
    rewrite (hp_init _ _ H). cbn [negb orb]. pose proof (npages_nonneg bs (hp_sizes _ _ H)).
    rewrite (proj2 (Z.eqb_neq _ _)) by (rewrite (hp_end _ _ H); unfold NULL, Q0 in *; lia).
    rewrite (proj2 (Z.leb_le _ _)) by lia. cbn [andb]. by destruct (a <? _).
Qed.

(** The byte after the end of an allocation is never on a live page. *)
Lemma end_not_live s bs pre size live post :
  heap_ok s bs -> bs = pre ++ (size, live) :: post -> ~ live_page bs (Q0 + npages pre + 1 + pages size).
Proof.
  intros H E (pre' & size' & post' & E' & Hr). pose proof (hp_sizes _ _ H) as Hsz. rewrite E in E'.
  destruct (split_cases _ _ _ _ _ _ E') as [(<- & [= <- ->] & _)|[[mid ->]|[mid [-> _]]]]; [lia|..].
  - rewrite E, E', <- app_assoc in Hsz. apply Forall_app in Hsz as [_ Hsz]. inversion_clear Hsz as [|? ? _ Hs2].
    apply Forall_app in Hs2 as [Hs2 _]. pose proof (npages_nonneg mid Hs2).
    rewrite npages_app in Hr. cbn [npages] in Hr. lia.
  - rewrite E, <- app_assoc in Hsz. apply Forall_app in Hsz as [_ Hsz].
    inversion_clear Hsz as [|? ? Hs1 Hs2]. apply Forall_app in Hs2 as [Hs2 Hs3].
    inversion_clear Hs3 as [|? ? Hs4 _]. cbn in Hs1, Hs4. pose proof (npages_nonneg mid Hs2). pose proof (pages_nonneg size Hs4).
    rewrite npages_app in Hr. cbn [npages] in Hr. lia.
Qed.

(** ** Leaks *)

(** The state while check_for_leaks() walks: the pages as before. *)
Record walking (s s' : asan) : Prop := {
  wk_frame : frame s s';
  wk_ram : aram s' = aram s;
  wk_prot p : Q0 <= p < QE -> prot s' p = prot s p
}.

Lemma walking_refl s : walking s s.
Proof. by split. Qed.

Lemma walking_trans s1 s2 s3 : walking s1 s2 -> walking s2 s3 -> walking s1 s3.
Proof.
  intros [F1 R1 P1] [F2 R2 P2]. split; [by eapply frame_trans|congruence|].
  intros p Hp. by rewrite P2, P1.
Qed.

(** One round of the loop at a closed page [q] whose header fields are known. *)
Lemma leaks_round s q size (live : bool) cur h :
  mapped s = true -> Q0 <= q < QE -> prot s q = false -> (h <? current_page s) = true -> cur = q * 4096 ->
  load64 (aram s) (q * 4096 + 8) = size -> load 1 (aram s) (q * 4096 + 16) = b2z live ->
  0 <= size -> q + 1 + pages size <= QE ->
  if live then leaks_body (cur, h) s = Err (Exit MEMORY_LEAK)
  else exists s', leaks_body (cur, h) s = Ok (inl ((q + 1 + pages size) * 4096, q * 4096), s') /\ walking s s'.
Proof.
  intros Hm Hq Hp Hlt -> Hsize Hlive Hs He. pose proof (pages_bounds size Hs).
  destruct (mprotect_spec q 1 true s Hm) as (s1 & E1 & F1 & R1 & P1). rewrite Z.mul_1_r in E1.
  pose proof (fr_map _ _ F1) as M1. rewrite Hm in M1.
  assert (Hp1 : prot s1 q = true) by (rewrite P1 by lia; by rewrite decide_True by lia).
  assert (Hrun : leaks_body (q * 4096, h) s =
     (if negb (b2z live =? 0) then
        mprotect START_PAGE MAX_HEAP_SIZE false;;; report_memory_leak (get_payload (q * 4096) size) size
      else
        mprotect (q * 4096) 4096 false;;;
        ret (inl (u64 (q * 4096 + 4096 + pages_round_up size * 4096), q * 4096))) s1).
  { unfold leaks_body, PAGE_SIZE, OFF_SIZE, OFF_ALLOCATED. rewrite bind_ok with (a := s) (s' := s) by done. rewrite Hlt.
    cbv zeta. rewrite (bind_ok _ _ _ _ _ E1), (bind_ok _ _ _ _ _ (ld_page 8 q 8 s1 M1 Hq ltac:(lia) Hp1)).
    rewrite (bind_ok _ _ _ _ _ (ld_page 1 q 16 s1 M1 Hq ltac:(lia) Hp1)). by rewrite R1, Hsize, Hlive. }
  rewrite Hrun. destruct live; [done|]. cbn [b2z Z.eqb negb].
  destruct (mprotect_spec q 1 false s1 M1) as (s2 & E2 & F2 & R2 & P2). rewrite Z.mul_1_r in E2.
  rewrite (bind_ok _ _ _ _ _ E2). exists s2. split.
  - unfold ret. rewrite pages_round_up_small by (unfold QE, Q0 in *; lia).
    rewrite wrapU_small by (unfold QE, Q0 in *; lia). do 4 f_equal. lia.
  - split; [by eapply frame_trans|congruence|]. intros p Hpr. rewrite P2 by done.
    destruct (decide (q <= p < q + 1)); [by replace p with q by lia|]. rewrite P1 by done. by rewrite decide_False.
Qed.

(** The loop of check_for_leaks() as an iteration. *)
Definition leaks_iter (v : (Z * Z) * asan) : res ((Z * Z) * asan + unit * asan) :=
  let '(l, s) := v in
  match leaks_body l s with
  | Ok (inl l', s') => Ok (inl (l', s'))
  | Ok (inr a, s') => Ok (inr (a, s'))
  | Err f => Err f
  end.

Lemma leaks_walk s bs : heap_ok s bs -> Q0 + npages bs + 1 <= QE ->
  forall suf pre s' h, bs = pre ++ suf -> walking s s' -> (h <? current_page s') = true ->
  if existsb snd suf
  then iter_nat leaks_iter (length suf + 2) (((Q0 + npages pre) * 4096, h), s') = Err (Exit MEMORY_LEAK)
  else exists s'', iter_nat leaks_iter (length suf + 2) (((Q0 + npages pre) * 4096, h), s') = Ok (inr (tt, s'')) /\
                   walking s s''.
Proof.
  intros H Hroom. pose proof (npages_nonneg bs (hp_sizes _ _ H)) as Hnn.
  induction suf as [|[size live] suf IH]; intros pre s' h E W Hh.
  - rewrite app_nil_r in E. subst pre. cbn [existsb length Nat.add iter_nat].
    pose proof W as [F R P]. pose proof (hp_zero _ _ H) as Hz.
    assert (Hzero : forall n a, (Q0 + npages bs) * 4096 <= a -> load n (aram s') a = 0).
    { intros n. rewrite R. unfold load. induction n as [|n IHn]; intros a Ha; [done|]. cbn [read_bytes le_combine].
      rewrite (Hz a) by lia. rewrite (IHn (a + 1)) by lia. done. }
    destruct (leaks_round s' (Q0 + npages bs) 0 false ((Q0 + npages bs) * 4096) h) as (s2 & E2 & W2).
    { by rewrite (fr_map _ _ F), (hp_map _ _ H). } { lia. }
    { rewrite P by lia. apply (hp_rest _ _ H). lia. } { done. } { done. }
    { apply Hzero. lia. } { apply Hzero. lia. } { lia. } { change (pages 0) with 0. lia. }
    cbn [leaks_iter]. rewrite E2. pose proof (walking_trans _ _ _ W W2) as W3. exists s2. split; [|done].
    unfold leaks_iter, leaks_body. rewrite bind_ok with (a := s2) (s' := s2) by done.
    rewrite (fr_page _ _ (wk_frame _ _ W3)), (hp_end _ _ H), Z.ltb_irrefl. done.
  - pose proof (hp_blocks _ _ H _ _ _ _ E) as [(H1 & H2 & H3) Hc _]. pose proof W as [F R P].
    pose proof H as H'. rewrite E in H'. destruct (place_range _ _ _ _ _ H') as (Hs & Hr1 & Hr2 & Hr3 & Hr4).
    pose proof (leaks_round s' (Q0 + npages pre) size live ((Q0 + npages pre) * 4096) h) as Hround.
    specialize (Hround ltac:(by rewrite (fr_map _ _ F), (hp_map _ _ H)) ltac:(lia) ltac:(rewrite P by lia; done) Hh eq_refl
                  ltac:(by rewrite R) ltac:(by rewrite R) Hs ltac:(lia)).
    cbn [existsb snd length Nat.add iter_nat leaks_iter]. destruct live; cbn [orb]; [by rewrite Hround|].
    destruct Hround as (s2 & E2 & W2). rewrite E2. pose proof (walking_trans _ _ _ W W2) as W3.
    replace ((Q0 + npages pre + 1 + pages size) * 4096) with ((Q0 + npages (pre ++ [(size, false)])) * 4096)
      by (rewrite npages_app; cbn [npages]; lia).
    apply IH; [by rewrite <- app_assoc|done|].
    rewrite (fr_page _ _ (wk_frame _ _ W3)), (hp_end _ _ H). apply Z.ltb_lt.
    rewrite E, npages_app. cbn [npages]. lia.
Qed.

Lemma length_npages bs : Forall (fun b => 0 <= b.1) bs -> Z.of_nat (length bs) <= npages bs.
Proof.
  induction 1 as [|[sz l] bs Hb _ IH]; cbn [length npages]; [lia|]. pose proof (pages_nonneg sz Hb). lia.
Qed.

(** The leak check reports a leak exactly if an allocation is live. *)
Lemma check_for_leaks_correct s bs : heap_ok s bs -> Q0 + npages bs + 1 <= QE ->
  if existsb snd bs then check_for_leaks s = Err (Exit MEMORY_LEAK)
  else exists s', check_for_leaks s = Ok (tt, s') /\ walking s s'.
Proof.
  intros H Hroom. unfold check_for_leaks, loopM. change (fun '(l, s0) => _) with leaks_iter.
  pose proof (length_npages bs (hp_sizes _ _ H)) as Hlen.
  assert (Hbound : Z.of_nat (length bs + 2) <= 2 ^ 64) by (unfold QE, Q0 in *; lia).
  destruct bs as [|b bs].
  - cbn [existsb]. exists s. split; [|apply walking_refl]. apply (loop_nat _ 1%nat); [|simpl; lia].
    cbn [iter_nat leaks_iter]. unfold leaks_body. rewrite bind_ok with (a := s) (s' := s) by done.
    rewrite (hp_end _ _ H). done.
  - pose proof (leaks_walk s (b :: bs) H Hroom (b :: bs) [] s START_PAGE eq_refl (walking_refl s)) as Hw.
    assert (Hh : (START_PAGE <? current_page s) = true).
    { rewrite (hp_end _ _ H). apply Z.ltb_lt. destruct region_consts as [-> _].
      destruct b as [sz l]. pose proof (hp_sizes _ _ H) as Hs. inversion_clear Hs as [|? ? Hs1 Hs2].
      pose proof (pages_nonneg sz Hs1). pose proof (npages_nonneg bs Hs2). cbn [npages]. lia. }
    specialize (Hw Hh). cbn [npages] in Hw. rewrite Z.add_0_r in Hw. change (Q0 * 4096) with START_PAGE in Hw.
    destruct (existsb snd (b :: bs)); [by eapply loop_err|].
    destruct Hw as (s' & E & W). exists s'. split; [by eapply loop_nat|done].
Qed.
