(* ===== verification/MyAsanSpec.v ===== *)
(** * Whole programs under the address sanitizer

    A client program is a list of requests that name the allocations by their
    number: allocate, free, read or write a byte at an offset of an
    allocation.  [run_program] runs it against the code of myasan.c, the leak
    check at exit included; [spec_program] says what the sanitizer promises,
    on allocations that are just lists of bytes.  The two agree. *)
From stdpp Require Import prelude gmap list.
From Stdlib Require Import ZArith Lia.
From S2P Require Import Prelude Memory MyAsan MyAsanProofs.
Open Scope Z_scope.
Open Scope c_scope.

Inductive request :=
  | RMalloc (size : Z)
  | RFree (k : nat)
  | RLoad (k : nat) (off : Z)
  | RStore (k : nat) (off v : Z).

(** ** Programs against the code *)

Definition pointer (ptrs : list Z) (k : nat) : M asan Z :=
  match ptrs !! k with Some p => ret p | None => fail UB end.

(** The answers are the bytes that were read. *)
Fixpoint run (ptrs : list Z) (l : list request) : M asan (list Z) :=
  match l with
  | [] => ret []
  | RMalloc size :: l => p <- malloc START_PAGE size;; run (ptrs ++ [p]) l
  | RFree k :: l => p <- pointer ptrs k;; free START_PAGE p;;; run ptrs l
  | RLoad k off :: l => p <- pointer ptrs k;; v <- user_load (p + off);; vs <- run ptrs l;; ret (v :: vs)
  | RStore k off v :: l => p <- pointer ptrs k;; user_store (p + off) v;;; run ptrs l
  end.

Definition run_program (l : list request) : M asan (list Z) :=
  vs <- run [] l;;
  s <- get;;
  (if leak_check s then check_for_leaks else ret tt);;;
  ret vs.

(** ** What the sanitizer promises *)

Record allocation := mkAllocation { asize : Z; alive : bool; adata : list Z }.

Fixpoint spec (bs : list allocation) (l : list request) : res (list Z * list allocation) :=
  match l with
  | [] => Ok ([], bs)
  | RMalloc size :: l => spec (bs ++ [mkAllocation size true (replicate (Z.to_nat size) 0)]) l
  | RFree k :: l =>
      match bs !! k with
      | Some b => if alive b then spec (<[k := mkAllocation (asize b) false (adata b)]> bs) l else Err (Exit DOUBLE_FREE)
      | None => Err UB
      end
  | RLoad k off :: l =>
      match bs !! k with
      | Some b =>
          if alive b && (off <? asize b) then
            '(vs, bs') <-! spec bs l;; Ok (nth (Z.to_nat off) (adata b) 0 :: vs, bs')
          else Err (Exit INVALID_HEAP_ACCESS)
      | None => Err UB
      end
  | RStore k off v :: l =>
      match bs !! k with
      | Some b =>
          if alive b && (off <? asize b) then
            spec (<[k := mkAllocation (asize b) true (<[Z.to_nat off := v mod 256]> (adata b))]> bs) l
          else Err (Exit INVALID_HEAP_ACCESS)
      | None => Err UB
      end
  end.

Definition spec_program (l : list request) : res (list Z) :=
  '(vs, bs) <-! spec [] l;;
  if existsb alive bs then Err (Exit MEMORY_LEAK) else Ok vs.

(** Requests name allocations that were made, the offsets reach at most one
    page past an allocation, and the allocations fit the region with one page
    to spare.  [sizes] are the sizes of the allocations made so far. *)
Fixpoint fits (sizes : list Z) (l : list request) : bool :=
  match l with
  | [] => true
  | RMalloc size :: l =>
      (0 <=? size) &&
      (Q0 + npages ((fun z => (z, true)) <$> (sizes ++ [size])) <? QE) && fits (sizes ++ [size]) l
  | RFree k :: l => (k <? length sizes)%nat && fits sizes l
  | RLoad k off :: l | RStore k off _ :: l =>
      match sizes !! k with
      | Some size => (0 <=? off) && (off <? size + PAGE_SIZE) && fits sizes l
      | None => false
      end
  end.

(** ** The relation between the two *)

Definition shape (bs : list allocation) : list (Z * bool) := (fun b => (asize b, alive b)) <$> bs.

(** The header page of allocation [k]. *)
Definition place (bs : list allocation) (k : nat) : Z := Q0 + npages (shape (take k bs)).

Record sim (s : asan) (ptrs : list Z) (bs : list allocation) : Prop := {
  sm_heap : heap_ok s (shape bs);
  sm_spare : Q0 + npages (shape bs) < QE;
  sm_length : length ptrs = length bs;
  sm_ptrs k b : bs !! k = Some b -> ptrs !! k = Some (payload (place bs k) (asize b));
  sm_data k b : bs !! k = Some b -> Z.of_nat (length (adata b)) = asize b;
  sm_bytes k b i : bs !! k = Some b -> alive b = true -> 0 <= i < asize b ->
    byte_at (aram s) (payload (place bs k) (asize b) + i) = nth (Z.to_nat i) (adata b) 0
}.

Lemma npages_sizes (a b : list (Z * bool)) : a.*1 = b.*1 -> npages a = npages b.
Proof.
  revert b. induction a as [|[z l] a IH]; intros [|[z' l'] b] E; simplify_eq/=; [done|]. by rewrite (IH b).
Qed.

Lemma shape_split bs k b : bs !! k = Some b ->
  shape bs = shape (take k bs) ++ (asize b, alive b) :: shape (drop (S k) bs).
Proof.
  intros E. rewrite <- (take_drop_middle bs k b E) at 1. unfold shape. rewrite fmap_app. done.
Qed.

(** Where allocations lie: one after the other, below the break. *)
Lemma place_bounds s bs k b : heap_ok s (shape bs) -> bs !! k = Some b ->
  0 <= asize b /\ Q0 <= place bs k /\ 0 <= pages (asize b) /\
  place bs k + 1 + pages (asize b) <= Q0 + npages (shape bs) /\ Q0 + npages (shape bs) <= QE.
Proof.
  intros H E. pose proof (hp_room _ _ H) as Hr. pose proof (shape_split bs k b E) as Es. rewrite Es in H.
  destruct (place_range _ _ _ _ _ H) as (H1 & H2 & H3 & H4 & H5).
  rewrite Es, npages_app in *. cbn [npages] in *. unfold place. lia.
Qed.

Lemma place_order s bs j k b b' : heap_ok s (shape bs) -> bs !! j = Some b -> bs !! k = Some b' -> (j < k)%nat ->
  place bs j + 1 + pages (asize b) <= place bs k.
Proof.
  intros H Ej Ek Hjk. pose proof (hp_sizes _ _ H) as Hs.
  assert (Et : take k bs !! j = Some b) by (by rewrite lookup_take_lt).
  pose proof (shape_split _ _ _ Et) as Es. unfold place at 2. rewrite Es, npages_app. cbn [npages].
  rewrite take_take, Nat.min_l by lia. fold (place bs j).
  assert (Hd : 0 <= npages (shape (drop (S j) (take k bs)))); [|unfold place; lia].
  apply npages_nonneg. rewrite (shape_split _ _ _ Ek) in Hs. apply Forall_app in Hs as [Hs _].
  rewrite Es in Hs. apply Forall_app in Hs as [_ Hs]. by inversion_clear Hs.
Qed.

Lemma place_apart s bs j k b b' : heap_ok s (shape bs) -> bs !! j = Some b -> bs !! k = Some b' -> j <> k ->
  place bs j + 1 + pages (asize b) <= place bs k \/ place bs k + 1 + pages (asize b') <= place bs j.
Proof.
  intros H Ej Ek Hne. destruct (decide (j < k)%nat); [left|right].
  - exact (place_order s bs j k b b' H Ej Ek ltac:(lia)).
  - exact (place_order s bs k j b' b H Ek Ej ltac:(lia)).
Qed.

(** Changing an allocation other than its size moves nothing. *)
Lemma place_insert bs k b b' j : bs !! k = Some b -> asize b' = asize b ->
  place (<[k := b']> bs) j = place bs j.
Proof.
  intros E Es. unfold place. f_equal. apply npages_sizes. unfold shape. rewrite <- !list_fmap_compose.
  rewrite !fmap_take. f_equal. rewrite list_fmap_insert. cbn. rewrite Es.
  apply list_insert_id. by rewrite list_lookup_fmap, E.
Qed.

Lemma npages_insert bs k b b' : bs !! k = Some b -> asize b' = asize b ->
  npages (shape (<[k := b']> bs)) = npages (shape bs).
Proof.
  intros E Es. apply npages_sizes. unfold shape. rewrite <- !list_fmap_compose, list_fmap_insert. cbn. rewrite Es.
  apply list_insert_id. by rewrite list_lookup_fmap, E.
Qed.

Lemma shape_insert bs k b b' : bs !! k = Some b ->
  shape (<[k := b']> bs) = shape (take k bs) ++ (asize b', alive b') :: shape (drop (S k) bs).
Proof.
  intros E. rewrite insert_take_drop by (by eapply lookup_lt_Some). unfold shape. by rewrite fmap_app.
Qed.

(** The page of a byte at offset [off] of an allocation. *)
Lemma payload_page_of q size off : 0 <= size -> 0 <= off < size + 4096 ->
  let p := page_of (payload q size + off) in
  q + 1 <= p <= q + 1 + pages size /\ (off < size -> p <= q + pages size) /\ (size <= off -> p = q + 1 + pages size).
Proof.
  intros Hs Ho. pose proof (pages_bounds size Hs). unfold page_of, payload, PAGE_SIZE.
  pose proof (Z.div_mod ((q + 1 + pages size) * 4096 - size + off) 4096 ltac:(lia)).
  pose proof (Z.mod_pos_bound ((q + 1 + pages size) * 4096 - size + off) 4096 ltac:(lia)). cbv zeta. split_and!; lia.
Qed.

(** ** Accesses *)

Lemma access s bs k b off :
  heap_ok s (shape bs) -> bs !! k = Some b -> 0 <= off < asize b + 4096 ->
  accessible s (payload (place bs k) (asize b) + off) = alive b && (off <? asize b).
Proof.
  intros H E Ho. destruct (place_bounds _ _ _ _ H E) as (Hs & Hp & Hn & He & Hr). set (a := payload _ _ + off).
  destruct (payload_page_of (place bs k) (asize b) off Hs Ho) as (P1 & P2 & P3). fold a in P1, P2, P3.
  pose proof (hp_blocks _ _ H _ _ _ _ (shape_split bs k b E)) as [_ _ Hpl]. fold (place bs k) in Hpl.
  unfold accessible. destruct (Z.ltb_spec off (asize b)) as [Hlt|Hge].
  - rewrite Hpl by lia. replace (in_region s a) with true; [by rewrite andb_true_r|].
    symmetry. unfold page_of, PAGE_SIZE in *. rewrite (Z.div_mod a 4096) by lia. rewrite Z.mul_comm.
    apply in_region_page; [apply H|lia|apply Z.mod_pos_bound; lia].
  - rewrite andb_false_r. destruct (in_region s a) eqn:Ein; [|done].
    assert (Hq : Q0 <= page_of a < QE).
    { unfold in_region in Ein. destruct region_consts as [E1 E2]. rewrite E2, E1 in Ein.
      apply andb_true_iff in Ein as [Ein H2]. apply andb_true_iff in Ein as [_ H1].
      unfold page_of, PAGE_SIZE. pose proof (Z.div_mod a 4096 ltac:(lia)). pose proof (Z.mod_pos_bound a 4096 ltac:(lia)). lia. }
    cbn [andb]. apply not_true_is_false. intros Ht. apply (prot_live s (shape bs) _ H Hq) in Ht.
    rewrite P3 in Ht by lia. exact (end_not_live _ _ _ _ _ _ H (shape_split bs k b E) Ht).
Qed.

(** Whatever is not accessible around an allocation ends the process. *)
Lemma access_fault {A} s bs k b off :
  heap_ok s (shape bs) -> bs !! k = Some b -> 0 <= off < asize b + 4096 ->
  @sigsegv_handler A (payload (place bs k) (asize b) + off) s = Err (Exit INVALID_HEAP_ACCESS).
Proof.
  intros H E Ho. destruct (place_bounds _ _ _ _ H E) as (Hs & Hp & Hn & He & Hr). destruct region_consts as [E1 E2].
  pose proof (pages_bounds _ Hs). unfold sigsegv_handler, bind, get. rewrite (hp_init _ _ H), (hp_end _ _ H).
  cbn [negb orb]. rewrite (proj2 (Z.eqb_neq _ _)) by (unfold NULL, Q0 in *; lia).
  rewrite (proj2 (Z.leb_le _ _)) by (rewrite E1; unfold payload; lia).
  by rewrite (proj2 (Z.ltb_lt _ _)) by (unfold payload, PAGE_SIZE; lia).
Qed.

Lemma load_sim s ptrs bs k b off :
  sim s ptrs bs -> bs !! k = Some b -> 0 <= off < asize b + 4096 ->
  user_load (payload (place bs k) (asize b) + off) s =
  if alive b && (off <? asize b) then Ok (nth (Z.to_nat off) (adata b) 0, s) else Err (Exit INVALID_HEAP_ACCESS).
Proof.
  intros W E Ho. pose proof (sm_heap _ _ _ W) as H. unfold user_load, ld. rewrite bind_ok with (a := s) (s' := s) by done.
  rewrite (access s bs k b off H E Ho). destruct (alive b) eqn:Ea; cbn [andb]; [|exact (access_fault s bs k b off H E Ho)].
  destruct (Z.ltb_spec off (asize b)) as [Hlt|Hge]; [|exact (access_fault s bs k b off H E Ho)].
  rewrite <- (sm_bytes _ _ _ W k b off E Ea) by lia. unfold ret, load. cbn. do 2 f_equal. lia.
Qed.

(** Stores to a payload keep the headers. *)
Lemma heap_ok_store s s' bs :
  heap_ok s bs -> frame s s' -> (forall p, prot s' p = prot s p) ->
  (forall pre size live post, bs = pre ++ (size, live) :: post ->
     forall a, (Q0 + npages pre) * 4096 <= a < (Q0 + npages pre) * 4096 + 17 -> byte_at (aram s') a = byte_at (aram s) a) ->
  (forall a, (Q0 + npages bs) * 4096 <= a -> byte_at (aram s') a = byte_at (aram s) a) -> heap_ok s' bs.
Proof.
  intros H F P Hh Hz. destruct F as [F1 F2 F3 F4]. pose proof H as [Hi Hm Hsz Hend Hroom Hb Hrest Hze].
  split; try congruence; try done.
  - intros pre size live post E. destruct (Hb _ _ _ _ E) as [B1 B2 B3]. split.
    + exact (header_ok_ext _ _ _ _ _ B1 (Hh _ _ _ _ E)).
    + by rewrite P.
    + intros p Hp. rewrite P. by apply B3.
  - intros p Hp. rewrite P. by apply Hrest.
  - intros a Ha. rewrite Hz by done. by apply Hze.
Qed.

(** An arbitrary place of the list of shapes is the place of an allocation. *)
Lemma shape_inv bs pre size live post : shape bs = pre ++ (size, live) :: post ->
  exists b, bs !! length pre = Some b /\ asize b = size /\ alive b = live /\ Q0 + npages pre = place bs (length pre).
Proof.
  intros E. assert (L : shape bs !! length pre = Some (size, live)).
  { rewrite E. by apply list_lookup_middle. }
  unfold shape in L. rewrite list_lookup_fmap in L. destruct (bs !! length pre) as [b|] eqn:Eb; simplify_eq/=.
  exists b. split_and!; try done. unfold place. unfold shape. rewrite fmap_take. fold (shape bs). rewrite E.
  by rewrite take_app_length.
Qed.

Lemma byte_at_store1 m a v b : byte_at (store 1 m a v) b = if decide (b = a) then v mod 256 else byte_at m b.
Proof.
  case_decide as Hd; [subst b|apply byte_at_store_out; lia].
  pose proof (load_store_same 1 m a v) as H. change (256 ^ Z.of_nat 1) with 256 in H. rewrite <- H.
  unfold load. cbn [read_bytes le_combine]. lia.
Qed.

(** ** Requests *)

(** A changed allocation of the same size: what is left to show. *)
Lemma sim_insert s s' ptrs bs k b b' :
  sim s ptrs bs -> bs !! k = Some b -> asize b' = asize b -> length (adata b') = length (adata b) ->
  heap_ok s' (shape (<[k := b']> bs)) ->
  (forall i, alive b' = true -> 0 <= i < asize b ->
     byte_at (aram s') (payload (place bs k) (asize b) + i) = nth (Z.to_nat i) (adata b') 0) ->
  (forall j b1 i, j <> k -> bs !! j = Some b1 -> 0 <= i < asize b1 ->
     byte_at (aram s') (payload (place bs j) (asize b1) + i) = byte_at (aram s) (payload (place bs j) (asize b1) + i)) ->
  sim s' ptrs (<[k := b']> bs).
Proof.
  intros [H1 H3 H4 H5 H6 H7] E Es El Hh Hk Hj.
  assert (Hlen : (k < length bs)%nat) by (by eapply lookup_lt_Some). split.
  - done.
  - by rewrite (npages_insert bs k b b').
  - by rewrite length_insert.
  - intros j b1 E1. rewrite (place_insert bs k b b') by done. destruct (decide (j = k)) as [-> |Hne].
    + rewrite list_lookup_insert_eq in E1 by done. injection E1 as <-. rewrite Es. by apply H5.
    + rewrite list_lookup_insert_ne in E1 by done. by apply H5.
  - intros j b1 E1. destruct (decide (j = k)) as [-> |Hne].
    + rewrite list_lookup_insert_eq in E1 by done. injection E1 as <-. rewrite Es, El. by apply (H6 k).
    + rewrite list_lookup_insert_ne in E1 by done. by apply (H6 j).
  - intros j b1 i E1 Ha Hi. rewrite (place_insert bs k b b') by done. destruct (decide (j = k)) as [-> |Hne].
    + rewrite list_lookup_insert_eq in E1 by done. injection E1 as <-. rewrite Es in *. by apply Hk.
    + rewrite list_lookup_insert_ne in E1 by done. rewrite (Hj j b1 i) by done. by apply H7.
Qed.

Lemma nth_insert (l : list Z) i j x : (j < length l)%nat ->
  nth i (<[j := x]> l) 0 = if decide (i = j) then x else nth i l 0.
Proof.
  intros Hj. rewrite !nth_lookup. case_decide as Hd; [subst i|].
  - by rewrite list_lookup_insert_eq.
  - by rewrite list_lookup_insert_ne.
Qed.

Lemma store_sim s ptrs bs k b off v :
  sim s ptrs bs -> bs !! k = Some b -> 0 <= off < asize b + 4096 ->
  if alive b && (off <? asize b) then
    exists s', user_store (payload (place bs k) (asize b) + off) v s = Ok (tt, s') /\
      sim s' ptrs (<[k := mkAllocation (asize b) true (<[Z.to_nat off := v mod 256]> (adata b))]> bs)
  else user_store (payload (place bs k) (asize b) + off) v s = Err (Exit INVALID_HEAP_ACCESS).
Proof.
  intros W E Ho. pose proof (sm_heap _ _ _ W) as H. unfold user_store, st.
  rewrite bind_ok with (a := s) (s' := s) by done. rewrite (access s bs k b off H E Ho).
  destruct (alive b) eqn:Ea; cbn [andb]; [|exact (access_fault s bs k b off H E Ho)].
  destruct (Z.ltb_spec off (asize b)) as [Hlt|Hge]; [|exact (access_fault s bs k b off H E Ho)].
  destruct (place_bounds _ _ _ _ H E) as (Hs & Hp & Hn & He & Hr). pose proof (pages_bounds _ Hs) as Hpb.
  eexists. split; [reflexivity|]. apply (sim_insert s _ ptrs bs k b); try done; cbn [adata asize aram].
  - by rewrite length_insert.
  - replace (shape (<[k:=_]> bs)) with (shape bs).
    + apply (heap_ok_store s); try done; cbn [aram].
      * intros pre size live post Esh a Ha. destruct (shape_inv _ _ _ _ _ Esh) as (b1 & E1 & <- & _ & Hpl).
        rewrite byte_at_store1, decide_False; [done|]. rewrite Hpl in Ha. unfold payload.
        destruct (decide (length pre = k)) as [Hk|Hne]; [rewrite Hk in Ha; lia|].
        destruct (place_bounds _ _ _ _ H E1) as (Hs1 & Hp1 & Hn1 & He1 & Hr1).
        destruct (place_apart s bs _ k b1 b H E1 E Hne); lia.
      * intros a Ha. rewrite byte_at_store1, decide_False; [done|]. unfold payload. lia.
    + symmetry. rewrite (shape_insert bs k b) by done. cbn [asize alive]. rewrite <- Ea. symmetry. by apply shape_split.
  - intros i _ Hi. rewrite byte_at_store1, nth_insert by (pose proof (sm_data _ _ _ W k b E); lia).
    repeat case_decide; try lia. exact (sm_bytes _ _ _ W k b i E Ea Hi).
  - intros j b1 i Hne E1 Hi. rewrite byte_at_store1, decide_False; [done|].
    destruct (place_bounds _ _ _ _ H E1) as (Hs1 & Hp1 & Hn1 & He1 & Hr1). pose proof (pages_bounds _ Hs1).
    unfold payload. destruct (place_apart s bs j k b1 b H E1 E Hne); lia.
Qed.

Lemma free_sim s ptrs bs k b :
  sim s ptrs bs -> bs !! k = Some b ->
  if alive b then
    exists s', free START_PAGE (payload (place bs k) (asize b)) s = Ok (tt, s') /\
      sim s' ptrs (<[k := mkAllocation (asize b) false (adata b)]> bs)
  else free START_PAGE (payload (place bs k) (asize b)) s = Err (Exit DOUBLE_FREE).
Proof.
  intros W E. pose proof (sm_heap _ _ _ W) as H. pose proof H as H'. rewrite (shape_split _ _ _ E) in H'.
  destruct (place_bounds _ _ _ _ H E) as (Hs & Hp & Hn & He & Hr). unfold place in *.
  destruct (alive b) eqn:Ea; [|exact (free_double START_PAGE s _ _ _ H')].
  destruct (free_correct START_PAGE s _ _ _ H') as (s' & Ef & Hok & Hm). exists s'. split; [done|].
  apply (sim_insert s s' ptrs bs k b); try done; cbn [adata asize alive].
  - by rewrite (shape_insert bs k b).
  - intros j b1 i Hne E1 Hi. apply Hm. fold (place bs k).
    destruct (place_bounds _ _ _ _ H E1) as (Hs1 & Hp1 & Hn1 & He1 & Hr1). pose proof (pages_bounds _ Hs1).
    unfold payload. destruct (place_apart s bs j k b1 b H E1 E Hne) as [Ho|Ho]; unfold place in *; lia.
Qed.

Lemma malloc_sim s ptrs bs size :
  sim s ptrs bs -> 0 <= size -> Q0 + npages (shape bs) + 1 + pages size < QE ->
  exists p s', malloc START_PAGE size s = Ok (p, s') /\
    sim s' (ptrs ++ [p]) (bs ++ [mkAllocation size true (replicate (Z.to_nat size) 0)]).
Proof.
  intros W Hs Hroom. pose proof W as [H W1 W2 W3 W4 W5].
  destruct (malloc_correct START_PAGE s _ size H Hs ltac:(lia)) as (s' & E & Hok & Hm).
  do 2 eexists. split; [exact E|]. rewrite (hp_end _ _ H) in Hm. pose proof (pages_bounds size Hs) as Hpb.
  assert (Hsh : shape (bs ++ [mkAllocation size true (replicate (Z.to_nat size) 0)]) = shape bs ++ [(size, true)])
    by (unfold shape; by rewrite fmap_app).
  assert (Hpl : forall k b, bs !! k = Some b -> place (bs ++ [mkAllocation size true (replicate (Z.to_nat size) 0)]) k = place bs k).
  { intros k b Ek. unfold place. rewrite take_app_le; [done|]. apply lookup_lt_Some in Ek. lia. }
  assert (Hend : place (bs ++ [mkAllocation size true (replicate (Z.to_nat size) 0)]) (length bs) = Q0 + npages (shape bs)).
  { unfold place. by rewrite take_app_length. }
  split.
  - by rewrite Hsh.
  - rewrite Hsh, npages_app. cbn [npages]. lia.
  - rewrite !length_app. cbn. lia.
  - intros k b Ek. apply lookup_snoc_Some in Ek as [[Hk Ek]|[-> <-]].
    + rewrite (Hpl k b Ek), lookup_app_l by lia. by apply W3.
    + rewrite Hend, lookup_app_r, W2, Nat.sub_diag by lia. done.
  - intros k b Ek. apply lookup_snoc_Some in Ek as [[Hk Ek]|[-> <-]]; [by apply (W4 k)|].
    cbn. rewrite length_replicate. lia.
  - intros k b i Ek Ha Hi. apply lookup_snoc_Some in Ek as [[Hk Ek]|[-> <-]].
    + rewrite (Hpl k b Ek). rewrite Hm; [by apply W5|].
      destruct (place_bounds _ _ _ _ H Ek) as (Hs1 & Hp1 & Hn1 & He1 & Hr1). pose proof (pages_bounds _ Hs1).
      left. unfold payload. lia.
    + rewrite Hend. cbn [asize adata] in *. rewrite Hm, (hp_zero _ _ H) by (unfold payload; lia).
      rewrite nth_lookup. destruct (replicate _ _ !! _) as [x|] eqn:Ex; [|done].
      by apply lookup_replicate in Ex as [-> _].
Qed.

(** The state after asan_init(). *)
Definition asan_ready : asan := mkAsan true START_PAGE true (mkRam 0 ∅) (fun _ => false) true.

Lemma asan_init_ready : asan_init START_PAGE asan_initial = Ok (tt, asan_ready).
Proof. reflexivity. Qed.

Lemma sim_ready : sim asan_ready [] [].
Proof.
  split; try done. split; try done.
  intros [|? ?]; done.
Qed.

Lemma malloc_initial size : malloc START_PAGE size asan_initial = malloc START_PAGE size asan_ready.
Proof. reflexivity. Qed.

(** ** Programs *)

Lemma fits_npages bs : npages ((fun z => (z, true)) <$> (asize <$> bs)) = npages (shape bs).
Proof. apply npages_sizes. unfold shape. by rewrite <- !list_fmap_compose. Qed.

Lemma asize_insert (bs : list allocation) k b b' : bs !! k = Some b -> asize b' = asize b -> asize <$> <[k := b']> bs = asize <$> bs.
Proof. intros E Es. rewrite list_fmap_insert, Es. apply list_insert_id. by rewrite list_lookup_fmap, E. Qed.

(** How a run and its specification relate. *)
Definition agree (r : res (list Z * asan)) (sp : res (list Z * list allocation)) : Prop :=
  match sp with
  | Ok (vs, bs') => exists s' ptrs', r = Ok (vs, s') /\ sim s' ptrs' bs'
  | Err f => r = Err f
  end.

Lemma run_sim l : forall s ptrs bs, sim s ptrs bs -> fits (asize <$> bs) l = true -> agree (run ptrs l s) (spec bs l).
Proof.
  induction l as [|[size|k|k off|k off v] l IH]; intros s ptrs bs W Hf; cbn [fits run spec] in *.
  - by exists s, ptrs.
  - apply andb_true_iff in Hf as [Hf Hf2]. apply andb_true_iff in Hf as [Hf0 Hf1].
    rewrite fmap_app in Hf1. cbn in Hf1. rewrite npages_app, fits_npages in Hf1. cbn [npages] in Hf1.
    destruct (malloc_sim s ptrs bs size W ltac:(lia) ltac:(lia)) as (p & s' & E & W'). rewrite (bind_ok _ _ _ _ _ E).
    apply IH; [done|]. by rewrite fmap_app.
  - apply andb_true_iff in Hf as [Hf0 Hf]. rewrite length_fmap in Hf0. apply Nat.ltb_lt in Hf0.
    destruct (lookup_lt_is_Some_2 bs k Hf0) as [b E]. rewrite E.
    rewrite (bind_ok _ _ s (payload (place bs k) (asize b)) s) by (unfold pointer; by rewrite (sm_ptrs _ _ _ W k b E)).
    pose proof (free_sim s ptrs bs k b W E) as Hfr. destruct (alive b); [|by rewrite (bind_err _ _ _ _ Hfr)].
    destruct Hfr as (s' & E' & W'). rewrite (bind_ok _ _ _ _ _ E'). apply IH; [done|]. by rewrite (asize_insert bs k b).
  - rewrite list_lookup_fmap in Hf. destruct (bs !! k) as [b|] eqn:E; [|done]. cbn in Hf.
    apply andb_true_iff in Hf as [Hf0 Hf]. apply andb_true_iff in Hf0 as [Hf0 Hf1]. unfold PAGE_SIZE in Hf1.
    rewrite (bind_ok _ _ s (payload (place bs k) (asize b)) s) by (unfold pointer; by rewrite (sm_ptrs _ _ _ W k b E)).
    pose proof (load_sim s ptrs bs k b off W E ltac:(lia)) as Hld.
    destruct (alive b && (off <? asize b)); [|by rewrite (bind_err _ _ _ _ Hld)]. rewrite (bind_ok _ _ _ _ _ Hld).
    specialize (IH s ptrs bs W Hf). destruct (spec bs l) as [[vs bs']|f]; cbn [agree rbind] in *.
    + destruct IH as (s' & ptrs' & E' & W'). exists s', ptrs'. by rewrite (bind_ok _ _ _ _ _ E').
    + by rewrite (bind_err _ _ _ _ IH).
  - rewrite list_lookup_fmap in Hf. destruct (bs !! k) as [b|] eqn:E; [|done]. cbn in Hf.
    apply andb_true_iff in Hf as [Hf0 Hf]. apply andb_true_iff in Hf0 as [Hf0 Hf1]. unfold PAGE_SIZE in Hf1.
    rewrite (bind_ok _ _ s (payload (place bs k) (asize b)) s) by (unfold pointer; by rewrite (sm_ptrs _ _ _ W k b E)).
    pose proof (store_sim s ptrs bs k b off v W E ltac:(lia)) as Hst.
    destruct (alive b && (off <? asize b)); [|by rewrite (bind_err _ _ _ _ Hst)].
    destruct Hst as (s' & E' & W'). rewrite (bind_ok _ _ _ _ _ E'). apply IH; [done|]. by rewrite (asize_insert bs k b).
Qed.

Lemma existsb_shape bs : existsb snd (shape bs) = existsb alive bs.
Proof. induction bs as [|b bs IH]; [done|]. change (alive b || existsb snd (shape bs) = alive b || existsb alive bs). by rewrite IH. Qed.

(** What a program outputs and how its process ends. *)
Definition outcome (r : res (list Z * asan)) : res (list Z) := '(vs, _) <-! r;; Ok vs.

Lemma run_program_spec l : fits [] l = true -> outcome (run_program l asan_initial) = spec_program l.
Proof.
  intros Hf. destruct l as [|[size|k|k off|k off v] l]; try done.
  assert (E0 : run [] (RMalloc size :: l) asan_initial = run [] (RMalloc size :: l) asan_ready).
  { cbn [run]. unfold bind. by rewrite malloc_initial. }
  pose proof (run_sim _ asan_ready [] [] sim_ready Hf) as Ha. unfold run_program, spec_program.
  destruct (spec [] _) as [[vs bs]|f]; cbn [agree rbind] in *.
  - destruct Ha as (s & ptrs & E & W). rewrite (bind_ok _ _ asan_initial vs s) by (by rewrite E0).
    rewrite bind_ok with (a := s) (s' := s) by done. pose proof (sm_heap _ _ _ W) as H. rewrite (hp_leak _ _ H).
    pose proof (sm_spare _ _ _ W) as Hsp.
    pose proof (check_for_leaks_correct s _ H ltac:(lia)) as Hl. rewrite existsb_shape in Hl.
    destruct (existsb alive bs); [by rewrite (bind_err _ _ _ _ Hl)|].
    destruct Hl as (s' & El & _). by rewrite (bind_ok _ _ _ _ _ El).
  - by rewrite (bind_err _ _ asan_initial f) by (by rewrite E0).
Qed.

(** ** Properties of the address sanitizer *)

(** C8: the sanitizer keeps its promises over a whole process.  A program that
    allocates, frees, reads and writes bytes of its allocations (offsets up to
    one page past the end) and exits reads from a live allocation exactly the
    bytes it wrote there last (zeros before), ends with status 11 at the first
    access past the end of an allocation or to a freed one, with status 21 at
    the first double free, and with status 30 if an allocation is left at
    exit; otherwise it ends without a report. *)
Theorem asan_program l :
  fits [] l = true -> outcome (run_program l asan_initial) = spec_program l.
Proof. apply run_program_spec. Qed.

Definition demo_requests : list request :=
  [RMalloc 5; RStore 0 4 300; RMalloc 4096; RStore 1 4095 7; RLoad 0 4; RLoad 1 4095; RLoad 1 0; RFree 0; RMalloc 0;
   RFree 2; RFree 1].

Definition demo_use_after_free : list request := [RMalloc 5; RMalloc 9; RFree 0; RLoad 1 3; RStore 0 0 1].

Lemma asan_program_witness :
  outcome (run_program demo_requests asan_initial) = Ok [44; 7; 0] /\
  outcome (run_program demo_use_after_free asan_initial) = Err (Exit 11).
Proof.
  split.
  - transitivity (spec_program demo_requests); [apply asan_program; vm_compute; reflexivity|vm_compute; reflexivity].
  - transitivity (spec_program demo_use_after_free); [apply asan_program; vm_compute; reflexivity|vm_compute; reflexivity].
Defined.

(** ** Invalid frees *)

Lemma free_below r s ptr : is_initialized s = true -> ptr <> NULL -> ptr < START_PAGE + PAGE_SIZE ->
  free r ptr s = Err (Exit INVALID_FREE).
Proof.
  intros Hi Hn Hp. unfold free. rewrite (bind_ok _ _ _ _ _ (init_noop r s Hi)).
  rewrite (proj2 (Z.eqb_neq _ _)) by done. by rewrite (proj2 (Z.ltb_lt _ _)) by done.
Qed.

Lemma load_zero m n a b : (forall x, b <= x -> byte_at m x = 0) -> b <= a -> load n m a = 0.
Proof.
  intros Hz. unfold load. revert a. induction n as [|n IH]; intros a Ha; [done|]. cbn [read_bytes le_combine].
  by rewrite Hz, IH by lia.
Qed.

Lemma free_untouched r s bs q ptr : heap_ok s bs -> Q0 + npages bs <= q < QE ->
  (q + 1) * 4096 <= ptr < (q + 2) * 4096 -> free r ptr s = Err (Exit INVALID_FREE).
Proof.
  intros H Hq Hp. pose proof (npages_nonneg bs (hp_sizes _ _ H)).
  destruct (free_start r s q ptr (hp_init _ _ H) (hp_map _ _ H) ltac:(lia) ltac:(lia)) as (s1 & -> & F1 & R1 & P1 & _).
  pose proof (fr_map _ _ F1) as M1. rewrite (hp_map _ _ H) in M1. unfold free_rest.
  rewrite (bind_ok _ _ _ _ _ (ld_page 8 q 8 s1 M1 ltac:(lia) ltac:(lia) P1)).
  rewrite (bind_ok _ _ _ _ _ (ld_page 8 q 0 s1 M1 ltac:(lia) ltac:(lia) P1)).
  by rewrite R1, !(load_zero _ _ _ _ (hp_zero _ _ H)) by lia.
Qed.

(** free() reports an invalid free (status 20), and changes nothing that
    the program could still see, for every pointer of the region that is not
    the result of malloc() and whose preceding page is not a payload page:
    below the first payload page, inside the first payload page of an
    allocation but not at its start, or beyond the last allocation. *)
Theorem asan_invalid_free r s bs ptr :
  heap_ok s bs -> ptr <> NULL -> ptr < START_PAGE + MAX_HEAP_SIZE ->
  (forall pre size live post, bs = pre ++ (size, live) :: post -> ptr <> payload (Q0 + npages pre) size) ->
  (forall pre size live post, bs = pre ++ (size, live) :: post ->
     ~ (Q0 + npages pre < page_of ptr - 1 <= Q0 + npages pre + pages size)) ->
  free r ptr s = Err (Exit INVALID_FREE).
Proof.
  intros H Hn He Hnot Hpage. destruct (Z.ltb_spec ptr (START_PAGE + PAGE_SIZE)) as [Hlt|Hge].
  { by apply free_below; [apply H| |]. }
  destruct region_consts as [E1 E2]. remember (page_of ptr - 1) as q eqn:Hqd in *.
  assert (Hq : (q + 1) * 4096 <= ptr < (q + 2) * 4096).
  { unfold page_of, PAGE_SIZE in Hqd. pose proof (Z.div_mod ptr 4096 ltac:(lia)).
    pose proof (Z.mod_pos_bound ptr 4096 ltac:(lia)). lia. }
  assert (HqR : Q0 <= q < QE) by (change PAGE_SIZE with 4096 in Hge; lia).
  destruct (decide (q < Q0 + npages bs)) as [Hin|Hout]; [|exact (free_untouched r s bs q ptr H ltac:(lia) Hq)].
  destruct (find_place bs (q - Q0) (hp_sizes _ _ H) ltac:(lia)) as (pre & size & live & post & E & Hr).
  assert (Eq : q = Q0 + npages pre) by (specialize (Hpage _ _ _ _ E); lia).
  rewrite Eq in Hq. rewrite E in H. apply (free_not_block r s pre size live post ptr H Hq (Hnot _ _ _ _ E)).
Qed.

Definition demo_one : asan := match malloc START_PAGE 5 asan_initial with Ok (_, s) => s | Err _ => asan_initial end.

Lemma demo_one_ok : heap_ok demo_one [(5, true)].
Proof.
  destruct (malloc_correct START_PAGE asan_ready [] 5 (sm_heap _ _ _ sim_ready) ltac:(lia) ltac:(vm_compute; done))
    as (s' & E & H & _).
  unfold demo_one. by rewrite malloc_initial, E.
Qed.

Lemma asan_invalid_free_witness : free START_PAGE (START_PAGE + 8191) demo_one = Err (Exit INVALID_FREE).
Proof.
  apply (asan_invalid_free START_PAGE demo_one [(5, true)] (START_PAGE + 8191) demo_one_ok).
  - done.
  - done.
  - intros [|? [|? ?]] size live post E; simplify_eq/=. done.
  - intros [|? [|? ?]] size live post E; simplify_eq/=. vm_compute. intros [? ?]. done.
Defined.
