(* ===== verification/Queue.v ===== *)
(** * The work queue (threadpool/src/queue.c)

    A doubly linked list between two sentinel nodes, protected by a mutex.
    Nodes live in a heap of their own, their fields are uninitialised until
    they are assigned, and freed nodes cannot be accessed.  The statements of a
    critical section are kept as a list, so that the threads of the pool can
    execute them one at a time. *)
From stdpp Require Import prelude gmap list.
From Stdlib Require Import ZArith Lia.
From S2P Require Import Prelude.
Open Scope Z_scope.
Open Scope c_scope.

Definition NULL : Z := 0.

(** node_t *)
Record node := mkNode { value : option Z; next : option Z; prev : option Z }.

(** queue_t without its mutex and condition variable, and the nodes. *)
Record queue := mkQueue { head : Z; tail : Z; size : Z; nodes : gmap Z node }.

(** The local variables of queue_enqueue() and queue_dequeue(). *)
Record locals := mkLocals { new_node : Z; result : Z; node_to_dequeue : Z }.

Definition no_locals : locals := mkLocals NULL NULL NULL.

Definition Q (A : Type) := M (locals * queue) A.

Definition set_value (v : Z) (n : node) : node := mkNode (Some v) (next n) (prev n).
Definition set_next (v : Z) (n : node) : node := mkNode (value n) (Some v) (prev n).
Definition set_prev (v : Z) (n : node) : node := mkNode (value n) (next n) (Some v).

(** [p->field] and [p->field = ...] *)
Definition load_field (f : node -> option Z) (p : Z) : Q Z := fun s =>
  match nodes s.2 !! p with
  | Some n => match f n with Some v => Ok (v, s) | None => Err UB end
  | None => Err (Segv p)
  end.

Definition store_field (f : node -> node) (p : Z) : Q unit := fun s =>
  match nodes s.2 !! p with
  | Some n => Ok (tt, (s.1, mkQueue (head s.2) (tail s.2) (size s.2) (<[p := f n]> (nodes s.2))))
  | None => Err (Segv p)
  end.

Definition set_locals (f : locals -> locals) : Q unit := modify (fun s => (f s.1, s.2)).
Definition set_size (n : Z) : Q unit := modify (fun s => (s.1, mkQueue (head s.2) (tail s.2) n (nodes s.2))).

(** free(p) of a node *)
Definition free_node (p : Z) : Q unit := fun s =>
  match nodes s.2 !! p with
  | Some _ => Ok (tt, (s.1, mkQueue (head s.2) (tail s.2) (size s.2) (delete p (nodes s.2))))
  | None => Err UB
  end.

Section queue.
(** malloc() of the C library: a new address, given those in use. *)
Context (new_address : gset Z -> Z).

Definition malloc_node : Q Z := fun s =>
  let p := new_address (dom (nodes s.2)) in
  Ok (p, (s.1, mkQueue (head s.2) (tail s.2) (size s.2) (<[p := mkNode None None None]> (nodes s.2)))).

(** Two nodes for the sentinels of an empty queue. *)
Definition queue_init : queue :=
  let head := new_address ∅ in
  let tail := new_address {[head]} in
  mkQueue head tail 0
    (<[head := mkNode None (Some tail) None]> (<[tail := mkNode None None (Some head)]> ∅)).

(** The critical section of queue_enqueue(), up to pthread_cond_signal(). *)
Definition enqueue_code (v : Z) : list (Q unit) :=
  [ p <- malloc_node;; set_locals (fun l => mkLocals p (result l) (node_to_dequeue l));
    l <- gets fst;; store_field (set_value v) (new_node l);
    q <- gets snd;; l <- gets fst;; p <- load_field prev (tail q);; store_field (set_next (new_node l)) p;
    q <- gets snd;; l <- gets fst;; store_field (set_prev (new_node l)) (tail q);
    q <- gets snd;; l <- gets fst;; p <- load_field prev (tail q);; store_field (set_prev p) (new_node l);
    q <- gets snd;; l <- gets fst;; store_field (set_next (tail q)) (new_node l);
    q <- gets snd;; set_size (u64 (size q + 1)) ].

End queue.

(** The critical section of queue_dequeue(), after the wait loop. *)
Definition dequeue_code : list (Q unit) :=
  [ q <- gets snd;; p <- load_field next (head q);; v <- load_field value p;;
      set_locals (fun l => mkLocals (new_node l) v (node_to_dequeue l));
    q <- gets snd;; p <- load_field next (head q);; set_locals (fun l => mkLocals (new_node l) (result l) p);
    q <- gets snd;; l <- gets fst;; p <- load_field next (node_to_dequeue l);; store_field (set_prev (head q)) p;
    q <- gets snd;; p <- load_field next (head q);; p' <- load_field next p;; store_field (set_next p') (head q);
    l <- gets fst;; free_node (node_to_dequeue l);
    q <- gets snd;; set_size (u64 (size q - 1)) ].

(** Statements in sequence. *)
Fixpoint exec (code : list (Q unit)) : Q unit :=
  match code with
  | [] => ret tt
  | c :: code => c;;; exec code
  end.

(** The operations as a single thread runs them.  queue_dequeue() on an empty
    queue blocks: [None]. *)
Definition queue_enqueue (new_address : gset Z -> Z) (v : Z) (q : queue) : res queue :=
  '(_, (_, q')) <-! exec (enqueue_code new_address v) (no_locals, q);; Ok q'.

Definition queue_dequeue (q : queue) : option (res (Z * queue)) :=
  if size q =? 0 then None
  else Some ('(_, (l, q')) <-! exec dequeue_code (no_locals, q);; Ok (result l, q')).

(** queue_free() releases the sentinels; a node that is left is a leak. *)
Definition queue_free (q : queue) : res queue :=
  '(_, (_, q')) <-! (free_node (head q);;; free_node (tail q)) (no_locals, q);; Ok q'.
