(* ===== verification/QueueProofs.v ===== *)
(** * The work queue is a list

    [repr q l] says that the queue holds the values [l], first one first: the
    nodes form a chain from the head sentinel to the tail sentinel along their
    next fields, and the prev field of the tail sentinel names the last one.
    Nothing is said of the prev fields of the other nodes: queue_enqueue()
    makes them point to the node itself, and no operation reads them. *)
From stdpp Require Import prelude gmap list.
From Stdlib Require Import ZArith Lia.
From S2P Require Import Prelude Queue.
Open Scope Z_scope.
Open Scope c_scope.

(** A field of a node of the heap. *)
Definition fld (f : node -> option Z) (m : gmap Z node) (p : Z) : option Z := m !! p ≫= f.

(** From [p] the next fields lead through the nodes [ps] to [t]. *)
Fixpoint seg (m : gmap Z node) (p : Z) (ps : list (Z * Z)) (t : Z) : Prop :=
  match ps with
  | [] => fld next m p = Some t
  | (a, v) :: ps => fld next m p = Some a /\ fld value m a = Some v /\ seg m a ps t
  end.

Record linked (q : queue) (ps : list (Z * Z)) : Prop := {
  lk_seg : seg (nodes q) (head q) ps (tail q);
  lk_last : fld prev (nodes q) (tail q) = Some (List.last ps.*1 (head q));
  lk_nodup : NoDup (head q :: tail q :: ps.*1);
  lk_dom : dom (nodes q) = list_to_set (head q :: tail q :: ps.*1);
  lk_size : size q = Z.of_nat (length ps);
  lk_bound : Z.of_nat (length ps) < 2 ^ 64
}.

Definition repr (q : queue) (l : list Z) : Prop := exists ps, linked q ps /\ ps.*2 = l.

(** What malloc() promises. *)
Definition good_malloc (new_address : gset Z -> Z) : Prop :=
  forall X, (new_address X ∉ X) /\ new_address X <> NULL.

Lemma fld_insert f m a n x : fld f (<[a := n]> m) x = if decide (x = a) then f n else fld f m x.
Proof. unfold fld. case_decide as H; [subst|]; by simplify_map_eq. Qed.

Lemma fld_delete f m a x : x <> a -> fld f (delete a m) x = fld f m x.
Proof. intros H. unfold fld. by rewrite lookup_delete_ne. Qed.

Lemma seg_ext m m' p ps t :
  (forall x, x ∈ p :: ps.*1 -> fld next m' x = fld next m x) ->
  (forall x, x ∈ ps.*1 -> fld value m' x = fld value m x) -> seg m p ps t -> seg m' p ps t.
Proof.
  revert p. induction ps as [|[a v] ps IH]; intros p Hn Hv Hs; cbn in *.
  - rewrite Hn; [done|]. set_solver.
  - destruct Hs as (H1 & H2 & H3). rewrite Hn, Hv by set_solver. split_and!; try done.
    apply IH; try done; intros x Hx; [apply Hn|apply Hv]; set_solver.
Qed.

Lemma last_cons (a : Z) l d : List.last (a :: l) d = List.last l a.
Proof. revert a d. induction l as [|b l IH]; intros a d; [done|]. etransitivity; [exact (IH b d)|symmetry; exact (IH b a)]. Qed.

Lemma last_in (l : list Z) d : List.last l d ∈ d :: l.
Proof.
  revert d. induction l as [|b l IH]; intros d; [set_solver|]. rewrite last_cons. specialize (IH b). set_solver.
Qed.

Lemma last_snoc (l : list Z) x d : List.last (l ++ [x]) d = x.
Proof. revert d. induction l as [|a l IH]; intros d; [done|]. cbn [app]. rewrite last_cons. apply IH. Qed.

(** Appending the node [b] after the last one. *)
Lemma seg_snoc m m' p ps t b v :
  seg m p ps t -> NoDup (p :: ps.*1) ->
  (forall x, x ∈ p :: ps.*1 -> fld next m' x = if decide (x = List.last ps.*1 p) then Some b else fld next m x) ->
  (forall x, x ∈ ps.*1 -> fld value m' x = fld value m x) ->
  fld next m' b = Some t -> fld value m' b = Some v ->
  seg m' p (ps ++ [(b, v)]) t.
Proof.
  revert p. induction ps as [|[a w] ps IH]; intros p Hs Hnd Hn Hv Hb Hb'; cbn in *.
  - rewrite Hn by set_solver. by rewrite decide_True.
  - destruct Hs as (H1 & H2 & H3). inversion_clear Hnd as [|? ? Hp Hnd'].
    pose proof (last_cons a ps.*1 p) as Hlast. cbn [List.last] in Hlast. rewrite Hlast in Hn.
    rewrite Hn by set_solver. rewrite decide_False by (pose proof (last_in ps.*1 a); set_solver). split; [done|].
    rewrite Hv by set_solver. split; [done|]. apply IH; try done.
    + intros x Hx. apply Hn. set_solver.
    + intros x Hx. apply Hv. set_solver.
Qed.

(** The nodes of a queue exist. *)
Lemma linked_node q ps p : linked q ps -> p ∈ head q :: tail q :: ps.*1 -> exists n, nodes q !! p = Some n.
Proof. intros H Hp. apply elem_of_dom. rewrite (lk_dom _ _ H). by apply elem_of_list_to_set. Qed.

Section proofs.
Context (new_address : gset Z -> Z) (Hmalloc : good_malloc new_address).

Lemma queue_init_repr : repr (queue_init new_address) [].
Proof.
  exists []. split; [|done]. unfold queue_init. cbv zeta.
  destruct (Hmalloc ∅) as [H1 _]. destruct (Hmalloc {[new_address ∅]}) as [H2 _].
  split; cbn [nodes head tail size seg fmap list_fmap length List.last].
  - rewrite fld_insert. by rewrite decide_True.
  - rewrite !fld_insert. rewrite decide_False by set_solver. by rewrite decide_True.
  - rewrite !NoDup_cons. split_and!; [set_solver|set_solver|apply NoDup_nil_2].
  - set_solver.
  - done.
  - done.
Qed.

Lemma exec_cons c code s s' : c s = Ok (tt, s') -> exec (c :: code) s = exec code s'.
Proof. intros E. cbn [exec]. by rewrite (bind_ok _ _ _ _ _ E). Qed.

Lemma enqueue_exec v q l l0 :
  repr q l -> Z.of_nat (length l) + 1 < 2 ^ 64 ->
  exists l1 q', exec (enqueue_code new_address v) (l0, q) = Ok (tt, (l1, q')) /\ repr q' (l ++ [v]).
Proof.
  intros (ps & [Hseg Hlast Hnd Hdom Hsize Hbound] & El) Hlen. destruct q as [h t sz m]. cbn [head tail size nodes] in *.
  destruct (Hmalloc (dom m)) as [Hfresh _]. remember (new_address (dom m)) as p eqn:Ep.
  rewrite Hdom in Hfresh. pose proof (last_in ps.*1 h) as Hx. remember (List.last ps.*1 h) as x eqn:Ex.
  rewrite !NoDup_cons in Hnd. destruct Hnd as (Hnd1 & Hnd2 & Hnd3).
  assert (Hpx : p <> x) by (clear -Hx Hfresh; set_solver). assert (Hpt : p <> t) by (clear -Hfresh; set_solver).
  assert (Hxt : x <> t) by (clear -Hx Hnd1 Hnd2; set_solver).
  assert (Hmx : exists nx, m !! x = Some nx) by (apply elem_of_dom; rewrite Hdom; clear -Hx; set_solver).
  destruct Hmx as [nx Hmx]. unfold fld in Hlast. destruct (m !! t) as [nt|] eqn:Hmt; [|done]. cbn in Hlast.
  do 2 eexists. split.
  { unfold enqueue_code. cbn [exec].
    unfold bind, gets, set_locals, malloc_node, store_field, load_field, set_size, modify, ret. cbn [fst snd nodes head tail size new_node].
    rewrite <- Ep. clear Ep Ex. repeat (simplify_map_eq; try rewrite Hlast; cbn [fst snd nodes head tail size new_node prev set_value set_next set_prev value next]).
    reflexivity. }
  exists (ps ++ [(p, v)]). split; [|by rewrite fmap_app, El].
  assert (Hps : length ps = length l) by (by rewrite <- El, length_fmap).
  split; cbn [nodes head tail size].
  - apply (seg_snoc m); try done.
    + apply NoDup_cons. split; [clear -Hnd1; set_solver|done].
    + intros y Hy. assert (Hyp : y <> p) by (clear -Hy Hfresh; set_solver). assert (Hyt : y <> t) by (clear -Hy Hnd1 Hnd2; set_solver).
      rewrite <- ?Ex, !fld_insert. repeat case_decide; try congruence; cbn; unfold fld; congruence || (subst y; by rewrite Hmx).
    + intros y Hy. assert (Hyp : y <> p) by (clear -Hy Hfresh; set_solver). assert (Hyt : y <> t) by (clear -Hy Hnd1 Hnd2; set_solver).
      rewrite <- ?Ex, !fld_insert. repeat case_decide; try congruence; cbn; unfold fld; congruence || (subst y; by rewrite Hmx).
    + rewrite !fld_insert. by rewrite decide_True.
    + rewrite !fld_insert. by rewrite decide_True.
  - rewrite !fld_insert. rewrite fmap_app. cbn [fmap list_fmap fst]. rewrite last_snoc. repeat case_decide; simplify_eq; done.
  - rewrite fmap_app. cbn. rewrite !NoDup_cons. split_and!; [clear -Hnd1 Hfresh; set_solver|clear -Hnd2 Hfresh; set_solver|].
    apply NoDup_app. split_and!; [done|clear -Hfresh; set_solver|apply NoDup_singleton].
  - rewrite !dom_insert_L, Hdom, fmap_app. cbn. clear -Hx. set_solver.
  - rewrite length_app. cbn. rewrite ?Hsize, wrapU_small by lia. lia.
  - rewrite length_app. cbn. lia.
Qed.

End proofs.

Lemma seg_head m p ps t : seg m p ps t -> fld next m p = Some (List.hd t ps.*1).
Proof. destruct ps as [|[a v] ps]; cbn; [done|]. by intros [H _]. Qed.

Lemma dequeue_exec v q l l0 :
  repr q (v :: l) ->
  exists l1 q', exec dequeue_code (l0, q) = Ok (tt, (l1, q')) /\ result l1 = v /\ repr q' l.
Proof.
  intros (ps & [Hseg Hlast Hnd Hdom Hsize Hbound] & El). destruct q as [h t sz m]. cbn [head tail size nodes] in *.
  destruct ps as [|[a w] ps]; [done|]. injection El as -> El. cbn [seg] in Hseg. destruct Hseg as (H1 & H2 & H3).
  pose proof (seg_head _ _ _ _ H3) as H4. remember (List.hd t ps.*1) as b eqn:Eb.
  cbn [fmap list_fmap fst] in Hnd, Hdom, Hlast. rewrite last_cons in Hlast.
  rewrite !NoDup_cons in Hnd. destruct Hnd as (Hn1 & Hn2 & Hn3 & Hn4).
  assert (Hha : h <> a) by (clear -Hn1; set_solver). assert (Hht : h <> t) by (clear -Hn1; set_solver).
  assert (Hat : a <> t) by (clear -Hn2; set_solver).
  assert (Hb : b = t \/ b ∈ ps.*1) by (subst b; clear; destruct (ps.*1); [by left|right; set_solver]).
  assert (Hbh : b <> h) by (clear -Hb Hn1 Hht; set_solver). assert (Hba : b <> a) by (clear -Hb Hn3 Hat; set_solver).
  assert (Hmb : exists nb, m !! b = Some nb) by (apply elem_of_dom; rewrite Hdom; clear -Hb; set_solver).
  destruct Hmb as [nb Hmb]. unfold fld in H1, H2, H4.
  destruct (m !! h) as [nh|] eqn:Hmh; [|done]. destruct (m !! a) as [na|] eqn:Hma; [|done]. cbn in H1, H2, H4.
  do 2 eexists. split.
  { unfold dequeue_code. cbn [exec].
    unfold bind, gets, set_locals, free_node, store_field, load_field, set_size, modify, ret.
    cbn [fst snd nodes head tail size new_node result node_to_dequeue].
    clear Eb Hsize. repeat (simplify_map_eq; cbn [fst snd nodes head tail size new_node result node_to_dequeue prev set_next set_prev value next]).
    reflexivity. }
  split; [done|]. exists ps. split; [|done].
  assert (Hnot : forall y, y ∈ ps.*1 -> y <> a /\ y <> h) by (clear -Hn1 Hn3; set_solver).
  split; cbn [nodes head tail size].
  - destruct ps as [|[c u] ps]; cbn [seg fmap list_fmap fst] in *.
    + rewrite fld_delete, fld_insert, decide_True by done. cbn. by subst b.
    + destruct H3 as (K1 & K2 & K3). cbn in Eb. subst b. destruct (Hnot c) as [Hca Hch]; [set_solver|].
      rewrite fld_delete, fld_insert, decide_True by done. cbn. split; [done|].
      rewrite fld_delete, !fld_insert, decide_False, decide_True by done. cbn.
      unfold fld in K2. rewrite Hmb in K2. split; [done|].
      apply (seg_ext m); [| |done]; intros y Hy;
        (destruct (Hnot y) as [Hya Hyh]; [clear -Hy; set_solver|]);
        rewrite fld_delete, !fld_insert, (decide_False (P := y = h)) by done;
        case_decide; [subst y; cbn; unfold fld; by rewrite Hmb|done|subst y; cbn; unfold fld; by rewrite Hmb|done].
  - rewrite fld_delete, !fld_insert, (decide_False (P := t = h)) by done. case_decide as Hd.
    + cbn. destruct (ps.*1) as [|c r] eqn:Ep; [done|]. cbn in Eb. subst. clear -Hn2. set_solver.
    + destruct (ps.*1) as [|c r] eqn:Ep; [cbn in Eb; congruence|]. rewrite Hlast, !last_cons. done.
  - rewrite !NoDup_cons. split_and!; [clear -Hn1; set_solver|clear -Hn2; set_solver|done].
  - rewrite dom_delete_L, !dom_insert_L, Hdom. cbn. clear -Hb Hnot Hha Hat. set_solver.
  - rewrite ?Hsize. cbn [length] in *. rewrite wrapU_small by lia. lia.
  - cbn [length] in Hbound. lia.
Qed.

(** An empty queue is released completely. *)
Lemma queue_free_empty q : repr q [] -> exists q', queue_free q = Ok q' /\ nodes q' = ∅.
Proof.
  intros (ps & [Hseg Hlast Hnd Hdom Hsize Hbound] & El). destruct ps; [|done]. destruct q as [h t sz m].
  cbn [head tail size nodes fmap list_fmap] in *. rewrite !NoDup_cons in Hnd. destruct Hnd as (Hn & _).
  assert (Hh : is_Some (m !! h)) by (apply elem_of_dom; rewrite Hdom; set_solver).
  assert (Ht : is_Some (delete h m !! t)).
  { rewrite lookup_delete_ne by set_solver. apply elem_of_dom. rewrite Hdom. set_solver. }
  destruct Hh as [nh Eh], Ht as [nt Et]. eexists. split.
  { unfold queue_free, free_node, bind. cbn [head tail size nodes fst snd]. rewrite Eh. cbn [head tail size nodes fst snd].
    rewrite Et. reflexivity. }
  cbn [nodes]. apply dom_empty_inv_L. rewrite !dom_delete_L, Hdom. set_solver.
Qed.
