(* ===== verification/ThreadPool.v ===== *)
(** * The thread pool (threadpool/src/thread_pool.c)

    The threads of a process that uses a pool once: the main thread creates
    the pool, adds work, and finishes the pool; the workers execute
    thread_execute().  A step of the system is a statement of one thread;
    inside the critical sections of the queue every assignment is a step of
    its own.  Work functions do not use the pool themselves. *)
From stdpp Require Import prelude gmap list.
From Stdlib Require Import ZArith Lia.
From S2P Require Import Prelude Queue.
Open Scope Z_scope.
Open Scope c_scope.

(** A work function and its argument. *)
Definition work := (Z * Z)%type.

(** A worker thread, by the statement it is about to execute. *)
Inductive worker :=
  | WNew                                    (* not created yet *)
  | WLock                                   (* pthread_mutex_lock() of queue_dequeue() *)
  | WTest                                   (* while (queue->size == 0) *)
  | WWait                                   (* blocked in pthread_cond_wait() *)
  | WWoken                                  (* woken, about to lock the mutex again *)
  | WCrit (code : list (Q unit)) (l : locals)  (* the rest of queue_dequeue() *)
  | WHave (value : Z)                       (* while (work != NULL) *)
  | WFree (funct : Z)                       (* free(funct) *)
  | WDone.                                  (* returned *)

(** The main thread. *)
Inductive main_thread :=
  | MCreate (i : nat)                       (* thread_pool_init(), about to create worker i *)
  | MNext                                   (* between the calls that enqueue *)
  | MLock (value : Z)                       (* pthread_mutex_lock() of queue_enqueue() *)
  | MCrit (value : Z) (code : list (Q unit)) (l : locals)  (* queue_enqueue() up to the signal *)
  | MUnlock (value : Z)                     (* pthread_mutex_unlock() *)
  | MJoin (i : nat)                         (* thread_pool_finish(), about to join worker i *)
  | MFreed.                                 (* thread_pool_free() has returned *)

Inductive tid := Main | Worker (i : nat).

(** What main still has to enqueue: thread_pool_add_work() for [Some w], the
    NULLs of thread_pool_finish() for [None].  [fetched] and [executed] record
    the values dequeued and the calls of work functions made so far. *)
Record pool := mkPool {
  work_queue : queue;
  functs : gmap Z work;
  mutex : option tid;
  workers : list worker;
  main : main_thread;
  todo : list (option work);
  fetched : list (option work);
  executed : list work
}.

Definition deref (fs : gmap Z work) (v : Z) : option work := if v =? NULL then None else fs !! v.

(** The calls of a run: the work, then a NULL for every worker. *)
Definition calls (num_workers : nat) (ws : list work) : list (option work) :=
  (Some <$> ws) ++ replicate num_workers None.

Section pool.
Context (new_address : gset Z -> Z).

(** Before the threads are created. *)
Definition initial (num_workers : nat) (ws : list work) : pool :=
  mkPool (queue_init new_address) ∅ None (replicate num_workers WNew) (MCreate 0) (calls num_workers ws) [] [].

(** Steps of worker [i]: thread_execute() and queue_dequeue(). *)
Inductive worker_step (i : nat) : pool -> pool -> Prop :=
  | step_lock q fs ws m td ft ex :
      ws !! i = Some WLock ->
      worker_step i (mkPool q fs None ws m td ft ex)
                    (mkPool q fs (Some (Worker i)) (<[i := WTest]> ws) m td ft ex)
  | step_wait q fs mu ws m td ft ex :
      ws !! i = Some WTest -> size q = 0 ->
      worker_step i (mkPool q fs mu ws m td ft ex)
                    (mkPool q fs None (<[i := WWait]> ws) m td ft ex)
  | step_relock q fs ws m td ft ex :
      ws !! i = Some WWoken ->
      worker_step i (mkPool q fs None ws m td ft ex)
                    (mkPool q fs (Some (Worker i)) (<[i := WTest]> ws) m td ft ex)
  | step_nonempty q fs mu ws m td ft ex :
      ws !! i = Some WTest -> size q <> 0 ->
      worker_step i (mkPool q fs mu ws m td ft ex)
                    (mkPool q fs mu (<[i := WCrit dequeue_code no_locals]> ws) m td ft ex)
  | step_crit q fs mu ws m td ft ex c code l l' q' :
      ws !! i = Some (WCrit (c :: code) l) -> c (l, q) = Ok (tt, (l', q')) ->
      worker_step i (mkPool q fs mu ws m td ft ex)
                    (mkPool q' fs mu (<[i := WCrit code l']> ws) m td ft ex)
  | step_unlock q fs mu ws m td ft ex l :
      ws !! i = Some (WCrit [] l) ->
      worker_step i (mkPool q fs mu ws m td ft ex)
                    (mkPool q fs None (<[i := WHave (result l)]> ws) m td (ft ++ [deref fs (result l)]) ex)
  | step_return q fs mu ws m td ft ex :
      ws !! i = Some (WHave NULL) ->
      worker_step i (mkPool q fs mu ws m td ft ex)
                    (mkPool q fs mu (<[i := WDone]> ws) m td ft ex)
  | step_call q fs mu ws m td ft ex f w :
      ws !! i = Some (WHave f) -> f <> NULL -> fs !! f = Some w ->
      worker_step i (mkPool q fs mu ws m td ft ex)
                    (mkPool q fs mu (<[i := WFree f]> ws) m td ft (ex ++ [w]))
  | step_free q fs mu ws m td ft ex f w :
      ws !! i = Some (WFree f) -> fs !! f = Some w ->
      worker_step i (mkPool q fs mu ws m td ft ex)
                    (mkPool q (delete f fs) mu (<[i := WLock]> ws) m td ft ex).

(** Steps of main: thread_pool_init(), thread_pool_add_work(), queue_enqueue(),
    thread_pool_finish() and thread_pool_free(). *)
Inductive main_step : pool -> pool -> Prop :=
  | step_create q fs mu ws i td ft ex :
      (i < length ws)%nat ->
      main_step (mkPool q fs mu ws (MCreate i) td ft ex)
                (mkPool q fs mu (<[i := WLock]> ws) (MCreate (S i)) td ft ex)
  | step_created q fs mu ws i td ft ex :
      (length ws <= i)%nat ->
      main_step (mkPool q fs mu ws (MCreate i) td ft ex)
                (mkPool q fs mu ws MNext td ft ex)
  | step_add_work q fs mu ws w td ft ex :
      let f := new_address (dom fs) in
      main_step (mkPool q fs mu ws MNext (Some w :: td) ft ex)
                (mkPool q (<[f := w]> fs) mu ws (MLock f) td ft ex)
  | step_add_null q fs mu ws td ft ex :
      main_step (mkPool q fs mu ws MNext (None :: td) ft ex)
                (mkPool q fs mu ws (MLock NULL) td ft ex)
  | step_enqueue_lock q fs ws v td ft ex :
      main_step (mkPool q fs None ws (MLock v) td ft ex)
                (mkPool q fs (Some Main) ws (MCrit v (enqueue_code new_address v) no_locals) td ft ex)
  | step_enqueue_crit q fs mu ws v c code l l' q' td ft ex :
      c (l, q) = Ok (tt, (l', q')) ->
      main_step (mkPool q fs mu ws (MCrit v (c :: code) l) td ft ex)
                (mkPool q' fs mu ws (MCrit v code l') td ft ex)
  | step_signal q fs mu ws v l i td ft ex :
      ws !! i = Some WWait ->
      main_step (mkPool q fs mu ws (MCrit v [] l) td ft ex)
                (mkPool q fs mu (<[i := WWoken]> ws) (MUnlock v) td ft ex)
  | step_signal_none q fs mu ws v l td ft ex :
      (forall i, ws !! i <> Some WWait) ->
      main_step (mkPool q fs mu ws (MCrit v [] l) td ft ex)
                (mkPool q fs mu ws (MUnlock v) td ft ex)
  | step_enqueue_unlock q fs mu ws v td ft ex :
      main_step (mkPool q fs mu ws (MUnlock v) td ft ex)
                (mkPool q fs None ws MNext td ft ex)
  | step_finish q fs mu ws ft ex :
      main_step (mkPool q fs mu ws MNext [] ft ex)
                (mkPool q fs mu ws (MJoin 0) [] ft ex)
  | step_join q fs mu ws i td ft ex :
      ws !! i = Some WDone ->
      main_step (mkPool q fs mu ws (MJoin i) td ft ex)
                (mkPool q fs mu ws (MJoin (S i)) td ft ex)
  | step_pool_free q q' fs mu ws i td ft ex :
      (length ws <= i)%nat -> queue_free q = Ok q' ->
      main_step (mkPool q fs mu ws (MJoin i) td ft ex)
                (mkPool q' fs mu ws MFreed td ft ex).

Definition step (s s' : pool) : Prop := main_step s s' \/ exists i, worker_step i s s'.

(** pthread_cond_wait() may return although nobody signalled. *)
Inductive spurious : pool -> pool -> Prop :=
  | wake_spurious i q fs mu ws m td ft ex :
      ws !! i = Some WWait ->
      spurious (mkPool q fs mu ws m td ft ex) (mkPool q fs mu (<[i := WWoken]> ws) m td ft ex).

(** Runs with their numbers of steps and of spurious wake-ups. *)
Inductive runs : nat -> nat -> pool -> pool -> Prop :=
  | runs_refl s : runs 0 0 s s
  | runs_step k j s1 s2 s3 : runs k j s1 s2 -> step s2 s3 -> runs (S k) j s1 s3
  | runs_spurious k j s1 s2 s3 : runs k j s1 s2 -> spurious s2 s3 -> runs k (S j) s1 s3.

End pool.
