(* ===== verification/ThreadPoolProofs.v ===== *)
(** * The invariant of the thread pool

    [inv n wk s l]: in state [s] of a run with [n] workers and the work [wk],
    the queue holds the values [l] (an operation that is under way counts once
    it unlocks the mutex). *)
From stdpp Require Import prelude gmap list.
From Stdlib Require Import ZArith Lia.
From S2P Require Import Prelude Queue QueueProofs ThreadPool.
Open Scope Z_scope.
Open Scope c_scope.

(** ** Counting threads *)

Fixpoint count {A} (p : A -> bool) (l : list A) : nat :=
  match l with
  | [] => 0%nat
  | x :: l => ((if p x then 1 else 0) + count p l)%nat
  end.

#[export] Instance count_perm {A} (p : A -> bool) : Proper ((≡ₚ) ==> (=)) (count p).
Proof. induction 1; cbn; lia. Qed.

Lemma count_app {A} (p : A -> bool) l1 l2 : count p (l1 ++ l2) = (count p l1 + count p l2)%nat.
Proof. induction l1; cbn; lia. Qed.

Lemma count_pos {A} (p : A -> bool) l : (0 < count p l)%nat -> exists i x, l !! i = Some x /\ p x = true.
Proof.
  induction l as [|x l IH]; cbn; intros H; [lia|]. destruct (p x) eqn:E; [by exists 0%nat, x|].
  destruct (IH ltac:(lia)) as (i & y & Hi & Hy). by exists (S i), y.
Qed.

Lemma count_zero {A} (p : A -> bool) l i x : count p l = 0%nat -> l !! i = Some x -> p x = false.
Proof.
  revert i. induction l as [|y l IH]; intros [|i] H Hi; simplify_eq/=; [by destruct (p x)|].
  destruct (p y); [lia|]. by apply (IH i).
Qed.

Lemma count_le {A} (p : A -> bool) l : (count p l <= length l)%nat.
Proof. induction l as [|x l IH]; cbn; [lia|]. destruct (p x); lia. Qed.

Lemma count_all {A} (p : A -> bool) l i x : count p l = length l -> l !! i = Some x -> p x = true.
Proof.
  revert i. induction l as [|y l IH]; intros i H Hi; [done|]. cbn [count length] in H. pose proof (count_le p l).
  destruct (p y) eqn:E; [|lia]. destruct i as [|i]; [by injection Hi as ->|]. apply (IH i); [lia|done].
Qed.

(** A thread and the others. *)
Lemma insert_perm {A} (l : list A) i x : l !! i = Some x ->
  exists r, l ≡ₚ x :: r /\ forall y, <[i := y]> l ≡ₚ y :: r.
Proof.
  intros E. exists (delete i l). split; [by apply delete_Permutation|]. intros y.
  rewrite insert_take_drop by (by eapply lookup_lt_Some). rewrite delete_take_drop.
  symmetry. apply Permutation_middle.
Qed.

(** ** The invariant *)

Definition holding (w : worker) : bool := match w with WTest | WCrit _ _ => true | _ => false end.
Definition waiting (w : worker) : bool := match w with WWait => true | _ => false end.
Definition woken (w : worker) : bool := match w with WWoken => true | _ => false end.
Definition ended (w : worker) : bool := match w with WDone => true | WHave v => v =? NULL | _ => false end.
Definition main_holding (m : main_thread) : bool := match m with MCrit _ _ _ | MUnlock _ => true | _ => false end.
Definition signalled (m : main_thread) : nat := match m with MUnlock _ => 1 | _ => 0 end.
Definition is_null (x : option work) : bool := match x with None => true | Some _ => false end.

(** The value that main is enqueuing. *)
Definition pending (m : main_thread) : list Z :=
  match m with MLock v | MCrit v _ _ | MUnlock v => [v] | _ => [] end.

Definition nonnull (l : list Z) : list Z := base.filter (fun v => v <> NULL) l.
Arguments nonnull : simpl never.

Lemma nonnull_cons v l : v <> NULL -> nonnull (v :: l) = v :: nonnull l.
Proof. intros H. by apply filter_cons_True. Qed.

Lemma nonnull_null l : nonnull (NULL :: l) = nonnull l.
Proof. apply filter_cons_False. naive_solver. Qed.

(** The funct_t that a worker holds, and the work it still has to call. *)
Definition flying (w : worker) : option Z :=
  match w with
  | WHave v => if v =? NULL then None else Some v
  | WFree f => Some f
  | _ => None
  end.

Definition owed (fs : gmap Z work) (w : worker) : option work :=
  match w with WHave v => deref fs v | _ => None end.

(** The queue, by who holds the mutex: what is left of a critical section
    completes the operation. *)
Definition queue_ok (s : pool) (l : list Z) : Prop :=
  match main s with
  | MFreed => nodes (work_queue s) = ∅ /\ l = []
  | MCrit v code loc =>
      exists loc' q', exec code (loc, work_queue s) = Ok (tt, (loc', q')) /\ repr q' (l ++ [v])
  | MUnlock v => repr (work_queue s) (l ++ [v])
  | _ =>
      match mutex s with
      | Some (Worker i) =>
          match workers s !! i with
          | Some (WCrit code loc) =>
              exists loc' q' l', exec code (loc, work_queue s) = Ok (tt, (loc', q')) /\
                                 l = result loc' :: l' /\ repr q' l'
          | _ => repr (work_queue s) l
          end
      | _ => repr (work_queue s) l
      end
  end.

Definition phase_ok (s : pool) : Prop :=
  match main s with
  | MJoin k => todo s = [] /\ forall i, (i < k)%nat -> workers s !! i = Some WDone
  | MFreed => todo s = [] /\ forall i w, workers s !! i = Some w -> w = WDone
  | _ => True
  end.

Record inv (n : nat) (wk : list work) (s : pool) (l : list Z) : Prop := {
  iv_len : length (workers s) = n;
  iv_mutex i w : workers s !! i = Some w -> (holding w = true <-> mutex s = Some (Worker i));
  iv_main : main_holding (main s) = true <-> mutex s = Some Main;
  iv_queue : queue_ok s l;
  iv_seq : calls n wk = fetched s ++ (deref (functs s) <$> (l ++ pending (main s))) ++ todo s;
  iv_ptrs : elements (dom (functs s)) ≡ₚ omap flying (workers s) ++ nonnull (l ++ pending (main s));
  iv_exec : omap id (fetched s) ≡ₚ executed s ++ omap (owed (functs s)) (workers s);
  iv_done : count ended (workers s) = count is_null (fetched s);
  iv_wait : (0 < count waiting (workers s))%nat ->
    (length l + signalled (main s) <= count woken (workers s) + count holding (workers s))%nat;
  iv_new i w : workers s !! i = Some w -> (w = WNew <-> exists k, main s = MCreate k /\ (k <= i)%nat);
  iv_phase : phase_ok s;
  iv_owner i : mutex s = Some (Worker i) -> (i < length (workers s))%nat
}.

(** ** Preservation *)

Section preservation.
Context (new_address : gset Z -> Z) (Hmalloc : good_malloc new_address).
Context (n : nat) (wk : list work).

(** A step of worker [i] from [w] to [w']: what is left to show. *)
Lemma inv_worker i w w' q q' fs fs' mu mu' ws m td ft ft' ex ex' l l' :
  inv n wk (mkPool q fs mu ws m td ft ex) l -> ws !! i = Some w ->
  w <> WNew -> w' <> WNew -> w <> WDone ->
  (holding w' = true <-> mu' = Some (Worker i)) ->
  (forall t, t <> Worker i -> (mu' = Some t <-> mu = Some t)) ->
  queue_ok (mkPool q' fs' mu' (<[i := w']> ws) m td ft' ex') l' ->
  ft' ++ (deref fs' <$> (l' ++ pending m)) = ft ++ (deref fs <$> (l ++ pending m)) ->
  (forall r, ws ≡ₚ w :: r ->
     elements (dom fs') ≡ₚ omap flying (w' :: r) ++ nonnull (l' ++ pending m) /\
     omap id ft' ≡ₚ ex' ++ omap (owed fs') (w' :: r) /\
     count ended (w' :: r) = count is_null ft' /\
     ((0 < count waiting (w' :: r))%nat ->
      (length l' + signalled m <= count woken (w' :: r) + count holding (w' :: r))%nat)) ->
  inv n wk (mkPool q' fs' mu' (<[i := w']> ws) m td ft' ex') l'.
Proof.
  intros [H1 H2 H3 H4 H5 H6 H7 H8 H9 H10 H11 H12] E Hw Hw' Hd Hm Ho Hq Hs Hr.
  cbn [work_queue functs mutex workers main todo fetched executed] in *.
  destruct (insert_perm ws i w E) as (r & P & P'). specialize (Hr r P) as (R1 & R2 & R3 & R4). specialize (P' w').
  assert (Hlt : (i < length ws)%nat) by (by eapply lookup_lt_Some).
  split; cbn [work_queue functs mutex workers main todo fetched executed].
  - by rewrite length_insert.
  - intros j x Hj. destruct (decide (j = i)) as [-> |Hne].
    + rewrite list_lookup_insert_eq in Hj by done. by injection Hj as <-.
    + rewrite list_lookup_insert_ne in Hj by done. rewrite (H2 j x Hj). rewrite Ho; [done|congruence].
  - rewrite H3. by rewrite Ho.
  - done.
  - rewrite app_assoc, Hs, <- app_assoc. done.
  - by rewrite P'.
  - by rewrite P'.
  - by rewrite P'.
  - by rewrite !P'.
  - intros j x Hj. destruct (decide (j = i)) as [-> |Hne].
    + rewrite list_lookup_insert_eq in Hj by done. injection Hj as <-. split; [done|].
      intros Hk. by apply (H10 i w E) in Hk.
    + rewrite list_lookup_insert_ne in Hj by done. by apply H10.
  - unfold phase_ok in *. cbn [main todo workers] in *. destruct m; try done; destruct H11 as [H11 H13]; (split; [done|]).
    + intros j Hj. destruct (decide (j = i)) as [-> |Hne]; [|by rewrite list_lookup_insert_ne; auto].
      rewrite (H13 i Hj) in E. congruence.
    + intros j x Hj. exfalso. apply Hd. by apply (H13 i).
  - intros j Hj. rewrite length_insert. destruct (decide (j = i)) as [-> |Hne]; [done|]. apply H12. apply Ho; [congruence|done].
Qed.

(** The counting facts of the invariant, with worker [w] apart. *)
Lemma inv_rest q fs mu ws m td ft ex l w r :
  inv n wk (mkPool q fs mu ws m td ft ex) l -> ws ≡ₚ w :: r ->
  elements (dom fs) ≡ₚ omap flying (w :: r) ++ nonnull (l ++ pending m) /\
  omap id ft ≡ₚ ex ++ omap (owed fs) (w :: r) /\
  count ended (w :: r) = count is_null ft /\
  ((0 < count waiting (w :: r))%nat ->
   (length l + signalled m <= count woken (w :: r) + count holding (w :: r))%nat).
Proof.
  intros [H1 H2 H3 H4 H5 H6 H7 H8 H9 H10 H11 H12] P. cbn [work_queue functs mutex workers main todo fetched executed] in *.
  by rewrite <- !P.
Qed.

Lemma not_freed s l i w : inv n wk s l -> workers s !! i = Some w -> w <> WDone -> main s <> MFreed.
Proof. intros H E Hw Hm. pose proof (iv_phase _ _ _ _ H) as Hp. unfold phase_ok in Hp. rewrite Hm in Hp. by destruct Hp as [_ Hp]; eapply Hw, Hp. Qed.

Lemma queue_unlocked s l : inv n wk s l -> mutex s = None -> main s <> MFreed -> repr (work_queue s) l.
Proof.
  intros H Hm Hf. pose proof (iv_queue _ _ _ _ H) as Hq. unfold queue_ok in Hq. rewrite Hm in Hq.
  pose proof (proj1 (iv_main _ _ _ _ H)) as Hh. rewrite Hm in Hh. destruct (main s); cbn in Hh; try done; by discriminate Hh.
Qed.

Lemma queue_ok_unlocked s l : main_holding (main s) = false -> main s <> MFreed -> mutex s = None ->
  repr (work_queue s) l -> queue_ok s l.
Proof. intros Hh Hf Hm Hr. unfold queue_ok. rewrite Hm. by destruct (main s). Qed.

(** The queue in the hands of worker [i]. *)
Definition worker_queue (w : worker) (q : queue) (l : list Z) : Prop :=
  match w with
  | WCrit code loc =>
      exists loc' q' l', exec code (loc, q) = Ok (tt, (loc', q')) /\ l = result loc' :: l' /\ repr q' l'
  | _ => repr q l
  end.

Lemma queue_ok_worker s l i w : main_holding (main s) = false -> main s <> MFreed -> mutex s = Some (Worker i) ->
  workers s !! i = Some w -> queue_ok s l <-> worker_queue w (work_queue s) l.
Proof. intros Hh Hf Hm Hw. unfold queue_ok, worker_queue. rewrite Hm, Hw. destruct (main s); try done; by destruct w. Qed.

Lemma free_main s l : inv n wk s l -> mutex s <> Some Main -> main_holding (main s) = false.
Proof. intros H Hm. apply not_true_is_false. intros Ht. by apply (iv_main _ _ _ _ H) in Ht. Qed.

Lemma queue_held i w q fs mu ws m td ft ex l :
  inv n wk (mkPool q fs mu ws m td ft ex) l -> ws !! i = Some w -> holding w = true ->
  mu = Some (Worker i) /\ main_holding m = false /\ m <> MFreed /\ worker_queue w q l.
Proof.
  intros H E Hw. pose proof (not_freed _ _ _ _ H E ltac:(by intros ->)) as Hnf. cbn [main] in Hnf.
  pose proof (proj1 (iv_mutex _ _ _ _ H i _ E) Hw) as Hmu. cbn in Hmu.
  pose proof (free_main _ _ H ltac:(cbn; congruence)) as Hfm. cbn [main] in Hfm. split_and!; try done.
  by apply (queue_ok_worker (mkPool q fs mu ws m td ft ex) l i w Hfm Hnf Hmu E), (iv_queue _ _ _ _ H).
Qed.

(** Steps of workers without the mutex. *)
Lemma queue_ok_other q fs fs' mu ws m td td' ft ft' ex ex' l i w :
  mu <> Some (Worker i) ->
  queue_ok (mkPool q fs mu ws m td ft ex) l -> queue_ok (mkPool q fs' mu (<[i := w]> ws) m td' ft' ex') l.
Proof.
  intros Hm. unfold queue_ok. cbn. destruct m; try done; destruct mu as [[|j]|]; try done;
    rewrite list_lookup_insert_ne; congruence.
Qed.

(** Pointers that are in use are not null and exist. *)
Lemma ptrs_lookup (fs : gmap Z work) (a b : list Z) v : elements (dom fs) ≡ₚ a ++ nonnull (b : list Z) -> v ∈ b -> v <> NULL ->
  exists w, fs !! v = Some w.
Proof.
  intros P Hv Hn. apply elem_of_dom, elem_of_elements. rewrite P. apply elem_of_app. right.
  by apply list_elem_of_filter.
Qed.

Lemma deref_null fs : deref fs NULL = None.
Proof. done. Qed.

Lemma deref_ptr fs v : v <> NULL -> deref fs v = fs !! v.
Proof. intros H. unfold deref. by rewrite (proj2 (Z.eqb_neq _ _) H). Qed.

Lemma deref_map fs fs' (l : list Z) : (forall v, v ∈ nonnull l -> fs' !! v = fs !! v) -> deref fs' <$> l = deref fs <$> l.
Proof.
  intros H. apply list_fmap_ext. intros i v Hi. apply list_elem_of_lookup_2 in Hi. unfold deref.
  destruct (Z.eqb_spec v NULL) as [|Hn]; [done|]. apply H. by apply list_elem_of_filter.
Qed.

Lemma owed_map fs fs' (ws : list worker) : (forall v, v ∈ omap flying ws -> fs' !! v = fs !! v) -> omap (owed fs') ws = omap (owed fs) ws.
Proof.
  induction ws as [|w ws IH]; intros H; [done|]. cbn.
  assert (Hw : owed fs' w = owed fs w).
  { destruct w as [| | | | | |v| |]; try done. cbn. unfold deref. cbn in H. destruct (v =? NULL); [done|].
    apply H. set_solver. }
  rewrite Hw. rewrite IH; [done|]. intros v Hv. apply H. cbn. destruct (flying w); set_solver.
Qed.

Lemma dom_delete_perm (fs : gmap Z work) f x : fs !! f = Some x -> elements (dom fs) ≡ₚ f :: elements (dom (delete f fs)).
Proof.
  intros E. rewrite <- elements_union_singleton by (rewrite dom_delete_L; set_solver).
  apply (elements_proper (C := gset Z)). rewrite dom_delete. apply elem_of_dom_2 in E. intros y. destruct (decide (y = f)); set_solver.
Qed.

Lemma worker_lock i w q fs ws m td ft ex l :
  inv n wk (mkPool q fs None ws m td ft ex) l -> ws !! i = Some w -> w = WLock \/ w = WWoken ->
  inv n wk (mkPool q fs (Some (Worker i)) (<[i := WTest]> ws) m td ft ex) l.
Proof.
  intros H E Hw. pose proof (not_freed _ _ _ _ H E ltac:(naive_solver)) as Hnf.
  apply (inv_worker i w WTest q q fs fs None _ ws m td ft ft ex ex l l); try done; try naive_solver.
  - apply (queue_ok_worker _ _ i WTest); try done; cbn [main mutex workers work_queue].
    + by apply (free_main _ _ H).
    + apply list_lookup_insert_eq. by eapply lookup_lt_Some.
    + by apply (queue_unlocked _ _ H).
  - intros r P. destruct (inv_rest _ _ _ _ _ _ _ _ _ _ _ H P) as (R1 & R2 & R3 & R4).
    destruct Hw as [-> | ->]; cbn in *; (split_and!; try done; lia).
Qed.

Lemma worker_wait i q fs mu ws m td ft ex l :
  inv n wk (mkPool q fs mu ws m td ft ex) l -> ws !! i = Some WTest -> size q = 0 ->
  inv n wk (mkPool q fs None (<[i := WWait]> ws) m td ft ex) l.
Proof.
  intros H E Hz. destruct (queue_held _ _ _ _ _ _ _ _ _ _ _ H E eq_refl) as (-> & Hfm & Hnf & Hq). cbn [worker_queue] in Hq.
  assert (l = []) as ->.
  { destruct Hq as (ps & L & <-). pose proof (lk_size _ _ L) as Hsz. rewrite Hz in Hsz. by destruct ps. }
  apply (inv_worker i WTest WWait q q fs fs (Some (Worker i)) None ws m td ft ft ex ex [] []); try done; try naive_solver.
  - by apply queue_ok_unlocked.
  - intros r P. destruct (inv_rest _ _ _ _ _ _ _ _ _ _ _ H P) as (R1 & R2 & R3 & R4).
    cbn in *. split_and!; try done. destruct m; cbn in *; try done; lia.
Qed.

Lemma worker_nonempty i q fs mu ws m td ft ex l :
  inv n wk (mkPool q fs mu ws m td ft ex) l -> ws !! i = Some WTest -> size q <> 0 ->
  inv n wk (mkPool q fs mu (<[i := WCrit dequeue_code no_locals]> ws) m td ft ex) l.
Proof.
  intros H E Hz. destruct (queue_held _ _ _ _ _ _ _ _ _ _ _ H E eq_refl) as (-> & Hfm & Hnf & Hq). cbn [worker_queue] in Hq.
  eapply (inv_worker i WTest); [exact H|exact E|done|done|done|done|done| |done|].
  - apply (queue_ok_worker _ _ i (WCrit dequeue_code no_locals)); try done.
    { apply list_lookup_insert_eq. by eapply lookup_lt_Some. }
    destruct l as [|v l].
    { destruct Hq as (ps & L & E'). pose proof (lk_size _ _ L) as Hsz. by destruct ps. }
    destruct (dequeue_exec v q l no_locals Hq) as (loc' & q' & Ee & Er & Hr). exists loc', q', l. by rewrite Er.
  - intros r P. destruct (inv_rest _ _ _ _ _ _ _ _ _ _ _ H P) as (R1 & R2 & R3 & R4). by cbn in *.
Qed.

Lemma worker_crit i q q' fs mu ws m td ft ex c code loc loc' l :
  inv n wk (mkPool q fs mu ws m td ft ex) l -> ws !! i = Some (WCrit (c :: code) loc) -> c (loc, q) = Ok (tt, (loc', q')) ->
  inv n wk (mkPool q' fs mu (<[i := WCrit code loc']> ws) m td ft ex) l.
Proof.
  intros H E Ec. destruct (queue_held _ _ _ _ _ _ _ _ _ _ _ H E eq_refl) as (-> & Hfm & Hnf & Hq). cbn [worker_queue] in Hq.
  eapply (inv_worker i (WCrit (c :: code) loc)); [exact H|exact E|done|done|done|done|done| |done|].
  - apply (queue_ok_worker _ _ i (WCrit code loc')); try done.
    { apply list_lookup_insert_eq. by eapply lookup_lt_Some. }
    cbn [worker_queue work_queue] in *. by rewrite (exec_cons _ _ _ _ Ec) in Hq.
  - intros r P. destruct (inv_rest _ _ _ _ _ _ _ _ _ _ _ H P) as (R1 & R2 & R3 & R4). by cbn in *.
Qed.

Lemma worker_unlock i q fs mu ws m td ft ex loc l :
  inv n wk (mkPool q fs mu ws m td ft ex) l -> ws !! i = Some (WCrit [] loc) ->
  exists l', inv n wk (mkPool q fs None (<[i := WHave (result loc)]> ws) m td (ft ++ [deref fs (result loc)]) ex) l'.
Proof.
  intros H E. destruct (queue_held _ _ _ _ _ _ _ _ _ _ _ H E eq_refl) as (-> & Hfm & Hnf & Hq).
  cbn [worker_queue exec] in Hq. destruct Hq as (loc' & q' & l' & [= <- <-] & -> & Hr). set (v := result loc) in *.
  exists l'. apply (inv_worker i (WCrit [] loc) (WHave v) q q fs fs (Some (Worker i)) None ws m td ft _ ex ex (v :: l') l');
    try done; try naive_solver.
  - by apply queue_ok_unlocked.
  - by rewrite <- app_assoc.
  - intros r P. destruct (inv_rest _ _ _ _ _ _ _ _ _ _ _ H P) as (R1 & R2 & R3 & R4).
    rewrite count_app, omap_app, R2. cbn in R1, R3, R4 |- *. destruct (Z.eqb_spec v NULL) as [Hv|Hv].
    + rewrite Hv, nonnull_null in R1. rewrite Hv, deref_null. cbn. rewrite app_nil_r. split_and!; [done|done|lia|lia].
    + destruct (ptrs_lookup fs _ _ v R1 ltac:(set_solver) Hv) as [x Hx]. rewrite deref_ptr, Hx by done. cbn.
      split_and!; [|rewrite <- app_assoc; by rewrite <- Permutation_cons_append|lia|lia].
      rewrite R1, nonnull_cons by done. by rewrite Permutation_middle.
Qed.

Lemma worker_return i q fs mu ws m td ft ex l :
  inv n wk (mkPool q fs mu ws m td ft ex) l -> ws !! i = Some (WHave NULL) ->
  inv n wk (mkPool q fs mu (<[i := WDone]> ws) m td ft ex) l.
Proof.
  intros H E. pose proof (iv_mutex _ _ _ _ H i _ E) as Hmu. cbn in Hmu.
  apply (inv_worker i (WHave NULL) WDone q q fs fs mu mu ws m td ft ft ex ex l l); try done.
  - apply (queue_ok_other q fs fs mu ws m td td ft ft ex ex); [naive_solver|apply H].
  - intros r P. destruct (inv_rest _ _ _ _ _ _ _ _ _ _ _ H P) as (R1 & R2 & R3 & R4). by cbn in *.
Qed.

Lemma worker_call i q fs mu ws m td ft ex f x l :
  inv n wk (mkPool q fs mu ws m td ft ex) l -> ws !! i = Some (WHave f) -> f <> NULL -> fs !! f = Some x ->
  inv n wk (mkPool q fs mu (<[i := WFree f]> ws) m td ft (ex ++ [x])) l.
Proof.
  intros H E Hf Hx. pose proof (iv_mutex _ _ _ _ H i _ E) as Hmu. cbn in Hmu.
  apply (inv_worker i (WHave f) (WFree f) q q fs fs mu mu ws m td ft ft ex (ex ++ [x]) l l); try done.
  - apply (queue_ok_other q fs fs mu ws m td td ft ft ex _); [naive_solver|apply H].
  - intros r P. destruct (inv_rest _ _ _ _ _ _ _ _ _ _ _ H P) as (R1 & R2 & R3 & R4).
    cbn in R1, R2, R3, R4 |- *. rewrite deref_ptr, Hx in R2 by done. rewrite (proj2 (Z.eqb_neq _ _) Hf) in R1, R3.
    split_and!; try done. by rewrite <- app_assoc.
Qed.

Lemma worker_free i q fs mu ws m td ft ex f x l :
  inv n wk (mkPool q fs mu ws m td ft ex) l -> ws !! i = Some (WFree f) -> fs !! f = Some x ->
  inv n wk (mkPool q (delete f fs) mu (<[i := WLock]> ws) m td ft ex) l.
Proof.
  intros H E Hx. pose proof (iv_mutex _ _ _ _ H i _ E) as Hmu. cbn in Hmu.
  assert (Hfresh : forall r, ws ≡ₚ WFree f :: r ->
            elements (dom (delete f fs)) ≡ₚ omap flying r ++ nonnull (l ++ pending m) /\
            (f ∉ omap flying r) /\ f ∉ nonnull (l ++ pending m)).
  { intros r P. destruct (inv_rest _ _ _ _ _ _ _ _ _ _ _ H P) as (R1 & _). cbn in R1.
    pose proof (NoDup_elements (dom fs)) as Hnd. rewrite R1 in Hnd. apply NoDup_cons in Hnd as [Hnot _].
    rewrite not_elem_of_app in Hnot. split; [|done].
    rewrite (dom_delete_perm fs f x Hx) in R1. by apply Permutation_cons_inv in R1. }
  destruct (insert_perm ws i _ E) as (r0 & P0 & _). destruct (Hfresh r0 P0) as (_ & _ & Hl).
  apply (inv_worker i (WFree f) WLock q q fs (delete f fs) mu mu ws m td ft ft ex ex l l); try done.
  - apply (queue_ok_other q fs _ mu ws m td td ft ft ex _); [naive_solver|apply H].
  - f_equal. apply deref_map. intros v Hv. apply lookup_delete_ne. set_solver.
  - intros r P. destruct (inv_rest _ _ _ _ _ _ _ _ _ _ _ H P) as (R1 & R2 & R3 & R4).
    destruct (Hfresh r P) as (F1 & F2 & F3). cbn in R1, R2, R3, R4 |- *. split_and!; try done.
    rewrite R2. rewrite (owed_map fs (delete f fs)); [done|]. intros v Hv. apply lookup_delete_ne. set_solver.
Qed.

Lemma worker_preserves i s s' l : worker_step i s s' -> inv n wk s l -> exists l', inv n wk s' l'.
Proof.
  intros Hs H. destruct Hs; eauto using worker_unlock, worker_wait, worker_nonempty, worker_crit, worker_return, worker_call, worker_free.
  - exists l. eapply worker_lock; [eassumption|eassumption|by left].
  - exists l. eapply worker_lock; [eassumption|eassumption|by right].
Qed.

Lemma spurious_preserves s s' l : spurious s s' -> inv n wk s l -> inv n wk s' l.
Proof.
  intros [i q fs mu ws m td ft ex E] H. pose proof (iv_mutex _ _ _ _ H i _ E) as Hmu. cbn in Hmu.
  apply (inv_worker i WWait WWoken q q fs fs mu mu ws m td ft ft ex ex l l); try done.
  - apply (queue_ok_other q fs fs mu ws m td td ft ft ex ex); [naive_solver|apply H].
  - intros r P. destruct (inv_rest _ _ _ _ _ _ _ _ _ _ _ H P) as (R1 & R2 & R3 & R4). cbn in *.
    split_and!; try done. intros _. specialize (R4 ltac:(lia)). lia.
Qed.

(** A step of main: what is left to show. *)
Lemma inv_main q q' fs fs' mu mu' ws m m' td td' ft ex l l' :
  inv n wk (mkPool q fs mu ws m td ft ex) l ->
  (main_holding m' = true <-> mu' = Some Main) ->
  (forall i, mu' = Some (Worker i) <-> mu = Some (Worker i)) ->
  queue_ok (mkPool q' fs' mu' ws m' td' ft ex) l' ->
  (deref fs' <$> (l' ++ pending m')) ++ td' = (deref fs <$> (l ++ pending m)) ++ td ->
  elements (dom fs') ≡ₚ omap flying ws ++ nonnull (l' ++ pending m') ->
  omap (owed fs') ws = omap (owed fs) ws ->
  ((0 < count waiting ws)%nat -> (length l' + signalled m' <= count woken ws + count holding ws)%nat) ->
  (forall i, (i < length ws)%nat -> (exists k, m' = MCreate k /\ (k <= i)%nat) <-> exists k, m = MCreate k /\ (k <= i)%nat) ->
  phase_ok (mkPool q' fs' mu' ws m' td' ft ex) ->
  inv n wk (mkPool q' fs' mu' ws m' td' ft ex) l'.
Proof.
  intros [H1 H2 H3 H4 H5 H6 H7 H8 H9 H10 H11 H12] Hh Hm Hq Hs Hp Ho Hw Hn Hph.
  cbn [work_queue functs mutex workers main todo fetched executed] in *.
  split; cbn [work_queue functs mutex workers main todo fetched executed]; try done.
  - intros i w E. rewrite Hm. by apply H2.
  - by rewrite Hs.
  - by rewrite Ho.
  - intros i w E. rewrite Hn by (by eapply lookup_lt_Some). by apply (H10 i).
  - intros i Hi. apply H12. by apply Hm.
Qed.

(** Main moves on without touching the queue. *)
Lemma main_moves q fs mu ws m m' td ft ex l :
  inv n wk (mkPool q fs mu ws m td ft ex) l ->
  main_holding m = false -> main_holding m' = false -> m <> MFreed -> m' <> MFreed ->
  pending m' = [] -> pending m = [] -> phase_ok (mkPool q fs mu ws m' td ft ex) ->
  (forall i, (i < length ws)%nat -> (exists k, m' = MCreate k /\ (k <= i)%nat) <-> exists k, m = MCreate k /\ (k <= i)%nat) ->
  inv n wk (mkPool q fs mu ws m' td ft ex) l.
Proof.
  intros H Hm Hm' Hf Hf' Hp Hp' Hph Hn. eapply inv_main; [exact H|..]; try done.
  - rewrite Hm', <- (iv_main _ _ _ _ H). cbn [main]. by rewrite Hm.
  - pose proof (iv_queue _ _ _ _ H) as Hq. unfold queue_ok in *. cbn in *. by destruct m, m'.
  - by rewrite Hp, Hp'.
  - rewrite Hp, <- Hp'. apply H.
  - pose proof (iv_wait _ _ _ _ H) as Hw. cbn in Hw. by destruct m, m'.
Qed.

Lemma main_create q fs mu ws i td ft ex l :
  inv n wk (mkPool q fs mu ws (MCreate i) td ft ex) l -> (i < length ws)%nat ->
  inv n wk (mkPool q fs mu (<[i := WLock]> ws) (MCreate (S i)) td ft ex) l.
Proof.
  intros H Hi. destruct (lookup_lt_is_Some_2 ws i Hi) as [w E].
  assert (w = WNew) as -> by (apply (iv_new _ _ _ _ H i w E); eauto).
  destruct (insert_perm ws i WNew E) as (r & P & P'). specialize (P' WLock).
  destruct (inv_rest _ _ _ _ _ _ _ _ _ _ _ H P) as (R1 & R2 & R3 & R4).
  destruct H as [H1 H2 H3 H4 H5 H6 H7 H8 H9 H10 H11 H12]. cbn [work_queue functs mutex workers main todo fetched executed] in *.
  pose proof (H2 i WNew E) as Hmi. cbn in Hmi.
  split; cbn [work_queue functs mutex workers main todo fetched executed]; try done.
  - by rewrite length_insert.
  - intros j x Hj. destruct (decide (j = i)) as [-> |Hne].
    + rewrite list_lookup_insert_eq in Hj by done. by injection Hj as <-.
    + rewrite list_lookup_insert_ne in Hj by done. by apply H2.
  - apply (queue_ok_other q fs fs mu ws (MCreate (S i)) td td ft ft ex ex); [naive_solver|exact H4].
  - by rewrite P'.
  - by rewrite P'.
  - by rewrite P'.
  - by rewrite !P'.
  - intros j x Hj. destruct (decide (j = i)) as [-> |Hne].
    + rewrite list_lookup_insert_eq in Hj by done. injection Hj as <-. split; [done|]. intros (k & [= <-] & Hk). lia.
    + rewrite list_lookup_insert_ne in Hj by done. rewrite (H10 j x Hj). split; intros (k & [= <-] & Hk); eexists; (split; [done|lia]).
  - intros j Hj. rewrite length_insert. by apply H12.
Qed.

(** Main has got a value to enqueue. *)
Lemma main_pick q fs fs' mu ws td ft ex l o f :
  inv n wk (mkPool q fs mu ws MNext (o :: td) ft ex) l ->
  deref fs' f = o -> (forall v, v ∈ dom fs -> fs' !! v = fs !! v) ->
  elements (dom fs') ≡ₚ nonnull [f] ++ elements (dom fs) ->
  inv n wk (mkPool q fs' mu ws (MLock f) td ft ex) l.
Proof.
  intros H Hf Hsame Hdom. pose proof (iv_ptrs _ _ _ _ H) as Hp. cbn in Hp. rewrite app_nil_r in Hp.
  assert (Hin : forall v, v ∈ omap flying ws \/ v ∈ nonnull l -> fs' !! v = fs !! v).
  { intros v Hv. apply Hsame, elem_of_elements. rewrite Hp. by apply elem_of_app. }
  eapply inv_main; [exact H|..]; try done.
  - exact (iv_main _ _ _ _ H).
  - exact (iv_queue _ _ _ _ H).
  - cbn. rewrite !fmap_app, app_nil_r. cbn. rewrite Hf, <- app_assoc. cbn. f_equal. apply deref_map. intros v Hv. apply Hin. by right.
  - cbn. rewrite Hdom, Hp. unfold nonnull. rewrite filter_app. rewrite (Permutation_app_comm (base.filter _ [f])). by rewrite app_assoc.
  - apply owed_map. intros v Hv. apply Hin. by left.
  - exact (iv_wait _ _ _ _ H).
  - naive_solver.
Qed.

Lemma main_add_work q fs mu ws w td ft ex l :
  inv n wk (mkPool q fs mu ws MNext (Some w :: td) ft ex) l ->
  inv n wk (mkPool q (<[new_address (dom fs) := w]> fs) mu ws (MLock (new_address (dom fs))) td ft ex) l.
Proof.
  intros H. destruct (Hmalloc (dom fs)) as [Hfresh Hnull]. apply (main_pick q fs _ mu ws td ft ex l (Some w)); [done|..].
  - rewrite deref_ptr by done. apply lookup_insert_eq.
  - intros v Hv. apply lookup_insert_ne. set_solver.
  - rewrite nonnull_cons by done. change (nonnull []) with (@nil Z). cbn. rewrite <- elements_union_singleton by done.
    apply (elements_proper (C := gset Z)). by rewrite dom_insert.
Qed.

Lemma main_add_null q fs mu ws td ft ex l :
  inv n wk (mkPool q fs mu ws MNext (None :: td) ft ex) l -> inv n wk (mkPool q fs mu ws (MLock NULL) td ft ex) l.
Proof. intros H. by apply (main_pick q fs fs mu ws td ft ex l None). Qed.

Hypothesis Hsmall : Z.of_nat (length wk + n) < 2 ^ 64.

Lemma queue_small q fs mu ws m td ft ex l :
  inv n wk (mkPool q fs mu ws m td ft ex) l -> (length l + length (pending m) <= length wk + n)%nat.
Proof.
  intros H. pose proof (f_equal length (iv_seq _ _ _ _ H)) as Hl. unfold calls in Hl.
  rewrite !length_app, !length_fmap, length_app, length_replicate in Hl. cbn in Hl. lia.
Qed.

Lemma main_lock q fs ws v td ft ex l :
  inv n wk (mkPool q fs None ws (MLock v) td ft ex) l ->
  inv n wk (mkPool q fs (Some Main) ws (MCrit v (enqueue_code new_address v) no_locals) td ft ex) l.
Proof.
  intros H. pose proof (queue_small _ _ _ _ _ _ _ _ _ H) as Hl. cbn in Hl.
  pose proof (queue_unlocked _ _ H eq_refl ltac:(done)) as Hr. cbn in Hr. eapply inv_main; [exact H|..]; try done.
  - destruct (enqueue_exec new_address Hmalloc v q l no_locals Hr ltac:(lia)) as (loc & q' & E & Hr'). by exists loc, q'.
  - exact (iv_ptrs _ _ _ _ H).
  - exact (iv_wait _ _ _ _ H).
  - naive_solver.
Qed.

Lemma main_crit q q' fs mu ws v c code loc loc' td ft ex l :
  inv n wk (mkPool q fs mu ws (MCrit v (c :: code) loc) td ft ex) l -> c (loc, q) = Ok (tt, (loc', q')) ->
  inv n wk (mkPool q' fs mu ws (MCrit v code loc') td ft ex) l.
Proof.
  intros H E. eapply inv_main; [exact H|..]; try done.
  - exact (iv_main _ _ _ _ H).
  - pose proof (iv_queue _ _ _ _ H) as Hq. unfold queue_ok in *. cbn [main work_queue] in *. by rewrite (exec_cons _ _ _ _ E) in Hq.
  - exact (iv_ptrs _ _ _ _ H).
  - exact (iv_wait _ _ _ _ H).
  - naive_solver.
Qed.

(** After the signal, with a waiting worker counted as woken. *)
Lemma main_signalled q fs mu ws v loc td ft ex l :
  inv n wk (mkPool q fs mu ws (MCrit v [] loc) td ft ex) l ->
  ((0 < count waiting ws)%nat -> (length l + 1 <= count woken ws + count holding ws)%nat) ->
  inv n wk (mkPool q fs mu ws (MUnlock v) td ft ex) l.
Proof.
  intros H Hw. eapply inv_main; [exact H|..]; try done.
  - exact (iv_main _ _ _ _ H).
  - pose proof (iv_queue _ _ _ _ H) as Hq. unfold queue_ok in *. cbn [main work_queue exec] in *.
    by destruct Hq as (loc' & q' & [= <- <-] & Hr).
  - exact (iv_ptrs _ _ _ _ H).
  - naive_solver.
Qed.

Lemma main_signal q fs mu ws v loc i td ft ex l :
  inv n wk (mkPool q fs mu ws (MCrit v [] loc) td ft ex) l -> ws !! i = Some WWait ->
  inv n wk (mkPool q fs mu (<[i := WWoken]> ws) (MUnlock v) td ft ex) l.
Proof.
  intros H E. eapply (main_signalled _ _ _ _ _ loc).
  - exact (spurious_preserves _ _ _ (wake_spurious i _ _ _ _ _ _ _ _ E) H).
  - intros _. destruct (insert_perm ws i WWait E) as (r & P & P'). specialize (P' WWoken). rewrite !P'.
    destruct (inv_rest _ _ _ _ _ _ _ _ _ _ _ H P) as (R1 & R2 & R3 & R4). cbn in *. lia.
Qed.

Lemma main_unlock q fs mu ws v td ft ex l :
  inv n wk (mkPool q fs mu ws (MUnlock v) td ft ex) l ->
  inv n wk (mkPool q fs None ws MNext td ft ex) (l ++ [v]).
Proof.
  intros H. pose proof (proj1 (iv_main _ _ _ _ H) eq_refl) as Hmu. cbn in Hmu. subst mu.
  eapply inv_main; [exact H|..]; try done; cbn [pending signalled]; rewrite ?app_nil_r.
  - exact (iv_queue _ _ _ _ H).
  - done.
  - exact (iv_ptrs _ _ _ _ H).
  - pose proof (iv_wait _ _ _ _ H) as Hw. cbn in Hw. rewrite length_app. cbn. intros Hc. specialize (Hw Hc). lia.
  - naive_solver.
Qed.

(** ** The end of a run *)

Hypothesis Hn : (0 < n)%nat.

Lemma calls_all (a b : list (option work)) : calls n wk = a ++ b -> count is_null a = n -> b = [].
Proof.
  intros E Hc. destruct b as [|x b _] using rev_ind; [done|]. exfalso. unfold calls in E.
  destruct n as [|k]; [lia|]. rewrite replicate_S_end, !app_assoc in E. apply app_inj_tail in E as [E _].
  apply (f_equal (count is_null)) in E. rewrite !count_app, Hc in E.
  assert (H0 : count is_null (Some <$> wk) = 0%nat) by (clear; induction wk; done).
  assert (H1 : count is_null (replicate k None) = k) by (clear; induction k; cbn; congruence). lia.
Qed.

(** When every worker has its NULL, the queue is empty and main has nothing to do. *)
Lemma drained s l : inv n wk s l -> (forall i w, workers s !! i = Some w -> ended w = true) ->
  l = [] /\ pending (main s) = [] /\ todo s = [] /\ fetched s = calls n wk.
Proof.
  intros H Hall. pose proof (iv_done _ _ _ _ H) as Hd.
  assert (Hc : count ended (workers s) = n).
  { rewrite <- (iv_len _ _ _ _ H). clear -Hall. revert Hall. induction (workers s) as [|w ws IH]; intros Hall; [done|]. cbn.
    rewrite (Hall 0%nat w eq_refl), IH; [done|]. intros i x Hi. by apply (Hall (S i)). }
  pose proof (iv_seq _ _ _ _ H) as Hs. pose proof (calls_all _ _ Hs ltac:(congruence)) as Hnil. rewrite Hnil, app_nil_r in Hs.
  apply app_eq_nil in Hnil as [Hnil ->]. apply fmap_nil_inv, app_eq_nil in Hnil as [-> ->]. done.
Qed.

Lemma joined_unlocked s l : inv n wk s l -> (forall i w, workers s !! i = Some w -> w = WDone) ->
  main_holding (main s) = false -> mutex s = None.
Proof.
  intros H Hall Hm. destruct (mutex s) as [[|i]|] eqn:E; [|exfalso|done].
  - pose proof (proj2 (iv_main _ _ _ _ H) E). congruence.
  - pose proof (iv_owner _ _ _ _ H i E) as Hi. apply lookup_lt_is_Some in Hi as [w Hw].
    pose proof (proj2 (iv_mutex _ _ _ _ H i w Hw) E) as Hh. by rewrite (Hall i w Hw) in Hh.
Qed.

Lemma joined q fs mu ws i td ft ex l :
  inv n wk (mkPool q fs mu ws (MJoin i) td ft ex) l -> (length ws <= i)%nat ->
  (forall j w, ws !! j = Some w -> w = WDone) /\ l = [] /\ td = [] /\ repr q [].
Proof.
  intros H Hi. pose proof (iv_phase _ _ _ _ H) as [Htd Hall]. cbn in Htd, Hall.
  assert (Hall' : forall j w, ws !! j = Some w -> w = WDone).
  { intros j w Hj. pose proof (lookup_lt_Some _ _ _ Hj). rewrite (Hall j ltac:(lia)) in Hj. congruence. }
  destruct (drained _ _ H) as (-> & _); [intros j w Hj; by rewrite (Hall' j w Hj)|]. split_and!; try done.
  pose proof (joined_unlocked _ _ H Hall' eq_refl) as Hmu. by apply (queue_unlocked _ _ H Hmu).
Qed.

Lemma main_free q q' fs mu ws i td ft ex l :
  inv n wk (mkPool q fs mu ws (MJoin i) td ft ex) l -> (length ws <= i)%nat -> queue_free q = Ok q' ->
  inv n wk (mkPool q' fs mu ws MFreed td ft ex) l.
Proof.
  intros H Hi E. destruct (joined _ _ _ _ _ _ _ _ _ H Hi) as (Hall & -> & -> & Hr).
  destruct (queue_free_empty q Hr) as (q2 & E2 & Hnil). rewrite E in E2. injection E2 as <-.
  eapply inv_main; [exact H|..]; try done.
  - exact (iv_main _ _ _ _ H).
  - exact (iv_ptrs _ _ _ _ H).
  - exact (iv_wait _ _ _ _ H).
  - naive_solver.
Qed.

Lemma main_preserves s s' l : main_step new_address s s' -> inv n wk s l -> exists l', inv n wk s' l'.
Proof.
  intros Hs H. destruct Hs as [q fs mu ws i td ft ex Hi|q fs mu ws i td ft ex Hi|q fs mu ws w td ft ex f|q fs mu ws td ft ex|
    q fs ws v td ft ex|q fs mu ws v c code loc loc' q' td ft ex Ec|q fs mu ws v loc i td ft ex Ei|q fs mu ws v loc td ft ex Hno|
    q fs mu ws v td ft ex|q fs mu ws ft ex|q fs mu ws i td ft ex Ei|q q' fs mu ws i td ft ex Hi Eq].
  - exists l. by apply main_create.
  - exists l. apply (main_moves _ _ _ _ _ _ _ _ _ _ H); try done. intros j Hj. naive_solver lia.
  - exists l. by apply main_add_work.
  - exists l. by apply main_add_null.
  - exists l. by apply main_lock.
  - exists l. exact (main_crit _ _ _ _ _ _ _ _ _ _ _ _ _ _ H Ec).
  - exists l. exact (main_signal _ _ _ _ _ _ _ _ _ _ _ H Ei).
  - exists l. apply (main_signalled _ _ _ _ _ _ _ _ _ _ H). intros Hc. exfalso. apply count_pos in Hc as (i & w & Hw & Hx). destruct w; try done. exact (Hno i Hw).
  - exists (l ++ [v]). exact (main_unlock _ _ _ _ _ _ _ _ _ H).
  - exists l. apply (main_moves _ _ _ _ _ _ _ _ _ _ H); try done; [|naive_solver]. split; [done|]. intros; lia.
  - exists l. apply (main_moves _ _ _ _ _ _ _ _ _ _ H); try done; [|naive_solver].
    pose proof (iv_phase _ _ _ _ H) as [Htd Hall]. split; [done|]. cbn in *. intros j Hj.
    destruct (decide (j = i)) as [-> |]; [done|]. apply Hall. lia.
  - exists l. exact (main_free _ _ _ _ _ _ _ _ _ _ H Hi Eq).
Qed.

Lemma inv_initial : inv n wk (initial new_address n wk) [].
Proof.
  assert (Hrep : forall i w, replicate n WNew !! i = Some w -> w = WNew) by (intros i w Hi; by apply lookup_replicate in Hi as [-> _]).
  assert (Hz : forall p, p WNew = false -> count p (replicate n WNew) = 0%nat).
  { intros p Hp. clear -Hp. induction n as [|k IH]; cbn; [done|]. by rewrite Hp. }
  assert (Ho : forall {B} (f : worker -> option B), f WNew = None -> omap f (replicate n WNew) = []).
  { intros B f Hf. clear -Hf. induction n as [|k IH]; cbn; [done|]. by rewrite Hf. }
  split; cbn [initial work_queue functs mutex workers main todo fetched executed]; try done.
  - apply length_replicate.
  - intros i w Hi. by rewrite (Hrep i w Hi).
  - by apply queue_init_repr.
  - by rewrite Ho.
  - by rewrite Ho.
  - by rewrite Hz.
  - rewrite Hz by done. lia.
  - intros i w Hi. split; [intros _; exists 0%nat; split; [done|lia]|intros _; by apply (Hrep i)].
Qed.

Lemma inv_runs k j s : runs new_address k j (initial new_address n wk) s -> exists l, inv n wk s l.
Proof.
  remember (initial new_address n wk) as s0 eqn:E. induction 1 as [s|k j s1 s2 s3 _ IH [Hs|[i Hs]]|k j s1 s2 s3 _ IH Hs].
  - subst s. exists []. apply inv_initial.
  - destruct (IH E) as [l H]. by eapply main_preserves.
  - destruct (IH E) as [l H]. by eapply worker_preserves.
  - destruct (IH E) as [l H]. exists l. by eapply spurious_preserves.
Qed.

End preservation.

(** ** Progress and termination of the thread pool

    No reachable state is stuck before main has released the pool, and a
    measure bounds the number of steps. *)

Section live.
Context (new_address : gset Z -> Z) (Hmalloc : good_malloc new_address).
Context (n : nat) (wk : list work).
Hypothesis Hsmall : Z.of_nat (length wk + n) < 2 ^ 64.
Hypothesis Hn : (0 < n)%nat.

(** ** Progress *)

Lemma exec_head c code s r : exec (c :: code) s = Ok r -> exists s', c s = Ok (tt, s').
Proof. cbn [exec]. unfold bind. destruct (c s) as [[[] s']|f]; [by exists s'|done]. Qed.

Lemma flying_lookup q fs mu ws m td ft ex l i w f :
  inv n wk (mkPool q fs mu ws m td ft ex) l -> ws !! i = Some w -> flying w = Some f -> exists x, fs !! f = Some x.
Proof.
  intros H E Hf. apply elem_of_dom, elem_of_elements. rewrite (iv_ptrs _ _ _ _ H). cbn. apply elem_of_app. left.
  apply list_elem_of_omap. exists w. split; [|done]. by eapply list_elem_of_lookup_2.
Qed.

(** A worker that neither waits nor has returned nor waits for the mutex. *)
Lemma worker_can s l i w : inv n wk s l -> mutex s = None -> workers s !! i = Some w ->
  w <> WNew -> w <> WWait -> w <> WDone -> exists s', step new_address s s'.
Proof.
  intros H Hmu E H1 H2 H3. destruct s as [q fs mu ws m td ft ex]. cbn in Hmu, E. subst mu.
  pose proof (iv_mutex _ _ _ _ H i w E) as Hh. cbn in Hh.
  destruct w as [| | | | |code loc|v|f|]; try done; try (by destruct Hh as [Hh _]; discriminate (Hh eq_refl)).
  - eexists. right. exists i. by apply step_lock.
  - eexists. right. exists i. by apply step_relock.
  - destruct (decide (v = NULL)) as [-> |Hv]; [eexists; right; exists i; by apply step_return|].
    destruct (flying_lookup _ _ _ _ _ _ _ _ _ _ _ v H E) as [x Hx]; [cbn; by rewrite (proj2 (Z.eqb_neq _ _) Hv)|].
    eexists. right. exists i. by apply (step_call i q fs None ws m td ft ex v x).
  - destruct (flying_lookup _ _ _ _ _ _ _ _ _ _ _ f H E eq_refl) as [x Hx].
    eexists. right. exists i. by apply (step_free i q fs None ws m td ft ex f x).
Qed.

(** A waiting worker is always woken in the end: if all that is left to do is
    to wait for it, another worker is awake. *)
Lemma waiting_helped s l i : inv n wk s l -> mutex s = None -> pending (main s) = [] -> todo s = [] ->
  workers s !! i = Some WWait -> exists j, workers s !! j = Some WWoken.
Proof.
  intros H Hmu Hp Htd E. destruct (count woken (workers s)) as [|k] eqn:Ek.
  2: { destruct (count_pos woken (workers s)) as (j & w & Hj & Hw); [lia|]. destruct w; try done. by exists j. }
  exfalso. assert (Hc : (0 < count waiting (workers s))%nat).
  { destruct (insert_perm _ _ _ E) as (r & P & _). rewrite P. cbn. lia. }
  assert (Hh : count holding (workers s) = 0%nat).
  { destruct (count holding (workers s)) eqn:Eh; [done|]. destruct (count_pos holding (workers s)) as (j & w & Hj & Hw); [lia|].
    apply (iv_mutex _ _ _ _ H j w Hj) in Hw. congruence. }
  pose proof (iv_wait _ _ _ _ H Hc) as Hw. rewrite Ek, Hh in Hw. destruct l; [|cbn in Hw; lia].
  pose proof (iv_seq _ _ _ _ H) as Hs. rewrite Hp, Htd in Hs. cbn in Hs. rewrite app_nil_r in Hs.
  pose proof (iv_done _ _ _ _ H) as Hd. rewrite <- Hs in Hd. unfold calls in Hd. rewrite count_app in Hd.
  assert (H0 : count is_null (Some <$> wk) = 0%nat) by (clear; induction wk; done).
  assert (H1 : count is_null (replicate n (@None work)) = n) by (clear; induction n; cbn; congruence).
  pose proof (count_all ended _ i WWait ltac:(rewrite (iv_len _ _ _ _ H); lia) E). done.
Qed.

Lemma holder_can s l t : inv n wk s l -> mutex s = Some t -> exists s', step new_address s s'.
Proof.
  intros H Hmu. destruct s as [q fs mu ws m td ft ex]. cbn in Hmu. subst mu. destruct t as [|i].
  - pose proof (proj2 (iv_main _ _ _ _ H) eq_refl) as Hm. cbn in Hm.
    destruct m as [| | |v [|c code] loc|v| |]; try done.
    + destruct (count waiting ws) as [|k] eqn:Ek.
      * eexists. left. apply step_signal_none. intros i Hi. by pose proof (count_zero waiting ws i WWait Ek Hi).
      * destruct (count_pos waiting ws) as (i & w & Hi & Hw); [lia|]. destruct w; try done.
        eexists. left. by apply (step_signal new_address q fs (Some Main) ws v loc i).
    + pose proof (iv_queue _ _ _ _ H) as Hq. cbn in Hq. destruct Hq as (loc' & q' & E & _).
      destruct (exec_head _ _ _ _ E) as [[loc2 q2] Ec]. eexists. left. by apply step_enqueue_crit.
    + eexists. left. apply step_enqueue_unlock.
  - pose proof (iv_owner _ _ _ _ H i eq_refl) as Hi. apply lookup_lt_is_Some in Hi as [w E]. cbn in E.
    pose proof (proj2 (iv_mutex _ _ _ _ H i w E) eq_refl) as Hw.
    destruct (queue_held n wk _ _ _ _ _ _ _ _ _ _ _ H E Hw) as (_ & _ & _ & Hq).
    destruct w as [| | | | |[|c code] loc| | |]; try done.
    + destruct (decide (size q = 0)); eexists; right; exists i; [by apply step_wait|by apply step_nonempty].
    + eexists. right. exists i. by apply step_unlock.
    + cbn in Hq. destruct Hq as (loc' & q' & l' & Ee & _). destruct (exec_head _ _ _ _ Ee) as [[loc2 q2] Ec].
      eexists. right. exists i. by apply (step_crit i q fs _ ws m td ft ex c code loc loc2 q2).
Qed.

Lemma progress s l : inv n wk s l -> main s <> MFreed -> exists s', step new_address s s'.
Proof.
  intros H Hf. destruct (mutex s) as [t|] eqn:Hmu; [by eapply holder_can|].
  pose proof (free_main n wk s l H ltac:(by rewrite Hmu)) as Hm.
  destruct s as [q fs mu ws m td ft ex]. cbn in Hmu, Hf, Hm. subst mu.
  destruct m as [i| |v| | |i|]; try done.
  - destruct (decide (i < length ws)%nat); eexists; left; [by apply step_create|apply step_created; lia].
  - destruct td as [|[w|] td]; eexists; left; [apply step_finish|apply step_add_work|apply step_add_null].
  - eexists. left. apply step_enqueue_lock.
  - destruct (decide (i < length ws)%nat) as [Hi|Hi].
    + pose proof (iv_phase _ _ _ _ H) as [Htd _]. cbn in Htd. apply lookup_lt_is_Some in Hi as [w E].
      assert (Hnew : w <> WNew) by (intros ->; destruct (proj1 (iv_new _ _ _ _ H i WNew E) eq_refl) as (k & Hk & _); done).
      destruct w as [| | | | | | | |] eqn:Ew; try done; try (by eapply (worker_can _ l i w H eq_refl); [by subst w|..]; subst w).
      * destruct (waiting_helped _ l i H eq_refl eq_refl Htd E) as [j Hj].
        by eapply (worker_can _ l j WWoken H eq_refl).
      * eexists. left. by apply step_join.
    + destruct (joined n wk Hsmall Hn _ _ _ _ _ _ _ _ _ H ltac:(lia)) as (_ & _ & _ & Hr).
      destruct (queue_free_empty q Hr) as (q' & E & _). eexists. left. apply step_pool_free; [lia|exact E].
Qed.

(** ** Termination *)

Definition worker_weight (w : worker) : Z :=
  match w with
  | WNew | WFree _ => 11
  | WLock | WWoken => 10
  | WTest => 9
  | WWait | WDone => 0
  | WCrit code _ => 1 + Z.of_nat (length code)
  | WHave _ => 12
  end.

Definition main_weight (m : main_thread) : Z :=
  match m with
  | MCreate _ => Z.of_nat n + 4
  | MNext => Z.of_nat n + 3
  | MLock _ => Z.of_nat n + 37
  | MCrit _ code _ => Z.of_nat n + 28 + Z.of_nat (length code)
  | MUnlock _ => Z.of_nat n + 16
  | MJoin i => Z.of_nat (n - i) + 1
  | MFreed => 0
  end.

Fixpoint weight (ws : list worker) : Z :=
  match ws with [] => 0 | w :: ws => worker_weight w + weight ws end.

#[local] Instance weight_perm : Proper ((≡ₚ) ==> (=)) weight.
Proof. induction 1; cbn; lia. Qed.

Lemma weight_insert ws i w w' : ws !! i = Some w -> weight (<[i := w']> ws) = weight ws - worker_weight w + worker_weight w'.
Proof. intros E. destruct (insert_perm ws i w E) as (r & P & P'). rewrite (P' w'), P. cbn. lia. Qed.

Lemma weight_nonneg ws : 0 <= weight ws.
Proof. induction ws as [|w ws IH]; cbn; [lia|]. destruct w; cbn; lia. Qed.

(** Values in the queue count 12, calls still to be made 40. *)
Definition measure (s : pool) : Z :=
  12 * (Z.of_nat (length wk + n) - Z.of_nat (length (fetched s)) - Z.of_nat (length (todo s))
        - Z.of_nat (length (pending (main s)))) +
  40 * Z.of_nat (length (todo s)) + main_weight (main s) + weight (workers s).

Lemma measure_nonneg s l : inv n wk s l -> 0 <= measure s.
Proof.
  intros H. pose proof (f_equal length (iv_seq _ _ _ _ H)) as Hl. unfold calls in Hl.
  rewrite !length_app, !length_fmap, length_app, length_replicate in Hl. pose proof (weight_nonneg (workers s)).
  assert (0 <= main_weight (main s)) by (destruct (main s); cbn; lia). unfold measure. lia.
Qed.

Lemma worker_decreases i s s' : worker_step i s s' -> measure s' + 1 <= measure s.
Proof.
  destruct 1 as [? ? ? ? ? ? ? E|? ? ? ? ? ? ? ? E|? ? ? ? ? ? ? E|? ? ? ? ? ? ? ? E|? ? ? ? ? ? ? ? ? ? ? ? ? E|? ? ? ? ? ? ? ? ? E|? ? ? ? ? ? ? ? E|? ? ? ? ? ? ? ? ? ? E|? ? ? ? ? ? ? ? ? ? E];
    unfold measure; cbn [fetched todo main workers]; rewrite (weight_insert _ _ _ _ E); cbn [worker_weight length dequeue_code];
    rewrite ?length_app; cbn [length]; lia.
Qed.

Lemma main_decreases s s' : length (workers s) = n -> (forall i, main s = MCreate i -> (i < n)%nat -> workers s !! i = Some WNew) ->
  main_step new_address s s' -> measure s' + 1 <= measure s.
Proof.
  intros Hlen Hnew Hs. destruct Hs as [q fs mu ws i td ft ex Hi|q fs mu ws i td ft ex Hi|q fs mu ws w td ft ex f|q fs mu ws td ft ex|
    q fs ws v td ft ex|q fs mu ws v c code loc loc' q' td ft ex Ec|q fs mu ws v loc i td ft ex Ei|q fs mu ws v loc td ft ex Hno|
    q fs mu ws v td ft ex|q fs mu ws ft ex|q fs mu ws i td ft ex Ei|q q' fs mu ws i td ft ex Hi Eq];
    unfold measure; cbn [fetched todo main workers pending length main_weight enqueue_code] in *; try lia.
  - rewrite (weight_insert _ _ _ _ (Hnew i eq_refl ltac:(lia))). cbn. lia.
  - rewrite (weight_insert _ _ _ _ Ei). cbn. lia.
  - apply lookup_lt_Some in Ei. lia.
Qed.

Lemma runs_measure k j s : runs new_address k j (initial new_address n wk) s ->
  Z.of_nat k + measure s <= measure (initial new_address n wk) + 10 * Z.of_nat j.
Proof.
  remember (initial new_address n wk) as s0 eqn:E. induction 1 as [s|k j s1 s2 s3 Hr IH Hs|k j s1 s2 s3 Hr IH Hs]; [lia| |].
  - specialize (IH E). subst s1. destruct (inv_runs new_address Hmalloc n wk Hsmall Hn k j s2 Hr) as [l H].
    destruct Hs as [Hs|[i Hs]]; [|apply worker_decreases in Hs; lia].
    apply main_decreases in Hs; [lia|apply H|]. intros i Hi Hlt. rewrite <- (iv_len _ _ _ _ H) in Hlt.
    apply lookup_lt_is_Some in Hlt as [w Hw]. rewrite Hw. f_equal. apply (iv_new _ _ _ _ H i w Hw). by exists i.
  - specialize (IH E). destruct Hs as [i q fs mu ws m td ft ex Ei]. unfold measure in *. cbn [fetched todo main workers] in *.
    rewrite (weight_insert _ _ _ _ Ei). cbn [worker_weight]. lia.
Qed.

Lemma measure_initial : measure (initial new_address n wk) = 40 * Z.of_nat (length wk + n) + 12 * Z.of_nat n + 4.
Proof.
  unfold measure, initial, calls. cbn [fetched todo main workers pending length main_weight].
  assert (Hw : weight (replicate n WNew) = 11 * Z.of_nat n) by (clear; induction n; cbn [replicate weight worker_weight]; lia).
  rewrite Hw, length_app, length_fmap, length_replicate. lia.
Qed.

End live.
