(* ===== verification/ThreadPoolSpec.v ===== *)
(** * Properties of the work queue and the thread pool *)
From stdpp Require Import prelude gmap list.
From Stdlib Require Import ZArith Lia.
From S2P Require Import Prelude Queue QueueProofs ThreadPool ThreadPoolProofs.
Open Scope Z_scope.
Open Scope c_scope.

(** ** The queue *)

(** Operations of one thread; [None] dequeues. *)
Fixpoint run_queue (new_address : gset Z -> Z) (ops : list (option Z)) (q : queue) : res (list (option Z) * queue) :=
  match ops with
  | [] => Ok ([], q)
  | Some v :: ops => q' <-! queue_enqueue new_address v q;; run_queue new_address ops q'
  | None :: ops =>
      match queue_dequeue q with
      | None => '(vs, q') <-! run_queue new_address ops q;; Ok (None :: vs, q')
      | Some r => '(v, q') <-! r;; '(vs, q'') <-! run_queue new_address ops q';; Ok (Some v :: vs, q'')
      end
  end.

Fixpoint fifo (ops : list (option Z)) (l : list Z) : list (option Z) * list Z :=
  match ops with
  | [] => ([], l)
  | Some v :: ops => fifo ops (l ++ [v])
  | None :: ops =>
      match l with
      | [] => let '(vs, l') := fifo ops [] in (None :: vs, l')
      | v :: l => let '(vs, l') := fifo ops l in (Some v :: vs, l')
      end
  end.

Lemma run_queue_fifo new_address ops : good_malloc new_address -> forall q l,
  repr q l -> Z.of_nat (length l + length ops) < 2 ^ 64 ->
  exists q', run_queue new_address ops q = Ok ((fifo ops l).1, q') /\ repr q' (fifo ops l).2.
Proof.
  intros Hm. induction ops as [|[v|] ops IH]; intros q l Hr Hb; cbn [run_queue fifo length] in *; [by exists q| |].
  - destruct (enqueue_exec new_address Hm v q l no_locals Hr ltac:(lia)) as (loc & q' & E & Hr').
    unfold queue_enqueue. rewrite E. cbn [rbind]. apply IH; [done|]. rewrite length_app. cbn. lia.
  - destruct l as [|v l].
    + unfold queue_dequeue. destruct Hr as (ps & L & Ep). destruct ps; [|done]. rewrite (lk_size _ _ L). cbn [length Z.of_nat Z.eqb].
      destruct (IH q [] ltac:(by exists []) ltac:(cbn in *; lia)) as (q' & E & Hr'). rewrite E. destruct (fifo ops []) as [vs l']. by exists q'.
    + destruct (dequeue_exec v q l no_locals Hr) as (loc & q' & E & Ev & Hr'). unfold queue_dequeue.
      destruct Hr as (ps & L & Ep). destruct ps as [|x ps]; [done|]. rewrite (lk_size _ _ L). cbn [length].
      rewrite (proj2 (Z.eqb_neq _ _)) by lia. rewrite E. cbn [rbind].
      destruct (IH q' l Hr' ltac:(cbn in *; lia)) as (q'' & E' & Hr''). rewrite E'. destruct (fifo ops l) as [vs l']. rewrite Ev. by exists q''.
Qed.

(** The queue is a FIFO queue.  From queue_init(), any sequence of
    queue_enqueue() and queue_dequeue() answers the values in the order in
    which they were enqueued and blocks exactly when the queue is empty; no
    operation touches a freed or uninitialised node, although every node's
    prev field is set to the node itself. *)
Theorem queue_fifo new_address ops :
  good_malloc new_address -> Z.of_nat (length ops) < 2 ^ 64 ->
  exists q', run_queue new_address ops (queue_init new_address) = Ok ((fifo ops []).1, q') /\
             size q' = Z.of_nat (length (fifo ops []).2).
Proof.
  intros Hm Hb. destruct (run_queue_fifo new_address ops Hm _ [] (queue_init_repr new_address Hm) Hb) as (q' & E & ps & L & Ep).
  exists q'. split; [done|]. rewrite (lk_size _ _ L), <- Ep. by rewrite length_fmap.
Qed.

(** One past the largest address in use. *)
Definition demo_malloc (X : gset Z) : Z := 1 + foldr Z.max 0 (elements X).

Lemma demo_malloc_good : good_malloc demo_malloc.
Proof.
  intros X. unfold demo_malloc.
  assert (H : forall l x, x ∈ l -> x <= foldr Z.max 0 l).
  { induction l as [|y l IH]; intros x Hx; [set_solver|]. apply elem_of_cons in Hx as [-> |Hx]; cbn; [lia|specialize (IH x Hx); lia]. }
  assert (H0 : forall l, 0 <= foldr Z.max 0 l) by (induction l; cbn; lia). split; [|unfold NULL; specialize (H0 (elements X)); lia].
  intros Hin. apply elem_of_elements, H in Hin. lia.
Qed.

Lemma queue_fifo_witness :
  exists q', run_queue demo_malloc [Some 7; Some 8; None; Some 9; None; None; None] (queue_init demo_malloc) =
             Ok ([Some 7; Some 8; Some 9; None], q') /\ size q' = 0.
Proof. apply (queue_fifo demo_malloc [Some 7; Some 8; None; Some 9; None; None; None] demo_malloc_good). reflexivity. Defined.

(** ** The pool *)

(** A schedule: main first, then the workers in turn. *)
Definition worker_next (i : nat) (s : pool) : option pool :=
  let '(mkPool q fs mu ws m td ft ex) := s in
  match ws !! i with
  | Some WLock | Some WWoken =>
      match mu with None => Some (mkPool q fs (Some (Worker i)) (<[i := WTest]> ws) m td ft ex) | Some _ => None end
  | Some WTest =>
      if decide (size q = 0) then Some (mkPool q fs None (<[i := WWait]> ws) m td ft ex)
      else Some (mkPool q fs mu (<[i := WCrit dequeue_code no_locals]> ws) m td ft ex)
  | Some (WCrit (c :: code) l) =>
      match c (l, q) with
      | Ok (_, (l', q')) => Some (mkPool q' fs mu (<[i := WCrit code l']> ws) m td ft ex)
      | Err _ => None
      end
  | Some (WCrit [] l) => Some (mkPool q fs None (<[i := WHave (result l)]> ws) m td (ft ++ [deref fs (result l)]) ex)
  | Some (WHave f) =>
      if decide (f = NULL) then Some (mkPool q fs mu (<[i := WDone]> ws) m td ft ex)
      else match fs !! f with Some w => Some (mkPool q fs mu (<[i := WFree f]> ws) m td ft (ex ++ [w])) | None => None end
  | Some (WFree f) =>
      match fs !! f with Some w => Some (mkPool q (delete f fs) mu (<[i := WLock]> ws) m td ft ex) | None => None end
  | _ => None
  end.

Definition first_waiting (ws : list worker) : option nat := fst <$> list_find (fun w => waiting w = true) ws.

Definition main_next (s : pool) : option pool :=
  let '(mkPool q fs mu ws m td ft ex) := s in
  match m with
  | MCreate i =>
      if decide (i < length ws)%nat then Some (mkPool q fs mu (<[i := WLock]> ws) (MCreate (S i)) td ft ex)
      else Some (mkPool q fs mu ws MNext td ft ex)
  | MNext =>
      match td with
      | Some w :: td => let f := demo_malloc (dom fs) in Some (mkPool q (<[f := w]> fs) mu ws (MLock f) td ft ex)
      | None :: td => Some (mkPool q fs mu ws (MLock NULL) td ft ex)
      | [] => Some (mkPool q fs mu ws (MJoin 0) [] ft ex)
      end
  | MLock v =>
      match mu with
      | None => Some (mkPool q fs (Some Main) ws (MCrit v (enqueue_code demo_malloc v) no_locals) td ft ex)
      | Some _ => None
      end
  | MCrit v (c :: code) l =>
      match c (l, q) with Ok (_, (l', q')) => Some (mkPool q' fs mu ws (MCrit v code l') td ft ex) | Err _ => None end
  | MCrit v [] l =>
      match first_waiting ws with
      | Some i => Some (mkPool q fs mu (<[i := WWoken]> ws) (MUnlock v) td ft ex)
      | None => Some (mkPool q fs mu ws (MUnlock v) td ft ex)
      end
  | MUnlock v => Some (mkPool q fs None ws MNext td ft ex)
  | MJoin i =>
      match ws !! i with
      | Some WDone => Some (mkPool q fs mu ws (MJoin (S i)) td ft ex)
      | Some _ => None
      | None => match queue_free q with Ok q' => Some (mkPool q' fs mu ws MFreed td ft ex) | Err _ => None end
      end
  | MFreed => None
  end.

Fixpoint first_step (order : list nat) (s : pool) : option pool :=
  match order with
  | [] => main_next s
  | i :: order => match worker_next i s with Some s' => Some s' | None => first_step order s end
  end.

Fixpoint schedule (k : nat) (s : pool) : option pool :=
  match k with
  | O => Some s
  | S k => s' ← schedule k s; first_step (seq 0 (length (workers s'))) s'
  end.

Lemma worker_next_step i s s' : worker_next i s = Some s' -> worker_step i s s'.
Proof.
  destruct s as [q fs mu ws m td ft ex]. cbn [worker_next]. destruct (ws !! i) as [w|] eqn:E; [|done].
  destruct w as [| | | | |[|c code] l|f|f|]; intros Hn; try done.
  - destruct mu; [done|]. injection Hn as <-. by constructor.
  - case_decide; injection Hn as <-; by constructor.
  - destruct mu; [done|]. injection Hn as <-. by constructor.
  - injection Hn as <-. by constructor.
  - destruct (c (l, q)) as [[[] [l' q']]|] eqn:Ec; [|done]. injection Hn as <-. by econstructor.
  - case_decide as Hf; [subst f; injection Hn as <-; by constructor|].
    destruct (fs !! f) as [w|] eqn:Ef; [|done]. injection Hn as <-. by apply step_call.
  - destruct (fs !! f) as [w|] eqn:Ef; [|done]. injection Hn as <-. by eapply step_free.
Qed.

Lemma main_next_step s s' : main_next s = Some s' -> main_step demo_malloc s s'.
Proof.
  destruct s as [q fs mu ws m td ft ex]. cbn [main_next]. destruct m as [i| |v|v [|c code] l|v|i|]; intros Hn; try done.
  - case_decide; injection Hn as <-; [by constructor|]. apply step_created. lia.
  - destruct td as [|[w|] td]; injection Hn as <-; constructor.
  - destruct mu; [done|]. injection Hn as <-. constructor.
  - unfold first_waiting in Hn. destruct (list_find _ ws) as [[i w]|] eqn:Ef; cbn in Hn; injection Hn as <-.
    + apply list_find_Some in Ef as (Ei & Hw & _). destruct w; try done. by apply step_signal.
    + apply step_signal_none. intros i Hi. rewrite list_find_None in Ef. apply (Forall_lookup_1 _ _ _ _ Ef) in Hi. by destruct Hi.
  - destruct (c (l, q)) as [[[] [l' q']]|] eqn:Ec; [|done]. injection Hn as <-. by constructor.
  - injection Hn as <-. constructor.
  - destruct (ws !! i) as [w|] eqn:E.
    + destruct w; try done. injection Hn as <-. by constructor.
    + destruct (queue_free q) as [q'|] eqn:Eq; [|done]. injection Hn as <-. apply step_pool_free; [|done]. by apply lookup_ge_None.
Qed.

Lemma schedule_runs k : forall s s', schedule k s = Some s' -> runs demo_malloc k 0 s s'.
Proof.
  induction k as [|k IH]; intros s s' Hs; cbn in Hs; [injection Hs as <-; constructor|].
  destruct (schedule k s) as [s1|] eqn:E; [|done]. cbn in Hs. apply (runs_step _ k 0 s s1 s'); [by apply IH|].
  revert Hs. generalize (seq 0 (length (workers s1))) as order. induction order as [|i order IHi]; cbn; [left; by apply main_next_step|].
  destruct (worker_next i s1) as [s2|] eqn:Ew; [intros [= <-]; right; exists i; by apply worker_next_step|done].
Qed.

(** C19: safety of the pool in every interleaving, spurious wake-ups included.
    At every moment at most one thread is inside a critical section of the
    queue; the values have been dequeued in the order in which main enqueued
    them; and the work functions called so far, together with the ones whose
    funct_t a worker holds, are exactly the work dequeued so far: nothing is
    lost and nothing is called twice. *)
Theorem pool_safe new_address n wk k j s :
  good_malloc new_address -> (0 < n)%nat -> Z.of_nat (length wk + n) < 2 ^ 64 ->
  runs new_address k j (initial new_address n wk) s ->
  (count holding (workers s) + (if main_holding (main s) then 1 else 0) <= 1)%nat /\
  (exists rest, calls n wk = fetched s ++ rest) /\
  omap id (fetched s) ≡ₚ executed s ++ omap (owed (functs s)) (workers s).
Proof.
  intros Hm Hn Hb Hr. destruct (inv_runs new_address Hm n wk Hb Hn k j s Hr) as [l H].
  split_and!; [|by rewrite (iv_seq _ _ _ _ H); eexists|apply H].
  pose proof (iv_mutex _ _ _ _ H) as Hw. pose proof (iv_main _ _ _ _ H) as Hh.
  destruct (mutex s) as [[|i]|] eqn:Emu.
  - assert (count holding (workers s) = 0%nat) as ->; [|destruct (main_holding _); lia].
    destruct (count holding (workers s)) eqn:Ec; [done|]. destruct (count_pos holding (workers s)) as (j' & w & Hj & Hx); [lia|].
    by apply (Hw j' w Hj) in Hx.
  - assert (main_holding (main s) = false) as -> by (apply not_true_is_false; intros Ht; by apply Hh in Ht).
    pose proof (iv_owner _ _ _ _ H i Emu) as Hi. apply lookup_lt_is_Some in Hi as [w E].
    rewrite <- (list_insert_id (workers s) i w E). destruct (insert_perm _ _ _ E) as (r & P & P'). rewrite (P' w). cbn.
    assert (Hz : count holding (<[i := WLock]> (workers s)) = 0%nat).
    { destruct (count holding (<[i := WLock]> (workers s))) eqn:Ec; [done|].
      destruct (count_pos holding (<[i := WLock]> (workers s))) as (j' & w' & Hj & Hx); [lia|].
      destruct (decide (j' = i)) as [-> |Hne].
      - rewrite list_lookup_insert_eq in Hj by (by eapply lookup_lt_Some). by injection Hj as <-.
      - rewrite list_lookup_insert_ne in Hj by done. apply (Hw j' w' Hj) in Hx. congruence. }
    rewrite (P' WLock) in Hz. cbn in Hz. destruct (holding w); lia.
  - assert (main_holding (main s) = false) as -> by (apply not_true_is_false; intros Ht; by apply Hh in Ht).
    destruct (count holding (workers s)) eqn:Ec; [lia|]. destruct (count_pos holding (workers s)) as (j' & w & Hj & Hx); [lia|].
    by apply (Hw j' w Hj) in Hx.
Qed.

Definition demo_work : list work := [(1, 10); (2, 20); (3, 30)].
Definition demo_start : pool := initial demo_malloc 2 demo_work.
Definition demo_state (k : nat) : pool := default demo_start (schedule k demo_start).

Lemma pool_safe_witness :
  (count holding (workers (demo_state 50)) + (if main_holding (main (demo_state 50)) then 1 else 0) <= 1)%nat /\
  (exists rest, calls 2 demo_work = fetched (demo_state 50) ++ rest) /\
  omap id (fetched (demo_state 50)) ≡ₚ executed (demo_state 50) ++ omap (owed (functs (demo_state 50))) (workers (demo_state 50)).
Proof.
  apply (pool_safe demo_malloc 2 demo_work 50 0); [apply demo_malloc_good|lia|reflexivity|].
  apply schedule_runs. vm_compute. reflexivity.
Defined.

Lemma pool_end new_address n wk k j s :
  good_malloc new_address -> (0 < n)%nat -> Z.of_nat (length wk + n) < 2 ^ 64 ->
  runs new_address k j (initial new_address n wk) s -> main s = MFreed ->
  executed s ≡ₚ wk /\ (forall i w, workers s !! i = Some w -> w = WDone) /\ functs s = ∅ /\ nodes (work_queue s) = ∅.
Proof.
  intros Hm Hn Hb Hr Hf. destruct (inv_runs new_address Hm n wk Hb Hn k j s Hr) as [l H].
  pose proof (iv_phase _ _ _ _ H) as Hph. unfold phase_ok in Hph. rewrite Hf in Hph. destruct Hph as [_ Hall].
  destruct (drained n wk Hb Hn s l H) as (-> & _ & _ & Hft); [intros i w Hi; by rewrite (Hall i w Hi)|].
  assert (Ho : forall {B} (f : worker -> option B), f WDone = None -> omap f (workers s) = []).
  { intros B f HfD. clear -Hall HfD. induction (workers s) as [|w ws IH]; [done|]. cbn. rewrite (Hall 0%nat w eq_refl), HfD.
    apply IH. intros i x Hi. by apply (Hall (S i)). }
  split_and!; [|done| |].
  - pose proof (iv_exec _ _ _ _ H) as He. rewrite Ho, app_nil_r in He by done. rewrite <- He, Hft. unfold calls.
    rewrite omap_app. assert (omap id (Some <$> wk) = wk) as -> by (clear; induction wk; cbn; congruence).
    assert (omap id (replicate n (@None work)) = []) as -> by (clear; induction n; done). by rewrite app_nil_r.
  - pose proof (iv_ptrs _ _ _ _ H) as Hp. rewrite Ho, Hf in Hp by done. cbn in Hp. apply Permutation_nil_r, elements_empty_inv in Hp.
    by apply dom_empty_inv.
  - pose proof (iv_queue _ _ _ _ H) as Hq. unfold queue_ok in Hq. rewrite Hf in Hq. apply Hq.
Qed.

(** C7: when main returns from thread_pool_finish(), every worker has returned,
    every work function has been called exactly once with its argument, and
    the nodes of the queue and all funct_t have been freed. *)
Theorem pool_result new_address n wk k j s :
  good_malloc new_address -> (0 < n)%nat -> Z.of_nat (length wk + n) < 2 ^ 64 ->
  runs new_address k j (initial new_address n wk) s -> main s = MFreed ->
  executed s ≡ₚ wk /\ (forall i w, workers s !! i = Some w -> w = WDone) /\ functs s = ∅ /\ nodes (work_queue s) = ∅.
Proof. apply pool_end. Qed.

Lemma pool_result_witness :
  executed (demo_state 125) ≡ₚ demo_work /\ (forall i w, workers (demo_state 125) !! i = Some w -> w = WDone) /\
  functs (demo_state 125) = ∅ /\ nodes (work_queue (demo_state 125)) = ∅.
Proof.
  apply (pool_result demo_malloc 2 demo_work 125 0); [apply demo_malloc_good|lia|reflexivity| |reflexivity].
  apply schedule_runs. vm_compute. reflexivity.
Defined.

(** C6: the pool always finishes.  No reachable state before the end is stuck
    (no deadlock, no lost wake-up, no access to a freed node or funct_t), and
    a run with [j] spurious wake-ups has a bounded number of steps: so every
    schedule with finitely many spurious wake-ups reaches the end. *)
Theorem pool_finishes new_address n wk k j s :
  good_malloc new_address -> (0 < n)%nat -> Z.of_nat (length wk + n) < 2 ^ 64 ->
  runs new_address k j (initial new_address n wk) s ->
  (main s = MFreed \/ exists s', step new_address s s') /\
  Z.of_nat k <= 40 * Z.of_nat (length wk + n) + 12 * Z.of_nat n + 4 + 10 * Z.of_nat j.
Proof.
  intros Hm Hn Hb Hr. destruct (inv_runs new_address Hm n wk Hb Hn k j s Hr) as [l H]. split.
  - destruct (main s) eqn:E; try (right; apply (progress new_address n wk Hb Hn s l H); congruence). by left.
  - pose proof (runs_measure new_address Hm n wk Hb Hn k j s Hr) as Hk. rewrite measure_initial in Hk by done.
    pose proof (measure_nonneg n wk Hb Hn s l H). lia.
Qed.

Lemma pool_finishes_witness :
  (main (demo_state 100) = MFreed \/ exists s', step demo_malloc (demo_state 100) s') /\
  Z.of_nat 100 <= 40 * Z.of_nat (length demo_work + 2) + 12 * Z.of_nat 2 + 4 + 10 * Z.of_nat 0.
Proof.
  apply (pool_finishes demo_malloc 2 demo_work 100 0); [apply demo_malloc_good|lia|reflexivity|].
  apply schedule_runs. vm_compute. reflexivity.
Defined.
