(* ===== verification/PasswordCracker.v ===== *)
(** * The password cracker (threadpool/src/password_cracker.c)

    main() reads password hashes, forms every word of the dictionary with one
    digit inserted, and gives every pair of a password and a hash to the
    thread pool, whose workers print the passwords that match.  The dictionary,
    crypt_r() and the memory that malloc() returns are arguments. *)
From stdpp Require Import prelude list.
From Stdlib Require Import ZArith Lia.
From S2P Require Import Prelude.
Open Scope Z_scope.
Open Scope c_scope.

Definition HASH_START : list Z := [36; 54; 36].
Definition SALT_LENGTH : nat := 20.
Definition HASH_LENGTH : nat := 106.
Definition NUM_THREADS : nat := 16.
Definition NEWLINE : Z := 10.

(** hashpass_t *)
Record hashpass_t := mkHashpass { password : list Z; hash : list Z }.

(** ** Reading the hashes *)

(** The lines that getline() returns, each with its newline. *)
Fixpoint lines (input : list Z) : list (list Z) :=
  match input with
  | [] => []
  | c :: input =>
      if c =? NEWLINE then [c] :: lines input
      else match lines input with
           | [] => [[c]]
           | l :: ls => (c :: l) :: ls
           end
  end.

(** The loop that reads the hashes; stops at an empty line. *)
Fixpoint read_hashes (ls : list (list Z)) (hashes : list (list Z)) : res (list (list Z)) :=
  match ls with
  | [] => Ok hashes
  | line :: ls =>
      if nth 0 line 0 =? NEWLINE then Ok hashes
      else
        let line_length := length (c_str line) in
        if negb (Nat.eqb line_length HASH_LENGTH ||
                 (Nat.eqb line_length (HASH_LENGTH + 1) && (nth HASH_LENGTH line 0 =? NEWLINE))) then Err AssertFail
        else if negb (bool_decide (take (length HASH_START) line = HASH_START)) then Err AssertFail
        else read_hashes ls (hashes ++ [take HASH_LENGTH line])
  end.

(** ** form_word() *)

(** strcat() into a block of memory: the string is appended at the first zero
    byte; running or writing past the block is undefined. *)
Definition strcat (block src : list Z) : res (list Z) :=
  let k := length (c_str block) in
  let src := c_str src in
  if (k + length src <? length block)%nat then Ok (take k block ++ src ++ [0] ++ drop (k + length src + 1) block)
  else Err UB.

(** The loop over the letters; [i] is the index of the next one. *)
Fixpoint form_loop (num_pos i : Z) (num letters : list Z) (num_added : bool) (password : list Z) : res (bool * list Z) :=
  match letters with
  | [] => Ok (num_added, password)
  | c :: letters =>
      '(num_added, password) <-!
        (if (num_pos <? i) && negb num_added then
           password <-! strcat password num;; Ok (true, password)
         else Ok (num_added, password));;
      password <-! strcat password [c; 0];;
      form_loop num_pos (i + 1) num letters num_added password
  end.

(** [block] is what malloc(word_length + 1) returned, uninitialised. *)
Definition form_word (num_pos : Z) (num word block : list Z) : res (list Z) :=
  let num_added := false in
  '(num_added, password) <-!
    (if num_pos =? -1 then
       password <-! strcat block num;; Ok (true, password)
     else Ok (num_added, block));;
  '(num_added, password) <-! form_loop num_pos 0 num word num_added password;;
  if negb num_added then strcat password num else Ok password.

(** ** The loops of main() *)

Section cracker.
(** The memory of the [n]-th call of malloc() in form_word(), by its size, and
    the C library's crypt_r(). *)
Context (malloc_block : nat -> nat -> list Z) (crypt_r : list Z -> list Z -> list Z).

(** A loop whose rounds add work. *)
Fixpoint for_each {A B} (l : list A) (body : A -> M nat (list B)) : M nat (list B) :=
  match l with
  | [] => ret []
  | x :: l => a <- body x;; b <- for_each l body;; ret (a ++ b)
  end.

Definition digits : list Z := Z.of_nat <$> seq 48 10.

(** num_pos = -1, ..., word_length - 1 *)
Definition positions (word_length : nat) : list Z := (fun p => Z.of_nat p - 1) <$> seq 0 (word_length + 1).

(** The state counts the calls of form_word(). *)
Definition work_of_password (hashes : list (list Z)) (word : list Z) (ascii num_pos : Z) : M nat (list hashpass_t) :=
  n <- get;;
  password <- lift (form_word num_pos [ascii; 0] word (malloc_block n (length word + 1)));;
  modify S;;;
  ret (mkHashpass (c_str password) <$> hashes).

Definition work_of_word (hashes : list (list Z)) (word : list Z) : M nat (list hashpass_t) :=
  for_each digits (fun ascii =>
    for_each (positions (length word)) (fun num_pos => work_of_password hashes word ascii num_pos)).

(** What main() adds to the pool, in order. *)
Definition crack (dictionary : list (list Z)) (input : list Z) : M nat (list hashpass_t) :=
  hashes <- lift (read_hashes (lines input) []);;
  for_each dictionary (work_of_word hashes).

(** The work function: what it prints, if anything. *)
Definition hashes_match (aux : hashpass_t) : option (list Z) :=
  let salt := take SALT_LENGTH (hash aux) in
  let hashed := crypt_r (password aux) salt in
  if bool_decide (take (HASH_LENGTH - SALT_LENGTH) (drop SALT_LENGTH hashed) =
                  take (HASH_LENGTH - SALT_LENGTH) (drop SALT_LENGTH (hash aux)))
  then Some (password aux) else None.

End cracker.
