(* ===== verification/PasswordCrackerSpec.v ===== *)
(** * Properties of the password cracker *)
From stdpp Require Import prelude gmap list.
From Stdlib Require Import ZArith Lia.
From S2P Require Import Prelude Queue QueueProofs ThreadPool ThreadPoolProofs ThreadPoolSpec PasswordCracker.
Open Scope Z_scope.
Open Scope c_scope.

(** ** Strings in a block *)

Lemma c_str_no_nul l : no_nul (c_str l).
Proof. induction l as [|b l IH]; cbn; [constructor|]. destruct (Z.eqb_spec b 0); [constructor|]. by constructor. Qed.

Lemma c_str_take l : take (length (c_str l)) l = c_str l.
Proof. induction l as [|b l IH]; cbn; [done|]. destruct (b =? 0); [done|]. cbn. by rewrite IH. Qed.

Lemma c_str_end s t : no_nul s -> c_str (s ++ 0 :: t) = s.
Proof. induction 1 as [|b l Hb _ IH]; [done|]. cbn. destruct (Z.eqb_spec b 0); [done|]. by rewrite IH. Qed.

(** What a computation on a block leaves there, if it fits. *)
Definition leaves (m s : list Z) (r : res (list Z)) : Prop :=
  if (length s <? length m)%nat then exists m', r = Ok m' /\ c_str m' = s /\ length m' = length m else r = Err UB.

Lemma strcat_leaves m src : no_nul (c_str src) -> leaves m (c_str m ++ c_str src) (strcat m src).
Proof.
  intros Hs. unfold leaves, strcat. rewrite length_app. destruct (Nat.ltb_spec (length (c_str m) + length (c_str src)) (length m)) as [Hlt|Hge]; [|done].
  eexists. split; [done|]. rewrite c_str_take. cbn [app]. split.
  - rewrite app_assoc. apply c_str_end, Forall_app. split; [apply c_str_no_nul|done].
  - rewrite !length_app. cbn [length]. rewrite length_drop. lia.
Qed.

(** [d] inserted after the first [k] letters. *)
Definition insert_digit (k : nat) (d : Z) (w : list Z) : list Z := take k w ++ d :: drop k w.

Lemma length_insert_digit k d w : length (insert_digit k d w) = S (length w).
Proof. unfold insert_digit. rewrite length_app. cbn. rewrite length_take, length_drop. lia. Qed.

(** The loop: the text it appends and whether the digit is in it. *)
Definition appended (added : bool) (k : nat) (d : Z) (w : list Z) : bool * list Z :=
  if added then (true, w) else if (k <? length w)%nat then (true, insert_digit k d w) else (false, w).

Lemma form_loop_leaves p d w : d <> 0 -> no_nul w -> forall i added m,
  let '(added', t) := appended added (Z.to_nat (p + 1 - i)) d w in
  (length (c_str m) < length m)%nat ->
  if (length (c_str m ++ t) <? length m)%nat
  then exists m', form_loop p i [d; 0] w added m = Ok (added', m') /\ c_str m' = c_str m ++ t /\ length m' = length m
  else form_loop p i [d; 0] w added m = Err UB.
Proof.
  intros Hd. induction 1 as [|c w Hc Hw IH]; intros i added m.
  - assert (E : appended added (Z.to_nat (p + 1 - i)) d [] = (added, [])) by (by destruct added, (Z.to_nat (p + 1 - i))).
    rewrite E. rewrite app_nil_r. intros Hlt. rewrite (proj2 (Nat.ltb_lt _ _) Hlt). by exists m.
  - assert (Hd' : no_nul (c_str [d; 0])) by apply c_str_no_nul. assert (Hc' : no_nul (c_str [c; 0])) by apply c_str_no_nul.
    assert (Ed : c_str [d; 0] = [d]) by (cbn; by rewrite (proj2 (Z.eqb_neq _ _) Hd)).
    assert (Ec : c_str [c; 0] = [c]) by (cbn; by rewrite (proj2 (Z.eqb_neq _ _) Hc)).
    destruct (appended added _ d (c :: w)) as [added' t] eqn:Ea. intros Hm. cbn [form_loop].
    destruct ((p <? i) && negb added) eqn:Eb.
    + apply andb_true_iff in Eb as [Hp Ha]. apply Z.ltb_lt in Hp. destruct added; [done|].
      replace (Z.to_nat (p + 1 - i)) with 0%nat in Ea by lia. cbn in Ea. injection Ea as <- <-.
      unfold insert_digit. cbn [take drop app].
      pose proof (strcat_leaves m [d; 0] Hd') as L1. rewrite Ed in L1. unfold leaves in L1. rewrite length_app in L1. cbn [length] in L1.
      rewrite length_app. cbn [length].
      destruct (Nat.ltb_spec (length (c_str m) + 1) (length m)) as [H1|H1].
      2: { rewrite L1. cbn [rbind]. rewrite (proj2 (Nat.ltb_ge _ _)) by lia. done. }
      destruct L1 as (m1 & E1 & S1 & Z1). rewrite E1. cbn [rbind].
      pose proof (strcat_leaves m1 [c; 0] Hc') as L2. rewrite Ec, S1 in L2. unfold leaves in L2. rewrite !length_app in L2. cbn [length] in L2.
      rewrite Z1 in L2. destruct (Nat.ltb_spec (length (c_str m) + 1 + 1) (length m)) as [H2|H2].
      2: { rewrite L2. cbn [rbind]. rewrite (proj2 (Nat.ltb_ge _ _)) by lia. done. }
      destruct L2 as (m2 & E2 & S2 & Z2). rewrite E2. cbn [rbind]. specialize (IH (i + 1) true m2). cbn [appended] in IH.
      rewrite S2, !length_app, Z2 in IH. cbn [length] in IH. specialize (IH ltac:(lia)).
      replace (length (c_str m) + S (S (length w)))%nat with (length (c_str m) + 1 + 1 + length w)%nat by lia.
      destruct (_ <? _)%nat; [|done]. destruct IH as (m3 & E3 & S3 & Z3). exists m3. rewrite <- !app_assoc in S3. by rewrite S3.
    + cbn [rbind]. pose proof (strcat_leaves m [c; 0] Hc') as L2. rewrite Ec in L2. unfold leaves in L2. rewrite !length_app in L2. cbn [length] in L2.
      assert (Ht : exists t', t = c :: t' /\ appended added (Z.to_nat (p + 1 - (i + 1))) d w = (added', t')).
      { destruct added; [injection Ea as <- <-; by exists w|]. cbn [negb] in Eb. rewrite andb_true_r in Eb. apply Z.ltb_ge in Eb.
        replace (Z.to_nat (p + 1 - i)) with (S (Z.to_nat (p + 1 - (i + 1)))) in Ea by lia.
        unfold appended in *. remember (Z.to_nat (p + 1 - (i + 1))) as k eqn:Ek.
        change (S k <? length (c :: w))%nat with (k <? length w)%nat in Ea.
        destruct (k <? length w)%nat; injection Ea as <- <-; eexists; (split; [done|done]). }
      destruct Ht as (t' & -> & Ea'). rewrite length_app. cbn [length].
      destruct (Nat.ltb_spec (length (c_str m) + 1) (length m)) as [H2|H2].
      2: { rewrite L2. cbn [rbind]. rewrite (proj2 (Nat.ltb_ge _ _)) by lia. done. }
      destruct L2 as (m2 & E2 & S2 & Z2). rewrite E2. cbn [rbind]. specialize (IH (i + 1) added m2). rewrite Ea' in IH.
      rewrite S2, !length_app, Z2 in IH. cbn [length] in IH. specialize (IH ltac:(lia)).
      replace (length (c_str m) + S (length t'))%nat with (length (c_str m) + 1 + length t')%nat by lia.
      destruct (_ <? _)%nat; [|done]. destruct IH as (m3 & E3 & S3 & Z3). exists m3. rewrite <- !app_assoc in S3. by rewrite S3.
Qed.

(** The whole function: the text, or an overflow of the block. *)
Lemma form_word_leaves p d w m : d <> 0 -> no_nul w -> -1 <= p < Z.of_nat (length w) -> (length (c_str m) < length m)%nat ->
  leaves m (c_str m ++ insert_digit (Z.to_nat (p + 1)) d w) (form_word p [d; 0] w m).
Proof.
  intros Hd Hw Hp Hm. unfold leaves, form_word. assert (Hd' : no_nul (c_str [d; 0])) by apply c_str_no_nul.
  assert (Ed : c_str [d; 0] = [d]) by (cbn; by rewrite (proj2 (Z.eqb_neq _ _) Hd)).
  rewrite length_app, length_insert_digit. destruct (Z.eqb_spec p (-1)) as [-> |Hne].
  - pose proof (strcat_leaves m [d; 0] Hd') as L1. rewrite Ed in L1. unfold leaves in L1. rewrite length_app in L1. cbn [length] in L1.
    destruct (Nat.ltb_spec (length (c_str m) + 1) (length m)) as [H1|H1].
    2: { rewrite L1. cbn [rbind]. rewrite (proj2 (Nat.ltb_ge _ _)) by lia. done. }
    destruct L1 as (m1 & E1 & S1 & Z1). rewrite E1. cbn [rbind].
    pose proof (form_loop_leaves (-1) d w Hd Hw 0 true m1) as L. cbn [appended] in L. rewrite S1, !length_app, Z1 in L. cbn [length] in L.
    specialize (L ltac:(lia)). replace (length (c_str m) + 1 + length w)%nat with (length (c_str m) + S (length w))%nat in L by lia.
    destruct (_ <? _)%nat; [|by rewrite L]. destruct L as (m2 & E2 & S2 & Z2). rewrite E2. cbn [rbind negb]. exists m2.
    rewrite S2, <- app_assoc. done.
  - cbn [rbind]. pose proof (form_loop_leaves p d w Hd Hw 0 false m) as L. unfold appended in L.
    replace (p + 1 - 0) with (p + 1) in L by lia. remember (Z.to_nat (p + 1)) as k eqn:Ek.
    destruct (Nat.ltb_spec k (length w)) as [Hk|Hk].
    + specialize (L Hm). rewrite length_app, length_insert_digit in L.
      destruct (_ <? _)%nat; [|by rewrite L]. destruct L as (m2 & E2 & S2 & Z2). rewrite E2. by exists m2.
    + specialize (L Hm). rewrite length_app in L. assert (Hkw : k = length w) by lia.
      destruct (Nat.ltb_spec (length (c_str m) + length w) (length m)) as [H1|H1].
      2: { rewrite L. rewrite (proj2 (Nat.ltb_ge _ _)) by lia. done. }
      destruct L as (m2 & E2 & S2 & Z2). rewrite E2. cbn [rbind negb].
      pose proof (strcat_leaves m2 [d; 0] Hd') as L1. rewrite Ed, S2 in L1. unfold leaves in L1. rewrite !length_app, Z2 in L1. cbn [length] in L1.
      replace (length (c_str m) + length w + 1)%nat with (length (c_str m) + S (length w))%nat in L1 by lia.
      destruct (_ <? _)%nat; [|done]. destruct L1 as (m3 & E3 & S3 & Z3). exists m3. split_and!; try done.
      rewrite S3. unfold insert_digit. rewrite Hkw, take_ge, drop_ge by lia. by rewrite <- app_assoc.
Qed.

(** form_word() overflows its buffer.  It asks malloc() for one byte more
    than the word, and writes the word, the digit and the terminating zero:
    if malloc() returns a block of exactly the size requested, whatever it
    holds, the function writes past it. *)
Theorem form_word_overflows p d w block :
  d <> 0 -> no_nul w -> -1 <= p < Z.of_nat (length w) -> length block = (length w + 1)%nat ->
  form_word p [d; 0] w block = Err UB.
Proof.
  intros Hd Hw Hp Hb. destruct (decide (length (c_str block) < length block)%nat) as [Hlt|Hge].
  - pose proof (form_word_leaves p d w block Hd Hw Hp Hlt) as L. unfold leaves in L.
    by rewrite length_app, length_insert_digit, (proj2 (Nat.ltb_ge _ _)) in L by lia.
  - assert (Hfull : forall s, strcat block s = Err UB).
    { intros s. unfold strcat. by rewrite (proj2 (Nat.ltb_ge _ _)) by lia. }
    unfold form_word. destruct (p =? -1) eqn:E; [by rewrite Hfull|]. cbn [rbind]. destruct w as [|c w]; [cbn in Hp; lia|].
    cbn [form_loop]. rewrite andb_true_r. destruct (p <? 0); cbn [rbind]; by rewrite Hfull.
Qed.

Lemma form_word_overflows_witness : form_word 1 [55; 0] [97; 98; 99] [0; 0; 0; 0] = Err UB.
Proof. apply (form_word_overflows 1 55 [97; 98; 99]); [lia|repeat constructor; lia|cbn; lia|reflexivity]. Defined.

(** ** The work *)

(** Hashes as they are stored in a file. *)
Definition hash_ok (h : list Z) : Prop :=
  length h = HASH_LENGTH /\ no_nul h /\ Forall (fun c => c <> NEWLINE) h /\ take (length HASH_START) h = HASH_START.

Definition hash_file (hashes : list (list Z)) : list Z := hashes ≫= (fun h => h ++ [NEWLINE]).

Lemma lines_line h rest : Forall (fun c => c <> NEWLINE) h -> lines (h ++ NEWLINE :: rest) = (h ++ [NEWLINE]) :: lines rest.
Proof.
  induction 1 as [|c h Hc _ IH]; [done|]. cbn [app lines]. by rewrite (proj2 (Z.eqb_neq _ _) Hc), IH.
Qed.

Lemma read_line h ls acc : hash_ok h -> read_hashes ((h ++ [NEWLINE]) :: ls) acc = read_hashes ls (acc ++ [h]).
Proof.
  intros (Hlen & Hnul & Hnl & Hst). remember (h ++ [NEWLINE]) as line eqn:El. cbn [read_hashes].
  assert (H0 : (nth 0 line 0 =? NEWLINE) = false).
  { subst line. destruct h as [|c h]; [done|]. inversion_clear Hnl. by apply Z.eqb_neq. }
  assert (Hstr : length (c_str line) = (HASH_LENGTH + 1)%nat).
  { rewrite c_str_id; [by rewrite El, length_app, Hlen|]. subst line. apply Forall_app. split; [done|]. constructor; [done|constructor]. }
  assert (Hnth : nth HASH_LENGTH line 0 = NEWLINE) by (subst line; rewrite app_nth2 by (rewrite Hlen; apply le_n); by rewrite Hlen, Nat.sub_diag).
  assert (Htk : take (length HASH_START) line = HASH_START).
  { subst line. rewrite take_app_le by (rewrite Hlen; unfold HASH_LENGTH; cbn; lia). done. }
  assert (Htk' : take HASH_LENGTH line = h) by (subst line; by rewrite <- Hlen, take_app_length).
  rewrite H0, Hstr, Hnth, Htk, bool_decide_eq_true_2, Htk', Nat.eqb_refl, Z.eqb_refl by done. by rewrite orb_true_r.
Qed.

(** A line that is no hash.  A line of 105 characters and its newline has the
    length of a hash. *)
Definition bad_line (l : list Z) : Prop :=
  l <> [] /\ no_nul l /\ Forall (fun c => c <> NEWLINE) l /\ ((length l <> 105%nat /\ length l <> 106%nat) \/ take 3 l <> HASH_START).

Lemma read_bad_line l ls acc : bad_line l -> read_hashes ((l ++ [NEWLINE]) :: ls) acc = Err AssertFail.
Proof.
  intros (Hne & Hnul & Hnl & Hbad). remember (l ++ [NEWLINE]) as line eqn:El. cbn [read_hashes].
  assert (H0 : (nth 0 line 0 =? NEWLINE) = false).
  { subst line. destruct l as [|c l]; [done|]. inversion_clear Hnl. by apply Z.eqb_neq. }
  assert (Hstr : length (c_str line) = S (length l)).
  { rewrite c_str_id; [rewrite El, length_app; cbn [length]; lia|]. subst line. apply Forall_app. split; [done|]. constructor; [done|constructor]. }
  rewrite H0, Hstr. unfold HASH_LENGTH. destruct (Nat.eqb_spec (S (length l)) 106) as [E|E]; [|destruct (Nat.eqb_spec (S (length l)) (106 + 1)) as [E'|E']; [|done]].
  - destruct Hbad as [Hl|Hp]; [lia|]. cbn [orb negb]. rewrite bool_decide_eq_false_2; [done|]. subst line.
    change (length HASH_START) with 3%nat. by rewrite take_app_le by lia.
  - destruct Hbad as [Hl|Hp]; [lia|]. destruct (nth 106 line 0 =? NEWLINE); [|done]. cbn [orb negb andb]. rewrite bool_decide_eq_false_2; [done|]. subst line.
    change (length HASH_START) with 3%nat. by rewrite take_app_le by lia.
Qed.

Lemma read_hash_lines hashes rest acc : Forall hash_ok hashes -> read_hashes (lines (hash_file hashes ++ rest)) acc = read_hashes (lines rest) (acc ++ hashes).
Proof.
  intros Hh. revert acc. induction Hh as [|h hashes Hh _ IH]; intros acc; [by rewrite app_nil_r|].
  change (hash_file (h :: hashes)) with ((h ++ [NEWLINE]) ++ hash_file hashes). rewrite <- !app_assoc. cbn [app].
  rewrite lines_line by apply Hh. rewrite read_line, IH by done. by rewrite <- app_assoc.
Qed.

(** C27: the cracker overruns its memory.  If malloc() gives the memory that is
    asked for and no more, whatever that holds, then on hashes in the format that
    main() expects, up to the end of the input or an empty line, the program has
    undefined behaviour as soon as the dictionary has a word: no password is ever
    tried.  A line that is no hash ends it before, with an assertion failure. *)
Theorem cracker_overflows malloc_block dictionary hashes rest n :
  (forall k sz, length (malloc_block k sz) = sz) -> dictionary <> [] -> Forall no_nul dictionary -> Forall hash_ok hashes ->
  (rest = [] \/ (exists more, rest = NEWLINE :: more) -> crack malloc_block dictionary (hash_file hashes ++ rest) n = Err UB) /\
  (forall l more, bad_line l -> rest = l ++ NEWLINE :: more -> crack malloc_block dictionary (hash_file hashes ++ rest) n = Err AssertFail).
Proof.
  intros Hm Hne Hd Hh. unfold crack. split.
  - intros Hr. assert (Er : read_hashes (lines (hash_file hashes ++ rest)) [] = Ok hashes).
    { rewrite read_hash_lines by done. by destruct Hr as [-> |[more ->]]. }
    rewrite (bind_ok _ _ n hashes n) by (unfold lift; by rewrite Er). destruct Hd as [|w dictionary Hw _]; [done|]. cbn [for_each].
    apply bind_err. unfold work_of_word, digits, positions. rewrite Nat.add_1_r. cbn [seq fmap list_fmap for_each]. apply bind_err, bind_err.
    unfold work_of_password. rewrite bind_ok with (a := n) (s' := n) by done. apply bind_err. unfold lift.
    by rewrite (form_word_overflows (-1) 48 w) by (done || lia).
  - intros l more Hl ->. apply bind_err. unfold lift. rewrite read_hash_lines by done. destruct Hl as (H1 & H2 & H3 & H4).
    rewrite lines_line by done. by rewrite read_bad_line.
Qed.

Definition demo_hash : list Z := HASH_START ++ replicate 103 97.

Lemma demo_hash_ok : hash_ok demo_hash.
Proof.
  unfold hash_ok, no_nul. let h := eval vm_compute in demo_hash in change demo_hash with h.
  split_and!; [reflexivity| | |reflexivity]; repeat (constructor; [discriminate|]); constructor.
Qed.

Lemma cracker_overflows_witness :
  crack (fun _ sz => replicate sz 0) [[97]] (hash_file [demo_hash] ++ []) 0%nat = Err UB /\
  crack (fun _ sz => replicate sz 0) [[97]] (hash_file [demo_hash] ++ [36; 10]) 0%nat = Err AssertFail.
Proof.
  split.
  - apply (cracker_overflows (fun _ sz => replicate sz 0) [[97]] [demo_hash] [] 0); [intros; apply length_replicate|discriminate| |apply Forall_singleton, demo_hash_ok|by left].
    repeat constructor. lia.
  - apply (cracker_overflows (fun _ sz => replicate sz 0) [[97]] [demo_hash] [36; 10] 0) with (l := [36]) (more := []);
      [intros; apply length_replicate|discriminate| |apply Forall_singleton, demo_hash_ok| |reflexivity].
    + repeat constructor. lia.
    + split; [discriminate|]. split; [repeat constructor; lia|]. split; [repeat constructor; discriminate|]. left. cbn. lia.
Defined.

(** ** The workers *)

(** The work as the pool sees it: the function and the number of its argument. *)
Definition pool_work (work : list hashpass_t) : list ThreadPool.work := (fun i => (1, Z.of_nat i)) <$> seq 0 (length work).

(** What the calls print. *)
Definition printed (crypt_r : list Z -> list Z -> list Z) (work : list hashpass_t) (calls : list ThreadPool.work) : list (list Z) :=
  omap (fun c => work !! Z.to_nat c.2 ≫= hashes_match crypt_r) calls.

Lemma printed_pool_work crypt_r work : printed crypt_r work (pool_work work) = omap (hashes_match crypt_r) work.
Proof.
  unfold printed, pool_work.
  assert (H : forall pre, omap (fun c : ThreadPool.work => (pre ++ work) !! Z.to_nat c.2 ≫= hashes_match crypt_r)
                        ((fun i => (1, Z.of_nat i)) <$> seq (length pre) (length work)) = omap (hashes_match crypt_r) work).
  { induction work as [|x work IH]; intros pre; [done|]. cbn [length seq fmap list_fmap omap list_omap snd].
    rewrite Nat2Z.id, list_lookup_middle by done. cbn [mbind option_bind].
    specialize (IH (pre ++ [x])). rewrite length_app, <- app_assoc in IH. cbn [length app] in IH. rewrite Nat.add_1_r in IH.
    by rewrite IH. }
  apply (H []).
Qed.

(** Whatever pairs of passwords and hashes the pool is given: in every interleaving
    of the sixteen workers the program that has finished has printed, in some
    order, exactly the passwords whose crypt_r() under the salt of their hash
    agrees with that hash behind the salt. *)
Theorem workers_print new_address crypt_r work k j s :
  good_malloc new_address -> Z.of_nat (length work + NUM_THREADS) < 2 ^ 64 ->
  runs new_address k j (initial new_address NUM_THREADS (pool_work work)) s -> main s = MFreed ->
  printed crypt_r work (executed s) ≡ₚ
    password <$> filter (fun x => take (HASH_LENGTH - SALT_LENGTH) (drop SALT_LENGTH (crypt_r (password x) (take SALT_LENGTH (hash x)))) =
                                  take (HASH_LENGTH - SALT_LENGTH) (drop SALT_LENGTH (hash x))) work.
Proof.
  intros Hm Hb Hr Hf. assert (Hn : (0 < NUM_THREADS)%nat) by (unfold NUM_THREADS; lia).
  assert (Hb' : Z.of_nat (length (pool_work work) + NUM_THREADS) < 2 ^ 64) by (unfold pool_work; by rewrite length_fmap, length_seq).
  destruct (pool_end new_address NUM_THREADS (pool_work work) k j s Hm Hn Hb' Hr Hf) as (He & _).
  assert (Hp : printed crypt_r work (executed s) ≡ₚ omap (hashes_match crypt_r) work).
  { rewrite <- printed_pool_work. unfold printed. by rewrite He. }
  rewrite Hp. clear. induction work as [|x work IH]; [done|]. cbn [omap list_omap]. rewrite filter_cons. unfold hashes_match at 1.
  case_bool_decide; case_decide; try done. cbn [fmap list_fmap]. by rewrite IH.
Qed.
