(* ===== verification/Vm.v ===== *)
(** * Virtual memory of the mini operating system

    kalloc() of kernel.c, the page table iterator of k-vmiter.cc and
    k-vmiter.hh, the wrappers of util.c and the paging constants of x86-64.h,
    over the physical memory of the machine.  Page tables are arrays of 64-bit
    entries in that memory.  The kernel runs on its own page table, which maps
    all physical memory but page zero to itself; an access outside is a kernel
    page fault. *)
From stdpp Require Import prelude gmap list.
From Stdlib Require Import ZArith Lia.
From S2P Require Import Prelude Memory.
Open Scope Z_scope.
Open Scope c_scope.

(** ** Constants *)

Definition PAGEOFFBITS : Z := 12.
Definition PAGEINDEXBITS : Z := 9.
Definition PAGESIZE : Z := Z.shiftl 1 PAGEOFFBITS.
Definition PTE_P : Z := 0x1.
Definition PTE_W : Z := 0x2.
Definition PTE_U : Z := 0x4.
Definition PTE_PWU : Z := 0x7.
Definition PTE_PS : Z := 0x80.
Definition PTE_PAMASK : Z := 0x000FFFFFFFFFF000.
Definition VA_LOWMAX : Z := 0x00007FFFFFFFFFFF.
Definition VA_HIGHMIN : Z := 0xFFFF800000000000.
Definition CONSOLE_ADDR : Z := 0xB8000.

Definition KERNEL_START_ADDR : Z := 0x40000.
Definition KERNEL_STACK_TOP : Z := 0x80000.
Definition PROC_START_ADDR : Z := 0x100000.
Definition MEMSIZE_PHYSICAL : Z := 0x200000.
Definition NPAGES : Z := MEMSIZE_PHYSICAL / PAGESIZE.
Definition MEMSIZE_VIRTUAL : Z := 0x300000.
Definition IOPHYSMEM : Z := 0x000A0000.
Definition EXTPHYSMEM : Z := 0x00100000.

Definition pageindex (addr : Z) (level : nat) : Z :=
  Z.land (s32 (Z.shiftr addr (PAGEOFFBITS + Z.of_nat level * PAGEINDEXBITS))) 0x1FF.
Definition pageoffmask (level : nat) : Z := Z.shiftl 1 (PAGEOFFBITS + Z.of_nat level * PAGEINDEXBITS) - 1.
Definition va_is_canonical (va : Z) : bool := (va <=? VA_LOWMAX) || (VA_HIGHMIN <=? va).

Definition round_down (x m : Z) : Z := x - x mod m.
Definition round_up (x m : Z) : Z := round_down (u64 (x + m - 1)) m.

(** ** Physical memory *)

(** Contents of physical memory and the reference counts of [pages]. *)
Record vm := mkVm { phys : ram; pages : list Z }.

Definition kernel_can_access (a n : Z) : bool := (PAGESIZE <=? a) && (a + n <=? MEMSIZE_PHYSICAL).

Definition read64 (a : Z) : M vm Z := fun s =>
  if kernel_can_access a 8 then Ok (load64 (phys s) a, s) else Err (Segv a).

Definition write64 (a v : Z) : M vm unit := fun s =>
  if kernel_can_access a 8 then Ok (tt, mkVm (store64 (phys s) a v) (pages s)) else Err (Segv a).

(** memset() and memcpy() into physical memory. *)
Definition copy_in (a : Z) (l : list Z) : M vm unit := fun s =>
  match l with
  | [] => Ok (tt, s)
  | _ => if kernel_can_access a (Z.of_nat (length l)) then Ok (tt, mkVm (write_bytes (phys s) a l) (pages s))
         else Err (Segv a)
  end.

Definition memset (a c n : Z) : M vm unit := copy_in a (replicate (Z.to_nat n) c).

Section vm.
(** The end of the kernel, from the linker. *)
Context (kernel_end : Z).

Definition reserved_physical_address (pa : Z) : bool :=
  (pa <? PAGESIZE) || ((IOPHYSMEM <=? pa) && (pa <? EXTPHYSMEM)).

Definition allocatable_physical_address (pa : Z) : bool :=
  negb (reserved_physical_address pa)
  && ((pa <? KERNEL_START_ADDR) || (round_up kernel_end PAGESIZE <=? pa))
  && ((pa <? KERNEL_STACK_TOP - PAGESIZE) || (KERNEL_STACK_TOP <=? pa))
  && (pa <? MEMSIZE_PHYSICAL).

Definition used (s : vm) (pa : Z) : bool := negb (nth (Z.to_nat (pa / PAGESIZE)) (pages s) 0 =? 0).

(** The loop of kalloc(): [n] pages are left, the next one is at [pa]. *)
Fixpoint kalloc_loop (n : nat) (pa : Z) : M vm Z :=
  match n with
  | O => ret 0
  | S n =>
      s <- get;;
      if allocatable_physical_address pa && negb (used s pa) then
        let i := Z.to_nat (pa / PAGESIZE) in
        modify (fun s => mkVm (phys s) (<[i := u8 (nth i (pages s) 0 + 1)]> (pages s)));;;
        memset pa 0xCC PAGESIZE;;;
        ret pa
      else kalloc_loop n (pa + PAGESIZE)
  end.

Definition kalloc (sz : Z) : M vm Z :=
  if PAGESIZE <? sz then ret 0 else kalloc_loop (Z.to_nat NPAGES) 0.

Definition kalloc_pagetable : M vm Z :=
  pt <- kalloc PAGESIZE;;
  if negb (pt =? 0) then memset pt 0 (8 * 512);;; ret pt else ret pt.

(** ** vmiter *)

(** [pep] is the address of the current entry, or [None] for zero_pe. *)
Record vmiter := mkVmiter { pt_ : Z; pep_ : option Z; level_ : nat; perm_ : Z; va_ : Z }.

Definition initial_perm : Z := 0xFFF.

Definition read_pe (pep : option Z) : M vm Z :=
  match pep with Some a => read64 a | None => ret 0 end.

(** vmiter::down() *)
Fixpoint down_loop (level : nat) (pep : option Z) (perm va : Z) : M vm (nat * option Z * Z) :=
  pe <- read_pe pep;;
  match level with
  | O => ret (O, pep, perm)
  | S level' =>
      if Z.land pe (Z.lor PTE_P PTE_PS) =? PTE_P then
        let pa := Z.land pe PTE_PAMASK in
        down_loop level' (Some (pa + 8 * pageindex va level')) (Z.land perm (Z.lor pe (Z.lnot 7))) va
      else ret (level, pep, perm)
  end.

Definition down (it : vmiter) : M vm vmiter :=
  '(level, pep, perm) <- down_loop (level_ it) (pep_ it) (perm_ it) (va_ it);;
  pe <- read_pe pep;;
  if 0x100000000 <=? Z.land pe PTE_PAMASK then fail AssertFail
  else ret (mkVmiter (pt_ it) pep level perm (va_ it)).

Definition real_find (it : vmiter) (va : Z) : M vm vmiter :=
  if Nat.eqb (level_ it) 3
     || negb (Z.land (Z.lxor (va_ it) va) (Z.lnot (pageoffmask (level_ it + 1))) =? 0) then
    if va_is_canonical va then down (mkVmiter (pt_ it) (Some (pt_ it + 8 * pageindex va 3)) 3 initial_perm va)
    else down (mkVmiter (pt_ it) None 3 0 va)
  else
    let pep := match pep_ it with
               | Some a => Some (a + 8 * (pageindex va (level_ it) - Z.shiftr (a mod PAGESIZE) 3))
               | None => None
               end in
    down (mkVmiter (pt_ it) pep (level_ it) (perm_ it) va).

(** vmiter::vmiter() *)
Definition new_vmiter (pt va : Z) : M vm vmiter :=
  real_find (mkVmiter pt (Some pt) 3 initial_perm 0) va.

(** vmiter::pa() and vmiter::perm() *)
Definition vmiter_pa (it : vmiter) : M vm Z :=
  pe <- read_pe (pep_ it);;
  if negb (Z.land pe PTE_P =? 0) then
    let pa := Z.land pe PTE_PAMASK in
    let pa := if (0 <? level_ it)%nat then Z.land pa (Z.lnot 0x1000) else pa in
    ret (u64 (pa + Z.land (va_ it) (pageoffmask (level_ it))))
  else ret (u64 (-1)).

Definition vmiter_perm (it : vmiter) : M vm Z :=
  pe <- read_pe (pep_ it);;
  let ph := Z.land pe (perm_ it) in
  ret (if Z.land ph PTE_P =? 0 then 0 else ph).

(** The loop of vmiter::try_map() that adds the missing tables, at most
    [level_] of them; [None] is the answer -1. *)
Fixpoint add_tables (fuel : nat) (it : vmiter) : M vm (option vmiter) :=
  match level_ it with
  | O => ret (Some it)
  | S _ =>
      match fuel with
      | O => fail OutOfFuel
      | S fuel =>
          pe <- read_pe (pep_ it);;
          c_assert (Z.land pe PTE_P =? 0);;;
          pt <- kalloc PAGESIZE;;
          if pt =? 0 then ret None
          else
            memset pt 0 PAGESIZE;;;
            match pep_ it with
            | None => fail UB
            | Some pep =>
                write64 pep (Z.lor (Z.lor (Z.lor pt PTE_P) PTE_W) PTE_U);;;
                it' <- down it;;
                add_tables fuel it'
            end
      end
  end.

Definition try_map (it : vmiter) (pa perm : Z) : M vm Z :=
  let pa := if (pa =? u64 (-1)) && (perm =? 0) then 0 else pa in
  c_assert (va_ it mod PAGESIZE =? 0);;;
  (if negb (Z.land perm PTE_P =? 0) then
     c_assert (negb (pa =? u64 (-1)));;; c_assert (Z.land pa PTE_PAMASK =? pa)
   else c_assert (Z.land pa PTE_P =? 0));;;
  c_assert (Z.land (Z.land perm (Z.lnot (perm_ it))) 7 =? 0);;;
  r <- (if perm =? 0 then ret (Some it) else add_tables 4 it);;
  match r with
  | None => ret (-1)
  | Some it =>
      match level_ it, pep_ it with
      | O, Some pep => write64 pep (Z.lor pa perm);;; ret 0
      | O, None => fail UB
      | S _, _ => ret 0
      end
  end.

(** ** util.c *)

Definition memory_map (table virtual_address physical_address permissions : Z) : M vm Z :=
  it <- new_vmiter table virtual_address;;
  try_map it physical_address permissions.

Definition memory_virtual_to_physical (table virtual_address : Z) : M vm Z :=
  it <- new_vmiter table virtual_address;; vmiter_pa it.

Definition memory_permissions (table virtual_address : Z) : M vm Z :=
  it <- new_vmiter table virtual_address;; vmiter_perm it.

Definition map_to_nobody (table va : Z) : M vm bool :=
  memory_map table va va 0;;; ret true.

Definition map_to_kernel_space (table va : Z) : M vm bool :=
  memory_map table va va (Z.lor PTE_P PTE_W);;; ret true.

Definition map_to_user_space (table va : Z) : M vm bool :=
  memory_map table va va (Z.lor (Z.lor PTE_P PTE_W) PTE_U);;; ret true.

(** The loop of memory_foreach() at most [fuel] times. *)
Fixpoint foreach_loop (fuel : nat) (table upper_bound : Z) (iter : Z -> Z -> M vm bool) (it : vmiter) : M vm unit :=
  if va_ it <? upper_bound then
    match fuel with
    | O => fail OutOfFuel
    | S fuel =>
        r <- iter table (va_ it);;
        if negb r then ret tt
        else it <- real_find it (u64 (va_ it + PAGESIZE));; foreach_loop fuel table upper_bound iter it
    end
  else ret tt.

Definition memory_foreach (table upper_bound : Z) (iter : Z -> Z -> M vm bool) : M vm unit :=
  it <- new_vmiter table 0;;
  foreach_loop (Z.to_nat (upper_bound / PAGESIZE) + 1) table upper_bound iter it.

End vm.
