(* ===== verification/VmProofs.v ===== *)
(** * Page tables as address spaces

    [space s T root]: the page table at [root] is a tree of table pages.  [T]
    names the table page of every level and address prefix.  The entries of
    the last level are the address space, [leaf]. *)
From stdpp Require Import prelude gmap list.
From Stdlib Require Import ZArith Lia.
From S2P Require Import Prelude Memory Vm.
Open Scope Z_scope.
Open Scope c_scope.

(** ** Bits *)

Lemma land_pamask x : Z.land x PTE_PAMASK = (x / 4096) mod 2 ^ 40 * 4096.
Proof.
  change PTE_PAMASK with (Z.shiftl (Z.ones 40) 12). apply Z.bits_inj'. intros n Hn.
  rewrite Z.land_spec. change 4096 with (2 ^ 12). destruct (decide (n < 12)) as [H|H].
  - rewrite Z.mul_pow2_bits_low, Z.shiftl_spec_low by lia. by rewrite andb_false_r.
  - rewrite Z.mul_pow2_bits, Z.shiftl_spec by lia. destruct (decide (n - 12 < 40)) as [H1|H1].
    + rewrite Z.mod_pow2_bits_low, Z.div_pow2_bits, Z.ones_spec_low by lia. rewrite andb_true_r. f_equal. lia.
    + rewrite Z.mod_pow2_bits_high, Z.ones_spec_high by lia. by rewrite andb_false_r.
Qed.

Lemma land_small y c : 0 <= c < 4096 -> Z.land y c = Z.land (y mod 4096) c.
Proof.
  intros Hc. change 4096 with (2 ^ 12). rewrite <- Z.land_ones by lia.
  rewrite <- Z.land_assoc, (Z.land_comm (Z.ones 12)), Z.land_ones by lia. by rewrite Z.mod_small.
Qed.

(** An entry: a page and flags. *)
Lemma entry_page t f : 0 <= t < 2 ^ 52 -> t mod 4096 = 0 -> 0 <= f < 4096 -> Z.land (t + f) PTE_PAMASK = t.
Proof.
  intros Ht Ha Hf. rewrite land_pamask. pose proof (Z.div_mod t 4096 ltac:(lia)).
  replace ((t + f) / 4096) with (t / 4096); [rewrite Z.mod_small; lia|].
  apply Z.div_unique with (r := f); lia.
Qed.

Lemma entry_flags t f c : t mod 4096 = 0 -> 0 <= f < 4096 -> 0 <= c < 4096 -> Z.land (t + f) c = Z.land f c.
Proof.
  intros Ha Hf Hc. rewrite land_small by done. f_equal. rewrite Z.add_mod, Ha, Z.add_0_l, Z.mod_mod by lia.
  by rewrite Z.mod_small.
Qed.

Lemma lor_entry t f : 0 <= t -> t mod 4096 = 0 -> 0 <= f < 4096 -> Z.lor t f = t + f.
Proof.
  intros Ht Ha Hf. symmetry. apply Z.add_nocarry_lor. by rewrite land_small, Ha by done.
Qed.

Definition pidx (va : Z) (l : nat) : Z := (va / 2 ^ (12 + 9 * Z.of_nat l)) mod 512.

Lemma pageindex_pidx va l : pageindex va l = pidx va l.
Proof.
  unfold pageindex, pidx, PAGEOFFBITS, PAGEINDEXBITS. rewrite Z.shiftr_div_pow2 by lia.
  change 0x1FF with (Z.ones 9). rewrite Z.land_ones by lia. rewrite (Z.mul_comm (Z.of_nat l)).
  set (x := va / _). unfold wrapS. change (2 ^ 9) with 512.
  pose proof (Z.div_mod (x + 2 ^ (32 - 1)) (2 ^ 32) ltac:(lia)) as E.
  replace ((x + 2 ^ (32 - 1)) mod 2 ^ 32 - 2 ^ (32 - 1)) with (x + - ((x + 2 ^ (32 - 1)) / 2 ^ 32 * 2 ^ 23) * 512) by lia.
  by rewrite Z.mod_add by lia.
Qed.

Lemma pidx_range va l : 0 <= pidx va l < 512.
Proof. apply Z.mod_pos_bound. lia. Qed.

(** The prefix of an address that selects the table of level [l]. *)
Definition pre (va : Z) (l : nat) : Z := (va mod 2 ^ 48) / 2 ^ (21 + 9 * Z.of_nat l).

Lemma pre_top va : pre va 3 = 0.
Proof. unfold pre. apply Z.div_small. apply (Z.mod_pos_bound va (2 ^ 48)). lia. Qed.

Lemma pre_step va l : (l <= 2)%nat -> pre va l = 512 * pre va (S l) + pidx va (S l).
Proof.
  intros Hl. unfold pre, pidx. replace (12 + 9 * Z.of_nat (S l)) with (21 + 9 * Z.of_nat l) by lia.
  replace (21 + 9 * Z.of_nat (S l)) with (21 + 9 * Z.of_nat l + 9) by lia. remember (21 + 9 * Z.of_nat l) as k eqn:Ek.
  pose proof (Z.pow_pos_nonneg 2 k ltac:(lia) ltac:(lia)) as P0. rewrite (Z.pow_add_r 2 k 9), <- Z.div_div by lia. change (2 ^ 9) with 512.
  assert (E : va / 2 ^ k mod 512 = va mod 2 ^ 48 / 2 ^ k mod 512).
  { assert (Hk : 0 <= k <= 39) by lia.
    pose proof (Z.pow_pos_nonneg 2 (48 - k) ltac:(lia) ltac:(lia)) as P2.
    pose proof (Z.pow_pos_nonneg 2 (39 - k) ltac:(lia) ltac:(lia)) as P3. replace 48 with (k + (48 - k)) by lia. rewrite (Z.pow_add_r 2 k (48 - k)) by lia.
    assert (R : va mod (2 ^ k * 2 ^ (48 - k)) / 2 ^ k = (va / 2 ^ k) mod 2 ^ (48 - k)).
    { rewrite Z.rem_mul_r by lia. rewrite (Z.mul_comm (2 ^ k)), Z.div_add by lia.
      rewrite (Z.div_small (va mod 2 ^ k)) by (apply Z.mod_pos_bound; lia). lia. }
    rewrite R. replace (48 - k) with (9 + (39 - k)) by lia. rewrite (Z.pow_add_r 2 9) by lia. change (2 ^ 9) with 512.
    rewrite (Z.rem_mul_r (va / 2 ^ k)) by lia. rewrite (Z.mul_comm 512), Z.mod_add by lia. symmetry. apply Z.mod_mod. lia. }
  rewrite E. pose proof (Z.div_mod (va mod 2 ^ 48 / 2 ^ k) 512 ltac:(lia)). lia.
Qed.

(** ** kalloc() *)

(** The table page of every level and address prefix. *)
Abbreviation tables := (gmap (nat * Z) Z).

Section vm.
Context (kernel_end : Z).

Record free_page (s : vm) (p : Z) : Prop := {
  fp_alloc : allocatable_physical_address kernel_end p = true;
  fp_align : p mod 4096 = 0;
  fp_free : used s p = false
}.

(** Pages that kalloc() will not give out. *)
Definition taken (s : vm) (p : Z) : bool := used s p || negb (allocatable_physical_address kernel_end p).

Lemma free_not_taken s p : free_page s p -> taken s p = false.
Proof. intros H. unfold taken. by rewrite (fp_free _ _ H), (fp_alloc _ _ H). Qed.

Lemma taken_mono s s' : (forall p, used s p = true -> used s' p = true) -> forall p, taken s p = true -> taken s' p = true.
Proof. intros H p. unfold taken. rewrite !orb_true_iff. intros [Hu|Hn]; [left; auto|by right]. Qed.

Lemma allocatable_range p : allocatable_physical_address kernel_end p = true -> p mod 4096 = 0 -> 4096 <= p /\ p + 4096 <= MEMSIZE_PHYSICAL.
Proof.
  unfold allocatable_physical_address, reserved_physical_address. intros H Ha.
  rewrite !andb_true_iff, negb_true_iff, orb_false_iff in H. destruct H as [[[[H _] _] _] H2].
  apply Z.ltb_lt in H2. apply Z.ltb_ge in H. change PAGESIZE with 4096 in H. unfold MEMSIZE_PHYSICAL in *.
  pose proof (Z.div_mod p 4096 ltac:(lia)). lia.
Qed.

Definition page_fill (m : ram) (p c : Z) : ram := write_bytes m p (replicate 4096 c).

Lemma memset_page p c s : 4096 <= p -> p + 4096 <= MEMSIZE_PHYSICAL ->
  memset p c 4096 s = Ok (tt, mkVm (page_fill (phys s) p c) (pages s)).
Proof.
  intros H1 H2. unfold memset, copy_in, page_fill. change (Z.to_nat 4096) with 4096%nat.
  remember (replicate 4096 c) as l eqn:El. assert (Hl : length l = 4096%nat) by (subst l; apply length_replicate).
  destruct l as [|b l]; [done|]. unfold kernel_can_access. rewrite Hl. change PAGESIZE with 4096.
  by rewrite (proj2 (Z.leb_le _ _)), (proj2 (Z.leb_le _ _)) by lia.
Qed.

(** The state after kalloc() gave out page [p]. *)
Definition allocated (s : vm) (p : Z) : vm := mkVm (page_fill (phys s) p 0xCC) (<[Z.to_nat (p / 4096) := 1]> (pages s)).

Lemma free_next s k q : ~ free_page s (4096 * Z.of_nat k) -> 4096 * Z.of_nat k <= q -> free_page s q -> 4096 * Z.of_nat (S k) <= q.
Proof.
  intros Hno Hq Hf. destruct (decide (q = 4096 * Z.of_nat k)) as [-> |Hne]; [done|].
  pose proof (fp_align _ _ Hf). pose proof (Z.div_mod q 4096 ltac:(lia)). lia.
Qed.

Lemma kalloc_loop_spec n k s : length (pages s) = 512%nat -> (k + n = 512)%nat ->
  (exists p, kalloc_loop kernel_end n (4096 * Z.of_nat k) s = Ok (p, allocated s p) /\ free_page s p /\
             forall q, 4096 * Z.of_nat k <= q < p -> ~ free_page s q) \/
  (kalloc_loop kernel_end n (4096 * Z.of_nat k) s = Ok (0, s) /\ forall q, 4096 * Z.of_nat k <= q -> ~ free_page s q).
Proof.
  intros Hlen. revert k. induction n as [|n IH]; intros k Hk.
  - right. split; [done|]. intros q Hq [H1 H2 _]. destruct (allocatable_range q H1 H2) as [_ H3].
    unfold MEMSIZE_PHYSICAL in H3. lia.
  - cbn [kalloc_loop]. rewrite bind_ok with (a := s) (s' := s) by done.
    assert (Ha : (4096 * Z.of_nat k) mod 4096 = 0) by (rewrite Z.mul_comm; by apply Z.mod_mul).
    destruct (allocatable_physical_address kernel_end (4096 * Z.of_nat k) && negb (used s (4096 * Z.of_nat k))) eqn:Ec.
    + apply andb_true_iff in Ec as [Eall Eu]. apply negb_true_iff in Eu.
      left. exists (4096 * Z.of_nat k). destruct (allocatable_range _ Eall Ha) as [R1 R2].
      split_and!; [|by split|intros; lia]. unfold bind at 1, modify. unfold ret. change PAGESIZE with 4096.
      rewrite (bind_ok _ _ _ _ _ (memset_page (4096 * Z.of_nat k) 0xCC _ R1 R2)). unfold allocated. cbn [phys pages].
      unfold used in Eu. apply negb_false_iff, Z.eqb_eq in Eu. change PAGESIZE with 4096 in Eu. by rewrite Eu.
    + assert (Hno : ~ free_page s (4096 * Z.of_nat k)) by (intros [Q1 _ Q3]; by rewrite Q1, Q3 in Ec).
      change PAGESIZE with 4096. replace (4096 * Z.of_nat k + 4096) with (4096 * Z.of_nat (S k)) by lia.
      destruct (IH (S k) ltac:(lia)) as [(p & E & Hf & Hall)|[E Hall]]; [left; exists p|right]; (split_and!; [done|..]); try done.
      * intros q Hq Hfq. apply (Hall q); [|done]. pose proof (free_next s k q Hno ltac:(lia) Hfq). lia.
      * intros q Hq Hfq. apply (Hall q); [|done]. exact (free_next s k q Hno Hq Hfq).
Qed.

(** kalloc() gives out the first free page, or fails when there is none. *)
Lemma kalloc_spec s : length (pages s) = 512%nat ->
  (exists p, kalloc kernel_end PAGESIZE s = Ok (p, allocated s p) /\ free_page s p /\ forall q, q < p -> ~ free_page s q) \/
  (kalloc kernel_end PAGESIZE s = Ok (0, s) /\ forall q, ~ free_page s q).
Proof.
  intros Hlen. unfold kalloc. rewrite Z.ltb_irrefl. change (Z.to_nat NPAGES) with 512%nat.
  assert (Hneg : forall q, free_page s q -> 4096 * Z.of_nat 0 <= q).
  { intros q [H1 H2 _]. pose proof (allocatable_range q H1 H2). lia. }
  destruct (kalloc_loop_spec 512 0 s Hlen eq_refl) as [(p & E & Hf & Hall)|[E Hall]].
  - left. exists p. split_and!; [exact E|done|]. intros q Hq Hfree. apply (Hall q); [|done]. pose proof (Hneg q Hfree). lia.
  - right. split; [exact E|]. intros q Hfree. apply (Hall q); [|done]. by apply Hneg.
Qed.

(** ** Address spaces *)

(** An entry that the walk does not follow. *)
Definition inactive (e : Z) : Prop := Z.land e PTE_P = 0 /\ Z.land e PTE_PAMASK < 2 ^ 32.

(** An entry without a table below that is not followed: not present, or a
    large page. *)
Definition closed (e : Z) : Prop := Z.land e (Z.lor PTE_P PTE_PS) <> PTE_P /\ Z.land e PTE_PAMASK < 2 ^ 32.

Class Closed (absent : Z -> Prop) := absent_closed e : absent e -> closed e.

#[export] Instance closed_closed : Closed closed.
Proof. intros e He. exact He. Qed.

#[export] Instance inactive_closed : Closed inactive.
Proof.
  intros e [He Hs]. split; [|done]. intros Hc. apply (f_equal (fun z => Z.land z PTE_P)) in Hc. rewrite <- Z.land_assoc in Hc.
  change (Z.land (Z.lor PTE_P PTE_PS) PTE_P) with PTE_P in Hc. rewrite He in Hc. done.
Qed.

(** [absent] says what the entries without a table below look like. *)
Record space_with {absent : Z -> Prop} (s : vm) (T : tables) (root : Z) : Prop := {
  sp_len : length (pages s) = 512%nat;
  sp_root : T !! (3%nat, 0) = Some root;
  sp_level l x t : T !! (l, x) = Some t -> (l <= 3)%nat;
  sp_page l x t : T !! (l, x) = Some t -> t mod 4096 = 0 /\ 4096 <= t /\ t + 4096 <= MEMSIZE_PHYSICAL /\ taken s t = true;
  sp_inj k k' t : T !! k = Some t -> T !! k' = Some t -> k = k';
  sp_up l x t : T !! (l, x) = Some t -> (l < 3)%nat -> is_Some (T !! (S l, x / 512));
  sp_inner l x t i : T !! (S l, x) = Some t -> 0 <= i < 512 ->
    match T !! (l, 512 * x + i) with
    | Some t' => load64 (phys s) (t + 8 * i) = t' + 7
    | None => absent (load64 (phys s) (t + 8 * i))
    end;
  sp_last x t i : T !! (0%nat, x) = Some t -> 0 <= i < 512 -> Z.land (load64 (phys s) (t + 8 * i)) PTE_PAMASK < 2 ^ 32
}.

Abbreviation space := (space_with (absent := inactive)).

(** The last-level entry of an address, 0 if it has none. *)
Definition leaf (s : vm) (T : tables) (va : Z) : Z :=
  match T !! (0%nat, pre va 0) with
  | Some t => load64 (phys s) (t + 8 * pidx va 0)
  | None => 0
  end.

Lemma pre_up va l : (l <= 2)%nat -> pre va l / 512 = pre va (S l).
Proof.
  intros Hl. rewrite (pre_step va l Hl). pose proof (pidx_range va (S l)). rewrite Z.mul_comm, Z.div_add_l by lia.
  rewrite Z.div_small; lia.
Qed.

Lemma write64_ok a v s : 4096 <= a -> a + 8 <= MEMSIZE_PHYSICAL -> write64 a v s = Ok (tt, mkVm (store64 (phys s) a v) (pages s)).
Proof.
  intros H1 H2. unfold write64, kernel_can_access. change PAGESIZE with 4096.
  by rewrite (proj2 (Z.leb_le _ _)), (proj2 (Z.leb_le _ _)) by lia.
Qed.

Lemma read_entry {absent : Z -> Prop} s T root l x t i : space_with (absent := absent) s T root -> T !! (l, x) = Some t -> 0 <= i < 512 ->
  read64 (t + 8 * i) s = Ok (load64 (phys s) (t + 8 * i), s).
Proof.
  intros H E Hi. destruct (sp_page _ _ _ H _ _ _ E) as (_ & H1 & H2 & _). unfold read64, kernel_can_access. change PAGESIZE with 4096.
  by rewrite (proj2 (Z.leb_le _ _)), (proj2 (Z.leb_le _ _)) by lia.
Qed.

Lemma write_entry {absent : Z -> Prop} s T root l x t i v : space_with (absent := absent) s T root -> T !! (l, x) = Some t -> 0 <= i < 512 ->
  write64 (t + 8 * i) v s = Ok (tt, mkVm (store64 (phys s) (t + 8 * i) v) (pages s)).
Proof.
  intros H E Hi. destruct (sp_page _ _ _ H _ _ _ E) as (_ & H1 & H2 & _). apply write64_ok; lia.
Qed.

(** The lowest table of an address. *)
Definition bottom (T : tables) (va : Z) (l : nat) (t : Z) : Prop :=
  T !! (l, pre va l) = Some t /\ forall l', l = S l' -> T !! (l', pre va l') = None.

Lemma down_loop_spec {absent : Z -> Prop} `{!Closed absent} s T root va perm : space_with (absent := absent) s T root -> forall l t, T !! (l, pre va l) = Some t ->
  exists l' t', (l' <= l)%nat /\ bottom T va l' t' /\
    down_loop l (Some (t + 8 * pidx va l)) perm va s = Ok ((l', Some (t' + 8 * pidx va l'), perm), s).
Proof.
  intros H. induction l as [|l IH]; intros t E; pose proof (pidx_range va) as Hp; cbn [down_loop read_pe].
  - exists 0%nat, t. split; [lia|]. split; [by split|]. by rewrite (bind_ok _ _ _ _ _ (read_entry _ _ _ _ _ _ _ H E (Hp 0%nat))).
  - rewrite (bind_ok _ _ _ _ _ (read_entry _ _ _ _ _ _ _ H E (Hp (S l)))).
    pose proof (sp_inner _ _ _ H l _ _ (pidx va (S l)) E (Hp (S l))) as Hi.
    pose proof (sp_level _ _ _ H _ _ _ E) as Hl. rewrite <- (pre_step va l ltac:(lia)) in Hi.
    destruct (T !! (l, pre va l)) as [t'|] eqn:E'.
    + rewrite Hi. destruct (sp_page _ _ _ H _ _ _ E') as (A1 & A2 & A3 & _). unfold MEMSIZE_PHYSICAL in A3.
      change (Z.lor PTE_P PTE_PS) with 0x81. rewrite entry_flags, entry_page by lia. cbn [Z.land Z.eqb PTE_P].
      assert (El : Z.lor (t' + 7) (Z.lnot 7) = -1).
      { rewrite <- lor_entry by lia. rewrite <- Z.lor_assoc, Z.lor_lnot_diag. apply Z.lor_m1_r. }
      change (Z.lnot 7) with (-8) in El |- *. rewrite El, Z.land_m1_r, pageindex_pidx.
      destruct (IH t' eq_refl) as (l2 & t2 & Hle & Hb & Ed). exists l2, t2. split; [lia|]. split; [done|]. exact Ed.
    + exists (S l), t. split; [lia|]. split; [split; [done|]; by intros l' [= <-]|].
      destruct (absent_closed _ Hi) as [Hz _]. by rewrite (proj2 (Z.eqb_neq _ _) Hz).
Qed.

Lemma bottom_small {absent : Z -> Prop} `{!Closed absent} s T root va l t : space_with (absent := absent) s T root -> bottom T va l t ->
  Z.land (load64 (phys s) (t + 8 * pidx va l)) PTE_PAMASK < 2 ^ 32.
Proof.
  intros H [E Hb]. pose proof (pidx_range va l) as Hp. destruct l as [|l]; [by apply (sp_last _ _ _ H (pre va 0) t)|].
  pose proof (sp_inner _ _ _ H l _ _ _ E Hp) as Hi. pose proof (sp_level _ _ _ H _ _ _ E).
  rewrite <- pre_step, (Hb l eq_refl) in Hi by lia. apply (absent_closed _ Hi).
Qed.

Lemma down_spec {absent : Z -> Prop} `{!Closed absent} s T root pt va perm l t : space_with (absent := absent) s T root -> T !! (l, pre va l) = Some t ->
  exists l' t', (l' <= l)%nat /\ bottom T va l' t' /\
    down (mkVmiter pt (Some (t + 8 * pidx va l)) l perm va) s = Ok (mkVmiter pt (Some (t' + 8 * pidx va l')) l' perm va, s).
Proof.
  intros H E. destruct (down_loop_spec s T root va perm H l t E) as (l' & t' & Hl & Hb & Ed). exists l', t'. split; [done|]. split; [done|].
  unfold down. cbn [level_ pep_ perm_ va_ pt_]. rewrite (bind_ok _ _ _ _ _ Ed). cbn [read_pe].
  rewrite (bind_ok _ _ _ _ _ (read_entry _ _ _ _ _ _ _ H (proj1 Hb) (pidx_range va l'))).
  pose proof (bottom_small _ _ _ _ _ _ H Hb). by rewrite (proj2 (Z.leb_gt _ _)) by lia.
Qed.

(** vmiter(table, va) stops at the lowest table. *)
Lemma new_vmiter_spec {absent : Z -> Prop} `{!Closed absent} s T root va : space_with (absent := absent) s T root -> va_is_canonical va = true ->
  exists l t, (l <= 3)%nat /\ bottom T va l t /\
    new_vmiter root va s = Ok (mkVmiter root (Some (t + 8 * pidx va l)) l initial_perm va, s).
Proof.
  intros H Hc. unfold new_vmiter, real_find. cbn [level_ Nat.eqb orb pt_]. rewrite Hc, pageindex_pidx.
  apply (down_spec s T root); [done|]. rewrite pre_top. apply H.
Qed.

Lemma up_chain {absent : Z -> Prop} s T root va l t : space_with (absent := absent) s T root -> T !! (l, pre va l) = Some t ->
  forall l', (l <= l' <= 3)%nat -> is_Some (T !! (l', pre va l')).
Proof.
  intros H E l' Hl. induction l' as [|l' IH]; [by replace 0%nat with l by lia; exists t|].
  destruct (decide (l = S l')) as [<- |Hne]; [by exists t|]. destruct (IH ltac:(lia)) as [t' E'].
  rewrite <- pre_up by lia. apply (sp_up _ _ _ H _ _ _ E'). lia.
Qed.

Lemma bottom_none {absent : Z -> Prop} s T root va l t : space_with (absent := absent) s T root -> (S l <= 3)%nat -> bottom T va (S l) t -> T !! (0%nat, pre va 0) = None.
Proof.
  intros H Hl Hb. destruct (T !! (0%nat, pre va 0)) as [t0|] eqn:E0; [|done].
  destruct (up_chain _ _ _ _ _ _ H E0 l ltac:(lia)) as [t1 E1]. by rewrite (proj2 Hb l eq_refl) in E1.
Qed.

(** The iterator at an entry. *)
Definition at_entry (root va t : Z) (l : nat) : vmiter := mkVmiter root (Some (t + 8 * pidx va l)) l initial_perm va.

(** What a walk answers. *)
Definition translation (e va : Z) : Z :=
  if Z.land e PTE_P =? 0 then 2 ^ 64 - 1 else Z.land e PTE_PAMASK + va mod 4096.

Lemma pa_at s T root va l t : space s T root -> (l <= 3)%nat -> bottom T va l t -> 0 <= va ->
  vmiter_pa (at_entry root va t l) s = Ok (translation (leaf s T va) va, s).
Proof.
  intros H Hl Hb Hva. unfold vmiter_pa, at_entry. cbn [pep_ read_pe level_ va_].
  rewrite (bind_ok _ _ _ _ _ (read_entry _ _ _ _ _ _ _ H (proj1 Hb) (pidx_range va l))). unfold translation, leaf.
  pose proof (bottom_small _ _ _ _ _ _ H Hb) as Hsm. destruct l as [|l].
  - rewrite (proj1 Hb). destruct (Z.eqb_spec (Z.land (load64 (phys s) (t + 8 * pidx va 0)) PTE_P) 0); cbn [negb]; [done|].
    change (0 <? 0)%nat with false. cbv iota. unfold ret. do 2 f_equal. change (pageoffmask 0) with (Z.ones 12). rewrite Z.land_ones by lia.
    change (2 ^ 12) with 4096. apply wrapU_small. pose proof (Z.mod_pos_bound va 4096 ltac:(lia)).
    assert (0 <= Z.land (load64 (phys s) (t + 8 * pidx va 0)) PTE_PAMASK) by (rewrite land_pamask; pose proof (Z.mod_pos_bound (load64 (phys s) (t + 8 * pidx va 0) / 4096) (2 ^ 40) ltac:(lia)); lia).
    lia.
  - rewrite (bottom_none _ _ _ _ _ _ H Hl Hb). pose proof (sp_inner _ _ _ H l _ _ _ (proj1 Hb) (pidx_range va (S l))) as Hi.
    rewrite <- pre_step, (proj2 Hb l eq_refl) in Hi by lia. destruct Hi as [Hi _]. by rewrite Hi.
Qed.

Lemma translate_spec s T root va : space s T root -> va_is_canonical va = true -> 0 <= va ->
  memory_virtual_to_physical root va s = Ok (translation (leaf s T va) va, s).
Proof.
  intros H Hc Hva. destruct (new_vmiter_spec s T root va H Hc) as (l & t & Hl & Hb & E).
  unfold memory_virtual_to_physical. rewrite (bind_ok _ _ _ _ _ E). exact (pa_at _ _ _ _ _ _ H Hl Hb Hva).
Qed.

Definition permission (e : Z) : Z := if Z.land e PTE_P =? 0 then 0 else e mod 4096.

(** Only a last-level entry gives permissions. *)
Lemma perm_at s T root va l t :
  space s T root -> (l <= 3)%nat -> bottom T va l t ->
  vmiter_perm (at_entry root va t l) s = Ok (permission (leaf s T va), s) /\
  (permission (leaf s T va) <> 0 -> l = 0%nat).
Proof.
  intros H Hl Hb. unfold vmiter_perm, at_entry. cbn [pep_ read_pe perm_].
  rewrite (bind_ok _ _ _ _ _ (read_entry _ _ _ _ _ _ _ H (proj1 Hb) (pidx_range va l))). unfold ret, permission, leaf.
  set (e := load64 (phys s) (t + 8 * pidx va l)) in *. rewrite <- Z.land_assoc. change (Z.land initial_perm PTE_P) with PTE_P.
  change initial_perm with (Z.ones 12). rewrite Z.land_ones by lia. change (2 ^ 12) with 4096. destruct l as [|l].
  - rewrite (proj1 Hb). by split.
  - rewrite (bottom_none _ _ _ _ _ _ H Hl Hb).
    pose proof (sp_inner _ _ _ H l _ _ _ (proj1 Hb) (pidx_range va (S l))) as Hi.
    rewrite <- pre_step, (proj2 Hb l eq_refl) in Hi by lia. destruct Hi as [Hi _]. unfold e. by rewrite Hi.
Qed.

Lemma permissions_spec s T root va : space s T root -> va_is_canonical va = true ->
  memory_permissions root va s = Ok (permission (leaf s T va), s).
Proof.
  intros H Hc. destruct (new_vmiter_spec s T root va H Hc) as (l & t & Hl & Hb & E).
  unfold memory_permissions. rewrite (bind_ok _ _ _ _ _ E). apply (perm_at _ _ _ _ _ _ H Hl Hb).
Qed.

(** ** Changing memory *)

Definition page_start (a : Z) : Z := a / 4096 * 4096.

Lemma page_start_in t a : t mod 4096 = 0 -> t <= a < t + 4096 -> page_start a = t.
Proof. intros H Ha. unfold page_start. pose proof (Z.div_mod t 4096 ltac:(lia)). assert (a / 4096 = t / 4096); [|lia]. symmetry. apply Z.div_unique with (r := a - t); lia. Qed.

Definition in_tables (T : tables) (t : Z) : Prop := exists k, T !! k = Some t.

(** [s'] extends [s] for the tables [T], which became [T']: pages stay in use,
    and memory in use outside the tables keeps its contents. *)
Record extends (s s' : vm) (T T' : tables) : Prop := {
  ex_used p : used s p = true -> used s' p = true;
  ex_bytes a : taken s (page_start a) = true -> ~ in_tables T (page_start a) -> byte_at (phys s') a = byte_at (phys s) a;
  ex_old k t : T !! k = Some t -> T' !! k = Some t;
  ex_new k t : T' !! k = Some t -> T !! k = Some t \/ taken s t = false
}.

Lemma extends_refl s T : extends s s T T.
Proof. split; auto. Qed.

Lemma extends_trans s1 s2 s3 T1 T2 T3 : extends s1 s2 T1 T2 -> extends s2 s3 T2 T3 -> extends s1 s3 T1 T3.
Proof.
  intros [U1 B1 O1 N1] [U2 B2 O2 N2]. pose proof (taken_mono s1 s2 U1) as K1. split; auto.
  - intros a Ha Hn. rewrite B2, B1; auto. intros [k Hk]. destruct (N1 _ _ Hk) as [Hk'|Hk']; [|congruence].
    apply Hn. by exists k.
  - intros k t Hk. destruct (N2 _ _ Hk) as [Hk'|Hk']; [auto|]. right. destruct (taken s1 t) eqn:E; [|done].
    by rewrite (K1 _ E) in Hk'.
Qed.

(** An address space depends on the contents of its tables. *)
Lemma load_same {absent : Z -> Prop} s s' T root l x t i : (forall a, in_tables T (page_start a) -> byte_at (phys s') a = byte_at (phys s) a) -> space_with (absent := absent) s T root ->
  T !! (l, x) = Some t -> 0 <= i < 512 -> load64 (phys s') (t + 8 * i) = load64 (phys s) (t + 8 * i).
Proof.
  intros B H E Hi. destruct (sp_page _ _ _ H _ _ _ E) as (A1 & A2 & A3 & A4). apply load_ext. intros b Hb.
  apply B. rewrite (page_start_in t) by lia. by exists (l, x).
Qed.

Lemma leaf_same {absent : Z -> Prop} s s' T root va : (forall a, in_tables T (page_start a) -> byte_at (phys s') a = byte_at (phys s) a) -> space_with (absent := absent) s T root ->
  leaf s' T va = leaf s T va.
Proof. intros B H. unfold leaf. destruct (T !! _) as [t|] eqn:E; [|done]. apply (load_same _ _ _ _ _ _ _ _ B H E), pidx_range. Qed.

Lemma space_same {absent : Z -> Prop} s s' T root : length (pages s') = 512%nat -> (forall p, taken s p = true -> taken s' p = true) ->
  (forall a, in_tables T (page_start a) -> byte_at (phys s') a = byte_at (phys s) a) -> space_with (absent := absent) s T root ->
  space_with (absent := absent) s' T root /\ forall va, leaf s' T va = leaf s T va.
Proof.
  intros Hlen U B H. split; [|intros va; exact (leaf_same s s' T root va B H)].
  split; try apply H; try done.
  - intros l x t E. destruct (sp_page _ _ _ H _ _ _ E) as (A1 & A2 & A3 & A4). auto.
  - intros l x t i E Hi. rewrite (load_same _ _ _ _ _ _ _ _ B H E Hi). by apply (sp_inner _ _ _ H).
  - intros x t i E Hi. rewrite (load_same _ _ _ _ _ _ _ _ B H E Hi). by apply (sp_last _ _ _ H x).
Qed.

(** Another address space, with tables of its own, does not change. *)
Lemma space_frame {absent : Z -> Prop} s s' T T' T2 root2 : extends s s' T T' -> length (pages s') = 512%nat ->
  (forall t, in_tables T t -> ~ in_tables T2 t) -> space_with (absent := absent) s T2 root2 ->
  space_with (absent := absent) s' T2 root2 /\ forall va, leaf s' T2 va = leaf s T2 va.
Proof.
  intros [U B O N] Hlen Hdis H. apply space_same; [done|by apply taken_mono| |done]. intros a Ha. apply B.
  - destruct Ha as [[l x] E]. apply (sp_page _ _ _ H _ _ _ E).
  - intros Hin. by apply (Hdis _ Hin).
Qed.

Lemma pages_apart t t' : t mod 4096 = 0 -> t' mod 4096 = 0 -> t <> t' -> t + 4096 <= t' \/ t' + 4096 <= t.
Proof. intros. pose proof (Z.div_mod t 4096 ltac:(lia)). pose proof (Z.div_mod t' 4096 ltac:(lia)). lia. Qed.

(** Setting a last-level entry. *)
Lemma set_leaf {absent : Z -> Prop} s T root x t i e : space_with (absent := absent) s T root -> T !! (0%nat, x) = Some t -> 0 <= i < 512 -> 0 <= e < 2 ^ 64 ->
  Z.land e PTE_PAMASK < 2 ^ 32 ->
  let s' := mkVm (store64 (phys s) (t + 8 * i) e) (pages s) in
  space_with (absent := absent) s' T root /\ extends s s' T T /\
  forall va, leaf s' T va = if decide (pre va 0 = x /\ pidx va 0 = i) then e else leaf s T va.
Proof.
  intros H E Hi He Hsm s'.
  assert (Hother : forall k t' j, T !! k = Some t' -> 0 <= j < 512 -> (t', j) <> (t, i) ->
            load64 (phys s') (t' + 8 * j) = load64 (phys s) (t' + 8 * j)).
  { intros [l' x'] t' j E' Hj Hne. apply load_store_disjoint. destruct (sp_page _ _ _ H _ _ _ E) as (A1 & _).
    destruct (sp_page _ _ _ H _ _ _ E') as (B1 & _). destruct (decide (t' = t)) as [-> |Hd].
    - assert (j <> i) by congruence. lia.
    - destruct (pages_apart t' t B1 A1 Hd); lia. }
  assert (Hsame : load64 (phys s') (t + 8 * i) = e) by (by apply load64_store64_same).
  split_and!.
  - split; try apply H.
    + intros l y t' j E' Hj. rewrite (Hother _ _ _ E' Hj); [by apply (sp_inner _ _ _ H)|].
      intros [= -> ->]. by pose proof (sp_inj _ _ _ H _ _ _ E E').
    + intros y t' j E' Hj. destruct (decide ((t', j) = (t, i))) as [[= -> ->]|Hne]; [by rewrite Hsame|].
      rewrite (Hother _ _ _ E' Hj Hne). by apply (sp_last _ _ _ H y).
  - split; auto. intros a Ha Hn. apply byte_at_store_out. destruct (sp_page _ _ _ H _ _ _ E) as (A1 & _).
    destruct (decide (t + 8 * i <= a < t + 8 * i + 8)); [|lia]. exfalso. apply Hn. exists (0%nat, x).
    by rewrite (page_start_in t a A1) by lia.
  - intros va. unfold leaf. destruct (T !! (0%nat, pre va 0)) as [t'|] eqn:E'.
    + pose proof (pidx_range va 0) as Hp. case_decide as Hd.
      * destruct Hd as [Hx Hi']. rewrite Hx, E in E'. injection E' as <-. by rewrite Hi'.
      * apply (Hother _ _ _ E' Hp). intros [= -> Hi']. apply Hd. split; [|done].
        by pose proof (sp_inj _ _ _ H _ _ _ E E') as [= ->].
    + rewrite decide_False; [done|]. intros [Hx _]. congruence.
Qed.

(** ** Adding a table *)

Lemma page_fill_out m p c a : a < p \/ p + 4096 <= a -> byte_at (page_fill m p c) a = byte_at m a.
Proof. intros Ha. apply byte_at_write_out. rewrite length_replicate. lia. Qed.

Lemma page_fill_in m p c a : p <= a < p + 4096 -> byte_at (page_fill m p c) a = c.
Proof.
  intros Ha. replace a with (p + Z.of_nat (Z.to_nat (a - p))) by lia. apply byte_at_write_in. apply lookup_replicate. split; [done|lia].
Qed.

Lemma load_zeros m a : (forall b, a <= b < a + 8 -> byte_at m b = 0) -> load64 m a = 0.
Proof. intros H. unfold load. cbn [read_bytes le_combine]. rewrite !H by lia. done. Qed.

Lemma used_pages s s' q : pages s = pages s' -> used s q = used s' q.
Proof. unfold used. by intros ->. Qed.

Lemma used_insert s m p q : length (pages s) = 512%nat -> 4096 <= p -> p / 4096 < 512 ->
  used (mkVm m (<[Z.to_nat (p / 4096) := 1]> (pages s))) q = if decide (Z.to_nat (q / 4096) = Z.to_nat (p / 4096)) then true else used s q.
Proof.
  intros Hlen H1 H2. unfold used. cbn [pages]. change PAGESIZE with 4096. rewrite !nth_lookup. case_decide as Hd.
  - by rewrite Hd, list_lookup_insert_eq by lia.
  - by rewrite list_lookup_insert_ne by done.
Qed.

(** kalloc() does not disturb what is in use. *)
Record page_given (s s' : vm) (p : Z) : Prop := {
  pg_len : length (pages s') = 512%nat;
  pg_used q : used s q = true -> used s' q = true;
  pg_here : used s' p = true;
  pg_free q : free_page s q -> q <> p -> free_page s' q;
  pg_bytes a : a < p \/ p + 4096 <= a -> byte_at (phys s') a = byte_at (phys s) a
}.

Lemma allocated_given s p : length (pages s) = 512%nat -> free_page s p -> page_given s (allocated s p) p.
Proof.
  intros Hlen Hf. destruct (allocatable_range p (fp_alloc _ _ Hf) (fp_align _ _ Hf)) as [P1 P2]. unfold MEMSIZE_PHYSICAL in P2.
  assert (Hp : p / 4096 < 512) by (apply Z.div_lt_upper_bound; lia).
  split; unfold allocated; cbn [phys pages].
  - by rewrite length_insert.
  - intros q Hq. rewrite used_insert by done. by case_decide.
  - rewrite used_insert by done. by rewrite decide_True.
  - intros q [Q1 Q2 Q3] Hne. split; [done..|]. rewrite used_insert by done. rewrite decide_False; [done|].
    pose proof (fp_align _ _ Hf). pose proof (allocatable_range q Q1 Q2). intros Heq.
    pose proof (Z.div_mod q 4096 ltac:(lia)). pose proof (Z.div_mod p 4096 ltac:(lia)). lia.
  - intros a Ha. by apply page_fill_out.
Qed.

(** The memory after a new table [p] is entered at [e]. *)
Definition with_table (v : vm) (p e : Z) : vm :=
  let v := mkVm (page_fill (phys v) p 0) (pages v) in mkVm (store64 (phys v) e (p + 7)) (pages v).

Lemma with_table_pages v p e : pages (with_table v p e) = pages v.
Proof. done. Qed.

Lemma enter_table v p e : 4096 <= e -> e + 8 <= MEMSIZE_PHYSICAL ->
  write64 e (p + 7) (mkVm (page_fill (phys v) p 0) (pages v)) = Ok (tt, with_table v p e).
Proof. intros H1 H2. by apply write64_ok. Qed.

Record table_added (s s' : vm) (p e : Z) : Prop := {
  ta_len : length (pages s') = length (pages s);
  ta_new : load64 (phys s') e = p + 7;
  ta_zero i : 0 <= i < 512 -> load64 (phys s') (p + 8 * i) = 0;
  ta_bytes a : a < p \/ p + 4096 <= a -> a < e \/ e + 8 <= a -> byte_at (phys s') a = byte_at (phys s) a;
  ta_here : taken s' p = true;
  ta_used q : used s q = true -> used s' q = true;
  ta_free q : free_page s q -> q <> p -> free_page s' q
}.

Lemma with_table_added s v p e : length (pages s) = 512%nat -> free_page s p -> page_given s v p -> e + 8 <= p \/ p + 4096 <= e ->
  table_added s (with_table v p e) p e.
Proof.
  intros Hlen Hf G He. destruct (allocatable_range p (fp_alloc _ _ Hf) (fp_align _ _ Hf)) as [P1 P2]. unfold MEMSIZE_PHYSICAL in P2.
  assert (Hu : forall q, used (with_table v p e) q = used v q) by (intros q; by apply used_pages).
  split.
  - by rewrite Hlen, <- (pg_len _ _ _ G).
  - apply load64_store64_same. lia.
  - intros i Hi. unfold with_table. cbn [phys]. apply load_zeros. intros b Hb. rewrite byte_at_store_out by lia. apply page_fill_in. lia.
  - intros a H1 H2. unfold with_table. cbn [phys]. rewrite byte_at_store_out by lia. rewrite page_fill_out by done. by apply (pg_bytes _ _ _ G).
  - unfold taken. by rewrite (Hu p), (pg_here _ _ _ G).
  - intros q Hq. rewrite (Hu q). by apply (pg_used _ _ _ G).
  - intros q Hq Hne. destruct (pg_free _ _ _ G q Hq Hne) as [Q1 Q2 Q3]. split; [exact Q1|exact Q2|]. by rewrite (Hu q).
Qed.

Section add_table.
Context (s s' : vm) (T : tables) (root va : Z) (l : nat) (t p : Z).
Context (H : space s T root) (E : T !! (S l, pre va (S l)) = Some t) (En : T !! (l, pre va l) = None).
Context (Hf : free_page s p) (Hadd : table_added s s' p (t + 8 * pidx va (S l))).

Lemma add_fresh k t' : T !! k = Some t' -> t' <> p.
Proof. intros E' ->. destruct k as [l' x']. destruct (sp_page _ _ _ H _ _ _ E') as (_ & _ & _ & B4). by rewrite (free_not_taken _ _ Hf) in B4. Qed.

(** The only entry of the old tables that changes. *)
Lemma add_slot k t' i : T !! k = Some t' -> 0 <= i < 512 -> (k, i) <> ((S l, pre va (S l)), pidx va (S l)) ->
  load64 (phys s') (t' + 8 * i) = load64 (phys s) (t' + 8 * i).
Proof.
  intros E' Hi Hne. pose proof (add_fresh _ _ E') as Hpt. destruct k as [l' x']. pose proof (pidx_range va (S l)).
  destruct (sp_page _ _ _ H _ _ _ E) as (A1 & _). destruct (sp_page _ _ _ H _ _ _ E') as (B1 & _).
  pose proof (pages_apart t' p B1 (fp_align _ _ Hf) Hpt) as Hap. apply load_ext. intros b Hb. apply (ta_bytes _ _ _ _ Hadd); [lia|].
  destruct (decide (t' = t)) as [-> |Hd]; [|destruct (pages_apart t' t B1 A1 Hd); lia].
  assert (i <> pidx va (S l)); [|lia]. intros ->. apply Hne. f_equal. by apply (sp_inj _ _ _ H _ _ _ E' E).
Qed.

Lemma add_child l' x i : (l' <= 2)%nat -> T !! (S l', x) = None -> 0 <= i < 512 -> T !! (l', 512 * x + i) = None.
Proof.
  intros Hl' Hn Hi. destruct (T !! (l', 512 * x + i)) as [t'|] eqn:E'; [|done].
  destruct (sp_up _ _ _ H _ _ _ E' ltac:(lia)) as [t2 E2]. rewrite Z.mul_comm, Z.div_add_l, Z.div_small, Z.add_0_r in E2 by lia. congruence.
Qed.

Lemma add_space : space s' (<[(l, pre va l) := p]> T) root.
Proof.
  pose proof (pidx_range va (S l)) as Hp. pose proof (sp_level _ _ _ H _ _ _ E) as Hl.
  destruct (allocatable_range p (fp_alloc _ _ Hf) (fp_align _ _ Hf)) as [P1 P2].
  assert (Hkey : pre va l = 512 * pre va (S l) + pidx va (S l)) by (apply pre_step; lia).
  split.
  - rewrite (ta_len _ _ _ _ Hadd). apply H.
  - rewrite lookup_insert_ne; [apply H|]. intros [= Hl3 _]. lia.
  - intros l' x t' E'. apply lookup_insert_Some in E' as [[[= <- <-] <-]|[_ E']]; [lia|by eapply sp_level].
  - intros l' x t' E'. apply lookup_insert_Some in E' as [[_ <-]|[_ E']].
    + split_and!; [apply Hf|lia|lia|apply Hadd].
    + destruct (sp_page _ _ _ H _ _ _ E') as (B1 & B2 & B3 & B4). pose proof (taken_mono s s' (ta_used _ _ _ _ Hadd) _ B4). by split_and!.
  - intros k k' t' E1 E2. apply lookup_insert_Some in E1 as [[<- <-]|[_ E1]], E2 as [[<- Et]|[_ E2]]; [done|..].
    + by apply add_fresh in E2.
    + subst t'. by apply add_fresh in E1.
    + by apply (sp_inj _ _ _ H _ _ _ E1 E2).
  - intros l' x t' E' Hl'. apply lookup_insert_Some in E' as [[[= <- <-] _]|[_ E']].
    + rewrite lookup_insert_ne by (intros [= ? ?]; lia). rewrite pre_up by lia. by exists t.
    + destruct (sp_up _ _ _ H _ _ _ E' Hl') as [t2 E2]. destruct (decide ((l, pre va l) = (S l', x / 512))) as [Hd|Hne].
      * rewrite Hd, lookup_insert_eq. by exists p.
      * rewrite lookup_insert_ne by done. by exists t2.
  - intros l' x t' i E' Hi. apply lookup_insert_Some in E' as [[Hk <-]|[Hk E']].
    + injection Hk as -> <-. rewrite lookup_insert_ne by (intros [= ? ?]; lia). rewrite (add_child l' _ i ltac:(lia) En Hi).
      by rewrite (ta_zero _ _ _ _ Hadd i Hi).
    + destruct (decide ((S l', x, i) = (S l, pre va (S l), pidx va (S l)))) as [Heq|Hne].
      * injection Heq as -> -> ->. rewrite E in E'. injection E' as <-. rewrite <- Hkey, lookup_insert_eq. apply Hadd.
      * rewrite (add_slot _ _ _ E' Hi Hne). rewrite lookup_insert_ne; [by apply (sp_inner _ _ _ H)|].
        intros Hx. injection Hx as -> Hx. apply Hne. rewrite Hkey in Hx. assert (x = pre va (S l') /\ i = pidx va (S l')) as [-> ->] by lia. done.
  - intros x t' i E' Hi. apply lookup_insert_Some in E' as [[_ <-]|[Hk E']]; [by rewrite (ta_zero _ _ _ _ Hadd i Hi)|].
    rewrite (add_slot _ _ _ E' Hi); [by apply (sp_last _ _ _ H x)|done].
Qed.

Lemma add_extends : extends s s' T (<[(l, pre va l) := p]> T).
Proof.
  destruct (sp_page _ _ _ H _ _ _ E) as (A1 & _). pose proof (pidx_range va (S l)). split.
  - apply Hadd.
  - intros a Ha Hn. apply (ta_bytes _ _ _ _ Hadd).
    + destruct (decide (p <= a < p + 4096)); [|lia]. rewrite (page_start_in p a (fp_align _ _ Hf)) in Ha by lia. by rewrite (free_not_taken _ _ Hf) in Ha.
    + destruct (decide (t + 8 * pidx va (S l) <= a < t + 8 * pidx va (S l) + 8)); [|lia]. exfalso. apply Hn. exists (S l, pre va (S l)).
      by rewrite (page_start_in t a A1) by lia.
  - intros k t' E'. rewrite lookup_insert_ne; [done|]. intros <-. congruence.
  - intros k t' E'. apply lookup_insert_Some in E' as [[<- <-]|[_ E']]; [right; by apply free_not_taken|by left].
Qed.

Lemma add_leaf va' : leaf s' (<[(l, pre va l) := p]> T) va' = leaf s T va'.
Proof.
  unfold leaf. pose proof (pidx_range va' 0) as Hp0. destruct (decide ((l, pre va l) = (0%nat, pre va' 0))) as [Hd|Hd].
  - rewrite <- Hd, lookup_insert_eq, En. by apply Hadd.
  - rewrite lookup_insert_ne by done. destruct (T !! (0%nat, pre va' 0)) as [t'|] eqn:E'; [|done].
    by apply (add_slot _ _ _ E' Hp0).
Qed.

End add_table.

(** ** try_map() *)

(** Tables were added and possibly none of the entries changed. *)
Definition grown (s s' : vm) (T T' : tables) (root : Z) : Prop :=
  space s' T' root /\ extends s s' T T' /\ forall va, leaf s' T' va = leaf s T va.

Lemma grown_refl s T root : space s T root -> grown s s T T root.
Proof. intros H. split; [done|]. split; [apply extends_refl|done]. Qed.

Lemma grown_trans s1 s2 s3 T1 T2 T3 root : grown s1 s2 T1 T2 root -> grown s2 s3 T2 T3 root -> grown s1 s3 T1 T3 root.
Proof.
  intros (_ & X1 & L1) (S2 & X2 & L2). split; [done|]. split; [by eapply extends_trans|]. intros va. by rewrite L2.
Qed.

Lemma lor_pwu p : 0 <= p -> p mod 4096 = 0 -> Z.lor (Z.lor (Z.lor p PTE_P) PTE_W) PTE_U = p + 7.
Proof. intros H1 H2. rewrite <- !Z.lor_assoc. change (Z.lor PTE_P (Z.lor PTE_W PTE_U)) with 7. by apply lor_entry. Qed.


(** [k] pages were given out, each time the first free one. *)
Inductive kallocs : nat -> vm -> vm -> Prop :=
  | kallocs_none s s' : pages s' = pages s -> kallocs 0 s s'
  | kallocs_first k s s1 s' p : free_page s p -> (forall q, q < p -> ~ free_page s q) -> pages s1 = pages (allocated s p) ->
      kallocs k s1 s' -> kallocs (S k) s s'.

Lemma kallocs_pages k s s' s2 : kallocs k s s' -> pages s2 = pages s' -> kallocs k s s2.
Proof. induction 1 as [|]; intros E; [constructor; congruence|]. econstructor; eauto. Qed.

(** Fewer than [n] pages are free. *)
Definition few_free (s : vm) (n : nat) : Prop := exists L : list Z, (length L < n)%nat /\ forall q, free_page s q -> q ∈ L.

Lemma add_tables_spec root va fuel : forall s T l t, space s T root -> bottom T va l t -> (l <= fuel)%nat ->
  exists s' T', grown s s' T T' root /\ (exists k, (k <= l)%nat /\ kallocs k s s') /\
    ((exists t0, T' !! (0%nat, pre va 0) = Some t0 /\
        add_tables kernel_end fuel (at_entry root va t l) s = Ok (Some (at_entry root va t0 0), s')) \/
     (add_tables kernel_end fuel (at_entry root va t l) s = Ok (None, s') /\ few_free s l)).
Proof.
  induction fuel as [|fuel IH]; intros s T l t H Hb Hl.
  - assert (l = 0%nat) as -> by lia. exists s, T. split; [by apply grown_refl|]. split; [exists 0%nat; split; [lia|by constructor]|].
    left. exists t. split; [apply Hb|done].
  - destruct l as [|l]; [exists s, T; split; [by apply grown_refl|]; split; [exists 0%nat; split; [lia|by constructor]|];
                         left; exists t; split; [apply Hb|done]|].
    pose proof (pidx_range va (S l)) as Hp. pose proof (sp_level _ _ _ H _ _ _ (proj1 Hb)) as Hl3.
    cbn [add_tables at_entry level_ pep_ read_pe]. rewrite (bind_ok _ _ _ _ _ (read_entry _ _ _ _ _ _ _ H (proj1 Hb) Hp)).
    pose proof (proj2 Hb l eq_refl) as En. pose proof (sp_inner _ _ _ H l _ _ _ (proj1 Hb) Hp) as Hi.
    rewrite <- pre_step, En in Hi by lia. destruct Hi as [Hi _]. rewrite Hi. cbn [Z.eqb c_assert]. rewrite bind_ret.
    destruct (kalloc_spec s (sp_len _ _ _ H)) as [(p & Ek & Hf & Hfirst)|[Ek Hnone]]; rewrite (bind_ok _ _ _ _ _ Ek).
    + destruct (allocatable_range p (fp_alloc _ _ Hf) (fp_align _ _ Hf)) as [P1 P2]. rewrite (proj2 (Z.eqb_neq _ _)) by lia.
      change PAGESIZE with 4096. rewrite (bind_ok _ _ _ _ _ (memset_page p 0 _ P1 P2)).
      destruct (sp_page _ _ _ H _ _ _ (proj1 Hb)) as (A1 & A2 & A3 & A4).
      assert (Hpt : p <> t) by (intros ->; by rewrite (free_not_taken _ _ Hf) in A4).
      pose proof (pages_apart p t (fp_align _ _ Hf) A1 Hpt) as Hap. rewrite lor_pwu by (try apply Hf; lia).
      rewrite (bind_ok _ _ _ _ _ (enter_table (allocated s p) p (t + 8 * pidx va (S l)) ltac:(lia) ltac:(lia))).
      pose proof (with_table_added s _ p (t + 8 * pidx va (S l)) (sp_len _ _ _ H) Hf (allocated_given _ _ (sp_len _ _ _ H) Hf) ltac:(lia)) as Hadd.
      pose proof (with_table_pages (allocated s p) p (t + 8 * pidx va (S l))) as Hpg.
      set (s1 := with_table (allocated s p) p (t + 8 * pidx va (S l))) in *. clearbody s1. set (T1 := <[(l, pre va l) := p]> T).
      assert (G1 : grown s s1 T T1 root).
      { unfold grown, T1. split_and!.
        - exact (add_space s s1 T root va l t p H (proj1 Hb) En Hf Hadd).
        - exact (add_extends s s1 T root va l t p H (proj1 Hb) En Hf Hadd).
        - exact (add_leaf s s1 T root va l t p H (proj1 Hb) En Hf Hadd). }
      assert (E1 : T1 !! (S l, pre va (S l)) = Some t) by (unfold T1; rewrite lookup_insert_ne; [apply Hb|intros [= ? ?]; lia]).
      destruct (down_spec s1 T1 root root va initial_perm (S l) t (proj1 G1) E1) as (l2 & t2 & Hl2 & Hb2 & Ed).
      rewrite (bind_ok _ _ _ _ _ Ed).
      assert (l2 <> S l) by (intros ->; pose proof (proj2 Hb2 l eq_refl) as Hx; unfold T1 in Hx; by rewrite lookup_insert_eq in Hx).
      destruct (IH s1 T1 l2 t2 (proj1 G1) Hb2 ltac:(lia)) as (s' & T' & G2 & (k & Hk & Hks) & Hr). exists s', T'.
      split; [by eapply grown_trans|]. split; [exists (S k); split; [lia|by apply (kallocs_first k s s1 s' p)]|]. destruct Hr as [Hr|[Hr (L & HL & HF)]]; [by left|right]. split; [exact Hr|].
      exists (p :: L). split; [cbn [length]; lia|]. intros q Hq. destruct (decide (q = p)) as [-> |Hne]; [left|].
      right. apply HF. by apply (ta_free _ _ _ _ Hadd).
    + exists s, T. split; [by apply grown_refl|]. split; [exists 0%nat; split; [lia|by constructor]|].
      right. split; [done|]. exists []. split; [cbn; lia|]. intros q Hq. by destruct (Hnone q).
Qed.

(** Addresses of the same page. *)
Definition same_page (va va' : Z) : Prop := pre va' 0 = pre va 0 /\ pidx va' 0 = pidx va 0.

(** memory_map() of a present page: the entry is set, or memory ran out. *)
Lemma memory_map_spec s T root va pa perm : space s T root -> va_is_canonical va = true -> va mod 4096 = 0 ->
  0 <= pa < 2 ^ 32 -> pa mod 4096 = 0 -> 0 <= perm < 8 -> Z.land perm PTE_P = 1 ->
  exists r s' T', memory_map kernel_end root va pa perm s = Ok (r, s') /\ space s' T' root /\ extends s s' T T' /\
    (exists k, (k <= 3)%nat /\ kallocs k s s') /\
    ((r = 0 /\ T' !! (0%nat, pre va 0) <> None /\
      forall va', leaf s' T' va' = if decide (same_page va va') then pa + perm else leaf s T va') \/
     (r = -1 /\ (forall va', leaf s' T' va' = leaf s T va') /\ T !! (0%nat, pre va 0) = None /\ few_free s 3)).
Proof.
  intros H Hc Ha Hpa Hpal Hperm Hpres. destruct (new_vmiter_spec s T root va H Hc) as (l & t & Hl & Hb & E).
  unfold memory_map. rewrite (bind_ok _ _ _ _ _ E). fold (at_entry root va t l). unfold try_map.
  assert (Hnz : (perm =? 0) = false) by (apply Z.eqb_neq; intros ->; done). rewrite Hnz, andb_false_r. cbn [at_entry va_ perm_].
  change PAGESIZE with 4096. rewrite Ha. cbn [Z.eqb c_assert]. rewrite bind_ret, Hpres. cbn [Z.eqb negb].
  assert (Hpm : Z.land pa PTE_PAMASK = pa) by (rewrite <- (Z.add_0_r pa) at 1; apply entry_page; lia).
  rewrite bind_bind. change (u64 (-1)) with (2 ^ 64 - 1). rewrite (proj2 (Z.eqb_neq pa (2 ^ 64 - 1))) by lia. cbn [negb c_assert].
  rewrite bind_ret, Hpm, Z.eqb_refl. cbn [c_assert]. rewrite bind_ret.
  assert (Hpp : Z.land (Z.land perm (Z.lnot initial_perm)) 7 = 0).
  { assert (perm = 1 \/ perm = 3 \/ perm = 5 \/ perm = 7) as [-> |[-> |[-> | ->]]]; [|done..].
    assert (perm = 0 \/ perm = 1 \/ perm = 2 \/ perm = 3 \/ perm = 4 \/ perm = 5 \/ perm = 6 \/ perm = 7) as Hx by lia.
    destruct Hx as [-> |[-> |[-> |[-> |[-> |[-> |[-> | ->]]]]]]]; try (by discriminate Hpres); lia. }
  rewrite Hpp. cbn [Z.eqb c_assert]. rewrite bind_ret.
  destruct (add_tables_spec root va 4 s T l t H Hb ltac:(lia)) as (s1 & T1 & G & (k & Hk & Hks) & [(t0 & E0 & Ea)|[Ea Hnone]]).
  - rewrite (bind_ok _ _ _ _ _ Ea). cbn [at_entry level_ pep_]. destruct G as (S1 & X1 & L1).
    rewrite lor_entry by lia. rewrite (bind_ok _ _ _ _ _ (write_entry _ _ _ _ _ _ _ (pa + perm) S1 E0 (pidx_range va 0))).
    destruct (set_leaf s1 T1 root (pre va 0) t0 (pidx va 0) (pa + perm) S1 E0 (pidx_range va 0) ltac:(lia)) as (S2 & X2 & L2).
    { rewrite entry_page by lia. lia. }
    do 3 eexists. split; [reflexivity|]. split; [exact S2|]. split; [by eapply extends_trans|].
    split; [exists k; split; [lia|by apply (kallocs_pages _ _ s1)]|]. left. split; [done|]. split; [by rewrite E0|].
    intros va'. rewrite L2, L1. done.
  - rewrite (bind_ok _ _ _ _ _ Ea). destruct G as (S1 & X1 & L1). do 3 eexists. split; [reflexivity|]. split; [exact S1|]. split; [done|].
    split; [exists k; split; [lia|done]|]. right. destruct Hnone as (L & HL & HF). destruct l as [|l]; [lia|]. split_and!; [done|exact L1|by eapply bottom_none|].
    exists L. split; [lia|done].
Qed.

End vm.

Abbreviation space kernel_end := (space_with kernel_end (absent := inactive)).
