(* ===== verification/VmBoot.v ===== *)
(** * Building address spaces

    The walks of vmiter over consecutive pages, the loops of memory_foreach(),
    and the first-fit allocations that load a program while the pages below
    the kernel are free. *)
From stdpp Require Import prelude gmap list.
From Stdlib Require Import ZArith Lia.
From S2P Require Import Prelude Memory Vm VmProofs.
Open Scope Z_scope.
Open Scope c_scope.

#[local] Opaque page_fill.

(** ** Moving an iterator *)

Lemma pre_div va l : (l <= 3)%nat -> pre va l = (va / 2 ^ (21 + 9 * Z.of_nat l)) mod 2 ^ (27 - 9 * Z.of_nat l).
Proof.
  intros Hl. unfold pre. remember (21 + 9 * Z.of_nat l) as k eqn:Ek. replace (27 - 9 * Z.of_nat l) with (48 - k) by lia.
  pose proof (Z.pow_pos_nonneg 2 k ltac:(lia) ltac:(lia)). pose proof (Z.pow_pos_nonneg 2 (48 - k) ltac:(lia) ltac:(lia)).
  replace 48 with (k + (48 - k)) at 1 by lia. rewrite (Z.pow_add_r 2 k (48 - k)) by lia.
  rewrite Z.rem_mul_r by lia. rewrite (Z.mul_comm (2 ^ k)), Z.div_add by lia.
  rewrite (Z.div_small (va mod 2 ^ k)) by (apply Z.mod_pos_bound; lia). lia.
Qed.

Lemma same_prefix va va' l : (l <= 3)%nat -> Z.land (Z.lxor va va') (Z.lnot (pageoffmask (l + 1))) = 0 -> pre va' l = pre va l.
Proof.
  intros Hl H. rewrite !pre_div by done. f_equal. set (k := 21 + 9 * Z.of_nat l).
  assert (Em : pageoffmask (l + 1) = Z.ones k).
  { unfold pageoffmask, PAGEOFFBITS, PAGEINDEXBITS. rewrite Z.ones_equiv, Z.shiftl_1_l. unfold k. rewrite <- Z.sub_1_r. do 2 f_equal. lia. }
  rewrite Em, <- Z.ldiff_land, Z.ldiff_ones_r in H by lia. apply Z.shiftl_eq_0_iff in H; [|lia].
  rewrite Z.shiftr_lxor in H. apply Z.lxor_eq in H. rewrite <- !Z.shiftr_div_pow2 by lia. congruence.
Qed.

Section boot.
Context (kernel_end : Z).

Abbreviation space_with := (VmProofs.space_with kernel_end).
Abbreviation space := (VmProofs.space kernel_end).
Abbreviation free_page := (VmProofs.free_page kernel_end).
Abbreviation taken := (VmProofs.taken kernel_end).

Section walk.
Context {absent : Z -> Prop} `{!Closed absent}.
Abbreviation space_with := (VmProofs.space_with kernel_end (absent := absent)).

Lemma real_find_spec s T root va l t va' : space_with s T root -> T !! (l, pre va l) = Some t -> va_is_canonical va' = true ->
  exists l' t', (l' <= 3)%nat /\ bottom T va' l' t' /\ real_find (at_entry root va t l) va' s = Ok (at_entry root va' t' l', s).
Proof.
  intros H E Hc. unfold real_find, at_entry. cbn [level_ va_ pt_ pep_ perm_]. pose proof (sp_level _ _ _ _ H _ _ _ E) as Hl.
  destruct (Nat.eqb l 3 || negb (Z.land (Z.lxor va va') (Z.lnot (pageoffmask (l + 1))) =? 0)) eqn:Eb.
  - rewrite Hc, pageindex_pidx.
    apply (down_spec kernel_end s T root); [done|]. rewrite pre_top. apply H.
  - apply orb_false_iff in Eb as [_ Eb]. apply negb_false_iff, Z.eqb_eq, same_prefix in Eb; [|done].
    destruct (sp_page _ _ _ _ H _ _ _ E) as (A1 & _). pose proof (pidx_range va l). change PAGESIZE with 4096.
    assert (Ei : Z.shiftr ((t + 8 * pidx va l) mod 4096) 3 = pidx va l).
    { rewrite Z.add_mod, A1, Z.add_0_l, Z.mod_mod by lia. rewrite Z.mod_small by lia. rewrite Z.shiftr_div_pow2 by lia.
      change (2 ^ 3) with 8. rewrite Z.mul_comm. apply Z.div_mul. lia. }
    rewrite Ei, pageindex_pidx. replace (t + 8 * pidx va l + 8 * (pidx va' l - pidx va l)) with (t + 8 * pidx va' l) by lia.
    destruct (down_spec kernel_end s T root root va' initial_perm l t H) as (l' & t' & Hl' & Hb & Ed); [by rewrite Eb|].
    exists l', t'. split; [lia|]. by split.
Qed.

(** ** Entries of existing tables *)

(** Only entries of [T] change. *)
Record remapped (s s' : vm) (T : tables) : Prop := {
  rm_pages : pages s' = pages s;
  rm_bytes a : ~ in_tables T (page_start a) -> byte_at (phys s') a = byte_at (phys s) a
}.

Lemma remapped_refl s T : remapped s s T.
Proof. by split. Qed.

Lemma remapped_trans s1 s2 s3 T : remapped s1 s2 T -> remapped s2 s3 T -> remapped s1 s3 T.
Proof. intros [P1 B1] [P2 B2]. split; [congruence|]. intros a Ha. rewrite B2, B1; done. Qed.

Definition permitted (perm : Z) : Prop := 0 <= perm < 8 /\ (perm = 0 \/ Z.land perm PTE_P = 1).

Lemma try_map_here s T root va t pa perm : space_with s T root -> T !! (0%nat, pre va 0) = Some t ->
  va mod 4096 = 0 -> 0 <= pa < 2 ^ 32 -> pa mod 4096 = 0 -> permitted perm ->
  exists s', try_map kernel_end (at_entry root va t 0) pa perm s = Ok (0, s') /\ space_with s' T root /\ remapped s s' T /\
    forall va', leaf s' T va' = if decide (same_page va va') then pa + perm else leaf s T va'.
Proof.
  intros H E Ha Hpa Hpal [Hperm Hp].
  destruct (set_leaf kernel_end s T root (pre va 0) t (pidx va 0) (pa + perm) H E (pidx_range va 0) ltac:(lia)) as (S2 & X2 & L2).
  { rewrite entry_page by lia. lia. }
  set (s' := mkVm (store64 (phys s) (t + 8 * pidx va 0) (pa + perm)) (pages s)) in *. exists s'.
  split; [|split; [done|split; [|done]]].
  - unfold try_map. cbn [at_entry va_ perm_]. change (u64 (-1)) with (2 ^ 64 - 1). rewrite (proj2 (Z.eqb_neq pa (2 ^ 64 - 1))) by lia. cbn [andb].
    change PAGESIZE with 4096. rewrite Ha. cbn [Z.eqb c_assert]. rewrite bind_ret.
    assert (Hpm : Z.land pa PTE_PAMASK = pa) by (rewrite <- (Z.add_0_r pa) at 1; apply entry_page; lia).
    assert (Hpp : Z.land pa PTE_P = 0) by (rewrite <- (Z.add_0_r pa); by rewrite entry_flags).
    assert (Hx : Z.land (Z.land perm (Z.lnot initial_perm)) 7 = 0).
    { assert (perm = 0 \/ perm = 1 \/ perm = 2 \/ perm = 3 \/ perm = 4 \/ perm = 5 \/ perm = 6 \/ perm = 7) as Hx by lia.
      by destruct Hx as [-> |[-> |[-> |[-> |[-> |[-> |[-> | ->]]]]]]]. }
    rewrite Hpm, Hpp, Z.eqb_refl, Hx, (proj2 (Z.eqb_neq pa (2 ^ 64 - 1))) by lia. cbn [c_assert Z.eqb negb].
    assert (Hb : forall b : bool, (if b then bind (ret tt) (fun _ => ret tt) else ret tt) s = Ok (tt, s)) by (by intros []).
    rewrite (bind_ok _ _ _ _ _ (Hb _)), bind_ret.
    assert (Er : (if perm =? 0 then ret (Some (at_entry root va t 0)) else add_tables kernel_end 4 (at_entry root va t 0)) s
                 = Ok (Some (at_entry root va t 0), s)) by (by destruct (perm =? 0)).
    rewrite (bind_ok _ _ _ _ _ Er). cbn [at_entry level_ pep_]. rewrite lor_entry by lia.
    by rewrite (bind_ok _ _ _ _ _ (write_entry _ _ _ _ _ _ _ _ (pa + perm) H E (pidx_range va 0))).
  - split; [done|]. intros a Hn. apply byte_at_store_out. destruct (sp_page _ _ _ _ H _ _ _ E) as (A1 & _). pose proof (pidx_range va 0).
    destruct (decide (t + 8 * pidx va 0 <= a < t + 8 * pidx va 0 + 8)); [|lia]. exfalso. apply Hn. exists (0%nat, pre va 0).
    by rewrite (page_start_in t a A1) by lia.
Qed.

Lemma bottom_here s T root va t l t' : space_with s T root -> T !! (0%nat, pre va 0) = Some t -> bottom T va l t' -> l = 0%nat /\ t' = t.
Proof.
  intros H E Hb. destruct l as [|l].
  - split; [done|]. destruct Hb as [Hb _]. congruence.
  - pose proof (sp_level _ _ _ _ H _ _ _ (proj1 Hb)) as Hl. by rewrite (bottom_none _ _ _ _ _ _ _ H Hl Hb) in E.
Qed.

Lemma memory_map_here s T root va t pa perm : space_with s T root -> T !! (0%nat, pre va 0) = Some t -> va_is_canonical va = true ->
  va mod 4096 = 0 -> 0 <= pa < 2 ^ 32 -> pa mod 4096 = 0 -> permitted perm ->
  exists s', memory_map kernel_end root va pa perm s = Ok (0, s') /\ space_with s' T root /\ remapped s s' T /\
    forall va', leaf s' T va' = if decide (same_page va va') then pa + perm else leaf s T va'.
Proof.
  intros H E Hc Ha Hpa Hpal Hperm. destruct (new_vmiter_spec kernel_end s T root va H Hc) as (l & t' & _ & Hb & En).
  destruct (bottom_here _ _ _ _ _ _ _ H E Hb) as [-> ->]. unfold memory_map. rewrite (bind_ok _ _ _ _ _ En).
  by apply try_map_here.
Qed.

Lemma translate_here s T root va t : space_with s T root -> T !! (0%nat, pre va 0) = Some t -> va_is_canonical va = true -> 0 <= va ->
  memory_virtual_to_physical root va s = Ok (translation (leaf s T va) va, s).
Proof.
  intros H E Hc Hva. destruct (new_vmiter_spec kernel_end s T root va H Hc) as (l & t' & _ & Hb & En).
  destruct (bottom_here _ _ _ _ _ _ _ H E Hb) as [-> ->]. unfold memory_virtual_to_physical. rewrite (bind_ok _ _ _ _ _ En).
  unfold vmiter_pa. cbn [pep_ read_pe level_ va_]. rewrite (bind_ok _ _ _ _ _ (read_entry _ _ _ _ _ _ _ _ H E (pidx_range va 0))).
  unfold translation, leaf. rewrite E. set (e := load64 (phys s) (t + 8 * pidx va 0)).
  destruct (Z.eqb_spec (Z.land e PTE_P) 0); cbn [negb]; [done|]. change (0 <? 0)%nat with false. cbv iota. unfold ret. do 2 f_equal.
  change (pageoffmask 0) with (Z.ones 12). rewrite Z.land_ones by lia. change (2 ^ 12) with 4096.
  apply wrapU_small. pose proof (Z.mod_pos_bound va 4096 ltac:(lia)). pose proof (sp_last _ _ _ _ H _ _ _ E (pidx_range va 0)) as Hs. fold e in Hs.
  assert (0 <= Z.land e PTE_PAMASK) by (rewrite land_pamask; pose proof (Z.mod_pos_bound (e / 4096) (2 ^ 40) ltac:(lia)); lia). lia.
Qed.

End walk.

(** ** The first two megabytes *)

Lemma low_page a : 0 <= a < 0x200000 -> pre a 0 = 0 /\ pidx a 0 = a / 4096.
Proof.
  intros Ha. unfold pre, pidx. change (2 ^ (21 + 9 * Z.of_nat 0)) with 0x200000. change (2 ^ (12 + 9 * Z.of_nat 0)) with 4096.
  rewrite (Z.mod_small a) by lia. rewrite Z.div_small by lia. split; [done|]. apply Z.mod_small.
  split; [apply Z.div_pos; lia|apply Z.div_lt_upper_bound; lia].
Qed.

Lemma low_canonical a : 0 <= a < 2 ^ 47 -> va_is_canonical a = true.
Proof. intros Ha. unfold va_is_canonical, VA_LOWMAX. by rewrite (proj2 (Z.leb_le _ _)) by lia. Qed.

Lemma low_same a va : 0 <= a < 0x200000 -> a mod 4096 = 0 -> same_page a va <-> pre va 0 = 0 /\ 4096 * pidx va 0 = a.
Proof.
  intros Ha Hal. destruct (low_page a Ha) as [E1 E2]. unfold same_page. rewrite E1, E2. pose proof (Z.div_mod a 4096 ltac:(lia)). lia.
Qed.

Section kernel_range.
Context {absent : Z -> Prop} `{!Closed absent}.
Abbreviation space_with := (VmProofs.space_with kernel_end (absent := absent)).

(** The pages of the first two megabytes from [a] to [b]. *)
Definition in_range (a b va : Z) : Prop := pre va 0 = 0 /\ a <= 4096 * pidx va 0 < b.

#[export] Instance in_range_dec a b va : Decision (in_range a b va).
Proof. unfold in_range. apply _. Defined.

Lemma in_range_cons a b va : 0 <= a < b -> b <= 0x200000 -> a mod 4096 = 0 -> in_range a b va <-> same_page a va \/ in_range (a + 4096) b va.
Proof.
  intros Ha Hb Hal. rewrite low_same by lia. unfold in_range. pose proof (Z.div_mod a 4096 ltac:(lia)). lia.
Qed.

(** memory_foreach() with map_to_kernel_space(), from page [a] on, when the
    table of the first two megabytes exists. *)
Lemma foreach_kernel root T t0 n : T !! (0%nat, 0) = Some t0 -> forall s a l t fuel, a = 0x100000 - 4096 * Z.of_nat n -> (n <= 256)%nat ->
  (n <= fuel)%nat -> space_with s T root -> T !! (l, pre a l) = Some t ->
  exists s', foreach_loop fuel root PROC_START_ADDR (map_to_kernel_space kernel_end) (at_entry root a t l) s = Ok (tt, s') /\
    space_with s' T root /\ remapped s s' T /\
    forall va, leaf s' T va = if decide (in_range a 0x100000 va) then 4096 * pidx va 0 + 3 else leaf s T va.
Proof.
  intros E0. induction n as [|n IH]; intros s a l t fuel Ea Hn Hf H Et.
  - exists s. split; [|split; [done|split; [apply remapped_refl|]]].
    + destruct fuel; cbn [foreach_loop at_entry va_]; by rewrite (proj2 (Z.ltb_ge _ _)) by (unfold PROC_START_ADDR; lia).
    + intros va. rewrite decide_False; [done|]. unfold in_range. lia.
  - destruct fuel as [|fuel]; [lia|]. assert (Ha : 0 <= a < 0x100000) by lia.
    assert (Hal : a mod 4096 = 0) by (replace a with ((256 - Z.of_nat (S n)) * 4096) by lia; by apply Z.mod_mul).
    destruct (low_page a ltac:(lia)) as [P1 P2].
    destruct (memory_map_here s T root a t0 a 3 H ltac:(by rewrite P1) (low_canonical a ltac:(lia)) Hal ltac:(lia) Hal ltac:(split; [lia|by right]))
      as (s1 & Em & S1 & R1 & L1).
    cbn [foreach_loop]. change (va_ (at_entry root a t l)) with a. rewrite (proj2 (Z.ltb_lt _ _)) by (unfold PROC_START_ADDR; lia).
    assert (Ei : map_to_kernel_space kernel_end root a s = Ok (true, s1)) by (unfold map_to_kernel_space; by rewrite (bind_ok _ _ _ _ _ Em)).
    rewrite (bind_ok _ _ _ _ _ Ei). cbn [negb]. change PAGESIZE with 4096. rewrite wrapU_small by lia.
    destruct (real_find_spec s1 T root a l t (a + 4096) S1 Et (low_canonical (a + 4096) ltac:(lia))) as (l' & t' & _ & Hb & Er).
    rewrite (bind_ok _ _ _ _ _ Er).
    destruct (IH s1 (a + 4096) l' t' fuel ltac:(lia) ltac:(lia) ltac:(lia) S1 (proj1 Hb)) as (s2 & E2 & S2 & R2 & L2).
    exists s2. split; [done|]. split; [done|]. split; [by eapply remapped_trans|]. intros va. rewrite L2, L1.
    pose proof (in_range_cons a 0x100000 va ltac:(lia) ltac:(lia) Hal) as Hc. pose proof (low_same a va ltac:(lia) Hal) as Hs.
    destruct (decide (in_range (a + 4096) 0x100000 va)) as [D1|D1]; [by rewrite decide_True by tauto|].
    destruct (decide (same_page a va)) as [D2|D2]; [rewrite decide_True by tauto; apply Hs in D2; lia|by rewrite decide_False by tauto].
Qed.

End kernel_range.

(** ** First fit below the kernel *)

(** Of the pages below the kernel exactly those from [n] on are free. *)
Record low (s : vm) (n : Z) : Prop := {
  low_len : length (pages s) = 512%nat;
  low_range : 1 <= n <= 64;
  low_used j : 1 <= j < 64 -> used s (4096 * j) = (j <? n)
}.

Lemma low_allocatable j : 1 <= j < 64 -> allocatable_physical_address kernel_end (4096 * j) = true.
Proof.
  intros Hj. unfold allocatable_physical_address, reserved_physical_address, IOPHYSMEM, EXTPHYSMEM, KERNEL_START_ADDR, KERNEL_STACK_TOP, MEMSIZE_PHYSICAL.
  change PAGESIZE with 4096. rewrite (proj2 (Z.ltb_ge _ 4096)), (proj2 (Z.leb_gt 0xA0000 _)) by lia.
  rewrite !(proj2 (Z.ltb_lt _ _)) by lia. done.
Qed.

Lemma page_div j : (4096 * j) / 4096 = j.
Proof. rewrite Z.mul_comm. by apply Z.div_mul. Qed.

Lemma page_mod j : (4096 * j) mod 4096 = 0.
Proof. rewrite Z.mul_comm. by apply Z.mod_mul. Qed.

Lemma low_free s n j : low s n -> n <= j < 64 -> free_page s (4096 * j).
Proof.
  intros H Hj. pose proof (low_range _ _ H). split; [apply low_allocatable; lia|apply page_mod|].
  rewrite (low_used _ _ H) by lia. apply Z.ltb_ge. lia.
Qed.

Lemma low_first s n p : low s n -> n < 64 -> free_page s p -> (forall q, q < p -> ~ free_page s q) -> p = 4096 * n.
Proof.
  intros H Hn Hf Hmin. pose proof (low_range _ _ H). pose proof (low_free s n n H ltac:(lia)) as Hfn.
  assert (~ 4096 * n < p) by (intros Hl; by apply (Hmin _ Hl)). destruct Hf as [A1 A2 A3].
  pose proof (allocatable_range _ p A1 A2). pose proof (Z.div_mod p 4096 ltac:(lia)) as Ep.
  assert (Ej : p = 4096 * (p / 4096)) by lia. destruct (decide (p / 4096 < n)); [|lia].
  rewrite Ej, (low_used _ _ H) in A3 by lia. apply Z.ltb_ge in A3. lia.
Qed.

Lemma low_pages s s' n : low s n -> pages s' = pages s -> low s' n.
Proof.
  intros [H1 H2 H3] E. split; [by rewrite E|done|]. intros j Hj. by rewrite (used_pages s' s) by done; apply H3.
Qed.

Lemma low_allocated s n : low s n -> n < 64 -> low (allocated s (4096 * n)) (n + 1).
Proof.
  intros H Hn. pose proof (low_range _ _ H). split; [unfold allocated; cbn [pages]; rewrite length_insert; apply H|lia|]. intros j Hj.
  unfold allocated. rewrite used_insert by (first [apply H|rewrite ?page_div; lia]). rewrite !page_div, (low_used _ _ H) by lia.
  case_decide as Hd.
  - symmetry. apply Z.ltb_lt. lia.
  - destruct (Z.ltb_spec j n), (Z.ltb_spec j (n + 1)); lia || done.
Qed.

Lemma kalloc_low s n : low s n -> n < 64 -> kalloc kernel_end PAGESIZE s = Ok (4096 * n, allocated s (4096 * n)).
Proof.
  intros H Hn. destruct (kalloc_spec kernel_end s (low_len _ _ H)) as [(p & Ek & Hf & Hmin)|[_ Hnone]].
  - by rewrite (low_first _ _ _ H Hn Hf Hmin) in Ek.
  - pose proof (low_range _ _ H). by destruct (Hnone (4096 * n)); apply (low_free _ _ _ H); lia.
Qed.

Lemma kallocs_low k s s' : kallocs kernel_end k s s' -> forall n, low s n -> n + Z.of_nat k <= 64 -> low s' (n + Z.of_nat k).
Proof.
  induction 1 as [s s' E|k s s1 s' p Hf Hmin E _ IH]; intros n H Hn.
  - rewrite Z.add_0_r. by apply (low_pages s).
  - assert (p = 4096 * n) as -> by (apply (low_first s); [done|lia|done|done]).
    replace (n + Z.of_nat (S k)) with (n + 1 + Z.of_nat k) by lia. apply IH; [|lia].
    apply (low_pages (allocated s (4096 * n))); [|done]. apply low_allocated; [done|lia].
Qed.

Lemma few_free_low s n k : low s n -> n + Z.of_nat k <= 64 -> ~ few_free kernel_end s k.
Proof.
  intros H Hn (L & HL & HF). assert (Hle : (length ((fun j : nat => (4096 * (n + Z.of_nat j))%Z) <$> seq 0 k) <= length L)%nat).
  { apply List.NoDup_incl_length.
    - apply NoDup_ListNoDup, NoDup_fmap; [intros x y Hxy; lia|apply NoDup_seq].
    - intros q Hq. apply list_elem_of_In, list_elem_of_fmap in Hq as (j & -> & Hj). apply elem_of_seq in Hj.
      apply list_elem_of_In, HF, (low_free s n); [done|lia]. }
  rewrite length_fmap, length_seq in Hle. lia.
Qed.

Lemma memory_map_low s T root va pa perm n : space s T root -> low s n -> n + 3 <= 64 -> va_is_canonical va = true -> va mod 4096 = 0 ->
  0 <= pa < 2 ^ 32 -> pa mod 4096 = 0 -> 0 <= perm < 8 -> Z.land perm PTE_P = 1 ->
  exists s' T' m, memory_map kernel_end root va pa perm s = Ok (0, s') /\ space s' T' root /\ VmProofs.extends kernel_end s s' T T' /\
    n <= m <= n + 3 /\ low s' m /\ is_Some (T' !! (0%nat, pre va 0)) /\
    forall va', leaf s' T' va' = if decide (same_page va va') then pa + perm else leaf s T va'.
Proof.
  intros H Hlow Hn Hc Ha Hpa Hpal Hperm Hp.
  destruct (memory_map_spec kernel_end s T root va pa perm H Hc Ha Hpa Hpal Hperm Hp) as (r & s' & T' & E & S' & X & (k & Hk & Hks) & Hr).
  exists s', T', (n + Z.of_nat k). destruct Hr as [(-> & Ht & Hl)|(_ & _ & _ & Hfew)].
  - split; [done|]. split; [done|]. split; [done|]. split; [lia|]. split; [apply (kallocs_low k s); [done..|lia]|].
    split; [by apply not_eq_None_Some|done].
  - by destruct (few_free_low s n 3 Hlow Hn).
Qed.

(** ** What building an address space keeps *)

Record keeps (s0 s : vm) : Prop := {
  kp_used q : used s0 q = true -> used s q = true;
  kp_bytes a : taken s0 (page_start a) = true -> byte_at (phys s) a = byte_at (phys s0) a
}.

(** The tables were free pages in [s0]. *)
Definition fresh (s0 : vm) (T : tables) : Prop := forall t, in_tables T t -> taken s0 t = false.

Lemma keeps_refl s : keeps s s.
Proof. by split. Qed.

Lemma keeps_writes s0 s s' : keeps s0 s -> pages s' = pages s ->
  (forall a, taken s0 (page_start a) = true -> byte_at (phys s') a = byte_at (phys s) a) -> keeps s0 s'.
Proof.
  intros [U B] E H. split; [intros q Hq; rewrite (used_pages s' s) by done; auto|]. intros a Ha. rewrite H by done. auto.
Qed.

Lemma keeps_remapped s0 s s' T : keeps s0 s -> fresh s0 T -> remapped s s' T -> keeps s0 s'.
Proof.
  intros K F [E B]. apply (keeps_writes s0 s); [done..|]. intros a Ha. apply B. intros Hin. by rewrite (F _ Hin) in Ha.
Qed.

Lemma keeps_extends s0 s s' T T' : keeps s0 s -> fresh s0 T -> VmProofs.extends kernel_end s s' T T' -> keeps s0 s' /\ fresh s0 T'.
Proof.
  intros [U B] F [XU XB XO XN]. pose proof (taken_mono kernel_end s0 s U) as K. split.
  - split; [auto|]. intros a Ha. rewrite XB; auto. intros Hin. by rewrite (F _ Hin) in Ha.
  - intros t [k Hk]. destruct (XN _ _ Hk) as [Hk'|Hk']; [apply F; by exists k|]. destruct (taken s0 t) eqn:E; [|done].
    by rewrite (K _ E) in Hk'.
Qed.

Lemma keeps_given s0 s s' p : keeps s0 s -> free_page s p -> page_given kernel_end s s' p -> keeps s0 s'.
Proof.
  intros [U B] Hf G. split; [intros q Hq; by apply (pg_used _ _ _ _ G), U|]. intros a Ha. rewrite (pg_bytes _ _ _ _ G); [auto|].
  destruct (decide (p <= a < p + 4096)); [|lia]. rewrite (page_start_in p a) in Ha by (try lia; apply Hf).
  apply (taken_mono _ _ _ U) in Ha. by rewrite (free_not_taken _ _ _ Hf) in Ha.
Qed.

Lemma fill_outside (m : ram) p c a : p mod 4096 = 0 -> page_start a <> p -> byte_at (page_fill m p c) a = byte_at m a.
Proof.
  intros Hp Ha. apply page_fill_out. destruct (decide (p <= a < p + 4096)); [|lia]. by rewrite (page_start_in p a) in Ha by lia.
Qed.

(** A cleared page is an empty page table. *)
Definition cleared_page (s : vm) (p : Z) : vm := mkVm (page_fill (phys s) p 0) (pages s).

Lemma empty_space s s1 p : free_page s p -> page_given kernel_end s s1 p ->
  keeps s (cleared_page s1 p) /\ fresh s {[ (3%nat, 0) := p ]} /\ space (cleared_page s1 p) {[ (3%nat, 0) := p ]} p.
Proof.
  intros Hf G. pose proof (free_not_taken _ _ _ Hf) as Hnt. destruct (allocatable_range _ p (fp_alloc _ _ _ Hf) (fp_align _ _ _ Hf)) as [P1 P2].
  assert (Hone : forall k t, ({[ (3%nat, 0) := p ]} : tables) !! k = Some t -> k = (3%nat, 0) /\ t = p)
    by (intros k t Hk; by apply lookup_singleton_Some in Hk as [<- <-]).
  split; [|split].
  - apply (keeps_writes s s1); [by apply (keeps_given s s s1 p (keeps_refl s))|done|]. intros a Ha. apply fill_outside; [apply Hf|].
    intros Ep. by rewrite Ep, Hnt in Ha.
  - intros t [k Hk]. by apply Hone in Hk as [_ ->].
  - split.
    + apply (pg_len _ _ _ _ G).
    + apply lookup_singleton_eq.
    + intros l x t Hk. apply Hone in Hk as [[= -> ->] ->]. lia.
    + intros l x t Hk. apply Hone in Hk as [_ ->]. split; [apply Hf|]. split; [lia|]. split; [lia|].
      unfold VmProofs.taken. rewrite (used_pages _ s1) by done. by rewrite (pg_here _ _ _ _ G).
    + intros k k' t Hk Hk'. apply Hone in Hk as [-> _], Hk' as [-> _]. done.
    + intros l x t Hk Hl. apply Hone in Hk as [[= -> ->] ->]. lia.
    + intros l x t i Hk Hi. apply Hone in Hk as [[= -> ->] ->].
      destruct (({[ (3%nat, 0) := p ]} : tables) !! _) eqn:E'; [by apply Hone in E' as [? _]|].
      unfold inactive. rewrite (load_zeros _); [done|]. intros b Hb. apply page_fill_in. lia.
    + intros x t i Hk. by apply Hone in Hk as [? _].
Qed.

Lemma memset_cleared s p : 4096 <= p -> p + 4096 <= MEMSIZE_PHYSICAL -> memset p 0 (8 * 512) s = Ok (tt, cleared_page s p).
Proof. intros H1 H2. exact (memset_page p 0 s H1 H2). Qed.

Lemma kalloc_pagetable_run s s1 s2 p : kalloc kernel_end PAGESIZE s = Ok (p, s1) -> p <> 0 -> memset p 0 (8 * 512) s1 = Ok (tt, s2) ->
  kalloc_pagetable kernel_end s = Ok (p, s2).
Proof.
  intros Ek Hp Em. unfold kalloc_pagetable. rewrite (bind_ok _ _ _ _ _ Ek). rewrite (proj2 (Z.eqb_neq _ _)) by done. cbn [negb].
  by rewrite (bind_ok _ _ _ _ _ Em).
Qed.

Lemma pagetable_given s s1 n p : kalloc kernel_end PAGESIZE s = Ok (p, s1) -> free_page s p -> page_given kernel_end s s1 p -> low s1 n ->
  exists s', kalloc_pagetable kernel_end s = Ok (p, s') /\ low s' n /\ keeps s s' /\ fresh s {[ (3%nat, 0) := p ]} /\
    space s' {[ (3%nat, 0) := p ]} p.
Proof.
  intros Ek Hf G H1. destruct (allocatable_range _ p (fp_alloc _ _ _ Hf) (fp_align _ _ _ Hf)) as [P1 P2].
  exists (cleared_page s1 p). split; [|split; [by apply (low_pages s1)|by apply empty_space]].
  apply (kalloc_pagetable_run s s1); [done|lia|]. by apply memset_cleared.
Qed.

(** kalloc_pagetable() *)
Lemma pagetable_low s n : low s n -> n < 64 ->
  exists s', kalloc_pagetable kernel_end s = Ok (4096 * n, s') /\ low s' (n + 1) /\ keeps s s' /\ fresh s {[ (3%nat, 0) := 4096 * n ]} /\
    space s' {[ (3%nat, 0) := 4096 * n ]} (4096 * n).
Proof.
  intros H Hn. pose proof (low_range _ _ H) as Hr. pose proof (low_free s n n H ltac:(lia)) as Hf.
  exact (pagetable_given s _ _ _ (kalloc_low _ _ H Hn) Hf (allocated_given kernel_end s _ (low_len _ _ H) Hf) (low_allocated _ _ H Hn)).
Qed.

Definition kernel_entry (x : Z) : Z := if x =? 0 then 0 else if x =? 0xB8 then 0xB8007 else 4096 * x + 3.

(** The kernel half of a new address space. *)
Lemma foreach_new s n pt : low s n -> n + 3 <= 64 -> space s {[ (3%nat, 0) := pt ]} pt ->
  exists s' T t0 m, memory_foreach pt PROC_START_ADDR (map_to_kernel_space kernel_end) s = Ok (tt, s') /\
    space s' T pt /\ n <= m <= n + 3 /\ low s' m /\ T !! (0%nat, 0) = Some t0 /\
    (forall s0, keeps s0 s -> fresh s0 {[ (3%nat, 0) := pt ]} -> keeps s0 s' /\ fresh s0 T) /\
    forall va, leaf s' T va = if decide (in_range 0 0x100000 va) then 4096 * pidx va 0 + 3 else 0.
Proof.
  intros Hl Hn H. set (T0 := {[ (3%nat, 0) := pt ]} : tables) in *.
  assert (HT0 : forall k, k <> (3%nat, 0) -> T0 !! k = None) by (intros k Hk; by apply lookup_singleton_ne).
  destruct (new_vmiter_spec kernel_end s T0 pt 0 H eq_refl) as (l & t & _ & Hb & En).
  assert (l = 3%nat /\ t = pt) as [-> ->].
  { destruct Hb as [Hb _]. destruct (decide (l = 3%nat)) as [-> |Hne].
    - rewrite pre_top in Hb. unfold T0 in Hb. rewrite lookup_singleton_eq in Hb. by injection Hb.
    - rewrite HT0 in Hb; [done|]. intros Hx. by injection Hx. }
  unfold memory_foreach. rewrite (bind_ok _ _ _ _ _ En). change (Z.to_nat (PROC_START_ADDR / PAGESIZE) + 1)%nat with 257%nat.
  destruct (memory_map_low s T0 pt 0 0 3 n H Hl Hn eq_refl eq_refl ltac:(lia) eq_refl ltac:(lia) eq_refl)
    as (s1 & T & m & Em & S1 & X & Hm & Hl1 & [t0 Ht0] & L1).
  change (pre 0 0) with 0 in Ht0. cbn [foreach_loop va_]. change (0 <? PROC_START_ADDR) with true. cbv iota.
  assert (Ei : map_to_kernel_space kernel_end pt 0 s = Ok (true, s1)) by (unfold map_to_kernel_space; by rewrite (bind_ok _ _ _ _ _ Em)).
  rewrite (bind_ok _ _ _ _ _ Ei). cbn [negb]. change (u64 (0 + PAGESIZE)) with 4096. fold (at_entry pt 0 pt 3).
  assert (Er : T !! (3%nat, pre 0 3) = Some pt) by (rewrite pre_top; apply S1).
  destruct (real_find_spec s1 T pt 0 3 pt 4096 S1 Er eq_refl) as (l' & t' & _ & Hb' & Ef). rewrite (bind_ok _ _ _ _ _ Ef).
  destruct (foreach_kernel pt T t0 255 Ht0 s1 4096 l' t' 256 eq_refl ltac:(lia) ltac:(lia) S1 (proj1 Hb')) as (s2 & E2 & S2 & R2 & L2).
  exists s2, T, t0, m. split; [exact E2|]. split; [done|]. split; [done|]. split; [apply (low_pages s1); [done|apply R2]|]. split; [done|]. split.
  - intros s0 K F. destruct (keeps_extends s0 s s1 T0 T K F X) as [K1 F1]. split; [|done]. by apply (keeps_remapped s0 s1 s2 T).
  - intros va. rewrite L2, L1. pose proof (in_range_cons 0 0x100000 va ltac:(lia) ltac:(lia) eq_refl) as Hc.
    pose proof (low_same 0 va ltac:(lia) eq_refl) as Hs. change (0 + 4096) with 4096 in Hc.
    assert (E0 : leaf s T0 va = 0) by (unfold leaf; rewrite HT0; [done|by intros [= ? _]]).
    destruct (decide (in_range 4096 0x100000 va)) as [D1|D1]; [by rewrite decide_True by tauto|].
    destruct (decide (same_page 0 va)) as [D2|D2]; [rewrite decide_True by tauto; apply Hs in D2; lia|by rewrite decide_False by tauto].
Qed.

(** Giving out a page does not disturb an address space. *)
Lemma space_given s s1 T root p : space s T root -> free_page s p -> page_given kernel_end s s1 p ->
  space s1 T root /\ forall va, leaf s1 T va = leaf s T va.
Proof.
  intros H Hf G. apply (space_same kernel_end s); [apply G|apply taken_mono, G| |done]. intros a [[l x] Ha].
  apply (pg_bytes _ _ _ _ G). destruct (decide (p <= a < p + 4096)); [|lia]. exfalso.
  destruct (sp_page _ _ _ _ H _ _ _ Ha) as (_ & _ & _ & Ht). rewrite (page_start_in p a) in Ht by (try lia; apply Hf).
  by rewrite (free_not_taken _ _ _ Hf) in Ht.
Qed.

(** kalloc() with everything that is known of the new state. *)
Lemma kalloc_step s n : low s n -> n < 64 -> exists s1, kalloc kernel_end PAGESIZE s = Ok (4096 * n, s1) /\
  free_page s (4096 * n) /\ page_given kernel_end s s1 (4096 * n) /\ low s1 (n + 1).
Proof.
  intros H Hn. pose proof (low_range _ _ H). pose proof (low_free s n n H ltac:(lia)) as Hf. exists (allocated s (4096 * n)).
  split; [by apply kalloc_low|]. split; [done|]. split; [by apply allocated_given, Hf; apply H|by apply low_allocated].
Qed.

(** The tables are not among the pages from [n] on. *)
Lemma tables_below s T root n t : space s T root -> low s n -> in_tables T t -> t < 4096 * n \/ 0x40000 <= t.
Proof.
  intros H Hl [[l x] E]. destruct (sp_page _ _ _ _ H _ _ _ E) as (A1 & A2 & _ & A4). destruct (decide (4096 * n <= t < 0x40000)); [|lia].
  pose proof (Z.div_mod t 4096 ltac:(lia)). assert (Hf : free_page s (4096 * (t / 4096))) by (apply (low_free s n); [done|lia]).
  replace (4096 * (t / 4096)) with t in Hf by lia. by rewrite (free_not_taken _ _ _ Hf) in A4.
Qed.

End boot.
