(* ===== verification/Lib.v ===== *)
(** * The C library of the mini operating system

    lib.cc and lib.hh: the memory and string functions, the conversion of
    numerals, the random numbers and the arithmetic helpers that the kernel and
    the processes share.  The functions run over any state with a byte memory,
    described by the class [Bytes]; the physical memory of the kernel and a
    partial map are the instances.  A pointer is an address, a load or store at
    an address that is not mapped is a fault, and a loop that walks a string
    runs under the bound of [loopM], which no string in a 64-bit address space
    exceeds. *)
From stdpp Require Import prelude gmap list.
From Stdlib Require Import ZArith Lia.
From S2P Require Import Prelude Memory Vm.
Open Scope Z_scope.
Open Scope c_scope.

(** ** Byte memory *)

(** What the library needs of a state: the byte at an address, if it is mapped,
    and the state after a store. *)
Class Bytes (S : Type) := {
  peek : S -> Z -> option Z;
  poke : Z -> Z -> S -> S
}.

Definition ldb {S} `{Bytes S} (a : Z) : M S Z := fun s =>
  match peek s a with Some b => Ok (b, s) | None => Err (Segv a) end.

Definition stb {S} `{Bytes S} (a v : Z) : M S unit := fun s =>
  match peek s a with Some _ => Ok (tt, poke a (u8 v) s) | None => Err (Segv a) end.

(** A memory in which only some addresses are mapped. *)
Definition cmem := gmap Z Z.

#[export] Instance cmem_bytes : Bytes cmem := {|
  peek m a := m !! a;
  poke a v m := <[a := v]> m
|}.

(** The physical memory of the kernel. *)
#[export] Instance vm_bytes : Bytes vm := {|
  peek s a := if kernel_can_access a 1 then Some (byte_at (phys s) a) else None;
  poke a v s := mkVm (set_byte (phys s) a v) (pages s)
|}.

(** ** Characters *)

Definition isspace (c : Z) : bool := ((9 <=? c) && (c <=? 13)) || (c =? 32).
Definition isdigit (c : Z) : bool := u32 (u32 c - 48) <? 10.
Definition islower (c : Z) : bool := u32 (u32 c - 97) <? 26.
Definition isupper (c : Z) : bool := u32 (u32 c - 65) <? 26.
Definition isalpha (c : Z) : bool := u32 (Z.lor (u32 c) 0x20 - 97) <? 26.
Definition isalnum (c : Z) : bool := isalpha c || isdigit c.
Definition tolower (c : Z) : Z := if isupper c then c + 97 - 65 else c.
Definition toupper (c : Z) : Z := if islower c then c + 65 - 97 else c.

(** ** Memory and strings *)

(** The sign of a comparison of two characters, as the functions return it. *)
Definition order (x y : Z) : Z := b2z (y <? x) - b2z (x <? y).

(** A loop that reads through [rd]: size_t n; for (n = 0; *s; ++s) ++n. *)
Definition strlen_via {S} (rd : Z -> M S Z) (s : Z) : M S Z :=
  loopM (fun '(s, n) =>
    c <- rd s;;
    if c =? 0 then ret (inr n) else ret (inl (s + 1, u64 (n + 1)))) (s, 0).

Fixpoint strnlen_via {S} (rd : Z -> M S Z) (maxlen : nat) (s n : Z) : M S Z :=
  match maxlen with
  | O => ret n
  | Datatypes.S maxlen =>
      c <- rd s;;
      if c =? 0 then ret n else strnlen_via rd maxlen (s + 1) (u64 (n + 1))
  end.

Section strings.
Context {S : Type} `{Bytes S}.

Fixpoint memcpy_loop (n : nat) (d s : Z) : M S unit :=
  match n with
  | O => ret tt
  | Datatypes.S n => b <- ldb s;; stb d b;;; memcpy_loop n (d + 1) (s + 1)
  end.

Definition memcpy (dst src n : Z) : M S Z :=
  memcpy_loop (Z.to_nat n) dst src;;; ret dst.

(** The loop of memmove() that copies from the end. *)
Fixpoint memmove_down (n : nat) (d s : Z) : M S unit :=
  match n with
  | O => ret tt
  | Datatypes.S n => b <- ldb (s - 1);; stb (d - 1) b;;; memmove_down n (d - 1) (s - 1)
  end.

Definition memmove (dst src n : Z) : M S Z :=
  (if (src <? dst) && (dst <? src + n) then memmove_down (Z.to_nat n) (dst + n) (src + n)
   else memcpy_loop (Z.to_nat n) dst src);;;
  ret dst.

Fixpoint memset_loop (n : nat) (p c : Z) : M S unit :=
  match n with
  | O => ret tt
  | Datatypes.S n => stb p c;;; memset_loop n (p + 1) c
  end.

Definition memset (v c n : Z) : M S Z := memset_loop (Z.to_nat n) v c;;; ret v.

Fixpoint memcmp_loop (n : nat) (sa sb : Z) : M S Z :=
  match n with
  | O => ret 0
  | Datatypes.S n =>
      x <- ldb sa;; y <- ldb sb;;
      if negb (x =? y) then ret (order x y) else memcmp_loop n (sa + 1) (sb + 1)
  end.

Definition memcmp (a b n : Z) : M S Z := memcmp_loop (Z.to_nat n) a b.

(** The answer 0 is the null pointer. *)
Fixpoint memchr_loop (n : nat) (ss c : Z) : M S Z :=
  match n with
  | O => ret 0
  | Datatypes.S n =>
      x <- ldb ss;; if x =? u8 c then ret ss else memchr_loop n (ss + 1) c
  end.

Definition memchr (s c n : Z) : M S Z := memchr_loop (Z.to_nat n) s c.

Definition strlen (s : Z) : M S Z := strlen_via ldb s.

Definition strnlen (s maxlen : Z) : M S Z := strnlen_via ldb (Z.to_nat maxlen) s 0.

(** do *d++ = *src++; while (d[-1]): the test reads the byte back. *)
Definition strcpy (dst src : Z) : M S Z :=
  loopM (fun '(d, s) =>
    b <- ldb s;; stb d b;;;
    c <- ldb d;;
    if negb (c =? 0) then ret (inl (d + 1, s + 1)) else ret (inr tt)) (dst, src);;;
  ret dst.

Fixpoint strncpy_loop (maxlen : nat) (d s : Z) : M S unit :=
  match maxlen with
  | O => ret tt
  | Datatypes.S n =>
      b <- ldb s;;
      if negb (b =? 0) then stb d b;;; strncpy_loop n (d + 1) (s + 1)
      else memset_loop maxlen d 0
  end.

Definition strncpy (dst src maxlen : Z) : M S Z :=
  strncpy_loop (Z.to_nat maxlen) dst src;;; ret dst.

(** strcmp() and strcasecmp(), with the conversion of the characters. *)
Definition strcmp_via (conv : Z -> Z) (a b : Z) : M S Z :=
  loopM (fun '(a, b) =>
    x <- ldb a;; y <- ldb b;;
    let ac := u8 (conv x) in let bc := u8 (conv y) in
    if (ac =? 0) || (bc =? 0) || negb (ac =? bc) then ret (inr (order ac bc))
    else ret (inl (a + 1, b + 1))) (a, b).

Definition strcmp (a b : Z) : M S Z := strcmp_via (fun c => c) a b.
Definition strcasecmp (a b : Z) : M S Z := strcmp_via tolower a b.

(** strncmp() and strncasecmp(): behind [n] characters both strings end. *)
Fixpoint strncmp_via (conv : Z -> Z) (n : nat) (a b : Z) : M S Z :=
  match n with
  | O => ret 0
  | Datatypes.S n =>
      x <- ldb a;; y <- ldb b;;
      let ac := u8 (conv x) in let bc := u8 (conv y) in
      if (ac =? 0) || (bc =? 0) || negb (ac =? bc) then ret (order ac bc)
      else strncmp_via conv n (a + 1) (b + 1)
  end.

Definition strncmp (a b n : Z) : M S Z := strncmp_via (fun c => c) (Z.to_nat n) a b.
Definition strncasecmp (a b n : Z) : M S Z := strncmp_via tolower (Z.to_nat n) a b.

Definition strchr (s c : Z) : M S Z :=
  loopM (fun s =>
    x <- ldb s;;
    if negb (s8 x =? 0) && negb (s8 x =? s8 c) then ret (inl (s + 1))
    else if s8 x =? s8 c then ret (inr s) else ret (inr 0)) s.

(** ** Numerals *)

Definition skip_space (s : Z) : M S Z :=
  loopM (fun s => c <- ldb s;; if isspace (s8 c) then ret (inl (s + 1)) else ret (inr s)) s.

(** The value of a digit in base [base]; [None] leaves the loop. *)
Definition digit_value (base c : Z) : option Z :=
  if (48 <=? c) && (c <? 48 + base) then Some (c - 48)
  else if (10 <? base) && (97 <=? c) && (c <? 97 + base - 10) then Some (c - 97 + 10)
  else if (10 <? base) && (65 <=? c) && (c <? 65 + base - 10) then Some (c - 65 + 10)
  else None.

(** "0x" or "0X" at [s]. *)
Definition hex_prefix (s : Z) : M S bool :=
  c <- ldb s;;
  if s8 c =? 48 then d <- ldb (s + 1);; ret ((s8 d =? 120) || (s8 d =? 88)) else ret false.

(** The base and the start of the digits. *)
Definition strtoul_base (s base : Z) : M S (Z * Z) :=
  if base =? 0 then
    h <- hex_prefix s;;
    if h then ret (16, s + 2)
    else c <- ldb s;; if s8 c =? 48 then ret (8, s) else ret (10, s)
  else if base =? 16 then h <- hex_prefix s;; if h then ret (base, s + 2) else ret (base, s)
  else ret (base, s).

(** The loop over the digits: [x], the overflow flag and the end. *)
Definition strtoul_digits (base s : Z) : M S (Z * bool * Z) :=
  loopM (fun '(x, overflow, s) =>
    c <- ldb s;;
    match digit_value base (s8 c) with
    | None => ret (inr (x, overflow, s))
    | Some digit =>
        if u64 (u64 (-1) - digit) / u64 base <? x then ret (inl (x, true, s + 1))
        else ret (inl (u64 (u64 (x * u64 base) + digit), overflow, s + 1))
    end) (0, false, s).

(** The number and the value stored through endptr. *)
Definition strtoul (s base : Z) : M S (Z * Z) :=
  s <- skip_space s;;
  c <- ldb s;;
  let negative := s8 c =? 45 in
  let s := if negative || (s8 c =? 43) then s + 1 else s in
  '(base, s) <- strtoul_base s base;;
  '(x, overflow, s) <- strtoul_digits base s;;
  let x := if overflow : bool then u64 (-1) else x in
  ret (if negative then u64 (- x) else x, s).

Definition strtol (s base : Z) : M S (Z * Z) :=
  s <- skip_space s;;
  c <- ldb s;;
  let negative := s8 c =? 45 in
  let s := if negative then s + 1 else s in
  '(u, e) <- strtoul s base;;
  let bound := Z.shiftl 1 63 - b2z (negb negative) in
  let u := if bound <? u then bound else u in
  let u := if negative then u64 (- u) else u in
  ret (s64 u, e).

End strings.

(** ** Random numbers *)

Definition RAND_MAX : Z := 0x7FFFFFFF.

(** The static variables rand_seed_set and rand_seed. *)
Record rng := mkRng { rand_seed_set : bool; rand_seed : Z }.

Definition srand (seed : Z) : M rng unit :=
  modify (fun _ => mkRng true (Z.lor (u64 (Z.shiftl seed 32)) seed)).

Definition rand : M rng Z :=
  s <- get;;
  (if negb (rand_seed_set s) then srand 819234718 else ret tt);;;
  modify (fun s => mkRng (rand_seed_set s) (u64 (u64 (rand_seed s * 6364136223846793005) + 1)));;;
  s <- get;;
  ret (s32 (Z.land (Z.shiftr (rand_seed s) 32) RAND_MAX)).

(** Arithmetic on int: a result that does not fit is undefined. *)
Definition int {S} (x : Z) : M S Z :=
  if (- 2 ^ 31 <=? x) && (x <? 2 ^ 31) then ret x else fail UB.

Definition rand_range (min max : Z) : M rng Z :=
  c_assert (min <=? max);;;
  d <- int (max - min);;
  c_assert (d <=? RAND_MAX);;;
  r <- rand;;
  n <- int (d + 1);;
  ret (s32 (u64 (u64 min + u64 (r * u64 n) / (RAND_MAX + 1)))).

(** ** Arithmetic *)

(** __builtin_clz() and __builtin_ffs() at width [w]. *)
Definition clz (w x : Z) : Z := w - 1 - Z.log2 (wrapU w x).
Fixpoint ffs_pos (p : positive) : Z :=
  match p with xO p => 1 + ffs_pos p | _ => 1 end.
Definition ffs (w x : Z) : Z :=
  match wrapU w x with Zpos p => ffs_pos p | _ => 0 end.

Definition msb (w x : Z) : Z := if negb (x =? 0) then w - clz w x else 0.
Definition lsb (w x : Z) : Z := ffs w x.

(** T(1) << n, undefined for [n] outside the type. *)
Definition shl1 (w n : Z) : res Z :=
  if (0 <=? n) && (n <? w) then Ok (wrapU w (Z.shiftl 1 n)) else Err UB.

Definition round_down_pow2 (w x : Z) : res Z := if negb (x =? 0) then shl1 w (msb w x - 1) else Ok 0.
Definition round_up_pow2 (w x : Z) : res Z := if negb (x =? 0) then shl1 w (msb w (wrapU w (x - 1))) else Ok 0.
