(* ===== verification/LibProofs.v ===== *)
(** * Laws of the C library

    What the functions of [Lib] do on any memory that satisfies [BytesLaws]:
    block operations as the store of a list of bytes, string functions as
    functions on lists of characters, numerals as numbers. *)
From stdpp Require Import prelude gmap list.
From Stdlib Require Import ZArith Lia.
From S2P Require Import Prelude Memory Vm Lib.
Open Scope Z_scope.
Open Scope c_scope.

(** ** Memories *)

Class BytesLaws (S : Type) `{Bytes S} := {
  peek_poke a v s b :
    is_Some (peek s a) -> peek (poke a v s) b = if decide (b = a) then Some v else peek s b;
  poke_comm a v b w s : a <> b -> poke a v (poke b w s) = poke b w (poke a v s);
  poke_twice a v w s : poke a v (poke a w s) = poke a v s
}.

#[export] Instance cmem_laws : BytesLaws cmem.
Proof.
  split; cbn.
  - intros a v m b _. case_decide; [subst; apply lookup_insert_eq|by apply lookup_insert_ne].
  - intros. by apply insert_insert_ne.
  - intros. apply insert_insert_eq.
Qed.

#[export] Instance vm_laws : BytesLaws vm.
Proof.
  split; cbn.
  - intros a v s b [x Hx]. case_decide; [subst b|].
    + destruct (kernel_can_access a 1); [|done]. by rewrite byte_at_set, decide_True.
    + destruct (kernel_can_access b 1); [|done]. by rewrite byte_at_set, decide_False.
  - intros a v b w s Hab. unfold set_byte; cbn. do 2 f_equal. by apply insert_insert_ne.
  - intros. unfold set_byte; cbn. do 2 f_equal. apply insert_insert_eq.
Qed.

(** ** Loops *)

(** [runs body n l s a s']: the loop leaves after [n] iterations. *)
Inductive runs {S L A} (body : L -> M S (L + A)) : nat -> L -> S -> A -> S -> Prop :=
  | runs_done l s a s' : body l s = Ok (inr a, s') -> runs body 1 l s a s'
  | runs_step n l s l1 s1 a s' :
      body l s = Ok (inl l1, s1) -> runs body n l1 s1 a s' -> runs body (Datatypes.S n) l s a s'.

Lemma loopM_runs {S L A} (body : L -> M S (L + A)) n l s a s' :
  runs body n l s a s' -> Z.of_nat n <= 2 ^ 64 -> loopM body l s = Ok (a, s').
Proof.
  intros Hr Hn. unfold loopM. eapply loop_nat; [|exact Hn].
  clear Hn. induction Hr as [? ? ? ? E|? ? ? ? ? ? ? E _ IH]; cbn [iter_nat]; by rewrite E.
Qed.

(** ** Contents of memory *)

Abbreviation byte b := (0 <= b < 256).
Abbreviation char b := (0 < b < 256).

Lemma u8_byte b : byte b -> u8 b = b.
Proof. intros. by apply wrapU_small. Qed.

Section contents.
Context {S : Type} `{BytesLaws S}.
Implicit Types (s : S) (a d : Z) (l : list Z).

Definition bytes_at s a l : Prop := forall i b, l !! i = Some b -> peek s (a + Z.of_nat i) = Some b.
Definition mapped s a n : Prop := forall b, a <= b < a + n -> is_Some (peek s b).
(** A string with its terminator. *)
Definition str_at s a l : Prop := bytes_at s a (l ++ [0]) /\ Forall (fun c => char c) l.

Fixpoint pokes a l s : S :=
  match l with
  | [] => s
  | b :: l => pokes (a + 1) l (poke a b s)
  end.

Lemma bytes_at_cons s a b l : bytes_at s a (b :: l) <-> peek s a = Some b /\ bytes_at s (a + 1) l.
Proof.
  split.
  - intros Hl. split; [rewrite <- (Z.add_0_r a); by apply (Hl 0%nat)|].
    intros i c Hi. rewrite <- (Hl (Datatypes.S i) c Hi). f_equal. lia.
  - intros [Hb Hl] [|i] c Hi; cbn in Hi; [simplify_eq; by rewrite Z.add_0_r|].
    rewrite <- (Hl i c Hi). f_equal. lia.
Qed.

Lemma bytes_at_app s a l k :
  bytes_at s a (l ++ k) <-> bytes_at s a l /\ bytes_at s (a + Z.of_nat (length l)) k.
Proof.
  revert a. induction l as [|b l IH]; intros a; cbn [app length].
  - rewrite Z.add_0_r. split; [|by intros [_ ?]]. intros Hk. split; [by intros ? ?|done].
  - rewrite !bytes_at_cons, IH, Nat2Z.inj_succ.
    replace (a + Z.succ (Z.of_nat (length l))) with (a + 1 + Z.of_nat (length l)) by lia. tauto.
Qed.

Lemma bytes_at_next s a l r c k : bytes_at s a (l ++ r) -> r = c :: k -> bytes_at s a (l ++ [c]).
Proof.
  intros Hl ->. apply bytes_at_app in Hl as [Hl Hr]. apply bytes_at_cons in Hr as [Hc _].
  apply bytes_at_app. split; [done|]. apply bytes_at_cons. split; [done|by intros ? ?].
Qed.

Lemma bytes_at_mapped s a l : bytes_at s a l -> mapped s a (Z.of_nat (length l)).
Proof.
  intros Hl b Hb. destruct (lookup_lt_is_Some_2 l (Z.to_nat (b - a))) as [x Hx]; [lia|].
  exists x. rewrite <- (Hl _ _ Hx). f_equal. lia.
Qed.

Lemma bytes_at_poke s a l d v :
  bytes_at s a l -> is_Some (peek s d) -> d < a \/ a + Z.of_nat (length l) <= d ->
  bytes_at (poke d v s) a l.
Proof.
  intros Hl Hd Ho i b Hi. pose proof (lookup_lt_Some _ _ _ Hi).
  rewrite peek_poke by done. rewrite decide_False by lia. by apply Hl.
Qed.

Lemma mapped_poke s a n d v : mapped s a n -> is_Some (peek s d) -> mapped (poke d v s) a n.
Proof. intros Hm Hd b Hb. rewrite peek_poke by done. case_decide; [done|]. by apply Hm. Qed.

Lemma mapped_sub s a n b k : mapped s a n -> a <= b -> b + k <= a + n -> mapped s b k.
Proof. intros Hm ? ? c Hc. apply Hm. lia. Qed.

Lemma pokes_poke a l d v s :
  d < a \/ a + Z.of_nat (length l) <= d -> pokes a l (poke d v s) = poke d v (pokes a l s).
Proof.
  revert a s. induction l as [|b l IH]; intros a s Hd; [done|]. cbn [length] in Hd. cbn [pokes].
  rewrite poke_comm by lia. apply IH. lia.
Qed.

Lemma pokes_snoc a l b s : pokes a (l ++ [b]) s = poke (a + Z.of_nat (length l)) b (pokes a l s).
Proof.
  revert a s. induction l as [|c l IH]; intros a s; cbn [app pokes length]; [by rewrite Z.add_0_r|].
  rewrite IH. f_equal. lia.
Qed.

Lemma pokes_app a l k s : pokes a (l ++ k) s = pokes (a + Z.of_nat (length l)) k (pokes a l s).
Proof.
  revert a s. induction l as [|b l IH]; intros a s; cbn [app pokes length]; [by rewrite Z.add_0_r|].
  rewrite IH. f_equal. lia.
Qed.

(** What is in memory after a block was stored. *)
Lemma peek_pokes a l s b :
  mapped s a (Z.of_nat (length l)) ->
  peek (pokes a l s) b =
  if decide (a <= b < a + Z.of_nat (length l)) then l !! Z.to_nat (b - a) else peek s b.
Proof.
  revert a s. induction l as [|x l IH]; intros a s Hm; cbn [pokes length] in *.
  { by rewrite decide_False by lia. }
  assert (is_Some (peek s a)) by (apply Hm; lia).
  rewrite IH by (apply mapped_poke; [eapply mapped_sub; [done|lia..]|done]).
  rewrite peek_poke by done. repeat case_decide; try lia.
  - replace (Z.to_nat (b - a)) with (Datatypes.S (Z.to_nat (b - (a + 1)))) by lia. done.
  - subst. by rewrite Z.sub_diag.
  - done.
Qed.

(** [s'] is [s] after stores to mapped addresses in [P]. *)
Inductive touches (P : Z -> Prop) : S -> S -> Prop :=
  | touches_refl s : touches P s s
  | touches_poke a v s s' : P a -> is_Some (peek s a) -> touches P (poke a v s) s' -> touches P s s'.

Lemma touches_trans P s1 s2 s3 : touches P s1 s2 -> touches P s2 s3 -> touches P s1 s3.
Proof. intros H12 H23. induction H12 as [|a v s1 s2 Ha Hs _ IH]; [done|]. eapply touches_poke; eauto. Qed.

Lemma touches_mono (P Q : Z -> Prop) s s' : (forall a, P a -> Q a) -> touches P s s' -> touches Q s s'.
Proof. intros HPQ HP. induction HP as [|a v s s' Ha Hs _ IH]; [constructor|]. eapply touches_poke; eauto. Qed.

Lemma touches_peek P s s' b : touches P s s' -> ~ P b -> peek s' b = peek s b.
Proof.
  intros HP Hb. induction HP as [|a v s s' Ha Hs _ IH]; [done|]. rewrite IH, peek_poke by done.
  rewrite decide_False; [done|]. by intros ->.
Qed.

Lemma touches_pokes (P : Z -> Prop) a l s :
  mapped s a (Z.of_nat (length l)) -> (forall b, a <= b < a + Z.of_nat (length l) -> P b) -> touches P s (pokes a l s).
Proof.
  revert a s. induction l as [|x l IH]; intros a s Hm HP; cbn [pokes length] in *; [constructor|].
  assert (Ha : is_Some (peek s a)) by (apply Hm; lia). apply (touches_poke P a x); [apply HP; lia|done|].
  apply IH; [|intros b Hb; apply HP; lia]. intros b Hb. apply (mapped_poke s a _ a x Hm Ha). lia.
Qed.

Lemma bytes_at_pokes a l s : mapped s a (Z.of_nat (length l)) -> bytes_at (pokes a l s) a l.
Proof.
  intros Hm i b Hi. pose proof (lookup_lt_Some _ _ _ Hi).
  rewrite peek_pokes, decide_True by (done || lia). by rewrite Z.add_simpl_l, Nat2Z.id.
Qed.

Lemma bytes_at_pokes_out a l s c k :
  mapped s a (Z.of_nat (length l)) -> bytes_at s c k ->
  c + Z.of_nat (length k) <= a \/ a + Z.of_nat (length l) <= c -> bytes_at (pokes a l s) c k.
Proof.
  intros Hm Hk Ho i b Hi. pose proof (lookup_lt_Some _ _ _ Hi).
  rewrite peek_pokes, decide_False by (done || lia). by apply Hk.
Qed.

(** Accesses. *)
Lemma ldb_run s a b : peek s a = Some b -> ldb a s = Ok (b, s).
Proof. intros E. unfold ldb. by rewrite E. Qed.

Lemma stb_run s a v : is_Some (peek s a) -> stb a v s = Ok (tt, poke a (u8 v) s).
Proof. intros [x E]. unfold stb. by rewrite E. Qed.

End contents.

(** ** Blocks *)

Section blocks.
Context {S : Type} `{BytesLaws S}.
Implicit Types (s : S).

Lemma memcpy_loop_run l d p s :
  bytes_at s p l -> Forall (fun b => byte b) l -> mapped s d (Z.of_nat (length l)) ->
  ~ (p < d < p + Z.of_nat (length l)) ->
  memcpy_loop (length l) d p s = Ok (tt, pokes d l s).
Proof.
  revert d p s. induction l as [|b l IH]; intros d p s Hl Hb Hm Ho; [done|].
  cbn [length] in *. apply bytes_at_cons in Hl as [Hx Hl]. apply Forall_cons in Hb as [Hb Hbl].
  cbn [memcpy_loop pokes]. rewrite (bind_ok _ _ _ _ _ (ldb_run _ _ _ Hx)).
  assert (Hd : is_Some (peek s d)) by (apply Hm; lia).
  rewrite (bind_ok _ _ _ _ _ (stb_run _ _ _ Hd)), u8_byte by done.
  apply IH; [|done| |lia].
  - apply bytes_at_poke; [done..|lia].
  - apply mapped_poke; [|done]. eapply mapped_sub; [done|lia..].
Qed.

Lemma memmove_down_run l d p s :
  bytes_at s p l -> Forall (fun b => byte b) l -> mapped s d (Z.of_nat (length l)) -> p < d ->
  memmove_down (length l) (d + Z.of_nat (length l)) (p + Z.of_nat (length l)) s = Ok (tt, pokes d l s).
Proof.
  revert s. induction l as [|b l IH] using rev_ind; intros s Hl Hb Hm Ho; [done|].
  rewrite length_app, Nat.add_1_r, Nat2Z.inj_succ in *. cbn [memmove_down].
  replace (p + Z.succ (Z.of_nat (length l)) - 1) with (p + Z.of_nat (length l)) by lia.
  replace (d + Z.succ (Z.of_nat (length l)) - 1) with (d + Z.of_nat (length l)) by lia.
  apply bytes_at_app in Hl as [Hl Hx]. apply bytes_at_cons in Hx as [Hx _].
  apply Forall_app in Hb as [Hbl Hb]. apply Forall_cons in Hb as [Hb _].
  rewrite (bind_ok _ _ _ _ _ (ldb_run _ _ _ Hx)).
  assert (Hd : is_Some (peek s (d + Z.of_nat (length l)))) by (apply Hm; lia).
  rewrite (bind_ok _ _ _ _ _ (stb_run _ _ _ Hd)), u8_byte by done.
  rewrite IH; [by rewrite pokes_poke, pokes_snoc by lia| |done| |done].
  - apply bytes_at_poke; [done..|lia].
  - apply mapped_poke; [|done]. eapply mapped_sub; [done|lia..].
Qed.

Lemma memset_loop_run n p c s :
  mapped s p (Z.of_nat n) -> memset_loop n p c s = Ok (tt, pokes p (replicate n (u8 c)) s).
Proof.
  revert p s. induction n as [|n IH]; intros p s Hm; [done|]. cbn [memset_loop replicate pokes].
  assert (Hd : is_Some (peek s p)) by (apply Hm; lia).
  rewrite (bind_ok _ _ _ _ _ (stb_run _ _ _ Hd)). apply IH.
  apply mapped_poke; [|done]. eapply mapped_sub; [done|lia..].
Qed.

Lemma memcpy_run l d p s :
  bytes_at s p l -> Forall (fun b => byte b) l -> mapped s d (Z.of_nat (length l)) ->
  p + Z.of_nat (length l) <= d \/ d <= p ->
  memcpy d p (Z.of_nat (length l)) s = Ok (d, pokes d l s).
Proof.
  intros. unfold memcpy. rewrite Nat2Z.id. erewrite bind_ok; [done|]. apply memcpy_loop_run; [done..|lia].
Qed.

(** memmove() needs no condition on the overlap. *)
Lemma memmove_run l d p s :
  bytes_at s p l -> Forall (fun b => byte b) l -> mapped s d (Z.of_nat (length l)) ->
  memmove d p (Z.of_nat (length l)) s = Ok (d, pokes d l s).
Proof.
  intros Hl Hb Hm. unfold memmove. rewrite Nat2Z.id. erewrite bind_ok; [done|].
  destruct (Z.ltb_spec p d), (Z.ltb_spec d (p + Z.of_nat (length l))); cbn [andb];
    (apply memmove_down_run + apply memcpy_loop_run); done || lia.
Qed.

Lemma memset_run n p c s :
  mapped s p n -> 0 <= n -> memset p c n s = Ok (p, pokes p (replicate (Z.to_nat n) (u8 c)) s).
Proof.
  intros Hm Hn. unfold memset. erewrite bind_ok; [done|]. apply memset_loop_run. by rewrite Z2Nat.id.
Qed.
End blocks.

(** ** Strings *)

(** The lexicographic order of two strings, as a sign. *)
Fixpoint lex (x y : list Z) : Z :=
  match x, y with
  | [], [] => 0
  | [], _ => -1
  | _, [] => 1
  | a :: x, b :: y => if a =? b then lex x y else order a b
  end.

Section strings.
Context {S : Type} `{BytesLaws S}.
Implicit Types (s : S) (l : list Z).

(** Peeling one character off a string. *)
Lemma str_at_nil s a : str_at s a [] <-> peek s a = Some 0.
Proof.
  unfold str_at. cbn [app]. rewrite bytes_at_cons. split; [tauto|].
  intros. split; [split; [done|by intros ? ?]|constructor].
Qed.

Lemma str_at_cons s a c l : str_at s a (c :: l) <-> peek s a = Some c /\ char c /\ str_at s (a + 1) l.
Proof. unfold str_at. cbn [app]. rewrite bytes_at_cons, Forall_cons. tauto. Qed.

Lemma str_at_byte s a l : str_at s a l -> Forall (fun b => byte b) (l ++ [0]).
Proof.
  intros [_ Hl]. apply Forall_app; split; [|repeat constructor; lia].
  eapply Forall_impl; [exact Hl|]. cbn. lia.
Qed.

(** A string or, at the end, a terminator: what every loop over a string reads
    first. *)
Lemma str_at_first s a l : str_at s a l -> peek s a = Some (hd 0 l).
Proof. destruct l; [by rewrite str_at_nil|rewrite str_at_cons; tauto]. Qed.

Lemma str_at_suffix s a l k : str_at s a (l ++ k) -> str_at s (a + Z.of_nat (length l)) k.
Proof.
  revert a. induction l as [|c l IH]; intros a; cbn [app length]; [by rewrite Z.add_0_r|].
  rewrite str_at_cons. intros (_ & _ & Hk). replace (a + Z.of_nat (Datatypes.S (length l))) with (a + 1 + Z.of_nat (length l)) by lia. by apply IH.
Qed.

Lemma strlen_runs (rd : Z -> M S Z) s l p n :
  (forall i c, (l ++ [0]) !! i = Some c -> rd (p + Z.of_nat i) s = Ok (c, s)) ->
  no_nul l -> 0 <= n -> n + Z.of_nat (length l) < 2 ^ 64 ->
  runs (fun '(q, n) => c <- rd q;; if c =? 0 then ret (inr n) else ret (inl (q + 1, u64 (n + 1))))
       (length l + 1) (p, n) s (n + Z.of_nat (length l)) s.
Proof.
  revert p n. induction l as [|c l IH]; intros p n Hrd Hl Hn Hb; cbn [length] in *.
  - constructor. erewrite bind_ok by (rewrite <- (Z.add_0_r p); by apply (Hrd 0%nat)). cbn.
    by rewrite Z.add_0_r.
  - apply Forall_cons in Hl as [Hc Hl]. rewrite Nat.add_succ_l.
    eapply runs_step with (l1 := (p + 1, u64 (n + 1))).
    + erewrite bind_ok by (rewrite <- (Z.add_0_r p); by apply (Hrd 0%nat)).
      by rewrite (proj2 (Z.eqb_neq _ _) Hc).
    + rewrite wrapU_small by lia.
      replace (n + Z.of_nat (Datatypes.S (length l))) with (n + 1 + Z.of_nat (length l)) by lia.
      apply IH; [|done|lia..]. intros i d Hi. rewrite <- (Hrd (Datatypes.S i) d Hi). f_equal. lia.
Qed.

Lemma strlen_via_run (rd : Z -> M S Z) s l p :
  (forall i c, (l ++ [0]) !! i = Some c -> rd (p + Z.of_nat i) s = Ok (c, s)) ->
  no_nul l -> Z.of_nat (length l) < 2 ^ 64 -> strlen_via rd p s = Ok (Z.of_nat (length l), s).
Proof.
  intros Hrd Hl Hn. eapply loopM_runs; [|instantiate (1 := (length l + 1)%nat); lia]. by apply (strlen_runs rd s l p 0).
Qed.

(** strnlen() reads at most [maxlen] characters, so the terminator may be missing. *)
Lemma strnlen_via_run (rd : Z -> M S Z) s l p n maxlen :
  (forall i c, (i < maxlen)%nat -> (l ++ [0]) !! i = Some c -> rd (p + Z.of_nat i) s = Ok (c, s)) ->
  no_nul l -> 0 <= n -> n + Z.of_nat (length l) < 2 ^ 64 ->
  strnlen_via rd maxlen p n s = Ok (n + Z.of_nat (maxlen `min` length l), s).
Proof.
  revert p n maxlen. induction l as [|c l IH]; intros p n [|maxlen] Hrd Hl Hn Hb; cbn [strnlen_via length] in *;
    try (by rewrite Z.add_0_r).
  - erewrite bind_ok by (rewrite <- (Z.add_0_r p); apply (Hrd 0%nat); [lia|done]). cbn.
    by rewrite Z.add_0_r.
  - apply Forall_cons in Hl as [Hc Hl].
    erewrite bind_ok by (rewrite <- (Z.add_0_r p); apply (Hrd 0%nat); [lia|done]).
    rewrite (proj2 (Z.eqb_neq _ _) Hc), wrapU_small, IH; [do 2 f_equal; lia| |done|lia..].
    intros i d Hi Hd. rewrite <- (Hrd (Datatypes.S i) d ltac:(lia) Hd). f_equal. lia.
Qed.

Lemma str_at_no_nul s a l : str_at s a l -> no_nul l.
Proof. intros [_ Hl]. eapply Forall_impl; [exact Hl|]. cbn. lia. Qed.

Lemma strlen_run s a l : str_at s a l -> Z.of_nat (length l) < 2 ^ 64 -> strlen a s = Ok (Z.of_nat (length l), s).
Proof.
  intros Hl Hn. apply strlen_via_run; [|by eapply str_at_no_nul|done].
  intros i c Hi. apply ldb_run. by apply Hl.
Qed.

Lemma strnlen_run s a l n :
  str_at s a l -> Z.of_nat (length l) < 2 ^ 64 -> 0 <= n ->
  strnlen a n s = Ok (n `min` Z.of_nat (length l), s).
Proof.
  intros Hl Hn Hp. unfold strnlen.
  rewrite (strnlen_via_run _ s l); [do 2 f_equal; lia| |by eapply str_at_no_nul|lia..].
  intros i c _ Hi. apply ldb_run. by apply Hl.
Qed.

(** Comparison. *)
Section compare.
Context (conv : Z -> Z) (conv_char : forall c, char c -> char (conv c)) (conv_0 : conv 0 = 0).

Lemma conv_u8 c : byte c -> u8 (conv c) = conv c.
Proof.
  intros. apply u8_byte. destruct (decide (c = 0)) as [->|]; [lia|].
  pose proof (conv_char c). lia.
Qed.

Let body := (fun '(a, b) =>
  x <- ldb a;; y <- ldb b;;
  let ac := u8 (conv x) in let bc := u8 (conv y) in
  if (ac =? 0) || (bc =? 0) || negb (ac =? bc) then ret (inr (order ac bc))
  else ret (inl (a + 1, b + 1))) : Z * Z -> M S (Z * Z + Z).

(** One iteration, in terms of the first characters. *)
Lemma strcmp_step s x y a b :
  str_at s a x -> str_at s b y ->
  body (a, b) s =
  let ac := conv (hd 0 x) in let bc := conv (hd 0 y) in
  Ok (if (ac =? 0) || (bc =? 0) || negb (ac =? bc) then inr (order ac bc) else inl (a + 1, b + 1), s).
Proof.
  assert (Hb : forall a l, str_at s a l -> byte (hd 0 l)).
  { intros p [|c l]; cbn; [lia|]. rewrite str_at_cons. lia. }
  intros Hx Hy. unfold body.
  rewrite (bind_ok _ _ _ _ _ (ldb_run _ _ _ (str_at_first _ _ _ Hx))).
  rewrite (bind_ok _ _ _ _ _ (ldb_run _ _ _ (str_at_first _ _ _ Hy))).
  rewrite !conv_u8 by eauto. cbv zeta. by destruct (_ || _).
Qed.

Lemma strcmp_runs s x y a b :
  str_at s a x -> str_at s b y ->
  exists n, (n <= length x + 1)%nat /\ runs body n (a, b) s (lex (conv <$> x) (conv <$> y)) s.
Proof.
  revert a b y. induction x as [|c x IH]; intros a b y Hx Hy; pose proof (strcmp_step _ _ _ _ _ Hx Hy) as E.
  - exists 1%nat. split; [cbn; lia|]. constructor. rewrite E. cbn [hd]. rewrite conv_0. cbn [Z.eqb orb].
    destruct y as [|d y]; cbn [hd fmap list_fmap lex]; [by rewrite conv_0|].
    apply str_at_cons in Hy as (_ & Hd%conv_char & _). unfold order.
    by rewrite (proj2 (Z.ltb_ge _ _)), (proj2 (Z.ltb_lt 0 _)) by lia.
  - apply str_at_cons in Hx as (_ & Hc%conv_char & Hx). cbn [hd] in E.
    destruct y as [|d y]; cbn [hd fmap list_fmap lex] in *.
    + exists 1%nat. split; [lia|]. constructor. rewrite E, conv_0, orb_true_r. cbn [orb]. unfold order.
      by rewrite (proj2 (Z.ltb_lt 0 _)), (proj2 (Z.ltb_ge _ 0)) by lia.
    + apply str_at_cons in Hy as (_ & Hd%conv_char & Hy).
      rewrite !(proj2 (Z.eqb_neq _ 0)) in E by lia. cbn [orb] in E.
      revert E. destruct (Z.eqb_spec (conv c) (conv d)) as [Ecd|Ecd]; intros E.
      * destruct (IH (a + 1) (b + 1) y Hx Hy) as (n & Hn & Hr).
        exists (Datatypes.S n). split; [cbn; lia|]. eapply runs_step; [exact E|exact Hr].
      * exists 1%nat. split; [lia|]. constructor. exact E.
Qed.

Lemma strcmp_via_run s x y a b :
  str_at s a x -> str_at s b y -> Z.of_nat (length x) < 2 ^ 64 ->
  strcmp_via conv a b s = Ok (lex (conv <$> x) (conv <$> y), s).
Proof.
  intros Hx Hy Hn. destruct (strcmp_runs s x y a b Hx Hy) as (n & Hb & Hr).
  eapply loopM_runs; [exact Hr|lia].
Qed.
End compare.

(** Copies. *)
Lemma strcpy_runs s d p l :
  str_at s p l -> mapped s d (Z.of_nat (length l) + 1) -> ~ (p < d <= p + Z.of_nat (length l)) ->
  runs (fun '(d, p) => b <- ldb p;; stb d b;;; c <- ldb d;;
          if negb (c =? 0) then ret (inl (d + 1, p + 1)) else ret (inr tt))
       (length l + 1) (d, p) s tt (pokes d (l ++ [0]) s).
Proof.
  revert s d p. induction l as [|c l IH]; intros s d p Hl Hm Ho; cbn [length app pokes] in *;
    pose proof (str_at_first _ _ _ Hl) as Hp; cbn [hd] in Hp;
    assert (Hd : is_Some (peek s d)) by (apply Hm; lia);
    assert (Hc : forall v, peek (poke d v s) d = Some v) by (intros; by rewrite peek_poke, decide_True).
  - constructor. rewrite (bind_ok _ _ _ _ _ (ldb_run _ _ _ Hp)), (bind_ok _ _ _ _ _ (stb_run _ _ _ Hd)).
    by rewrite (bind_ok _ _ _ _ _ (ldb_run _ _ _ (Hc _))).
  - apply str_at_cons in Hl as (_ & Hb & Hl).
    eapply runs_step with (l1 := (d + 1, p + 1)) (s1 := poke d c s).
    + rewrite (bind_ok _ _ _ _ _ (ldb_run _ _ _ Hp)), (bind_ok _ _ _ _ _ (stb_run _ _ _ Hd)).
      rewrite (bind_ok _ _ _ _ _ (ldb_run _ _ _ (Hc _))), u8_byte by lia.
      by rewrite (proj2 (Z.eqb_neq _ _)) by lia.
    + apply IH; [|apply mapped_poke; [eapply mapped_sub; [done|lia..]|done]|lia].
      destruct Hl as [Hl Hch]. split; [|done]. apply bytes_at_poke; [done..|].
      rewrite length_app; cbn [length]; lia.
Qed.

Lemma strcpy_run s d p l :
  str_at s p l -> mapped s d (Z.of_nat (length l) + 1) -> ~ (p < d <= p + Z.of_nat (length l)) ->
  Z.of_nat (length l) < 2 ^ 64 -> strcpy d p s = Ok (d, pokes d (l ++ [0]) s).
Proof.
  intros. unfold strcpy. erewrite bind_ok; [done|].
  eapply loopM_runs; [by apply strcpy_runs|lia].
Qed.

(** strncpy() fills the rest of the buffer and does not terminate a string
    that is too long. *)
Lemma strncpy_loop_run s d p l n :
  str_at s p l -> mapped s d (Z.of_nat n) -> p + Z.of_nat (length l) < d \/ d + Z.of_nat n <= p ->
  strncpy_loop n d p s = Ok (tt, pokes d (take n l ++ replicate (n - length l) 0) s).
Proof.
  revert s d p n. induction l as [|c l IH]; intros s d p [|n] Hl Hm Ho; cbn [length] in *; try done;
    pose proof (str_at_first _ _ _ Hl) as Hp; cbn [hd] in Hp; cbn [strncpy_loop];
    rewrite (bind_ok _ _ _ _ _ (ldb_run _ _ _ Hp)).
  - change (negb (0 =? 0)) with false. cbv iota. by rewrite memset_loop_run.
  - apply str_at_cons in Hl as (_ & Hb & Hl). rewrite (proj2 (Z.eqb_neq c 0)) by lia. cbn [negb].
    assert (Hd : is_Some (peek s d)) by (apply Hm; lia).
    rewrite (bind_ok _ _ _ _ _ (stb_run _ _ _ Hd)), u8_byte by lia. cbn [take app pokes].
    replace (Datatypes.S n - Datatypes.S (length l))%nat with (n - length l)%nat by lia.
    apply IH; [|apply mapped_poke; [eapply mapped_sub; [done|lia..]|done]|lia].
    destruct Hl as [Hl Hch]. split; [|done]. apply bytes_at_poke; [done..|].
    rewrite length_app; cbn [length]; lia.
Qed.

(** Searching. *)
Lemma s8_inj x y : byte x -> byte y -> s8 x = s8 y -> x = y.
Proof. unfold wrapS. change (2 ^ (8 - 1)) with 128. change (2 ^ 8) with 256. intros. Z.to_euclidean_division_equations. lia. Qed.

Lemma s8_eqb x y : byte x -> byte y -> (s8 x =? s8 y) = (x =? y).
Proof.
  intros. destruct (Z.eqb_spec x y) as [->|]; [by rewrite Z.eqb_refl|].
  apply Z.eqb_neq. by intros ?%s8_inj.
Qed.

(** The first position of [c], counting from [i]. *)
Fixpoint index_of (c : Z) (l : list Z) : option nat :=
  match l with
  | [] => None
  | x :: l => if x =? c then Some O else Datatypes.S <$> index_of c l
  end.

Definition strchr_answer (a c : Z) (l : list Z) : Z :=
  match index_of c (l ++ [0]) with Some i => a + Z.of_nat i | None => 0 end.

Lemma strchr_run s a l c :
  str_at s a l -> byte c -> Z.of_nat (length l) < 2 ^ 64 ->
  strchr a c s = Ok (strchr_answer a c l, s).
Proof.
  intros Hl Hc Hn.
  set (body := fun q => x <- ldb q;;
    if negb (s8 x =? 0) && negb (s8 x =? s8 c) then ret (inl (q + 1))
    else if s8 x =? s8 c then ret (inr q) else ret (inr 0)).
  assert (Hr : exists n, (n <= length l + 1)%nat /\ runs body n a s (strchr_answer a c l) s).
  2: { destruct Hr as (n & Hb & Hr). eapply loopM_runs; [exact Hr|lia]. }
  clear Hn. revert a Hl. unfold strchr_answer. induction l as [|x l IH]; intros a Hl;
    pose proof (str_at_first _ _ _ Hl) as Hp; cbn [hd length app index_of] in *.
  - exists 1%nat. split; [lia|]. constructor. unfold body. rewrite (bind_ok _ _ _ _ _ (ldb_run _ _ _ Hp)).
    change (s8 0 =? 0) with true. cbn [negb andb]. rewrite s8_eqb by lia.
    destruct (0 =? c); [by rewrite Z.add_0_r|done].
  - apply str_at_cons in Hl as (_ & Hx & Hl).
    assert (E : (s8 x =? 0) = false).
    { change 0 with (s8 0). rewrite s8_eqb by lia. apply Z.eqb_neq. lia. }
    destruct (x =? c) eqn:Exc.
    + exists 1%nat. split; [lia|]. constructor. unfold body. rewrite (bind_ok _ _ _ _ _ (ldb_run _ _ _ Hp)).
      rewrite E, s8_eqb, Exc by lia. by rewrite Z.add_0_r.
    + destruct (IH (a + 1) Hl) as (n & Hn & Hr). exists (Datatypes.S n). split; [lia|].
      replace (match Datatypes.S <$> index_of c (l ++ [0]) with Some i => a + Z.of_nat i | None => 0 end)
        with (match index_of c (l ++ [0]) with Some i => a + 1 + Z.of_nat i | None => 0 end)
        by (destruct (index_of c (l ++ [0])); cbn; lia).
      eapply runs_step; [|exact Hr]. unfold body. rewrite (bind_ok _ _ _ _ _ (ldb_run _ _ _ Hp)).
      by rewrite E, s8_eqb, Exc by lia.
Qed.

Lemma memchr_run s a l c :
  bytes_at s a l ->
  memchr a c (Z.of_nat (length l)) s =
  Ok (match index_of (u8 c) l with Some i => a + Z.of_nat i | None => 0 end, s).
Proof.
  unfold memchr. rewrite Nat2Z.id. revert a. induction l as [|x l IH]; intros a Hl; [done|].
  apply bytes_at_cons in Hl as [Hx Hl]. cbn [length memchr_loop index_of].
  rewrite (bind_ok _ _ _ _ _ (ldb_run _ _ _ Hx)). destruct (x =? u8 c); [by rewrite Z.add_0_r|].
  rewrite IH by done. destruct (index_of (u8 c) l); cbn; do 2 f_equal; lia.
Qed.

Lemma memcmp_run s a b x y :
  bytes_at s a x -> bytes_at s b y -> length x = length y ->
  memcmp a b (Z.of_nat (length x)) s = Ok (lex x y, s).
Proof.
  unfold memcmp. rewrite Nat2Z.id. revert a b y. induction x as [|c x IH]; intros a b [|d y] Hx Hy E; try done.
  apply bytes_at_cons in Hx as [Hc Hx]. apply bytes_at_cons in Hy as [Hd Hy].
  cbn [length memcmp_loop lex]. rewrite (bind_ok _ _ _ _ _ (ldb_run _ _ _ Hc)), (bind_ok _ _ _ _ _ (ldb_run _ _ _ Hd)).
  destruct (c =? d); cbn [negb]; [|done]. apply IH; [done..|by simplify_eq/=].
Qed.
End strings.

(** ** Numerals *)

(** The number a list of digits denotes after [x]. *)
Definition value_from (base x : Z) (ds : list Z) : Z := fold_left (fun x d => x * base + d) ds x.
Abbreviation value base := (value_from base 0).

Definition ULONG_MAX : Z := 2 ^ 64 - 1.

(** The characters [cs] spell the digits [ds]. *)
Definition spells (base : Z) (cs ds : list Z) : Prop :=
  Forall2 (fun c d => digit_value base (s8 c) = Some d) cs ds.

Lemma digit_value_range base c d : digit_value base c = Some d -> 0 <= d < base.
Proof.
  unfold digit_value. intros E.
  repeat match type of E with
  | (if ?b then _ else _) = _ => destruct b eqn:?; simplify_eq/=
  end; rewrite ?andb_true_iff, ?Z.leb_le, ?Z.ltb_lt in *; lia.
Qed.

Lemma value_from_mono base x ds :
  1 <= base -> 0 <= x -> Forall (fun d => 0 <= d) ds -> x <= value_from base x ds.
Proof.
  intros Hb Hx Hd. revert x Hx. induction Hd as [|d ds Hd _ IH]; intros x Hx; [done|].
  cbn [value_from fold_left]. transitivity (x * base + d); [nia|]. apply IH. nia.
Qed.

Lemma value_from_app base x ds es : value_from base x (ds ++ es) = value_from base (value_from base x ds) es.
Proof. apply fold_left_app. Qed.

Section numerals.
Context {S : Type} `{BytesLaws S}.
Implicit Types (s : S).

(** The overflow test of the loop is exact. *)
Lemma overflow_test base x d :
  0 < base < 2 ^ 32 -> 0 <= d < base -> 0 <= x ->
  (u64 (u64 (-1) - d) / u64 base <? x) = (ULONG_MAX <? x * base + d).
Proof.
  intros Hb Hd Hx. change (u64 (-1)) with ULONG_MAX. unfold ULONG_MAX.
  rewrite !wrapU_small by lia. apply eq_true_iff_eq. rewrite !Z.ltb_lt.
  pose proof (Z.div_mod (2 ^ 64 - 1 - d) base ltac:(lia)).
  pose proof (Z.mod_pos_bound (2 ^ 64 - 1 - d) base ltac:(lia)).
  set (q := (2 ^ 64 - 1 - d) / base) in *. split; intros; nia.
Qed.

Lemma digits_runs base s cs ds e p x ov :
  0 < base < 2 ^ 32 -> spells base cs ds -> digit_value base (s8 e) = None ->
  bytes_at s p (cs ++ [e]) -> 0 <= x <= ULONG_MAX ->
  exists x' ov',
    runs (fun '(x, overflow, s) =>
      c <- ldb s;;
      match digit_value base (s8 c) with
      | None => ret (inr (x, overflow, s))
      | Some digit =>
          if u64 (u64 (-1) - digit) / u64 base <? x then ret (inl (x, true, s + 1))
          else ret (inl (u64 (u64 (x * u64 base) + digit), overflow, s + 1))
      end) (length cs + 1) (x, ov, p) s (x', ov', p + Z.of_nat (length cs)) s /\
    (ov = true -> ov' = true) /\
    (ov = false -> ov' = (ULONG_MAX <? value_from base x ds) /\
                   (value_from base x ds <= ULONG_MAX -> x' = value_from base x ds)).
Proof.
  intros Hb Hs He. revert p x ov. induction Hs as [|c d cs ds Hcd Hs IH]; intros p x ov Hl Hx;
    cbn [app length] in *; apply bytes_at_cons in Hl as [Hc Hl].
  - exists x, ov. split_and!; [|done|].
    + constructor. rewrite (bind_ok _ _ _ _ _ (ldb_run _ _ _ Hc)), He. by rewrite Z.add_0_r.
    + intros ->. split; [symmetry; apply Z.ltb_ge; cbn; lia|done].
  - pose proof (digit_value_range _ _ _ Hcd) as Hd.
    assert (Hpos : Forall (fun d => 0 <= d) ds).
    { clear -Hs. induction Hs as [|c d cs ds E _ IH]; constructor; [|done]. apply digit_value_range in E. lia. }
    pose proof (overflow_test base x d Hb Hd ltac:(lia)) as Ho.
    pose proof (value_from_mono base (x * base + d) ds ltac:(lia) ltac:(nia) Hpos) as Hm.
    change (value_from base x (d :: ds)) with (value_from base (x * base + d) ds).
    replace (p + Z.of_nat (Datatypes.S (length cs))) with (p + 1 + Z.of_nat (length cs)) by lia.
    destruct (Z.ltb_spec ULONG_MAX (x * base + d)) as [Hov|Hov].
    + destruct (IH (p + 1) x true Hl Hx) as (x' & ov' & Hr & Ht & _). exists x', ov'. split_and!.
      * eapply runs_step; [|exact Hr]. by rewrite (bind_ok _ _ _ _ _ (ldb_run _ _ _ Hc)), Hcd, Ho.
      * auto.
      * intros _. rewrite Ht by done. split; [symmetry; apply Z.ltb_lt|]; lia.
    + unfold ULONG_MAX in *. destruct (IH (p + 1) (x * base + d) ov Hl ltac:(nia)) as (x' & ov' & Hr & Ht & Hf).
      exists x', ov'. split_and!; [|done..]. eapply runs_step; [|exact Hr].
      rewrite (bind_ok _ _ _ _ _ (ldb_run _ _ _ Hc)), Hcd, Ho.
      by rewrite (wrapU_small _ base), (wrapU_small _ (x * base)), wrapU_small by nia.
Qed.

(** The number strtoul() makes of the digits: saturated at ULONG_MAX. *)
Definition saturated (base : Z) (ds : list Z) : Z := value base ds `min` ULONG_MAX.

Lemma skip_space_run s sp c p :
  Forall (fun b => isspace (s8 b) = true) sp -> isspace (s8 c) = false -> bytes_at s p (sp ++ [c]) ->
  Z.of_nat (length sp) < 2 ^ 64 -> skip_space p s = Ok (p + Z.of_nat (length sp), s).
Proof.
  intros Hsp Hc Hl Hn. eapply loopM_runs with (n := (length sp + 1)%nat); [|lia]. clear Hn.
  revert p Hl. induction Hsp as [|b sp Hb _ IH]; intros p Hl; cbn [app length] in *;
    apply bytes_at_cons in Hl as [Hx Hl].
  - constructor. rewrite (bind_ok _ _ _ _ _ (ldb_run _ _ _ Hx)), Hc. by rewrite Z.add_0_r.
  - replace (p + Z.of_nat (Datatypes.S (length sp))) with (p + 1 + Z.of_nat (length sp)) by lia.
    eapply runs_step; [|by apply IH]. by rewrite (bind_ok _ _ _ _ _ (ldb_run _ _ _ Hx)), Hb.
Qed.

(** Blanks, a sign, the digits, and a character that is no digit. *)
Lemma strtoul_run s p sp sg pre cs ds e base b :
  Forall (fun b => isspace (s8 b) = true) sp -> sg ∈ [[]; [43]; [45]] ->
  let rest := pre ++ cs ++ [e] in
  (sg = [] -> isspace (s8 (hd 0 rest)) = false /\ s8 (hd 0 rest) <> 43 /\ s8 (hd 0 rest) <> 45) ->
  bytes_at s p (sp ++ sg ++ rest) ->
  let q := p + Z.of_nat (length sp) + Z.of_nat (length sg) in
  strtoul_base q base s = Ok ((b, q + Z.of_nat (length pre)), s) ->
  0 < b < 2 ^ 32 -> spells b cs ds -> digit_value b (s8 e) = None ->
  Z.of_nat (length sp) + Z.of_nat (length cs) < 2 ^ 64 ->
  strtoul p base s =
  Ok ((if decide (sg = [45]) then u64 (- saturated b ds) else saturated b ds,
       q + Z.of_nat (length pre) + Z.of_nat (length cs)), s).
Proof.
  intros Hsp Hsg rest Hrest Hl q Hbase Hb Hs He Hn.
  apply bytes_at_app in Hl as [Hlsp Hl]. set (p1 := p + Z.of_nat (length sp)) in *.
  assert (Hne : exists r, sg ++ rest = hd 0 (sg ++ rest) :: r).
  { destruct sg as [|g sg]; [|by eexists]. unfold rest. destruct pre as [|x pre]; [|by eexists].
    destruct cs; by eexists. }
  destruct Hne as [r Er]. set (c := hd 0 (sg ++ rest)) in *.
  assert (Hc : peek s p1 = Some c). { rewrite Er in Hl. by apply bytes_at_cons in Hl as [? _]. }
  assert (Hnsp : isspace (s8 c) = false).
  { subst c. rewrite !elem_of_cons in Hsg. destruct Hsg as [->|[->|[->|[]%not_elem_of_nil]]]; [|done..].
    cbn [app]. by apply Hrest. }
  unfold strtoul. erewrite bind_ok.
  2: { apply (skip_space_run s sp c); [done..| |lia]. apply bytes_at_app. split; [done|].
       apply bytes_at_cons. split; [done|by intros ? ?]. }
  fold p1. rewrite (bind_ok _ _ _ _ _ (ldb_run _ _ _ Hc)).
  assert (Hneg : (s8 c =? 45) = bool_decide (sg = [45]) /\
                 (if (s8 c =? 45) || (s8 c =? 43) then p1 + 1 else p1) = q).
  { subst c q. rewrite !elem_of_cons in Hsg. destruct Hsg as [->|[->|[->|[]%not_elem_of_nil]]]; [|done..].
    destruct (Hrest eq_refl) as (_ & H43 & H45). cbn [app length].
    rewrite !(proj2 (Z.eqb_neq _ _)) by done. split; [done|cbn; lia]. }
  destruct Hneg as [Hneg Hq]. cbv zeta. rewrite Hq, (bind_ok _ _ _ _ _ Hbase).
  assert (Hdig : bytes_at s (q + Z.of_nat (length pre)) (cs ++ [e])).
  { apply bytes_at_app in Hl as [_ Hl]. by apply bytes_at_app in Hl as [_ Hl]. }
  destruct (digits_runs b s cs ds e _ 0 false Hb Hs He Hdig) as (x & ov & Hr & _ & Hf).
  { unfold ULONG_MAX. lia. }
  destruct (Hf eq_refl) as [-> Hx].
  erewrite bind_ok by (eapply loopM_runs; [exact Hr|lia]).
  rewrite Hneg. unfold ret, saturated. change (u64 (-1)) with ULONG_MAX.
  destruct (Z.ltb_spec ULONG_MAX (value b ds)).
  - rewrite Z.min_r by lia. case_bool_decide; [by rewrite decide_True|by rewrite decide_False].
  - rewrite Z.min_l, Hx by lia. case_bool_decide; [by rewrite decide_True|by rewrite decide_False].
Qed.
End numerals.
(** ** The kernel's memory *)

Lemma pokes_vm l a (s : vm) : pokes a l s = mkVm (write_bytes (phys s) a l) (pages s).
Proof.
  revert a s. induction l as [|b l IH]; intros a s; [by destruct s|]. cbn [pokes write_bytes]. by rewrite IH.
Qed.

Lemma mapped_vm a n (s : vm) : kernel_can_access a n = true -> mapped s a n.
Proof.
  unfold kernel_can_access. rewrite andb_true_iff, !Z.leb_le. intros Hn b Hb. cbn.
  unfold kernel_can_access. rewrite (proj2 (andb_true_iff _ _)) by (rewrite !Z.leb_le; lia). by eexists.
Qed.

Lemma touches_vm P (s s' : vm) : touches P s s' -> pages s' = pages s /\ forall a, ~ P a -> byte_at (phys s') a = byte_at (phys s) a.
Proof.
  induction 1 as [|a v s s' Ha _ _ [IH1 IH2]]; [done|]. split; [by rewrite IH1|]. intros b Hb. rewrite IH2 by done. cbn [phys poke vm_bytes].
  apply (byte_at_write_out (phys s) a [v] b). cbn [length]. destruct (decide (b = a)) as [->|]; [done|lia].
Qed.
