(* ===== verification/Printer.v ===== *)
(** * Formatted output of the mini operating system

    printer::vprintf() of lib.cc with its two printers: string_printer behind
    snprintf() and console_printer behind console_printf().  The class
    [Printer] is the virtual function putc(): vprintf() is written against it,
    and the printers are its instances.  The format and the strings are in
    memory; an argument occupies one 64-bit slot of the argument list, as the
    calling convention has it; numbuf is a local array. *)
From stdpp Require Import prelude gmap list.
From Stdlib Require Import ZArith Lia.
From S2P Require Import Prelude Memory Vm Lib.
Open Scope Z_scope.
Open Scope c_scope.

(** ** vprintf() *)

Class Printer (T : Type) `{Bytes T} := putc : Z -> Z -> M T unit.

(** The slots of the arguments that are left. *)
Abbreviation va_list := (list Z).

Definition NUMBUFSIZ : nat := 24.
(** A local array of characters; [None] is an uninitialised element. *)
Abbreviation numbuf := (list (option Z)).

Definition lower_digits : list Z := [48; 49; 50; 51; 52; 53; 54; 55; 56; 57; 97; 98; 99; 100; 101; 102].
Definition upper_digits : list Z := [48; 49; 50; 51; 52; 53; 54; 55; 56; 57; 65; 66; 67; 68; 69; 70].

(** The loop of fill_numbuf(): [i] is numbuf_end, and a store before the start
    of the buffer is undefined. *)
Fixpoint fill_loop (digits : list Z) (base : Z) (buf : numbuf) (i : nat) (val : Z) : res (numbuf * Z) :=
  match i with
  | O => Err UB
  | S i =>
      match digits !! Z.to_nat (val mod base) with
      | None => Err UB
      | Some c =>
          let buf := <[i := Some c]> buf in
          let val := val / base in
          if negb (val =? 0) then fill_loop digits base buf i val else Ok (buf, Z.of_nat i)
      end
  end.

(** fill_numbuf(numbuf + NUMBUFSIZ, val, base): the buffer and the start of the
    numeral in it. *)
Definition fill_numbuf (buf : numbuf) (val base : Z) : res (numbuf * Z) :=
  let digits := if base <? 0 then lower_digits else upper_digits in
  let base := if base <? 0 then - base else base in
  let i := (NUMBUFSIZ - 1)%nat in
  fill_loop digits base (<[i := Some 0]> buf) i val.

Definition FLAG_ALT : Z := Z.shiftl 1 0.
Definition FLAG_ZERO : Z := Z.shiftl 1 1.
Definition FLAG_LEFTJUSTIFY : Z := Z.shiftl 1 2.
Definition FLAG_SPACEPOSITIVE : Z := Z.shiftl 1 3.
Definition FLAG_PLUSPOSITIVE : Z := Z.shiftl 1 4.
Definition FLAG_NUMERIC : Z := Z.shiftl 1 5.
Definition FLAG_SIGNED : Z := Z.shiftl 1 6.
Definition FLAG_NEGATIVE : Z := Z.shiftl 1 7.
Definition FLAG_ALT2 : Z := Z.shiftl 1 8.

(** strchr(flag_chars, c) - flag_chars, for the string "#0- +". *)
Definition flag_index (c : Z) : option Z :=
  if c =? 35 then Some 0 else if c =? 48 then Some 1 else if c =? 45 then Some 2
  else if c =? 32 then Some 3 else if c =? 43 then Some 4 else None.

Definition has (flags flag : Z) : bool := negb (Z.land flags flag =? 0).

(** data points into numbuf or into memory. *)
Inductive data := InBuf (i : Z) | InMem (a : Z).

Section vprintf.
Context {T : Type} `{Printer T}.

(** Flags behind '%'. *)
Definition printf_flags (format : Z) : M T (Z * Z) :=
  loopM (fun '(flags, format) =>
    c <- ldb format;;
    if c =? 0 then ret (inr (flags, format))
    else match flag_index c with
         | Some i => ret (inl (Z.lor flags (Z.shiftl 1 i), format + 1))
         | None => ret (inr (flags, format))
         end) (0, format).

(** A number in the format. *)
Definition printf_number (format : Z) : M T (Z * Z) :=
  loopM (fun '(n, format) =>
    c <- ldb format;;
    if (48 <=? c) && (c <=? 57) then
      x <- int (10 * n + c);; ret (inl (x - 48, format + 1))
    else ret (inr (n, format))) (0, format).

Definition va_arg (val : va_list) : M T (Z * va_list) :=
  match val with x :: val => ret (x, val) | [] => fail UB end.

Definition printf_width (format : Z) (val : va_list) : M T (Z * Z * va_list) :=
  c <- ldb format;;
  if (49 <=? c) && (c <=? 57) then
    '(width, format) <- printf_number format;; ret (width, format, val)
  else if c =? 42 then
    '(x, val) <- va_arg val;; ret (s32 x, format + 1, val)
  else ret (-1, format, val).

Definition printf_precision (format : Z) (val : va_list) : M T (Z * Z * va_list) :=
  c <- ldb format;;
  if c =? 46 then
    let format := format + 1 in
    c <- ldb format;;
    '(precision, format, val) <-
      (if (48 <=? c) && (c <=? 57) then
         '(n, format) <- printf_number format;; ret (n, format, val)
       else if c =? 42 then
         '(x, val) <- va_arg val;; ret (s32 x, format + 1, val)
       else ret (-1, format, val));;
    ret (if precision <? 0 then 0 else precision, format, val)
  else ret (-1, format, val).

Definition printf_length (format : Z) : M T (bool * Z) :=
  c <- ldb format;;
  if (c =? 108) || (c =? 116) || (c =? 122) then ret (true, format + 1)
  else if c =? 104 then ret (false, format + 1)
  else ret (false, format).

(** What the conversion character selects. *)
Record conversion := mkConversion {
  c_flags : Z; c_base : Z; c_num : Z; c_data : data; c_buf : numbuf; c_format : Z; c_val : va_list
}.

(** switch ( *format); [inl] is the "continue" of %C with the new colour. *)
Definition printf_convert (flags : Z) (length : bool) (buf : numbuf) (format : Z) (val : va_list)
  : M T (Z * va_list + conversion) :=
  let unsigned base :=
    '(x, val) <- va_arg val;;
    ret (inr (mkConversion (Z.lor flags FLAG_NUMERIC) base (if length then u64 x else u32 x)
                (InBuf 0) buf format val)) in
  c <- ldb format;;
  if (c =? 100) || (c =? 105) then
    '(x, val) <- va_arg val;;
    let x := if length then s64 x else s32 x in
    let negative := x <? 0 in
    if x =? - 2 ^ 63 then fail UB
    else
      ret (inr (mkConversion
        (Z.lor (Z.lor flags (Z.lor FLAG_NUMERIC FLAG_SIGNED)) (if negative then FLAG_NEGATIVE else 0))
        10 (if negative then - x else x) (InBuf 0) buf format val))
  else if c =? 117 then unsigned 10
  else if c =? 120 then unsigned (-16)
  else if c =? 88 then unsigned 16
  else if c =? 112 then
    '(x, val) <- va_arg val;;
    ret (inr (mkConversion (Z.lor flags (Z.lor (Z.lor FLAG_ALT FLAG_ALT2) FLAG_NUMERIC)) (-16) (u64 x)
                (InBuf 0) buf format val))
  else if c =? 115 then
    '(x, val) <- va_arg val;;
    ret (inr (mkConversion flags 10 0 (InMem (u64 x)) buf format val))
  else if c =? 67 then
    '(x, val) <- va_arg val;; ret (inl (s32 x, val))
  else if c =? 99 then
    '(x, val) <- va_arg val;;
    ret (inr (mkConversion flags 10 0 (InBuf 0) (<[1%nat := Some 0]> (<[0%nat := Some (u8 (s32 x))]> buf)) format val))
  else
    ret (inr (mkConversion flags 10 0 (InBuf 0)
                (<[1%nat := Some 0]> (<[0%nat := Some (if negb (c =? 0) then c else 37)]> buf))
                (if c =? 0 then format - 1 else format) val)).

(** The sign or the base in front of the digits. *)
Definition printf_prefix (flags base num : Z) : list Z :=
  if has flags FLAG_NUMERIC && has flags FLAG_SIGNED then
    if has flags FLAG_NEGATIVE then [45]
    else if has flags FLAG_PLUSPOSITIVE then [43]
    else if has flags FLAG_SPACEPOSITIVE then [32]
    else []
  else if has flags FLAG_NUMERIC && has flags FLAG_ALT && ((base =? 16) || (base =? -16))
          && (negb (num =? 0) || has flags FLAG_ALT2) then
    if base =? -16 then [48; 120] else [48; 88]
  else [].

(** *data *)
Definition rd_buf (buf : numbuf) (i : Z) : M T Z :=
  match buf !! Z.to_nat i with Some (Some c) => ret c | _ => fail UB end.

Definition rd (buf : numbuf) (p : data) : Z -> M T Z :=
  match p with InBuf _ => rd_buf buf | InMem _ => ldb end.
Definition start (p : data) : Z := match p with InBuf i => i | InMem a => a end.

Definition printf_zeros (flags width precision datalen prefixlen : Z) : M T Z :=
  if has flags FLAG_NUMERIC && (0 <=? precision) then
    if datalen <? precision then int (precision - datalen) else ret 0
  else if has flags FLAG_NUMERIC && has flags FLAG_ZERO && negb (has flags FLAG_LEFTJUSTIFY) then
    x <- int (datalen + prefixlen);;
    if x <? width then
      y <- int (width - datalen);; ret (s32 (u64 (u64 y - prefixlen)))
    else ret 0
  else ret 0.

Fixpoint putc_n (n : nat) (c color : Z) : M T unit :=
  match n with
  | O => ret tt
  | S n => putc c color;;; putc_n n c color
  end.

Fixpoint putc_list (l : list Z) (color : Z) : M T unit :=
  match l with
  | [] => ret tt
  | c :: l => putc c color;;; putc_list l color
  end.

(** for (; datalen > 0; ++data, --datalen) putc( *data, color) *)
Fixpoint putc_data (n : nat) (rd : Z -> M T Z) (p color : Z) : M T unit :=
  match n with
  | O => ret tt
  | S n => c <- rd p;; putc c color;;; putc_data n rd (p + 1) color
  end.

(** The five loops that print a conversion. *)
Definition printf_fields (flags width datalen zeros color : Z) (prefix : list Z)
  (rd : Z -> M T Z) (p : Z) : M T unit :=
  sum <- int (datalen + zeros);;
  let width := s32 (u64 (u64 width - u64 (u64 sum + Z.of_nat (length prefix)))) in
  let left := has flags FLAG_LEFTJUSTIFY in
  (if negb left then putc_n (Z.to_nat width) 32 color else ret tt);;;
  putc_list prefix color;;;
  putc_n (Z.to_nat zeros) 48 color;;;
  putc_data (Z.to_nat datalen) rd p color;;;
  (if left then putc_n (Z.to_nat width) 32 color else ret tt).

(** The output of one conversion: the code behind the switch. *)
Definition printf_output (cv : conversion) (width precision color : Z) : M T numbuf :=
  let flags := c_flags cv in
  '(buf, p) <- (if has flags FLAG_NUMERIC then
                  '(buf, i) <- lift (fill_numbuf (c_buf cv) (c_num cv) (c_base cv));; ret (buf, InBuf i)
                else ret (c_buf cv, c_data cv));;
  let prefix := printf_prefix flags (c_base cv) (c_num cv) in
  n <- (if (0 <=? precision) && negb (has flags FLAG_NUMERIC)
        then strnlen_via (rd buf p) (Z.to_nat precision) (start p) 0
        else strlen_via (rd buf p) (start p));;
  let datalen := s32 n in
  zeros <- printf_zeros flags width precision datalen (Z.of_nat (length prefix));;
  printf_fields flags width datalen zeros color prefix (rd buf p) (start p);;;
  ret buf.

(** One iteration of the loop over the format. *)
Definition vprintf_step (st : numbuf * Z * Z * va_list) : M T (numbuf * Z * Z * va_list + unit) :=
  let '(buf, color, format, val) := st in
  c <- ldb format;;
  if c =? 0 then ret (inr tt)
  else if negb (c =? 37) then putc c color;;; ret (inl (buf, color, format + 1, val))
  else
    '(flags, format) <- printf_flags (format + 1);;
    '(width, format, val) <- printf_width format val;;
    '(precision, format, val) <- printf_precision format val;;
    '(length, format) <- printf_length format;;
    r <- printf_convert flags length buf format val;;
    match r with
    | inl (color, val) => ret (inl (buf, color, format + 1, val))
    | inr cv =>
        buf <- printf_output cv width precision color;;
        ret (inl (buf, color, c_format cv + 1, c_val cv))
    end.

Definition vprintf (color format : Z) (val : va_list) : M T unit :=
  loopM vprintf_step (replicate NUMBUFSIZ None, color, format, val).
End vprintf.

(** ** Printers *)

(** A printer in front of a memory: the strings are read from the memory. *)
#[export] Instance pair_bytes {P S} `{Bytes S} : Bytes (P * S) := {|
  peek '(p, s) a := peek s a;
  poke a v '(p, s) := (p, poke a v s)
|}.

(** Run a library function on the memory behind a printer. *)
Definition on_mem {P S A} (m : M S A) : M (P * S) A := fun '(p, s) =>
  match m s with Ok (a, s') => Ok (a, (p, s')) | Err f => Err f end.

Record string_printer := mkStringPrinter { s_ : Z; end_ : Z; n_ : Z }.

Section snprintf.
Context {S : Type} `{Bytes S}.

(** string_printer::putc() *)
#[export] Instance string_putc : Printer (string_printer * S) := fun c _ =>
  '(p, _) <- get;;
  p <- (if s_ p <? end_ p then
          on_mem (stb (s_ p) c);;; ret (mkStringPrinter (s_ p + 1) (end_ p) (n_ p))
        else ret p);;
  modify (fun '(_, s) => (mkStringPrinter (s_ p) (end_ p) (u64 (n_ p + 1)), s)).

Definition vsnprintf (str size format : Z) (val : va_list) : M S Z := fun s =>
  '(_, (sp, s)) <-! vprintf 0 format val (mkStringPrinter str (str + size) 0, s);;
  '(_, s) <-! (if negb (size =? 0) && (s_ sp <? end_ sp) then stb (s_ sp) 0 s
               else if negb (size =? 0) then stb (end_ sp - 1) 0 s
               else Ok (tt, s));;
  Ok (s64 (n_ sp), s).

Definition snprintf (str size format : Z) (val : va_list) : M S Z :=
  n <- vsnprintf str size format val;; ret (s32 n).
End snprintf.

(** ** The console *)

Definition CONSOLE_COLUMNS : Z := 80.
Definition CONSOLE_ROWS : Z := 25.
(** console and cursorpos, where the linker scripts put them. *)
Definition console : Z := 0xB8000.
Definition cursorpos : Z := 0xB8FFC.
Definition CPOS (row col : Z) : Z := row * 80 + col.

(** [cell_] is the pointer cell_ as an index of the array console. *)
Record console_printer := mkConsolePrinter { cell_ : Z; scroll_ : bool }.

Section console.
Context {S : Type} `{Bytes S}.

Definition st16 (a v : Z) : M S unit := stb a v;;; stb (a + 1) (Z.shiftr v 8).
Definition st32 (a v : Z) : M S unit := st16 a v;;; st16 (a + 2) (Z.shiftr v 16).
Definition ld32 (a : Z) : M S Z :=
  b0 <- ldb a;; b1 <- ldb (a + 1);; b2 <- ldb (a + 2);; b3 <- ldb (a + 3);;
  ret (le_combine [b0; b1; b2; b3]).

(** console[i] = v, a uint16_t *)
Definition set_cell (i v : Z) : M S unit := st16 (console + 2 * i) (u16 v).

Fixpoint clear_loop (n : nat) (i : Z) : M S unit :=
  match n with
  | O => ret tt
  | Datatypes.S n => set_cell i (Z.lor 32 0x0700);;; clear_loop n (i + 1)
  end.

Definition console_clear : M S unit :=
  clear_loop (Z.to_nat (CONSOLE_ROWS * CONSOLE_COLUMNS)) 0;;; st32 cursorpos 0.

(** console_printer::console_printer() *)
Definition new_console_printer (cpos : Z) (scroll : bool) : M S console_printer :=
  if cpos <? 0 then c <- ld32 cursorpos;; ret (mkConsolePrinter (s32 c) scroll)
  else if cpos <=? CONSOLE_ROWS * CONSOLE_COLUMNS then ret (mkConsolePrinter cpos scroll)
  else ret (mkConsolePrinter 0 scroll).

Definition scroll (cp : console_printer) : M S console_printer :=
  c_assert (CONSOLE_ROWS * CONSOLE_COLUMNS <=? cell_ cp);;;
  if scroll_ cp then
    memmove console (console + 2 * CONSOLE_COLUMNS) ((CONSOLE_ROWS - 1) * CONSOLE_COLUMNS * 2);;;
    memset (console + 2 * ((CONSOLE_ROWS - 1) * CONSOLE_COLUMNS)) 0 (CONSOLE_COLUMNS * 2);;;
    ret (mkConsolePrinter (cell_ cp - CONSOLE_COLUMNS) (scroll_ cp))
  else ret (mkConsolePrinter 0 (scroll_ cp)).

Definition move_cursor (cp : console_printer) : M S unit := st32 cursorpos (u32 (cell_ cp)).

(** The blanks up to the end of the line. *)
Fixpoint blanks (n : nat) (cell color : Z) : M S Z :=
  match n with
  | O => ret cell
  | Datatypes.S n => set_cell cell (Z.lor 32 color);;; blanks n (cell + 1) color
  end.

Definition console_put (cp : console_printer) (c color : Z) : M S console_printer :=
  cp <- loopM (fun cp =>
          if CONSOLE_ROWS * CONSOLE_COLUMNS <=? cell_ cp then cp <- scroll cp;; ret (inl cp)
          else ret (inr cp)) cp;;
  if c =? 10 then
    let pos := Z.rem (cell_ cp) 80 in
    cell <- blanks (Z.to_nat (80 - pos)) (cell_ cp) color;;
    ret (mkConsolePrinter cell (scroll_ cp))
  else set_cell (cell_ cp) (Z.lor c color);;; ret (mkConsolePrinter (cell_ cp + 1) (scroll_ cp)).

(** console_printer::putc() *)
#[export] Instance console_putc : Printer (console_printer * S) := fun c color =>
  '(cp, _) <- get;;
  cp <- on_mem (console_put cp c color);;
  modify (fun '(_, s) => (cp, s)).

Fixpoint puts_loop (n : nat) (cp : console_printer) (color p : Z) : M S console_printer :=
  match n with
  | O => ret cp
  | Datatypes.S n => c <- ldb p;; cp <- console_put cp c color;; puts_loop n cp color (p + 1)
  end.

Definition console_puts (cpos color str len : Z) : M S Z :=
  cp <- new_console_printer cpos (cpos <? 0);;
  cp <- puts_loop (Z.to_nat len) cp color str;;
  (if cpos <? 0 then move_cursor cp else ret tt);;;
  ret (cell_ cp).

Definition console_vprintf (cpos color format : Z) (val : va_list) : M S Z :=
  cp <- new_console_printer cpos (cpos <? 0);;
  cp <- (fun s => '(_, (cp, s)) <-! vprintf color format val (cp, s);; Ok (cp, s));;
  (if cpos <? 0 then move_cursor cp else ret tt);;;
  ret (cell_ cp).

(** The three overloads of console_printf(). *)
Definition console_printf_at (cpos color format : Z) (val : va_list) : M S Z :=
  console_vprintf cpos color format val.
Definition console_printf_color (color format : Z) (val : va_list) : M S unit :=
  console_vprintf (-1) color format val;;; ret tt.
Definition console_printf (format : Z) (val : va_list) : M S unit :=
  console_vprintf (-1) 0x700 format val;;; ret tt.
End console.
