(* ===== verification/PrinterProofs.v ===== *)
(** * Formatted output: what vprintf() prints

    Directives of a format as an abstract syntax with its text, the characters
    a directive prints as a function, and the proof that vprintf() on the text
    prints them on every printer that satisfies [PrinterLaws].  The numerals of
    fill_numbuf() are read back by strtoul(). *)
From stdpp Require Import prelude gmap list.
From Stdlib Require Import ZArith Lia.
From S2P Require Import Prelude Memory Vm Lib LibProofs Printer.
Open Scope Z_scope.
Open Scope c_scope.

(** ** Numerals *)

(** The digits of [n], most significant first; [fuel] bounds their number. *)
Fixpoint digits (fuel : nat) (base n : Z) : list Z :=
  match fuel with
  | O => []
  | S fuel => if n <? base then [n] else digits fuel base (n / base) ++ [n mod base]
  end.

(** A 64-bit number has at most 64 digits. *)
Definition numeral (base n : Z) : list Z := digits 64 base n.

Definition digit_char (upper : bool) (d : Z) : Z :=
  if d <? 10 then 48 + d else (if upper then 65 else 97) + (d - 10).

Lemma digits_fuel f g base n :
  2 <= base -> 0 <= n < base ^ Z.of_nat f -> (0 < f <= g)%nat -> digits g base n = digits f base n.
Proof.
  intros Hb. revert g n. induction f as [|f IH]; intros g n Hn Hfg; [lia|].
  destruct g as [|g]; [lia|]. cbn [digits]. destruct (Z.ltb_spec n base); [done|].
  f_equal. rewrite Nat2Z.inj_succ, Z.pow_succ_r in Hn by lia.
  apply IH; [split; [apply Z.div_pos; lia|apply Z.div_lt_upper_bound; lia]|].
  destruct f; [cbn in Hn|]; lia.
Qed.

Lemma digits_spec f base n :
  2 <= base -> 0 <= n < base ^ Z.of_nat f -> (0 < f)%nat ->
  value base (digits f base n) = n /\ Forall (fun d => 0 <= d < base) (digits f base n) /\
  (0 < length (digits f base n) <= f)%nat.
Proof.
  intros Hb. revert n. induction f as [|f IH]; intros n Hn Hf; [lia|]. cbn [digits].
  destruct (Z.ltb_spec n base).
  - split_and!; [cbn; lia|by repeat constructor; lia|cbn; lia..].
  - rewrite Nat2Z.inj_succ, Z.pow_succ_r in Hn by lia.
    destruct (IH (n / base)) as (Hv & Hd & Hl).
    { split; [apply Z.div_pos; lia|apply Z.div_lt_upper_bound; lia]. }
    { destruct f; [cbn in Hn|]; lia. }
    pose proof (Z.mod_pos_bound n base ltac:(lia)). rewrite value_from_app, Hv, length_app. split_and!.
    + cbn. pose proof (Z.div_mod n base). lia.
    + apply Forall_app. split; [done|]. constructor; [done|constructor].
    + lia.
    + cbn. lia.
Qed.

Lemma digits_lead f base n :
  2 <= base -> 0 <= n < base ^ Z.of_nat f -> (0 < f)%nat ->
  exists d ds, digits f base n = d :: ds /\ 0 <= d < base /\ (0 < n -> 0 < d).
Proof.
  intros Hb. revert n. induction f as [|f IH]; intros n Hn Hf; [lia|]. cbn [digits].
  destruct (Z.ltb_spec n base); [by exists n, []; split_and!; [|lia..]|].
  rewrite Nat2Z.inj_succ, Z.pow_succ_r in Hn by lia.
  destruct (IH (n / base)) as (d & ds & -> & Hd & Hp).
  { split; [apply Z.div_pos; lia|apply Z.div_lt_upper_bound; lia]. }
  { destruct f; [cbn in Hn|]; lia. }
  eexists d, _. split_and!; [done|lia..|]. intros _. apply Hp, Z.div_str_pos. lia.
Qed.

Lemma pow_64 base : 2 <= base -> 2 ^ 64 <= base ^ Z.of_nat 64.
Proof. intros. apply Z.pow_le_mono_l. lia. Qed.

Lemma numeral_spec base n :
  2 <= base -> 0 <= n < 2 ^ 64 ->
  value base (numeral base n) = n /\ Forall (fun d => 0 <= d < base) (numeral base n) /\
  numeral base n <> [].
Proof.
  intros Hb Hn. pose proof (pow_64 base Hb).
  destruct (digits_spec 64 base n Hb) as (? & ? & Hl); [lia..|].
  split_and!; [done..|]. intros E. unfold numeral in *. rewrite E in Hl. cbn in Hl. lia.
Qed.

(** ** fill_numbuf() *)

(** [buf] holds [l] from [i] on. *)
Definition buf_at (buf : numbuf) (i : nat) (l : list Z) : Prop :=
  forall j c, l !! j = Some c -> buf !! (i + j)%nat = Some (Some c).

Lemma buf_at_insert buf i c l :
  (i < length buf)%nat -> buf_at buf (S i) l -> buf_at (<[i := Some c]> buf) i (c :: l).
Proof.
  intros Hi Hl [|j] d Hd; cbn in Hd.
  - simplify_eq. rewrite Nat.add_0_r. by apply list_lookup_insert_eq.
  - rewrite list_lookup_insert_ne by lia. rewrite <- (Hl j d Hd). f_equal. lia.
Qed.

Lemma fill_loop_spec (alpha : list Z) base buf i n tail :
  2 <= base <= Z.of_nat (length alpha) -> (i <= length buf)%nat -> (0 < i)%nat -> 0 <= n < base ^ Z.of_nat i ->
  buf_at buf i tail ->
  let cs := (fun d => default 0 (alpha !! Z.to_nat d)) <$> digits i base n in
  exists buf', fill_loop alpha base buf i n = Ok (buf', Z.of_nat i - Z.of_nat (length cs)) /\
    length buf' = length buf /\ (length cs <= i)%nat /\ buf_at buf' (i - length cs) (cs ++ tail).
Proof.
  intros Hb. revert buf n tail. induction i as [|i IH]; intros buf n tail Hi Hp Hn Ht; [lia|].
  pose proof (Z.mod_pos_bound n base ltac:(lia)) as Hm.
  destruct (lookup_lt_is_Some_2 alpha (Z.to_nat (n mod base))) as [c Hc]; [lia|].
  cbn [fill_loop digits]. rewrite Hc.
  pose proof (buf_at_insert buf i c tail ltac:(lia) Ht) as Hins.
  destruct (Z.ltb_spec n base) as [Hlt|Hge].
  - rewrite Z.div_small by lia. rewrite Z.mod_small in Hc by lia. cbn [Z.eqb negb fmap list_fmap length].
    rewrite Hc. cbn [default app]. eexists. split_and!; [do 2 f_equal; lia|by rewrite length_insert|lia|].
    by replace (S i - 1)%nat with i by lia.
  - assert (Hq : 1 <= n / base) by (apply Z.div_le_lower_bound; lia).
    rewrite (proj2 (Z.eqb_neq _ 0)) by lia. cbn [negb].
    rewrite Nat2Z.inj_succ, Z.pow_succ_r in Hn by lia.
    assert (n / base < base ^ Z.of_nat i) by (apply Z.div_lt_upper_bound; lia).
    destruct i as [|i']; [cbn in *; lia|].
    destruct (IH (<[S i' := Some c]> buf) (n / base) (c :: tail)) as (buf' & -> & Hl & Hle & Hat);
      [rewrite length_insert; lia|lia|lia|done|].
    set (i := S i') in *. set (cs := (fun d => default 0 (alpha !! Z.to_nat d)) <$> digits i base (n / base)) in *.
    exists buf'. rewrite fmap_app, length_app. cbn [fmap list_fmap length]. rewrite Hc. cbn [default].
    fold cs. rewrite length_insert in Hl. split_and!; [do 2 f_equal; lia|done|lia|].
    rewrite <- app_assoc. cbn [app]. by replace (S i - (length cs + 1))%nat with (i - length cs)%nat by lia.
Qed.

Lemma alphabet (upper : bool) base n f :
  2 <= base <= 16 -> 0 <= n < base ^ Z.of_nat f -> (0 < f)%nat ->
  (fun d => default 0 ((if upper then upper_digits else lower_digits) !! Z.to_nat d)) <$> digits f base n
  = digit_char upper <$> digits f base n.
Proof.
  intros Hb Hn Hf. destruct (digits_spec f base n) as (_ & Hd & _); [lia..|].
  induction Hd as [|d ds Hd _ IH]; [done|]. rewrite !fmap_cons, IH. f_equal.
  assert (Hd16 : 0 <= d < 16) by lia. clear -Hd16.
  assert (Hs : d = 0 \/ d = 1 \/ d = 2 \/ d = 3 \/ d = 4 \/ d = 5 \/ d = 6 \/ d = 7 \/ d = 8 \/ d = 9 \/
          d = 10 \/ d = 11 \/ d = 12 \/ d = 13 \/ d = 14 \/ d = 15) by lia.
  by destruct upper; destruct_or! Hs; subst d.
Qed.

(** The number in text: base 16 is in upper case, base -16 in lower case. *)
Definition numeral_text (base n : Z) : list Z := digit_char (0 <? base) <$> numeral (Z.abs base) n.

Lemma fill_numbuf_spec buf n base :
  length buf = NUMBUFSIZ -> 0 <= n < 2 ^ 64 -> base ∈ [10; 16; -16] ->
  let cs := numeral_text base n in
  exists buf', fill_numbuf buf n base = Ok (buf', 23 - Z.of_nat (length cs)) /\
    length buf' = NUMBUFSIZ /\ (0 < length cs <= 23)%nat /\ buf_at buf' (23 - length cs) (cs ++ [0]).
Proof.
  intros Hb Hn Hbase cs.
  assert (Habs : 2 <= Z.abs base <= 16 /\ 2 ^ 64 <= Z.abs base ^ Z.of_nat 23 /\
                 (if base <? 0 then - base else base) = Z.abs base /\ (base <? 0) = negb (0 <? base)).
  { rewrite !elem_of_cons in Hbase. destruct Hbase as [->|[->|[->|[]%not_elem_of_nil]]];
      split_and!; (reflexivity || (vm_compute; discriminate)). }
  destruct Habs as (H2 & H23 & Eb & Elt).
  set (alpha := if base <? 0 then lower_digits else upper_digits).
  assert (Ealpha : alpha = if 0 <? base then upper_digits else lower_digits).
  { subst alpha. rewrite Elt. by destruct (0 <? base). }
  destruct (fill_loop_spec alpha (Z.abs base) (<[23%nat := Some 0]> buf) 23 n [0]) as (buf' & E & Hl & Hle & Hat).
  { split; [lia|]. replace (length alpha) with 16%nat by (subst alpha; by destruct (base <? 0)). lia. }
  { rewrite length_insert, Hb. unfold NUMBUFSIZ. lia. }
  { lia. }
  { lia. }
  { apply buf_at_insert; [rewrite Hb; unfold NUMBUFSIZ; lia|by intros ? ?]. }
  assert (Ecs : (fun d => default 0 (alpha !! Z.to_nat d)) <$> digits 23 (Z.abs base) n = cs).
  { subst cs. unfold numeral_text, numeral. rewrite (digits_fuel 23 64) by lia.
    rewrite Ealpha. apply alphabet; lia. }
  rewrite Ecs in *. destruct (digits_spec 23 (Z.abs base) n) as (_ & _ & Hlen); [lia..|].
  exists buf'. split_and!.
  - unfold fill_numbuf. rewrite Eb. exact E.
  - by rewrite Hl, length_insert.
  - rewrite <- Ecs, length_fmap. lia.
  - done.
  - exact Hat.
Qed.

(** ** Directives *)

Inductive flag := Alt | Zero | Left | Space | Plus.
#[export] Instance flag_eq_dec : EqDecision flag.
Proof. solve_decision. Defined.

Definition flag_char (f : flag) : Z :=
  match f with Alt => 35 | Zero => 48 | Left => 45 | Space => 32 | Plus => 43 end.
Definition flag_bit (f : flag) : Z :=
  match f with Alt => 0 | Zero => 1 | Left => 2 | Space => 3 | Plus => 4 end.
Definition flags_of (fs : list flag) : Z := fold_left (fun z f => Z.lor z (Z.shiftl 1 (flag_bit f))) fs 0.

(** A width or a precision: absent, a number, or an argument. *)
Inductive field := Omitted | Given (n : Z) | Star.

(** The conversions, by their character. *)
Inductive conv := Cd | Ci | Cu | Cx | CX | Cp | Cs | Cc.

Record directive := mkDirective {
  d_flags : list flag; d_width : field; d_precision : field; d_long : bool; d_conv : conv
}.

(** An element of a format: a character, a directive, or %% or %C. *)
Inductive piece := Plain (c : Z) | Percent | Colour | Dir (d : directive).

(** *** Text *)

Definition dec (n : Z) : list Z := numeral_text 10 n.
Definition width_text (f : field) : list Z :=
  match f with Omitted => [] | Given n => dec n | Star => [42] end.
Definition precision_text (f : field) : list Z :=
  match f with Omitted => [] | Given n => 46 :: dec n | Star => [46; 42] end.
Definition conv_char (c : conv) : Z :=
  match c with Cd => 100 | Ci => 105 | Cu => 117 | Cx => 120 | CX => 88 | Cp => 112 | Cs => 115 | Cc => 99 end.
Definition piece_text (p : piece) : list Z :=
  match p with
  | Plain c => [c]
  | Percent => [37; 37]
  | Colour => [37; 67]
  | Dir d => 37 :: (flag_char <$> d_flags d) ++ width_text (d_width d) ++ precision_text (d_precision d)
               ++ (if d_long d then [108] else []) ++ [conv_char (d_conv d)]
  end.
Definition format_text (ps : list piece) : list Z := ps ≫= piece_text.

(** *** Output *)

(** Sizes that keep the arithmetic on int within its type. *)
Definition small (n : Z) : bool := (- 2 ^ 30 <? n) && (n <? 2 ^ 30).

Definition pad (left : bool) (width : Z) (body : list Z) : list Z :=
  let blanks := replicate (Z.to_nat (width - Z.of_nat (length body))) 32 in
  if left then body ++ blanks else blanks ++ body.

(** A number: sign or base, zeros, digits. *)
Definition number_text (fs : list flag) (width : Z) (precision : option Z) (prefix ds : list Z) : list Z :=
  let zeros := match precision with
               | Some p => p - Z.of_nat (length ds)
               | None => if bool_decide (Zero ∈ fs) && negb (bool_decide (Left ∈ fs))
                         then width - Z.of_nat (length prefix) - Z.of_nat (length ds) else 0
               end in
  prefix ++ replicate (Z.to_nat zeros) 48 ++ ds.

Definition sign_prefix (fs : list flag) (negative : bool) : list Z :=
  if negative then [45] else if bool_decide (Plus ∈ fs) then [43]
  else if bool_decide (Space ∈ fs) then [32] else [].

Definition base_prefix (fs : list flag) (x n : Z) : list Z :=
  if bool_decide (Alt ∈ fs) && negb (n =? 0) then [48; x] else [].

(** The characters of one conversion of the argument [x]; [strings] gives the
    strings in memory. *)
Definition convert (strings : Z -> option (list Z)) (d : directive) (width : Z) (precision : option Z) (x : Z)
  : option (list Z) :=
  let fs := d_flags d in
  let number prefix ds := Some (pad (bool_decide (Left ∈ fs)) width (number_text fs width precision prefix ds)) in
  let unsigned := if d_long d then u64 x else u32 x in
  let chars l := Some (pad (bool_decide (Left ∈ fs)) width
                        (match precision with Some p => take (Z.to_nat p) l | None => l end)) in
  match d_conv d with
  | Cd | Ci =>
      let v := if d_long d then s64 x else s32 x in
      if v =? - 2 ^ 63 then None else number (sign_prefix fs (v <? 0)) (numeral_text 10 (Z.abs v))
  | Cu => number [] (numeral_text 10 unsigned)
  | Cx => number (base_prefix fs 120 unsigned) (numeral_text (-16) unsigned)
  | CX => number (base_prefix fs 88 unsigned) (numeral_text 16 unsigned)
  | Cp => number [48; 120] (numeral_text (-16) (u64 x))
  | Cs => match strings (u64 x) with
          | Some l => if Z.of_nat (length l) <? 2 ^ 30 then chars l else None
          | None => None
          end
  | Cc => chars (c_str [u8 x])
  end.

(** The value of a width or precision and the arguments behind it. *)
Definition field_value (f : field) (val : va_list) : option (option Z * va_list) :=
  match f, val with
  | Omitted, _ => Some (None, val)
  | Given n, _ => if small n then Some (Some n, val) else None
  | Star, x :: val => if small (s32 x) then Some (Some (s32 x), val) else None
  | Star, [] => None
  end.

Definition render_directive (strings : Z -> option (list Z)) (d : directive) (val : va_list)
  : option (list Z * va_list) :=
  match field_value (d_width d) val with
  | None => None
  | Some (w, val) =>
      match field_value (d_precision d) val with
      | Some (p, x :: val) =>
          match convert strings d (default (-1) w) (Z.max 0 <$> p) x with
          | Some l => Some (l, val)
          | None => None
          end
      | _ => None
      end
  end.

(** The characters one element prints, each with its colour; the colour and the
    arguments behind it. *)
Definition coloured (color : Z) (l : list Z) : list (Z * Z) := (fun c => (c, color)) <$> l.

Definition render_piece (strings : Z -> option (list Z)) (p : piece) (color : Z) (val : va_list)
  : option (list (Z * Z) * Z * va_list) :=
  match p with
  | Plain c => Some ([(c, color)], color, val)
  | Percent => Some ([(37, color)], color, val)
  | Colour => match val with x :: val => Some ([], s32 x, val) | [] => None end
  | Dir d =>
      match render_directive strings d val with
      | Some (l, val) => Some (coloured color l, color, val)
      | None => None
      end
  end.

(** The characters a format prints. *)
Fixpoint render (strings : Z -> option (list Z)) (ps : list piece) (color : Z) (val : va_list)
  : option (list (Z * Z)) :=
  match ps with
  | [] => Some []
  | p :: ps =>
      match render_piece strings p color val with
      | Some (out, color, val) => app out <$> render strings ps color val
      | None => None
      end
  end.

(** Formats: no directive by accident, and numerals as they are written. *)
Definition piece_ok (p : piece) : Prop :=
  match p with
  | Plain c => char c /\ c <> 37
  | Dir d => (forall n, d_width d = Given n -> 0 < n) /\ (forall n, d_precision d = Given n -> 0 <= n)
  | _ => True
  end.

(** ** Printers *)

(** What vprintf() relies on: putc() has an effect [put1], and leaves the bytes
    at the addresses [fixed] alone. *)
Class PrinterLaws (T : Type) `{Printer T} := {
  good : T -> Prop;
  fixed : T -> Z -> Prop;
  put1 : Z -> Z -> T -> T;
  putc_run c col t : good t -> byte c -> putc c col t = Ok (tt, put1 c col t);
  good_put1 c col t : good t -> good (put1 c col t);
  fixed_put1 c col t a : good t -> fixed t a -> fixed (put1 c col t) a;
  peek_put1 c col t a : good t -> fixed t a -> peek (put1 c col t) a = peek t a
}.

Definition emits {T} `{PrinterLaws T} (l : list (Z * Z)) (t : T) : T :=
  fold_left (fun t '(c, col) => put1 c col t) l t.

(** ** Bits of the flags *)

Lemma has_bit z k : 0 <= k -> has z (Z.shiftl 1 k) = Z.testbit z k.
Proof.
  intros Hk. unfold has. rewrite Z.shiftl_1_l.
  destruct (Z.testbit z k) eqn:E.
  - apply negb_true_iff, Z.eqb_neq. intros E0. apply (f_equal (fun x => Z.testbit x k)) in E0.
    rewrite Z.land_spec, E, Z.pow2_bits_true, Z.bits_0 in E0 by done. done.
  - apply negb_false_iff, Z.eqb_eq, Z.bits_inj_iff. intros i.
    rewrite Z.land_spec, Z.bits_0. destruct (decide (i = k)) as [->|]; [by rewrite E|].
    rewrite Z.pow2_bits_false, andb_false_r by lia. done.
Qed.

Lemma flags_testbit fs k :
  0 <= k -> Z.testbit (flags_of fs) k = bool_decide (k ∈ flag_bit <$> fs).
Proof.
  intros Hk. unfold flags_of. rewrite <- (orb_false_l (bool_decide _)), <- (Z.bits_0 k).
  generalize 0 as z. induction fs as [|f fs IH]; intros z; cbn [fold_left fmap list_fmap].
  - by rewrite bool_decide_eq_false_2, orb_false_r by apply not_elem_of_nil.
  - rewrite IH, Z.lor_spec, Z.shiftl_1_l, <- orb_assoc. f_equal.
    destruct (decide (k = flag_bit f)) as [->|Hne].
    + rewrite Z.pow2_bits_true by (destruct f; cbn; lia). cbn [orb]. symmetry.
      apply bool_decide_eq_true_2. left.
    + rewrite Z.pow2_bits_false by congruence. cbn [orb]. apply bool_decide_ext.
      rewrite elem_of_cons. tauto.
Qed.

Lemma flags_bit fs f : Z.testbit (flags_of fs) (flag_bit f) = bool_decide (f ∈ fs).
Proof.
  rewrite flags_testbit by (destruct f; cbn; lia). apply bool_decide_ext.
  rewrite list_elem_of_fmap. split; [|by eauto]. intros (g & E & Hg).
  replace f with g; [done|]. by destruct f, g.
Qed.

Lemma flags_high fs k : 5 <= k -> Z.testbit (flags_of fs) k = false.
Proof.
  intros Hk. rewrite flags_testbit by lia. apply bool_decide_eq_false_2.
  intros (f & -> & _)%list_elem_of_fmap. destruct f; cbn in Hk; lia.
Qed.

(** The flags of a directive, and those the conversions add. *)
Lemma has_lor a b f : has (Z.lor a b) f = has a f || has b f.
Proof.
  unfold has. rewrite Z.land_lor_distr_l. apply eq_true_iff_eq.
  rewrite orb_true_iff, !negb_true_iff, !Z.eqb_neq, Z.lor_eq_0_iff. lia.
Qed.

Lemma has_alt fs : has (flags_of fs) FLAG_ALT = bool_decide (Alt ∈ fs).
Proof. unfold FLAG_ALT. rewrite has_bit by lia. apply (flags_bit fs Alt). Qed.
Lemma has_zero fs : has (flags_of fs) FLAG_ZERO = bool_decide (Zero ∈ fs).
Proof. unfold FLAG_ZERO. rewrite has_bit by lia. apply (flags_bit fs Zero). Qed.
Lemma has_left fs : has (flags_of fs) FLAG_LEFTJUSTIFY = bool_decide (Left ∈ fs).
Proof. unfold FLAG_LEFTJUSTIFY. rewrite has_bit by lia. apply (flags_bit fs Left). Qed.
Lemma has_space fs : has (flags_of fs) FLAG_SPACEPOSITIVE = bool_decide (Space ∈ fs).
Proof. unfold FLAG_SPACEPOSITIVE. rewrite has_bit by lia. apply (flags_bit fs Space). Qed.
Lemma has_plus fs : has (flags_of fs) FLAG_PLUSPOSITIVE = bool_decide (Plus ∈ fs).
Proof. unfold FLAG_PLUSPOSITIVE. rewrite has_bit by lia. apply (flags_bit fs Plus). Qed.
Lemma has_high fs k : 5 <= k -> has (flags_of fs) (Z.shiftl 1 k) = false.
Proof. intros. rewrite has_bit by lia. by apply flags_high. Qed.
Lemma has_numeric fs : has (flags_of fs) FLAG_NUMERIC = false.
Proof. by apply has_high. Qed.
Lemma has_signed fs : has (flags_of fs) FLAG_SIGNED = false.
Proof. by apply has_high. Qed.
Lemma has_negative fs : has (flags_of fs) FLAG_NEGATIVE = false.
Proof. by apply has_high. Qed.
Lemma has_alt2 fs : has (flags_of fs) FLAG_ALT2 = false.
Proof. by apply has_high. Qed.

Create Rewrite HintDb printf.
#[export] Hint Rewrite has_lor has_alt has_zero has_left has_space has_plus has_numeric has_signed
  has_negative has_alt2 : printf.

(** Decide which flags are set. *)
Ltac flag_simpl :=
  autorewrite with printf;
  repeat match goal with
  | |- context [has ?a ?b] =>
      let v := eval vm_compute in (has a b) in
      match v with true => change (has a b) with true | false => change (has a b) with false end
  end;
  rewrite ?orb_false_r, ?orb_true_r; cbn [orb andb negb].

(** ** Reading the format *)

Section format.
Context {T : Type} `{BL : BytesLaws T} {PR : Printer T}.
Implicit Types (t : T).

Lemma flag_index_char f : flag_index (flag_char f) = Some (flag_bit f).
Proof. by destruct f. Qed.

Definition flags_step (st : Z * Z) : M T (Z * Z + Z * Z) :=
  let '(flags, format) := st in
  c <- ldb format;;
  if c =? 0 then ret (inr (flags, format))
  else match flag_index c with
       | Some i => ret (inl (Z.lor flags (Z.shiftl 1 i), format + 1))
       | None => ret (inr (flags, format))
       end.

Lemma flags_runs t fs c a z :
  bytes_at t a ((flag_char <$> fs) ++ [c]) -> c <> 0 -> flag_index c = None ->
  runs flags_step (length fs + 1) (z, a) t
       (fold_left (fun z f => Z.lor z (Z.shiftl 1 (flag_bit f))) fs z, a + Z.of_nat (length fs)) t.
Proof.
  intros Hl Hc Hi. revert a z Hl. induction fs as [|f fs IH]; intros a z Hl;
    cbn [fmap list_fmap app length fold_left] in *; apply bytes_at_cons in Hl as [Hx Hl].
  - constructor. unfold flags_step. rewrite (bind_ok _ _ _ _ _ (ldb_run _ _ _ Hx)), Hi.
    by rewrite (proj2 (Z.eqb_neq _ _) Hc), Z.add_0_r.
  - replace (a + Z.of_nat (S (length fs))) with (a + 1 + Z.of_nat (length fs)) by lia.
    eapply runs_step; [|by apply IH]. unfold flags_step.
    rewrite (bind_ok _ _ _ _ _ (ldb_run _ _ _ Hx)), flag_index_char. by destruct f.
Qed.

Lemma printf_flags_run t fs c a :
  bytes_at t a ((flag_char <$> fs) ++ [c]) -> c <> 0 -> flag_index c = None ->
  Z.of_nat (length fs) < 2 ^ 64 ->
  printf_flags a t = Ok ((flags_of fs, a + Z.of_nat (length fs)), t).
Proof. intros. eapply (loopM_runs flags_step (length fs + 1)); [by eapply flags_runs|lia]. Qed.

Lemma dec_spells n : 0 <= n < 2 ^ 64 -> Forall2 (fun c d => c = 48 + d /\ 0 <= d < 10) (dec n) (numeral 10 n).
Proof.
  intros Hn. unfold dec, numeral_text. apply Forall2_fmap_l.
  destruct (numeral_spec 10 n) as (_ & Hd & _); [lia..|]. change (Z.abs 10) with 10.
  induction Hd as [|d ds Hd _ IH]; constructor; [|done].
  cbn. unfold digit_char. rewrite (proj2 (Z.ltb_lt _ _)) by lia. lia.
Qed.

Lemma dec_length n : 0 <= n < 2 ^ 64 -> (0 < length (dec n) <= 64)%nat.
Proof.
  intros Hn. unfold dec, numeral_text, numeral. rewrite length_fmap. apply digits_spec; [lia| |lia].
  pose proof (pow_64 10). lia.
Qed.

Definition number_step (st : Z * Z) : M T (Z * Z + Z * Z) :=
  let '(n, format) := st in
  c <- ldb format;;
  if (48 <=? c) && (c <=? 57) then
    x <- int (10 * n + c);; ret (inl (x - 48, format + 1))
  else ret (inr (n, format)).

Lemma number_runs t cs ds c a x :
  bytes_at t a (cs ++ [c]) -> Forall2 (fun c d => c = 48 + d /\ 0 <= d < 10) cs ds ->
  ~ (48 <= c <= 57) -> 0 <= x -> value_from 10 x ds < 2 ^ 30 ->
  runs number_step (length cs + 1) (x, a) t (value_from 10 x ds, a + Z.of_nat (length cs)) t.
Proof.
  intros Hl Hs Hc. revert a x Hl. induction Hs as [|e d cs ds [-> Hd] Hs IH]; intros a x Hl Hx Hv;
    cbn [app length] in *; apply bytes_at_cons in Hl as [Hp Hl].
  - constructor. unfold number_step. rewrite (bind_ok _ _ _ _ _ (ldb_run _ _ _ Hp)).
    rewrite (proj2 (andb_false_iff _ _)); [by rewrite Z.add_0_r|]. rewrite !Z.leb_gt. lia.
  - change (value_from 10 x (d :: ds)) with (value_from 10 (x * 10 + d) ds) in *.
    replace (a + Z.of_nat (S (length cs))) with (a + 1 + Z.of_nat (length cs)) by lia.
    assert (Hm : x * 10 + d <= value_from 10 (x * 10 + d) ds).
    { apply value_from_mono; [lia..|]. clear -Hs. induction Hs as [|? ? ? ? [? ?]]; constructor; [lia|done]. }
    eapply runs_step; [|apply IH; [done|lia|done]]. unfold number_step.
    rewrite (bind_ok _ _ _ _ _ (ldb_run _ _ _ Hp)).
    rewrite (proj2 (andb_true_iff _ _)) by (rewrite !Z.leb_le; lia). unfold int.
    rewrite (proj2 (andb_true_iff _ _)) by (rewrite Z.leb_le, Z.ltb_lt; lia).
    by replace (x * 10 + d) with (10 * x + (48 + d) - 48) by lia.
Qed.

Lemma printf_number_run t n c a :
  bytes_at t a (dec n ++ [c]) -> ~ (48 <= c <= 57) -> 0 <= n < 2 ^ 30 ->
  printf_number a t = Ok ((n, a + Z.of_nat (length (dec n))), t).
Proof.
  intros Hl Hc Hn. pose proof (dec_length n ltac:(lia)).
  destruct (numeral_spec 10 n) as (Hv & _ & _); [lia..|].
  eapply (loopM_runs number_step (length (dec n) + 1)); [|lia].
  replace (n, a + Z.of_nat (length (dec n))) with (value 10 (numeral 10 n), a + Z.of_nat (length (dec n)))
    by (by rewrite Hv).
  apply (number_runs t _ _ c); [done|apply dec_spells; lia|done|lia|rewrite Hv; lia].
Qed.

Lemma dec_first n :
  0 <= n < 2 ^ 64 -> exists c r, dec n = c :: r /\ 48 <= c <= 57 /\ (0 < n -> 49 <= c).
Proof.
  intros Hn. destruct (digits_lead 64 10 n) as (d & ds & E & Hd & Hp); [lia| |lia|].
  { pose proof (pow_64 10). lia. }
  exists (48 + d), (digit_char true <$> ds). unfold dec, numeral_text, numeral. change (Z.abs 10) with 10.
  rewrite E. cbn [fmap list_fmap]. split_and!; [|lia..].
  f_equal. unfold digit_char. by rewrite (proj2 (Z.ltb_lt _ _)) by lia.
Qed.

Lemma small_spec n : small n = true <-> - 2 ^ 30 < n < 2 ^ 30.
Proof. unfold small. rewrite andb_true_iff, !Z.ltb_lt. done. Qed.

Lemma between_false a b c : ~ (a <= c <= b) -> (a <=? c) && (c <=? b) = false.
Proof. intros. apply andb_false_iff. rewrite !Z.leb_gt. lia. Qed.

Lemma between_true a b c : a <= c <= b -> (a <=? c) && (c <=? b) = true.
Proof. intros. apply andb_true_iff. rewrite !Z.leb_le. lia. Qed.

Lemma printf_width_run t f val w val' c a :
  field_value f val = Some (w, val') -> (forall n, f = Given n -> 0 < n) ->
  bytes_at t a (width_text f ++ [c]) -> ~ (48 <= c <= 57) -> c <> 42 ->
  printf_width a val t = Ok ((default (-1) w, a + Z.of_nat (length (width_text f)), val'), t).
Proof.
  intros Hf Hg Hl Hc H42. unfold printf_width. destruct f as [|n|]; cbn [field_value width_text] in *.
  - simplify_eq. cbn [app length] in *. apply bytes_at_cons in Hl as [Hp _].
    rewrite (bind_ok _ _ _ _ _ (ldb_run _ _ _ Hp)), between_false, (proj2 (Z.eqb_neq _ _) H42) by lia.
    cbn. by rewrite Z.add_0_r.
  - destruct (small n) eqn:Hs; simplify_eq. apply small_spec in Hs. pose proof (Hg n eq_refl).
    destruct (dec_first n) as (d & r & E & _ & Hd); [lia|].
    pose proof Hl as Hl'. rewrite E in Hl'. cbn [app] in Hl'. apply bytes_at_cons in Hl' as [Hp _].
    assert (Hd9 : 48 <= d <= 57). { destruct (dec_first n) as (? & ? & E' & ? & _); [lia|]. congruence. }
    rewrite (bind_ok _ _ _ _ _ (ldb_run _ _ _ Hp)), between_true by lia.
    by rewrite (bind_ok _ _ _ _ _ (printf_number_run t n c a Hl Hc ltac:(lia))).
  - destruct val as [|x val]; [done|]. destruct (small (s32 x)); simplify_eq.
    cbn [app length] in *. apply bytes_at_cons in Hl as [Hp _].
    by rewrite (bind_ok _ _ _ _ _ (ldb_run _ _ _ Hp)).
Qed.

Lemma printf_precision_run t f val p val' c a :
  field_value f val = Some (p, val') -> (forall n, f = Given n -> 0 <= n) ->
  bytes_at t a (precision_text f ++ [c]) -> ~ (48 <= c <= 57) -> c <> 46 ->
  printf_precision a val t =
  Ok ((default (-1) (Z.max 0 <$> p), a + Z.of_nat (length (precision_text f)), val'), t).
Proof.
  intros Hf Hg Hl Hc H46. unfold printf_precision. destruct f as [|n|]; cbn [field_value precision_text] in *.
  - simplify_eq. cbn [app length] in *. apply bytes_at_cons in Hl as [Hp _].
    rewrite (bind_ok _ _ _ _ _ (ldb_run _ _ _ Hp)), (proj2 (Z.eqb_neq _ _) H46).
    cbn. by rewrite Z.add_0_r.
  - destruct (small n) eqn:Hs; simplify_eq. apply small_spec in Hs. pose proof (Hg n eq_refl).
    destruct (dec_first n) as (d & r & E & Hd & _); [lia|].
    cbn [app] in Hl. apply bytes_at_cons in Hl as [Hdot Hl].
    pose proof Hl as Hl'. rewrite E in Hl'. cbn [app] in Hl'. apply bytes_at_cons in Hl' as [Hp _].
    rewrite (bind_ok _ _ _ _ _ (ldb_run _ _ _ Hdot)), Z.eqb_refl. cbv zeta.
    rewrite (bind_ok _ _ _ _ _ (ldb_run _ _ _ Hp)).
    rewrite between_true by lia. rewrite bind_bind.
    rewrite (bind_ok _ _ _ _ _ (printf_number_run t n c _ Hl Hc ltac:(lia))).
    replace (a + Z.of_nat (length (46 :: dec n))) with (a + 1 + Z.of_nat (length (dec n))) by (cbn [length]; lia).
    cbn. by rewrite (proj2 (Z.ltb_ge _ _)), Z.max_r by lia.
  - destruct val as [|x val]; [done|]. destruct (small (s32 x)); simplify_eq.
    cbn [app length] in *. apply bytes_at_cons in Hl as [Hdot Hl]. apply bytes_at_cons in Hl as [Hp _].
    rewrite (bind_ok _ _ _ _ _ (ldb_run _ _ _ Hdot)), Z.eqb_refl. cbv zeta.
    rewrite (bind_ok _ _ _ _ _ (ldb_run _ _ _ Hp)).
    replace (a + Z.of_nat 2) with (a + 1 + 1) by lia.
    cbn. replace (if s32 x <? 0 then 0 else s32 x) with (0 `max` s32 x); [done|].
    destruct (Z.ltb_spec (s32 x) 0); lia.
Qed.

End format.

(** ** Printing *)

Section output.
Context {T : Type} `{PL : PrinterLaws T}.
Implicit Types (t : T).

Lemma emits_cons c col l t : emits ((c, col) :: l) t = emits l (put1 c col t).
Proof. done. Qed.

Lemma emits_app l k t : emits (l ++ k) t = emits k (emits l t).
Proof. apply fold_left_app. Qed.

Lemma good_emits l t : good t -> good (emits l t).
Proof. revert t. induction l as [|[c col] l IH]; intros t Ht; [done|]. by apply IH, good_put1. Qed.

Lemma fixed_emits l t a : good t -> fixed t a -> fixed (emits l t) a /\ peek (emits l t) a = peek t a.
Proof.
  revert t. induction l as [|[c col] l IH]; intros t Hg Ht; [done|]. cbn [emits fold_left].
  destruct (IH (put1 c col t)) as [Hf Hp]; [by apply good_put1|by apply fixed_put1|].
  split; [done|]. etrans; [exact Hp|]. by apply peek_put1.
Qed.

(** A string that output does not touch. *)
Definition held t a l : Prop :=
  str_at t a l /\ forall b, a <= b <= a + Z.of_nat (length l) -> fixed t b.

Lemma held_emits l t a s : good t -> held t a s -> held (emits l t) a s.
Proof.
  intros Hg [[Hs Hc] Hf]. split; [split; [|done]|].
  - intros i b Hi. pose proof (lookup_lt_Some _ _ _ Hi) as Hlt. rewrite length_app in Hlt. cbn in Hlt.
    destruct (fixed_emits l t (a + Z.of_nat i) Hg) as [_ ->]; [apply Hf; lia|]. by apply Hs.
  - intros b Hb. apply fixed_emits; [done|by apply Hf].
Qed.

Lemma putc_n_run n c color t :
  good t -> byte c -> putc_n n c color t = Ok (tt, emits (coloured color (replicate n c)) t).
Proof.
  intros Hg Hc. revert t Hg. induction n as [|n IH]; intros t Hg; [done|]. cbn [putc_n replicate].
  rewrite (bind_ok _ _ _ _ _ (putc_run _ _ _ Hg Hc)). rewrite IH by by apply good_put1. done.
Qed.

Lemma putc_list_run l color t :
  good t -> Forall (fun c => byte c) l -> putc_list l color t = Ok (tt, emits (coloured color l) t).
Proof.
  intros Hg Hl. revert t Hg. induction Hl as [|c l Hc _ IH]; intros t Hg; [done|]. cbn [putc_list].
  rewrite (bind_ok _ _ _ _ _ (putc_run _ _ _ Hg Hc)). rewrite IH by by apply good_put1. done.
Qed.

(** The characters [l] are read at [p], now and after any output. *)
Definition readable (rd : Z -> M T Z) (p : Z) (l : list Z) t : Prop :=
  forall out i c, l !! i = Some c -> rd (p + Z.of_nat i) (emits out t) = Ok (c, emits out t).

Lemma putc_data_run l rd p color t :
  good t -> Forall (fun c => byte c) l -> readable rd p l t ->
  putc_data (length l) rd p color t = Ok (tt, emits (coloured color l) t).
Proof.
  intros Hg Hl. revert p t Hg. induction Hl as [|c l Hc _ IH]; intros p t Hg Hr; [done|].
  cbn [putc_data length]. pose proof (Hr [] 0%nat c eq_refl) as Hp. rewrite Z.add_0_r in Hp.
  rewrite (bind_ok _ _ _ _ _ Hp), (bind_ok _ _ _ _ _ (putc_run _ _ _ Hg Hc)).
  rewrite IH; [done|by apply good_put1|]. intros out i d Hi.
  replace (p + 1 + Z.of_nat i) with (p + Z.of_nat (S i)) by lia.
  exact (Hr ((c, color) :: out) (S i) d Hi).
Qed.

Lemma readable_buf buf i l t : buf_at buf i l -> readable (rd_buf buf) (Z.of_nat i) l t.
Proof.
  intros Hb out j c Hj. unfold rd_buf.
  replace (Z.to_nat (Z.of_nat i + Z.of_nat j)) with (i + j)%nat by lia. by rewrite (Hb j c Hj).
Qed.

Lemma readable_mem a l t : good t -> held t a l -> readable ldb a (l ++ [0]) t.
Proof.
  intros Hg Hl out i c Hi. apply ldb_run. destruct (held_emits out t a l Hg Hl) as [[Hs _] _]. by apply Hs.
Qed.

(** Conversions of sizes. *)
Lemma s32_u64 x : s32 (u64 x) = s32 x.
Proof. apply wrapS_congr. unfold wrapU. apply Z.mod_mod_divide. by exists (2 ^ 32). Qed.

Lemma u8_s32 x : u8 (s32 x) = u8 x.
Proof.
  unfold wrapU. assert (Hd : (2 ^ 8 | 2 ^ 32)) by (by exists (2 ^ 24)).
  by rewrite <- (Z.mod_mod_divide _ _ _ Hd), wrapS_eqm, Z.mod_mod_divide.
Qed.

Lemma width_left w k n :
  - 2 ^ 31 <= w - (k + n) < 2 ^ 31 -> s32 (u64 (u64 w - u64 (u64 k + n))) = w - (k + n).
Proof.
  intros Hr. rewrite s32_u64. transitivity (s32 (w - (k + n))); [|by apply wrapS_small; lia].
  apply wrapS_congr. unfold wrapU. assert (Hd : (2 ^ 32 | 2 ^ 64)) by (by exists (2 ^ 32)).
  rewrite <- (Z.mod_mod_divide _ (2 ^ 64) (2 ^ 32) Hd), <- (Z.mod_mod_divide (w - (k + n)) (2 ^ 64) (2 ^ 32) Hd).
  f_equal. rewrite Zminus_mod_idemp_l, Zminus_mod_idemp_r.
  rewrite <- Zminus_mod_idemp_r, Zplus_mod_idemp_l. apply Zminus_mod_idemp_r.
Qed.

Lemma int_run {S} x (s : S) : - 2 ^ 31 <= x < 2 ^ 31 -> int x s = Ok (x, s).
Proof. intros. unfold int. by rewrite (proj2 (andb_true_iff _ _)) by (rewrite Z.leb_le, Z.ltb_lt; lia). Qed.

Lemma printf_fields_run flags width zeros color prefix rd p l t :
  good t -> Forall (fun c => byte c) prefix -> Forall (fun c => byte c) l -> readable rd p l t ->
  (length prefix <= 2)%nat -> 0 <= zeros < 2 ^ 30 -> Z.of_nat (length l) < 2 ^ 30 ->
  - 2 ^ 30 < width < 2 ^ 30 -> Z.of_nat (length l) + zeros < 2 ^ 30 ->
  printf_fields flags width (Z.of_nat (length l)) zeros color prefix rd p t =
  Ok (tt, emits (coloured color (pad (has flags FLAG_LEFTJUSTIFY) width
                                  (prefix ++ replicate (Z.to_nat zeros) 48 ++ l))) t).
Proof.
  intros Hg Hp Hl Hr Hlen Hz Hll Hw Hsum. unfold printf_fields.
  rewrite (bind_ok _ _ _ _ _ (int_run (Z.of_nat (length l) + zeros) t ltac:(lia))), width_left by lia. cbv zeta.
  set (n := Z.to_nat (width - _)).
  assert (Hn : n = Z.to_nat (width - Z.of_nat (length (prefix ++ replicate (Z.to_nat zeros) 48 ++ l)))).
  { subst n. rewrite !length_app, length_replicate. f_equal. lia. }
  assert (Hread : forall out, readable rd p l (emits out t)).
  { intros out out' i c Hi. rewrite <- emits_app. by apply Hr. }
  unfold pad. rewrite <- Hn. destruct (has flags FLAG_LEFTJUSTIFY); cbn [negb].
  - rewrite bind_ret.
    rewrite (bind_ok _ _ _ _ _ (putc_list_run prefix color t Hg Hp)).
    assert (Hg1 := good_emits (coloured color prefix) t Hg).
    rewrite (bind_ok _ _ _ _ _ (putc_n_run _ 48 color _ Hg1 ltac:(lia))), <- emits_app, Nat2Z.id.
    assert (Hg2 := good_emits (coloured color prefix ++ coloured color (replicate (Z.to_nat zeros) 48)) t Hg).
    rewrite (bind_ok _ _ _ _ _ (putc_data_run l rd p color _ Hg2 Hl (Hread _))), <- emits_app.
    rewrite putc_n_run by (apply good_emits || lia; done). rewrite <- emits_app. unfold coloured.
    by rewrite !fmap_app, !app_assoc.
  - rewrite (bind_ok _ _ _ _ _ (putc_n_run n 32 color t Hg ltac:(lia))).
    assert (Hg0 := good_emits (coloured color (replicate n 32)) t Hg).
    rewrite (bind_ok _ _ _ _ _ (putc_list_run prefix color _ Hg0 Hp)), <- emits_app.
    assert (Hg1 := good_emits (coloured color (replicate n 32) ++ coloured color prefix) t Hg).
    rewrite (bind_ok _ _ _ _ _ (putc_n_run _ 48 color _ Hg1 ltac:(lia))), <- emits_app, Nat2Z.id.
    rewrite (bind_ok _ _ _ _ _ (putc_data_run l rd p color _ (good_emits _ _ Hg) Hl (Hread _))), <- emits_app.
    unfold ret, coloured. by rewrite !fmap_app, !app_assoc.
Qed.

(** Texts of numbers. *)
Lemma numeral_text_char base n :
  base ∈ [10; 16; -16] -> 0 <= n < 2 ^ 64 -> Forall (fun c => char c) (numeral_text base n).
Proof.
  intros Hb Hn. unfold numeral_text. apply Forall_fmap.
  assert (Habs : 2 <= Z.abs base <= 16).
  { rewrite !elem_of_cons in Hb. destruct Hb as [->|[->|[->|[]%not_elem_of_nil]]]; cbn; lia. }
  destruct (numeral_spec (Z.abs base) n) as (_ & Hd & _); [lia..|].
  eapply Forall_impl; [exact Hd|]. intros d Hdd. unfold compose, digit_char.
  destruct (d <? 10) eqn:E; [apply Z.ltb_lt in E|apply Z.ltb_ge in E; destruct (0 <? base)]. all: cbv beta in *. all: lia.
Qed.

Lemma printf_prefix_ok flags base n :
  (length (printf_prefix flags base n) <= 2)%nat /\ Forall (fun c => byte c) (printf_prefix flags base n).
Proof.
  unfold printf_prefix. repeat case_match; cbn [length]; (split; [lia|]); repeat (constructor; [lia|]); constructor.
Qed.

Lemma output_number_run cv fs width prec color t :
  good t -> length (c_buf cv) = NUMBUFSIZ -> 0 <= c_num cv < 2 ^ 64 -> c_base cv ∈ [10; 16; -16] ->
  has (c_flags cv) FLAG_NUMERIC = true ->
  has (c_flags cv) FLAG_ZERO = bool_decide (Zero ∈ fs) ->
  has (c_flags cv) FLAG_LEFTJUSTIFY = bool_decide (Left ∈ fs) ->
  - 2 ^ 30 < width < 2 ^ 30 -> (forall p, prec = Some p -> 0 <= p < 2 ^ 30) ->
  exists buf', length buf' = NUMBUFSIZ /\
    printf_output cv width (default (-1) prec) color t =
    Ok (buf', emits (coloured color (pad (bool_decide (Left ∈ fs)) width
                (number_text fs width prec (printf_prefix (c_flags cv) (c_base cv) (c_num cv))
                   (numeral_text (c_base cv) (c_num cv))))) t).
Proof.
  intros Hg Hb Hn Hbase Hnum Hzero Hleft Hw Hp.
  destruct (fill_numbuf_spec (c_buf cv) (c_num cv) (c_base cv) Hb Hn Hbase) as (buf' & E & Hlb & Hlen & Hat).
  set (ds := numeral_text (c_base cv) (c_num cv)) in *.
  destruct (printf_prefix_ok (c_flags cv) (c_base cv) (c_num cv)) as [Hpl Hpb].
  set (prefix := printf_prefix (c_flags cv) (c_base cv) (c_num cv)) in *.
  assert (Hch : Forall (fun c => char c) ds) by by apply numeral_text_char.
  exists buf'. split; [done|]. unfold printf_output. rewrite Hnum. cbv zeta.
  rewrite bind_bind. unfold lift at 1. rewrite E. unfold bind at 1. rewrite bind_ret. fold prefix.
  rewrite andb_false_r. cbn [rd start].
  pose proof (readable_buf buf' (23 - length ds) (ds ++ [0]) t Hat) as Hread.
  replace (Z.of_nat (23 - length ds)) with (23 - Z.of_nat (length ds)) in Hread by lia.
  rewrite (bind_ok _ _ _ _ _ (strlen_via_run (rd_buf buf') t ds _ (Hread []) ltac:(eapply Forall_impl; [exact Hch|cbn; lia]) ltac:(lia))).
  rewrite wrapS_small by lia.
  set (m := match prec with
            | Some p => p - Z.of_nat (length ds)
            | None => if bool_decide (Zero ∈ fs) && negb (bool_decide (Left ∈ fs))
                      then width - Z.of_nat (length prefix) - Z.of_nat (length ds) else 0
            end).
  set (zeros := Z.max 0 m).
  assert (Hz : printf_zeros (c_flags cv) width (default (-1) prec) (Z.of_nat (length ds)) (Z.of_nat (length prefix)) t
               = Ok (zeros, t) /\ 0 <= zeros /\ Z.of_nat (length ds) + zeros < 2 ^ 30).
  { unfold printf_zeros. rewrite Hnum, Hzero, Hleft. subst zeros m. destruct prec as [p|];
      [change (default (-1) (Some p)) with p|change (default (-1) None) with (-1)].
    - specialize (Hp p eq_refl). rewrite (proj2 (Z.leb_le _ _)) by lia. cbn [andb].
      destruct (Z.ltb_spec (Z.of_nat (length ds)) p).
      + rewrite int_run by lia. rewrite Z.max_r by lia. split; [done|lia].
      + rewrite Z.max_l by lia. split; [done|lia].
    - change (0 <=? -1) with false. cbn [andb].
      destruct (bool_decide (Zero ∈ fs) && negb (bool_decide (Left ∈ fs))); cbn [andb]; [|split; [done|lia]].
      rewrite (bind_ok _ _ _ _ _ (int_run (Z.of_nat (length ds) + Z.of_nat (length prefix)) t ltac:(lia))).
      destruct (Z.ltb_spec (Z.of_nat (length ds) + Z.of_nat (length prefix)) width).
      + rewrite (bind_ok _ _ _ _ _ (int_run (width - Z.of_nat (length ds)) t ltac:(lia))).
        pose proof (width_left (width - Z.of_nat (length ds)) 0 (Z.of_nat (length prefix)) ltac:(lia)) as E'.
        change (u64 0) with 0 in E'. rewrite Z.add_0_l, (wrapU_small _ (Z.of_nat (length prefix))) in E' by lia.
        rewrite E', Z.max_r by lia. split; [unfold ret; do 2 f_equal|]; lia.
      + rewrite Z.max_l by lia. split; [done|lia]. }
  destruct Hz as (Hz & Hz0 & Hzs). rewrite (bind_ok _ _ _ _ _ Hz).
  rewrite (bind_ok _ _ _ _ _ (printf_fields_run (c_flags cv) width zeros color prefix (rd_buf buf') _ ds t Hg Hpb
             ltac:(eapply Forall_impl; [exact Hch|cbn; lia])
             ltac:(intros out i c Hi; apply (Hread out); by apply lookup_app_l_Some)
             Hpl ltac:(lia) ltac:(lia) Hw ltac:(lia))).
  rewrite Hleft. by replace (Z.to_nat zeros) with (Z.to_nat m) by (subst zeros; lia).
Qed.

Lemma output_chars_run cv width prec color l t :
  good t -> has (c_flags cv) FLAG_NUMERIC = false ->
  readable (rd (c_buf cv) (c_data cv)) (start (c_data cv)) (l ++ [0]) t ->
  Forall (fun c => char c) l -> Z.of_nat (length l) < 2 ^ 30 ->
  - 2 ^ 30 < width < 2 ^ 30 -> (forall p, prec = Some p -> 0 <= p < 2 ^ 30) ->
  printf_output cv width (default (-1) prec) color t =
  Ok (c_buf cv, emits (coloured color (pad (has (c_flags cv) FLAG_LEFTJUSTIFY) width
        (match prec with Some p => take (Z.to_nat p) l | None => l end))) t).
Proof.
  intros Hg Hnum Hread Hch Hl Hw Hp. unfold printf_output. rewrite Hnum, bind_ret.
  assert (Hpre : printf_prefix (c_flags cv) (c_base cv) (c_num cv) = []).
  { unfold printf_prefix. by rewrite Hnum. }
  assert (Hnn : no_nul l) by (eapply Forall_impl; [exact Hch|cbn; lia]).
  rewrite Hpre. set (out := match prec with Some p => take (Z.to_nat p) l | None => l end).
  assert (Hout : (if (0 <=? default (-1) prec) && negb false
                  then strnlen_via (rd (c_buf cv) (c_data cv)) (Z.to_nat (default (-1) prec)) (start (c_data cv)) 0
                  else strlen_via (rd (c_buf cv) (c_data cv)) (start (c_data cv))) t = Ok (Z.of_nat (length out), t)
                 /\ exists k, l = out ++ k).
  { subst out. destruct prec as [p|];
      [change (default (-1) (Some p)) with p; specialize (Hp p eq_refl)|change (default (-1) None) with (-1)].
    - rewrite (proj2 (Z.leb_le 0 p)) by lia. cbn [andb negb].
      rewrite (strnlen_via_run _ t l) by (lia || done || (intros; by apply (Hread []))).
      split; [do 2 f_equal; rewrite length_take; lia|]. exists (drop (Z.to_nat p) l). by rewrite take_drop.
    - change (0 <=? -1) with false. cbn [andb].
      rewrite (strlen_via_run _ t l) by (lia || done || (intros; by apply (Hread []))).
      split; [done|]. exists []. by rewrite app_nil_r. }
  destruct Hout as [Hout (k & Ek)]. rewrite (bind_ok _ _ _ _ _ Hout).
  assert (Hlo : Z.of_nat (length out) < 2 ^ 30) by (rewrite Ek, length_app in Hl; lia).
  rewrite wrapS_small by lia. unfold printf_zeros. rewrite Hnum. cbn [andb]. rewrite bind_ret.
  rewrite (bind_ok _ _ _ _ _ (printf_fields_run (c_flags cv) width 0 color [] (rd (c_buf cv) (c_data cv)) _ out t Hg
     ltac:(constructor)
     ltac:(rewrite Ek in Hch; apply Forall_app in Hch as [Hch _]; eapply Forall_impl; [exact Hch|cbn; lia])
     ltac:(intros o i c Hi; apply (Hread o); rewrite Ek, <- app_assoc; by apply lookup_app_l_Some)
     ltac:(cbn; lia) ltac:(lia) ltac:(lia) Hw ltac:(lia))).
  done.
Qed.

(** *** Conversions *)

Section conversion.
Context (d : directive) (width : Z) (prec : option Z) (buf : numbuf) (a : Z) (val : va_list) (color : Z) (t : T).
Context (Hg : good t) (Hb : length buf = NUMBUFSIZ) (Hw : - 2 ^ 30 < width < 2 ^ 30)
  (Hp : forall p, prec = Some p -> 0 <= p < 2 ^ 30).

(** The conversion [r] goes on behind [a] with the arguments [val] and prints [out]. *)
Definition converts (r : res ((Z * va_list + conversion) * T)) (out : list Z) : Prop :=
  exists cv buf', r = Ok (inr cv, t) /\ c_format cv = a /\ c_val cv = val /\ length buf' = NUMBUFSIZ /\
    printf_output cv width (default (-1) prec) color t = Ok (buf', emits (coloured color out) t).

Lemma number_converts flags base num prefix :
  0 <= num < 2 ^ 64 -> base ∈ [10; 16; -16] ->
  has flags FLAG_NUMERIC = true -> has flags FLAG_ZERO = bool_decide (Zero ∈ d_flags d) ->
  has flags FLAG_LEFTJUSTIFY = bool_decide (Left ∈ d_flags d) -> printf_prefix flags base num = prefix ->
  converts (Ok (inr (mkConversion flags base num (InBuf 0) buf a val), t))
    (pad (bool_decide (Left ∈ d_flags d)) width
       (number_text (d_flags d) width prec prefix (numeral_text base num))).
Proof.
  intros Hn Hbase Hnum Hz Hl <-.
  destruct (output_number_run (mkConversion flags base num (InBuf 0) buf a val) (d_flags d) width prec color t)
    as (buf' & Hb' & E); [done..|]. by eexists _, buf'.
Qed.

Lemma chars_converts dat buf1 l :
  length buf1 = NUMBUFSIZ -> readable (rd buf1 dat) (start dat) (l ++ [0]) t ->
  Forall (fun c => char c) l -> Z.of_nat (length l) < 2 ^ 30 ->
  converts (Ok (inr (mkConversion (flags_of (d_flags d)) 10 0 dat buf1 a val), t))
    (pad (bool_decide (Left ∈ d_flags d)) width
       (match prec with Some p => take (Z.to_nat p) l | None => l end)).
Proof.
  intros Hb1 Hr Hl Hn. rewrite <- has_left. eexists _, buf1. split_and!; [done..|].
  by apply (output_chars_run (mkConversion (flags_of (d_flags d)) 10 0 dat buf1 a val)); [|apply has_numeric|..].
Qed.

(** A character in numbuf: a string of one character, or of none for '\0'. *)
Lemma char_in_buf c :
  byte c -> readable (rd_buf (<[1%nat := Some 0]> (<[0%nat := Some c]> buf))) 0 (c_str [c] ++ [0]) t /\
            Forall (fun c => char c) (c_str [c]) /\ Z.of_nat (length (c_str [c])) < 2 ^ 30.
Proof.
  intros Hc. destruct buf as [|b0 [|b1 r]]; [done..|]. cbn [c_str].
  destruct (Z.eqb_spec c 0) as [->|Hne]; (split_and!; [|repeat constructor; lia|cbn; lia]).
  - apply (readable_buf _ 0 [0]). by intros [|j] e E; simplify_eq/=.
  - apply (readable_buf _ 0 [c; 0]). by intros [|[|j]] e E; simplify_eq/=.
Qed.

Lemma conv_run strings x out :
  convert strings d width prec x = Some out -> peek t a = Some (conv_char (d_conv d)) ->
  (forall p l, strings p = Some l -> held t p l) ->
  converts (printf_convert (flags_of (d_flags d)) (d_long d) buf a (x :: val) t) out.
Proof.
  intros Hc Ha Hs. unfold printf_convert.
  assert (Hu : 0 <= (if d_long d then u64 x else u32 x) < 2 ^ 64).
  { destruct (d_long d); [apply (wrapU_range 64); lia|pose proof (wrapU_range 32 x); lia]. }
  assert (Hv : - 2 ^ 63 <= (if d_long d then s64 x else s32 x) < 2 ^ 63).
  { destruct (d_long d); [apply (wrapS_range 64); lia|pose proof (wrapS_range 32 x); lia]. }
  assert (H10 : 10 ∈ [10; 16; -16]) by left.
  assert (H16 : 16 ∈ [10; 16; -16]) by (right; left).
  assert (Hm16 : -16 ∈ [10; 16; -16]) by (right; right; left).
  set (v := if d_long d then s64 x else s32 x) in *. set (u := if d_long d then u64 x else u32 x) in *.
  unfold convert in Hc. fold v u in Hc.
  assert (Hsigned : (if v =? - 2 ^ 63 then None else
      Some (pad (bool_decide (Left ∈ d_flags d)) width
        (number_text (d_flags d) width prec (sign_prefix (d_flags d) (v <? 0)) (numeral_text 10 (Z.abs v))))) = Some out ->
    converts ((if v =? - 2 ^ 63 then fail UB else
      ret (inr (mkConversion
        (Z.lor (Z.lor (flags_of (d_flags d)) (Z.lor FLAG_NUMERIC FLAG_SIGNED)) (if v <? 0 then FLAG_NEGATIVE else 0))
        10 (if v <? 0 then - v else v) (InBuf 0) buf a val))) t) out).
  { destruct (Z.eqb_spec v (- 2 ^ 63)); [done|]. intros [= <-].
    replace (if v <? 0 then - v else v) with (Z.abs v) by (destruct (Z.ltb_spec v 0); lia).
    apply number_converts; [lia|done|..]; unfold printf_prefix, sign_prefix; destruct (v <? 0); by flag_simpl. }
  destruct (d_conv d); cbn [conv_char] in *; rewrite (bind_ok _ _ _ _ _ (ldb_run _ _ _ Ha));
    [by apply Hsigned|by apply Hsigned|..]; clear Hsigned.
  - simplify_eq. apply number_converts; [done..| | | |]; unfold printf_prefix; flag_simpl; try done.
    by rewrite andb_false_r.
  - simplify_eq. apply number_converts; [done..| | | |]; unfold printf_prefix, base_prefix; flag_simpl; try done.
    by rewrite andb_true_r.
  - simplify_eq. apply number_converts; [done..| | | |]; unfold printf_prefix, base_prefix; flag_simpl; try done.
    by rewrite andb_true_r.
  - simplify_eq. apply number_converts; [apply (wrapU_range 64); lia|done|..]; unfold printf_prefix; by flag_simpl.
  - destruct (strings (u64 x)) as [l|] eqn:El; [|done]. destruct (Z.ltb_spec (Z.of_nat (length l)) (2 ^ 30)); simplify_eq.
    apply (chars_converts (InMem (u64 x)) buf); [done| |by apply (Hs _ _ El)|done].
    apply readable_mem; [done|by apply Hs].
  - simplify_eq. rewrite <- (u8_s32 x). destruct (char_in_buf (u8 (s32 x))) as (? & ? & ?); [apply (wrapU_range 8); lia|].
    apply (chars_converts (InBuf 0)); [by rewrite !length_insert|done..].
Qed.
End conversion.

(** *** Directives *)

(** A character that ends a directive. *)
Definition terminal (c : Z) : Prop :=
  c <> 0 /\ flag_index c = None /\ ~ (48 <= c <= 57) /\ c <> 42 /\ c <> 46 /\
  (c =? 108) || (c =? 116) || (c =? 122) = false /\ c <> 104.

(** The directive up to its last character. *)
Lemma header_run {B} t fs wf pf (long : bool) c a val w val1 p val2 (k : Z -> Z -> Z -> bool -> Z -> va_list -> M T B) :
  let len := if long then [108] else [] in
  let text := (flag_char <$> fs) ++ width_text wf ++ precision_text pf ++ len in
  bytes_at t a (text ++ [c]) -> terminal c -> Z.of_nat (length fs) < 2 ^ 64 ->
  field_value wf val = Some (w, val1) -> (forall n, wf = Given n -> 0 < n) ->
  field_value pf val1 = Some (p, val2) -> (forall n, pf = Given n -> 0 <= n) ->
  ('(flags, format) <- printf_flags a;;
   '(width, format, val) <- printf_width format val;;
   '(precision, format, val) <- printf_precision format val;;
   '(length, format) <- printf_length format;;
   k flags width precision length format val) t =
  k (flags_of fs) (default (-1) w) (default (-1) (Z.max 0 <$> p)) long (a + Z.of_nat (length text)) val2 t.
Proof.
  intros len text Hl (Hc0 & Hfl & Hc9 & Hc42 & Hc46 & Hlen & Hc104) Hn Hw Hwg Hp Hpg. subst text.
  rewrite <- !app_assoc in Hl.
  (* the character behind each part *)
  assert (Elen : exists x r, len ++ [c] = x :: r /\ x <> 0 /\ flag_index x = None /\ ~ (48 <= x <= 57) /\ x <> 42 /\ x <> 46).
  { subst len. destruct long; eexists _, _; (split; [reflexivity|]); [|done]. split_and!; done || lia. }
  destruct Elen as (x & r & Elen & Hx0 & Hxf & Hx9 & Hx42 & Hx46).
  assert (Eprec : exists y r, precision_text pf ++ len ++ [c] = y :: r /\ y <> 0 /\ flag_index y = None /\
            ~ (48 <= y <= 57) /\ y <> 42).
  { destruct pf; cbn [precision_text app]; [by rewrite Elen; eexists _, _; split; [reflexivity|]|..];
      eexists _, _; (split; [reflexivity|]); split_and!; done || lia. }
  destruct Eprec as (y & r1 & Eprec & Hy0 & Hyf & Hy9 & Hy42).
  assert (Ewidth : exists z r, width_text wf ++ precision_text pf ++ len ++ [c] = z :: r /\ z <> 0 /\ flag_index z = None).
  { destruct wf as [|n|]; cbn [width_text app]; [by rewrite Eprec; eexists _, _; split; [reflexivity|]| |].
    - cbn [field_value] in Hw. destruct (small n) eqn:Hs; [|done]. apply small_spec in Hs.
      pose proof (Hwg n eq_refl). destruct (dec_first n) as (d & ds & -> & Hd & Hd1); [lia|].
      eexists _, _. split; [reflexivity|]. split; [lia|]. unfold flag_index.
      by rewrite !(proj2 (Z.eqb_neq _ _)) by lia.
    - eexists _, _. split; [reflexivity|]. done. }
  destruct Ewidth as (z & r2 & Ewidth & Hz0 & Hzf).
  rewrite (bind_ok _ _ _ _ _ (printf_flags_run t fs z a (bytes_at_next _ _ _ _ _ _ Hl Ewidth) Hz0 Hzf Hn)).
  apply bytes_at_app in Hl as [_ Hl]. rewrite length_fmap in Hl.
  rewrite (bind_ok _ _ _ _ _ (printf_width_run t wf val w val1 y _ Hw Hwg (bytes_at_next _ _ _ _ _ _ Hl Eprec) Hy9 Hy42)).
  apply bytes_at_app in Hl as [_ Hl].
  rewrite (bind_ok _ _ _ _ _ (printf_precision_run t pf val1 p val2 x _ Hp Hpg (bytes_at_next _ _ _ _ _ _ Hl Elen) Hx9 Hx46)).
  apply bytes_at_app in Hl as [_ Hl].
  assert (El : forall b, bytes_at t b (len ++ [c]) -> printf_length b t = Ok ((long, b + Z.of_nat (length len)), t)).
  { clear -Hlen Hc104. intros b Hb. subst len. unfold printf_length. destruct long; cbn [app length] in *;
      apply bytes_at_cons in Hb as [Hb _]; rewrite (bind_ok _ _ _ _ _ (ldb_run _ _ _ Hb)); [done|].
    by rewrite Hlen, (proj2 (Z.eqb_neq _ _) Hc104), Z.add_0_r. }
  rewrite (bind_ok _ _ _ _ _ (El _ Hl)). rewrite !length_app, length_fmap. f_equal. lia.
Qed.

Lemma conv_terminal c : terminal (conv_char c).
Proof. unfold terminal. destruct c; cbn; split_and!; done || lia. Qed.

Section pieces.
Context (strings : Z -> option (list Z)).

(** The strings a format may refer to are in memory, away from the output. *)
Definition strings_held t : Prop := forall p l, strings p = Some l -> held t p l.

Lemma field_small f val w val' n :
  field_value f val = Some (w, val') -> w = Some n -> - 2 ^ 30 < n < 2 ^ 30.
Proof.
  intros Hf ->. apply small_spec. destruct f as [|m|]; cbn in Hf; [done|destruct (small m) eqn:E; by simplify_eq|].
  destruct val as [|x val]; [done|]. destruct (small (s32 x)) eqn:E; by simplify_eq.
Qed.

Lemma directive_run d color val l val' buf a t :
  piece_ok (Dir d) -> render_directive strings d val = Some (l, val') -> good t -> length buf = NUMBUFSIZ ->
  bytes_at t a (piece_text (Dir d)) -> strings_held t -> Z.of_nat (length (piece_text (Dir d))) < 2 ^ 64 ->
  exists buf', length buf' = NUMBUFSIZ /\
    vprintf_step (buf, color, a, val) t =
    Ok (inl (buf', color, a + Z.of_nat (length (piece_text (Dir d))), val'), emits (coloured color l) t).
Proof.
  intros [Hwg Hpg] Hr Hg Hb Hl Hs Hn. unfold render_directive in Hr.
  destruct (field_value (d_width d) val) as [[w val1]|] eqn:Ew; [|done].
  destruct (field_value (d_precision d) val1) as [[p [|x val2]]|] eqn:Ep; [done| |done].
  destruct (convert strings d (default (-1) w) (Z.max 0 <$> p) x) as [out|] eqn:Ec; simplify_eq.
  cbn [piece_text] in Hl, Hn. apply bytes_at_cons in Hl as [Ha Hl].
  assert (Et : forall x y z u v : list Z, x ++ y ++ z ++ u ++ v = (x ++ y ++ z ++ u) ++ v)
    by (intros; by rewrite <- !app_assoc).
  rewrite Et in Hl. clear Et.
  pose proof Hl as Hlast. apply bytes_at_app in Hlast as [_ Hlast]. apply bytes_at_cons in Hlast as [Hlast _].
  cbn [length] in Hn. rewrite !length_app, length_fmap in Hn.
  assert (Hw : - 2 ^ 30 < default (-1) w < 2 ^ 30).
  { destruct w as [n|]; [exact (field_small _ _ _ _ n Ew eq_refl)|cbn; lia]. }
  assert (Hp : forall q, Z.max 0 <$> p = Some q -> 0 <= q < 2 ^ 30).
  { destruct p as [n|]; intros q E; simplify_eq/=. pose proof (field_small _ _ _ _ n Ep eq_refl). lia. }
  destruct (conv_run d (default (-1) w) (Z.max 0 <$> p) buf _ val' color t Hg Hb Hw Hp strings x l Ec Hlast Hs)
    as (cv & buf' & Ecv & Ef & Ev & Hb' & Eo).
  exists buf'. split; [done|]. unfold vprintf_step.
  rewrite (bind_ok _ _ _ _ _ (ldb_run _ _ _ Ha)). change (37 =? 0) with false. change (37 =? 37) with true. cbn [negb].
  rewrite (header_run t (d_flags d) (d_width d) (d_precision d) (d_long d) _ (a + 1) val w val1 p (x :: val') _
             Hl (conv_terminal _) ltac:(lia) Ew Hwg Ep Hpg).
  rewrite (bind_ok _ _ _ _ _ Ecv), (bind_ok _ _ _ _ _ Eo), Ef, Ev. unfold ret. do 4 f_equal.
  cbn [piece_text length]. rewrite !length_app. cbn [length]. f_equal. lia.
Qed.

(** %% and %C: no flags, width, precision or length. *)
Lemma bare_run {B} c a val t (k : Z -> Z -> Z -> bool -> Z -> va_list -> M T B) :
  bytes_at t a [c] -> terminal c ->
  ('(flags, format) <- printf_flags a;;
   '(width, format, val) <- printf_width format val;;
   '(precision, format, val) <- printf_precision format val;;
   '(length, format) <- printf_length format;;
   k flags width precision length format val) t = k 0 (-1) (-1) false a val t.
Proof.
  intros Hl Hc. pose proof (header_run t [] Omitted Omitted false c a val None val None val k) as E.
  cbn [fmap list_fmap width_text precision_text app length] in E. rewrite Z.add_0_r in E.
  by apply E.
Qed.

Lemma piece_run p color val out color' val' buf a t :
  piece_ok p -> render_piece strings p color val = Some (out, color', val') -> good t -> length buf = NUMBUFSIZ ->
  bytes_at t a (piece_text p) -> strings_held t -> Z.of_nat (length (piece_text p)) < 2 ^ 64 ->
  exists buf', length buf' = NUMBUFSIZ /\
    vprintf_step (buf, color, a, val) t =
    Ok (inl (buf', color', a + Z.of_nat (length (piece_text p)), val'), emits out t).
Proof.
  intros Hok Hr Hg Hb Hl Hs Hn. destruct p as [c| | |d]; cbn [render_piece] in Hr.
  - simplify_eq. destruct Hok as [Hc H37]. apply bytes_at_cons in Hl as [Ha _].
    exists buf. split; [done|]. unfold vprintf_step. rewrite (bind_ok _ _ _ _ _ (ldb_run _ _ _ Ha)).
    rewrite (proj2 (Z.eqb_neq c 0)), (proj2 (Z.eqb_neq c 37)) by lia. cbn [negb].
    by rewrite (bind_ok _ _ _ _ _ (putc_run c color' t Hg ltac:(lia))).
  - simplify_eq. apply bytes_at_cons in Hl as [Ha Hl]. exists (<[1%nat := Some 0]> (<[0%nat := Some 37]> buf)).
    split; [by rewrite !length_insert|]. unfold vprintf_step. rewrite (bind_ok _ _ _ _ _ (ldb_run _ _ _ Ha)).
    cbv [Z.eqb Pos.eqb negb]. rewrite (bare_run 37 _ _ t _ Hl) by (unfold terminal; split_and!; done || lia).
    apply bytes_at_cons in Hl as [Hl _]. unfold printf_convert. rewrite bind_bind, (bind_ok _ _ _ _ _ (ldb_run _ _ _ Hl)).
    cbv [Z.eqb Pos.eqb negb orb]. rewrite bind_ret.
    destruct (char_in_buf buf t Hb 37) as (Hrd & Hch & Hlen); [lia|].
    pose proof (output_chars_run (mkConversion 0 10 0 (InBuf 0) (<[1%nat := Some 0]> (<[0%nat := Some 37]> buf)) (a + 1) val')
                  (-1) None color' [37] t Hg eq_refl Hrd Hch ltac:(cbn; lia) ltac:(lia) ltac:(done)) as Eo.
    change (default (-1) None) with (-1) in Eo. rewrite (bind_ok _ _ _ _ _ Eo).
    by replace (a + Z.of_nat (length (piece_text Percent))) with (a + 1 + 1) by (cbn; lia).
  - destruct val as [|x val]; [done|]. simplify_eq. apply bytes_at_cons in Hl as [Ha Hl]. exists buf.
    split; [done|]. unfold vprintf_step. rewrite (bind_ok _ _ _ _ _ (ldb_run _ _ _ Ha)).
    cbv [Z.eqb Pos.eqb negb]. rewrite (bare_run 67 _ _ t _ Hl) by (unfold terminal; split_and!; done || lia).
    apply bytes_at_cons in Hl as [Hl _]. unfold printf_convert. rewrite bind_bind, (bind_ok _ _ _ _ _ (ldb_run _ _ _ Hl)).
    cbv [Z.eqb Pos.eqb negb orb]. cbn [va_arg]. rewrite bind_bind, bind_ret, bind_ret.
    by replace (a + Z.of_nat (length (piece_text Colour))) with (a + 1 + 1) by (cbn; lia).
  - destruct (render_directive strings d val) as [[l val2]|] eqn:E; [|done]. simplify_eq.
    by apply directive_run.
Qed.

(** The whole format. *)
Lemma vprintf_runs ps color val out buf a t :
  Forall piece_ok ps -> render strings ps color val = Some out -> good t -> length buf = NUMBUFSIZ ->
  held t a (format_text ps) -> strings_held t -> Z.of_nat (length (format_text ps)) < 2 ^ 64 ->
  runs vprintf_step (length ps + 1) (buf, color, a, val) t tt (emits out t).
Proof.
  intros Hps. revert color val out buf a t. induction Hps as [|p ps Hp _ IH];
    intros color val out buf a t Hr Hg Hb Hl Hs Hn; cbn [render format_text mbind list_bind length] in *.
  - simplify_eq. constructor. unfold vprintf_step. destruct Hl as [Hl _].
    by rewrite (bind_ok _ _ _ _ _ (ldb_run _ _ _ (str_at_first _ _ _ Hl))).
  - destruct (render_piece strings p color val) as [[[out1 color'] val']|] eqn:E; [|done].
    fold (format_text ps) in *.
    destruct (render strings ps color' val') as [out2|] eqn:E2; simplify_eq/=.
    pose proof (Hl : held t a (piece_text p ++ format_text ps)) as Hl'.
    destruct Hl' as [[Hb1 Hch] Hf]. rewrite <- app_assoc in Hb1. apply bytes_at_app in Hb1 as [Hb1 _].
    change (ps ≫= piece_text) with (format_text ps) in *.
    rewrite length_app in Hn.
    destruct (piece_run p color val out1 color' val' buf a t Hp E Hg Hb Hb1 Hs ltac:(lia)) as (buf' & Hb' & Es).
    eapply runs_step; [exact Es|]. rewrite emits_app.
    apply IH; [done|by apply good_emits|done| | |lia].
    + apply held_emits; [done|]. destruct Hl as [Hstr _]. split; [by apply str_at_suffix|].
      intros b Hbb. apply Hf. rewrite length_app. lia.
    + intros q l Hq. apply held_emits; [done|]. by apply Hs.
Qed.

Lemma vprintf_run ps color val out a t :
  Forall piece_ok ps -> render strings ps color val = Some out -> good t ->
  held t a (format_text ps) -> strings_held t -> Z.of_nat (length (format_text ps)) < 2 ^ 64 ->
  vprintf color a val t = Ok (tt, emits out t).
Proof.
  intros Hps Hr Hg Hl Hs Hn. eapply loopM_runs; [by apply vprintf_runs|].
  assert (length ps <= length (format_text ps))%nat; [|lia].
  clear. induction ps as [|p ps IH]; [done|]. cbn [format_text mbind list_bind length].
  change (ps ≫= piece_text) with (format_text ps). rewrite length_app.
  assert (0 < length (piece_text p))%nat by (destruct p; cbn; lia). lia.
Qed.
End pieces.
End output.
