(* ===== verification/PrinterStrings.v ===== *)
(** * snprintf()

    The string printer satisfies [PrinterLaws]: its output goes to the buffer
    and nowhere else.  So snprintf() leaves in the buffer what the format
    renders to, cut to the size and terminated, and returns the full length.
    Numbers printed by it are read back by strtoul() and strtol(). *)
From stdpp Require Import prelude gmap list.
From Stdlib Require Import ZArith Lia.
From S2P Require Import Prelude Memory Vm Lib LibProofs Printer PrinterProofs.
Open Scope Z_scope.
Open Scope c_scope.

Section strings.
Context {S : Type} `{BytesLaws S}.
Implicit Types (s : S).

Definition sp_put (c : Z) (t : string_printer * S) : string_printer * S :=
  let '(sp, s) := t in
  if s_ sp <? end_ sp then (mkStringPrinter (s_ sp + 1) (end_ sp) (u64 (n_ sp + 1)), poke (s_ sp) c s)
  else (mkStringPrinter (s_ sp) (end_ sp) (u64 (n_ sp + 1)), s).

#[export] Instance string_laws : PrinterLaws (string_printer * S).
Proof.
  refine {|
    good := fun '(sp, s) => mapped s (s_ sp) (end_ sp - s_ sp);
    fixed := fun '(sp, s) a => a < s_ sp \/ end_ sp <= a;
    put1 := fun c _ t => sp_put c t
  |}.
  - intros c col [sp s] Hg Hc. unfold putc, string_putc. unfold bind at 1, get at 1. cbn [sp_put].
    destruct (Z.ltb_spec (s_ sp) (end_ sp)); [|done].
    assert (Hm : is_Some (peek s (s_ sp))) by (apply Hg; lia).
    unfold bind, on_mem, ret, modify. by rewrite (stb_run _ _ _ Hm), u8_byte.
  - intros c _ [sp s] Hg. cbn [sp_put]. destruct (Z.ltb_spec (s_ sp) (end_ sp)); [|done]. cbn.
    apply mapped_poke; [eapply mapped_sub; [done|lia..]|]. apply Hg. lia.
  - intros c _ [sp s] a Hg Hf. cbn [sp_put]. destruct (s_ sp <? end_ sp); cbn; [|done]. lia.
  - intros c _ [sp s] a Hg Hf. cbn [sp_put]. destruct (Z.ltb_spec (s_ sp) (end_ sp)); cbn; [|done].
    rewrite peek_poke by (apply Hg; lia). by rewrite decide_False by lia.
Defined.

(** The effect of a whole output. *)
Lemma string_emits l sp s :
  0 <= n_ sp -> n_ sp + Z.of_nat (length l) < 2 ^ 64 ->
  let room := Z.to_nat (end_ sp - s_ sp) in
  emits l (sp, s) =
  (mkStringPrinter (s_ sp + Z.of_nat (room `min` length l)) (end_ sp) (n_ sp + Z.of_nat (length l)),
   pokes (s_ sp) (take room (fst <$> l)) s).
Proof.
  revert sp s. induction l as [|[c col] l IH]; intros sp s Hn Hl; cbn [length] in *.
  - rewrite Nat.min_0_r, !Z.add_0_r. cbn. rewrite take_nil. by destruct sp.
  - change (emits ((c, col) :: l) (sp, s)) with (emits l (sp_put c (sp, s))). cbn [sp_put].
    rewrite wrapU_small by lia. destruct (Z.ltb_spec (s_ sp) (end_ sp)) as [Hlt|Hge].
    + rewrite IH by (cbn; lia). cbn [s_ end_ n_].
      replace (Z.to_nat (end_ sp - s_ sp)) with (Datatypes.S (Z.to_nat (end_ sp - (s_ sp + 1)))) by lia.
      cbn [fmap list_fmap take pokes fst Nat.min]. f_equal. f_equal; lia.
    + rewrite IH by (cbn; lia). cbn [s_ end_ n_].
      replace (Z.to_nat (end_ sp - s_ sp)) with 0%nat by lia. cbn. f_equal. f_equal. lia.
Qed.

(** What a buffer of [size] bytes receives. *)
Definition cut (size : Z) (l : list Z) : list Z :=
  if size =? 0 then [] else take (Z.to_nat size - 1) l ++ [0].

Lemma vsnprintf_run strings ps val out str size a s :
  Forall piece_ok ps -> render strings ps 0 val = Some out -> Z.of_nat (length out) < 2 ^ 63 ->
  0 <= size -> mapped s str size ->
  let away b n := b + Z.of_nat n < str \/ str + size <= b in
  str_at s a (format_text ps) -> away a (length (format_text ps)) ->
  Z.of_nat (length (format_text ps)) < 2 ^ 64 ->
  (forall p l, strings p = Some l -> str_at s p l /\ away p (length l)) ->
  vsnprintf str size a val s = Ok (Z.of_nat (length out), pokes str (cut size (fst <$> out)) s).
Proof.
  intros Hps Hr Hlen Hsz Hm away Hf Ha Hfl Hs. unfold vsnprintf.
  set (sp := mkStringPrinter str (str + size) 0).
  assert (Hheld : forall p l, str_at s p l -> away p (length l) -> held (sp, s) p l).
  { intros p l Hl Hw. split; [exact Hl|]. intros b Hb. cbn. unfold away in Hw. lia. }
  rewrite (vprintf_run strings ps 0 val out a (sp, s) Hps Hr); [| | |intros p l Hp; apply Hheld; by apply Hs|done].
  2: { cbn. replace (str + size - str) with size by lia. done. }
  2: { by apply Hheld. }
  rewrite string_emits by (cbn; lia). cbn [rbind s_ end_ n_ sp].
  replace (str + size - str) with size by lia. rewrite Z.add_0_l. unfold cut.
  assert (Hret : s64 (Z.of_nat (length out)) = Z.of_nat (length out)) by (apply wrapS_small; lia).
  set (n := length out) in *. assert (Hn : length (fst <$> out) = n) by apply length_fmap.
  destruct (Z.eqb_spec size 0) as [->|Hne]; cbn [negb andb rbind]; [by rewrite Hret|].
  assert (Hmt : mapped s str (Z.of_nat (length (take (Z.to_nat size) (fst <$> out))))).
  { eapply mapped_sub; [exact Hm|lia|]. rewrite length_take. lia. }
  assert (Hw : forall b, str <= b < str + size -> is_Some (peek (pokes str (take (Z.to_nat size) (fst <$> out)) s) b)).
  { intros b Hb. rewrite peek_pokes by done. case_decide; [|by apply Hm]. apply lookup_lt_is_Some. lia. }
  destruct (Z.ltb_spec (str + Z.of_nat (Z.to_nat size `min` n)) (str + size)) as [Hlt|Hge].
  - rewrite stb_run by (apply Hw; lia). cbn [rbind]. rewrite Hret. change (u8 0) with 0.
    rewrite !take_ge by lia. rewrite pokes_snoc, Hn. do 3 f_equal. lia.
  - rewrite stb_run by (apply Hw; lia). cbn [rbind]. rewrite Hret. change (u8 0) with 0.
    destruct (lookup_lt_is_Some_2 (fst <$> out) (Z.to_nat size - 1)) as [c Hc]; [lia|].
    replace (Z.to_nat size) with (Datatypes.S (Z.to_nat size - 1)) at 1 by lia.
    rewrite (take_S_r _ _ c) by done. rewrite !pokes_snoc, !length_take.
    replace (str + size - 1) with (str + Z.of_nat ((Z.to_nat size - 1) `min` length (fst <$> out))) by lia.
    by rewrite poke_twice.
Qed.
End strings.

(** ** Reading numbers back *)

(** The conversions of unsigned numbers and their base. *)
Definition base_of (c : conv) : Z := match c with Cx | CX | Cp => 16 | _ => 10 end.

Lemma digit_char_value (upper : bool) base d :
  base ∈ [10; 16] -> 0 <= d < base -> digit_value base (s8 (digit_char upper d)) = Some d.
Proof.
  intros Hb Hd.
  assert (Hs : d = 0 \/ d = 1 \/ d = 2 \/ d = 3 \/ d = 4 \/ d = 5 \/ d = 6 \/ d = 7 \/ d = 8 \/ d = 9 \/
          base = 16 /\ (d = 10 \/ d = 11 \/ d = 12 \/ d = 13 \/ d = 14 \/ d = 15)).
  { rewrite !elem_of_cons in Hb. destruct Hb as [->|[->|[]%not_elem_of_nil]]; lia. }
  rewrite !elem_of_cons in Hb. destruct Hb as [->|[->|[]%not_elem_of_nil]];
    destruct_or! Hs; destruct_and?; destruct_or?; subst; by destruct upper.
Qed.

Lemma numeral_spells base n :
  base ∈ [10; 16; -16] -> 0 <= n < 2 ^ 64 ->
  spells (Z.abs base) (numeral_text base n) (numeral (Z.abs base) n).
Proof.
  intros Hb Hn. unfold spells, numeral_text. apply Forall2_fmap_l.
  assert (Hb' : 2 <= Z.abs base /\ Z.abs base ∈ [10; 16]).
  { rewrite !elem_of_cons in *. destruct Hb as [->|[->|[->|[]%not_elem_of_nil]]]; cbn; (split; [lia|tauto]). }
  destruct (numeral_spec (Z.abs base) n) as (_ & Hd & _); [lia..|].
  induction Hd as [|d ds Hd _ IH]; constructor; [|done]. apply digit_char_value; [by apply Hb'|done].
Qed.

Lemma zeros_spell base z cs ds :
  0 < base -> spells base cs ds -> spells base (replicate z 48 ++ cs) (replicate z 0 ++ ds).
Proof.
  intros Hb Hs. apply Forall2_app; [|done]. induction z; constructor; [|done].
  unfold digit_value. change (s8 48) with 48. cbn. by rewrite (proj2 (Z.ltb_lt _ _)) by lia.
Qed.

Lemma zeros_value base z ds : value base (replicate z 0 ++ ds) = value base ds.
Proof.
  rewrite value_from_app. f_equal. induction z as [|z IH]; [done|]. cbn. exact IH.
Qed.

Lemma blanks_space n : Forall (fun b => isspace (s8 b) = true) (replicate n 32).
Proof. induction n; constructor; done. Qed.

Section parse.
Context {S : Type} `{BytesLaws S}.
Implicit Types (s : S).

Lemma digit_not_low base c d : digit_value base c = Some d -> 48 <= c.
Proof.
  unfold digit_value. intros E.
  repeat match type of E with
  | (if ?b then _ else _) = _ => destruct b eqn:?; simplify_eq/=
  end; rewrite ?andb_true_iff, ?Z.leb_le, ?Z.ltb_lt in *; lia.
Qed.

(** strtoul() in an explicit base, with or without "0x". *)
Lemma base_run s q base pre cs ds e :
  base ∈ [10; 16] -> (pre = [] \/ base = 16 /\ (pre = [48; 120] \/ pre = [48; 88])) ->
  spells base cs ds -> cs <> [] -> s8 e <> 120 -> s8 e <> 88 -> bytes_at s q (pre ++ cs ++ [e]) ->
  strtoul_base q base s = Ok ((base, q + Z.of_nat (length pre)), s).
Proof.
  intros Hb Hpre Hs Hne He1 He2 Hl. unfold strtoul_base.
  rewrite !elem_of_cons in Hb. destruct Hb as [->|[->|[]%not_elem_of_nil]].
  { destruct Hpre as [->|[? _]]; [|done]. cbn. by rewrite Z.add_0_r. }
  change (16 =? 0) with false. change (16 =? 16) with true. cbv iota. unfold hex_prefix.
  destruct Hpre as [->|[_ Hpre]].
  2: { assert (Hx : exists x, pre = [48; x] /\ (s8 x =? 120) || (s8 x =? 88) = true)
         by (destruct Hpre as [->| ->]; eexists; split; reflexivity).
       destruct Hx as (x & -> & Hx). cbn [app] in Hl. apply bytes_at_cons in Hl as [H48 Hl].
       apply bytes_at_cons in Hl as [Hxx _]. rewrite bind_bind, (bind_ok _ _ _ _ _ (ldb_run _ _ _ H48)).
       change (s8 48 =? 48) with true. cbv iota. by rewrite bind_bind, (bind_ok _ _ _ _ _ (ldb_run _ _ _ Hxx)), Hx. }
  cbn [app] in Hl. destruct cs as [|c cs]; [done|]. cbn [app length] in *. rewrite Z.add_0_r.
  apply bytes_at_cons in Hl as [Hc Hl]. rewrite bind_bind, (bind_ok _ _ _ _ _ (ldb_run _ _ _ Hc)).
  destruct (s8 c =? 48); [|done].
  assert (Hd : exists d r, cs ++ [e] = d :: r /\ s8 d <> 120 /\ s8 d <> 88).
  { inversion Hs as [|? ? ? ? _ Hs']; subst. destruct cs as [|d cs]; [by eexists _, _|].
    inversion Hs' as [|? d' ? ? Hd _]; subst. eexists _, _. split; [done|].
    split; intros E; by rewrite E in Hd. }
  destruct Hd as (d & r & Ed & Hd1 & Hd2). rewrite Ed in Hl. apply bytes_at_cons in Hl as [Hd _].
  rewrite bind_bind, (bind_ok _ _ _ _ _ (ldb_run _ _ _ Hd)).
  by rewrite (proj2 (Z.eqb_neq _ _) Hd1), (proj2 (Z.eqb_neq _ _) Hd2).
Qed.

(** A numeral with zeros in front, behind blanks, a sign and a base. *)
Lemma parse_number s p sp sg pre base z m e :
  Forall (fun b => isspace (s8 b) = true) sp -> sg ∈ [[]; [43]; [45]] -> base ∈ [10; 16; -16] -> 0 <= m < 2 ^ 64 ->
  (pre = [] \/ Z.abs base = 16 /\ (pre = [48; 120] \/ pre = [48; 88])) -> e = 0 \/ e = 32 ->
  let cs := replicate z 48 ++ numeral_text base m in
  let text := sp ++ sg ++ pre ++ cs in
  bytes_at s p (text ++ [e]) -> Z.of_nat (length text) < 2 ^ 64 ->
  strtoul p (Z.abs base) s =
  Ok ((if decide (sg = [45]) then u64 (- m) else m, p + Z.of_nat (length text)), s).
Proof.
  intros Hsp Hsg Hbase Hm Hpre He cs text Hl Hn.
  assert (Hb : Z.abs base ∈ [10; 16] /\ 2 <= Z.abs base <= 16).
  { rewrite !elem_of_cons in *. destruct Hbase as [->|[->|[->|[]%not_elem_of_nil]]]; cbn; (split; [tauto|lia]). }
  destruct Hb as [Hb Hb2].
  pose proof (zeros_spell (Z.abs base) z _ _ ltac:(lia) (numeral_spells base m Hbase Hm)) as Hs. fold cs in Hs.
  destruct (numeral_spec (Z.abs base) m) as (Hv & _ & Hnn); [lia..|].
  assert (Hne : cs <> []).
  { subst cs. intros [_ E]%app_eq_nil. unfold numeral_text in E. by apply fmap_nil_inv in E. }
  assert (Ee : digit_value (Z.abs base) (s8 e) = None /\ s8 e <> 120 /\ s8 e <> 88).
  { rewrite !elem_of_cons in Hb. by destruct He as [->| ->], Hb as [->|[->|[]%not_elem_of_nil]]. }
  destruct Ee as (Hend & He1 & He2).
  subst text. rewrite !length_app in Hn. rewrite <- !app_assoc in Hl.
  pose proof Hl as Hq. apply bytes_at_app in Hq as [_ Hq]. apply bytes_at_app in Hq as [_ Hq].
  rewrite (strtoul_run s p sp sg pre cs (replicate z 0 ++ numeral (Z.abs base) m) e (Z.abs base) (Z.abs base));
    [|done|done| |done| |lia|done|done|lia].
  - unfold saturated, ULONG_MAX. rewrite zeros_value, Hv, Z.min_l by lia. do 3 f_equal.
    rewrite !length_app. lia.
  - intros _. assert (H48 : 48 <= s8 (hd 0 (pre ++ cs ++ [e]))).
    { destruct Hpre as [->|[_ [->| ->]]]; [|cbn [app hd]; change (s8 48) with 48; lia..]. cbn [app].
      destruct cs as [|c cs']; [done|]. cbn [app hd]. inversion Hs as [|? d ? ? Hd _]; subst.
      by apply digit_not_low in Hd. }
    split; [|lia]. unfold isspace. apply orb_false_iff. rewrite andb_false_iff, !Z.leb_gt, Z.eqb_neq. lia.
  - by apply (base_run s _ (Z.abs base) pre cs (replicate z 0 ++ numeral (Z.abs base) m) e).
Qed.

(** strtol() takes the minus sign itself. *)
Lemma parse_signed s p sp sg z m e :
  Forall (fun b => isspace (s8 b) = true) sp -> sg ∈ [[]; [43]; [45]] -> 0 <= m < 2 ^ 63 -> e = 0 \/ e = 32 ->
  let text := sp ++ sg ++ replicate z 48 ++ numeral_text 10 m in
  bytes_at s p (text ++ [e]) -> Z.of_nat (length text) < 2 ^ 64 ->
  strtol p 10 s = Ok ((if decide (sg = [45]) then - m else m, p + Z.of_nat (length text)), s).
Proof.
  intros Hsp Hsg Hm He text Hl Hn. subst text. set (cs := replicate z 48 ++ numeral_text 10 m) in *.
  rewrite <- !app_assoc in Hl. rewrite !length_app in Hn.
  assert (H10 : 10 ∈ [10; 16; -16]) by left.
  assert (Hcs : exists c r, cs ++ [e] = c :: r /\ 48 <= s8 c).
  { pose proof (zeros_spell 10 z _ _ ltac:(lia) (numeral_spells 10 m H10 ltac:(lia))) as Hs. fold cs in Hs.
    change (Z.abs 10) with 10 in Hs. destruct (numeral_spec 10 m) as (_ & _ & Hnn); [lia..|].
    destruct cs as [|c cs'] eqn:Ecs.
    - apply app_eq_nil in Ecs as [_ E]. unfold numeral_text in E. by apply fmap_nil_inv in E.
    - eexists c, _. split; [done|]. inversion Hs as [|? d ? ? Hd _]; subst. by apply digit_not_low in Hd. }
  destruct Hcs as (c & r & Ecs & Hc).
  assert (Hd : exists d r, sg ++ cs ++ [e] = d :: r /\ isspace (s8 d) = false /\
                 (s8 d =? 45) = bool_decide (sg = [45])).
  { rewrite !elem_of_cons in Hsg. destruct Hsg as [->|[->|[->|[]%not_elem_of_nil]]]; [|by eexists _, _..].
    rewrite Ecs. eexists _, _. split; [reflexivity|]. unfold isspace.
    rewrite (proj2 (Z.leb_gt _ 13)), andb_false_r, !(proj2 (Z.eqb_neq _ _)) by lia. done. }
  destruct Hd as (d & r' & Ed & Hnsp & Hneg).
  unfold strtol. erewrite bind_ok.
  2: { apply (skip_space_run s sp d); [done..|eapply bytes_at_next; [exact Hl|exact Ed]|lia]. }
  apply bytes_at_app in Hl as [_ Hl]. pose proof Hl as Hp. rewrite Ed in Hp. apply bytes_at_cons in Hp as [Hp _].
  rewrite (bind_ok _ _ _ _ _ (ldb_run _ _ _ Hp)), Hneg. cbv zeta.
  set (q := p + Z.of_nat (length sp)) in *.
  case_bool_decide as Hsgn; [subst sg|].
  - cbn [app length] in *. apply bytes_at_cons in Hl as [_ Hl].
    rewrite (bind_ok _ _ _ _ _ (parse_number s (q + 1) [] [] [] 10 z m e ltac:(constructor) ltac:(left) H10
               ltac:(lia) ltac:(by left) He Hl ltac:(cbn [app length]; fold cs; lia))).
    rewrite decide_False, decide_True by done. cbn [b2z negb app length]. fold cs.
    change (Z.shiftl 1 63 - 0) with (2 ^ 63). rewrite (proj2 (Z.ltb_ge _ _)) by lia.
    unfold ret. do 3 f_equal; [|rewrite !length_app; cbn [length]; lia].
    transitivity (s64 (- m)); [apply wrapS_congr; unfold wrapU; by rewrite Zmod_mod|apply wrapS_small; lia].
  - rewrite (bind_ok _ _ _ _ _ (parse_number s q [] sg [] 10 z m e ltac:(constructor) Hsg H10
               ltac:(lia) ltac:(by left) He ltac:(cbn [app]; fold cs; rewrite <- app_assoc; exact Hl)
               ltac:(cbn [app]; fold cs; rewrite length_app; lia))).
    rewrite !decide_False by done. cbn [b2z negb app]. fold cs.
    change (Z.shiftl 1 63 - 1) with (2 ^ 63 - 1). rewrite (proj2 (Z.ltb_ge _ _)) by lia.
    unfold ret. do 3 f_equal; [apply wrapS_small; lia|rewrite !length_app; lia].
Qed.

(** The text of a number: blanks, sign or base, zeros, digits, blanks. *)
Lemma number_shape fs left width prec prefix ds :
  exists n1 z n2, pad left width (number_text fs width prec prefix ds) =
    replicate n1 32 ++ prefix ++ (replicate z 48 ++ ds) ++ replicate n2 32.
Proof.
  unfold pad, number_text. set (z := Z.to_nat (match prec with Some p => _ | None => _ end)).
  set (n := Z.to_nat (width - _)). destruct left.
  - exists 0%nat, z, n. by rewrite <- !app_assoc.
  - exists n, z, 0%nat. by rewrite app_nil_r.
Qed.

(** Conversions of long arguments, and how their output is read. *)
Definition parse (c : conv) (p : Z) : M S (Z * Z) :=
  match c with Cd | Ci => strtol p 10 | _ => strtoul p (base_of c) end.

Definition long_value (c : conv) (v : Z) : Prop :=
  match c with Cd | Ci => - 2 ^ 63 < v < 2 ^ 63 | _ => 0 <= v < 2 ^ 64 end.

Lemma number_parses strings fs wf pf c width prec v out s p :
  c ∈ [Cd; Ci; Cu; Cx; CX] -> long_value c v ->
  convert strings (mkDirective fs wf pf true c) width prec (u64 v) = Some out ->
  bytes_at s p (out ++ [0]) -> Z.of_nat (length out) < 2 ^ 64 ->
  exists e, parse c p s = Ok ((v, e), s).
Proof.
  intros Hc Hv Hconv Hl Hn.
  (* the character behind the digits *)
  assert (Hend : forall l n2, out = l ++ replicate n2 32 ->
            exists e, (e = 0 \/ e = 32) /\ bytes_at s p (l ++ [e]) /\ Z.of_nat (length l) < 2 ^ 64).
  { intros l n2 ->. rewrite length_app in Hn. rewrite <- app_assoc in Hl.
    destruct n2; [exists 0|exists 32]; split_and!; try tauto; try lia; eapply bytes_at_next; done. }
  assert (Hsigned : forall ds, out = pad (bool_decide (Left ∈ fs)) width
             (number_text fs width prec (sign_prefix fs (v <? 0)) ds) -> ds = numeral_text 10 (Z.abs v) ->
           - 2 ^ 63 < v < 2 ^ 63 -> exists e, strtol p 10 s = Ok ((v, e), s)).
  { intros ds -> -> Hv'.
    destruct (number_shape fs (bool_decide (Left ∈ fs)) width prec (sign_prefix fs (v <? 0)) (numeral_text 10 (Z.abs v)))
      as (n1 & z & n2 & E).
    assert (Hsg : exists k sg, sign_prefix fs (v <? 0) = replicate k 32 ++ sg /\ sg ∈ [[]; [43]; [45]] /\
              (if decide (sg = [45]) then - Z.abs v else Z.abs v) = v).
    { unfold sign_prefix. destruct (Z.ltb_spec v 0); [exists 0%nat, [45]; split_and!; [done|by right; right; left|rewrite decide_True by done; lia]|].
      destruct (bool_decide (Plus ∈ fs)); [exists 0%nat, [43]; split_and!; [done|by right; left|rewrite decide_False by done; lia]|].
      destruct (bool_decide (Space ∈ fs)); [exists 1%nat, []|exists 0%nat, []]; (split_and!; [done|by left|rewrite decide_False by done; lia]). }
    destruct Hsg as (k & sg & Esg & Hsg & Ev). rewrite Esg in E at 2.
    destruct (Hend (replicate (n1 + k) 32 ++ sg ++ replicate z 48 ++ numeral_text 10 (Z.abs v)) n2) as (e & He & Hle & Hnl).
    { rewrite E, replicate_add. by rewrite <- !app_assoc. }
    eexists. rewrite (parse_signed s p _ sg z (Z.abs v) e (blanks_space _) Hsg ltac:(lia) He Hle Hnl). by rewrite Ev. }
  assert (Hunsigned : forall base pre, out = pad (bool_decide (Left ∈ fs)) width
             (number_text fs width prec pre (numeral_text base v)) -> base ∈ [10; 16; -16] -> 0 <= v < 2 ^ 64 ->
           (pre = [] \/ Z.abs base = 16 /\ (pre = [48; 120] \/ pre = [48; 88])) ->
           exists e, strtoul p (Z.abs base) s = Ok ((v, e), s)).
  { intros base pre -> Hb Hv' Hpre.
    destruct (number_shape fs (bool_decide (Left ∈ fs)) width prec pre (numeral_text base v)) as (n1 & z & n2 & E).
    destruct (Hend (replicate n1 32 ++ [] ++ pre ++ replicate z 48 ++ numeral_text base v) n2) as (e & He & Hle & Hnl).
    { rewrite E. by rewrite <- !app_assoc. }
    eexists. by rewrite (parse_number s p _ [] pre base z v e (blanks_space _) ltac:(left) Hb Hv' Hpre He Hle Hnl). }
  unfold convert in Hconv. cbn [d_flags d_conv d_long] in Hconv. rewrite wrapU_idem in Hconv.
  rewrite !elem_of_cons in Hc. destruct Hc as [->|[->|[->|[->|[->|[]%not_elem_of_nil]]]]];
    cbn [parse base_of long_value] in *.
  1, 2: assert (Es : s64 (u64 v) = v) by (etrans; [apply wrapS_congr; unfold wrapU; apply Zmod_mod|apply wrapS_small; lia]);
    rewrite Es in Hconv; destruct (v =? - 2 ^ 63); simplify_eq; by eapply Hsigned.
  all: rewrite wrapU_small in Hconv by done; simplify_eq.
  - apply (Hunsigned 10 []); [done|by left|done|by left].
  - apply (Hunsigned (-16) (base_prefix fs 120 v)); [done|by right; right; left|done|].
    unfold base_prefix. destruct (_ && _); [right; split; [done|by left]|by left].
  - apply (Hunsigned 16 (base_prefix fs 88 v)); [done|by right; left|done|].
    unfold base_prefix. destruct (_ && _); [right; split; [done|by right]|by left].
Qed.
End parse.
