(* ===== verification/ConsoleProofs.v ===== *)
(** * The console

    A terminal of 25 lines of 80 cells as an abstract state machine, and the
    proof that the console of lib.cc, an array of 16-bit cells in memory,
    implements it: each character updates the cells as the terminal does,
    scrolling moves the lines with memmove(), and no byte outside the array and
    the cursor position changes. *)
From stdpp Require Import prelude gmap list.
From Stdlib Require Import ZArith Lia.
From S2P Require Import Prelude Memory Vm Lib LibProofs Printer PrinterProofs.
Open Scope Z_scope.
Open Scope c_scope.

(** ** The terminal *)

(** The cells, the cursor (up to the end of the last line) and whether output
    behind the last line scrolls or goes on at the top. *)
Record terminal_state := mkTerm { t_cells : list Z; t_cursor : nat; t_scroll : bool }.

Definition SCREEN : nat := 2000.
Definition COLUMNS : nat := 80.

(** Make room for a character. *)
Definition term_room (t : terminal_state) : terminal_state :=
  if bool_decide (t_cursor t = SCREEN) then
    if t_scroll t then mkTerm (drop COLUMNS (t_cells t) ++ replicate COLUMNS 0) (SCREEN - COLUMNS) true
    else mkTerm (t_cells t) 0 false
  else t.

(** Write [l] at the cursor. *)
Definition term_write (l : list Z) (t : terminal_state) : terminal_state :=
  mkTerm (take (t_cursor t) (t_cells t) ++ l ++ drop (t_cursor t + length l) (t_cells t))
         (t_cursor t + length l) (t_scroll t).

(** A line feed blanks the rest of the line. *)
Definition term_put (c color : Z) (t : terminal_state) : terminal_state :=
  let t := term_room t in
  if c =? 10 then term_write (replicate (COLUMNS - t_cursor t mod COLUMNS) (u16 (Z.lor 32 color))) t
  else term_write [u16 (Z.lor c color)] t.

Definition term_puts (l : list (Z * Z)) (t : terminal_state) : terminal_state :=
  fold_left (fun t '(c, col) => term_put c col t) l t.

Definition term_ok (t : terminal_state) : Prop := length (t_cells t) = SCREEN /\ (t_cursor t <= SCREEN)%nat.

Lemma term_room_ok t : term_ok t -> term_ok (term_room t) /\ (t_cursor (term_room t) < SCREEN)%nat.
Proof.
  intros [Hl Hc]. unfold term_room, term_ok, SCREEN, COLUMNS in *. case_bool_decide; [|split; [done|lia]].
  destruct (t_scroll t); cbn [t_cells t_cursor]; [|split; [split|]; lia].
  rewrite length_app, length_drop, length_replicate. lia.
Qed.

Lemma term_write_ok l t :
  term_ok t -> (t_cursor t + length l <= SCREEN)%nat -> term_ok (term_write l t).
Proof.
  intros [Hl Hc] Hn. unfold term_ok, term_write; cbn [t_cells t_cursor].
  rewrite !length_app, length_take, length_drop. lia.
Qed.

(** The rest of a line fits. *)
Lemma line_rest c : (c < SCREEN -> c + (COLUMNS - c mod COLUMNS) <= SCREEN)%nat.
Proof.
  unfold SCREEN, COLUMNS. intros Hc.
  pose proof (Nat.div_mod_eq c 80). pose proof (Nat.mod_upper_bound c 80 ltac:(lia)).
  assert (c / 80 < 25)%nat by (apply Nat.Div0.div_lt_upper_bound; lia). lia.
Qed.

(** ** Cells in memory *)

Definition cell_bytes (v : Z) : list Z := [v mod 256; v / 256].
Definition screen_bytes (l : list Z) : list Z := l ≫= cell_bytes.

Abbreviation cell v := (0 <= v < 2 ^ 16).

Lemma length_screen_bytes l : length (screen_bytes l) = (2 * length l)%nat.
Proof. induction l as [|v l IH]; [done|]. cbn [screen_bytes mbind list_bind cell_bytes app length] in *.
  change (l ≫= cell_bytes) with (screen_bytes l). lia. Qed.

Lemma screen_bytes_app l k : screen_bytes (l ++ k) = screen_bytes l ++ screen_bytes k.
Proof. apply bind_app. Qed.

Lemma screen_bytes_ok l : Forall (fun v => cell v) l -> Forall (fun b => byte b) (screen_bytes l).
Proof.
  induction 1 as [|v l Hv _ IH]; [constructor|]. cbn [screen_bytes mbind list_bind cell_bytes app].
  constructor; [apply Z.mod_pos_bound; lia|]. constructor; [|done].
  split; [apply Z.div_pos; lia|apply Z.div_lt_upper_bound; lia].
Qed.

Lemma screen_bytes_zero n : screen_bytes (replicate n 0) = replicate (2 * n) 0.
Proof.
  induction n as [|n IH]; [done|]. replace (2 * S n)%nat with (S (S (2 * n))) by lia.
  cbn [replicate screen_bytes mbind list_bind cell_bytes app]. change (replicate n 0 ≫= cell_bytes) with (screen_bytes (replicate n 0)).
  by rewrite IH.
Qed.

Section memory.
Context {S : Type} `{BytesLaws S}.
Implicit Types (s : S).

(** The array console holds [cells]. *)
Definition shows s (cells : list Z) : Prop :=
  bytes_at s console (screen_bytes cells) /\ Forall (fun v => cell v) cells /\ length cells = SCREEN.

(** No byte outside the array differs. *)
Definition only_console s s' : Prop := touches (fun a => console <= a < console + 4000) s s'.

Lemma only_console_trans s1 s2 s3 : only_console s1 s2 -> only_console s2 s3 -> only_console s1 s3.
Proof. apply touches_trans. Qed.

Lemma shows_mapped s cells : shows s cells -> mapped s console 4000.
Proof.
  intros (Hb & _ & Hl). apply bytes_at_mapped in Hb. rewrite length_screen_bytes, Hl in Hb. exact Hb.
Qed.

(** Storing cells [l] from index [i] on. *)
Lemma shows_pokes s cells l i :
  shows s cells -> Forall (fun v => cell v) l -> (i + length l <= SCREEN)%nat ->
  let s' := pokes (console + 2 * Z.of_nat i) (screen_bytes l) s in
  shows s' (take i cells ++ l ++ drop (i + length l) cells) /\ only_console s s'.
Proof.
  intros (Hb & Hv & Hl) Hlv Hi s'. unfold SCREEN in *.
  assert (Hm : mapped s (console + 2 * Z.of_nat i) (Z.of_nat (length (screen_bytes l)))).
  { eapply mapped_sub; [by eapply shows_mapped|lia|]. rewrite length_screen_bytes. lia. }
  split; [split_and!|].
  - rewrite !screen_bytes_app. rewrite <- (take_drop i cells), screen_bytes_app in Hb.
    rewrite <- (take_drop (length l) (drop i cells)), drop_drop, screen_bytes_app in Hb.
    apply bytes_at_app in Hb as [Hb1 Hb]. apply bytes_at_app in Hb as [_ Hb2].
    rewrite !length_screen_bytes, !length_take, ?length_drop in Hb2.
    apply bytes_at_app. split.
    + apply bytes_at_pokes_out; [done|done|]. rewrite length_screen_bytes, length_take. lia.
    + apply bytes_at_app. rewrite !length_screen_bytes, length_take. split.
      * replace (console + Z.of_nat (2 * (i `min` length cells))) with (console + 2 * Z.of_nat i) by lia.
        by apply bytes_at_pokes.
      * apply bytes_at_pokes_out; [done| |rewrite !length_screen_bytes; lia].
        replace (length l `min` (length cells - i))%nat with (length l) in Hb2 by lia. exact Hb2.
  - apply Forall_app; split; [by apply Forall_take|]. apply Forall_app; split; [done|by apply Forall_drop].
  - rewrite !length_app, length_take, length_drop. unfold SCREEN; lia.
  - apply touches_pokes; [done|]. rewrite length_screen_bytes. lia.
Qed.
End memory.

(** ** The printer *)

Section console.
Context {S : Type} `{BytesLaws S}.
Implicit Types (s : S) (t : terminal_state).

(** The console printer and the memory implement a terminal. *)
Definition refines (cp : console_printer) s t : Prop :=
  shows s (t_cells t) /\ cell_ cp = Z.of_nat (t_cursor t) /\ scroll_ cp = t_scroll t /\ (t_cursor t <= SCREEN)%nat.

Lemma refines_ok cp s t : refines cp s t -> term_ok t.
Proof. intros ((_ & _ & Hl) & _ & _ & Hc). done. Qed.

Lemma set_cell_run s i v :
  is_Some (peek s (console + 2 * i)) -> is_Some (peek s (console + 2 * i + 1)) ->
  set_cell i v s = Ok (tt, pokes (console + 2 * i) (cell_bytes (u16 v)) s).
Proof.
  intros H1 H2. unfold set_cell, st16. rewrite (bind_ok _ _ _ _ _ (stb_run _ _ _ H1)).
  rewrite stb_run by (rewrite peek_poke by done; case_decide; [lia|done]).
  cbn [cell_bytes pokes]. pose proof (wrapU_range 16 v ltac:(lia)) as Hr.
  rewrite Z.shiftr_div_pow2 by lia. change (2 ^ 8) with 256.
  rewrite (u8_byte (u16 v / 256)); [done|].
  split; [apply Z.div_pos; lia|apply Z.div_lt_upper_bound; lia].
Qed.

(** Writing one cell, and a row of equal cells. *)
Lemma write_cell cp s t v :
  refines cp s t -> (t_cursor t < SCREEN)%nat ->
  exists s', set_cell (cell_ cp) v s = Ok (tt, s') /\ only_console s s' /\
    refines (mkConsolePrinter (cell_ cp + 1) (scroll_ cp)) s' (term_write [u16 v] t).
Proof.
  intros (Hs & Hc & Hsc & _) Hlt. pose proof (shows_mapped _ _ Hs) as Hm. unfold SCREEN in *.
  assert (Hu : Forall (fun v => cell v) [u16 v]).
  { constructor; [apply (wrapU_range 16); lia|constructor]. }
  destruct (shows_pokes s (t_cells t) [u16 v] (t_cursor t) Hs Hu ltac:(cbn; unfold SCREEN; lia)) as [Hs' Ho].
  eexists. split; [rewrite Hc; apply set_cell_run; apply Hm; lia|]. cbn [screen_bytes mbind list_bind] in *.
  rewrite app_nil_r in *. split; [exact Ho|]. split_and!; [exact Hs'|cbn; lia|done|cbn; unfold SCREEN; lia].
Qed.

Lemma term_write_app l k t :
  (t_cursor t + length l <= length (t_cells t))%nat ->
  term_write k (term_write l t) = term_write (l ++ k) t.
Proof.
  intros Hn. unfold term_write; cbn [t_cells t_cursor t_scroll]. rewrite length_app. f_equal; [|lia].
  rewrite (app_assoc (take _ _) l), take_app_length' by (rewrite length_app, length_take; lia).
  rewrite drop_app_ge by (rewrite length_app, length_take; lia).
  rewrite drop_drop, <- !app_assoc. do 4 f_equal. rewrite length_app, length_take. lia.
Qed.

Lemma blanks_run n cp s t color :
  refines cp s t -> (t_cursor t + n <= SCREEN)%nat ->
  exists s', blanks n (cell_ cp) color s = Ok (cell_ cp + Z.of_nat n, s') /\ only_console s s' /\
    refines (mkConsolePrinter (cell_ cp + Z.of_nat n) (scroll_ cp)) s'
      (term_write (replicate n (u16 (Z.lor 32 color))) t).
Proof.
  revert cp s t. induction n as [|n IH]; intros cp s t Hr Hn.
  - exists s. cbn [blanks replicate]. rewrite Z.add_0_r. split_and!; [done|constructor|].
    destruct Hr as (? & ? & ? & ?). unfold refines, term_write; cbn [t_cells t_cursor t_scroll length app cell_ scroll_].
    rewrite Nat.add_0_r, take_drop. done.
  - pose proof (refines_ok _ _ _ Hr) as [Hlen _].
    destruct (write_cell cp s t (Z.lor 32 color) Hr ltac:(lia)) as (s1 & E & Ho & Hr1).
    destruct (IH _ _ _ Hr1) as (s2 & E2 & Ho2 & Hr2); [cbn; lia|].
    exists s2. cbn [blanks]. rewrite (bind_ok _ _ _ _ _ E).
    replace (cell_ cp + Z.of_nat (Datatypes.S n)) with (cell_ cp + 1 + Z.of_nat n) by lia.
    split_and!; [exact E2|by eapply only_console_trans|].
    rewrite term_write_app in Hr2 by (cbn; lia). exact Hr2.
Qed.

(** scroll() moves the lines up and clears the last one. *)
Lemma scroll_run cp s t :
  refines cp s t -> t_cursor t = SCREEN ->
  exists cp' s', scroll cp s = Ok (cp', s') /\ only_console s s' /\ refines cp' s' (term_room t).
Proof.
  intros (Hs & Hc & Hsc & _) Hcur. unfold scroll, term_room. rewrite Hc, Hcur, bool_decide_eq_true_2 by done.
  cbn [c_assert]. change (c_assert (CONSOLE_ROWS * CONSOLE_COLUMNS <=? Z.of_nat SCREEN)) with (@ret S unit tt).
  rewrite bind_ret, Hsc. destruct (t_scroll t).
  2: { eexists _, s. split; [reflexivity|]. split; [constructor|]. by split_and!; [|..|cbn; lia]. }
  pose proof Hs as (Hb & Hv & Hl). set (cells := t_cells t) in *.
  set (l := screen_bytes (drop COLUMNS cells)).
  assert (Hll : Z.of_nat (length l) = 3840).
  { subst l. rewrite length_screen_bytes, length_drop, Hl. reflexivity. }
  assert (Hsrc : bytes_at s (console + 2 * CONSOLE_COLUMNS) l).
  { rewrite <- (take_drop COLUMNS cells), screen_bytes_app in Hb. apply bytes_at_app in Hb as [_ Hb].
    rewrite length_screen_bytes, length_take, Hl in Hb. exact Hb. }
  pose proof (shows_mapped _ _ Hs) as Hm.
  assert (Hm1 : mapped s console (Z.of_nat (length l))) by (eapply mapped_sub; [exact Hm|lia..]).
  pose proof (memmove_run l console (console + 2 * CONSOLE_COLUMNS) s Hsrc
                (screen_bytes_ok _ (Forall_drop _ _ _ Hv)) Hm1) as E1. rewrite Hll in E1.
  change ((CONSOLE_ROWS - 1) * CONSOLE_COLUMNS * 2) with 3840. rewrite (bind_ok _ _ _ _ _ E1).
  set (s1 := pokes console l s) in *.
  assert (Hm2 : mapped s1 (console + 3840) 160).
  { intros b Hb'. subst s1. rewrite peek_pokes by done. case_decide; [lia|]. apply Hm. lia. }
  pose proof (memset_run 160 (console + 3840) 0 s1 Hm2 ltac:(lia)) as E2.
  change (console + 2 * ((CONSOLE_ROWS - 1) * CONSOLE_COLUMNS)) with (console + 3840).
  change (CONSOLE_COLUMNS * 2) with 160. rewrite (bind_ok _ _ _ _ _ E2).
  assert (Es : pokes (console + 3840) (replicate (Z.to_nat 160) (u8 0)) s1
               = pokes console (screen_bytes (drop COLUMNS cells ++ replicate COLUMNS 0)) s).
  { rewrite screen_bytes_app, screen_bytes_zero, pokes_app. fold l. rewrite Hll. reflexivity. }
  rewrite Es.
  destruct (shows_pokes s cells (drop COLUMNS cells ++ replicate COLUMNS 0) 0 Hs) as [Hs' Ho].
  { apply Forall_app. split; [by apply Forall_drop|]. apply Forall_replicate. lia. }
  { rewrite length_app, length_drop, length_replicate, Hl. unfold SCREEN, COLUMNS. lia. }
  eexists _, _. split; [reflexivity|]. change (console + 2 * Z.of_nat 0) with console in *. split; [exact Ho|].
  split_and!; [|reflexivity|done|cbn; unfold SCREEN, COLUMNS; lia]. cbn [t_cells]. cbn [take app] in Hs'.
  rewrite length_app, length_drop, length_replicate, Hl in Hs'.
  rewrite (drop_ge cells (0 + (SCREEN - COLUMNS + COLUMNS))) in Hs' by (rewrite Hl; unfold SCREEN, COLUMNS; lia).
  by rewrite app_nil_r in Hs'.
Qed.

(** The loop of putc() that makes room. *)
Lemma room_run cp s t :
  refines cp s t ->
  exists cp' s',
    loopM (fun cp => if CONSOLE_ROWS * CONSOLE_COLUMNS <=? cell_ cp then cp <- scroll cp;; ret (inl cp)
                     else ret (inr cp)) cp s = Ok (cp', s') /\
    only_console s s' /\ refines cp' s' (term_room t).
Proof.
  intros Hr. pose proof (refines_ok _ _ _ Hr) as Hok. destruct (term_room_ok t Hok) as [Hok' Hlt].
  assert (Hexit : forall cp s, refines cp s (term_room t) ->
            (CONSOLE_ROWS * CONSOLE_COLUMNS <=? cell_ cp) = false).
  { intros c ? (_ & -> & _). apply Z.leb_gt. unfold SCREEN in Hlt.
    change (CONSOLE_ROWS * CONSOLE_COLUMNS) with 2000. lia. }
  destruct (decide (t_cursor t = SCREEN)) as [Hcur|Hcur].
  - destruct (scroll_run cp s t Hr Hcur) as (cp' & s' & E & Ho & Hr').
    exists cp', s'. split; [|done]. eapply (loopM_runs _ 2); [|lia].
    eapply runs_step; [|constructor; by rewrite (Hexit cp' s')].
    destruct Hr as (_ & -> & _). rewrite Hcur. change (CONSOLE_ROWS * CONSOLE_COLUMNS <=? Z.of_nat SCREEN) with true.
    cbv iota. by rewrite (bind_ok _ _ _ _ _ E).
  - assert (Er : term_room t = t) by (unfold term_room; by rewrite bool_decide_eq_false_2).
    exists cp, s. rewrite Er in *. split_and!; [|constructor|done].
    eapply (loopM_runs _ 1); [|lia]. constructor. by rewrite (Hexit cp s).
Qed.

(** console_printer::putc() is the terminal's step. *)
Lemma console_put_run cp s t c color :
  refines cp s t ->
  exists cp' s', console_put cp c color s = Ok (cp', s') /\ only_console s s' /\
    refines cp' s' (term_put c color t).
Proof.
  intros Hr. destruct (term_room_ok t (refines_ok _ _ _ Hr)) as [_ Hlt].
  destruct (room_run cp s t Hr) as (cp1 & s1 & E1 & Ho1 & Hr1).
  unfold console_put, term_put. rewrite (bind_ok _ _ _ _ _ E1). cbv zeta. set (t1 := term_room t) in *.
  destruct (c =? 10).
  - pose proof Hr1 as (_ & Hc & _). pose proof (line_rest _ Hlt) as Hrest.
    assert (En : Z.to_nat (80 - Z.rem (cell_ cp1) 80) = (COLUMNS - t_cursor t1 mod COLUMNS)%nat).
    { rewrite Hc, Z.rem_mod_nonneg by lia. change 80 with (Z.of_nat COLUMNS). rewrite <- Nat2Z.inj_mod. lia. }
    rewrite En. destruct (blanks_run _ cp1 s1 t1 color Hr1 Hrest) as (s2 & E2 & Ho2 & Hr2).
    rewrite (bind_ok _ _ _ _ _ E2). eexists _, s2. split; [reflexivity|].
    split; [by eapply only_console_trans|exact Hr2].
  - destruct (write_cell cp1 s1 t1 (Z.lor c color) Hr1 Hlt) as (s2 & E2 & Ho2 & Hr2).
    rewrite (bind_ok _ _ _ _ _ E2). eexists _, s2. split; [reflexivity|].
    split; [by eapply only_console_trans|exact Hr2].
Qed.

#[export] Instance console_laws : PrinterLaws (console_printer * S).
Proof.
  refine {|
    good := fun '(cp, s) => exists t, refines cp s t;
    fixed := fun _ a => ~ (console <= a < console + 4000);
    put1 := fun c col '(cp, s) =>
      match console_put cp c col s with Ok (cp', s') => (cp', s') | Err _ => (cp, s) end
  |}.
  - intros c col [cp s] [t Hr] _. destruct (console_put_run cp s t c col Hr) as (cp' & s' & E & _).
    unfold putc, console_putc, get, bind, on_mem, modify. by rewrite E.
  - intros c col [cp s] [t Hr]. destruct (console_put_run cp s t c col Hr) as (cp' & s' & -> & _ & Hr'). by eexists.
  - done.
  - intros c col [cp s] a [t Hr] Ha. destruct (console_put_run cp s t c col Hr) as (cp' & s' & -> & Ho & _).
    by apply (touches_peek _ _ _ _ Ho).
Defined.

Lemma console_emits l cp s t :
  refines cp s t ->
  exists cp' s', emits l (cp, s) = (cp', s') /\ only_console s s' /\ refines cp' s' (term_puts l t).
Proof.
  revert cp s t. induction l as [|[c col] l IH]; intros cp s t Hr; [exists cp, s; split; [reflexivity|split; [constructor|exact Hr]]|].
  destruct (console_put_run cp s t c col Hr) as (cp1 & s1 & E & Ho & Hr1).
  destruct (IH cp1 s1 _ Hr1) as (cp2 & s2 & E2 & Ho2 & Hr2).
  exists cp2, s2. split_and!; [|by eapply only_console_trans|exact Hr2].
  rewrite emits_cons. assert (Ep : put1 c col (cp, s) = (cp1, s1)) by (unfold put1, console_laws; by rewrite E).
  rewrite Ep. exact E2.
Qed.

(** *** The cursor *)

Definition cursor_at s (c : nat) : Prop := bytes_at s cursorpos (le_split 4 (Z.of_nat c)).

Lemma ld32_run s a v : bytes_at s a (le_split 4 v) -> 0 <= v < 2 ^ 32 -> ld32 a s = Ok (v, s).
Proof.
  intros Hl Hv. unfold ld32.
  assert (Hb : forall (i : nat), (i < 4)%nat -> peek s (a + Z.of_nat i) = Some (le_split 4 v !!! i)).
  { intros i Hi. apply Hl. apply list_lookup_lookup_total_lt. by rewrite length_le_split. }
  pose proof (Hb 0%nat ltac:(lia)) as H0'. rewrite Z.add_0_r in H0'.
  rewrite (bind_ok _ _ _ _ _ (ldb_run _ _ _ H0')), (bind_ok _ _ _ _ _ (ldb_run _ _ _ (Hb 1%nat ltac:(lia)))).
  rewrite (bind_ok _ _ _ _ _ (ldb_run _ _ _ (Hb 2%nat ltac:(lia)))), (bind_ok _ _ _ _ _ (ldb_run _ _ _ (Hb 3%nat ltac:(lia)))).
  change (ret (le_combine (le_split 4 v)) s = Ok (v, s)). rewrite le_combine_split. unfold ret.
  rewrite Z.mod_small; [done|]. change (256 ^ Z.of_nat 4) with (2 ^ 32). lia.
Qed.

Lemma st32_run s a v : mapped s a 4 -> 0 <= v -> st32 a v s = Ok (tt, pokes a (le_split 4 v) s).
Proof.
  intros Hm Hv. unfold st32, st16.
  assert (Hp : forall b s1, a <= b < a + 4 -> mapped s1 a 4 -> is_Some (peek s1 b)) by (intros b s1 ? Hm1; by apply Hm1).
  assert (Hk : forall b w s1, a <= b < a + 4 -> mapped s1 a 4 -> mapped (poke b w s1) a 4).
  { intros. apply mapped_poke; [done|]. by apply Hp. }
  assert (Hs : forall b w s1, a <= b < a + 4 -> mapped s1 a 4 -> stb b w s1 = Ok (tt, poke b (u8 w) s1)).
  { intros. by apply stb_run, Hp. }
  rewrite !bind_bind. rewrite (bind_ok _ _ _ _ _ (Hs a v s ltac:(lia) Hm)).
  set (s1 := poke a (u8 v) s). assert (Hm1 : mapped s1 a 4) by (apply Hk; [lia|done]).
  rewrite (bind_ok _ _ _ _ _ (Hs (a + 1) (Z.shiftr v 8) s1 ltac:(lia) Hm1)).
  set (s2 := poke (a + 1) _ s1). assert (Hm2 : mapped s2 a 4) by (apply Hk; [lia|done]).
  rewrite (bind_ok _ _ _ _ _ (Hs (a + 2) (Z.shiftr v 16) s2 ltac:(lia) Hm2)).
  set (s3 := poke (a + 2) _ s2). assert (Hm3 : mapped s3 a 4) by (apply Hk; [lia|done]).
  rewrite (Hs (a + 2 + 1) (Z.shiftr (Z.shiftr v 16) 8) s3) by (lia || done).
  subst s3 s2 s1. cbn [le_split pokes]. rewrite !Z.shiftr_div_pow2 by lia. unfold wrapU.
  change (2 ^ 8) with 256. change (2 ^ 16) with (256 * 256). rewrite <- (Z.div_div v 256 256) by lia.
  by replace (a + 1 + 1) with (a + 2) by lia.
Qed.

(** Where the output of a call with [cpos] starts. *)
Definition start_pos (cpos : Z) (cursor : nat) : nat :=
  if cpos <? 0 then cursor else if cpos <=? 2000 then Z.to_nat cpos else 0%nat.

(** What a call leaves: the terminal [t] on the console, the cursor moved if
    [cpos] is negative, and nothing else. *)
Definition console_after (cpos : Z) s s' (t : terminal_state) : Prop :=
  shows s' (t_cells t) /\ (cpos < 0 -> cursor_at s' (t_cursor t)) /\
  touches (fun a => console <= a < console + 4000 \/ (cpos < 0 /\ cursorpos <= a < cursorpos + 4)) s s'.

Lemma new_printer_run cpos cells cursor s :
  shows s cells -> (cpos < 0 -> cursor_at s cursor) -> (cursor <= SCREEN)%nat ->
  exists cp, new_console_printer cpos (cpos <? 0) s = Ok (cp, s) /\
    refines cp s (mkTerm cells (start_pos cpos cursor) (cpos <? 0)).
Proof.
  intros Hs Hc Hcur. unfold new_console_printer, start_pos, SCREEN in *.
  destruct (Z.ltb_spec cpos 0) as [Hneg|].
  - rewrite (bind_ok _ _ _ _ _ (ld32_run _ _ _ (Hc Hneg) ltac:(lia))). eexists. split; [reflexivity|].
    rewrite wrapS_small by lia. by split_and!.
  - change (CONSOLE_ROWS * CONSOLE_COLUMNS) with 2000. destruct (Z.leb_spec cpos 2000);
      (eexists; split; [reflexivity|split_and!; [done|cbn; lia|done|cbn; unfold SCREEN; lia]]).
Qed.

Lemma finish_run cpos cp s s1 t cells :
  shows s cells -> (cpos < 0 -> mapped s cursorpos 4) -> only_console s s1 -> refines cp s1 t ->
  exists s2, ((if cpos <? 0 then move_cursor cp else ret tt);;; ret (cell_ cp)) s1 = Ok (Z.of_nat (t_cursor t), s2) /\
    console_after cpos s s2 t.
Proof.
  intros Hs Hm Ho (Hs1 & Hc & _ & Hcur). unfold SCREEN in *.
  destruct (Z.ltb_spec cpos 0) as [Hneg|].
  - assert (Hm1 : mapped s1 cursorpos 4).
    { intros b Hb. rewrite (touches_peek _ _ _ _ Ho); [by apply Hm|]. unfold cursorpos, console in *. lia. }
    unfold move_cursor. rewrite Hc, wrapU_small by lia.
    rewrite (bind_ok _ _ _ _ _ (st32_run s1 cursorpos (Z.of_nat (t_cursor t)) Hm1 ltac:(lia))). eexists. split; [reflexivity|].
    assert (Hm' : mapped s1 cursorpos (Z.of_nat (length (le_split 4 (Z.of_nat (t_cursor t)))))).
    { by rewrite length_le_split. }
    split_and!.
    + destruct Hs1 as (Hb & Hv & Hl). split_and!; [|done..]. apply bytes_at_pokes_out; [done..|].
      rewrite length_screen_bytes, Hl. left. unfold console, cursorpos, SCREEN. lia.
    + intros _. by apply bytes_at_pokes.
    + eapply touches_trans; [eapply touches_mono, Ho; auto|]. apply touches_pokes; [done|]. rewrite length_le_split. intros b Hb. right. lia.
  - rewrite bind_ret. exists s1. split; [by rewrite Hc|]. split_and!; [done|lia|]. eapply touches_mono, Ho. auto.
Qed.

(** Strings away from the console. *)
Definition off_console (a : Z) (n : nat) : Prop := a + Z.of_nat n < console \/ console + 4000 <= a.

Lemma console_vprintf_run strings ps val out cpos color cells cursor a s :
  Forall piece_ok ps -> render strings ps color val = Some out ->
  shows s cells -> (cpos < 0 -> cursor_at s cursor) -> (cursor <= SCREEN)%nat ->
  str_at s a (format_text ps) -> off_console a (length (format_text ps)) ->
  Z.of_nat (length (format_text ps)) < 2 ^ 64 ->
  (forall p l, strings p = Some l -> str_at s p l /\ off_console p (length l)) ->
  let t := term_puts out (mkTerm cells (start_pos cpos cursor) (cpos <? 0)) in
  exists s', console_vprintf cpos color a val s = Ok (Z.of_nat (t_cursor t), s') /\ console_after cpos s s' t.
Proof.
  intros Hps Hr Hs Hc Hcur Hf Hoff Hfl Hstr t. unfold console_vprintf.
  destruct (new_printer_run cpos cells cursor s Hs Hc Hcur) as (cp & E & Href).
  rewrite (bind_ok _ _ _ _ _ E).
  assert (Hheld : forall p l, str_at s p l -> off_console p (length l) -> held (cp, s) p l).
  { intros p l Hl Ho. split; [exact Hl|]. intros b Hb. cbn. unfold off_console in Ho. lia. }
  destruct (console_emits out cp s _ Href) as (cp' & s1 & Ee & Ho & Href').
  erewrite bind_ok.
  2: { rewrite (vprintf_run strings ps color val out a (cp, s) Hps Hr); [by rewrite Ee|by eexists|by apply Hheld| |done].
       intros p l Hp. apply Hheld; by apply Hstr. }
  apply (finish_run cpos cp' s s1 t cells Hs); [|done..].
  intros Hneg. specialize (Hc Hneg). apply bytes_at_mapped in Hc. by rewrite length_le_split in Hc.
Qed.

(** console_puts() *)
Lemma puts_loop_run l cp s t color p :
  refines cp s t -> bytes_at s p l -> off_console p (length l) ->
  exists cp' s', puts_loop (length l) cp color p s = Ok (cp', s') /\ only_console s s' /\
    refines cp' s' (term_puts (coloured color l) t).
Proof.
  revert cp s t p. induction l as [|c l IH]; intros cp s t p Hr Hl Hoff; [exists cp, s; split; [reflexivity|split; [constructor|exact Hr]]|].
  apply bytes_at_cons in Hl as [Hc Hl]. cbn [length puts_loop] in *.
  rewrite (bind_ok _ _ _ _ _ (ldb_run _ _ _ Hc)).
  destruct (console_put_run cp s t c color Hr) as (cp1 & s1 & E & Ho & Hr1).
  rewrite (bind_ok _ _ _ _ _ E). unfold off_console in *.
  destruct (IH cp1 s1 _ (p + 1) Hr1) as (cp2 & s2 & E2 & Ho2 & Hr2); [|lia|].
  { intros i b Hi. pose proof (lookup_lt_Some _ _ _ Hi). rewrite (touches_peek _ _ _ _ Ho) by lia. by apply Hl. }
  exists cp2, s2. split_and!; [exact E2|by eapply only_console_trans|exact Hr2].
Qed.

Lemma console_puts_run l cpos color cells cursor p s :
  shows s cells -> (cpos < 0 -> cursor_at s cursor) -> (cursor <= SCREEN)%nat ->
  bytes_at s p l -> off_console p (length l) ->
  let t := term_puts (coloured color l) (mkTerm cells (start_pos cpos cursor) (cpos <? 0)) in
  exists s', console_puts cpos color p (Z.of_nat (length l)) s = Ok (Z.of_nat (t_cursor t), s') /\
    console_after cpos s s' t.
Proof.
  intros Hs Hc Hcur Hl Hoff t. unfold console_puts. rewrite Nat2Z.id.
  destruct (new_printer_run cpos cells cursor s Hs Hc Hcur) as (cp & E & Href).
  rewrite (bind_ok _ _ _ _ _ E).
  destruct (puts_loop_run l cp s _ color p Href Hl Hoff) as (cp' & s1 & Ee & Ho & Href').
  rewrite (bind_ok _ _ _ _ _ Ee). apply (finish_run cpos cp' s s1 t cells Hs); [|done..].
  intros Hneg. specialize (Hc Hneg). apply bytes_at_mapped in Hc. by rewrite length_le_split in Hc.
Qed.

(** console_clear() *)
Lemma clear_loop_run n i s :
  mapped s (console + 2 * i) (2 * Z.of_nat n) ->
  clear_loop n i s = Ok (tt, pokes (console + 2 * i) (screen_bytes (replicate n 0x720)) s).
Proof.
  revert i s. induction n as [|n IH]; intros i s Hm; [done|]. cbn [clear_loop replicate].
  rewrite (bind_ok _ _ _ _ _ (set_cell_run s i _ ltac:(apply Hm; lia) ltac:(apply Hm; lia))).
  rewrite IH; [by replace (console + 2 * (i + 1)) with (console + 2 * i + 1 + 1) by lia|].
  intros b Hb. rewrite peek_pokes by (intros c Hc; apply Hm; cbn in Hc; lia).
  cbn [cell_bytes length]. rewrite decide_False by lia. apply Hm. lia.
Qed.

Lemma console_clear_run s :
  mapped s console 4000 -> mapped s cursorpos 4 ->
  exists s', console_clear s = Ok (tt, s') /\ shows s' (replicate SCREEN 0x720) /\ cursor_at s' 0 /\
    touches (fun a => console <= a < console + 4096) s s'.
Proof.
  intros Hm Hc. unfold console_clear.
  pose proof (clear_loop_run SCREEN 0 s Hm) as E.
  change (Z.to_nat (CONSOLE_ROWS * CONSOLE_COLUMNS)) with SCREEN. rewrite (bind_ok _ _ _ _ _ E).
  change (console + 2 * 0) with console. set (l := screen_bytes (replicate SCREEN 0x720)).
  assert (Hl : Z.of_nat (length l) = 4000).
  { subst l. rewrite length_screen_bytes, length_replicate. reflexivity. }
  assert (Hc1 : mapped (pokes console l s) cursorpos 4).
  { intros b Hb. rewrite peek_pokes by (by rewrite Hl). rewrite Hl, decide_False by (unfold console, cursorpos in *; lia).
    by apply Hc. }
  rewrite st32_run by (done || lia). eexists. split; [reflexivity|]. split_and!.
  - split_and!; [|apply Forall_replicate; lia|apply length_replicate]. fold l.
    apply bytes_at_pokes_out; [exact Hc1|apply bytes_at_pokes; by rewrite Hl|].
    left. rewrite Hl. unfold console, cursorpos. lia.
  - by apply bytes_at_pokes.
  - eapply touches_trans; apply touches_pokes; rewrite ?Hl, ?length_le_split; unfold console, cursorpos in *; try done; lia.
Qed.
End console.

(** ** Parts of the screen *)

(** Where the cursor goes, if the screen does not end. *)
Definition advance (c : nat) (ch : Z) : nat := if ch =? 10 then (c + (COLUMNS - c mod COLUMNS))%nat else S c.

Fixpoint advances (c : nat) (l : list (Z * Z)) : nat :=
  match l with
  | [] => c
  | (ch, _) :: l => advances (advance c ch) l
  end.

Fixpoint fits (c : nat) (l : list (Z * Z)) : bool :=
  match l with
  | [] => true
  | (ch, _) :: l => (c <? SCREEN)%nat && fits (advance c ch) l
  end.

Lemma advances_ge l : forall c, (c <= advances c l)%nat.
Proof.
  induction l as [|[ch col] l IH]; intros c; cbn [advances]; [lia|]. pose proof (IH (advance c ch)).
  assert (c <= advance c ch)%nat; [|lia]. unfold advance. case_match; lia.
Qed.

(** [cells'] is [cells] outside the part from [a] to [b]. *)
Definition same_outside (a b : nat) (cells cells' : list Z) : Prop :=
  length cells' = length cells /\ forall i, ~ (a <= i < b)%nat -> cells' !! i = cells !! i.

Lemma same_outside_trans a b cells1 cells2 cells3 : same_outside a b cells1 cells2 -> same_outside a b cells2 cells3 -> same_outside a b cells1 cells3.
Proof. intros [L1 H1] [L2 H2]. split; [congruence|]. intros i Hi. by rewrite H2, H1. Qed.

Lemma same_outside_mono a b a' b' cells cells' : (a' <= a)%nat -> (b <= b')%nat -> same_outside a b cells cells' -> same_outside a' b' cells cells'.
Proof. intros Ha Hb [L H]. split; [done|]. intros i Hi. apply H. lia. Qed.

Lemma write_outside l t : (t_cursor t + length l <= length (t_cells t))%nat ->
  same_outside (t_cursor t) (t_cursor t + length l) (t_cells t) (t_cells (term_write l t)).
Proof.
  intros Hn. unfold term_write. cbn [t_cells]. split.
  - rewrite !length_app, length_take, length_drop. lia.
  - intros i Hi. destruct (decide (i < t_cursor t)%nat) as [Hd|Hd].
    + rewrite lookup_app_l by (rewrite length_take; lia). by rewrite lookup_take_lt.
    + rewrite lookup_app_r by (rewrite length_take; lia). rewrite length_take, lookup_app_r by lia. rewrite lookup_drop. f_equal. lia.
Qed.

(** Text that fits on the screen changes the cells it covers. *)
Lemma puts_outside l : forall cells c, length cells = SCREEN -> fits c l = true ->
  let t := term_puts l (mkTerm cells c false) in
  t_cursor t = advances c l /\ same_outside c (advances c l) cells (t_cells t).
Proof.
  induction l as [|[ch col] l IH]; intros cells c Hl Hf; cbn [advances fits term_puts fold_left] in *; [by split|].
  apply andb_true_iff in Hf as [Hc Hf]. apply Nat.ltb_lt in Hc.
  assert (Et : exists cells1, term_put ch col (mkTerm cells c false) = mkTerm cells1 (advance c ch) false /\ same_outside c (advance c ch) cells cells1).
  { unfold term_put, term_room. cbn [t_cursor t_scroll t_cells]. rewrite bool_decide_eq_false_2 by lia. cbn [t_cursor]. unfold advance. destruct (ch =? 10).
    - eexists. split; [unfold term_write; cbn [t_cursor t_scroll t_cells]; rewrite length_replicate; reflexivity|].
      pose proof (write_outside (replicate (COLUMNS - c mod COLUMNS) (u16 (Z.lor 32 col))) (mkTerm cells c false)) as Hw.
      cbn [t_cursor t_cells term_write] in Hw. rewrite length_replicate in Hw. apply Hw. rewrite Hl. by apply line_rest.
    - eexists. split; [unfold term_write; cbn [t_cursor t_scroll t_cells length]; by rewrite Nat.add_1_r|].
      pose proof (write_outside [u16 (Z.lor ch col)] (mkTerm cells c false)) as Hw. cbn [t_cursor t_cells term_write length] in Hw.
      rewrite Nat.add_1_r in Hw. apply Hw. lia. }
  destruct Et as (cells1 & Et & Hout). rewrite Et. pose proof Hout as [Hl1 _].
  destruct (IH cells1 (advance c ch) ltac:(congruence) Hf) as [E1 E2]. split; [done|]. pose proof (advances_ge l (advance c ch)).
  eapply same_outside_trans; [by eapply same_outside_mono, Hout|]. eapply same_outside_mono, E2; [|lia]. unfold advance. case_match; lia.
Qed.

(** console[i] = v *)
Lemma set_cell_shows {S} `{BytesLaws S} (s : S) cells (i : nat) v : shows s cells -> (i < SCREEN)%nat ->
  exists s', set_cell (Z.of_nat i) v s = Ok (tt, s') /\ only_console s s' /\ shows s' (<[i := u16 v]> cells).
Proof.
  intros Hs Hi. pose proof (shows_mapped _ _ Hs) as Hm. unfold SCREEN in Hi.
  rewrite set_cell_run by (apply Hm; lia). eexists. split; [reflexivity|].
  assert (Hv : Forall (fun v => 0 <= v < 2 ^ 16) [u16 v]) by (constructor; [by apply wrapU_range|constructor]).
  destruct (shows_pokes s cells [u16 v] i Hs Hv ltac:(cbn; unfold SCREEN; lia)) as [Hs' Ho].
  cbn [screen_bytes mbind list_bind] in Hs', Ho. rewrite app_nil_r in *. split; [exact Ho|].
  rewrite insert_take_drop by (destruct Hs as (_ & _ & ->); done). cbn [length app] in Hs'. by rewrite Nat.add_1_r in Hs'.
Qed.

(** Any bytes on the console are some cells. *)
Lemma shows_bytes (s : vm) : (forall a, console <= a < console + 4000 -> 0 <= byte_at (phys s) a < 256) -> exists cells, shows s cells.
Proof.
  intros Hb. set (at_ := fun i : nat => byte_at (phys s) (console + 2 * Z.of_nat i) + 256 * byte_at (phys s) (console + 2 * Z.of_nat i + 1)).
  exists (at_ <$> seq 0 SCREEN).
  assert (Hr : forall i, (i < SCREEN)%nat -> 0 <= byte_at (phys s) (console + 2 * Z.of_nat i) < 256 /\ 0 <= byte_at (phys s) (console + 2 * Z.of_nat i + 1) < 256).
  { unfold SCREEN. intros i Hi. split; apply Hb; lia. }
  assert (Hseq : forall n i, (i + n <= SCREEN)%nat -> bytes_at s (console + 2 * Z.of_nat i) (screen_bytes (at_ <$> seq i n))).
  { induction n as [|n IH]; intros i Hi; [by intros j b Hj|]. destruct (Hr i ltac:(lia)) as [H1 H2]. unfold SCREEN in Hi.
    cbn [seq fmap list_fmap screen_bytes mbind list_bind cell_bytes app]. rewrite !bytes_at_cons.
    assert (Em : at_ i mod 256 = byte_at (phys s) (console + 2 * Z.of_nat i)).
    { unfold at_. rewrite (Z.mul_comm 256), Z.mod_add, Z.mod_small by lia. done. }
    assert (Ed : at_ i / 256 = byte_at (phys s) (console + 2 * Z.of_nat i + 1)).
    { unfold at_. rewrite (Z.mul_comm 256), Z.div_add, Z.div_small by lia. done. }
    rewrite Em, Ed. cbn [peek vm_bytes]. unfold kernel_can_access, MEMSIZE_PHYSICAL, console. change PAGESIZE with 4096.
    rewrite !(proj2 (Z.leb_le _ _)) by lia. cbn [andb]. split_and!; [done..|].
    replace (0xB8000 + 2 * Z.of_nat i + 1 + 1) with (console + 2 * Z.of_nat (S i)) by (unfold console; lia). apply IH. unfold SCREEN. lia. }
  split_and!; [apply (Hseq SCREEN 0%nat); lia| |by rewrite length_fmap, length_seq].
  apply Forall_fmap, Forall_forall. intros i Hi. apply elem_of_seq in Hi. destruct (Hr i ltac:(lia)) as [H1 H2]. cbn. unfold at_. lia.
Qed.
