(* ===== verification/LibSpec.v ===== *)
(** * The C library of the mini operating system: theorems

    Block operations under any overlap and their agreement with the kernel's
    model of them; strings; formatted output into buffers and on the console;
    numbers printed and read back; random numbers in a range; powers of two. *)
From stdpp Require Import prelude gmap list.
From Stdlib Require Import ZArith Lia.
From S2P Require Import Prelude Memory Vm Lib LibProofs Printer PrinterProofs PrinterStrings ConsoleProofs.
Open Scope Z_scope.
Open Scope c_scope.

(** ** Random numbers *)

(** The value the generator produces next. *)
Definition next_seed (s : rng) : Z :=
  let seed := if rand_seed_set s then rand_seed s else Z.lor (u64 (Z.shiftl 819234718 32)) 819234718 in
  u64 (seed * 6364136223846793005 + 1).

Definition next_rand (s : rng) : Z := Z.land (Z.shiftr (next_seed s) 32) RAND_MAX.

Lemma next_rand_range s : 0 <= next_rand s <= RAND_MAX.
Proof.
  unfold next_rand, RAND_MAX. change 0x7FFFFFFF with (Z.ones 31). rewrite Z.land_ones by lia.
  pose proof (Z.mod_pos_bound (Z.shiftr (next_seed s) 32) (2 ^ 31)). change (Z.ones 31) with (2 ^ 31 - 1). lia.
Qed.

Lemma rand_run s : rand s = Ok (next_rand s, mkRng true (next_seed s)).
Proof.
  unfold rand, srand. assert (Hw : forall x, u64 (u64 x + 1) = u64 (x + 1)).
  { intros x. unfold wrapU. by rewrite Zplus_mod_idemp_l. }
  assert (Hs : s32 (next_rand s) = next_rand s).
  { pose proof (next_rand_range s). unfold RAND_MAX in *. apply wrapS_small; lia. }
  unfold next_rand, next_seed in *.
  unfold bind, get, modify, ret. cbn [rand_seed_set rand_seed].
  destruct s as [[|] seed]; cbn [negb rand_seed_set rand_seed] in *; rewrite Hw; cbn [rand_seed_set rand_seed]; by rewrite Hs.
Qed.

Lemma rand_range_run min max s :
  - 2 ^ 31 <= min -> max < 2 ^ 31 -> min <= max -> max - min < RAND_MAX ->
  rand_range min max s =
  Ok (min + next_rand s * (max - min + 1) / 2 ^ 31, mkRng true (next_seed s)) /\
  min <= min + next_rand s * (max - min + 1) / 2 ^ 31 <= max.
Proof.
  intros Hmin Hmax Hle Hd. pose proof (next_rand_range s) as Hr. unfold RAND_MAX in *.
  set (n := max - min + 1). assert (Hn : 1 <= n < 2 ^ 31) by lia.
  assert (Hq : 0 <= next_rand s * n / 2 ^ 31 < n).
  { split; [apply Z.div_pos; nia|apply Z.div_lt_upper_bound; nia]. }
  split; [|lia]. unfold rand_range, c_assert. rewrite (proj2 (Z.leb_le min max)) by lia. rewrite bind_ret.
  rewrite (bind_ok _ _ _ _ _ (int_run (max - min) s ltac:(lia))).
  rewrite (proj2 (Z.leb_le (max - min) RAND_MAX)) by (unfold RAND_MAX; lia). rewrite bind_ret.
  rewrite (bind_ok _ _ _ _ _ (rand_run s)).
  rewrite (bind_ok _ _ _ _ _ (int_run (max - min + 1) _ ltac:(lia))). fold n. unfold ret. do 2 f_equal.
  rewrite (wrapU_small _ n), (wrapU_small _ (next_rand s * n)) by nia.
  change (RAND_MAX + 1) with (2 ^ 31). rewrite s32_u64.
  transitivity (s32 (min + next_rand s * n / 2 ^ 31)); [|apply wrapS_small; lia].
  apply wrapS_congr. unfold wrapU. rewrite Zplus_mod, (Z.mod_mod_divide _ (2 ^ 64) (2 ^ 32)), <- Zplus_mod; [done|].
  by exists (2 ^ 32).
Qed.

(** The random numbers that are mapped to the value [k] of [n] form an interval. *)
Definition first_rand (n k : Z) : Z := (k * 2 ^ 31 + n - 1) / n.

Lemma rand_bucket n k r : 0 < n -> r * n / 2 ^ 31 = k <-> first_rand n k <= r < first_rand n (k + 1).
Proof.
  intros Hn. unfold first_rand.
  assert (Hc : forall m, (m * 2 ^ 31 + n - 1) / n <= r <-> m * 2 ^ 31 <= r * n).
  { intros m. pose proof (Z.div_mod (m * 2 ^ 31 + n - 1) n ltac:(lia)).
    pose proof (Z.mod_pos_bound (m * 2 ^ 31 + n - 1) n ltac:(lia)).
    set (q := (m * 2 ^ 31 + n - 1) / n) in *. split; intros; nia. }
  pose proof (Z.div_mod (r * n) (2 ^ 31) ltac:(lia)). pose proof (Z.mod_pos_bound (r * n) (2 ^ 31) ltac:(lia)).
  set (q := r * n / 2 ^ 31) in *. rewrite (Hc k). rewrite <- (Z.nle_gt _ r), (Hc (k + 1)). lia.
Qed.

Lemma rand_bucket_size n k :
  0 < n -> 2 ^ 31 / n <= first_rand n (k + 1) - first_rand n k <= 2 ^ 31 / n + 1.
Proof.
  intros Hn. unfold first_rand. replace ((k + 1) * 2 ^ 31 + n - 1) with (k * 2 ^ 31 + n - 1 + 2 ^ 31) by lia.
  set (a := k * 2 ^ 31 + n - 1). set (b := 2 ^ 31).
  pose proof (Z.div_mod a n ltac:(lia)). pose proof (Z.mod_pos_bound a n ltac:(lia)).
  pose proof (Z.div_mod b n ltac:(lia)). pose proof (Z.mod_pos_bound b n ltac:(lia)).
  pose proof (Z.div_mod (a + b) n ltac:(lia)). pose proof (Z.mod_pos_bound (a + b) n ltac:(lia)).
  set (qa := a / n) in *. set (qb := b / n) in *. set (qc := (a + b) / n) in *. clearbody a b qa qb qc. nia.
Qed.

(** ** Powers of two *)

Lemma msb_log2 w x : 0 < w -> 0 < x < 2 ^ w -> msb w x = Z.log2 x + 1.
Proof.
  intros Hw Hx. unfold msb, clz. rewrite (proj2 (Z.eqb_neq x 0)) by lia. cbn [negb].
  rewrite wrapU_small by lia. lia.
Qed.

Lemma round_pow2 w x :
  0 < w -> 0 < x < 2 ^ w ->
  round_down_pow2 w x = Ok (2 ^ Z.log2 x) /\
  round_up_pow2 w x = if x <=? 2 ^ (w - 1) then Ok (2 ^ Z.log2_up x) else Err UB.
Proof.
  intros Hw Hx. unfold round_down_pow2, round_up_pow2. rewrite (proj2 (Z.eqb_neq x 0)) by lia. cbn [negb].
  assert (Hl : 0 <= Z.log2 x < w) by (split; [apply Z.log2_nonneg|by apply Z.log2_lt_pow2; lia]).
  assert (Hsh : forall n, 0 <= n < w -> shl1 w n = Ok (2 ^ n)).
  { intros n Hn. unfold shl1. rewrite (proj2 (andb_true_iff _ _)) by (rewrite Z.leb_le, Z.ltb_lt; lia).
    rewrite Z.shiftl_1_l, wrapU_small; [done|]. split; [lia|]. apply Z.pow_lt_mono_r; lia. }
  rewrite msb_log2 by lia. replace (Z.log2 x + 1 - 1) with (Z.log2 x) by lia. rewrite Hsh by lia.
  split; [done|]. rewrite wrapU_small by lia. destruct (decide (x = 1)) as [->|H1].
  { change (Z.log2_up 1) with 0. change (msb w (1 - 1)) with 0. rewrite Hsh by lia.
    rewrite (proj2 (Z.leb_le _ _)); [done|]. change 1 with (2 ^ 0) at 1. apply Z.pow_le_mono_r; lia. }
  rewrite msb_log2 by lia. rewrite Z.log2_up_eqn by lia. rewrite <- Z.sub_1_r.
  change (Z.succ (Z.log2 (x - 1))) with (Z.log2 (x - 1) + 1).
  destruct (Z.leb_spec x (2 ^ (w - 1))).
  - apply Hsh. split; [pose proof (Z.log2_nonneg (x - 1)); lia|].
    assert (Z.log2 (x - 1) < w - 1) by (apply Z.log2_lt_pow2; lia). lia.
  - unfold shl1. assert (w - 1 <= Z.log2 (x - 1)) by (apply Z.log2_le_pow2; lia).
    by rewrite (proj2 (Z.ltb_ge _ w)), andb_false_r by lia.
Qed.

(** ** Theorems *)

(** memmove() copies a block under every overlap of source and destination:
    it returns the destination, which then holds the bytes the source had, and
    no byte outside the destination changes. *)
Theorem memmove_overlap {S} `{BytesLaws S} (l : list Z) (d p : Z) (s : S) :
  bytes_at s p l -> Forall (fun b => byte b) l -> mapped s d (Z.of_nat (length l)) ->
  exists s', memmove d p (Z.of_nat (length l)) s = Ok (d, s') /\ bytes_at s' d l /\
    forall a, ~ (d <= a < d + Z.of_nat (length l)) -> peek s' a = peek s a.
Proof.
  intros Hl Hb Hm. exists (pokes d l s). split_and!.
  - by apply memmove_run.
  - by apply bytes_at_pokes.
  - intros a Ha. rewrite peek_pokes by done. by rewrite decide_False.
Qed.

(** A memory with the block 1 2 3 4 at address 100, and one more byte. *)
Definition demo_block : cmem := pokes 100 [1; 2; 3; 4; 9] ∅.

Lemma demo_block_at : bytes_at demo_block 100 [1; 2; 3; 4].
Proof. intros i b Hi. do 4 (destruct i as [|i]; [by simplify_eq/=|]). done. Qed.

Lemma demo_block_mapped : mapped demo_block 101 4.
Proof.
  intros b Hb. assert (b = 101 \/ b = 102 \/ b = 103 \/ b = 104) as Hc by lia.
  destruct_or! Hc; subst b; by eexists.
Qed.

Lemma memmove_overlap_witness :
  exists s', memmove 101 100 4 demo_block = Ok (101, s') /\ bytes_at s' 101 [1; 2; 3; 4] /\
    forall a, ~ (101 <= a < 101 + 4) -> peek s' a = peek demo_block a.
Proof.
  apply (memmove_overlap [1; 2; 3; 4] 101 100 demo_block demo_block_at); [repeat (constructor; [lia|]); constructor|].
  exact demo_block_mapped.
Defined.

(** The loops of memset() and memcpy() agree with the block stores the
    kernel model uses: on memory the kernel can access, memset() leaves the
    state of [Vm.memset], and memcpy() from a block that does not overlap the
    destination leaves the state of [copy_in]. *)
Theorem kernel_blocks_agree (a c n : Z) (src : Z) (l : list Z) (s : vm) :
  kernel_can_access a n = true -> 0 <= n -> byte c ->
  bytes_at s src l -> Forall (fun b => byte b) l -> kernel_can_access a (Z.of_nat (length l)) = true ->
  src + Z.of_nat (length l) <= a \/ a <= src ->
  (exists s', Lib.memset a c n s = Ok (a, s') /\ Vm.memset a c n s = Ok (tt, s')) /\
  (exists s', memcpy a src (Z.of_nat (length l)) s = Ok (a, s') /\ copy_in a l s = Ok (tt, s')).
Proof.
  intros Ha Hn Hc Hl Hb Hal Ho.
  assert (Hcopy : forall k, kernel_can_access a (Z.of_nat (length k)) = true -> copy_in a k s = Ok (tt, pokes a k s)).
  { intros k Hk. unfold copy_in. rewrite Hk, pokes_vm. destruct k; [by destruct s|done]. }
  split; eexists; split.
  - apply memset_run; [by apply mapped_vm|done].
  - rewrite u8_byte by done. apply Hcopy. by rewrite length_replicate, Z2Nat.id.
  - apply memcpy_run; [done|done|by apply mapped_vm|done].
  - by apply Hcopy.
Qed.

Lemma kernel_blocks_agree_witness :
  let s := mkVm (mkRam 7 ∅) [] in
  (exists s', Lib.memset 0x5000 0xCC 4096 s = Ok (0x5000, s') /\ Vm.memset 0x5000 0xCC 4096 s = Ok (tt, s')) /\
  (exists s', memcpy 0x5000 0x4FFE 2 s = Ok (0x5000, s') /\ copy_in 0x5000 [7; 7] s = Ok (tt, s')).
Proof.
  apply (kernel_blocks_agree 0x5000 0xCC 4096 0x4FFE [7; 7]); [reflexivity|lia|lia| | |reflexivity|by left].
  - intros i b Hi. do 2 (destruct i as [|i]; [by simplify_eq/=|]). done.
  - repeat (constructor; [lia|]); constructor.
Defined.

(** C38: the string functions are functions of the strings: strlen() and
    strnlen() count, strcmp() and strcasecmp() compare in lexicographic order,
    strchr() finds the first occurrence or the terminator, strcpy() copies with
    the terminator, strncpy() cuts or pads; the searches change nothing. *)
Theorem strings_correct {S} `{BytesLaws S} (x y : list Z) (a b d c n : Z) (s : S) :
  str_at s a x -> str_at s b y -> Z.of_nat (length x) < 2 ^ 64 -> byte c -> 0 <= n ->
  mapped s d (Z.of_nat (length x) + 1 + n) -> a + Z.of_nat (length x) < d \/ d + Z.of_nat (length x) + 1 + n <= a ->
  strlen a s = Ok (Z.of_nat (length x), s) /\
  strnlen a n s = Ok (Z.min n (Z.of_nat (length x)), s) /\
  strcmp a b s = Ok (lex x y, s) /\
  strcasecmp a b s = Ok (lex (tolower <$> x) (tolower <$> y), s) /\
  strchr a c s = Ok (match index_of c (x ++ [0]) with Some i => a + Z.of_nat i | None => 0 end, s) /\
  strcpy d a s = Ok (d, pokes d (x ++ [0]) s) /\
  strncpy d a n s = Ok (d, pokes d (take (Z.to_nat n) x ++ replicate (Z.to_nat n - length x) 0) s).
Proof.
  intros Hx Hy Hlen Hc Hn Hm Ho.
  assert (Hlow : forall c, char c -> char (tolower c)).
  { intros e He. unfold tolower, isupper, wrapU. rewrite (Z.mod_small e) by lia.
    destruct (Z.ltb_spec ((e - 65) mod 2 ^ 32) 26) as [Hlt|]; [|lia].
    destruct (decide (65 <= e)); [rewrite Z.mod_small in Hlt by lia; lia|].
    rewrite <- (Z.mod_unique (e - 65) (2 ^ 32) (-1) (e - 65 + 2 ^ 32)) in Hlt by lia. lia. }
  split_and!.
  - by apply strlen_run.
  - by apply strnlen_run.
  - unfold strcmp. rewrite (strcmp_via_run (fun c => c) (fun c Hc => Hc) eq_refl s x y) by done.
    by rewrite !list_fmap_id.
  - by apply (strcmp_via_run tolower Hlow eq_refl s x y).
  - by apply strchr_run.
  - apply strcpy_run; [done|eapply mapped_sub; [done|lia..]|lia|done].
  - unfold strncpy. erewrite bind_ok; [done|]. rewrite <- (Z2Nat.id n) in Hm, Ho by lia.
    apply strncpy_loop_run; [done|eapply mapped_sub; [done|lia..]|lia].
Qed.

(** "Os" at 16, "OS!" at 32, and room at 64. *)
Definition demo_strings : cmem := pokes 16 [79; 115; 0] (pokes 32 [79; 83; 33; 0] (pokes 64 (replicate 6 1) ∅)).

Lemma strings_correct_witness :
  strlen 16 demo_strings = Ok (2, demo_strings) /\
  strnlen 16 1 demo_strings = Ok (1, demo_strings) /\
  strcmp 16 32 demo_strings = Ok (1, demo_strings) /\
  strcasecmp 16 32 demo_strings = Ok (-1, demo_strings) /\
  strchr 16 115 demo_strings = Ok (17, demo_strings) /\
  strcpy 64 16 demo_strings = Ok (64, pokes 64 [79; 115; 0] demo_strings) /\
  strncpy 64 16 1 demo_strings = Ok (64, pokes 64 [79] demo_strings).
Proof.
  apply (strings_correct [79; 115] [79; 83; 33] 16 32 64 115 1 demo_strings); [| |cbn; lia|lia|lia| |cbn; lia].
  - split; [intros i b Hi; do 3 (destruct i as [|i]; [by simplify_eq/=|]); done|repeat (constructor; [lia|]); constructor].
  - split; [intros i b Hi; do 4 (destruct i as [|i]; [by simplify_eq/=|]); done|repeat (constructor; [lia|]); constructor].
  - intros b Hb. cbn in Hb. assert (b = 64 \/ b = 65 \/ b = 66 \/ b = 67) as Hc by lia.
    destruct_or! Hc; subst b; by eexists.
Defined.

(** Rand(min, max) on every branch: an assertion failure if min > max, a
    value in [min, max] if max - min < RAND_MAX, and undefined behaviour (signed
    overflow) for the largest ranges; the values are evenly distributed, since
    each is the image of an interval of random numbers whose size is
    2^31 / (max - min + 1), rounded down or up. *)
Theorem rand_range_correct (min max : Z) (s : rng) :
  - 2 ^ 31 <= min < 2 ^ 31 -> - 2 ^ 31 <= max < 2 ^ 31 ->
  (max < min -> rand_range min max s = Err AssertFail) /\
  (min <= max -> max - min < RAND_MAX -> exists x, rand_range min max s = Ok (x, mkRng true (next_seed s)) /\
     min <= x <= max /\
     let n := max - min + 1 in
     first_rand n (x - min) <= next_rand s < first_rand n (x - min + 1) /\
     forall k, 2 ^ 31 / n <= first_rand n (k + 1) - first_rand n k <= 2 ^ 31 / n + 1) /\
  (RAND_MAX <= max - min -> rand_range min max s = Err UB).
Proof.
  intros Hmin Hmax. split_and!.
  - intros Hlt. unfold rand_range, c_assert. by rewrite (proj2 (Z.leb_gt min max)) by lia.
  - intros Hle Hd. destruct (rand_range_run min max s) as [E Hr]; [lia..|].
    eexists. split; [exact E|]. split; [exact Hr|]. cbv zeta. split.
    + apply rand_bucket; [lia|]. rewrite Z.add_simpl_l. reflexivity.
    + intros k. apply rand_bucket_size. lia.
  - intros Hd. unfold rand_range, c_assert, RAND_MAX in *. rewrite (proj2 (Z.leb_le min max)) by lia. rewrite bind_ret.
    destruct (decide (max - min = 2 ^ 31 - 1)) as [E|].
    + rewrite (bind_ok _ _ _ _ _ (int_run (max - min) s ltac:(lia))), E.
      change (2 ^ 31 - 1 <=? 0x7FFFFFFF) with true. cbv iota. rewrite bind_ret, (bind_ok _ _ _ _ _ (rand_run s)). done.
    + apply bind_err. unfold int. by rewrite (proj2 (Z.ltb_ge _ (2 ^ 31))), andb_false_r by lia.
Qed.

Lemma rand_range_correct_witness :
  rand_range 1 0 (mkRng false 0) = Err AssertFail /\
  (exists x, rand_range 1 16 (mkRng false 0) = Ok (x, mkRng true (next_seed (mkRng false 0))) /\ 1 <= x <= 16) /\
  rand_range 0 RAND_MAX (mkRng false 0) = Err UB.
Proof.
  split_and!.
  - apply (rand_range_correct 1 0); [lia..|reflexivity].
  - destruct (rand_range_correct 1 16 (mkRng false 0)) as (_ & H & _); [lia..|].
    destruct H as (x & E & Hx & _); [lia|reflexivity|]. by exists x.
  - apply (rand_range_correct 0 RAND_MAX); [lia|unfold RAND_MAX; lia|vm_compute; discriminate].
Defined.

(** C32: snprintf() writes what the format renders to, cut to the buffer and
    terminated, returns the full length, and changes nothing outside the
    buffer: for every format made of characters, %%, %C and directives with any
    flags, width, precision and conversion, whose strings lie outside the
    buffer. *)
Theorem snprintf_correct {S} `{BytesLaws S} (strings : Z -> option (list Z)) (ps : list piece)
  (val : va_list) (out : list (Z * Z)) (str size a : Z) (s : S) :
  Forall piece_ok ps -> render strings ps 0 val = Some out -> Z.of_nat (length out) < 2 ^ 31 ->
  0 <= size -> mapped s str size ->
  let away b n := b + Z.of_nat n < str \/ str + size <= b in
  str_at s a (format_text ps) -> away a (length (format_text ps)) ->
  Z.of_nat (length (format_text ps)) < 2 ^ 64 ->
  (forall p l, strings p = Some l -> str_at s p l /\ away p (length l)) ->
  exists s', snprintf str size a val s = Ok (Z.of_nat (length out), s') /\
    (0 < size -> bytes_at s' str (take (Z.to_nat size - 1) (fst <$> out) ++ [0])) /\
    forall b, ~ (str <= b < str + size) -> peek s' b = peek s b.
Proof.
  intros Hps Hr Hlen Hsz Hm away Hf Ha Hfl Hs. unfold snprintf.
  pose proof (vsnprintf_run strings ps val out str size a s Hps Hr ltac:(lia) Hsz Hm Hf Ha Hfl Hs) as E.
  rewrite (bind_ok _ _ _ _ _ E). exists (pokes str (cut size (fst <$> out)) s).
  rewrite wrapS_small by lia. split; [reflexivity|].
  assert (Hcut : Z.of_nat (length (cut size (fst <$> out))) <= size).
  { unfold cut. destruct (Z.eqb_spec size 0) as [->|]; [done|]. rewrite length_app, length_take. cbn. lia. }
  assert (Hmc : mapped s str (Z.of_nat (length (cut size (fst <$> out))))) by (eapply mapped_sub; [done|lia..]).
  split.
  - intros Hp. replace (take (Z.to_nat size - 1) (fst <$> out) ++ [0]) with (cut size (fst <$> out)).
    + by apply bytes_at_pokes.
    + unfold cut. by rewrite (proj2 (Z.eqb_neq size 0)) by lia.
  - intros b Hb. rewrite peek_pokes by done. by rewrite decide_False by lia.
Qed.

(** "%s=%d%%" at 16, "x" at 48, and a buffer of 6 bytes at 64. *)
Definition demo_format : list piece :=
  [Dir (mkDirective [] Omitted Omitted false Cs); Plain 61; Dir (mkDirective [Zero] (Given 4) Omitted false Cd); Percent].
Definition demo_snprintf : cmem :=
  pokes 16 (format_text demo_format ++ [0]) (pokes 48 [120; 0] (pokes 64 (replicate 6 1) ∅)).

Lemma snprintf_correct_witness :
  exists s', snprintf 64 6 16 [48; u64 (-7)] demo_snprintf = Ok (7, s') /\
    (0 < 6 -> bytes_at s' 64 [120; 61; 45; 48; 48; 0]) /\
    forall b, ~ (64 <= b < 64 + 6) -> peek s' b = peek demo_snprintf b.
Proof.
  refine (snprintf_correct (fun p => if p =? 48 then Some [120] else None) demo_format [48; u64 (-7)]
            [(120, 0); (61, 0); (45, 0); (48, 0); (48, 0); (55, 0); (37, 0)] 64 6 16 demo_snprintf _ _ _ _ _ _ _ _ _).
  - unfold demo_format. repeat apply Forall_cons_2; [..|apply Forall_nil_2]; cbn; [| | |done].
    + split; intros n E; simplify_eq.
    + lia.
    + split; intros n E; simplify_eq. lia.
  - vm_compute. reflexivity.
  - cbn. lia.
  - lia.
  - intros b Hb. assert (b = 64 \/ b = 65 \/ b = 66 \/ b = 67 \/ b = 68 \/ b = 69) as Hc by lia.
    destruct_or! Hc; subst b; by eexists.
  - split; [|vm_compute; repeat constructor].
    intros i b Hi. do 10 (destruct i as [|i]; [revert Hi; vm_compute; congruence|]). done.
  - left. vm_compute. reflexivity.
  - vm_compute. reflexivity.
  - intros p l Hp. destruct (Z.eqb_spec p 48) as [->|]; [|done]. simplify_eq. split; [|by left].
    split; [|vm_compute; repeat constructor].
    intros i b Hi. do 2 (destruct i as [|i]; [revert Hi; vm_compute; congruence|]). done.
Defined.

(** ** Numbers *)

Lemma length_number left width prec fs prefix ds :
  width < 2 ^ 30 -> (forall p, prec = Some p -> p < 2 ^ 30) -> (length prefix <= 2)%nat -> (length ds <= 64)%nat ->
  Z.of_nat (length (pad left width (number_text fs width prec prefix ds))) < 2 ^ 31.
Proof.
  intros Hw Hp Hpre Hds. unfold pad, number_text.
  set (z := match prec with Some p => _ | None => _ end).
  assert (Hz : z < 2 ^ 30).
  { subst z. destruct prec as [p|]; [specialize (Hp p eq_refl); lia|]. destruct (_ && _); lia. }
  destruct left; rewrite !length_app, !length_replicate; lia.
Qed.

(** The text of a number of 64 bits exists and is short. *)
Lemma convert_long strings fs w p c width prec v :
  c ∈ [Cd; Ci; Cu; Cx; CX] -> long_value c v -> width < 2 ^ 30 -> (forall p, prec = Some p -> p < 2 ^ 30) ->
  exists l, convert strings (mkDirective fs w p true c) width prec (u64 v) = Some l /\ Z.of_nat (length l) < 2 ^ 31.
Proof.
  intros Hc Hv Hw Hp. unfold convert. cbn [d_flags d_conv d_long]. rewrite wrapU_idem.
  assert (Hds : forall base n, 0 <= n < 2 ^ 64 -> base ∈ [10; 16; -16] -> (length (numeral_text base n) <= 64)%nat).
  { intros base n Hn Hb. unfold numeral_text, numeral. rewrite length_fmap.
    assert (Hab : 2 <= Z.abs base).
    { rewrite !elem_of_cons in Hb. destruct Hb as [->|[->|[->|[]%not_elem_of_nil]]]; cbn; lia. }
    apply digits_spec; [lia| |lia]. pose proof (pow_64 (Z.abs base) Hab). lia. }
  assert (Hpre : forall x n, (length (base_prefix fs x n) <= 2)%nat).
  { intros. unfold base_prefix. destruct (_ && _); cbn; lia. }
  assert (Hsg : forall b, (length (sign_prefix fs b) <= 2)%nat).
  { intros b. unfold sign_prefix. repeat case_match; cbn; lia. }
  rewrite !elem_of_cons in Hc. destruct Hc as [->|[->|[->|[->|[->|[]%not_elem_of_nil]]]]]; cbn [long_value] in Hv.
  1, 2: assert (Es : s64 (u64 v) = v) by (etrans; [apply wrapS_congr; unfold wrapU; apply Zmod_mod|apply wrapS_small; lia]);
    rewrite Es, (proj2 (Z.eqb_neq v (- 2 ^ 63))) by lia; eexists; (split; [reflexivity|]);
    apply length_number; [done|done|apply Hsg|apply Hds; [lia|left]].
  all: rewrite wrapU_small by lia; eexists; (split; [reflexivity|]); apply length_number; try done; try (apply Hpre).
  - cbn; lia.
  - apply Hds; [done|left].
  - apply Hds; [done|right; right; left].
  - apply Hds; [done|right; left].
Qed.

(** C34: a number printed by snprintf() is read back: for the conversions d, i,
    u, x and X of a long, with any flags, width and precision, strtol() or
    strtoul() in the base of the conversion returns the number whenever the
    output fitted into the buffer. *)
Theorem print_parse_roundtrip {S} `{BytesLaws S} (fs : list flag) (w p : field) (c : conv) (v str size a : Z) (s : S) :
  c ∈ [Cd; Ci; Cu; Cx; CX] -> long_value c v ->
  let d := mkDirective fs w p true c in
  piece_ok (Dir d) -> w <> Star -> p <> Star -> (forall n, w = Given n \/ p = Given n -> n < 2 ^ 30) ->
  0 <= size -> mapped s str size -> str_at s a (piece_text (Dir d)) ->
  a + Z.of_nat (length (piece_text (Dir d))) < str \/ str + size <= a -> Z.of_nat (length (piece_text (Dir d))) < 2 ^ 64 ->
  exists n s', snprintf str size a [u64 v] s = Ok (n, s') /\
    (n < size -> exists e, parse c str s' = Ok ((v, e), s')).
Proof.
  intros Hc Hv d Hok Hw Hp Hsm Hsz Hm Ha Hoff Hlen.
  pose (w1 := match w with Given n => Some n | _ => None end : option Z).
  pose (p1 := match p with Given n => Some n | _ => None end : option Z).
  destruct Hok as [Hw0 Hp0]. cbn [d_width d_precision d] in Hw0, Hp0.
  assert (Hf : forall f val, f <> Star -> (forall n, f = Given n -> 0 <= n < 2 ^ 30) ->
             field_value f val = Some (match f with Given n => Some n | _ => None end, val)).
  { intros [|n|] val ? Hn; [done| |done]. cbn. specialize (Hn n eq_refl).
    by rewrite (proj2 (small_spec n)) by lia. }
  destruct (convert_long (fun _ => None) fs w p c (default (-1) w1) (Z.max 0 <$> p1) v Hc Hv) as (l & El & Hl).
  { subst w1. destruct w as [|n|]; cbn; [lia| |lia]. apply Hsm. by left. }
  { subst p1. destruct p as [|n|]; intros q E; simplify_eq/=. pose proof (Hsm n (or_intror eq_refl)). lia. }
  assert (Er : render (fun _ => None) [Dir d] 0 [u64 v] = Some (coloured 0 l ++ [])).
  { cbn [render render_piece]. unfold render_directive, d. cbn [d_width d_precision].
    rewrite (Hf w) by (done || (intros n ->; split; [specialize (Hw0 n eq_refl); lia|apply Hsm; by left])).
    rewrite (Hf p) by (done || (intros n ->; split; [specialize (Hp0 n eq_refl); lia|apply Hsm; by right])).
    fold w1 p1 d. fold d in El. by rewrite El. }
  rewrite app_nil_r in Er.
  assert (Etext : format_text [Dir d] = piece_text (Dir d)).
  { unfold format_text. cbn [mbind list_bind]. by rewrite app_nil_r. }
  assert (Hlo : length (coloured 0 l) = length l) by apply length_fmap.
  assert (Hfst : fst <$> coloured 0 l = l).
  { unfold coloured. rewrite <- list_fmap_compose. apply list_fmap_id. }
  pose proof (vsnprintf_run (fun _ => None) [Dir d] [u64 v] (coloured 0 l) str size a s) as E.
  rewrite Etext, Hlo, Hfst in E. specialize (E ltac:(constructor; [split; done|constructor]) Er ltac:(lia) Hsz Hm Ha Hoff Hlen ltac:(done)).
  unfold snprintf. rewrite (bind_ok _ _ _ _ _ E), wrapS_small by lia. eexists _, _. split; [reflexivity|].
  intros Hfit. set (s' := pokes str (cut size l) s).
  assert (Ecut : cut size l = l ++ [0]).
  { unfold cut. rewrite (proj2 (Z.eqb_neq size 0)), take_ge by lia. done. }
  apply (number_parses (fun _ => None) fs w p c (default (-1) w1) (Z.max 0 <$> p1) v l s' str Hc Hv El); [|lia].
  subst s'. rewrite Ecut. apply bytes_at_pokes. rewrite length_app. cbn. eapply mapped_sub; [exact Hm|lia..].
Qed.

(** "%#08lx" at 16 and a buffer of 12 bytes at 64. *)
Definition demo_number : cmem := pokes 16 [37; 35; 48; 56; 108; 120; 0] (pokes 64 (replicate 12 1) ∅).

Lemma print_parse_roundtrip_witness :
  exists n s', snprintf 64 12 16 [u64 3054] demo_number = Ok (n, s') /\
    (n < 12 -> exists e, parse Cx 64 s' = Ok ((3054, e), s')).
Proof.
  apply (print_parse_roundtrip [Alt; Zero] (Given 8) Omitted Cx 3054 64 12 16 demo_number).
  - right; right; right; left.
  - cbn. lia.
  - split; intros n E; simplify_eq/=; lia.
  - done.
  - done.
  - intros n [E|E]; simplify_eq/=; lia.
  - lia.
  - intros b Hb. assert (Hn : Z.to_nat (b - 64) ∈ seq 0 12) by (apply elem_of_seq; lia).
    replace b with (64 + Z.of_nat (Z.to_nat (b - 64))) by lia. revert Hn. generalize (Z.to_nat (b - 64)) as i. intros i Hn.
    apply elem_of_seq in Hn. do 12 (destruct i as [|i]; [by eexists|]). lia.
  - split; [|vm_compute; repeat constructor].
    intros i b Hi. do 7 (destruct i as [|i]; [revert Hi; vm_compute; congruence|]). done.
  - left. vm_compute. reflexivity.
  - vm_compute. reflexivity.
Defined.

(** ** The console *)

(** C10: console_vprintf(), behind every console_printf(), implements the
    terminal: started at the given position, or for a negative position at the
    cursor and then with scrolling, it returns the position of the terminal
    after the rendered characters and leaves its cells on the console; the
    cursor moves for negative positions only, and no other byte of memory
    changes. *)
Theorem console_printf_refines {S} `{BytesLaws S} (strings : Z -> option (list Z)) (ps : list piece)
  (val : va_list) (out : list (Z * Z)) (cpos color : Z) (cells : list Z) (cursor : nat) (a : Z) (s : S) :
  Forall piece_ok ps -> render strings ps color val = Some out ->
  shows s cells -> cursor_at s cursor -> (cursor <= SCREEN)%nat ->
  str_at s a (format_text ps) -> off_console a (length (format_text ps)) ->
  Z.of_nat (length (format_text ps)) < 2 ^ 64 ->
  (forall p l, strings p = Some l -> str_at s p l /\ off_console p (length l)) ->
  let t := term_puts out (mkTerm cells (start_pos cpos cursor) (cpos <? 0)) in
  exists s', console_vprintf cpos color a val s = Ok (Z.of_nat (t_cursor t), s') /\ console_after cpos s s' t.
Proof. intros. by apply (console_vprintf_run strings ps). Qed.

(** "%d" and a line feed in the kernel's memory, with an empty console. *)
Definition demo_line : list piece := [Dir (mkDirective [] Omitted Omitted false Cd); Plain 10].
Definition demo_console : vm := pokes 0x6000 (format_text demo_line ++ [0]) (mkVm (mkRam 0 ∅) []).

Lemma demo_console_zero b : 0xB8000 <= b < 0xB9000 -> peek demo_console b = Some 0.
Proof.
  intros Hb. unfold demo_console. rewrite peek_pokes by (by apply mapped_vm).
  rewrite decide_False by (vm_compute length; lia). cbn. unfold kernel_can_access.
  by rewrite (proj2 (andb_true_iff _ _)) by (rewrite !Z.leb_le; change MEMSIZE_PHYSICAL with 0x200000;
    change PAGESIZE with 4096; lia).
Qed.

Lemma demo_console_zeros a n :
  0xB8000 <= a -> a + Z.of_nat n <= 0xB9000 -> bytes_at demo_console a (replicate n 0).
Proof.
  intros Ha Hn i b Hi. apply lookup_replicate in Hi as [-> Hi]. apply demo_console_zero. lia.
Qed.

Lemma console_printf_refines_witness :
  let t := term_puts [(52, 0x700); (50, 0x700); (10, 0x700)] (mkTerm (replicate SCREEN 0) 1990 true) in
  exists s', console_vprintf (-1) 0x700 0x6000 [42]
               (poke 0xB8FFC 0xC6 (poke 0xB8FFD 7 demo_console)) = Ok (Z.of_nat (t_cursor t), s') /\
    console_after (-1) (poke 0xB8FFC 0xC6 (poke 0xB8FFD 7 demo_console)) s' t.
Proof.
  set (s := poke 0xB8FFC 0xC6 (poke 0xB8FFD 7 demo_console)).
  assert (Hpeek : forall b, peek s b = if decide (b = 0xB8FFC) then Some 0xC6 else
                              if decide (b = 0xB8FFD) then Some 7 else peek demo_console b).
  { intros b. subst s. rewrite !peek_poke by (by eexists). done. }
  refine (console_printf_refines (fun _ => None) demo_line [42] [(52, 0x700); (50, 0x700); (10, 0x700)] (-1) 0x700
            (replicate SCREEN 0) 1990 0x6000 s _ _ _ _ _ _ _ _ _).
  - unfold demo_line. repeat apply Forall_cons_2; [..|apply Forall_nil_2]; cbn; [split; intros n E; simplify_eq|lia].
  - vm_compute. reflexivity.
  - split_and!; [|apply Forall_replicate; lia|apply length_replicate]. rewrite screen_bytes_zero.
    intros i b Hi. pose proof (lookup_lt_Some _ _ _ Hi) as Hlt. rewrite length_replicate in Hlt. unfold SCREEN in Hlt.
    rewrite Hpeek, !decide_False by (unfold console; lia). 
    apply (demo_console_zeros console (2 * SCREEN)); [unfold console; lia|unfold console, SCREEN; lia|exact Hi].
  - intros i b Hi. rewrite Hpeek. do 4 (destruct i as [|i]; [revert Hi; vm_compute; congruence|]). done.
  - apply Nat.leb_le. vm_compute. reflexivity.
  - split; [|vm_compute; repeat constructor].
    intros i b Hi. rewrite Hpeek. do 4 (destruct i as [|i]; [revert Hi; vm_compute; congruence|]). done.
  - left. vm_compute. reflexivity.
  - vm_compute. reflexivity.
  - done.
Defined.
