(* ===== verification/VmIter.v ===== *)
(** * Page table iterators of the mini operating system

    The rest of k-vmiter.hh and k-vmiter.cc: moving a vmiter over the mappings
    of an address space, the permissions of a range of addresses, and ptiter,
    which visits the pages of a page table in depth-first order. *)
From stdpp Require Import prelude gmap list.
From Stdlib Require Import ZArith Lia.
From S2P Require Import Prelude Memory Vm.
Open Scope Z_scope.
Open Scope c_scope.

Definition VA_LOWEND : Z := 0x0000800000000000.
Definition VA_NONCANONMAX : Z := 0x0000FFFFFFFFFFFF.

(** ** vmiter *)

Definition last_va (it : vmiter) : Z := u64 (Z.lor (va_ it) (pageoffmask (level_ it)) + 1).

(** vmiter::kptr(), the null pointer for an address that is not mapped. *)
Definition vmiter_kptr (it : vmiter) : M vm Z :=
  pe <- read_pe (pep_ it);;
  if negb (Z.land pe PTE_P =? 0) then vmiter_pa it else ret 0.

Definition vmiter_has (it : vmiter) (desired_perm : Z) : M vm bool :=
  p <- vmiter_perm it;; ret (Z.land p desired_perm =? desired_perm).
Definition present (it : vmiter) : M vm bool := vmiter_has it PTE_P.
Definition writable (it : vmiter) : M vm bool := vmiter_has it (Z.lor PTE_P PTE_W).
Definition user (it : vmiter) : M vm bool := vmiter_has it (Z.lor PTE_P PTE_U).

Definition find (it : vmiter) (va : Z) : M vm vmiter := real_find it va.
Definition vmiter_add (it : vmiter) (delta : Z) : M vm vmiter := find it (u64 (va_ it + delta)).
Definition vmiter_sub (it : vmiter) (delta : Z) : M vm vmiter := find it (u64 (va_ it - delta)).
Definition next_range (it : vmiter) : M vm vmiter := real_find it (last_va it).

Definition vmiter_next (it : vmiter) : M vm vmiter :=
  p <- vmiter_perm it;;
  let level := if (0 <? level_ it)%nat && (p =? 0) then level_ it else 0%nat in
  real_find it (u64 (Z.lor (va_ it) (pageoffmask level) + 1)).

(** The body of the loop of range_perm(). *)
Definition range_step (st : Z * Z * Z * vmiter) : M vm (Z * Z * Z * vmiter + Z) :=
  let '(p, rsz, sz, it) := st in
  let sz := u64 (sz - rsz) in
  it <- next_range it;;
  q <- vmiter_perm it;;
  let p := Z.land p q in
  let rsz := pageoffmask (level_ it) + 1 in
  ret (if negb (Z.land p PTE_P =? 0) && (rsz <? sz) then inl (p, rsz, sz, it) else inr p).

Definition range_perm (it : vmiter) (sz : Z) : M vm Z :=
  p <- vmiter_perm it;;
  let rsz := pageoffmask (level_ it) + 1 in
  if negb (Z.land p PTE_P =? 0) && (rsz <? sz) then
    if u64 ((if s64 (va_ it) <? 0 then 0 else VA_LOWEND) - va_ it) <? sz then ret 0
    else
      p <- loopM range_step (p, rsz, u64 (sz + Z.land (va_ it) (rsz - 1)), it);;
      ret (if negb (Z.land p PTE_P =? 0) then p else 0)
  else ret (if negb (Z.land p PTE_P =? 0) then p else 0).

Definition range_perm_has (it : vmiter) (sz desired_perm : Z) : M vm bool :=
  p <- range_perm it sz;; ret (Z.land p desired_perm =? desired_perm).

(** ** ptiter *)

Record ptiter := mkPtiter { pt_pt : Z; pt_pep : Z; pt_level : nat; pt_va : Z }.

(** The loop of ptiter::down(); the last component is the iterator. *)
Definition down_step (st : bool * nat * ptiter) : M vm (bool * nat * ptiter + ptiter) :=
  let '(skip, stop_level, it) := st in
  pe <- read64 (pt_pep it);;
  if (Z.land pe (Z.lor PTE_P PTE_PS) =? PTE_P) && negb skip then
    if Nat.eqb (pt_level it) stop_level then ret (inr it)
    else
      let level := (pt_level it - 1)%nat in
      let pa := Z.land pe PTE_PAMASK in
      ret (inl (skip, stop_level, mkPtiter (pt_pt it) (pa + 8 * pageindex (pt_va it) level) level (pt_va it)))
  else
    let va := u64 (Z.lor (pt_va it) (pageoffmask (pt_level it)) + 1) in
    if negb (Z.land (Z.lxor va (pt_va it)) (Z.lnot (pageoffmask (pt_level it + 1))) =? 0) then
      if Nat.eqb (pt_level it) 3 then
        ret (inr (mkPtiter (pt_pt it) (pt_pep it) (pt_level it) (VA_NONCANONMAX + 1)))
      else
        ret (inl (false, (pt_level it + 1)%nat,
                  mkPtiter (pt_pt it) (pt_pt it + 8 * pageindex (pt_va it) 3) 3 (pt_va it)))
    else ret (inl (false, stop_level, mkPtiter (pt_pt it) (pt_pep it + 8) (pt_level it) va)).

(** ptiter::down() *)
Definition ptiter_down (it : ptiter) (skip : bool) : M vm ptiter := loopM down_step (skip, 1%nat, it).

(** ptiter::go() *)
Definition ptiter_go (pt va : Z) : M vm ptiter :=
  ptiter_down (mkPtiter pt (pt + 8 * pageindex va 3) 3 va) false.

Definition new_ptiter (pt : Z) : M vm ptiter := ptiter_go pt 0.
Definition ptiter_done (it : ptiter) : bool := VA_NONCANONMAX <? pt_va it.
Definition ptiter_next (it : ptiter) : M vm ptiter := ptiter_down it true.
Definition ptiter_pa (it : ptiter) : M vm Z := pe <- read64 (pt_pep it);; ret (Z.land pe PTE_PAMASK).
Definition ptiter_va (it : ptiter) : Z := Z.land (pt_va it) (Z.lnot (pageoffmask (pt_level it))).
Definition ptiter_last_va (it : ptiter) : Z := u64 (Z.lor (pt_va it) (pageoffmask (pt_level it)) + 1).
Definition ptiter_level (it : ptiter) : nat := (pt_level it - 1)%nat.
Definition entry_va (it : ptiter) (idx : Z) : Z := u64 (ptiter_va it + idx * (pageoffmask (pt_level it - 1) + 1)).
Definition entry_last_va (it : ptiter) (idx : Z) : Z :=
  u64 (ptiter_va it + (idx + 1) * (pageoffmask (pt_level it - 1) + 1)).
Definition entry (it : ptiter) (idx : Z) : M vm Z :=
  c_assert (idx <? 512);;; pa <- ptiter_pa it;; read64 (pa + 8 * idx).

(** for (ptiter it(pt); !it.done(); it.next()) visit(it.pa()) *)
Definition foreach_step (st : list Z * ptiter) : M vm (list Z * ptiter + list Z) :=
  let '(visited, it) := st in
  if ptiter_done it then ret (inr visited)
  else pa <- ptiter_pa it;; it <- ptiter_next it;; ret (inl (visited ++ [pa], it)).

Definition ptiter_foreach (pt : Z) : M vm (list Z) := it <- new_ptiter pt;; loopM foreach_step ([], it).
