(* ===== verification/VmIterProofs.v ===== *)
(** * Laws of the page table iterators

    range_perm() is the intersection of the permissions of the pages of a
    range; ptiter enumerates the pages of a page table below its root, children
    before parents, and terminates. *)
From stdpp Require Import prelude gmap list.
From Stdlib Require Import ZArith Lia.
From S2P Require Import Prelude Memory Vm VmProofs VmBoot VmIter Lib LibProofs.
Open Scope Z_scope.
Open Scope c_scope.

(** ** Masks *)

Lemma pageoffmask_ones l : pageoffmask l = Z.ones (12 + 9 * Z.of_nat l).
Proof.
  unfold pageoffmask, PAGEOFFBITS, PAGEINDEXBITS. rewrite Z.shiftl_1_l, Z.ones_equiv.
  rewrite (Z.mul_comm (Z.of_nat l)). lia.
Qed.

(** The first address behind the entry of [va]. *)
Lemma lor_ones va k : 0 <= k -> 0 <= va -> Z.lor va (Z.ones k) + 1 = (va / 2 ^ k + 1) * 2 ^ k.
Proof.
  intros Hk Hva. assert (E : Z.lor va (Z.ones k) = va / 2 ^ k * 2 ^ k + Z.ones k).
  { apply Z.bits_inj'. intros n Hn. rewrite Z.lor_spec.
    rewrite <- Z.shiftr_div_pow2, <- Z.shiftl_mul_pow2 by lia.
    rewrite Z.add_nocarry_lor.
    - rewrite Z.lor_spec. destruct (decide (n < k)).
      + by rewrite Z.ones_spec_low, !orb_true_r by lia.
      + rewrite Z.ones_spec_high, !orb_false_r, Z.shiftl_spec, Z.shiftr_spec by lia. f_equal. lia.
    - apply Z.bits_inj'. intros m Hm. rewrite Z.land_spec, Z.bits_0. destruct (decide (m < k)).
      + by rewrite Z.shiftl_spec_low by lia.
      + by rewrite Z.ones_spec_high, andb_false_r by lia. }
  rewrite E, Z.ones_equiv. lia.
Qed.

Section iter.
Context (kernel_end : Z).
Abbreviation space := (VmProofs.space kernel_end).

(** ** Permissions of a range *)

(** The intersection of [p] with the permissions of [n] pages from [va] on. *)
Fixpoint meet (s : vm) (T : tables) (n : nat) (va p : Z) : Z :=
  match n with
  | O => p
  | S n => meet s T n (va + 4096) (Z.land p (permission (leaf s T va)))
  end.

Lemma meet_0 s T n va : meet s T n va 0 = 0.
Proof. revert va. induction n as [|n IH]; intros va; [done|]. cbn. apply IH. Qed.

Lemma present_bit x : Z.land x PTE_P = 0 <-> Z.testbit x 0 = false.
Proof. unfold PTE_P. rewrite land_1_mod, Zmod_odd, Z.bit0_odd. by destruct (Z.odd x). Qed.

Lemma permission_present e : permission e <> 0 -> Z.testbit (permission e) 0 = true.
Proof.
  unfold permission. destruct (Z.eqb_spec (Z.land e PTE_P) 0) as [|Hne]; [done|]. intros _.
  rewrite present_bit in Hne. change 4096 with (2 ^ 12). rewrite Z.mod_pow2_bits_low by lia. by destruct (Z.testbit e 0).
Qed.

(** A permission with the present bit keeps it under intersection, or becomes 0. *)
Lemma meet_present p e :
  Z.land p PTE_P <> 0 -> let q := Z.land p (permission e) in
  (Z.land q PTE_P = 0 /\ q = 0) \/ (Z.land q PTE_P <> 0 /\ permission e <> 0).
Proof.
  intros Hp q. subst q. destruct (decide (permission e = 0)) as [->|Hne]; [left; by rewrite Z.land_0_r|right].
  split; [|done]. rewrite present_bit in *. rewrite Z.land_spec, (permission_present e Hne). by destruct (Z.testbit p 0).
Qed.

(** Moving to the next page. *)
Lemma next_page s T root va t :
  space s T root -> bottom T va 0 t -> 0 <= va -> 4096 * (va / 4096 + 1) < 2 ^ 47 ->
  exists l t', (l <= 3)%nat /\ bottom T (4096 * (va / 4096 + 1)) l t' /\
    next_range (at_entry root va t 0) s = Ok (at_entry root (4096 * (va / 4096 + 1)) t' l, s).
Proof.
  intros H Hb Hva Hlt. unfold next_range, last_va. cbn [va_ level_ at_entry].
  rewrite pageoffmask_ones. change (12 + 9 * Z.of_nat 0) with 12. rewrite lor_ones by lia.
  change (2 ^ 12) with 4096. pose proof (Z.div_pos va 4096 ltac:(lia) ltac:(lia)).
  rewrite wrapU_small, Z.mul_comm by lia.
  apply (real_find_spec kernel_end s T root); [done|apply Hb|]. apply low_canonical. lia.
Qed.

Lemma range_runs s T root n va t p sz :
  space s T root -> bottom T va 0 t -> Z.land p PTE_P <> 0 -> 0 <= va ->
  4096 * Z.of_nat n < sz - 4096 <= 4096 * (Z.of_nat n + 1) -> 4096 * (va / 4096) + sz <= VA_LOWEND ->
  exists k, (k <= n + 1)%nat /\
    runs range_step k (p, 4096, sz, at_entry root va t 0) s (meet s T (S n) (4096 * (va / 4096 + 1)) p) s.
Proof.
  intros H. revert va t p sz. induction n as [|n IH]; intros va t p sz Hb Hp Hva Hsz Hlow; unfold VA_LOWEND in *;
    destruct (next_page s T root va t H Hb Hva) as (l & t' & Hl & Hb' & E); [lia| |lia|];
    pose proof (Z.div_pos va 4096 ltac:(lia) ltac:(lia)) as Hpg; set (next := 4096 * (va / 4096 + 1)) in *;
    destruct (perm_at kernel_end s T root next l t' H Hl Hb') as [Eq Hl0];
    pose proof (meet_present p (leaf s T next) Hp) as Hm; cbv zeta in Hm; cbn [meet].
  - exists 1%nat. split; [lia|]. constructor. unfold range_step. rewrite (bind_ok _ _ _ _ _ E), (bind_ok _ _ _ _ _ Eq).
    cbn [level_ at_entry]. rewrite wrapU_small by lia. unfold ret.
    destruct Hm as [[-> ->]|[Hm1 Hm2]]; [done|]. rewrite (Hl0 Hm2). change (pageoffmask 0 + 1) with 4096.
    by rewrite (proj2 (Z.ltb_ge _ _)), andb_false_r by lia.
  - destruct Hm as [[Hm1 Hm2]|[Hm1 Hm2]].
    + exists 1%nat. split; [lia|]. constructor. unfold range_step. rewrite (bind_ok _ _ _ _ _ E), (bind_ok _ _ _ _ _ Eq).
      unfold ret. rewrite Hm1. cbn [negb andb Z.eqb]. rewrite Hm2. cbn [meet]. by rewrite Z.land_0_l, meet_0.
    + rewrite (Hl0 Hm2) in *. assert (En : next / 4096 = va / 4096 + 1) by (subst next; rewrite Z.mul_comm; apply Z.div_mul; lia).
      destruct (IH next t' (Z.land p (permission (leaf s T next))) (sz - 4096) Hb' Hm1) as (k & Hk & Hr); [lia..|].
      replace (4096 * (next / 4096 + 1)) with (next + 4096) in Hr by lia.
      exists (S k). split; [lia|]. eapply runs_step; [|exact Hr].
      unfold range_step. rewrite (bind_ok _ _ _ _ _ E), (bind_ok _ _ _ _ _ Eq). cbn [level_ at_entry].
      change (pageoffmask 0 + 1) with 4096. rewrite wrapU_small by lia. unfold ret.
      by rewrite (proj2 (Z.eqb_neq _ _) Hm1), (proj2 (Z.ltb_lt _ _)) by lia.
Qed.

(** The number of pages behind the first one that a range of [sz] bytes from the
    start of a page reaches. *)
Definition more_pages (sz : Z) : nat := Z.to_nat ((sz + 4095) / 4096 - 1).

Lemma meet_flag s T n va p : Z.land p PTE_P <> 0 -> Z.land (meet s T n va p) PTE_P = 0 -> meet s T n va p = 0.
Proof.
  revert va p. induction n as [|n IH]; intros va p E0; cbn [meet]; [done|].
  destruct (meet_present p (leaf s T va) E0) as [[_ ->]|[Hm _]]; [by rewrite meet_0|by apply IH].
Qed.

(** range_perm() looks at every page of the range if the range is longer than a
    page, and at the first page only otherwise. *)
Lemma range_perm_run s T root va l t sz :
  space s T root -> (l <= 3)%nat -> bottom T va l t -> 0 <= va < VA_LOWEND -> 0 <= sz < 2 ^ 64 ->
  range_perm (at_entry root va t l) sz s =
  Ok (if sz <=? 4096 then permission (leaf s T va)
      else if VA_LOWEND <? va + sz then 0
      else meet s T (more_pages (sz + va mod 4096)) (4096 * (va / 4096 + 1)) (permission (leaf s T va)), s).
Proof.
  intros H Hl Hb Hva Hsz. destruct (perm_at kernel_end s T root va l t H Hl Hb) as [Eq Hl0].
  unfold range_perm. rewrite (bind_ok _ _ _ _ _ Eq). set (p := permission (leaf s T va)) in *. cbn [level_ at_entry va_].
  destruct (Z.eqb_spec (Z.land p PTE_P) 0) as [E0|E0]; cbn [negb andb].
  { assert (Hp0 : p = 0).
    { destruct (decide (p = 0)) as [|Hn]; [done|]. rewrite present_bit in E0.
      pose proof (permission_present (leaf s T va) Hn) as Hp1. fold p in Hp1. congruence. }
    rewrite Hp0, meet_0. by repeat case_match. }
  assert (Hne : p <> 0) by (intros Hp0; by rewrite Hp0 in E0).
  rewrite (Hl0 Hne) in *. change (pageoffmask 0 + 1) with 4096. unfold VA_LOWEND in *.
  destruct (Z.ltb_spec 4096 sz) as [Hgt|Hle]; [|by rewrite (proj2 (Z.leb_le _ _))].
  rewrite (proj2 (Z.leb_gt _ _)) by done. rewrite wrapS_small by lia. rewrite (proj2 (Z.ltb_ge va 0)) by lia.
  rewrite (wrapU_small _ (_ - va)) by lia. replace (_ - va <? sz) with (0x800000000000 <? va + sz) by (destruct (Z.ltb_spec 0x800000000000 (va + sz)), (Z.ltb_spec (0x800000000000 - va) sz); lia).
  destruct (Z.ltb_spec 0x800000000000 (va + sz)) as [|Hend]; [done|].
  change (4096 - 1) with (Z.ones 12). rewrite Z.land_ones by lia. change (2 ^ 12) with 4096.
  pose proof (Z.mod_pos_bound va 4096 ltac:(lia)) as Hoff. pose proof (Z.div_mod va 4096 ltac:(lia)) as Hdm. set (off := va mod 4096) in *.
  rewrite wrapU_small by lia. set (len := sz + off) in *.
  pose proof (Z.div_mod (len + 4095) 4096 ltac:(lia)). pose proof (Z.mod_pos_bound (len + 4095) 4096 ltac:(lia)).
  unfold more_pages. set (q := (len + 4095) / 4096) in *. replace (Z.to_nat (q - 1)) with (S (Z.to_nat (q - 2))) by lia.
  destruct (range_runs s T root (Z.to_nat (q - 2)) va t p len H Hb E0 ltac:(lia)) as (k & Hk & Hr); [lia|unfold VA_LOWEND; lia|].
  rewrite (bind_ok _ _ _ _ _ (loopM_runs _ _ _ _ _ _ Hr ltac:(lia))). unfold ret.
  destruct (Z.eqb_spec (Z.land (meet s T (S (Z.to_nat (q - 2))) (4096 * (va / 4096 + 1)) p) PTE_P) 0) as [Em|]; cbn [negb]; [|done].
  by rewrite (meet_flag _ _ _ _ _ E0 Em).
Qed.

(** ** The pages of a page table *)

Section tree.
Context (T : tables).

(** The table pages of the subtree at level [l] and prefix [c], children first. *)
Fixpoint subtree (l : nat) (c : Z) : list Z :=
  match T !! (l, c) with
  | None => []
  | Some t => match l with O => [] | S l' => seqZ (512 * c) 512 ≫= subtree l' end ++ [t]
  end.

(** [n] subtrees from [c] on. *)
Definition scan (l : nat) (c n : Z) : list Z := seqZ c n ≫= subtree l.

(** What is visited behind the table of level [3 - d] and prefix [x]: the table
    itself, the rest of its parent's table, and so on. *)
Fixpoint after (d : nat) (x : Z) : list Z :=
  match d with
  | O => []
  | S d => default 0 (T !! ((2 - d)%nat, x)) :: scan (2 - d) (x + 1) (511 - x mod 512) ++ after d (x / 512)
  end.

(** The visits from the entry [c] of a table of level [l] on, and behind it. *)
Definition rest (l : nat) (c : Z) : list Z := scan (l - 1) c (512 - c mod 512) ++ after (3 - l) (c / 512).
Definition behind (l : nat) (c : Z) : list Z := scan (l - 1) (c + 1) (511 - c mod 512) ++ after (3 - l) (c / 512).

Lemma scan_cons l c n : 0 < n -> scan l c n = subtree l c ++ scan l (c + 1) (n - 1).
Proof.
  intros Hn. unfold scan. rewrite seqZ_cons by done. rewrite Z.sub_1_r. by rewrite Z.add_1_r.
Qed.

Lemma rest_cons l c : rest l c = subtree (l - 1) c ++ behind l c.
Proof.
  unfold rest, behind. pose proof (Z.mod_pos_bound c 512 ltac:(lia)).
  rewrite scan_cons, <- app_assoc by lia. do 3 f_equal. lia.
Qed.

Lemma behind_next l c : c mod 512 < 511 -> behind l c = rest l (c + 1).
Proof.
  intros Hc. pose proof (Z.mod_pos_bound c 512 ltac:(lia)). pose proof (Z.div_mod c 512 ltac:(lia)).
  assert (E : (c + 1) mod 512 = c mod 512 + 1 /\ (c + 1) / 512 = c / 512).
  { split; [symmetry; apply Z.mod_unique with (q := c / 512); lia|symmetry; apply Z.div_unique with (r := c mod 512 + 1); lia]. }
  destruct E as [E1 E2]. unfold rest, behind. rewrite E1, E2. do 2 f_equal. lia.
Qed.

Lemma behind_last l c : c mod 512 = 511 -> behind l c = after (3 - l) (c / 512).
Proof. intros Hc. unfold behind. rewrite Hc. reflexivity. Qed.

Lemma after_up l x t :
  (1 <= l <= 2)%nat -> T !! (l, x) = Some t -> after (3 - l) x = t :: behind (l + 1) x.
Proof.
  intros Hl Ht. unfold behind. replace (3 - l)%nat with (S (2 - l)) by lia. cbn [after].
  replace (2 - (2 - l))%nat with l by lia. rewrite Ht. replace (l + 1 - 1)%nat with l by lia.
  by replace (3 - (l + 1))%nat with (2 - l)%nat by lia.
Qed.

Lemma rest_none l c : T !! ((l - 1)%nat, c) = None -> rest l c = behind l c.
Proof. intros E. rewrite rest_cons. destruct (l - 1)%nat; cbn [subtree]; by rewrite E. Qed.

Lemma rest_leaf c t : T !! (0%nat, c) = Some t -> rest 1 c = t :: behind 1 c.
Proof. intros E. rewrite rest_cons. change (1 - 1)%nat with 0%nat. cbn [subtree]. by rewrite E. Qed.

(** Entering a table visits its subtrees, and then the table. *)
Lemma rest_enter l c t : (2 <= l <= 3)%nat -> T !! ((l - 1)%nat, c) = Some t -> rest l c = rest (l - 1) (512 * c).
Proof.
  intros Hl E. assert (Hdm : (512 * c) / 512 = c /\ (512 * c) mod 512 = 0).
  { rewrite Z.mul_comm, Z.div_mul, Z.mod_mul by lia. done. }
  destruct Hdm as [Ed Em]. rewrite rest_cons. unfold rest at 1. rewrite Ed, Em, (after_up (l - 1) c t) by (lia || done).
  replace (l - 1 + 1)%nat with l by lia. destruct (l - 1)%nat as [|m] eqn:Em1; [lia|].
  cbn [subtree]. rewrite E. rewrite <- app_assoc. unfold scan. replace (S m - 1)%nat with m by lia. done.
Qed.
End tree.

(** ** ptiter *)

Section walk.
Context {absent : Z -> Prop} `{!Closed absent}.
Context (s : vm) (T : tables) (root : Z) (H : VmProofs.space_with kernel_end (absent := absent) s T root).

Abbreviation width l := (12 + 9 * Z.of_nat l).

(** The entry of [va] at level [l]. *)
Definition slot (va : Z) (l : nat) : Z := va / 2 ^ width l.

Lemma slot_pre va l : (1 <= l <= 3)%nat -> 0 <= va < 2 ^ 48 ->
  pre va l = slot va l / 512 /\ pidx va l = slot va l mod 512 /\ pre va (l - 1) = slot va l.
Proof.
  intros Hl Hva. unfold pre, pidx, slot. rewrite Z.mod_small by lia. split_and!; [|done|].
  - rewrite Z.div_div by lia. f_equal. change 512 with (2 ^ 9). rewrite <- Z.pow_add_r by lia. f_equal. lia.
  - do 2 f_equal. lia.
Qed.

(** An iterator at the entry of [va] in a table of level [l]. *)
Definition standing (it : ptiter) (l : nat) (va : Z) : Prop :=
  (1 <= l <= 3)%nat /\ 0 <= va < 2 ^ 48 /\
  exists t, T !! (l, slot va l / 512) = Some t /\ it = mkPtiter root (t + 8 * (slot va l mod 512)) l va.

Lemma standing_read it l va :
  standing it l va ->
  exists e, read64 (pt_pep it) s = Ok (e, s) /\
    match T !! ((l - 1)%nat, slot va l) with
    | Some t' => (Z.land e (Z.lor PTE_P PTE_PS) =? PTE_P) = true /\ Z.land e PTE_PAMASK = t'
    | None => (Z.land e (Z.lor PTE_P PTE_PS) =? PTE_P) = false
    end.
Proof.
  intros (Hl & Hva & t & Ht & ->). cbn [pt_pep]. set (c := slot va l) in *.
  pose proof (Z.mod_pos_bound c 512 ltac:(lia)) as Hi.
  eexists. split; [exact (read_entry kernel_end _ _ _ _ _ _ _ H Ht Hi)|].
  destruct l as [|l]; [lia|]. replace (S l - 1)%nat with l by lia.
  pose proof (sp_inner _ _ _ _ H l _ _ _ Ht Hi) as Hin.
  replace (512 * (c / 512) + c mod 512) with c in Hin by (pose proof (Z.div_mod c 512 ltac:(lia)); lia).
  destruct (T !! (l, c)) as [t'|] eqn:E.
  - rewrite Hin. destruct (sp_page _ _ _ _ H _ _ _ E) as (A1 & A2 & A3 & _). unfold MEMSIZE_PHYSICAL in A3.
    change (Z.lor PTE_P PTE_PS) with 0x81. rewrite entry_flags, entry_page by lia. done.
  - destruct (absent_closed _ Hin) as [Hz _]. by apply Z.eqb_neq.
Qed.

(** The address behind an entry, and whether it is in the same table. *)
Lemma behind_va va l :
  (1 <= l <= 3)%nat -> 0 <= va < 2 ^ 48 ->
  let va' := u64 (Z.lor va (pageoffmask l) + 1) in
  va' = (slot va l + 1) * 2 ^ width l /\ slot va' l = slot va l + 1 /\
  (Z.land (Z.lxor va' va) (Z.lnot (pageoffmask (l + 1))) =? 0) = negb (slot va l mod 512 =? 511).
Proof.
  intros Hl Hva. rewrite !pageoffmask_ones, lor_ones by lia. unfold slot. set (k := width l). set (c := va / 2 ^ k).
  assert (Hk : 0 <= k <= 39) by lia. pose proof (Z.pow_pos_nonneg 2 k ltac:(lia) ltac:(lia)) as Hp.
  assert (Hc : 0 <= c < 2 ^ (48 - k)).
  { subst c. split; [apply Z.div_pos; lia|]. apply Z.div_lt_upper_bound; [lia|]. rewrite <- Z.pow_add_r by lia.
    replace (k + (48 - k)) with 48 by lia. lia. }
  assert (Hub : (c + 1) * 2 ^ k <= 2 ^ 48).
  { replace 48 with ((48 - k) + k) by lia. rewrite Z.pow_add_r by lia. nia. }
  rewrite wrapU_small by nia. split_and!; [done|by rewrite Z.div_mul by lia|].
  replace (width (l + 1)) with (k + 9) by lia. apply eq_true_iff_eq. rewrite Z.eqb_eq, negb_true_iff, Z.eqb_neq.
  rewrite <- Z.ldiff_land, Z.ldiff_ones_r, Z.shiftl_eq_0_iff, Z.shiftr_lxor, Z.lxor_eq_0_iff by lia.
  rewrite !Z.shiftr_div_pow2, !Z.pow_add_r, <- !Z.div_div, Z.div_mul by lia. fold c. change (2 ^ 9) with 512.
  pose proof (Z.div_mod c 512 ltac:(lia)). pose proof (Z.mod_pos_bound c 512 ltac:(lia)).
  pose proof (Z.div_mod (c + 1) 512 ltac:(lia)). pose proof (Z.mod_pos_bound (c + 1) 512 ltac:(lia)).
  set (q := c / 512) in *. set (q' := (c + 1) / 512) in *. lia.
Qed.

Definition finished (it : ptiter) : Prop := pt_va it = VA_NONCANONMAX + 1 /\ pt_level it = 3%nat.

Lemma finished_done it : finished it -> ptiter_done it = true.
Proof. intros [E _]. unfold ptiter_done. by rewrite E. Qed.

(** The iterator visits the table [t], and [rem] is what remains behind it. *)
Definition visiting (it : ptiter) (l : nat) (va t : Z) (rem : list Z) : Prop :=
  standing it l va /\ T !! ((l - 1)%nat, slot va l) = Some t /\ rem = behind T l (slot va l).

(** What is left to visit; at the end the address is beyond all others. *)
Definition arrives (it : ptiter) (todo : list Z) : Prop :=
  match todo with
  | [] => finished it
  | t :: rem => exists l va, visiting it l va t rem
  end.

(** From the top down to level [m]. *)
Lemma climb va m t k :
  (1 <= m)%nat -> 0 <= va < 2 ^ 48 -> T !! ((m - 1)%nat, slot va m) = Some t ->
  forall it, standing it (m + k) va ->
  exists n it', (n <= k + 1)%nat /\ runs down_step n (false, m, it) s it' s /\ visiting it' m va t (behind T m (slot va m)).
Proof.
  intros Hm Hva Ht. induction k as [|k IH]; intros it Hst; pose proof Hst as (Hl & _ & tt & Htt & Eit).
  - rewrite Nat.add_0_r in *. exists 1%nat, it. split; [lia|]. split; [|by split_and!].
    constructor. unfold down_step. destruct (standing_read it m va Hst) as (e & Er & Hm'). rewrite Ht in Hm'.
    destruct Hm' as [Ep _]. rewrite (bind_ok _ _ _ _ _ Er), Ep. subst it. cbn [pt_level negb andb]. by rewrite Nat.eqb_refl.
  - assert (Hchild : exists t1, T !! ((m + k)%nat, slot va (m + S k)) = Some t1).
    { destruct (slot_pre va m ltac:(lia) Hva) as (_ & _ & E1). destruct (slot_pre va (m + S k) ltac:(lia) Hva) as (_ & _ & E2).
      rewrite <- E1 in Ht. rewrite <- E2. replace (m + S k - 1)%nat with (m + k)%nat by lia.
      apply (up_chain kernel_end s T root va (m - 1) t H Ht). lia. }
    destruct Hchild as (t1 & Ht1).
    destruct (standing_read it (m + S k) va Hst) as (e & Er & Hm'). replace (m + S k - 1)%nat with (m + k)%nat in Hm' by lia.
    rewrite Ht1 in Hm'. destruct Hm' as [Ep Epa].
    destruct (slot_pre va (m + k) ltac:(lia) Hva) as (E1 & E2 & _). destruct (slot_pre va (m + S k) ltac:(lia) Hva) as (_ & _ & E3).
    replace (m + S k - 1)%nat with (m + k)%nat in E3 by lia.
    destruct (IH (mkPtiter root (t1 + 8 * (slot va (m + k) mod 512)) (m + k) va)) as (n & it' & Hn & Hr & Hv).
    { split_and!; [lia..|]. exists t1. split; [|done]. by rewrite <- E1, E3. }
    exists (S n), it'. split; [lia|]. split; [|done]. eapply runs_step; [|exact Hr].
    unfold down_step. rewrite (bind_ok _ _ _ _ _ Er), Ep, Epa. subst it. cbn [pt_level pt_pt pt_va negb andb].
    rewrite (proj2 (Nat.eqb_neq _ _)) by lia. replace (m + S k - 1)%nat with (m + k)%nat by lia.
    by rewrite pageindex_pidx, E2.
Qed.

(** Leaving the entry: to the next one, up, or to the end. *)
Lemma leave it l va skip stop :
  standing it l va -> (skip = true \/ T !! ((l - 1)%nat, slot va l) = None) ->
  exists st, down_step (skip, stop, it) s = Ok (st, s) /\
    ((slot va l mod 512 < 511 /\ exists it', st = inl (false, stop, it') /\ standing it' l ((slot va l + 1) * 2 ^ width l)) \/
     (slot va l mod 512 = 511 /\ l = 3%nat /\ exists it', st = inr it' /\ finished it') \/
     (slot va l mod 512 = 511 /\ (l < 3)%nat /\ exists it', st = inl (false, (l + 1)%nat, it') /\ standing it' 3 va)).
Proof.
  intros Hst Hskip. destruct (standing_read it l va Hst) as (e & Er & Hm).
  pose proof Hst as (Hl & Hva & t & Ht & ->). cbn [pt_pep] in Er.
  destruct (behind_va va l Hl Hva) as (Eva & Eslot & Ecross).
  pose proof (Z.mod_pos_bound (slot va l) 512 ltac:(lia)) as Hmod. pose proof (Z.div_mod (slot va l) 512 ltac:(lia)) as Hdm.
  unfold down_step. cbn [pt_pep pt_level pt_va pt_pt]. rewrite (bind_ok _ _ _ _ _ Er).
  assert (Eb : (Z.land e (Z.lor PTE_P PTE_PS) =? PTE_P) && negb skip = false).
  { destruct Hskip as [->|Hn]; [by rewrite andb_false_r|]. rewrite Hn in Hm. by rewrite Hm. }
  rewrite Eb, Ecross, negb_involutive. destruct (Z.eqb_spec (slot va l mod 512) 511) as [E511|E511].
  - destruct (Nat.eqb_spec l 3) as [->|Hne].
    + eexists. split; [reflexivity|]. right. left. by split_and!; [..|eexists].
    + eexists. split; [reflexivity|]. right. right. split_and!; [done|lia|]. eexists. split; [reflexivity|].
      destruct (slot_pre va 3 ltac:(lia) Hva) as (E1 & E2 & _). rewrite pre_top in E1.
      split_and!; [lia..|]. exists root. split; [|by rewrite pageindex_pidx, E2].
      rewrite <- E1. apply (sp_root _ _ _ _ H).
  - eexists. split; [reflexivity|]. left. split; [lia|]. eexists. split; [reflexivity|].
    rewrite Eva. set (va' := (slot va l + 1) * 2 ^ width l) in *. rewrite Eva in Eslot.
    assert (Hpow : 2 ^ 48 = 2 ^ (36 - 9 * Z.of_nat l) * 2 ^ width l).
    { rewrite <- Z.pow_add_r by lia. f_equal. lia. }
    assert (Hc : slot va l < 2 ^ (36 - 9 * Z.of_nat l)).
    { unfold slot. apply Z.div_lt_upper_bound; lia. }
    assert (Hc0 : 0 <= slot va l) by (unfold slot; apply Z.div_pos; lia).
    assert (Hdiv : 2 ^ (36 - 9 * Z.of_nat l) mod 512 = 0).
    { replace (36 - 9 * Z.of_nat l) with (27 - 9 * Z.of_nat l + 9) by lia. rewrite Z.pow_add_r by lia. by apply Z.mod_mul. }
    assert (Hlt : slot va l + 1 < 2 ^ (36 - 9 * Z.of_nat l)).
    { destruct (decide (slot va l + 1 = 2 ^ (36 - 9 * Z.of_nat l))) as [E|]; [|lia].
      rewrite <- E in Hdiv. exfalso.
      rewrite <- (Z.mod_unique (slot va l + 1) 512 (slot va l / 512) (slot va l mod 512 + 1)) in Hdiv by lia. lia. }
    assert (E1 : (slot va l + 1) / 512 = slot va l / 512) by (symmetry; apply Z.div_unique with (r := slot va l mod 512 + 1); lia).
    assert (E2 : (slot va l + 1) mod 512 = slot va l mod 512 + 1) by (symmetry; apply Z.mod_unique with (q := slot va l / 512); lia).
    split_and!; [lia|lia|subst va'; nia|subst va'; rewrite Hpow; nia|].
    exists t. rewrite Eslot, E1, E2. split; [done|]. f_equal. lia.
Qed.
(** Leaving an entry for what is behind it, given the walk from the next entry. *)
Lemma depart it l va skip N :
  standing it l va -> (skip = true \/ T !! ((l - 1)%nat, slot va l) = None) ->
  (slot va l mod 512 < 511 -> forall it', standing it' l ((slot va l + 1) * 2 ^ width l) ->
   exists n it'', (n <= N)%nat /\ runs down_step n (false, 1%nat, it') s it'' s /\ arrives it'' (rest T l (slot va l + 1))) ->
  exists n it'', (n <= S (N + 4))%nat /\ runs down_step n (skip, 1%nat, it) s it'' s /\ arrives it'' (behind T l (slot va l)).
Proof.
  intros Hst Hskip Hnext. destruct (leave it l va skip 1 Hst Hskip) as (st & E & [(Hc & it' & -> & Hst')|[(Hc & -> & it' & -> & Hd)|(Hc & Hl & it' & -> & Hst')]]).
  - destruct (Hnext Hc it' Hst') as (n & it'' & Hn & Hr & Ha). exists (S n), it''. split; [lia|].
    split; [by eapply runs_step|by rewrite behind_next].
  - exists 1%nat, it'. split; [lia|]. split; [by constructor|by rewrite behind_last].
  - pose proof Hst as (Hl1 & Hva & t & Ht & _).
    destruct (slot_pre va l Hl1 Hva) as (E1 & _). destruct (slot_pre va (l + 1) ltac:(lia) Hva) as (_ & _ & E2).
    replace (l + 1 - 1)%nat with l in E2 by lia. rewrite E1 in E2.
    destruct (climb va (l + 1) t (2 - l) ltac:(lia) Hva) with (it := it') as (n & it'' & Hn & Hr & Hv).
    + by replace (l + 1 - 1)%nat with l by lia; rewrite <- E2.
    + by replace (l + 1 + (2 - l))%nat with 3%nat by lia.
    + exists (S n), it''. split; [lia|]. split; [by eapply runs_step|].
      rewrite behind_last, (after_up T l _ t), E2 by (lia || done). by exists (l + 1)%nat, va.
Qed.

(** The walk from an entry of a table finds the next page to visit. *)
Lemma walk l : forall k it va,
  standing it l va -> va = slot va l * 2 ^ width l -> 512 - slot va l mod 512 <= Z.of_nat k ->
  exists n it', (n <= 6 * k + 3080 * (l - 1) + 6)%nat /\ runs down_step n (false, 1%nat, it) s it' s /\ arrives it' (rest T l (slot va l)).
Proof.
  induction l as [|l IHl]; [intros k it va ([] & _); lia|].
  induction k as [|k IHk]; intros it va Hst Hal Hk.
  { pose proof (Z.mod_pos_bound (slot va (S l)) 512 ltac:(lia)). lia. }
  replace (S l - 1)%nat with l in * by lia.
  destruct (T !! (l, slot va (S l))) as [t|] eqn:Et.
  - destruct (standing_read it (S l) va Hst) as (e & Er & Hm). replace (S l - 1)%nat with l in Hm by lia. rewrite Et in Hm.
    destruct Hm as [Ep Epa]. pose proof Hst as (Hl & Hva & tt & Htt & Eit).
    destruct (Nat.eqb_spec l 0) as [->|Hne].
    + exists 1%nat, it. split; [lia|]. split.
      * constructor. unfold down_step. rewrite (bind_ok _ _ _ _ _ Er), Ep. subst it. done.
      * rewrite (rest_leaf T _ t Et). by exists 1%nat, va.
    + destruct (slot_pre va l ltac:(lia) Hva) as (E1 & E2 & _). destruct (slot_pre va (S l) ltac:(lia) Hva) as (_ & _ & E3).
      replace (S l - 1)%nat with l in E3 by lia.
      assert (E4 : slot va l = 512 * slot va (S l)).
      { unfold slot at 1. rewrite Hal at 1. replace (width (S l)) with (9 + width l) by lia.
        rewrite Z.pow_add_r, Z.mul_assoc, Z.div_mul by lia. change (2 ^ 9) with 512. lia. }
      destruct (IHl 512%nat (mkPtiter root (t + 8 * (slot va l mod 512)) l va) va) as (n & it' & Hn & Hr & Ha).
      * split_and!; [lia..|]. exists t. split; [|done]. by rewrite <- E1, E3.
      * rewrite E4. rewrite Hal at 1. replace (width (S l)) with (9 + width l) by lia. rewrite Z.pow_add_r by lia. change (2 ^ 9) with 512. lia.
      * pose proof (Z.mod_pos_bound (slot va l) 512 ltac:(lia)). lia.
      * exists (S n), it'. split; [lia|]. split.
        -- eapply runs_step; [|exact Hr]. unfold down_step. rewrite (bind_ok _ _ _ _ _ Er), Ep, Epa. subst it.
           cbn [pt_level pt_pt pt_va negb andb]. rewrite (proj2 (Nat.eqb_neq _ _)) by lia.
           replace (S l - 1)%nat with l by lia. by rewrite pageindex_pidx, E2.
        -- rewrite (rest_enter T (S l) _ t) by (replace (S l - 1)%nat with l by lia; lia || done).
           replace (S l - 1)%nat with l by lia. by rewrite <- E4.
  - rewrite rest_none by (by replace (S l - 1)%nat with l by lia).
    destruct (depart it (S l) va false (6 * k + 3080 * l + 6)) as (n & it' & Hn & Hr & Ha); [done|right; by replace (S l - 1)%nat with l by lia| |].
    + intros Hc it' Hst'. set (va' := (slot va (S l) + 1) * 2 ^ width (S l)) in *.
      assert (Es : slot va' (S l) = slot va (S l) + 1) by (unfold slot at 1, va'; rewrite Z.div_mul; lia).
      rewrite <- Es. apply IHk; [done|by rewrite Es|]. rewrite Es.
      pose proof (Z.div_mod (slot va (S l)) 512 ltac:(lia)).
      rewrite <- (Z.mod_unique (slot va (S l) + 1) 512 (slot va (S l) / 512) (slot va (S l) mod 512 + 1)); [lia| |lia].
      pose proof (Z.mod_pos_bound (slot va (S l)) 512 ltac:(lia)). lia.
    + exists n, it'. split; [lia|done].
Qed.
(** ** The visited pages *)

(** [(l', c')] is in the subtree of level [l] and prefix [c]. *)
Definition under (l : nat) (c : Z) (l' : nat) (c' : Z) : Prop := (l' <= l)%nat /\ c' / 512 ^ Z.of_nat (l - l') = c.

Lemma under_self l c c' : under l c l c' -> c' = c.
Proof. intros [_ <-]. by rewrite Nat.sub_diag, Z.div_1_r. Qed.

Lemma under_parent l l' c' c :
  (l' <= l)%nat -> under (S l) c l' c' <-> exists d, under l d l' c' /\ 512 * c <= d < 512 * c + 512.
Proof.
  intros Hl. unfold under. replace (Z.of_nat (S l - l')) with (Z.of_nat (l - l') + 1) by lia.
  rewrite Z.pow_add_r, <- Z.div_div by lia. change (512 ^ 1) with 512. set (d := c' / 512 ^ Z.of_nat (l - l')).
  pose proof (Z.div_mod d 512 ltac:(lia)) as Hd. pose proof (Z.mod_pos_bound d 512 ltac:(lia)). set (q := d / 512) in *. split.
  - intros [_ <-]. exists d. lia.
  - intros (d' & [_ <-] & Hd'). lia.
Qed.

Lemma under_table l c l' c' t : under l c l' c' -> (l <= 3)%nat -> T !! (l', c') = Some t -> is_Some (T !! (l, c)).
Proof.
  intros [Hl <-] Hl3 Ht. revert Hl. induction l as [|l IH]; intros Hl.
  - replace l' with 0%nat in * by lia. cbn. by rewrite Z.div_1_r, Ht.
  - destruct (decide (l' = S l)) as [->|Hne]; [rewrite Nat.sub_diag; cbn; by rewrite Z.div_1_r, Ht|].
    destruct (IH ltac:(lia) ltac:(lia)) as [t1 Ht1]. pose proof (sp_up _ _ _ _ H _ _ _ Ht1 ltac:(lia)) as Hu.
    rewrite Z.div_div in Hu by lia. replace (512 ^ Z.of_nat (S l - l')) with (512 ^ Z.of_nat (l - l') * 512); [done|].
    replace (Z.of_nat (S l - l')) with (Z.of_nat (l - l') + 1) by lia. by rewrite Z.pow_add_r by lia.
Qed.

Lemma elem_subtree l : (l <= 3)%nat -> forall c x, x ∈ subtree T l c <-> exists l' c', under l c l' c' /\ T !! (l', c') = Some x.
Proof.
  induction l as [|l IH]; intros Hl c x; cbn [subtree app].
  - split.
    + destruct (T !! (0%nat, c)) eqn:E; [|by rewrite elem_of_nil]. rewrite list_elem_of_singleton. intros ->.
      exists 0%nat, c. split; [|done]. split; [done|apply Z.div_1_r].
    + intros (l' & c' & Hu & Ht). pose proof Hu as [Hle _]. replace l' with 0%nat in * by lia.
      rewrite (under_self _ _ _ Hu) in Ht. rewrite Ht. by apply list_elem_of_singleton.
  - split.
    + destruct (T !! (S l, c)) as [t|] eqn:E; [|by rewrite elem_of_nil].
      rewrite elem_of_app, list_elem_of_bind, list_elem_of_singleton. intros [(d & Hx & Hd)| ->].
      * apply elem_of_seqZ in Hd. apply IH in Hx as (l' & c' & Hu & Ht); [|lia]. exists l', c'. split; [|done].
        apply under_parent; [apply Hu|by exists d].
      * exists (S l), c. split; [|done]. split; [done|]. by rewrite Nat.sub_diag, Z.div_1_r.
    + intros (l' & c' & Hu & Ht). destruct (under_table _ _ _ _ _ Hu Hl Ht) as [t E]. rewrite E, elem_of_app.
      destruct (decide (l' = S l)) as [->|Hne].
      * rewrite (under_self _ _ _ Hu) in Ht. right. apply list_elem_of_singleton. congruence.
      * left. pose proof Hu as [Hle _]. apply under_parent in Hu as (d & Hu & Hd); [|lia].
        apply list_elem_of_bind. exists d. split; [apply IH; [lia|by exists l', c']|by apply elem_of_seqZ].
Qed.

Lemma subtree_disjoint l c c' x : (l <= 3)%nat -> x ∈ subtree T l c -> x ∈ subtree T l c' -> c = c'.
Proof.
  intros Hl. rewrite !elem_subtree by done. intros (l1 & c1 & [_ <-] & H1) (l2 & c2 & [_ <-] & H2).
  pose proof (sp_inj _ _ _ _ H _ _ _ H1 H2). by simplify_eq.
Qed.

Lemma NoDup_subtree l : (l <= 3)%nat -> forall c, NoDup (subtree T l c).
Proof.
  induction l as [|l IH]; intros Hl c; cbn [subtree app]; destruct (T !! _) as [t|] eqn:E; try apply NoDup_nil_2; [apply NoDup_singleton|].
  apply NoDup_app. split_and!; [|intros x Hx Ht|apply NoDup_singleton].
  - apply NoDup_bind; [intros c1 c2 y _ _; apply subtree_disjoint; lia|intros; apply IH; lia|apply NoDup_seqZ].
  - apply list_elem_of_singleton in Ht as ->. apply list_elem_of_bind in Hx as (d & Hx & _).
    apply elem_subtree in Hx as (l' & c' & [Hl' _] & Ht'); [|lia]. pose proof (sp_inj _ _ _ _ H _ _ _ E Ht'). simplify_eq. lia.
Qed.

(** [x] stands before [y] in a list. *)
Definition before (x y : Z) (l : list Z) : Prop := exists a b, l = a ++ y :: b /\ x ∈ a.

Lemma before_bind {A} x y (f : A -> list Z) (l : list A) d : d ∈ l -> before x y (f d) -> before x y (l ≫= f).
Proof.
  intros (l1 & l2 & ->)%list_elem_of_split (a & b & E & Hx). rewrite bind_app, bind_cons, E.
  exists ((l1 ≫= f) ++ a), (b ++ (l2 ≫= f)). split; [by rewrite <- !app_assoc|set_solver].
Qed.

(** Children come before their parents. *)
Lemma subtree_before l : (l <= 3)%nat -> forall c l' c' t t',
  under l c (S l') (c' / 512) -> T !! (l', c') = Some t -> T !! (S l', c' / 512) = Some t' -> before t t' (subtree T l c).
Proof.
  induction l as [|l IH]; intros Hl c l' c' t t' Hu Ht Ht'; pose proof Hu as [Hle _]; [lia|].
  destruct (under_table _ _ _ _ _ Hu Hl Ht') as [tc E]. cbn [subtree]. rewrite E.
  destruct (decide (l' = l)) as [->|Hne].
  - rewrite (under_self _ _ _ Hu) in Ht'. simplify_eq. exists (seqZ (512 * c) 512 ≫= subtree T l), [].
    split; [done|]. apply list_elem_of_bind. exists c'. split.
    + apply elem_subtree; [lia|]. exists l, c'. split; [|done]. split; [done|]. by rewrite Nat.sub_diag, Z.div_1_r.
    + apply elem_of_seqZ. apply under_self in Hu. pose proof (Z.div_mod c' 512 ltac:(lia)). pose proof (Z.mod_pos_bound c' 512 ltac:(lia)). lia.
  - apply under_parent in Hu as (d & Hu & Hd); [|lia].
    destruct (before_bind t t' (subtree T l) (seqZ (512 * c) 512) d) as (a & b & Eab & Hx); [by apply elem_of_seqZ|apply (IH ltac:(lia) _ l' c'); done|].
    exists a, (b ++ [tc]). split; [|done]. by rewrite Eab, <- app_assoc.
Qed.
(** ** The iterator as a list *)

(** ptiter::next() moves to the next page of the list. *)
Lemma next_arrives it l va t rem : visiting it l va t rem -> exists it', ptiter_next it s = Ok (it', s) /\ arrives it' rem.
Proof.
  intros (Hst & Ht & ->). pose proof Hst as (Hl & _).
  destruct (depart it l va true (3072 + 3080 * (l - 1) + 6)) as (n & it' & Hn & Hr & Ha); [done|by left| |].
  - intros _ it' Hst'. set (va' := (slot va l + 1) * 2 ^ width l) in *.
    assert (Es : slot va' l = slot va l + 1) by (unfold slot at 1, va'; rewrite Z.div_mul; lia).
    destruct (walk l 512 it' va' Hst') as (n & it'' & Hn & Hr & Ha); [by rewrite Es| |rewrite Es in Ha; by exists n, it''].
    pose proof (Z.mod_pos_bound (slot va' l) 512 ltac:(lia)). lia.
  - exists it'. split; [|done]. unfold ptiter_next, ptiter_down. eapply loopM_runs; [exact Hr|lia].
Qed.

Lemma new_arrives : exists it, new_ptiter root s = Ok (it, s) /\ arrives it (scan T 2 0 512).
Proof.
  destruct (walk 3 512 (mkPtiter root (root + 8 * pageindex 0 3) 3 0) 0) as (n & it & Hn & Hr & Ha).
  - split_and!; [lia..|]. exists root. split; [apply (sp_root _ _ _ _ H)|]. f_equal.
  - done.
  - vm_compute. congruence.
  - exists it. split; [unfold new_ptiter, ptiter_go, ptiter_down; eapply loopM_runs; [exact Hr|lia]|].
    change (slot 0 3) with 0 in Ha. unfold rest in Ha. change (3 - 3)%nat with 0%nat in Ha. cbn [after] in Ha. by rewrite app_nil_r in Ha.
Qed.

Lemma visiting_pa it l va t rem : visiting it l va t rem -> ptiter_done it = false /\ ptiter_pa it s = Ok (t, s).
Proof.
  intros (Hst & Ht & _). destruct (standing_read it l va Hst) as (e & Er & Hm). rewrite Ht in Hm. destruct Hm as [_ Hm]. split.
  - destruct Hst as (_ & Hva & t' & _ & ->). unfold ptiter_done, VA_NONCANONMAX. cbn [pt_va]. apply Z.ltb_ge. lia.
  - unfold ptiter_pa. by rewrite (bind_ok _ _ _ _ _ Er), Hm.
Qed.

(** The tables below the first [n] entries of the root. *)
Lemma elem_scan n x : 0 <= n ->
  x ∈ scan T 2 0 n <-> exists l c, (l <= 2)%nat /\ 0 <= c < n * 512 ^ Z.of_nat (2 - l) /\ T !! (l, c) = Some x.
Proof.
  intros Hn. unfold scan. rewrite list_elem_of_bind. split.
  - intros (d & Hx & Hd). apply elem_of_seqZ in Hd. apply elem_subtree in Hx as (l & c & [Hl <-] & Ht); [|lia].
    exists l, c. split; [done|]. split; [|done]. set (P := 512 ^ Z.of_nat (2 - l)) in *.
    assert (0 < P) by (apply Z.pow_pos_nonneg; lia). pose proof (Z.div_mod c P ltac:(lia)). pose proof (Z.mod_pos_bound c P ltac:(lia)). nia.
  - intros (l & c & Hl & Hc & Ht). exists (c / 512 ^ Z.of_nat (2 - l)). split; [apply elem_subtree; [lia|by exists l, c]|].
    apply elem_of_seqZ. split; [apply Z.div_pos; lia|]. apply Z.div_lt_upper_bound; lia.
Qed.

Lemma visits_sound x : x ∈ scan T 2 0 512 <-> exists l c, (l <= 2)%nat /\ 0 <= c < 512 ^ Z.of_nat (3 - l) /\ T !! (l, c) = Some x.
Proof.
  rewrite elem_scan by lia. split; intros (l & c & Hl & Hc & Ht); exists l, c; (split; [done|]); (split; [|done]);
    replace (Z.of_nat (3 - l)) with (Z.of_nat (2 - l) + 1) in * by lia; rewrite Z.pow_add_r in * by lia; lia.
Qed.

(** The loop of a process, which stops in the upper half of the address space. *)
Lemma visiting_low it l va t rem : visiting it l va t rem ->
  (ptiter_va it <? VA_LOWEND) = bool_decide (t ∈ scan T 2 0 256).
Proof.
  intros ((Hl & Hva & t' & _ & ->) & Ht & _). unfold ptiter_va. cbn [pt_va pt_level]. rewrite pageoffmask_ones, <- Z.ldiff_land, Z.ldiff_ones_r by lia.
  rewrite Z.shiftr_div_pow2, Z.shiftl_mul_pow2 by lia. fold (slot va l). unfold VA_LOWEND.
  assert (Hpow : 0x800000000000 = 256 * 512 ^ Z.of_nat (3 - l) * 2 ^ width l).
  { change 512 with (2 ^ 9). rewrite <- Z.pow_mul_r by lia. change 256 with (2 ^ 8). rewrite <- !Z.pow_add_r by lia.
    change 0x800000000000 with (2 ^ 47). f_equal. lia. }
  pose proof (Z.pow_pos_nonneg 2 (width l) ltac:(lia) ltac:(lia)) as Hw. rewrite Hpow. apply eq_true_iff_eq.
  rewrite Z.ltb_lt, bool_decide_eq_true, elem_scan by lia. split.
  - intros Hlt. exists (l - 1)%nat, (slot va l). split; [lia|]. split; [|done]. replace (2 - (l - 1))%nat with (3 - l)%nat by lia.
    split; [unfold slot; apply Z.div_pos; lia|nia].
  - intros (l' & c & Hl' & Hc & Ht'). pose proof (sp_inj _ _ _ _ H _ _ _ Ht Ht') as E. simplify_eq.
    replace (2 - (l - 1))%nat with (3 - l)%nat in Hc by lia. nia.
Qed.

Lemma NoDup_visits : NoDup (scan T 2 0 512).
Proof.
  apply NoDup_bind; [intros c1 c2 y _ _; apply subtree_disjoint; lia|intros; apply NoDup_subtree; lia|apply NoDup_seqZ].
Qed.

Lemma visits_before l c t t' :
  (l <= 1)%nat -> 0 <= c < 512 ^ Z.of_nat (3 - l) -> T !! (l, c) = Some t -> T !! (S l, c / 512) = Some t' ->
  before t t' (scan T 2 0 512).
Proof.
  intros Hl Hc Ht Ht'. set (d := c / 512 / 512 ^ Z.of_nat (2 - S l)). apply before_bind with (d := d).
  - apply elem_of_seqZ. subst d. rewrite Z.div_div by lia. replace (Z.of_nat (3 - l)) with (1 + Z.of_nat (2 - S l) + 1) in Hc by lia.
    rewrite !Z.pow_add_r in Hc by lia. change (512 ^ 1) with 512 in Hc. split; [apply Z.div_pos; lia|]. apply Z.div_lt_upper_bound; lia.
  - apply (subtree_before 2 ltac:(lia) d l c); [by split; [lia|]|done..].
Qed.

(** There are at most 512 pages to visit: one per page of physical memory. *)
Lemma visits_length : (length (scan T 2 0 512) <= 512)%nat.
Proof.
  change 512%nat with (length ((fun i => 4096 * i) <$> seqZ 0 512)). apply submseteq_length, NoDup_submseteq; [apply NoDup_visits|].
  intros x (l & c & _ & _ & Ht)%visits_sound. destruct (sp_page _ _ _ _ H _ _ _ Ht) as (A1 & A2 & A3 & _). unfold MEMSIZE_PHYSICAL in A3.
  apply list_elem_of_fmap. pose proof (Z.div_mod x 4096 ltac:(lia)). exists (x / 4096). split; [lia|]. apply elem_of_seqZ. lia.
Qed.

Lemma foreach_run : ptiter_foreach root s = Ok (scan T 2 0 512, s).
Proof.
  unfold ptiter_foreach. destruct new_arrives as (it & E & Ha). rewrite (bind_ok _ _ _ _ _ E). pose proof visits_length as Hlen.
  eapply loopM_runs with (n := (length (scan T 2 0 512) + 1)%nat); [|lia]. rewrite <- (app_nil_l (scan T 2 0 512)) at 2.
  clear Hlen E. revert it Ha. generalize (@nil Z) as acc. induction (scan T 2 0 512) as [|t rem IH]; intros acc it Ha.
  - constructor. unfold foreach_step. cbn in Ha. by rewrite (finished_done _ Ha), app_nil_r.
  - destruct Ha as (l & va & Hv). destruct (visiting_pa _ _ _ _ _ Hv) as [Ed Ep]. destruct (next_arrives _ _ _ _ _ Hv) as (it' & En & Ha).
    specialize (IH (acc ++ [t]) it' Ha). rewrite <- app_assoc in IH. eapply runs_step; [|exact IH].
    unfold foreach_step. by rewrite Ed, (bind_ok _ _ _ _ _ Ep), (bind_ok _ _ _ _ _ En).
Qed.
End walk.
(** ** Moving through the lower half *)

Section move.
Context (s : vm) (T : tables) (root : Z) (H : space s T root).

(** A vmiter of [root] at [va], at most at the end of the lower half. *)
Definition positioned (it : vmiter) (va : Z) : Prop :=
  va_ it = va /\ 0 <= va <= VA_LOWEND /\
  (va < VA_LOWEND -> exists l t, (l <= 3)%nat /\ bottom T va l t /\ it = at_entry root va t l).

Lemma positioned_new va : 0 <= va < VA_LOWEND -> exists it, new_vmiter root va s = Ok (it, s) /\ positioned it va.
Proof.
  intros Hva. destruct (new_vmiter_spec kernel_end s T root va H (low_canonical va Hva)) as (l & t & Hl & Hb & E).
  eexists. split; [exact E|]. split_and!; [done|lia|lia|]. intros _. by exists l, t.
Qed.

(** The first address of the upper half is in another table. *)
Lemma find_end va l t : 0 <= va < VA_LOWEND -> (l <= 3)%nat -> exists it, real_find (at_entry root va t l) VA_LOWEND s = Ok (it, s) /\ va_ it = VA_LOWEND.
Proof.
  intros Hva Hl. unfold real_find, at_entry. cbn [level_ va_ pt_ pep_ perm_].
  assert (Eb : Nat.eqb l 3 || negb (Z.land (Z.lxor va VA_LOWEND) (Z.lnot (pageoffmask (l + 1))) =? 0) = true).
  { destruct (Nat.eqb_spec l 3) as [|Hne]; [done|]. cbn [orb]. apply negb_true_iff, Z.eqb_neq. intros E.
    apply (f_equal (fun z => Z.testbit z 47)) in E. rewrite Z.land_spec, Z.lxor_spec, Z.lnot_spec, Z.bits_0 in E by lia.
    rewrite pageoffmask_ones, Z.ones_spec_high in E by lia. change (Z.testbit VA_LOWEND 47) with true in E.
    assert (Ev : Z.testbit va 47 = false).
    { destruct (decide (va = 0)) as [->|]; [apply Z.bits_0|]. apply Z.bits_above_log2; [lia|]. apply Z.log2_lt_pow2; unfold VA_LOWEND in *; lia. }
    by rewrite Ev in E. }
  rewrite Eb. eexists. split; reflexivity.
Qed.

Lemma find_low va l t va' : 0 <= va < VA_LOWEND -> (l <= 3)%nat -> bottom T va l t -> 0 <= va' <= VA_LOWEND ->
  exists it, real_find (at_entry root va t l) va' s = Ok (it, s) /\ positioned it va'.
Proof.
  intros Hva Hl Hb Hva'. destruct (decide (va' = VA_LOWEND)) as [->|Hne].
  - destruct (find_end va l t Hva Hl) as (it & E & Ei). exists it. split; [done|]. split_and!; [done|lia|lia|lia].
  - destruct (real_find_spec kernel_end s T root va l t va' H (proj1 Hb) (low_canonical va' ltac:(unfold VA_LOWEND in *; lia))) as (l' & t' & Hl' & Hb' & E).
    eexists. split; [exact E|]. split_and!; [done|lia|lia|]. intros _. by exists l', t'.
Qed.

(** Whether user code may access the address, and where it leads. *)
Lemma user_at va l t : (l <= 3)%nat -> bottom T va l t ->
  user (at_entry root va t l) s = Ok (Z.land (leaf s T va) 5 =? 5, s) /\ (Z.land (leaf s T va) 5 = 5 -> l = 0%nat).
Proof.
  intros Hl Hb. destruct (perm_at kernel_end s T root va l t H Hl Hb) as [E Hl0]. unfold user, vmiter_has. rewrite (bind_ok _ _ _ _ _ E).
  change (Z.lor PTE_P PTE_U) with 5. set (e := leaf s T va) in *. unfold permission in *.
  destruct (Z.eqb_spec (Z.land e PTE_P) 0) as [E0|E0].
  - assert (Hne : Z.land e 5 <> 5).
    { intros E5. apply (f_equal (fun z => Z.land z PTE_P)) in E5. rewrite <- Z.land_assoc in E5. change (Z.land 5 PTE_P) with PTE_P in E5. by rewrite E0 in E5. }
    rewrite (proj2 (Z.eqb_neq _ _) Hne). done.
  - rewrite <- land_small by lia. split; [done|]. intros E5. apply Hl0. intros Em.
    rewrite land_small, Em in E5 by lia. done.
Qed.

Lemma present_at va l t : (l <= 3)%nat -> bottom T va l t -> present (at_entry root va t l) s = Ok (negb (Z.land (leaf s T va) PTE_P =? 0), s).
Proof.
  intros Hl Hb. destruct (perm_at kernel_end s T root va l t H Hl Hb) as [E _]. unfold present, vmiter_has. rewrite (bind_ok _ _ _ _ _ E).
  set (e := leaf s T va). unfold permission. destruct (Z.eqb_spec (Z.land e PTE_P) 0) as [|Hne]; [done|]. rewrite <- land_small by done.
  assert (Z.land e PTE_P = 1) as ->; [|done]. unfold PTE_P in *. rewrite land_1_mod in *. pose proof (Z.mod_pos_bound e 2 ltac:(lia)). lia.
Qed.

(** Addresses of the entry of [va] have the same walk. *)
Lemma bottom_slot va va' l t : (1 <= l <= 3)%nat -> 0 <= va < 2 ^ 48 -> 0 <= va' < 2 ^ 48 -> slot va' l = slot va l -> bottom T va l t -> bottom T va' l t.
Proof.
  intros Hl Hva Hva' Es [Hb1 Hb2]. destruct (slot_pre va l Hl Hva) as (E1 & _ & E2). destruct (slot_pre va' l Hl Hva') as (E3 & _ & E4). split.
  - by rewrite E3, Es, <- E1.
  - intros l' ->. specialize (Hb2 l' eq_refl). replace (S l' - 1)%nat with l' in * by lia. by rewrite E4, Es, <- E2.
Qed.

Lemma leaf_slot va va' : 0 <= va < 2 ^ 48 -> 0 <= va' < 2 ^ 48 -> slot va' 0 = slot va 0 -> leaf s T va' = leaf s T va.
Proof.
  intros Hva Hva' Es. unfold slot in Es. change (2 ^ _) with (2 ^ 12) in Es.
  assert (Ep : pre va' 0 = pre va 0 /\ pidx va' 0 = pidx va 0).
  { unfold pre, pidx. rewrite !Z.mod_small by lia. change (21 + 9 * Z.of_nat 0) with (12 + 9). change (12 + 9 * Z.of_nat 0) with 12.
    rewrite Z.pow_add_r, <- !Z.div_div, Es by lia. done. }
  unfold leaf. by destruct Ep as [-> ->].
Qed.

(** An entry that is no page of a user leads to none. *)
Lemma no_user va a l t : (l <= 3)%nat -> 0 <= va < VA_LOWEND -> 0 <= a < VA_LOWEND -> bottom T va l t -> Z.land (leaf s T va) 5 <> 5 ->
  slot a l = slot va l -> Z.land (leaf s T a) 5 <> 5.
Proof.
  intros Hl Hva Ha Hb Hu Es. unfold VA_LOWEND in *. destruct l as [|l]; [by rewrite (leaf_slot va a) by (lia || done)|].
  pose proof (bottom_slot va a (S l) t ltac:(lia) ltac:(lia) ltac:(lia) Es Hb) as Hb'. unfold leaf.
  by rewrite (bottom_none kernel_end s T root a l t H Hl Hb').
Qed.

(** Behind the entry of [va]. *)
Lemma entry_end va l : (l <= 3)%nat -> 0 <= va < VA_LOWEND ->
  let va' := u64 (Z.lor va (pageoffmask l) + 1) in
  va < va' <= VA_LOWEND /\ va' mod 4096 = 0 /\ forall a, va <= a < va' -> slot a l = slot va l.
Proof.
  intros Hl Hva. rewrite pageoffmask_ones, lor_ones by lia. unfold slot, VA_LOWEND in *. set (k := 12 + 9 * Z.of_nat l).
  assert (Hk : 12 <= k <= 39) by lia. pose proof (Z.pow_pos_nonneg 2 k ltac:(lia) ltac:(lia)) as Hp.
  pose proof (Z.div_mod va (2 ^ k) ltac:(lia)) as Hd. pose proof (Z.mod_pos_bound va (2 ^ k) ltac:(lia)).
  assert (Hq : va / 2 ^ k < 2 ^ (47 - k)).
  { apply Z.div_lt_upper_bound; [lia|]. rewrite <- Z.pow_add_r by lia. replace (k + (47 - k)) with 47 by lia. lia. }
  assert (Hend : (va / 2 ^ k + 1) * 2 ^ k <= 0x800000000000).
  { change 0x800000000000 with (2 ^ 47). replace 47 with ((47 - k) + k) by lia. rewrite Z.pow_add_r by lia. nia. }
  rewrite wrapU_small by nia. split_and!; [nia|lia| |].
  - replace k with (k - 12 + 12) by lia. rewrite Z.pow_add_r, Z.mul_assoc by lia. by apply Z.mod_mul.
  - intros a Ha. symmetry. apply Z.div_unique with (r := a - va / 2 ^ k * 2 ^ k); nia.
Qed.
End move.
End iter.
