(* ===== verification/KernelState.v ===== *)
(** * State of the mini operating system's kernel

    Process table, registers, the kernel's globals and the images of programs:
    the data of kernel.c and kernel.hh, with the state of the memory viewer. *)
From stdpp Require Import prelude gmap list.
From Stdlib Require Import ZArith Lia.
From S2P Require Import Prelude Memory Vm.
Open Scope Z_scope.
Open Scope c_scope.

Definition P_FREE : Z := 0.
Definition P_RUNNABLE : Z := 1.
Definition P_BLOCKED : Z := 2.
Definition P_BROKEN : Z := 3.
Definition NPROC : Z := 16.

Definition INT_IRQ : Z := 32.
Definition IRQ_TIMER : Z := 0.
Definition INT_PF : Z := 14.
Definition PFERR_USER : Z := 0x4.

Definition SYSCALL_GETPID : Z := 1.
Definition SYSCALL_YIELD : Z := 2.
Definition SYSCALL_PANIC : Z := 3.
Definition SYSCALL_PAGE_ALLOC : Z := 4.

Definition SEGSEL_APP_CODE : Z := 0x18.
Definition SEGSEL_APP_DATA : Z := 0x20.
Definition EFLAGS_IF : Z := 0x200.
Definition EFLAGS_IOPL_3 : Z := 0x3000.
Definition PROCINIT_ALLOW_PROGRAMMED_IO : Z := 0x01.
Definition PROCINIT_DISABLE_INTERRUPTS : Z := 0x02.

Record regstate := mkRegs {
  reg_rax : Z; reg_rcx : Z; reg_rdx : Z; reg_rbx : Z; reg_rbp : Z; reg_rsi : Z; reg_rdi : Z;
  reg_r8 : Z; reg_r9 : Z; reg_r10 : Z; reg_r11 : Z; reg_r12 : Z; reg_r13 : Z; reg_r14 : Z; reg_r15 : Z;
  reg_fs : Z; reg_gs : Z;
  reg_intno : Z; reg_swapgs : Z; reg_errcode : Z;
  reg_rip : Z; reg_cs : Z; reg_rflags : Z; reg_rsp : Z; reg_ss : Z
}.

Definition set_rax (v : Z) (r : regstate) : regstate :=
  mkRegs v (reg_rcx r) (reg_rdx r) (reg_rbx r) (reg_rbp r) (reg_rsi r) (reg_rdi r)
    (reg_r8 r) (reg_r9 r) (reg_r10 r) (reg_r11 r) (reg_r12 r) (reg_r13 r) (reg_r14 r) (reg_r15 r)
    (reg_fs r) (reg_gs r) (reg_intno r) (reg_swapgs r) (reg_errcode r)
    (reg_rip r) (reg_cs r) (reg_rflags r) (reg_rsp r) (reg_ss r).
Definition set_rip_rsp (rip rsp : Z) (r : regstate) : regstate :=
  mkRegs (reg_rax r) (reg_rcx r) (reg_rdx r) (reg_rbx r) (reg_rbp r) (reg_rsi r) (reg_rdi r)
    (reg_r8 r) (reg_r9 r) (reg_r10 r) (reg_r11 r) (reg_r12 r) (reg_r13 r) (reg_r14 r) (reg_r15 r)
    (reg_fs r) (reg_gs r) (reg_intno r) (reg_swapgs r) (reg_errcode r)
    rip (reg_cs r) (reg_rflags r) rsp (reg_ss r).

Record proc := mkProc { pagetable : Z; pid : Z; state : Z; regs : regstate }.

(** The pointer v_ of global_mu, and the static variables of memshow(). *)
Record viewer := mkViewer { v_ : Z; last_ticks : Z; showing : Z }.

(** ptable, the index of current in it, ticks, memory, and the memory viewer. *)
Record kernel := mkKernel { ptable : list proc; current : nat; ticks : Z; mem : vm; view : viewer }.

(** How the kernel leaves a handler: back to the caller of syscall() with a
    value, or by exception_return() to a process. *)
Inductive leave := Return (rax : Z) | Resume (pid : nat).

(** A loadable segment of a program: address, size in memory, data. *)
Record segment := mkSegment { seg_va : Z; seg_size : Z; seg_data : list Z }.
Record program_image := mkImage { pgm_segments : list segment; pgm_entry : Z }.

Definition in_vm {A} (m : M vm A) : M kernel A := fun s =>
  match m (mem s) with
  | Ok (a, v) => Ok (a, mkKernel (ptable s) (current s) (ticks s) v (view s))
  | Err f => Err f
  end.

Definition get_proc (i : nat) : M kernel proc := fun s =>
  match ptable s !! i with Some p => Ok (p, s) | None => Err UB end.

Definition set_proc (i : nat) (f : proc -> proc) : M kernel unit :=
  modify (fun s => mkKernel (alter f i (ptable s)) (current s) (ticks s) (mem s) (view s)).

Definition set_view (w : viewer) : M kernel unit :=
  modify (fun s => mkKernel (ptable s) (current s) (ticks s) (mem s) w).
