(* ===== verification/MemViewer.v ===== *)
(** * The memory viewer of the mini operating system (k-memviewer.cc)

    The class memusage, which records in a page of its own who uses each page of
    physical memory, and the pictures of physical and virtual memory that
    memshow() draws on the console.  The string literals lie in the kernel's
    memory where the linker puts them; log output leaves the machine and is
    left out. *)
From stdpp Require Import prelude gmap list.
From Stdlib Require Import ZArith Lia Ascii String.
From S2P Require Import Prelude Memory Vm Lib Printer VmIter KernelState.
Open Scope Z_scope.
Open Scope c_scope.

(** ** String literals *)

Definition codes (s : string) : list Z := (fun c => Z.of_N (N_of_ascii c)) <$> list_ascii_of_string s.

Inductive literal :=
  | Physical_memory | Address_label | Virtual_for | Error_pid | Error_any
  | Reserved_mapped | Kernel_mapped | Allocated_mapped | All_exited
  | Page_fault | Write_access | Read_access | Protection | Missing.

Definition literal_text (l : literal) : list Z :=
  match l with
  | Physical_memory => codes "PHYSICAL MEMORY" ++ [10]
  | Address_label => codes "0x%06X "
  | Virtual_for => codes "VIRTUAL ADDRESS SPACE FOR %d" ++ [10]
  | Error_pid => codes "PAGE TABLE ERROR: %lx: %s (pid %d)" ++ [10]
  | Error_any => codes "PAGE TABLE ERROR: %lx: %s" ++ [10]
  | Reserved_mapped => codes "reserved page mapped for user"
  | Kernel_mapped => codes "kernel data page mapped for user"
  | Allocated_mapped => codes "kernel allocated page mapped for user"
  | All_exited => codes "VIRTUAL ADDRESS SPACE" ++ [10] ++ codes "                          [All processes have exited]"
      ++ replicate 12 10
  | Page_fault => codes "Process %d page fault on %p (%s %s, rip=%p)!" ++ [10]
  | Write_access => codes "write"
  | Read_access => codes "read"
  | Protection => codes "protection problem"
  | Missing => codes "missing page"
  end.

(** ** memusage *)

Definition maxpa : Z := 1024 * PAGESIZE.
Definition max_view_pa : Z := 512 * PAGESIZE.
Definition max_view_va : Z := 768 * PAGESIZE.

Definition f_kernel : Z := 1.
Definition f_user : Z := 2.
(** The shift is one of a 32-bit unsigned. *)
Definition f_process (pid : Z) : Z :=
  if 30 <=? pid then u32 (Z.shiftl 2 31) else if 1 <=? pid then u32 (Z.shiftl 2 pid) else 0.

Definition mark (v pa flags : Z) : M vm unit :=
  if pa <? maxpa then
    let a := v + 4 * (pa / PAGESIZE) in
    x <- ld32 a;; st32 a (Z.lor x flags)
  else ret tt.

Definition marked_pid (v : Z) : Z := lsb 32 (Z.shiftr v 2).

Section viewer.
Context (kernel_end kernel_pagetable : Z) (lit : literal -> Z).

(** for (ptiter it(pt); more(it); it.next()) mark(it.pa(), flags) *)
Definition mark_tables_step (v flags : Z) (more : ptiter -> bool) (it : ptiter) : M vm (ptiter + unit) :=
  if more it then
    pa <- ptiter_pa it;;
    mark v pa flags;;;
    it <- ptiter_next it;;
    ret (inl it)
  else ret (inr tt).

Definition mark_tables (v flags pt : Z) (more : ptiter -> bool) : M vm unit :=
  it <- new_ptiter pt;; loopM (mark_tables_step v flags more) it.

(** The pages a process can access. *)
Definition mark_user_step (v flags : Z) (it : vmiter) : M vm (vmiter + unit) :=
  if va_ it <? VA_LOWEND then
    u <- user it;;
    if u then
      pa <- vmiter_pa it;;
      mark v pa flags;;;
      it <- vmiter_next it;; ret (inl it)
    else it <- next_range it;; ret (inl it)
  else ret (inr tt).

Definition mark_user (v flags pt : Z) : M vm unit :=
  it <- new_vmiter pt 0;; loopM (mark_user_step v flags) it.

(** The loop over the process table, from process [i] on. *)
Fixpoint mark_processes (v : Z) (n i : nat) (any : bool) : M kernel bool :=
  match n with
  | O => ret any
  | S n =>
      p <- get_proc i;;
      if negb (state p =? P_FREE) && negb (pagetable p =? 0) && negb (pagetable p =? kernel_pagetable) then
        let process := f_process (Z.of_nat i) in
        in_vm (mark_tables v (Z.lor f_kernel process) (pagetable p) (fun it => ptiter_va it <? VA_LOWEND));;;
        in_vm (mark v (pagetable p) (Z.lor f_kernel process));;;
        in_vm (mark_user v (Z.lor f_user process) (pagetable p));;;
        mark_processes v n (S i) true
      else mark_processes v n (S i) any
  end.

(** Without processes of their own page table: physical addresses. *)
Definition mark_physical_step (v : Z) (it : vmiter) : M vm (vmiter + unit) :=
  if va_ it <? VA_LOWEND then
    u <- user it;;
    pa <- vmiter_pa it;;
    s <- get;;
    if u && (pa <? MEMSIZE_PHYSICAL) && used s pa then
      let owner := u32 (u64 (pa - PROC_START_ADDR) / 0x40000) in
      mark v pa (Z.lor f_user (f_process (s32 (owner + 1))));;;
      it <- vmiter_next it;; ret (inl it)
    else it <- next_range it;; ret (inl it)
  else ret (inr tt).

(** refresh() once the page [v] is there. *)
Definition refresh_marks (v : Z) : M kernel unit :=
  in_vm (Vm.memset v 0 (maxpa / PAGESIZE * 4));;;
  in_vm (mark_tables v f_kernel kernel_pagetable (fun it => negb (ptiter_done it)));;;
  in_vm (mark v kernel_pagetable f_kernel);;;
  any <- mark_processes v (Z.to_nat (NPROC - 1)) 1 false;;
  (if negb any then in_vm (it <- new_vmiter kernel_pagetable 0;; loopM (mark_physical_step v) it) else ret tt);;;
  (if any then in_vm (mark v v f_kernel) else ret tt).

Definition refresh : M kernel unit :=
  w <- gets view;;
  (if v_ w =? 0 then
     p <- in_vm (kalloc kernel_end PAGESIZE);;
     set_view (mkViewer p (last_ticks w) (showing w));;;
     c_assert (negb (p =? 0))
   else ret tt);;;
  w <- gets view;;
  refresh_marks (v_ w).

Definition COLOR_ERROR : Z := 0xC000.

(** Also behind error_printf(). *)
Definition page_error (pa : Z) (desc : literal) (pid : Z) : M vm unit :=
  console_printf_at (CPOS 22 0) COLOR_ERROR (lit (if 0 <=? pid then Error_pid else Error_any)) [u64 pa; lit desc; u64 pid];;;
  ret tt.

Definition colors : list Z := [0xF; 0xC; 0xA; 0x9; 0xE].
Definition names : list Z := codes "K123456789ABCDEFGHIJKLMNOPQRST??".

(** An element of a static array. *)
Definition element (l : list Z) (i : Z) : M vm Z :=
  match l !! Z.to_nat i with
  | Some x => if 0 <=? i then ret x else fail UB
  | None => fail UB
  end.

Definition symbol_at (v pa : Z) : M vm Z :=
  let is_reserved := reserved_physical_address pa in
  let is_kernel := negb is_reserved && negb (allocatable_physical_address kernel_end pa) in
  if maxpa <=? pa then
    ret (if is_kernel then Z.lor 75 0x4000 else if is_reserved then Z.lor 63 0x4000 else Z.lor 63 0xF000)
  else
    x <- ld32 (v + 4 * (pa / PAGESIZE));;
    if (console <=? pa) && (pa <? console + PAGESIZE) then ret (Z.lor 67 0x0700)
    else if is_reserved && (Z.lor f_kernel f_user <? x) then
      page_error pa Reserved_mapped (marked_pid x);;; ret (Z.lor 82 0x0C00)
    else if is_reserved then ret (Z.lor 82 0x0700)
    else if is_kernel && (Z.lor f_kernel f_user <? x) then
      page_error pa Kernel_mapped (marked_pid x);;; ret (Z.lor 75 0xCD00)
    else if is_kernel then ret (Z.lor 75 0x0D00)
    else if MEMSIZE_PHYSICAL <=? pa then ret (Z.lor 32 0x0700)
    else if x =? 0 then ret (Z.lor 46 0x0700)
    else if x =? f_kernel then ret (Z.lor 75 0x0D00)
    else if x =? f_user then ret (Z.lor 46 0x0700)
    else if negb (Z.land x f_kernel =? 0) && negb (Z.land x f_user =? 0) then
      page_error pa Allocated_mapped (marked_pid x);;; ret (Z.lor 42 0xF400)
    else
      let pid := marked_pid x in
      c <- element colors (Z.rem pid 5);;
      let ch := u16 (Z.shiftl c 8) in
      let ch := if negb (Z.land x f_kernel =? 0) then Z.lor ch 0x4000 else ch in
      if Z.lor (Z.lor (f_process pid) f_kernel) f_user <? x then ret (Z.lor 0x0F00 83)
      else name <- element names pid;; ret (Z.lor ch name).

(** ** The pictures *)

(** The foreground and the background colors of a cell exchanged. *)
Definition swap_colors (ch : Z) : Z :=
  let z := Z.lxor (Z.land ch 0x0F00) (Z.shiftr (Z.land ch 0xF000) 4) in
  u16 (Z.lxor ch (Z.lor z (Z.shiftl z 4))).

Definition virtual_step (v : Z) (it : vmiter) : M vm (vmiter + unit) :=
  if va_ it <? max_view_va then
    let pn := va_ it / PAGESIZE in
    (if pn mod 64 =? 0 then
       console_printf_at (CPOS (11 + pn / 64) 3) 0x0F00 (lit Address_label) [va_ it];;; ret tt
     else ret tt);;;
    ch <- (b <- present it;;
           if negb b then ret 32
           else
             pa <- vmiter_pa it;;
             ch <- symbol_at v pa;;
             u <- user it;;
             ret (if u then swap_colors ch else ch));;
    set_cell (CPOS (11 + pn / 64) (12 + pn mod 64)) ch;;;
    it <- vmiter_add it PAGESIZE;;
    ret (inl it)
  else ret (inr tt).

Definition console_memviewer_virtual (v : Z) (vmp : proc) : M vm unit :=
  c_assert (negb (pagetable vmp =? 0));;;
  console_printf_at (CPOS 10 26) 0x0F00 (lit Virtual_for) [u64 (pid vmp)];;;
  it <- new_vmiter (pagetable vmp) 0;;
  loopM (virtual_step v) it.

(** The physical pages from [pn] on, [n] of them. *)
Fixpoint physical_loop (v : Z) (n : nat) (pn : Z) : M vm unit :=
  match n with
  | O => ret tt
  | S n =>
      (if pn mod 64 =? 0 then
         console_printf_at (CPOS (1 + pn / 64) 3) 0x0F00 (lit Address_label) [Z.shiftl pn 12];;; ret tt
       else ret tt);;;
      ch <- symbol_at v (pn * PAGESIZE);;
      set_cell (CPOS (1 + pn / 64) (12 + pn mod 64)) ch;;;
      physical_loop v n (pn + 1)
  end.

Definition console_memviewer (vmp : option proc) : M kernel unit :=
  p0 <- get_proc 0;;
  c_assert (state p0 =? P_FREE);;;
  refresh;;;
  w <- gets view;;
  in_vm (console_printf_at (CPOS 0 32) 0x0F00 (lit Physical_memory) []);;;
  in_vm (physical_loop (v_ w) (Z.to_nat (max_view_pa / PAGESIZE)) 0);;;
  match vmp with
  | Some p => in_vm (console_memviewer_virtual (v_ w) p)
  | None => ret tt
  end.

(** ** memshow() *)

Definition HZ : Z := 100.

(** The search for a process to show, [n] more times. *)
Fixpoint find_shown (n : nat) : M kernel (option proc) :=
  match n with
  | O => ret None
  | S n =>
      w <- gets view;;
      p <- get_proc (Z.to_nat (showing w));;
      if negb (state p =? P_FREE) && negb (pagetable p =? 0) then ret (Some p)
      else
        set_view (mkViewer (v_ w) (last_ticks w) ((showing w + 1) mod NPROC));;;
        find_shown n
  end.

Definition memshow : M kernel unit :=
  now <- gets ticks;;
  w <- gets view;;
  (if (last_ticks w =? 0) || (HZ / 2 <=? u64 (now - last_ticks w)) then
     set_view (mkViewer (v_ w) (u32 now) ((showing w + 1) mod NPROC))
   else ret tt);;;
  p <- find_shown (Z.to_nat NPROC);;
  console_memviewer p;;;
  match p with
  | Some _ => ret tt
  | None => in_vm (console_printf_at (CPOS 10 29) 0x0F00 (lit All_exited) [];;; ret tt)
  end.
End viewer.
