(* ===== verification/Kernel.v ===== *)
(** * The kernel of the mini operating system (kernel.c)

    System calls, exceptions, the scheduler and the loading of programs, with
    the memory viewer that every entry into the kernel draws.  poweroff() and
    the restart that a key press asks for are [Exit], panic() is [AssertFail];
    the log leaves the machine.  The linker's addresses, TICK_LIMIT of the
    build, the images of the programs, the keys typed and the register cr2 are
    arguments. *)
From stdpp Require Import prelude gmap list.
From Stdlib Require Import ZArith Lia.
From S2P Require Import Prelude Memory Lib Printer Vm VmIter KernelState MemViewer.
Open Scope Z_scope.
Open Scope c_scope.

(** check_keyboard(), where keyboard_readc() returns [c]: the keys a, f and e
    restart the kernel, Control-C and q turn the machine off. *)
Definition check_keyboard {S} (c : Z) : M S unit :=
  if (c =? 97) || (c =? 102) || (c =? 101) then fail (Exit 1)
  else if (c =? 3) || (c =? 113) then fail (Exit 0)
  else ret tt.

Section kernel.
Context (kernel_end kernel_pagetable exception_entry TICK_LIMIT : Z) (lit : literal -> Z).

(** ** Running processes *)

Definition check_pagetable (pt : Z) : M vm unit :=
  c_assert (pt mod PAGESIZE =? 0);;;
  a <- memory_virtual_to_physical pt exception_entry;; c_assert (a =? exception_entry);;;
  b <- memory_virtual_to_physical kernel_pagetable pt;; c_assert (b =? pt);;;
  c <- memory_virtual_to_physical pt kernel_pagetable;; c_assert (c =? kernel_pagetable).

Definition run (i : nat) : M kernel leave :=
  p <- get_proc i;;
  c_assert (state p =? P_RUNNABLE);;;
  modify (fun s => mkKernel (ptable s) i (ticks s) (mem s) (view s));;;
  in_vm (check_pagetable (pagetable p));;;
  ret (Resume i).

(** The loop of schedule(), at most [fuel] spins; [keys] are typed during them. *)
Fixpoint schedule_loop (fuel : nat) (pid spins : Z) (keys : nat -> Z) : M kernel leave :=
  match fuel with
  | O => fail OutOfFuel
  | S fuel =>
      let pid := (pid + 1) mod NPROC in
      p <- get_proc (Z.to_nat pid);;
      if state p =? P_RUNNABLE then run (Z.to_nat pid)
      else
        check_keyboard (keys O);;;
        (if spins mod Z.shiftl 1 12 =? 0 then memshow kernel_end kernel_pagetable lit else ret tt);;;
        schedule_loop fuel pid (u32 (spins + 1)) (fun n => keys (S n))
  end.

Definition schedule (fuel : nat) (keys : nat -> Z) : M kernel leave :=
  c <- gets current;;
  p <- get_proc c;;
  schedule_loop fuel (pid p) 1 keys.

(** ** System calls *)

Definition syscall_page_alloc (addr : Z) : M kernel Z :=
  p <- in_vm (kalloc kernel_end PAGESIZE);;
  if p =? 0 then ret (-1)
  else
    c <- gets current;;
    cur <- get_proc c;;
    in_vm (memory_map kernel_end (pagetable cur) addr p PTE_PWU);;;
    pa <- in_vm (memory_virtual_to_physical (pagetable cur) addr);;
    in_vm (memset pa 0 PAGESIZE);;;
    ret 0.

(** current->regs = *regs *)
Definition save_regs (r : regstate) : M kernel unit :=
  c <- gets current;;
  set_proc c (fun p => mkProc (pagetable p) (pid p) (state p) r).

(** The switch of syscall(). *)
Definition syscall_switch (r : regstate) (keys : nat -> Z) : M kernel leave :=
  c <- gets current;;
  cur <- get_proc c;;
  if reg_rax r =? SYSCALL_PANIC then fail AssertFail
  else if reg_rax r =? SYSCALL_GETPID then ret (Return (pid cur))
  else if reg_rax r =? SYSCALL_YIELD then
    set_proc c (fun p => mkProc (pagetable p) (pid p) (state p) (set_rax 0 (regs p)));;;
    schedule (Z.to_nat NPROC) keys
  else if reg_rax r =? SYSCALL_PAGE_ALLOC then
    v <- syscall_page_alloc (reg_rdi r);; ret (Return (u64 v))
  else fail AssertFail.

Definition syscall (r : regstate) (keys : nat -> Z) : M kernel leave :=
  save_regs r;;;
  memshow kernel_end kernel_pagetable lit;;;
  check_keyboard (keys O);;;
  syscall_switch r (fun n => keys (S n)).

(** ** Exceptions *)

Definition PFERR_PRESENT : Z := 0x1.
Definition PFERR_WRITE : Z := 0x2.

(** The switch of exception(), and the return to a process. *)
Definition exception_switch (r : regstate) (cr2 : Z) (keys : nat -> Z) : M kernel leave :=
  c <- gets current;;
  if reg_intno r =? INT_IRQ + IRQ_TIMER then
    modify (fun s => mkKernel (ptable s) (current s) (u64 (ticks s + 1)) (mem s) (view s));;;
    schedule (Z.to_nat NPROC) keys
  else if reg_intno r =? INT_PF then
    let operation := lit (if negb (Z.land (reg_errcode r) PFERR_WRITE =? 0) then Write_access else Read_access) in
    let problem := lit (if negb (Z.land (reg_errcode r) PFERR_PRESENT =? 0) then Protection else Missing) in
    if Z.land (reg_errcode r) PFERR_USER =? 0 then fail AssertFail
    else
      cur <- get_proc c;;
      in_vm (console_printf_at (CPOS 24 0) 0x0C00 (lit Page_fault) [u64 (pid cur); cr2; operation; problem; reg_rip r]);;;
      set_proc c (fun p => mkProc (pagetable p) (pid p) P_BROKEN (regs p));;;
      cur <- get_proc c;;
      if state cur =? P_RUNNABLE then run c else schedule (Z.to_nat NPROC) keys
  else fail AssertFail.

(** A page fault of the kernel shows nothing and never ends the simulation. *)
Definition exception (r : regstate) (cr2 : Z) (keys : nat -> Z) : M kernel leave :=
  save_regs r;;;
  (if negb (reg_intno r =? INT_PF) || negb (Z.land (reg_errcode r) PFERR_USER =? 0) then
     memshow kernel_end kernel_pagetable lit;;;
     now <- gets ticks;;
     if negb (TICK_LIMIT =? 0) && (TICK_LIMIT <=? now) then fail (Exit 0) else ret tt
   else ret tt);;;
  check_keyboard (keys O);;;
  exception_switch r cr2 (fun n => keys (S n)).

(** ** Starting processes *)

Definition zero_regs : regstate := mkRegs 0 0 0 0 0 0 0 0 0 0 0 0 0 0 0 0 0 0 0 0 0 0 0 0 0.

(** init_process(): the special registers, by its flags. *)
Definition init_regs (flags : Z) : regstate :=
  let data := Z.lor SEGSEL_APP_DATA 3 in
  let rflags := EFLAGS_IF in
  let rflags := if negb (Z.land flags PROCINIT_ALLOW_PROGRAMMED_IO =? 0) then Z.lor rflags EFLAGS_IOPL_3 else rflags in
  let rflags := if negb (Z.land flags PROCINIT_DISABLE_INTERRUPTS =? 0) then Z.land rflags (Z.lnot EFLAGS_IF) else rflags in
  mkRegs 0 0 0 0 0 0 0 0 0 0 0 0 0 0 0 data data 0 0 0 0 (Z.lor SEGSEL_APP_CODE 3) rflags 0 data.

Definition init_process (i : nat) (flags : Z) : M kernel unit :=
  set_proc i (fun p => mkProc (pagetable p) (pid p) (state p) (init_regs flags)).

(** The pages of one segment, from address [a]; at most [fuel] of them. *)
Fixpoint map_segment (fuel : nat) (pt a last : Z) : M vm unit :=
  if a <? last then
    match fuel with
    | O => fail OutOfFuel
    | S fuel =>
        p <- kalloc kernel_end PAGESIZE;;
        memory_map kernel_end pt a p PTE_PWU;;;
        map_segment fuel pt (a + PAGESIZE) last
    end
  else ret tt.

Fixpoint map_segments (pt : Z) (segs : list segment) : M vm unit :=
  match segs with
  | [] => ret tt
  | seg :: segs =>
      map_segment (Z.to_nat (seg_size seg / PAGESIZE) + 2) pt (round_down (seg_va seg) PAGESIZE) (seg_va seg + seg_size seg);;;
      map_segments pt segs
  end.

Fixpoint load_segments (pt : Z) (segs : list segment) : M vm unit :=
  match segs with
  | [] => ret tt
  | seg :: segs =>
      a <- memory_virtual_to_physical pt (seg_va seg);;
      memset a 0 (seg_size seg);;;
      b <- memory_virtual_to_physical pt (seg_va seg);;
      copy_in b (seg_data seg);;;
      load_segments pt segs
  end.

Definition process_setup (i : nat) (pgm : program_image) : M kernel unit :=
  init_process i 0;;;
  pt <- in_vm (kalloc_pagetable kernel_end);;
  set_proc i (fun p => mkProc pt (pid p) (state p) (regs p));;;
  in_vm (memory_foreach pt PROC_START_ADDR (map_to_kernel_space kernel_end));;;
  in_vm (map_to_nobody kernel_end pt 0);;;
  in_vm (map_to_user_space kernel_end pt CONSOLE_ADDR);;;
  in_vm (map_segments pt (pgm_segments pgm));;;
  in_vm (load_segments pt (pgm_segments pgm));;;
  let stack_addr := MEMSIZE_VIRTUAL - PAGESIZE in
  p <- in_vm (kalloc kernel_end PAGESIZE);;
  in_vm (memory_map kernel_end pt stack_addr p PTE_PWU);;;
  set_proc i (fun p => mkProc (pagetable p) (pid p) P_RUNNABLE
                         (set_rip_rsp (pgm_entry pgm) (stack_addr + PAGESIZE) (regs p))).

(** The page table that init_kernel_memory() builds in the five pages of
    kernel_pagetable: all of physical memory but page zero, and the devices in
    [1GiB, 4GiB) by large pages. *)
Fixpoint map_physical (fuel : nat) (it : vmiter) : M vm unit :=
  if va_ it <? MEMSIZE_PHYSICAL then
    match fuel with
    | O => fail OutOfFuel
    | S fuel =>
        (if negb (va_ it =? 0) then
           r <- try_map kernel_end it (va_ it) (Z.lor (Z.lor PTE_P PTE_W) PTE_U);; c_assert (r =? 0)
         else ret tt);;;
        it <- real_find it (u64 (va_ it + PAGESIZE));;
        map_physical fuel it
    end
  else ret tt.

Definition init_kernel_pagetable : M vm unit :=
  let table i := kernel_pagetable + PAGESIZE * i in
  let pwu a := Z.lor (Z.lor (Z.lor a PTE_P) PTE_W) PTE_U in
  let large a := Z.lor (Z.lor (Z.lor a PTE_P) PTE_W) PTE_PS in
  memset kernel_pagetable 0 (5 * PAGESIZE);;;
  write64 (table 0) (pwu (table 1));;;
  write64 (table 1) (pwu (table 2));;;
  write64 (table 2) (pwu (table 3));;;
  write64 (table 2 + 8) (pwu (table 4));;;
  write64 (table 1 + 8) (large (Z.shiftl 1 30));;;
  write64 (table 1 + 16) (large (Z.shiftl 2 30));;;
  write64 (table 1 + 24) (large (Z.shiftl 3 30));;;
  it <- new_vmiter kernel_pagetable 0;;
  map_physical (Z.to_nat NPAGES) it.

(** kernel_start() after init_hardware(), which has set up kernel_pagetable and
    the memory [v]; [programs] are the images that start as processes 1, 2, ... *)
Fixpoint setup_all (i : nat) (programs : list program_image) : M kernel unit :=
  match programs with
  | [] => ret tt
  | pgm :: programs => process_setup i pgm;;; setup_all (S i) programs
  end.

Definition kernel_start (programs : list program_image) (v : vm) : res (leave * kernel) :=
  (in_vm console_clear;;;
   in_vm (memory_foreach kernel_pagetable PROC_START_ADDR (map_to_kernel_space kernel_end));;;
   in_vm (map_to_nobody kernel_end kernel_pagetable 0);;;
   in_vm (map_to_user_space kernel_end kernel_pagetable CONSOLE_ADDR);;;
   modify (fun s => mkKernel ((fun i => mkProc 0 (Z.of_nat i) P_FREE zero_regs) <$> seq 0 (Z.to_nat NPROC))
                             (current s) (ticks s) (mem s) (view s));;;
   setup_all 1 programs;;;
   run 1) (mkKernel [] 0 1 v (mkViewer 0 0 0)).

End kernel.
