(* ===== verification/KernelBoot.v ===== *)
(** * Booting: address spaces of programs

    process_setup() on a machine whose pages below the kernel are free: the
    pages of a segment are consecutive, the image is loaded at its addresses,
    and the address space is described entry by entry. *)
From stdpp Require Import prelude gmap list.
From Stdlib Require Import ZArith Lia.
From S2P Require Import Prelude Memory Vm VmProofs VmBoot KernelState Kernel.
Open Scope Z_scope.
Open Scope c_scope.

#[local] Opaque page_fill.

(** ** Segments *)

Definition first_page (seg : segment) : Z := seg_va seg / 4096.
Definition npages (seg : segment) : Z := (seg_va seg + seg_size seg - 1) / 4096 - first_page seg + 1.
Definition total (segs : list segment) : Z := foldr (fun seg n => npages seg + n) 0 segs.

(** A segment of a program, in the first two megabytes above the kernel. *)
Record seg_ok (seg : segment) : Prop := {
  so_va : PROC_START_ADDR <= seg_va seg;
  so_size : 0 < seg_size seg;
  so_end : seg_va seg + seg_size seg <= MEMSIZE_PHYSICAL;
  so_data : Z.of_nat (length (seg_data seg)) <= seg_size seg
}.

Lemma seg_pages seg : seg_ok seg -> 256 <= first_page seg /\ 1 <= npages seg /\ first_page seg + npages seg <= 512 /\
  4096 * (first_page seg + npages seg - 1) < seg_va seg + seg_size seg <= 4096 * (first_page seg + npages seg) /\
  npages seg <= seg_size seg / 4096 + 2.
Proof.
  intros [H1 H2 H3 _]. unfold npages, first_page, PROC_START_ADDR, MEMSIZE_PHYSICAL in *.
  set (v := seg_va seg) in *. set (z := seg_size seg) in *.
  pose proof (Z.div_mod v 4096 ltac:(lia)). pose proof (Z.mod_pos_bound v 4096 ltac:(lia)).
  pose proof (Z.div_mod (v + z - 1) 4096 ltac:(lia)). pose proof (Z.mod_pos_bound (v + z - 1) 4096 ltac:(lia)).
  pose proof (Z.div_mod z 4096 ltac:(lia)). pose proof (Z.mod_pos_bound z 4096 ltac:(lia)). lia.
Qed.

(** The physical page that page [x] is given, when the pages from [m] on are
    given out in order. *)
Fixpoint seg_page (segs : list segment) (m x : Z) : option Z :=
  match segs with
  | [] => None
  | seg :: segs =>
      match seg_page segs (m + npages seg) x with
      | Some q => Some q
      | None => if bool_decide (first_page seg <= x < first_page seg + npages seg) then Some (4096 * (m + (x - first_page seg))) else None
      end
  end.

Lemma total_nonneg segs : Forall seg_ok segs -> 0 <= total segs.
Proof. induction 1 as [|seg segs Hs _ IH]; cbn; [lia|]. pose proof (seg_pages seg Hs). unfold total in IH. lia. Qed.

Lemma seg_page_range segs : Forall seg_ok segs -> forall m x q, seg_page segs m x = Some q ->
  exists j, q = 4096 * j /\ m <= j < m + total segs /\ 256 <= x < 512.
Proof.
  induction 1 as [|seg segs Hs Hss IH]; intros m x q E; cbn [seg_page] in E; [done|]. pose proof (seg_pages seg Hs).
  pose proof (total_nonneg segs Hss). change (total (seg :: segs)) with (npages seg + total segs).
  destruct (seg_page segs (m + npages seg) x) as [q'|] eqn:Eq.
  - injection E as <-. destruct (IH _ _ _ Eq) as (j & -> & Hj & Hx). exists j. split; [done|]. lia.
  - case_bool_decide; [|done]. injection E as <-. eexists. split; [reflexivity|]. lia.
Qed.

Lemma seg_page_inj segs : Forall seg_ok segs -> forall m x x' q, seg_page segs m x = Some q -> seg_page segs m x' = Some q -> x = x'.
Proof.
  induction 1 as [|seg segs Hs Hss IH]; intros m x x' q E E'; cbn [seg_page] in *; [done|].
  pose proof (seg_page_range segs Hss (m + npages seg)) as Hr.
  destruct (seg_page segs (m + npages seg) x) as [q1|] eqn:E1, (seg_page segs (m + npages seg) x') as [q2|] eqn:E2; simplify_eq.
  - by apply (IH (m + npages seg) x x' q).
  - case_bool_decide; [|done]. injection E' as <-. destruct (Hr _ _ E1) as (j & Hj & Hr1 & _). lia.
  - case_bool_decide; [|done]. injection E as <-. destruct (Hr _ _ E2) as (j & Hj & Hr1 & _). lia.
  - repeat case_bool_decide; try done. simplify_eq. lia.
Qed.

Section boot.
Context (kernel_end : Z).

Abbreviation space := (VmProofs.space kernel_end).
Abbreviation low := (VmBoot.low).
Abbreviation keeps := (VmBoot.keeps kernel_end).
Abbreviation fresh := (VmBoot.fresh kernel_end).

(** ** Mapping *)

Section map.
Context (T : tables) (pt t0 : Z) (Ht0 : T !! (0%nat, 0) = Some t0).

Lemma map_segment_run last n : forall s m f fuel, space s T pt -> low s m -> m + Z.of_nat n <= 64 -> 0 <= f -> f + Z.of_nat n <= 512 ->
  last <= 4096 * (f + Z.of_nat n) -> ((0 < n)%nat -> 4096 * (f + Z.of_nat n - 1) < last) -> (n <= fuel)%nat ->
  exists s', map_segment kernel_end fuel pt (4096 * f) last s = Ok (tt, s') /\ space s' T pt /\ low s' (m + Z.of_nat n) /\
    (forall s0, keeps s0 s -> fresh s0 T -> keeps s0 s') /\
    forall va, leaf s' T va = if decide (in_range (4096 * f) (4096 * (f + Z.of_nat n)) va) then 4096 * (m + (pidx va 0 - f)) + 7 else leaf s T va.
Proof.
  induction n as [|n IH]; intros s m f fuel H Hl Hm Hf Hf2 Hlast Hlast2 Hfuel.
  - exists s. split; [destruct fuel; cbn [map_segment]; by rewrite (proj2 (Z.ltb_ge _ _)) by lia|]. rewrite Z.add_0_r.
    split; [done|]. split; [done|]. split; [done|]. intros va. rewrite decide_False; [done|]. unfold in_range. lia.
  - destruct fuel as [|fuel]; [lia|]. specialize (Hlast2 ltac:(lia)). cbn [map_segment]. rewrite (proj2 (Z.ltb_lt _ _)) by lia.
    destruct (kalloc_step kernel_end s m Hl ltac:(lia)) as (s1 & Ek & Hfree & G & Hl1). rewrite (bind_ok _ _ _ _ _ Ek).
    destruct (space_given kernel_end s s1 T pt (4096 * m) H Hfree G) as [S1 L1]. pose proof (low_range _ _ Hl).
    destruct (low_page (4096 * f) ltac:(lia)) as [P1 P2].
    destruct (memory_map_here kernel_end s1 T pt (4096 * f) t0 (4096 * m) PTE_PWU S1 ltac:(by rewrite P1) (low_canonical (4096 * f) ltac:(lia)) (page_mod f)
                ltac:(lia) (page_mod m) ltac:(split; [done|by right])) as (s2 & Em & S2 & R2 & L2).
    rewrite (bind_ok _ _ _ _ _ Em). change PAGESIZE with 4096. replace (4096 * f + 4096) with (4096 * (f + 1)) by lia.
    destruct (IH s2 (m + 1) (f + 1) fuel S2 ltac:(apply (low_pages s1); [done|apply R2]) ltac:(lia) ltac:(lia) ltac:(lia) ltac:(lia) ltac:(lia) ltac:(lia))
      as (s3 & E3 & S3 & Hl3 & K3 & L3).
    exists s3. split; [done|]. split; [done|]. split; [by replace (m + Z.of_nat (S n)) with (m + 1 + Z.of_nat n) by lia|]. split.
    + intros s0 K F. apply K3; [|done]. apply (keeps_remapped kernel_end s0 s1 s2 T); [|done..]. by apply (keeps_given kernel_end s0 s s1 (4096 * m)).
    + intros va. rewrite L3, L2, L1. replace (f + 1 + Z.of_nat n) with (f + Z.of_nat (S n)) by lia.
      pose proof (in_range_cons (4096 * f) (4096 * (f + Z.of_nat (S n))) va ltac:(lia) ltac:(lia) (page_mod f)) as Hc.
      replace (4096 * f + 4096) with (4096 * (f + 1)) in Hc by lia. pose proof (low_same (4096 * f) va ltac:(lia) (page_mod f)) as Hs.
      destruct (decide (in_range (4096 * (f + 1)) (4096 * (f + Z.of_nat (S n))) va)) as [D1|D1].
      * rewrite decide_True by tauto. lia.
      * destruct (decide (same_page (4096 * f) va)) as [D2|D2]; [|by rewrite decide_False by tauto].
        rewrite decide_True by tauto. apply Hs in D2. change PTE_PWU with 7. lia.
Qed.

Lemma map_segments_run segs : Forall seg_ok segs -> forall s m, space s T pt -> low s m -> m + total segs <= 64 ->
  exists s', map_segments kernel_end pt segs s = Ok (tt, s') /\ space s' T pt /\ low s' (m + total segs) /\
    (forall s0, keeps s0 s -> fresh s0 T -> keeps s0 s') /\
    forall va, leaf s' T va = match (if decide (pre va 0 = 0) then seg_page segs m (pidx va 0) else None) with
                              | Some q => q + 7 | None => leaf s T va end.
Proof.
  induction 1 as [|seg segs Hs Hss IH]; intros s m H Hl Hm.
  - exists s. cbn [map_segments seg_page total foldr]. rewrite Z.add_0_r. split; [done|]. split; [done|]. split; [done|]. split; [done|].
    intros va. by case_decide.
  - destruct (seg_pages seg Hs) as (Q1 & Q2 & Q3 & Q4 & Q5). pose proof (total_nonneg segs Hss).
    change (total (seg :: segs)) with (npages seg + total segs) in *. cbn [map_segments].
    assert (Ha : round_down (seg_va seg) PAGESIZE = 4096 * first_page seg).
    { unfold round_down, first_page. change PAGESIZE with 4096. pose proof (Z.div_mod (seg_va seg) 4096 ltac:(lia)). lia. }
    rewrite Ha. pose proof (Z.div_pos (seg_size seg) 4096 ltac:(destruct Hs; lia) ltac:(lia)).
    destruct (map_segment_run (seg_va seg + seg_size seg) (Z.to_nat (npages seg)) s m (first_page seg) (Z.to_nat (seg_size seg / PAGESIZE) + 2)
                H Hl ltac:(lia) ltac:(lia) ltac:(lia) ltac:(lia) ltac:(lia) ltac:(change PAGESIZE with 4096; lia)) as (s1 & E1 & S1 & Hl1 & K1 & L1).
    rewrite (bind_ok _ _ _ _ _ E1). rewrite Z2Nat.id in * by lia.
    destruct (IH s1 (m + npages seg) S1 Hl1 ltac:(lia)) as (s2 & E2 & S2 & Hl2 & K2 & L2). exists s2. split; [done|]. split; [done|].
    split; [by replace (m + (npages seg + total segs)) with (m + npages seg + total segs) by lia|]. split; [intros s0 K F; apply K2; auto|].
    intros va. rewrite L2, L1. cbn [seg_page]. unfold in_range. destruct (decide (pre va 0 = 0)) as [Hp|Hp]; [|by rewrite decide_False by tauto].
    destruct (seg_page segs (m + npages seg) (pidx va 0)); [done|].
    destruct (decide (first_page seg <= pidx va 0 < first_page seg + npages seg)) as [D|D].
    + rewrite bool_decide_eq_true_2 by done. rewrite decide_True by lia. done.
    + rewrite bool_decide_eq_false_2 by done. rewrite decide_False by lia. done.
Qed.

End map.

(** ** Loading *)

Lemma copy_in_ok a l s : 4096 <= a -> a + Z.of_nat (length l) <= MEMSIZE_PHYSICAL ->
  copy_in a l s = Ok (tt, mkVm (write_bytes (phys s) a l) (pages s)).
Proof.
  intros H1 H2. unfold copy_in. destruct l as [|b l]; [by destruct s|]. unfold kernel_can_access. change PAGESIZE with 4096.
  by rewrite (proj2 (Z.leb_le _ _)), (proj2 (Z.leb_le _ _)) by lia.
Qed.

(** The pages of each segment are consecutive from [m] on. *)
Fixpoint mapped (s : vm) (T : tables) (segs : list segment) (m : Z) : Prop :=
  match segs with
  | [] => True
  | seg :: segs =>
      (forall x, first_page seg <= x < first_page seg + npages seg -> leaf s T (4096 * x) = 4096 * (m + (x - first_page seg)) + 7) /\
      mapped s T segs (m + npages seg)
  end.

(** The contents of each segment are there. *)
Fixpoint loaded (s : vm) (segs : list segment) (m : Z) : Prop :=
  match segs with
  | [] => True
  | seg :: segs =>
      (forall o, 0 <= o < seg_size seg -> byte_at (phys s) (4096 * m + seg_va seg mod 4096 + o) = nth (Z.to_nat o) (seg_data seg) 0) /\
      loaded s segs (m + npages seg)
  end.

Lemma mapped_leaf s s' T segs : (forall va, leaf s' T va = leaf s T va) -> forall m, mapped s T segs m -> mapped s' T segs m.
Proof. intros L. induction segs as [|seg segs IH]; intros m; cbn; [done|]. intros [H1 H2]. split; [intros x Hx; rewrite L; auto|auto]. Qed.

Lemma loaded_bytes s s' segs : Forall seg_ok segs -> forall m, loaded s segs m ->
  (forall a, 4096 * m <= a < 4096 * (m + total segs) -> byte_at (phys s') a = byte_at (phys s) a) -> loaded s' segs m.
Proof.
  induction 1 as [|seg segs Hs Hss IH]; intros m; cbn [loaded]; [done|]. intros [H1 H2] B.
  change (total (seg :: segs)) with (npages seg + total segs) in B. pose proof (total_nonneg segs Hss). pose proof (seg_pages seg Hs) as Q.
  unfold first_page in Q. pose proof (Z.div_mod (seg_va seg) 4096 ltac:(lia)). pose proof (Z.mod_pos_bound (seg_va seg) 4096 ltac:(lia)). split.
  - intros o Ho. rewrite B by lia. auto.
  - apply IH; [done|]. intros a Ha. apply B. lia.
Qed.

Section load.
Context (T : tables) (pt t0 : Z) (Ht0 : T !! (0%nat, 0) = Some t0).

(** Writing to pages that are no tables. *)
Lemma write_space s a l : space s T pt -> (forall b, a <= b < a + Z.of_nat (length l) -> ~ in_tables T (page_start b)) ->
  let s' := mkVm (write_bytes (phys s) a l) (pages s) in space s' T pt /\ forall va, leaf s' T va = leaf s T va.
Proof.
  intros H Hn s'. apply (space_same kernel_end s); [apply H| | |done].
  - apply taken_mono. intros q Hq. by rewrite (used_pages s' s).
  - intros b Hb. apply byte_at_write_out. destruct (decide (a <= b < a + Z.of_nat (length l))) as [Hd|]; [|lia]. by apply Hn in Hb.
Qed.

Lemma replicate_nth (o n : nat) : nth o (replicate n 0) 0 = 0.
Proof. revert o. induction n as [|n IH]; intros [|o]; cbn; auto. Qed.

Lemma load_segment s seg m : space s T pt -> seg_ok seg -> 1 <= m -> m + npages seg <= 64 ->
  (forall t, in_tables T t -> t < 4096 * m \/ 0x40000 <= t) ->
  (forall x, first_page seg <= x < first_page seg + npages seg -> leaf s T (4096 * x) = 4096 * (m + (x - first_page seg)) + 7) ->
  exists a s1 s', memory_virtual_to_physical pt (seg_va seg) s = Ok (a, s) /\ memset a 0 (seg_size seg) s = Ok (tt, s1) /\
    memory_virtual_to_physical pt (seg_va seg) s1 = Ok (a, s1) /\ copy_in a (seg_data seg) s1 = Ok (tt, s') /\
    pages s' = pages s /\ space s' T pt /\ (forall va, leaf s' T va = leaf s T va) /\
    (forall a, ~ (4096 * m <= a < 4096 * (m + npages seg)) -> byte_at (phys s') a = byte_at (phys s) a) /\
    forall o, 0 <= o < seg_size seg -> byte_at (phys s') (4096 * m + seg_va seg mod 4096 + o) = nth (Z.to_nat o) (seg_data seg) 0.
Proof.
  intros H Hs Hm Hm2 Hbelow Hmap. destruct (seg_pages seg Hs) as (Q1 & Q2 & Q3 & Q4 & _). destruct Hs as [V1 V2 V3 V4].
  unfold PROC_START_ADDR, MEMSIZE_PHYSICAL in V1, V3.
  pose proof (Z.div_mod (seg_va seg) 4096 ltac:(lia)) as Dv. pose proof (Z.mod_pos_bound (seg_va seg) 4096 ltac:(lia)) as Mv.
  unfold first_page in *. set (v := seg_va seg) in *. set (z := seg_size seg) in *. set (np := npages seg) in *.
  destruct (low_page v ltac:(lia)) as [P1 P2].
  assert (Htr : forall s1, space s1 T pt -> (forall va, leaf s1 T va = leaf s T va) ->
            memory_virtual_to_physical pt v s1 = Ok (4096 * m + v mod 4096, s1)).
  { intros s1 S1 L1. rewrite (translate_here kernel_end s1 T pt v t0 S1 ltac:(by rewrite P1) (low_canonical v ltac:(lia)) ltac:(lia)).
    assert (El : leaf s T v = 4096 * m + 7).
    { pose proof (Hmap (v / 4096) ltac:(lia)) as Hx. replace (m + (v / 4096 - v / 4096)) with m in Hx by lia. rewrite <- Hx. unfold leaf.
      destruct (low_page (4096 * (v / 4096)) ltac:(lia)) as [P3 P4]. by rewrite P1, P3, P2, P4, page_div. }
    rewrite L1, El. unfold translation. rewrite entry_flags, entry_page by (try done; try apply page_mod; lia). done. }
  set (base := 4096 * m + v mod 4096) in *.
  assert (Hnt : forall b, base <= b < base + z -> ~ in_tables T (page_start b)).
  { intros b Hb Hin. apply Hbelow in Hin. unfold page_start in Hin. pose proof (Z.div_mod b 4096 ltac:(lia)). pose proof (Z.mod_pos_bound b 4096 ltac:(lia)). lia. }
  destruct (write_space s base (replicate (Z.to_nat z) 0) H ltac:(rewrite length_replicate, Z2Nat.id by lia; done)) as [S1 L1].
  set (s1 := mkVm (write_bytes (phys s) base (replicate (Z.to_nat z) 0)) (pages s)) in *.
  assert (E1 : memset base 0 z s = Ok (tt, s1)) by (apply copy_in_ok; rewrite ?length_replicate; unfold MEMSIZE_PHYSICAL; lia).
  destruct (write_space s1 base (seg_data seg) S1 ltac:(intros b Hb; apply Hnt; lia)) as [S2 L2].
  set (s2 := mkVm (write_bytes (phys s1) base (seg_data seg)) (pages s1)) in *.
  assert (E2 : copy_in base (seg_data seg) s1 = Ok (tt, s2)) by (apply copy_in_ok; unfold MEMSIZE_PHYSICAL; lia).
  exists base, s1, s2. split; [by apply Htr|]. split; [done|]. split; [by apply Htr|]. split; [done|].
  split; [done|]. split; [done|]. split; [intros va; by rewrite L2, L1|]. split.
  - intros a Ha. unfold s2, s1. cbn [phys]. rewrite !byte_at_write_out; [done|..]; rewrite ?length_replicate; lia.
  - intros o Ho. destruct (decide (o < Z.of_nat (length (seg_data seg)))) as [Hd|Hd].
    + replace (base + o) with (base + Z.of_nat (Z.to_nat o)) by lia. apply byte_at_write_in. rewrite nth_lookup.
      destruct (lookup_lt_is_Some_2 (seg_data seg) (Z.to_nat o) ltac:(lia)) as [b Eb]. by rewrite Eb.
    + unfold s2. cbn [phys]. rewrite byte_at_write_out by lia. rewrite nth_overflow by lia. unfold s1. cbn [phys].
      replace (base + o) with (base + Z.of_nat (Z.to_nat o)) by lia. apply byte_at_write_in. apply lookup_replicate. split; [done|lia].
Qed.

Lemma load_segments_run segs : Forall seg_ok segs -> forall s m, space s T pt -> 1 <= m -> m + total segs <= 64 ->
  (forall t, in_tables T t -> t < 4096 * m \/ 0x40000 <= t) -> mapped s T segs m ->
  exists s', load_segments pt segs s = Ok (tt, s') /\ pages s' = pages s /\ space s' T pt /\ (forall va, leaf s' T va = leaf s T va) /\
    (forall a, ~ (4096 * m <= a < 4096 * (m + total segs)) -> byte_at (phys s') a = byte_at (phys s) a) /\ loaded s' segs m.
Proof.
  induction 1 as [|seg segs Hs Hss IH]; intros s m H Hm1 Hm Hbelow Hmap; [by exists s|].
  change (total (seg :: segs)) with (npages seg + total segs) in *. pose proof (total_nonneg segs Hss). destruct (seg_pages seg Hs) as (_ & Q2 & _).
  destruct Hmap as [M1 M2]. destruct (load_segment s seg m H Hs Hm1 ltac:(lia) Hbelow M1) as (a1 & s0 & s1 & Ea & Eb & Ec & Ed & P1 & S1 & L1 & B1 & D1).
  destruct (IH s1 (m + npages seg) S1 ltac:(lia) ltac:(lia)) as (s2 & E2 & P2 & S2 & L2 & B2 & D2).
  { intros t Ht. apply Hbelow in Ht. lia. }
  { by apply (mapped_leaf s). }
  exists s2. cbn [load_segments loaded].
  split; [by rewrite (bind_ok _ _ _ _ _ Ea), (bind_ok _ _ _ _ _ Eb), (bind_ok _ _ _ _ _ Ec), (bind_ok _ _ _ _ _ Ed)|].
  split; [congruence|]. split; [done|]. split; [intros va; by rewrite L2, L1|]. split; [intros a Ha; rewrite B2, B1; [done|lia..]|].
  split; [|done]. intros o Ho. destruct (seg_pages seg Hs) as (_ & _ & _ & Q4 & _). unfold first_page in Q4.
  pose proof (Z.div_mod (seg_va seg) 4096 ltac:(lia)). pose proof (Z.mod_pos_bound (seg_va seg) 4096 ltac:(lia)).
  rewrite B2 by lia. auto.
Qed.

End load.

(** ** The address space of a process *)

Definition stack_addr : Z := MEMSIZE_VIRTUAL - PAGESIZE.

Definition layout (segs : list segment) (m stk va : Z) : Z :=
  if decide (same_page stack_addr va) then stk + PTE_PWU
  else match (if decide (pre va 0 = 0) then seg_page segs m (pidx va 0) else None) with
       | Some q => q + PTE_PWU
       | None => if decide (in_range 0 PROC_START_ADDR va) then kernel_entry (pidx va 0) else 0
       end.

Definition apart (a b : segment) : Prop := first_page a + npages a <= first_page b \/ first_page b + npages b <= first_page a.

Lemma seg_page_none segs seg x : Forall (apart seg) segs -> first_page seg <= x < first_page seg + npages seg -> forall m, seg_page segs m x = None.
Proof.
  intros Ha Hx. induction Ha as [|b segs Hb _ IH]; intros m; cbn [seg_page]; [done|]. rewrite IH. rewrite bool_decide_eq_false_2; [done|].
  unfold apart in Hb. lia.
Qed.

Lemma mapped_pages s T segs : ForallOrdPairs apart segs -> forall m, (forall x q, seg_page segs m x = Some q -> leaf s T (4096 * x) = q + 7) ->
  mapped s T segs m.
Proof.
  induction 1 as [|seg segs Ha _ IH]; intros m L; cbn [mapped]; [done|]. split.
  - intros x Hx. apply L. cbn [seg_page]. rewrite (seg_page_none segs seg x Ha Hx). by rewrite bool_decide_eq_true_2.
  - apply IH. intros x q E. apply L. cbn [seg_page]. by rewrite E.
Qed.

(** What process_setup() builds for the image [segs] from state [s]: the page
    table at page [n], the segments from page [m] on, and the stack. *)
Record built (s s' : vm) (segs : list segment) (T : tables) (n m n' : Z) : Prop := {
  bt_space : space s' T (4096 * n);
  bt_keeps : keeps s s';
  bt_fresh : fresh s T;
  bt_low : low s' n';
  bt_range : n < m /\ m + total segs < n' <= n + 8 + total segs;
  bt_leaf va : leaf s' T va = layout segs m (4096 * (m + total segs)) va;
  bt_loaded : loaded s' segs m;
  bt_free j : n <= j < 64 -> VmProofs.free_page kernel_end s (4096 * j);
  bt_private j : m <= j <= m + total segs -> ~ in_tables T (4096 * j)
}.

Section build.
Context (s : vm) (n : Z) (segs : list segment).
Context (Hlow : low s n) (Hroom : n + 8 + total segs <= 64) (Hok : Forall seg_ok segs) (Hap : ForallOrdPairs apart segs).

(** The page table with the kernel's half. *)
Lemma build_kernel : exists s1 s2 s3 s4 T t0 m,
  kalloc_pagetable kernel_end s = Ok (4096 * n, s1) /\
  memory_foreach (4096 * n) PROC_START_ADDR (map_to_kernel_space kernel_end) s1 = Ok (tt, s2) /\
  map_to_nobody kernel_end (4096 * n) 0 s2 = Ok (true, s3) /\ map_to_user_space kernel_end (4096 * n) CONSOLE_ADDR s3 = Ok (true, s4) /\
  space s4 T (4096 * n) /\ keeps s s4 /\ fresh s T /\ low s4 m /\ n < m <= n + 4 /\ T !! (0%nat, 0) = Some t0 /\
  forall va, leaf s4 T va = if decide (in_range 0 PROC_START_ADDR va) then kernel_entry (pidx va 0) else 0.
Proof.
  pose proof (total_nonneg segs Hok).
  destruct (pagetable_low kernel_end s n Hlow ltac:(lia)) as (s1 & E1 & Hl1 & K1 & F1 & S1).
  destruct (foreach_new kernel_end s1 (n + 1) (4096 * n) Hl1 ltac:(lia) S1) as (s2 & T & t0 & m & E2 & S2 & Hm & Hl2 & Ht0 & KF & L2).
  destruct (KF s K1 F1) as [K2 F2].
  destruct (memory_map_here kernel_end s2 T (4096 * n) 0 t0 0 0 S2 Ht0 eq_refl eq_refl ltac:(lia) eq_refl ltac:(split; [lia|by left])) as (s3 & E3 & S3 & R3 & L3).
  destruct (memory_map_here kernel_end s3 T (4096 * n) CONSOLE_ADDR t0 CONSOLE_ADDR 7 S3 Ht0 eq_refl eq_refl ltac:(done) eq_refl ltac:(split; [lia|by right]))
    as (s4 & E4 & S4 & R4 & L4).
  exists s1, s2, s3, s4, T, t0, m. split; [done|]. split; [done|].
  split; [unfold map_to_nobody; by rewrite (bind_ok _ _ _ _ _ E3)|]. split; [unfold map_to_user_space; by rewrite (bind_ok _ _ _ _ _ E4)|].
  split; [done|]. split; [apply (keeps_remapped kernel_end s s3 s4 T); [|done..]; by apply (keeps_remapped kernel_end s s2 s3 T)|].
  split; [done|]. split; [apply (low_pages s3); [apply (low_pages s2); [done|apply R3]|apply R4]|]. split; [lia|]. split; [done|].
  intros va. rewrite L4, L3, L2. change PROC_START_ADDR with 0x100000. pose proof (low_same 0 va ltac:(lia) eq_refl) as Hs0.
  pose proof (low_same CONSOLE_ADDR va ltac:(done) eq_refl) as Hs1. unfold CONSOLE_ADDR in *. unfold kernel_entry, in_range in *.
  destruct (decide (same_page 0xB8000 va)) as [D1|D1]; [apply Hs1 in D1 as [D1 D2]; rewrite decide_True by lia; by replace (pidx va 0) with 0xB8 by lia|].
  destruct (decide (same_page 0 va)) as [D2|D2]; [apply Hs0 in D2 as [D2 D3]; rewrite decide_True by lia; by replace (pidx va 0) with 0 by lia|].
  case_decide; [|done]. rewrite (proj2 (Z.eqb_neq _ _)), (proj2 (Z.eqb_neq _ _)); [done|..]; intros E; [apply D1, Hs1|apply D2, Hs0]; lia.
Qed.

(** The pages from [m] on are new. *)
Lemma new_page m a : n <= m -> 4096 * m <= a < 0x40000 -> VmProofs.taken kernel_end s (page_start a) = false.
Proof.
  intros Hm Ha. pose proof (low_range _ _ Hlow). apply free_not_taken. unfold page_start. rewrite Z.mul_comm.
  pose proof (Z.div_mod a 4096 ltac:(lia)). pose proof (Z.mod_pos_bound a 4096 ltac:(lia)). apply (low_free _ s n); [done|lia].
Qed.

Lemma taken_low s1 m j : low s1 m -> 1 <= j < m -> j < 64 -> VmProofs.taken kernel_end s1 (4096 * j) = true.
Proof. intros H Hj Hj2. unfold VmProofs.taken. rewrite (low_used _ _ H) by lia. by rewrite (proj2 (Z.ltb_lt _ _)) by lia. Qed.

Lemma page_start_page j a : 4096 * j <= a < 4096 * (j + 1) -> page_start a = 4096 * j.
Proof. intros Ha. apply page_start_in; [apply page_mod|lia]. Qed.

(** The segments and the stack. *)
Lemma build_user s4 T t0 m : space s4 T (4096 * n) -> keeps s s4 -> fresh s T -> low s4 m -> n < m <= n + 4 -> T !! (0%nat, 0) = Some t0 ->
  (forall va, leaf s4 T va = if decide (in_range 0 PROC_START_ADDR va) then kernel_entry (pidx va 0) else 0) ->
  exists s5 s6 s7 s8 T8 n', map_segments kernel_end (4096 * n) segs s4 = Ok (tt, s5) /\ load_segments (4096 * n) segs s5 = Ok (tt, s6) /\
    kalloc kernel_end PAGESIZE s6 = Ok (4096 * (m + total segs), s7) /\
    memory_map kernel_end (4096 * n) stack_addr (4096 * (m + total segs)) PTE_PWU s7 = Ok (0, s8) /\ built s s8 segs T8 n m n'.
Proof.
  intros S4 K4 F4 Hl4 Hm Ht0 L4. pose proof (total_nonneg segs Hok) as Htot. pose proof (low_range _ _ Hlow) as Hn.
  destruct (map_segments_run T (4096 * n) t0 Ht0 segs Hok s4 m S4 Hl4 ltac:(lia)) as (s5 & E5 & S5 & Hl5 & K5 & L5).
  assert (M5 : mapped s5 T segs m).
  { apply mapped_pages; [done|]. intros x q Hq. destruct (seg_page_range segs Hok _ _ _ Hq) as (j & _ & _ & Hx).
    destruct (low_page (4096 * x) ltac:(lia)) as [P1 P2]. rewrite L5, decide_True, P2, page_div, Hq by done. done. }
  pose proof (fun t => tables_below kernel_end s4 T (4096 * n) m t S4 Hl4) as Hbelow.
  destruct (load_segments_run T (4096 * n) t0 Ht0 segs Hok s5 m S5 ltac:(lia) ltac:(lia) Hbelow M5) as (s6 & E6 & P6 & S6 & L6 & B6 & D6).
  assert (K6 : keeps s s6).
  { apply (keeps_writes kernel_end s s5); [auto|done|]. intros a Ha. apply B6. intros Hr. by rewrite (new_page m) in Ha by lia. }
  destruct (kalloc_step kernel_end s6 (m + total segs)) as (s7 & E7 & Hf7 & G7 & Hl7); [by apply (low_pages s5)|lia|].
  destruct (space_given kernel_end s6 s7 T (4096 * n) _ S6 Hf7 G7) as [S7 L7].
  assert (K7 : keeps s s7) by (by apply (keeps_given kernel_end s s6 s7 _ K6 Hf7)).
  destruct (memory_map_low kernel_end s7 T (4096 * n) stack_addr (4096 * (m + total segs)) PTE_PWU (m + total segs + 1) S7 Hl7 ltac:(lia) eq_refl eq_refl
              ltac:(lia) (page_mod _) ltac:(done) eq_refl) as (s8 & T8 & n' & E8 & S8 & X8 & Hn' & Hl8 & _ & L8).
  destruct (keeps_extends kernel_end s s7 s8 T T8 K7 F4 X8) as [K8 F8].
  assert (Hused : forall j, m <= j <= m + total segs -> VmProofs.taken kernel_end s7 (4096 * j) = true /\ ~ in_tables T (4096 * j)).
  { intros j Hj. split; [apply (taken_low s7 (m + total segs + 1)); [done|lia..]|]. intros Hin. apply Hbelow in Hin. lia. }
  exists s5, s6, s7, s8, T8, n'. split; [done|]. split; [done|]. split; [done|]. split; [done|]. split; try done.
  - lia.
  - intros va. rewrite L8, L7, L6, L5, L4. done.
  - apply (loaded_bytes s6); [done..|]. intros a Ha. set (j := a / 4096). pose proof (Z.div_mod a 4096 ltac:(lia)).
    pose proof (Z.mod_pos_bound a 4096 ltac:(lia)). destruct (Hused j ltac:(lia)) as [U1 U2].
    rewrite (ex_bytes _ _ _ _ _ X8) by (by rewrite (page_start_page j) by lia). apply (pg_bytes _ _ _ _ G7). lia.
  - intros j Hj. by apply (low_free _ s n).
  - intros j Hj [kt Hkt]. destruct (Hused j Hj) as [U1 U2]. destruct (ex_new _ _ _ _ _ X8 _ _ Hkt) as [Hk|Hk]; [apply U2; by exists kt|congruence].
Qed.

End build.
End boot.
