(* ===== verification/KernelProofs.v ===== *)
(** * Isolation of processes

    [isolated k Ts]: every process has an address space of its own.  [Ts] maps
    the processes to the tables of their page tables. *)
From stdpp Require Import prelude gmap list.
From Stdlib Require Import ZArith Lia.
From S2P Require Import Prelude Memory Vm VmProofs KernelState MemViewer Kernel.
Open Scope Z_scope.
Open Scope c_scope.

#[local] Opaque page_fill.

Section kernel.
Context (kernel_end kernel_pagetable exception_entry TICK_LIMIT : Z).

Abbreviation space := (VmProofs.space kernel_end).
Abbreviation free_page := (VmProofs.free_page kernel_end).
Abbreviation taken := (VmProofs.taken kernel_end).
Abbreviation extends := (VmProofs.extends kernel_end).

(** User code can reach page [q] through [va]. *)
Definition user_maps (s : vm) (T : tables) (va q : Z) : Prop :=
  Z.land (leaf s T va) (Z.lor PTE_P PTE_U) = Z.lor PTE_P PTE_U /\ q = Z.land (leaf s T va) PTE_PAMASK.

(** The page that processes share. *)
Definition public (q : Z) : Prop := q = CONSOLE_ADDR.

Record separate (k : kernel) (Ts : gmap nat tables) : Prop := {
  iso_procs : length (ptable k) = 16%nat;
  iso_pid i p : ptable k !! i = Some p -> pid p = Z.of_nat i;
  iso_proc i T : Ts !! i = Some T -> exists p, ptable k !! i = Some p /\ space (mem k) T (pagetable p);
  iso_started i p : ptable k !! i = Some p -> state p <> P_FREE -> is_Some (Ts !! i);
  iso_tables i j T T' t : Ts !! i = Some T -> Ts !! j = Some T' -> in_tables T t -> in_tables T' t -> i = j;
  iso_alloc i T t : Ts !! i = Some T -> in_tables T t -> allocatable_physical_address kernel_end t = true;
  iso_user i T va q : Ts !! i = Some T -> user_maps (mem k) T va q -> public q \/
    (allocatable_physical_address kernel_end q = true /\ used (mem k) q = true /\ forall j T', Ts !! j = Some T' -> ~ in_tables T' q);
  iso_private i j T T' va va' q : Ts !! i = Some T -> Ts !! j = Some T' -> user_maps (mem k) T va q -> user_maps (mem k) T' va' q ->
    public q \/ (i = j /\ same_page va va')
}.

Record isolated (k : kernel) (Ts : gmap nat tables) : Prop := {
  iso_separate :> separate k Ts;
  iso_current : is_Some (Ts !! current k)
}.

(** ** Reading page tables *)

Lemma read_pe_pure pep s v s' : read_pe pep s = Ok (v, s') -> s' = s.
Proof. unfold read_pe, ret, read64. repeat case_match; congruence. Qed.

Lemma down_loop_pure l : forall pep perm va s r s', down_loop l pep perm va s = Ok (r, s') -> s' = s.
Proof.
  induction l as [|l IH]; intros pep perm va s r s' H; cbn [down_loop] in H; unfold bind in H.
  - destruct (read_pe pep s) as [[pe s1]|] eqn:E; [|done]. apply read_pe_pure in E. unfold ret in H. congruence.
  - destruct (read_pe pep s) as [[pe s1]|] eqn:E; [|done]. apply read_pe_pure in E as ->. case_match; [by apply IH in H|].
    unfold ret in H. congruence.
Qed.

Lemma down_pure it s r s' : down it s = Ok (r, s') -> s' = s.
Proof.
  unfold down, bind. destruct (down_loop _ _ _ _ s) as [[[[l pep] perm] s1]|] eqn:E; [|done]. apply down_loop_pure in E as ->.
  destruct (read_pe pep s) as [[pe s1]|] eqn:E; [|done]. apply read_pe_pure in E as ->. case_match; [done|]. unfold ret. congruence.
Qed.

Lemma translate_pure pt va s a s' : memory_virtual_to_physical pt va s = Ok (a, s') -> s' = s.
Proof.
  unfold memory_virtual_to_physical, bind. destruct (new_vmiter pt va s) as [[it s1]|] eqn:E; [|done].
  assert (s1 = s) as -> by (unfold new_vmiter, real_find in E; repeat case_match; by eapply down_pure).
  unfold vmiter_pa, bind. destruct (read_pe (pep_ it) s) as [[pe s2]|] eqn:E2; [|done]. apply read_pe_pure in E2 as ->.
  unfold ret. case_match; congruence.
Qed.

Lemma check_pagetable_pure pt s u s' : check_pagetable kernel_pagetable exception_entry pt s = Ok (u, s') -> s' = s.
Proof.
  unfold check_pagetable, bind, c_assert, ret, fail. intros H. repeat case_match; simplify_eq;
  repeat match goal with H : memory_virtual_to_physical _ _ _ = _ |- _ => apply translate_pure in H end; congruence.
Qed.

(** run() enters a runnable process and changes nothing else. *)
Lemma run_inv i k l k' : run kernel_pagetable exception_entry i k = Ok (l, k') ->
  exists p, ptable k !! i = Some p /\ state p = P_RUNNABLE /\ l = Resume i /\ k' = mkKernel (ptable k) i (ticks k) (mem k) (view k).
Proof.
  unfold run, bind, get_proc. destruct (ptable k !! i) as [p|]; [|done]. unfold c_assert, ret, modify, in_vm.
  destruct (Z.eqb_spec (state p) P_RUNNABLE) as [Hs|]; [|done]. cbn [mem ptable current ticks].
  destruct (check_pagetable _ _ _ _) as [[u v]|] eqn:E; [|done]. apply check_pagetable_pure in E as ->. intros [= <- <-]. by exists p.
Qed.

Lemma run_isolated Ts i k l k' : isolated k Ts -> run kernel_pagetable exception_entry i k = Ok (l, k') -> isolated k' Ts.
Proof.
  intros H E. destruct (run_inv _ _ _ _ E) as (p & Ep & Hs & _ & ->). destruct H as [[I1 I2 I4 I5 I6 I9 I7 I8] I3].
  split; [by split|]. cbn [current]. apply (I5 i p Ep). by rewrite Hs.
Qed.

Lemma alter_lookup (f : proc -> proc) i j (l : list proc) p : alter f i l !! j = Some p ->
  (i = j /\ exists q, l !! i = Some q /\ p = f q) \/ (i <> j /\ l !! j = Some p).
Proof.
  rewrite list_lookup_alter. case_decide as Hd; [|auto]. intros H. apply fmap_Some in H as (q & Hq & ->). left. eauto.
Qed.

(** A change of registers and state. *)
Lemma set_proc_separate Ts i f k c t w : separate k Ts -> (forall p, pagetable (f p) = pagetable p /\ pid (f p) = pid p) ->
  (forall p, state p = P_FREE -> ptable k !! i = Some p -> state (f p) = P_FREE \/ is_Some (Ts !! i)) ->
  separate (mkKernel (alter f i (ptable k)) c t (mem k) w) Ts.
Proof.
  intros [I1 I2 I4 I5 I6 I9 I7 I8] Hf Hs.
  split; cbn [ptable current mem]; try done.
  - by rewrite length_alter.
  - intros j p Hj. apply alter_lookup in Hj as [(<- & q & Hq & ->)|[Hne Hj]]; [|by apply I2].
    destruct (Hf q) as [_ ->]. by apply I2.
  - intros j T HT. destruct (I4 _ _ HT) as (p & Ep & Hp). destruct (decide (i = j)) as [-> |Hne].
    + exists (f p). rewrite list_lookup_alter_eq, Ep. split; [done|]. by destruct (Hf p) as [-> _].
    + exists p. by rewrite list_lookup_alter_ne.
  - intros j p Hj Hn. apply alter_lookup in Hj as [(<- & q & Hq & ->)|[Hne Hj]]; [|by eapply I5].
    destruct (decide (state q = P_FREE)) as [Hfree|Hfree]; [|by eapply I5]. by destruct (Hs q Hfree Hq).
Qed.

Lemma set_proc_isolated Ts i f k : isolated k Ts -> (forall p, pagetable (f p) = pagetable p /\ pid (f p) = pid p) ->
  (forall p, state p = P_FREE -> ptable k !! i = Some p -> state (f p) = P_FREE \/ is_Some (Ts !! i)) ->
  isolated (mkKernel (alter f i (ptable k)) (current k) (ticks k) (mem k) (view k)) Ts.
Proof. intros [H Hc] Hf Hs. split; [by apply set_proc_separate|done]. Qed.

(** ** Growing one address space *)

Lemma used_taken s p : used s p = true -> taken s p = true.
Proof. intros H. unfold VmProofs.taken. by rewrite H. Qed.

Lemma tables_taken s T root t : space s T root -> in_tables T t -> taken s t = true.
Proof. intros H [[l x] E]. apply (sp_page _ _ _ _ H _ _ _ E). Qed.

(** Process [i] gets the tables [T'] in memory [s'], and possibly the page [p]
    at [addr]; other memory in use keeps its contents. *)
Section grow.
Context (k : kernel) (Ts : gmap nat tables) (i : nat) (T T' : tables) (cur : proc) (s' : vm) (p addr : Z).
Context (H : separate k Ts) (HT : Ts !! i = Some T) (Hcur : ptable k !! i = Some cur).
Context (Hspace : space s' T' (pagetable cur)).
Context (Hused : forall q, used (mem k) q = true -> used s' q = true).
Context (Hbytes : forall a, taken (mem k) (page_start a) = true -> ~ in_tables T (page_start a) ->
  byte_at (phys s') a = byte_at (phys (mem k)) a).
Context (Hnew : forall t, in_tables T' t -> in_tables T t \/ (taken (mem k) t = false /\ t <> p)).
Context (Hpage : free_page (mem k) p) (Hpused : used s' p = true).
Context (Huser : forall va q, user_maps s' T' va q -> user_maps (mem k) T va q \/ public q \/ (q = p /\ same_page addr va)).

Lemma grow_other j Tj : Ts !! j = Some Tj -> j <> i -> exists pj, ptable k !! j = Some pj /\ space s' Tj (pagetable pj) /\
  forall va, leaf s' Tj va = leaf (mem k) Tj va.
Proof.
  intros Hj Hne. destruct (iso_proc _ _ H _ _ Hj) as (pj & Ej & Hsj). exists pj. split; [done|].
  apply (space_same kernel_end (mem k)); [apply Hspace|by apply taken_mono| |done].
  intros a Ha. apply Hbytes; [by eapply tables_taken|]. intros Hin. apply Hne. by apply (iso_tables _ _ H _ _ _ _ _ Hj HT Ha).
Qed.

Lemma grow_taken j Tj t : Ts !! j = Some Tj -> in_tables Tj t -> taken (mem k) t = true.
Proof. intros Hj Hin. destruct (iso_proc _ _ H _ _ Hj) as (pj & _ & Hsj). by eapply tables_taken. Qed.

Lemma grow_user j Tj va q : <[i := T']> Ts !! j = Some Tj -> user_maps s' Tj va q ->
  (exists T0, Ts !! j = Some T0 /\ user_maps (mem k) T0 va q) \/ public q \/ (j = i /\ q = p /\ same_page addr va).
Proof.
  intros Hj Hu. apply lookup_insert_Some in Hj as [[<- <-]|[Hne Hj]].
  - destruct (Huser _ _ Hu) as [Hu'|[Hq|[Hq1 Hq2]]]; [left; by exists T|auto..].
  - left. exists Tj. split; [done|]. destruct (grow_other j Tj Hj ltac:(done)) as (pj & _ & _ & Hl). unfold user_maps in *. by rewrite <- Hl.
Qed.

Lemma grow_not_table j Tj q : <[i := T']> Ts !! j = Some Tj -> taken (mem k) q = true -> (forall j T0, Ts !! j = Some T0 -> ~ in_tables T0 q) ->
  ~ in_tables Tj q.
Proof.
  intros Hj Hq Hno Hin. apply lookup_insert_Some in Hj as [[<- <-]|[Hne Hj]]; [|by eapply Hno].
  destruct (Hnew _ Hin) as [Hin'|[Hn _]]; [by eapply Hno|congruence].
Qed.

Lemma grow_page_not_table j Tj : <[i := T']> Ts !! j = Some Tj -> ~ in_tables Tj p.
Proof.
  intros Hj Hin. pose proof (free_not_taken _ _ _ Hpage) as Hp. apply lookup_insert_Some in Hj as [[<- <-]|[Hne Hj]].
  - destruct (Hnew _ Hin) as [Hin'|[_ Hn]]; [|done]. by rewrite (grow_taken _ _ _ HT Hin') in Hp.
  - by rewrite (grow_taken _ _ _ Hj Hin) in Hp.
Qed.

Lemma grow_old_page j T0 va q : Ts !! j = Some T0 -> user_maps (mem k) T0 va q -> q = p -> public q.
Proof.
  intros Hj Hu ->. destruct (iso_user _ _ H _ _ _ _ Hj Hu) as [Hq|(_ & Hq & _)]; [done|]. by rewrite (fp_free _ _ _ Hpage) in Hq.
Qed.

Lemma separate_grow : separate (mkKernel (ptable k) (current k) (ticks k) s' (view k)) (<[i := T']> Ts).
Proof.
  split; cbn [ptable current mem].
  - apply H.
  - apply H.
  - intros j Tj Hj. apply lookup_insert_Some in Hj as [[<- <-]|[Hne Hj]]; [by exists cur|].
    destruct (grow_other j Tj Hj ltac:(done)) as (pj & Ej & Hs & _). by exists pj.
  - intros j pj Ej Hs. destruct (decide (i = j)) as [<- |Hne]; [by rewrite lookup_insert_eq|]. rewrite lookup_insert_ne by done.
    by apply (iso_started _ _ H j pj).
  - assert (Hone : forall j Tj t, Ts !! j = Some Tj -> i <> j -> in_tables T' t -> in_tables Tj t -> i = j).
    { intros j Tj t Hj Hne Hin Hin'. destruct (Hnew _ Hin) as [Hin2|[Hn _]]; [by apply (iso_tables _ _ H _ _ _ _ _ HT Hj Hin2)|].
      by rewrite (grow_taken _ _ _ Hj Hin') in Hn. }
    intros j1 j2 T1 T2 t H1 H2 Hin1 Hin2.
    apply lookup_insert_Some in H1 as [[<- <-]|[Hne1 H1]], H2 as [[<- <-]|[Hne2 H2]]; [done|by eapply Hone|symmetry; by eapply Hone|].
    by apply (iso_tables _ _ H _ _ _ _ _ H1 H2 Hin1).
  - intros j Tj t Hj Hin. apply lookup_insert_Some in Hj as [[<- <-]|[Hne Hj]]; [|by apply (iso_alloc _ _ H _ _ _ Hj)].
    destruct (Hnew _ Hin) as [Hin'|[Hn _]]; [by apply (iso_alloc _ _ H _ _ _ HT)|]. unfold VmProofs.taken in Hn.
    apply orb_false_iff in Hn as [_ Hn]. by apply negb_false_iff in Hn.
  - intros j Tj va q Hj Hu. destruct (grow_user _ _ _ _ Hj Hu) as [(T0 & H0 & Hu0)|[Hq|(-> & -> & _)]]; [|by left|right].
    + destruct (iso_user _ _ H _ _ _ _ H0 Hu0) as [Hq|(Ha & Hq & Hno)]; [by left|right]. split_and!; [done|auto|].
      intros j' Tj' Hj'. apply (grow_not_table j'); [done|by apply used_taken|done].
    + split_and!; [apply Hpage|done|]. exact grow_page_not_table.
  - intros j1 j2 T1 T2 va1 va2 q H1 H2 U1 U2.
    destruct (grow_user _ _ _ _ H1 U1) as [(T3 & H3 & U3)|[Hq|(-> & Hq & S1)]]; [|by left|];
    destruct (grow_user _ _ _ _ H2 U2) as [(T4 & H4 & U4)|[Hq'|(-> & Hq' & S2)]]; try (by left).
    + exact (iso_private _ _ H _ _ _ _ _ _ _ H3 H4 U3 U4).
    + left. exact (grow_old_page _ _ _ _ H3 U3 Hq').
    + left. exact (grow_old_page _ _ _ _ H4 U4 Hq).
    + right. split; [done|]. destruct S1 as [A1 A2], S2 as [B1 B2]. split; congruence.
Qed.

End grow.

(** ** syscall_page_alloc() *)

Lemma in_vm_ok {A} (m : M vm A) k a v : m (mem k) = Ok (a, v) -> in_vm m k = Ok (a, mkKernel (ptable k) (current k) (ticks k) v (view k)).
Proof. intros E. unfold in_vm. by rewrite E. Qed.

Lemma in_vm_err {A} (m : M vm A) k f : m (mem k) = Err f -> in_vm m k = Err f.
Proof. intros E. unfold in_vm. by rewrite E. Qed.

Lemma memset_high k : memset (2 ^ 64 - 1) 0 4096 (mem k) = Err (Segv (2 ^ 64 - 1)).
Proof. reflexivity. Qed.

Section page_alloc.
Context (k : kernel) (Ts : gmap nat tables) (T : tables) (cur : proc) (addr p : Z).
Context (H : isolated k Ts) (HT : Ts !! current k = Some T) (Hcur : ptable k !! current k = Some cur).
Context (Hcan : va_is_canonical addr = true) (Halign : addr mod 4096 = 0) (Hpos : 0 <= addr).
Context (s1 : vm) (Hpage : free_page (mem k) p) (G : page_given kernel_end (mem k) s1 p).

Lemma cur_space : space (mem k) T (pagetable cur).
Proof. destruct (iso_proc _ _ H _ _ HT) as (q & Eq & Hs). rewrite Hcur in Eq. by injection Eq as <-. Qed.

Lemma given_space : space s1 T (pagetable cur) /\ forall va, leaf s1 T va = leaf (mem k) T va.
Proof.
  apply (space_same kernel_end (mem k)); [apply G|apply taken_mono, G| |apply cur_space]. intros a Ha.
  apply (pg_bytes _ _ _ _ G). destruct (decide (p <= a < p + 4096)); [|lia]. exfalso.
  pose proof (tables_taken _ _ _ _ cur_space Ha) as Ht. rewrite (page_start_in p a) in Ht by (try lia; apply Hpage).
  by rewrite (free_not_taken _ _ _ Hpage) in Ht.
Qed.

(** The page is mapped and cleared. *)
Context (s2 : vm) (T' : tables) (Hs2 : space s2 T' (pagetable cur)) (X : extends s1 s2 T T').
Context (L : forall va, leaf s2 T' va = if decide (same_page addr va) then p + 7 else leaf s1 T va).

Definition cleared : vm := mkVm (page_fill (phys s2) p 0) (pages s2).

Lemma page_not_table : ~ in_tables T' p.
Proof.
  intros [kt E]. destruct (ex_new _ _ _ _ _ X _ _ E) as [E'|E'].
  - pose proof (tables_taken _ _ _ p cur_space (ex_intro _ kt E')) as Ht. by rewrite (free_not_taken _ _ _ Hpage) in Ht.
  - by rewrite (used_taken _ _ (pg_here _ _ _ _ G)) in E'.
Qed.

Lemma cleared_bytes a : taken (mem k) (page_start a) = true -> ~ in_tables T (page_start a) ->
  byte_at (phys cleared) a = byte_at (phys (mem k)) a.
Proof.
  intros Ht Hn. assert (Hout : a < p \/ p + 4096 <= a).
  { destruct (decide (p <= a < p + 4096)); [|lia]. rewrite (page_start_in p a) in Ht by (try lia; apply Hpage).
    by rewrite (free_not_taken _ _ _ Hpage) in Ht. }
  unfold cleared. cbn [phys]. rewrite page_fill_out by done. rewrite (ex_bytes _ _ _ _ _ X); [by apply (pg_bytes _ _ _ _ G)| |done].
  by apply (taken_mono _ _ _ (pg_used _ _ _ _ G)).
Qed.

Lemma cleared_space : space cleared T' (pagetable cur) /\
  forall va, leaf cleared T' va = if decide (same_page addr va) then p + 7 else leaf (mem k) T va.
Proof.
  destruct (space_same kernel_end (absent := inactive) s2 cleared T' (pagetable cur)) as [S3 L3]; [apply Hs2|done| |done|].
  - intros a Ha. unfold cleared. cbn [phys]. rewrite page_fill_out; [done|]. destruct (decide (p <= a < p + 4096)); [|lia].
    rewrite (page_start_in p a) in Ha by (try lia; apply Hpage). by destruct page_not_table.
  - split; [done|]. intros va. rewrite L3, L. case_decide; [done|]. apply given_space.
Qed.

Lemma cleared_isolated : isolated (mkKernel (ptable k) (current k) (ticks k) cleared (view k)) (<[current k := T']> Ts).
Proof.
  destruct cleared_space as [S3 L3]. destruct (allocatable_range _ p (fp_alloc _ _ _ Hpage) (fp_align _ _ _ Hpage)) as [P1 P2].
  unfold MEMSIZE_PHYSICAL in P2. split; [|cbn [current]; by rewrite lookup_insert_eq].
  apply (separate_grow k Ts (current k) T T' cur cleared p addr H); try done.
  - intros q Hq. apply (ex_used _ _ _ _ _ X). by apply (pg_used _ _ _ _ G).
  - exact cleared_bytes.
  - intros t [kt E]. destruct (ex_new _ _ _ _ _ X _ _ E) as [E'|E']; [left; by exists kt|right]. split.
    + destruct (taken (mem k) t) eqn:Et; [|done]. by rewrite (taken_mono _ _ _ (pg_used _ _ _ _ G) _ Et) in E'.
    + intros ->. by rewrite (used_taken _ _ (pg_here _ _ _ _ G)) in E'.
  - apply (ex_used _ _ _ _ _ X), (pg_here _ _ _ _ G).
  - intros va q [U1 U2]. rewrite L3 in U1, U2. case_decide as Hd; [|left; by split]. right. right. split; [|done].
    rewrite U2. apply entry_page; [lia|apply Hpage|lia].
Qed.

End page_alloc.

(** What a successful call does. *)
Record page_allocated (k k' : kernel) (Ts : gmap nat tables) (T T' : tables) (addr p : Z) : Prop := {
  pa_first : free_page (mem k) p /\ forall q, q < p -> ~ free_page (mem k) q;
  pa_isolated : isolated k' (<[current k := T']> Ts);
  pa_kernel : ptable k' = ptable k /\ current k' = current k /\ ticks k' = ticks k /\ view k' = view k;
  pa_used q : used (mem k) q = true -> used (mem k') q = true;
  pa_new t : in_tables T' t -> in_tables T t \/ taken (mem k) t = false;
  pa_map va : leaf (mem k') T' va = if decide (same_page addr va) then p + PTE_PWU else leaf (mem k) T va;
  pa_zero a : p <= a < p + PAGESIZE -> byte_at (phys (mem k')) a = 0;
  pa_bytes a : taken (mem k) (page_start a) = true -> ~ in_tables T (page_start a) ->
    byte_at (phys (mem k')) a = byte_at (phys (mem k)) a
}.

Lemma page_alloc_run k Ts T addr : isolated k Ts -> Ts !! current k = Some T ->
  va_is_canonical addr = true -> addr mod PAGESIZE = 0 -> 0 <= addr ->
  (exists k' T' p, syscall_page_alloc kernel_end addr k = Ok (0, k') /\ page_allocated k k' Ts T T' addr p) \/
  (syscall_page_alloc kernel_end addr k = Ok (-1, k) /\ forall q, ~ free_page (mem k) q) \/
  (syscall_page_alloc kernel_end addr k = Err (Segv (2 ^ 64 - 1)) /\ leaf (mem k) T addr = 0 /\ few_free kernel_end (mem k) 4).
Proof.
  intros H HT Hcan Ha Hpos. change PAGESIZE with 4096 in Ha. destruct (iso_proc _ _ H _ _ HT) as (cur & Hcur & Hsp). unfold syscall_page_alloc.
  destruct (kalloc_spec kernel_end (mem k) (sp_len _ _ _ _ Hsp)) as [(p & Ek & Hf & Hmin)|[Ek Hnone]].
  2:{ right. left. split; [|done]. rewrite (bind_ok _ _ _ _ _ (in_vm_ok _ _ _ _ Ek)). cbn. by destruct k. }
  rewrite (bind_ok _ _ _ _ _ (in_vm_ok _ _ _ _ Ek)). pose proof (allocated_given _ _ _ (sp_len _ _ _ _ Hsp) Hf) as G.
  set (s1 := allocated (mem k) p) in *. clearbody s1. clear Ek.
  destruct (allocatable_range _ p (fp_alloc _ _ _ Hf) (fp_align _ _ _ Hf)) as [P1 P2]. unfold MEMSIZE_PHYSICAL in P2.
  rewrite (proj2 (Z.eqb_neq p 0)) by lia. rewrite bind_gets. cbn [current].
  assert (Eg : get_proc (current k) (mkKernel (ptable k) (current k) (ticks k) s1 (view k)) = Ok (cur, mkKernel (ptable k) (current k) (ticks k) s1 (view k)))
    by (unfold get_proc; cbn [ptable]; by rewrite Hcur).
  rewrite (bind_ok _ _ _ _ _ Eg). destruct (given_space k Ts T cur p H HT Hcur s1 Hf G) as [S1 L1].
  destruct (memory_map_spec kernel_end s1 T (pagetable cur) addr p PTE_PWU S1 Hcan Ha ltac:(lia) (fp_align _ _ _ Hf) ltac:(done) eq_refl)
    as (r & s2 & T' & Em & S2 & X & _ & Hr).
  rewrite (bind_ok _ _ _ _ _ (in_vm_ok _ (mkKernel _ _ _ s1 _) _ _ Em)). cbn [ptable current ticks view].
  pose proof (translate_spec _ _ _ _ _ S2 Hcan Hpos) as Et.
  rewrite (bind_ok _ _ _ _ _ (in_vm_ok _ (mkKernel _ _ _ s2 _) _ _ Et)). cbn [ptable current ticks view].
  destruct Hr as [(-> & _ & L2)|(-> & L2 & Hno & Hfew)].
  - left. change PTE_PWU with 7 in L2. assert (Etr : translation (leaf s2 T' addr) addr = p).
    { rewrite L2, decide_True by done. unfold translation. rewrite entry_flags by first [done|apply Hf]. rewrite entry_page by first [lia|apply Hf].
      rewrite Ha. change (Z.land 7 PTE_P =? 0) with false. cbv iota. lia. }
    rewrite Etr. change PAGESIZE with 4096.
    pose proof (memset_page p 0 s2 P1 P2) as Es. rewrite (bind_ok _ _ _ _ _ (in_vm_ok _ (mkKernel _ _ _ s2 _) _ _ Es)). cbn [ptable current ticks view].
    exists (mkKernel (ptable k) (current k) (ticks k) (cleared p s2) (view k)), T', p. split; [reflexivity|]. split; cbn [mem ptable current ticks view].
    + done.
    + by apply (cleared_isolated k Ts T cur addr p H HT Hcur s1 Hf G s2 T').
    + done.
    + intros q Hq. apply (ex_used _ _ _ _ _ X), (pg_used _ _ _ _ G), Hq.
    + intros t [kt Ek]. destruct (ex_new _ _ _ _ _ X _ _ Ek) as [E'|E']; [left; by exists kt|right].
      destruct (taken (mem k) t) eqn:Etk; [|done]. by rewrite (taken_mono _ _ _ (pg_used _ _ _ _ G) _ Etk) in E'.
    + by apply (cleared_space k Ts T cur addr p H HT Hcur s1 Hf G s2 T').
    + intros a Hpa. by apply page_fill_in.
    + by apply (cleared_bytes k T p s1 Hf G s2 T').
  - right. right. assert (E0 : leaf s1 T addr = 0) by (unfold leaf; by rewrite Hno).
    assert (Etr : translation (leaf s2 T' addr) addr = 2 ^ 64 - 1) by (by rewrite L2, E0).
    rewrite Etr. split; [|split; [by rewrite <- L1|]].
    + apply bind_err, in_vm_err. exact (memset_high (mkKernel (ptable k) (current k) (ticks k) s2 (view k))).
    + destruct Hfew as (Lf & HL & HF). exists (p :: Lf). split; [cbn; lia|]. intros q Hq.
      destruct (decide (q = p)) as [-> |Hne]; [left|right]. apply HF. by apply (pg_free _ _ _ _ G).
Qed.

(** ** System calls and exceptions *)

(** memory_map() accepts page boundaries of canonical addresses only. *)
Lemma memory_map_inv root va pa s r s' : memory_map kernel_end root va pa PTE_PWU s = Ok (r, s') ->
  va_is_canonical va = true /\ va mod 4096 = 0.
Proof.
  unfold memory_map, bind. destruct (new_vmiter root va s) as [[it s1]|] eqn:E; [|done]. unfold new_vmiter, real_find in E. cbn in E.
  unfold try_map, bind. change (PTE_PWU =? 0) with false. rewrite andb_false_r.
  destruct (va_is_canonical va) eqn:Ec.
  - assert (Hva : va_ it = va).
    { unfold down, bind in E. destruct (down_loop _ _ _ _ s) as [[[[l pep] perm] s2]|]; [|done]. destruct (read_pe pep s2) as [[pe s3]|]; [|done].
      case_match; [done|]. unfold ret in E. by injection E as <- <-. }
    rewrite Hva. change PAGESIZE with 4096. destruct (Z.eqb_spec (va mod 4096) 0); [done|]. done.
  - cbn in E. unfold ret, bind in E. cbn in E. injection E as <- <-. cbn [va_ perm_]. change (Z.land (Z.land PTE_PWU (Z.lnot 0)) 7 =? 0) with false.
    unfold c_assert. change (Z.land PTE_PWU PTE_P =? 0) with false. cbn [negb]. unfold bind, ret, fail. repeat case_match; done.
Qed.

Lemma page_alloc_inv k Ts T addr r k' : isolated k Ts -> Ts !! current k = Some T -> 0 <= addr ->
  syscall_page_alloc kernel_end addr k = Ok (r, k') -> (r = -1 /\ k' = k) \/
    (r = 0 /\ va_is_canonical addr = true /\ addr mod 4096 = 0 /\ exists T' p, page_allocated k k' Ts T T' addr p).
Proof.
  intros H HT Hpos E. destruct (decide (va_is_canonical addr = true /\ addr mod 4096 = 0)) as [[Hc Ha]|Hno].
  - destruct (page_alloc_run k Ts T addr H HT Hc Ha Hpos) as [(k1 & T' & p & E1 & Hp)|[[E1 _]|[E1 _]]]; rewrite E in E1; [|by left; injection E1|done].
    right. injection E1 as -> ->. eauto 10.
  - left. destruct (iso_proc _ _ H _ _ HT) as (cur & Hcur & Hsp). unfold syscall_page_alloc in E.
    destruct (kalloc_spec kernel_end (mem k) (sp_len _ _ _ _ Hsp)) as [(p & Ek & Hf & _)|[Ek _]];
      rewrite (bind_ok _ _ _ _ _ (in_vm_ok _ _ _ _ Ek)) in E; [|cbn in E; unfold ret in E; destruct k; by injection E].
    destruct (allocatable_range _ p (fp_alloc _ _ _ Hf) (fp_align _ _ _ Hf)) as [P1 P2].
    rewrite (proj2 (Z.eqb_neq p 0)) in E by lia. exfalso. apply Hno. set (s1 := allocated (mem k) p) in *. clearbody s1.
    unfold bind, gets, get_proc in E. cbn [current ptable] in E. rewrite Hcur in E. unfold in_vm in E. cbn [mem] in E.
    destruct (memory_map _ _ _ _ _ _) as [[x s2]|] eqn:Em; [|done]. by eapply memory_map_inv.
Qed.

Lemma user_page_aligned s T va q : user_maps s T va q -> q mod 4096 = 0.
Proof. intros [_ ->]. rewrite land_pamask. by apply Z.mod_mul. Qed.

(** What a step of the machine leaves alone: the address spaces and the
    private memory of the processes that do not run, and kernel memory. *)
Record undisturbed (k k' : kernel) (Ts Ts' : gmap nat tables) : Prop := {
  ud_space j T va : Ts !! j = Some T -> j <> current k -> Ts' !! j = Some T /\ leaf (mem k') T va = leaf (mem k) T va;
  ud_bytes j T va q a : Ts !! j = Some T -> j <> current k -> user_maps (mem k) T va q -> ~ public q -> q <= a < q + PAGESIZE ->
    byte_at (phys (mem k')) a = byte_at (phys (mem k)) a;
  ud_kernel a : allocatable_physical_address kernel_end (page_start a) = false -> ~ public (page_start a) ->
    byte_at (phys (mem k')) a = byte_at (phys (mem k)) a
}.

Lemma undisturbed_same k k' Ts : mem k' = mem k -> undisturbed k k' Ts Ts.
Proof. intros E. split; rewrite ?E; done. Qed.

Lemma page_alloc_undisturbed k k' Ts T T' addr p : isolated k Ts -> Ts !! current k = Some T ->
  page_allocated k k' Ts T T' addr p -> undisturbed k k' Ts (<[current k := T']> Ts).
Proof.
  intros H HT P. split.
  - intros j Tj va Hj Hne. split; [by rewrite lookup_insert_ne|]. destruct (iso_proc _ _ H _ _ Hj) as (pj & _ & Hsj).
    apply (leaf_same kernel_end (absent := inactive) _ _ _ (pagetable pj)); [|done]. intros a Ha. apply P; [by eapply tables_taken|].
    intros Hin. apply Hne. by apply (iso_tables _ _ H _ _ _ _ _ Hj HT Ha).
  - intros j Tj va q a Hj Hne Hu Hpub Ha. destruct (iso_user _ _ H _ _ _ _ Hj Hu) as [|(_ & Hq & Hno)]; [done|].
    assert (Ep : page_start a = q) by (apply page_start_in; [by eapply user_page_aligned|done]).
    apply P; rewrite Ep; [by apply used_taken|by eapply Hno].
  - intros a Ha _. apply P; [unfold VmProofs.taken; by rewrite Ha, orb_true_r|]. intros Hin.
    by rewrite (iso_alloc _ _ H _ _ _ HT Hin) in Ha.
Qed.

(** The parts of the state that isolation is about. *)
Lemma isolated_ext k k' Ts : isolated k Ts -> ptable k' = ptable k -> current k' = current k -> mem k' = mem k -> isolated k' Ts.
Proof. intros [[] ?] E1 E2 E3. split; [split|]; rewrite ?E1, ?E2, ?E3; done. Qed.

(** Memory without page tables changes, and pages may be taken. *)
Lemma isolated_bytes k Ts s' w : isolated k Ts -> length (pages s') = 512%nat -> (forall q, used (mem k) q = true -> used s' q = true) ->
  (forall i T a, Ts !! i = Some T -> in_tables T (page_start a) -> byte_at (phys s') a = byte_at (phys (mem k)) a) ->
  isolated (mkKernel (ptable k) (current k) (ticks k) s' w) Ts /\ forall i T va, Ts !! i = Some T -> leaf s' T va = leaf (mem k) T va.
Proof.
  intros H Hlen Hu Hb.
  assert (Hs : forall i T, Ts !! i = Some T -> exists p, ptable k !! i = Some p /\ space s' T (pagetable p) /\
            forall va, leaf s' T va = leaf (mem k) T va).
  { intros i T HT. destruct (iso_proc _ _ H _ _ HT) as (p & Eq & Hsp). exists p. split; [done|].
    apply (space_same kernel_end (mem k)); [done|by apply taken_mono|intros a Ha; by apply (Hb i T)|done]. }
  assert (Hm : forall i T va q, Ts !! i = Some T -> user_maps s' T va q -> user_maps (mem k) T va q).
  { intros i T va q HT. destruct (Hs i T HT) as (_ & _ & _ & Hl). unfold user_maps. by rewrite Hl. }
  destruct H as [[I1 I2 I4 I5 I6 I9 I7 I8] I3]. split; [split; [|done]; split; cbn [ptable current mem]; try done|].
  - intros i T HT. destruct (Hs i T HT) as (p & Eq & Hsp & _). by exists p.
  - intros i T va q HT Hq. destruct (I7 i T va q HT (Hm _ _ _ _ HT Hq)) as [|(A1 & A2 & A3)]; [by left|right; auto].
  - intros i j T T1 va va' q HT HT1 U1 U2. eapply I8; [exact HT|exact HT1| |]; by eapply Hm.
  - intros i T va HT. destruct (Hs i T HT) as (_ & _ & _ & Hl). apply Hl.
Qed.

End kernel.
