(* ===== verification/MemUsageProofs.v ===== *)
(** * What memusage records

    The walks of memusage::refresh() over page tables, while it stores to its own
    page: the tables and the user pages of an address space are marked, each
    with the given flags, and nothing else changes. *)
From stdpp Require Import prelude gmap list.
From Stdlib Require Import ZArith Lia.
From S2P Require Import Prelude Memory Lib LibProofs Printer ConsoleProofs Vm VmProofs VmBoot VmIter VmIterProofs KernelState MemViewer Kernel KernelProofs.
Open Scope Z_scope.
Open Scope c_scope.

(** ** What the viewer writes *)

(** Its own page, and the page of the console. *)
Record draws (v : Z) (s s' : vm) : Prop := {
  dr_pages : pages s' = pages s;
  dr_bytes a : page_start a <> v -> page_start a <> CONSOLE_ADDR -> byte_at (phys s') a = byte_at (phys s) a
}.

Lemma draws_refl v s : draws v s s.
Proof. by split. Qed.

Lemma draws_trans v s1 s2 s3 : draws v s1 s2 -> draws v s2 s3 -> draws v s1 s3.
Proof. intros [P1 B1] [P2 B2]. split; [congruence|]. intros a H1 H2. rewrite B2, B1; auto. Qed.

(** Its own page only. *)
Record writes (v : Z) (s s' : vm) : Prop := {
  wr_pages : pages s' = pages s;
  wr_bytes a : page_start a <> v -> byte_at (phys s') a = byte_at (phys s) a
}.

Lemma writes_draws v s s' : writes v s s' -> draws v s s'.
Proof. intros [P B]. split; auto. Qed.

Coercion writes_draws : writes >-> draws.

Lemma writes_refl v s : writes v s s.
Proof. by split. Qed.

Lemma writes_trans v s1 s2 s3 : writes v s1 s2 -> writes v s2 s3 -> writes v s1 s3.
Proof. intros [P1 B1] [P2 B2]. split; [congruence|]. intros a H1. rewrite B2, B1; auto. Qed.

(** A page of tables, apart from both. *)
Definition clear_of (v : Z) (T : tables) : Prop := forall t, in_tables T t -> t <> v /\ t <> CONSOLE_ADDR.

Section usage.
Context (kernel_end : Z).

Lemma space_draws {absent : Z -> Prop} v s s' T root :
  space_with kernel_end (absent := absent) s T root -> clear_of v T -> draws v s s' ->
  space_with kernel_end (absent := absent) s' T root /\ forall va, leaf s' T va = leaf s T va.
Proof.
  intros H Hc [P B]. apply (space_same kernel_end s); [rewrite P; apply H| |intros a Ha; by apply B; apply Hc|done].
  apply taken_mono. intros p. by rewrite (used_pages s' s).
Qed.

(** ** Marks *)

(** A page of memory for the viewer. *)
Record own_page (v : Z) : Prop := { own_align : v mod 4096 = 0; own_low : 4096 <= v; own_high : v + 4096 <= MEMSIZE_PHYSICAL }.

(** The array v_ holds [U]. *)
Definition holds (s : vm) (v : Z) (U : Z -> Z) : Prop :=
  forall i, 0 <= i < 1024 -> bytes_at s (v + 4 * i) (le_split 4 (U i)) /\ 0 <= U i < 2 ^ 32.

(** The pages of [L] are marked with [flags]. *)
Definition marked (L : list Z) (flags : Z) (U : Z -> Z) (i : Z) : Z :=
  if decide (i ∈ (fun pa => pa / 4096) <$> L) then Z.lor (U i) flags else U i.

Lemma marked_nil flags U i : marked [] flags U i = U i.
Proof. unfold marked. rewrite decide_False; [done|]. set_solver. Qed.

Lemma lor_range a b n : 0 <= n -> 0 <= a < 2 ^ n -> 0 <= b < 2 ^ n -> 0 <= Z.lor a b < 2 ^ n.
Proof.
  intros Hn Ha Hb. assert (E : Z.land (Z.lor a b) (Z.ones n) = Z.lor a b) by (by rewrite Z.land_lor_distr_l, !Z.land_ones, !Z.mod_small).
  rewrite <- E, Z.land_ones by done. apply Z.mod_pos_bound. apply Z.pow_pos_nonneg; lia.
Qed.

Lemma marked_cons pa L flags U i : marked L flags (marked [pa] flags U) i = marked (pa :: L) flags U i.
Proof.
  unfold marked. assert (Hl : i ∈ (fun pa => pa / 4096) <$> pa :: L <-> i ∈ (fun pa => pa / 4096) <$> [pa] \/ i ∈ (fun pa => pa / 4096) <$> L) by set_solver.
  repeat case_decide; try tauto. by rewrite <- Z.lor_assoc, Z.lor_diag.
Qed.

Lemma marked_range L flags U i : 0 <= U i < 2 ^ 32 -> 0 <= flags < 2 ^ 32 -> 0 <= marked L flags U i < 2 ^ 32.
Proof. intros HU Hf. unfold marked. case_decide; [|done]. apply lor_range; lia. Qed.

Lemma writes_pokes v a l s : own_page v -> v <= a -> a + Z.of_nat (length l) <= v + 4096 -> writes v s (pokes a l s).
Proof.
  intros [A1 A2 A3] H1 H2. rewrite pokes_vm. split; [done|]. intros b Hb. cbn [phys]. apply byte_at_write_out.
  destruct (decide (v <= b < v + 4096)) as [Hd|Hd]; [|lia]. by rewrite (page_start_in v b A1 Hd) in Hb.
Qed.

Lemma mark_run s v U pa flags :
  own_page v -> holds s v U -> 0 <= pa -> 0 <= flags < 2 ^ 32 ->
  exists s', mark v pa flags s = Ok (tt, s') /\ writes v s s' /\ holds s' v (marked [pa] flags U).
Proof.
  intros Hv HU Hpa Hf. unfold mark, maxpa. change PAGESIZE with 4096. destruct (Z.ltb_spec pa (1024 * 4096)) as [Hlt|Hge].
  - set (i := pa / 4096). assert (Hi : 0 <= i < 1024) by (split; [apply Z.div_pos; lia|apply Z.div_lt_upper_bound; lia]).
    destruct (HU i Hi) as [Hb Hr]. rewrite (bind_ok _ _ _ _ _ (ld32_run _ _ _ Hb Hr)). pose proof (lor_range (U i) flags 32 ltac:(lia) Hr Hf) as Hl.
    assert (Hm : mapped s (v + 4 * i) 4) by (apply bytes_at_mapped in Hb; by rewrite length_le_split in Hb).
    rewrite st32_run by (done || lia). eexists. split; [reflexivity|]. split.
    + apply writes_pokes; [done|lia|rewrite length_le_split; lia].
    + intros j Hj. destruct (HU j Hj) as [Hbj Hrj]. split; [|by apply marked_range]. unfold marked. cbn [fmap list_fmap]. fold i.
      destruct (decide (j = i)) as [->|Hne].
      * rewrite decide_True by left. apply bytes_at_pokes. by rewrite length_le_split.
      * rewrite decide_False by (rewrite elem_of_cons; intros [|Hn]; [done|by apply not_elem_of_nil in Hn]).
        apply bytes_at_pokes_out; [by rewrite length_le_split|done|]. rewrite !length_le_split. lia.
  - exists s. split; [done|]. split; [apply writes_refl|]. intros j Hj. destruct (HU j Hj) as [Hb Hr]. split; [|by apply marked_range].
    unfold marked. cbn [fmap list_fmap]. rewrite decide_False; [done|]. rewrite elem_of_cons. intros [->|Hn]; [|by apply not_elem_of_nil in Hn].
    destruct Hj as [_ Hj]. apply Z.lt_nge in Hj. apply Hj. apply Z.div_le_lower_bound; lia.
Qed.
(** ** Tables *)

(** The pages of [L] up to the first one that [keep] refuses. *)
Fixpoint while (keep : Z -> bool) (L : list Z) : list Z :=
  match L with
  | [] => []
  | t :: L => if keep t then t :: while keep L else []
  end.

Lemma while_app keep L R : (forall t, t ∈ L -> keep t = true) -> (forall t, t ∈ R -> keep t = false) -> while keep (L ++ R) = L.
Proof.
  intros HL HR. induction L as [|t L IH]; cbn [while app].
  - destruct R as [|t R]; [done|]. cbn. by rewrite HR by left.
  - rewrite HL by left. f_equal. apply IH. intros t' Ht'. apply HL. by right.
Qed.

Section tables.
Context {absent : Z -> Prop} `{!Closed absent} (T : tables) (root v flags : Z).
Context (Hv : own_page v) (Hf : 0 <= flags < 2 ^ 32) (Hc : clear_of v T).
Abbreviation space := (space_with kernel_end (absent := absent)).

(** The loop over ptiter marks the pages up to the first one that [more] refuses. *)
Lemma mark_tables_runs more keep todo : 
  (forall it l va t rem, visiting T root it l va t rem -> more it = keep t) -> (forall it, finished it -> more it = false) ->
  forall s U it, space s T root -> holds s v U -> arrives T root it todo ->
  exists s', runs (mark_tables_step v flags more) (length (while keep todo) + 1) it s tt s' /\ writes v s s' /\ 
    holds s' v (marked (while keep todo) flags U).
Proof.
  intros Hkeep Hend. induction todo as [|t todo IH]; intros s U it H HU Ha; cbn [while].
  - exists s. split; [constructor; unfold mark_tables_step; by rewrite Hend|]. split; [apply writes_refl|].
    intros i Hi. rewrite marked_nil. by apply HU.
  - destruct Ha as (l & va & Hvis). destruct (visiting_pa kernel_end s T root H _ _ _ _ _ Hvis) as [_ Ep].
    unfold mark_tables_step at 1. pose proof (Hkeep _ _ _ _ _ Hvis) as Ek. destruct (keep t) eqn:Et.
    + assert (Ht : 0 <= t) by (destruct Hvis as (_ & Ht & _); destruct (sp_page _ _ _ _ H _ _ _ Ht); lia).
      destruct (mark_run s v U t flags Hv HU Ht Hf) as (s1 & E1 & D1 & U1). destruct (space_draws v s s1 T root H Hc D1) as [H1 _].
      destruct (next_arrives kernel_end s1 T root H1 _ _ _ _ _ Hvis) as (it' & En & Ha').
      destruct (IH s1 _ it' H1 U1 Ha') as (s' & Hr & D2 & U2). exists s'. split; [|split; [by eapply writes_trans|]].
      * cbn [length]. eapply runs_step; [|exact Hr]. unfold mark_tables_step.
        by rewrite Ek, (bind_ok _ _ _ _ _ Ep), (bind_ok _ _ _ _ _ E1), (bind_ok _ _ _ _ _ En).
      * intros i Hi. rewrite <- marked_cons. by apply U2.
    + exists s. split; [constructor; unfold mark_tables_step; by rewrite Ek|]. split; [apply writes_refl|].
      intros i Hi. rewrite marked_nil. by apply HU.
Qed.

Lemma while_length keep L : (length (while keep L) <= length L)%nat.
Proof. induction L as [|t L IH]; cbn [while]; [done|]. destruct (keep t); cbn [length]; lia. Qed.

Lemma mark_tables_run more keep s U :
  (forall it l va t rem, visiting T root it l va t rem -> more it = keep t) -> (forall it, finished it -> more it = false) ->
  space s T root -> holds s v U ->
  exists s', mark_tables v flags root more s = Ok (tt, s') /\ writes v s s' /\ holds s' v (marked (while keep (scan T 2 0 512)) flags U).
Proof.
  intros Hkeep Hend H HU. destruct (new_arrives kernel_end s T root H) as (it & En & Ha).
  destruct (mark_tables_runs more keep _ Hkeep Hend s U it H HU Ha) as (s' & Hr & D & U').
  exists s'. split; [|done]. unfold mark_tables. rewrite (bind_ok _ _ _ _ _ En). eapply loopM_runs; [exact Hr|].
  pose proof (while_length keep (scan T 2 0 512)). pose proof (visits_length kernel_end s T root H). lia.
Qed.

(** All tables, as for the kernel. *)
Lemma mark_all_tables s U : space s T root -> holds s v U ->
  exists s', mark_tables v flags root (fun it => negb (ptiter_done it)) s = Ok (tt, s') /\ writes v s s' /\ holds s' v (marked (scan T 2 0 512) flags U).
Proof.
  intros H HU. destruct (mark_tables_run (fun it => negb (ptiter_done it)) (fun _ => true) s U) as (s' & E & D & U'); [|..|done|done|].
  - intros it l va t rem Hvis. by destruct (visiting_pa kernel_end s T root H _ _ _ _ _ Hvis) as [-> _].
  - intros it Hd. by rewrite (finished_done _ Hd).
  - rewrite <- (app_nil_r (scan _ _ _ _)), while_app in U' by (done || set_solver). by exists s'.
Qed.

(** The tables of the lower half, as for processes. *)
Lemma mark_low_tables s U : space s T root -> holds s v U ->
  exists s', mark_tables v flags root (fun it => ptiter_va it <? VA_LOWEND) s = Ok (tt, s') /\ writes v s s' /\ holds s' v (marked (scan T 2 0 256) flags U).
Proof.
  intros H HU.
  destruct (mark_tables_run (fun it => ptiter_va it <? VA_LOWEND) (fun t => bool_decide (t ∈ scan T 2 0 256)) s U) as (s' & E & D & U'); [|..|done|done|].
  - intros it l va t rem Hvis. exact (visiting_low kernel_end s T root H _ _ _ _ _ Hvis).
  - intros it [E1 E2]. unfold ptiter_va. rewrite E1, E2. done.
  - assert (Es : scan T 2 0 512 = scan T 2 0 256 ++ scan T 2 256 256) by (unfold scan; change 512 with (256 + 256); rewrite seqZ_app by lia; apply bind_app).
    pose proof (NoDup_visits kernel_end s T root H) as Hn. rewrite Es in Hn, U'. apply NoDup_app in Hn as (_ & Hn & _).
    rewrite while_app in U'; [by exists s'|by intros t Ht; apply bool_decide_eq_true|]. intros t Ht. apply bool_decide_eq_false. intros Ht'. exact (Hn t Ht' Ht).
Qed.
End tables.
(** ** User pages *)

Section user.
Context (T : tables) (root v flags : Z).
Context (Hv : own_page v) (Hf : 0 <= flags < 2 ^ 32) (Hc : clear_of v T).
Abbreviation space := (VmProofs.space kernel_end).

(** The loop moves on by at least a page. *)
Lemma mark_user_runs m : forall s U it va,
  space s T root -> holds s v U -> positioned T root it va -> va mod 4096 = 0 -> VA_LOWEND - va <= 4096 * Z.of_nat m ->
  exists n s' L, (n <= m + 1)%nat /\ runs (mark_user_step v flags) n it s tt s' /\ writes v s s' /\ holds s' v (marked L flags U) /\
    forall q, q ∈ L <-> exists a, va <= a < VA_LOWEND /\ user_maps s T a q.
Proof.
  induction m as [|m IH]; intros s U it va H HU Hp Ha Hm.
  all: destruct Hp as (Eva & Hva & Hp); destruct (Z.ltb_spec va VA_LOWEND) as [Hlt|Hge].
  1: lia.
  1, 3: exists 1%nat, s, []; split_and!; [lia|constructor; unfold mark_user_step; by rewrite Eva, (proj2 (Z.ltb_ge _ _)) by lia|apply writes_refl| |];
    [intros i Hi; rewrite marked_nil; by apply HU|intros q; split; [by intros ?%elem_of_nil|intros (a & Ha' & _); lia]].
  - destruct (Hp Hlt) as (l & t & Hl & Hb & ->). destruct (user_at kernel_end s T root H va l t Hl Hb) as [Eu Hl0].
    destruct (entry_end va l Hl ltac:(lia)) as (He1 & He2 & He3). set (va' := u64 (Z.lor va (pageoffmask l) + 1)) in *.
    destruct (find_low kernel_end s T root H va l t va' ltac:(lia) Hl Hb ltac:(lia)) as (it' & Ef & Hp').
    assert (Hstep : VA_LOWEND - va' <= 4096 * Z.of_nat m).
    { pose proof (Z.div_mod va 4096 ltac:(lia)). pose proof (Z.div_mod va' 4096 ltac:(lia)). lia. }
    assert (Hhere : forall a, va <= a < va' -> 0 <= a < VA_LOWEND /\ slot a l = slot va l) by (intros a Ha'; split; [lia|auto]).
    destruct (Z.eqb_spec (Z.land (leaf s T va) 5) 5) as [E5|E5].
    + specialize (Hl0 E5) as ->. set (q := Z.land (leaf s T va) PTE_PAMASK).
      assert (Epa : vmiter_pa (at_entry root va t 0) s = Ok (q, s)).
      { rewrite (pa_at kernel_end s T root va 0 t H Hl Hb ltac:(lia)). unfold translation. rewrite Ha, Z.add_0_r.
        destruct (Z.eqb_spec (Z.land (leaf s T va) PTE_P) 0) as [E0|]; [|done]. exfalso.
        apply (f_equal (fun z => Z.land z PTE_P)) in E5. rewrite <- Z.land_assoc in E5. change (Z.land 5 PTE_P) with PTE_P in E5. by rewrite E0 in E5. }
      assert (Hq : 0 <= q) by (unfold q; rewrite land_pamask; pose proof (Z.mod_pos_bound (leaf s T va / 4096) (2 ^ 40) ltac:(lia)); lia).
      destruct (mark_run s v U q flags Hv HU Hq Hf) as (s1 & E1 & D1 & U1). destruct (space_draws v s s1 T root H Hc D1) as [H1 L1].
      destruct (perm_at kernel_end s1 T root va 0 t H1 Hl Hb) as [Eperm _].
      destruct (find_low kernel_end s1 T root H1 va 0 t va' ltac:(lia) Hl Hb ltac:(lia)) as (it1 & Ef1 & Hp1).
      destruct (IH s1 _ it1 va' H1 U1 Hp1 He2 Hstep) as (n & s' & L & Hn & Hr & D2 & U2 & HL).
      exists (S n), s', (q :: L). split_and!; [lia| |by eapply writes_trans|intros i Hi; rewrite <- marked_cons; by apply U2|].
      * eapply runs_step; [|exact Hr]. unfold mark_user_step. cbn [va_ at_entry]. rewrite (proj2 (Z.ltb_lt _ _)) by done.
        rewrite (bind_ok _ _ _ _ _ Eu), (bind_ok _ _ _ _ _ Epa), (bind_ok _ _ _ _ _ E1). unfold vmiter_next.
        rewrite bind_bind, (bind_ok _ _ _ _ _ Eperm). cbn [level_ at_entry va_ Nat.ltb Nat.leb andb]. by rewrite (bind_ok _ _ _ _ _ Ef1).
      * intros x. rewrite elem_of_cons, HL. unfold user_maps. change (Z.lor PTE_P PTE_U) with 5. split.
        -- intros [->|(a & Ha' & Hu)]; [exists va; split; [lia|done]|]. exists a. rewrite <- (L1 a). split; [lia|done].
        -- intros (a & Ha' & Hu & ->). destruct (decide (a < va')) as [Hlt'|Hge'].
           ++ left. destruct (Hhere a ltac:(lia)) as [Hra Es]. by rewrite (leaf_slot s T va a) by (unfold VA_LOWEND in *; lia || done).
           ++ right. exists a. rewrite L1. split; [lia|done].
    + destruct (IH s U it' va' H HU Hp' He2 Hstep) as (n & s' & L & Hn & Hr & D2 & U2 & HL).
      exists (S n), s', L. split_and!; [lia| |done|done|].
      * eapply runs_step; [|exact Hr]. unfold mark_user_step. cbn [va_ at_entry]. rewrite (proj2 (Z.ltb_lt _ _)) by done.
        rewrite (bind_ok _ _ _ _ _ Eu). unfold next_range, last_va. cbn [level_ at_entry va_]. by rewrite (bind_ok _ _ _ _ _ Ef).
      * intros x. rewrite HL. split; [intros (a & Ha' & Hu); exists a; split; [lia|done]|]. intros (a & Ha' & Hu). exists a. split; [|done].
        destruct (decide (a < va')) as [Hlt'|]; [|lia]. destruct (Hhere a ltac:(lia)) as [Hra Es]. exfalso.
        apply (no_user kernel_end s T root H va a l t); try done; [lia|]. apply Hu.
Qed.

Lemma mark_user_run s U : space s T root -> holds s v U ->
  exists s' L, mark_user v flags root s = Ok (tt, s') /\ writes v s s' /\ holds s' v (marked L flags U) /\
    forall q, q ∈ L <-> exists a, 0 <= a < VA_LOWEND /\ user_maps s T a q.
Proof.
  intros H HU. destruct (positioned_new kernel_end s T root H 0 ltac:(done)) as (it & En & Hp).
  destruct (mark_user_runs (Z.to_nat (2 ^ 35)) s U it 0 H HU Hp eq_refl ltac:(unfold VA_LOWEND; lia)) as (n & s' & L & Hn & Hr & D & U' & HL).
  exists s', L. split; [|done]. unfold mark_user. rewrite (bind_ok _ _ _ _ _ En). eapply loopM_runs; [exact Hr|lia].
Qed.
End user.
(** ** memusage::refresh() *)

Section refresh.
Context (kernel_pagetable : Z) (k : kernel) (Ts : gmap nat tables) (Tk : tables) (v : Z).

(** A state in which the viewer has its own page. *)
Record watched (s : vm) : Prop := {
  wt_space j T : Ts !! j = Some T -> exists p, ptable k !! j = Some p /\ VmProofs.space kernel_end s T (pagetable p);
  wt_started j p : ptable k !! j = Some p -> state p <> P_FREE -> is_Some (Ts !! j);
  wt_clear j T : Ts !! j = Some T -> clear_of v T;
  wt_alloc j T t : Ts !! j = Some T -> in_tables T t -> allocatable_physical_address kernel_end t = true;
  wt_kernel : space_with kernel_end (absent := closed) s Tk kernel_pagetable;
  wt_kclear : clear_of v Tk;
  wt_kalloc t : in_tables Tk t -> allocatable_physical_address kernel_end t = false;
  wt_own : own_page v
}.

Lemma watched_draws s s' : watched s -> draws v s s' -> watched s'.
Proof.
  intros W D. pose proof W as [W1 W2 W3 W4 W5 W6 W7 W8]. split; try done.
  - intros j T Hj. destruct (W1 j T Hj) as (p & Ep & Hp). exists p. split; [done|]. by apply (space_draws v s s' T (pagetable p) Hp (W3 j T Hj)).
  - by apply (space_draws v s s' Tk kernel_pagetable W5 W6).
Qed.

(** What the process [j] adds to the flags of page [x]. *)
Definition process_flag (s : vm) (j : nat) (x b : Z) : Prop :=
  exists T p, Ts !! j = Some T /\ ptable k !! j = Some p /\ state p <> P_FREE /\
    ((exists t, (t = pagetable p \/ t ∈ scan T 2 0 256) /\ x = t / 4096 /\ Z.testbit (Z.lor f_kernel (f_process (Z.of_nat j))) b = true) \/
     (exists a q, 0 <= a < VA_LOWEND /\ user_maps s T a q /\ x = q / 4096 /\ Z.testbit (Z.lor f_user (f_process (Z.of_nat j))) b = true)).

Lemma process_flag_draws s s' j x b : watched s -> draws v s s' -> process_flag s' j x b <-> process_flag s j x b.
Proof.
  intros W D. unfold process_flag.
  assert (L : forall T, Ts !! j = Some T -> forall a q, user_maps s' T a q <-> user_maps s T a q).
  { intros T HT a q. destruct (wt_space s W j T HT) as (p & _ & Hp). destruct (space_draws v s s' T (pagetable p) Hp (wt_clear s W j T HT) D) as [_ L].
    unfold user_maps. by rewrite L. }
  split; intros (T & p & HT & Hp & Hs & Hor); exists T, p; (split_and!; [done..|]); (destruct Hor as [Ht|(a & q & Ha & Hu & Hb)]; [by left|right]);
    exists a, q; (split; [done|]); (split; [by apply (L T HT)|done]).
Qed.

Lemma marked_bit L flags U x b : 0 <= b ->
  Z.testbit (marked L flags U x) b = true <-> Z.testbit (U x) b = true \/ ((exists pa, pa ∈ L /\ x = pa / 4096) /\ Z.testbit flags b = true).
Proof.
  intros Hb. unfold marked. assert (HL : x ∈ (fun pa => pa / 4096) <$> L <-> exists pa, pa ∈ L /\ x = pa / 4096) by (rewrite list_elem_of_fmap; naive_solver).
  case_decide as Hd.
  - rewrite Z.lor_spec, orb_true_iff. tauto.
  - tauto.
Qed.

Lemma ex_singleton (x t : Z) : (exists pa, pa ∈ [t] /\ x = pa / 4096) <-> x = t / 4096.
Proof. split; [intros (pa & Hpa & ->); by apply list_elem_of_singleton in Hpa as ->|intros ->; exists t; by rewrite list_elem_of_singleton]. Qed.

Lemma f_process_range j : 0 <= f_process j < 2 ^ 32.
Proof. unfold f_process. repeat case_match; try apply wrapU_range; lia. Qed.

Lemma process_flags_range fl j : 0 <= fl < 2 ^ 32 -> 0 <= Z.lor fl (f_process j) < 2 ^ 32.
Proof. intros Hf. apply lor_range; [lia|done|apply f_process_range]. Qed.

Definition with_mem (s : vm) : kernel := mkKernel (ptable k) (current k) (ticks k) s (view k).

(** One process that is not free. *)
Lemma mark_process s U j T p : watched s -> holds s v U -> Ts !! j = Some T -> ptable k !! j = Some p -> state p <> P_FREE ->
  let process := f_process (Z.of_nat j) in
  exists s1 s2 s3 U', mark_tables v (Z.lor f_kernel process) (pagetable p) (fun it => ptiter_va it <? VA_LOWEND) s = Ok (tt, s1) /\
    mark v (pagetable p) (Z.lor f_kernel process) s1 = Ok (tt, s2) /\ mark_user v (Z.lor f_user process) (pagetable p) s2 = Ok (tt, s3) /\
    writes v s s3 /\ holds s3 v U' /\
    forall x b, 0 <= b -> Z.testbit (U' x) b = true <-> Z.testbit (U x) b = true \/ process_flag s j x b.
Proof.
  intros W HU HT Hp Hs process. destruct (wt_space s W j T HT) as (p' & Ep & H). rewrite Hp in Ep. injection Ep as <-.
  pose proof (wt_clear s W j T HT) as Hc. pose proof (wt_own s W) as Hv. unfold process.
  assert (F1 := process_flags_range f_kernel (Z.of_nat j) ltac:(done)). assert (F2 := process_flags_range f_user (Z.of_nat j) ltac:(done)).
  destruct (mark_low_tables T (pagetable p) v _ Hv F1 Hc s U H HU) as (s1 & E1 & D1 & U1). destruct (space_draws v s s1 T _ H Hc D1) as [H1 L1].
  assert (Hroot : 0 <= pagetable p) by (destruct (sp_page _ _ _ _ H _ _ _ (sp_root _ _ _ _ H)); lia).
  destruct (mark_run s1 v _ (pagetable p) _ Hv U1 Hroot F1) as (s2 & E2 & D2 & U2). destruct (space_draws v s1 s2 T _ H1 Hc D2) as [H2 L2].
  destruct (mark_user_run T (pagetable p) v _ Hv F2 Hc s2 _ H2 U2) as (s3 & L & E3 & D3 & U3 & HL).
  eexists s1, s2, s3, _. split_and!; [exact E1|exact E2|exact E3|by eapply writes_trans; [exact D1|eapply writes_trans]|exact U3|].
  intros x b Hb. rewrite !marked_bit by done. unfold process_flag. split.
  - intros [[[HUx|[(pa & Hpa & ->) Hfl]]|[(pa & Hpa & ->) Hfl]]|[(q & Hq & ->) Hfl]]; [by left|right; exists T, p; split_and!; [done..|]|right; exists T, p; split_and!; [done..|]|right; exists T, p; split_and!; [done..|]].
    + left. exists pa. split; [by right|done].
    + left. exists pa. apply list_elem_of_singleton in Hpa. split; [by left|done].
    + right. apply HL in Hq as (a & Ha & Hu). exists a, q. split; [done|]. split; [|done]. unfold user_maps in *. by rewrite <- L1, <- L2.
  - intros [HUx|(T' & p' & HT' & Hp' & _ & [(t & [->|Ht] & -> & Hfl)|(a & q & Ha & Hu & -> & Hfl)])]; simplify_eq.
    + do 3 left. done.
    + left. right. split; [exists (pagetable p); by rewrite list_elem_of_singleton|done].
    + do 2 left. right. split; [by exists t|done].
    + right. split; [|done]. exists q. split; [|done]. apply HL. exists a. split; [done|]. unfold user_maps in *. by rewrite L2, L1.
Qed.

Lemma in_vm_with {A} (m : M vm A) s a s' : m s = Ok (a, s') -> in_vm m (with_mem s) = Ok (a, with_mem s').
Proof. intros E. unfold in_vm, with_mem. cbn [mem ptable current ticks view]. by rewrite E. Qed.

Lemma mark_processes_run n : forall i any s U, (i + n = 16)%nat -> length (ptable k) = 16%nat -> watched s -> holds s v U ->
  exists s' U' any', mark_processes kernel_pagetable v n i any (with_mem s) = Ok (any', with_mem s') /\ writes v s s' /\ holds s' v U' /\
    (forall x b, 0 <= b -> Z.testbit (U' x) b = true <-> Z.testbit (U x) b = true \/ exists j, (i <= j < 16)%nat /\ process_flag s j x b) /\
    ((any = true \/ exists j p, (i <= j)%nat /\ ptable k !! j = Some p /\ state p <> P_FREE) -> any' = true).
Proof.
  induction n as [|n IH]; intros i any s U Hi Hlen W HU; cbn [mark_processes].
  - exists s, U, any. split_and!; [done|apply writes_refl|done| |].
    + intros x b _. split; [auto|]. intros [|(j & Hj & _)]; [done|lia].
    + intros [|(j & p & Hj & Hp & _)]; [done|]. apply lookup_lt_Some in Hp. lia.
  - destruct (lookup_lt_is_Some_2 (ptable k) i ltac:(lia)) as [p Hp].
    assert (Eg : get_proc i (with_mem s) = Ok (p, with_mem s)) by (unfold get_proc; cbn [with_mem ptable]; by rewrite Hp).
    rewrite (bind_ok _ _ _ _ _ Eg). destruct (Z.eqb_spec (state p) P_FREE) as [Hfree|Hfree]; cbn [negb andb].
    + destruct (IH (S i) any s U ltac:(lia) Hlen W HU) as (s' & U' & any' & E & D & HU' & Hbit & Hany). exists s', U', any'.
      split_and!; [done..| |].
      * intros x b Hb. rewrite Hbit by done. split; (intros [|(j & Hj & Hfl)]; [by left|right]); exists j; (split; [|done]); [lia|].
        destruct (decide (j = i)) as [->|]; [|lia]. destruct Hfl as (T & p' & _ & Hp' & Hs & _). by rewrite Hp in Hp'; simplify_eq.
      * intros [->|(j & p' & Hj & Hp' & Hs)]; apply Hany; [by left|right]. exists j, p'. split; [|done].
        destruct (decide (j = i)) as [->|]; [by rewrite Hp in Hp'; simplify_eq|lia].
    + destruct (wt_started s W i p Hp Hfree) as [T HT]. destruct (wt_space s W i T HT) as (p' & Ep & H). rewrite Hp in Ep. injection Ep as <-.
      pose proof (sp_root _ _ _ _ H) as Hroot. destruct (sp_page _ _ _ _ H _ _ _ Hroot) as (_ & Hr & _).
      assert (Hne : pagetable p <> kernel_pagetable).
      { intros E. pose proof (wt_alloc s W i T _ HT ltac:(by eexists)) as Ha. rewrite E in Ha.
        by rewrite (wt_kalloc s W kernel_pagetable ltac:(exists (3%nat, 0); apply (sp_root _ _ _ _ (wt_kernel s W)))) in Ha. }
      rewrite (proj2 (Z.eqb_neq (pagetable p) 0)), (proj2 (Z.eqb_neq _ _) Hne) by lia. cbn [negb andb].
      destruct (mark_process s U i T p W HU HT Hp Hfree) as (s1 & s2 & s3 & U1 & E1 & E2 & E3 & D1 & HU1 & Hbit1).
      rewrite (bind_ok _ _ _ _ _ (in_vm_with _ _ _ _ E1)), (bind_ok _ _ _ _ _ (in_vm_with _ _ _ _ E2)), (bind_ok _ _ _ _ _ (in_vm_with _ _ _ _ E3)).
      destruct (IH (S i) true s3 U1 ltac:(lia) Hlen (watched_draws _ _ W D1) HU1) as (s' & U' & any' & E & D & HU' & Hbit & Hany).
      exists s', U', any'. split_and!; [done|by eapply writes_trans|done| |intros _; apply Hany; by left].
      intros x b Hb. rewrite Hbit, Hbit1 by done. split.
      * intros [[HUx|Hfl]|(j & Hj & Hfl)]; [by left|right; exists i; split; [lia|done]|right; exists j; split; [lia|]]. by apply (process_flag_draws s s3 _ _ _ W D1).
      * intros [HUx|(j & Hj & Hfl)]; [by do 2 left|]. destruct (decide (j = i)) as [->|]; [left; by right|right]. exists j. split; [lia|].
        by apply (process_flag_draws s s3 _ _ _ W D1).
Qed.
(** The flags of page [x] say who uses it. *)
Definition recorded (s : vm) (U : Z -> Z) : Prop := forall x b, 0 <= b ->
  Z.testbit (U x) b = true <->
  (exists t, (t = kernel_pagetable \/ t ∈ scan Tk 2 0 512 \/ t = v) /\ x = t / 4096 /\ Z.testbit f_kernel b = true) \/
  (exists j, (1 <= j < 16)%nat /\ process_flag s j x b).

Lemma cleared_marks s : own_page v -> exists s', Vm.memset v 0 (maxpa / PAGESIZE * 4) s = Ok (tt, s') /\ writes v s s' /\ holds s' v (fun _ => 0).
Proof.
  intros [A1 A2 A3]. eexists. split; [exact (memset_page v 0 s A2 A3)|]. split.
  - split; [done|]. intros a Ha. cbn [phys]. apply page_fill_out. destruct (decide (v <= a < v + 4096)) as [Hd|]; [|lia].
    by rewrite (page_start_in v a A1 Hd) in Ha.
  - intros i Hi. split; [|lia]. intros j b Hj. pose proof (lookup_lt_Some _ _ _ Hj) as Hl. rewrite length_le_split in Hl.
    assert (b = 0) as -> by (do 4 (destruct j as [|j]; [by injection Hj|]); lia).
    cbn [peek vm_bytes phys]. unfold kernel_can_access, MEMSIZE_PHYSICAL in *. change PAGESIZE with 4096.
    rewrite (proj2 (Z.leb_le _ _)), (proj2 (Z.leb_le _ _)) by lia. cbn [andb]. by rewrite page_fill_in by lia.
Qed.

Lemma refresh_marks_run s : length (ptable k) = 16%nat -> watched s ->
  (exists j p, (1 <= j)%nat /\ ptable k !! j = Some p /\ state p <> P_FREE) ->
  exists s' U, refresh_marks kernel_pagetable v (with_mem s) = Ok (tt, with_mem s') /\ writes v s s' /\ holds s' v U /\ recorded s U.
Proof.
  intros Hlen W Hact. pose proof (wt_own s W) as Hv. destruct (cleared_marks s Hv) as (s1 & E1 & D1 & U1).
  pose proof (watched_draws _ _ W D1) as W1. pose proof (wt_kernel s1 W1) as K1.
  destruct (mark_all_tables (absent := closed) Tk kernel_pagetable v f_kernel Hv ltac:(done) (wt_kclear s1 W1) s1 _ K1 U1) as (s2 & E2 & D2 & U2).
  assert (Hroot : 0 <= kernel_pagetable) by (destruct (sp_page _ _ _ _ K1 _ _ _ (sp_root _ _ _ _ K1)); lia).
  destruct (mark_run s2 v _ kernel_pagetable f_kernel Hv U2 Hroot ltac:(done)) as (s3 & E3 & D3 & U3).
  assert (D13 : writes v s s3) by exact (writes_trans _ _ _ _ D1 (writes_trans _ _ _ _ D2 D3)).
  destruct (mark_processes_run 15 1 false s3 _ eq_refl Hlen (watched_draws _ _ W D13) U3) as (s4 & U4 & any & E4 & D4 & HU4 & Hbit & Hany).
  assert (any = true) as -> by (apply Hany; by right).
  destruct (mark_run s4 v U4 v f_kernel Hv HU4 ltac:(destruct Hv; lia) ltac:(done)) as (s5 & E5 & D5 & U5).
  exists s5, (marked [v] f_kernel U4). split_and!; [|exact (writes_trans _ _ _ _ D13 (writes_trans _ _ _ _ D4 D5))|done|].
  - unfold refresh_marks. change (Z.to_nat (NPROC - 1)) with 15%nat.
    rewrite (bind_ok _ _ _ _ _ (in_vm_with _ _ _ _ E1)), (bind_ok _ _ _ _ _ (in_vm_with _ _ _ _ E2)), (bind_ok _ _ _ _ _ (in_vm_with _ _ _ _ E3)).
    rewrite (bind_ok _ _ _ _ _ E4). cbn [negb]. rewrite bind_ret. exact (in_vm_with _ _ _ _ E5).
  - intros x b Hb. rewrite marked_bit, Hbit, !marked_bit, Z.bits_0 by done. rewrite !ex_singleton.
    assert (Hp : (exists j, (1 <= j < 16)%nat /\ process_flag s3 j x b) <-> exists j, (1 <= j < 16)%nat /\ process_flag s j x b).
    { split; intros (j & Hj & Hfl); exists j; (split; [done|]); by apply (process_flag_draws s s3 _ _ _ W D13). }
    rewrite Hp. split.
    + intros [[[[Hno|[(t & Ht & ->) Hf]]|[-> Hf]]|Hj]|[-> Hf]]; [done|left; exists t; auto|left; eauto 6|by right|left; eauto 6].
    + intros [(t & [->|[Ht| ->]] & -> & Hf)|Hj]; [left; left; by right|do 3 left; right; eauto|by right|left; by right].
Qed.
End refresh.
End usage.
