(* ===== verification/ViewerProofs.v ===== *)
(** * The picture of memory

    In a state with isolated processes memusage::symbol_at() finds no error, and
    the symbol of a page says what the page is for; memshow() draws these symbols
    on the console and changes nothing but the console and its own page. *)
From stdpp Require Import prelude gmap list.
From Stdlib Require Import ZArith Lia String.
From S2P Require Import Prelude Memory Lib LibProofs Printer PrinterProofs ConsoleProofs Vm VmProofs VmBoot VmIter VmIterProofs KernelState MemViewer Kernel KernelProofs MemUsageProofs.
Open Scope Z_scope.
Open Scope c_scope.

Local Abbreviation length := Datatypes.length.

(** ** What a page is for *)

Inductive role := Console | Reserved | Kernel_page | Viewer_page | Table_of (j : nat) | Page_of (j : nat) | Nobody.

Definition name_of (j : nat) : Z := nth j names 0.
Definition color_of (j : nat) : Z := Z.shiftl (nth (j mod 5) colors 0) 8.

(** The symbol of a page, a character and its colors. *)
Definition role_symbol (r : role) : Z :=
  match r with
  | Console => 0x0743
  | Reserved => 0x0752
  | Kernel_page | Viewer_page => 0x0D4B
  | Table_of j => Z.lor (Z.lor (color_of j) 0x4000) (name_of j)
  | Page_of j => Z.lor (color_of j) (name_of j)
  | Nobody => 0x072E
  end.

Lemma bits_eq x y : (forall b, 0 <= b -> Z.testbit x b = true <-> Z.testbit y b = true) -> x = y.
Proof. intros H. apply Z.bits_inj'. intros b Hb. apply eq_true_iff_eq. auto. Qed.

Section view.
Context (kernel_end kernel_pagetable : Z).

Section role.
Context (k : kernel) (Ts : gmap nat tables) (Tk : tables) (v : Z) (s : vm).

(** The process [j] is there, with the tables [T]. *)
Definition active (j : nat) (T : tables) (p : proc) : Prop :=
  (1 <= j < 16)%nat /\ Ts !! j = Some T /\ ptable k !! j = Some p /\ state p <> P_FREE.

Definition table_of (j : nat) (y : Z) : Prop := exists T p, active j T p /\ (y = pagetable p \/ y ∈ scan T 2 0 256).
Definition page_of (j : nat) (y : Z) : Prop := exists T p a, active j T p /\ 0 <= a < VA_LOWEND /\ user_maps s T a y.

Definition has_role (y : Z) (r : role) : Prop :=
  match r with
  | Console => y = CONSOLE_ADDR
  | Reserved => reserved_physical_address y = true /\ y <> CONSOLE_ADDR
  | Kernel_page => reserved_physical_address y = false /\ allocatable_physical_address kernel_end y = false
  | Viewer_page => y = v
  | Table_of j => table_of j y
  | Page_of j => y <> CONSOLE_ADDR /\ page_of j y
  | Nobody => allocatable_physical_address kernel_end y = true /\ y <> v /\ forall j, ~ table_of j y /\ ~ page_of j y
  end.

(** Processes and the viewer have pages of their own. *)
Record viewer_apart : Prop := {
  ap_watched : watched kernel_end kernel_pagetable k Ts Tk v s;
  ap_space j T : Ts !! j = Some T -> exists p, ptable k !! j = Some p /\ VmProofs.space kernel_end s T (pagetable p);
  ap_tables i j T T' t : Ts !! i = Some T -> Ts !! j = Some T' -> in_tables T t -> in_tables T' t -> i = j;
  ap_user i T va q : Ts !! i = Some T -> user_maps s T va q -> public q \/
    (allocatable_physical_address kernel_end q = true /\ forall j T', Ts !! j = Some T' -> ~ in_tables T' q);
  ap_private i j T T' va va' q : Ts !! i = Some T -> Ts !! j = Some T' -> user_maps s T va q -> user_maps s T' va' q -> public q \/ i = j;
  ap_viewer : allocatable_physical_address kernel_end v = true /\ forall i T va, Ts !! i = Some T -> ~ user_maps s T va v
}.

Context (A : viewer_apart) (U : Z -> Z) (HU : holds s v U) (R : recorded kernel_pagetable k Ts Tk v s U).

Lemma table_in j T p y : active j T p -> y = pagetable p \/ y ∈ scan T 2 0 256 -> in_tables T y.
Proof.
  intros (_ & HT & Hp & _) Hy. destruct (ap_space A j T HT) as (p' & Ep & H). rewrite Hp in Ep. injection Ep as <-. destruct Hy as [->|Hy].
  - eexists. apply (sp_root _ _ _ _ H).
  - apply (elem_scan kernel_end s T (pagetable p) H) in Hy as (l & c & _ & _ & Hy); [|lia]. by eexists.
Qed.

Lemma table_aligned j y : table_of j y -> y mod 4096 = 0 /\ allocatable_physical_address kernel_end y = true /\ y <> v.
Proof.
  intros (T & p & Hact & Hy). pose proof (table_in j T p y Hact Hy) as Hin. pose proof Hact as (_ & HT & Hp & _).
  destruct (ap_space A j T HT) as (p' & Ep & H). destruct Hin as [[l c] Hin]. split; [apply (sp_page _ _ _ _ H _ _ _ Hin)|].
  split; [apply (wt_alloc _ _ _ _ _ _ _ (ap_watched A) j T y HT); by eexists|]. apply (wt_clear _ _ _ _ _ _ _ (ap_watched A) j T HT). by eexists.
Qed.

Lemma kernel_table t : t = kernel_pagetable \/ t ∈ scan Tk 2 0 512 -> in_tables Tk t /\ t mod 4096 = 0.
Proof.
  pose proof (wt_kernel _ _ _ _ _ _ _ (ap_watched A)) as K. intros [->|Ht].
  - split; [eexists; apply (sp_root _ _ _ _ K)|]. apply (sp_page _ _ _ _ K _ _ _ (sp_root _ _ _ _ K)).
  - apply (elem_scan kernel_end s Tk kernel_pagetable K) in Ht as (l & c & _ & _ & Ht); [|lia]. split; [by eexists|]. apply (sp_page _ _ _ _ K _ _ _ Ht).
Qed.

Lemma page_index y t : y mod 4096 = 0 -> t mod 4096 = 0 -> y / 4096 = t / 4096 -> y = t.
Proof. intros Hy Ht E. pose proof (Z.div_mod y 4096 ltac:(lia)). pose proof (Z.div_mod t 4096 ltac:(lia)). lia. Qed.

(** The flags of a page, by its uses. *)
Lemma flag_bits y b : y mod 4096 = 0 -> 0 <= b ->
  Z.testbit (U (y / 4096)) b = true <->
  ((y = v \/ in_tables Tk y /\ (y = kernel_pagetable \/ y ∈ scan Tk 2 0 512)) /\ Z.testbit f_kernel b = true) \/
  (exists j, table_of j y /\ Z.testbit (Z.lor f_kernel (f_process (Z.of_nat j))) b = true) \/
  (exists j, page_of j y /\ Z.testbit (Z.lor f_user (f_process (Z.of_nat j))) b = true).
Proof.
  intros Hy Hb. rewrite (R (y / 4096) b Hb). pose proof (own_align _ (wt_own _ _ _ _ _ _ _ (ap_watched A))) as Hva. split.
  - intros [(t & Ht & E & Hf)|(j & Hj & T & p & HT & Hp & Hs & [(t & Ht & E & Hf)|(a & q & Ha & Hu & E & Hf)])].
    + left. split; [|done]. destruct Ht as [Ht|[Ht| ->]]; [| |left; by apply page_index]; right.
      * destruct (kernel_table t (or_introl Ht)) as [Hi Hm]. rewrite (page_index y t) by done. auto.
      * destruct (kernel_table t (or_intror Ht)) as [Hi Hm]. rewrite (page_index y t) by done. auto.
    + right. left. exists j. split; [|done]. exists T, p. split; [done|]. rewrite (page_index y t); [done|done| |done].
      destruct (ap_space A j T HT) as (p' & Ep & H). destruct (table_in j T p t ltac:(done) Ht) as [[l c] Hin]. apply (sp_page _ _ _ _ H _ _ _ Hin).
    + right. right. exists j. split; [|done]. exists T, p, a. split; [done|]. split; [done|].
      by rewrite (page_index y q Hy (user_page_aligned _ _ _ _ Hu) E).
  - intros [[Ht Hf]|[(j & (T & p & (Hj & HT & Hp & Hs) & Hy') & Hf)|(j & (T & p & a & (Hj & HT & Hp & Hs) & Ha & Hu) & Hf)]].
    + left. exists y. split; [|done]. tauto.
    + right. exists j. split; [done|]. exists T, p. split_and!; [done..|]. left. by exists y.
    + right. exists j. split; [done|]. exists T, p. split_and!; [done..|]. right. by exists a, y.
Qed.
(** A page has one use only. *)
Lemma table_one i j y : table_of i y -> table_of j y -> i = j.
Proof.
  intros (T & p & Hi & Hy) (T' & p' & Hj & Hy'). apply (ap_tables A i j T T' y); [apply Hi|apply Hj|by eapply table_in..].
Qed.

Lemma table_not_page i j y : table_of i y -> ~ page_of j y.
Proof.
  intros Ht (T' & p' & a & Hj & _ & Hu). destruct (table_aligned i y Ht) as (_ & Hal & _). destruct Ht as (T & p & Hi & Hy).
  destruct (ap_user A j T' a y ltac:(apply Hj) Hu) as [->|[_ Hno]]; [done|]. apply (Hno i T ltac:(apply Hi)). by eapply table_in.
Qed.

Lemma page_one i j y : y <> CONSOLE_ADDR -> page_of i y -> page_of j y -> i = j.
Proof.
  intros Hy (T & p & a & Hi & _ & Hu) (T' & p' & a' & Hj & _ & Hu').
  by destruct (ap_private A i j T T' a a' y ltac:(apply Hi) ltac:(apply Hj) Hu Hu') as [->|].
Qed.

Lemma page_alloc j y : y <> CONSOLE_ADDR -> page_of j y -> allocatable_physical_address kernel_end y = true /\ y <> v.
Proof.
  intros Hy (T & p & a & Hj & _ & Hu). split; [by destruct (ap_user A j T a y ltac:(apply Hj) Hu) as [->|[Ha _]]|].
  intros ->. by apply (proj2 (ap_viewer A) j T a); [apply Hj|].
Qed.

Lemma kernel_not_alloc y : in_tables Tk y -> allocatable_physical_address kernel_end y = true -> False.
Proof. intros Hi Ha. by rewrite (wt_kalloc _ _ _ _ _ _ _ (ap_watched A) y Hi) in Ha. Qed.

(** The flags that a role leaves. *)
Definition role_flags (r : role) : Z :=
  match r with
  | Viewer_page => f_kernel
  | Table_of j => Z.lor f_kernel (f_process (Z.of_nat j))
  | Page_of j => Z.lor f_user (f_process (Z.of_nat j))
  | _ => 0
  end.

Lemma flags_viewer : U (v / 4096) = f_kernel.
Proof.
  apply bits_eq. intros b Hb. rewrite flag_bits by (done || apply (own_align _ (wt_own _ _ _ _ _ _ _ (ap_watched A)))).
  split; [|intros Hf; left; auto]. intros [[_ Hf]|[(j & Ht & _)|(j & (T & p & a & Hj & _ & Hu) & _)]]; [done| |].
  - by destruct (table_aligned j v Ht) as (_ & _ & []).
  - by destruct (proj2 (ap_viewer A) j T a ltac:(apply Hj)).
Qed.

Lemma flags_table j y : table_of j y -> U (y / 4096) = role_flags (Table_of j).
Proof.
  intros Ht. destruct (table_aligned j y Ht) as (Hy & Hal & Hv). apply bits_eq. intros b Hb. rewrite flag_bits by done. split.
  - intros [[[?|[Hk _]] _]|[(i & Hi & Hf)|(i & Hi & _)]]; [done|by destruct (kernel_not_alloc y)| |by destruct (table_not_page j i y)].
    by rewrite (table_one j i y) by done.
  - intros Hf. right. left. by exists j.
Qed.

Lemma flags_page j y : y <> CONSOLE_ADDR -> page_of j y -> U (y / 4096) = role_flags (Page_of j).
Proof.
  intros Hne Hp. destruct (page_alloc j y Hne Hp) as [Hal Hv].
  assert (Hy : y mod 4096 = 0) by (destruct Hp as (T & p & a & _ & _ & Hu); by eapply user_page_aligned).
  apply bits_eq. intros b Hb. rewrite flag_bits by done. split.
  - intros [[[?|[Hk _]] _]|[(i & Hi & _)|(i & Hi & Hf)]]; [done|by destruct (kernel_not_alloc y)|by destruct (table_not_page i j y)|].
    by rewrite (page_one j i y) by done.
  - intros Hf. right. right. by exists j.
Qed.

Lemma flags_nobody y : y mod 4096 = 0 -> has_role y Nobody -> U (y / 4096) = 0.
Proof.
  intros Hy (Hal & Hv & Hno). apply bits_eq. intros b Hb. rewrite flag_bits, Z.bits_0 by done. split; [|done].
  intros [[[?|[Hk _]] _]|[(i & Hi & _)|(i & Hi & _)]]; [done|by destruct (kernel_not_alloc y)|by destruct (Hno i)..].
Qed.

(** Processes have no other page but the console. *)
Lemma flags_kernel y : y mod 4096 = 0 -> y <> CONSOLE_ADDR -> allocatable_physical_address kernel_end y = false -> 0 <= U (y / 4096) <= 1.
Proof.
  intros Hy Hne Hal. assert (Hf : U (y / 4096) = if Z.testbit (U (y / 4096)) 0 then 1 else 0); [|rewrite Hf; case_match; lia].
  apply bits_eq. intros b Hb. destruct (decide (b = 0)) as [->|Hb0]; [by destruct (Z.testbit _ 0)|].
  assert (Hn : ~ Z.testbit (U (y / 4096)) b = true).
  { rewrite flag_bits by done. intros [[_ Hf]|[(i & Hi & _)|(i & Hi & _)]].
    - unfold f_kernel in Hf. by rewrite (Z.bits_above_log2 1 b) in Hf by (cbn; lia).
    - destruct (table_aligned i y Hi) as (_ & Ha & _). congruence.
    - destruct (page_alloc i y Hne Hi) as [Ha _]. congruence. }
  split; [done|]. intros Hf. exfalso. destruct (Z.testbit _ 0); [rewrite Z.bits_above_log2 in Hf by (cbn; lia)|rewrite Z.bits_0 in Hf]; done.
Qed.

(** Every page has a role. *)
Lemma role_total y : y mod 4096 = 0 -> exists r, has_role y r.
Proof.
  intros Hy. destruct (decide (y = CONSOLE_ADDR)) as [->|Hne]; [by exists Console|].
  destruct (reserved_physical_address y) eqn:Er; [by exists Reserved|].
  destruct (allocatable_physical_address kernel_end y) eqn:Ea; [|by exists Kernel_page].
  destruct (decide (y = v)) as [->|Hv]; [by exists Viewer_page|].
  destruct (Z.testbit (U (y / 4096)) 0) eqn:E0.
  - apply flag_bits in E0 as [[[?|[Hk _]] _]|[(j & Hj & _)|(j & Hj & _)]]; [done|by destruct (kernel_not_alloc y)|by exists (Table_of j)|by exists (Page_of j)|done|lia].
  - destruct (Z.testbit (U (y / 4096)) 1) eqn:E1.
    + apply flag_bits in E1 as [[[?|[Hk _]] _]|[(j & Hj & _)|(j & Hj & _)]]; [done|by destruct (kernel_not_alloc y)|by exists (Table_of j)|by exists (Page_of j)|done|lia].
    + exists Nobody. split_and!; [done..|]. intros j. split; intros Hj.
      * assert (Hf : Z.testbit (U (y / 4096)) 0 = true); [|by rewrite Hf in E0]. apply flag_bits; [done|lia|]. right. left. exists j. split; [done|].
        by rewrite Z.lor_spec.
      * assert (Hf : Z.testbit (U (y / 4096)) 1 = true); [|by rewrite Hf in E1]. apply flag_bits; [done|lia|]. right. right. exists j. split; [done|].
        by rewrite Z.lor_spec.
Qed.
(** ** memusage::symbol_at() *)

Context (lit : literal -> Z).
Abbreviation symbol_at := (MemViewer.symbol_at kernel_end lit).

Lemma allocatable_bounds y : allocatable_physical_address kernel_end y = true ->
  reserved_physical_address y = false /\ y < MEMSIZE_PHYSICAL /\ (console <=? y) && (y <? console + PAGESIZE) = false.
Proof.
  unfold allocatable_physical_address. rewrite !andb_true_iff, negb_true_iff, Z.ltb_lt. intros [[[Hr _] _] Hm]. split_and!; [done..|].
  apply andb_false_iff. unfold reserved_physical_address in Hr. apply orb_false_iff in Hr as [_ Hr].
  change IOPHYSMEM with 0xA0000 in Hr. change EXTPHYSMEM with 0x100000 in Hr. change PAGESIZE with 4096. unfold console.
  apply andb_false_iff in Hr as [Hr|Hr]; [left; rewrite Z.leb_gt in *; lia|right; rewrite Z.ltb_ge in *; lia].
Qed.

(** A page that processes and the viewer use: the flags decide. *)
Lemma symbol_allocated y x : allocatable_physical_address kernel_end y = true -> 0 <= y < maxpa -> U (y / 4096) = x ->
  symbol_at v y s =
  (if x =? 0 then ret (Z.lor 46 0x0700)
   else if x =? f_kernel then ret (Z.lor 75 0x0D00)
   else if x =? f_user then ret (Z.lor 46 0x0700)
   else if negb (Z.land x f_kernel =? 0) && negb (Z.land x f_user =? 0) then
     page_error lit y Allocated_mapped (marked_pid x);;; ret (Z.lor 42 0xF400)
   else
     let pid := marked_pid x in
     c <- element colors (Z.rem pid 5);;
     let ch := u16 (Z.shiftl c 8) in
     let ch := if negb (Z.land x f_kernel =? 0) then Z.lor ch 0x4000 else ch in
     if Z.lor (Z.lor (f_process pid) f_kernel) f_user <? x then ret (Z.lor 0x0F00 83)
     else name <- element names pid;; ret (Z.lor ch name)) s.
Proof.
  intros Ha Hy <-. destruct (allocatable_bounds y Ha) as (Hr & Hm & Hc). unfold MemViewer.symbol_at. rewrite Ha, Hr. cbn [negb andb].
  rewrite (proj2 (Z.leb_gt _ _)) by apply Hy. destruct (HU (y / 4096)) as [Hb Hx].
  { unfold maxpa in Hy. change PAGESIZE with 4096 in Hy. split; [apply Z.div_pos; lia|apply Z.div_lt_upper_bound; lia]. }
  rewrite (bind_ok _ _ _ _ _ (ld32_run _ _ _ Hb Hx)), Hc. cbn [andb]. by rewrite (proj2 (Z.leb_gt _ _)) by done.
Qed.

Lemma symbol_kernel y : y mod 4096 = 0 -> 0 <= y < maxpa -> y <> CONSOLE_ADDR -> allocatable_physical_address kernel_end y = false ->
  symbol_at v y s = Ok (if reserved_physical_address y then 0x0752 else 0x0D4B, s).
Proof.
  intros Hal Hy Hne Ha. pose proof (flags_kernel y Hal Hne Ha) as Hx. unfold MemViewer.symbol_at. rewrite Ha. cbn [negb andb].
  rewrite (proj2 (Z.leb_gt _ _)) by apply Hy. destruct (HU (y / 4096)) as [Hb Hx'].
  { unfold maxpa in Hy. change PAGESIZE with 4096 in Hy. split; [apply Z.div_pos; lia|apply Z.div_lt_upper_bound; lia]. }
  rewrite (bind_ok _ _ _ _ _ (ld32_run _ _ _ Hb Hx')).
  assert (Hc : (console <=? y) && (y <? console + PAGESIZE) = false).
  { apply andb_false_iff. change PAGESIZE with 4096. unfold console, CONSOLE_ADDR in *. pose proof (Z.div_mod y 4096 ltac:(lia)).
    destruct (Z.leb_spec 0xB8000 y); [right; apply Z.ltb_ge; lia|by left]. }
  rewrite Hc. change (Z.lor f_kernel f_user) with 3. rewrite (proj2 (Z.ltb_ge 3 _)) by lia. rewrite !andb_false_r.
  destruct (reserved_physical_address y) eqn:Er; [done|]. cbn [negb andb]. unfold symbol_at. done.
Qed.

Lemma symbol_run y r : y mod 4096 = 0 -> 0 <= y < maxpa -> has_role y r -> symbol_at v y s = Ok (role_symbol r, s).
Proof.
  intros Hal Hy Hr. destruct r as [| | | |j|j|].
  - cbn in Hr. subst y. unfold MemViewer.symbol_at. destruct (HU (CONSOLE_ADDR / 4096)) as [Hb Hx]; [done|].
    change (maxpa <=? CONSOLE_ADDR) with false. cbv iota. change PAGESIZE with 4096. by rewrite (bind_ok _ _ _ _ _ (ld32_run _ _ _ Hb Hx)).
  - destruct Hr as [Hr Hne]. rewrite symbol_kernel, Hr; try done. unfold allocatable_physical_address. by rewrite Hr.
  - destruct Hr as [Hr Ha]. rewrite symbol_kernel, Hr; try done. intros ->. done.
  - cbn in Hr. subst y. by rewrite (symbol_allocated v f_kernel (proj1 (ap_viewer A)) Hy flags_viewer).
  - destruct (table_aligned j y Hr) as (_ & Ha & _). rewrite (symbol_allocated y _ Ha Hy (flags_table j y Hr)).
    destruct Hr as (T & p & (Hj & _) & _). do 16 (destruct j as [|j]; [lia || reflexivity|]). lia.
  - destruct Hr as [Hne Hr]. destruct (page_alloc j y Hne Hr) as [Ha _]. rewrite (symbol_allocated y _ Ha Hy (flags_page j y Hne Hr)).
    destruct Hr as (T & p & a & (Hj & _) & _). do 16 (destruct j as [|j]; [lia || reflexivity|]). lia.
  - by rewrite (symbol_allocated y 0 (proj1 Hr) Hy (flags_nobody y Hal Hr)).
Qed.

Lemma role_symbol_range r : (match r with Table_of j | Page_of j => (j < 16)%nat | _ => True end) -> 0 <= role_symbol r < 2 ^ 16.
Proof. destruct r as [| | | |j|j|]; try done; intros Hj; do 16 (destruct j as [|j]; [done|]); lia. Qed.

(** Every page that is a multiple of the page size has a symbol. *)
Lemma symbol_total y : y mod 4096 = 0 -> 0 <= y -> exists ch, symbol_at v y s = Ok (ch, s).
Proof.
  intros Hal Hy. destruct (Z.ltb_spec y maxpa) as [Hlt|Hge].
  - destruct (role_total y Hal) as [r Hr]. eexists. by apply symbol_run.
  - unfold MemViewer.symbol_at. rewrite (proj2 (Z.leb_le _ _)) by done. by eexists.
Qed.
End role.
End view.

(** ** Drawing memory on the console

    The loops of console_memviewer() run without error, draw at the cell of each
    page the symbol of its role, and change nothing but the console. *)

(** ** Formats *)

Definition text_pieces (l : list Z) : list piece := Plain <$> l.
Definition plain_dir (long : bool) (c : conv) : piece := Dir (mkDirective [] Omitted Omitted long c).

(** The literals as formats. *)
Definition literal_pieces (l : literal) : list piece :=
  match l with
  | Address_label => text_pieces (codes "0x") ++ [Dir (mkDirective [Zero] (Given 6) Omitted false CX)] ++ text_pieces (codes " ")
  | Virtual_for => text_pieces (codes "VIRTUAL ADDRESS SPACE FOR ") ++ [plain_dir false Cd; Plain 10]
  | Error_pid => text_pieces (codes "PAGE TABLE ERROR: ") ++ [plain_dir true Cx] ++ text_pieces (codes ": ") ++ [plain_dir false Cs] ++
      text_pieces (codes " (pid ") ++ [plain_dir false Cd] ++ text_pieces (codes ")" ++ [10])
  | Error_any => text_pieces (codes "PAGE TABLE ERROR: ") ++ [plain_dir true Cx] ++ text_pieces (codes ": ") ++ [plain_dir false Cs; Plain 10]
  | Page_fault => text_pieces (codes "Process ") ++ [plain_dir false Cd] ++ text_pieces (codes " page fault on ") ++ [plain_dir false Cp] ++
      text_pieces (codes " (") ++ [plain_dir false Cs] ++ text_pieces (codes " ") ++ [plain_dir false Cs] ++ text_pieces (codes ", rip=") ++
      [plain_dir false Cp] ++ text_pieces (codes ")!" ++ [10])
  | l => text_pieces (literal_text l)
  end.

Lemma literal_format l : format_text (literal_pieces l) = literal_text l.
Proof. destruct l; vm_compute; reflexivity. Qed.

Definition piece_okb (p : piece) : bool :=
  match p with
  | Plain c => (0 <? c) && (c <? 256) && negb (c =? 37)
  | Dir d => match d_width d with Given n => 0 <? n | _ => true end && match d_precision d with Given n => 0 <=? n | _ => true end
  | _ => true
  end.

Lemma piece_okb_ok p : piece_okb p = true -> piece_ok p.
Proof.
  destruct p as [c| | |d]; cbn; [|done..|].
  - rewrite !andb_true_iff, negb_true_iff, Z.eqb_neq. lia.
  - destruct (d_width d), (d_precision d); cbn; rewrite ?andb_true_iff; intros Hd; split; intros k Hk; simplify_eq; lia.
Qed.

Lemma literal_ok l : Forall piece_ok (literal_pieces l).
Proof.
  assert (Hb : forallb piece_okb (literal_pieces l) = true) by (destruct l; vm_compute; reflexivity).
  apply Forall_forall. intros p Hp. apply piece_okb_ok. rewrite forallb_forall in Hb. by apply Hb, list_elem_of_In.
Qed.

Lemma literal_short l : Z.of_nat (length (literal_text l)) < 200.
Proof. destruct l; vm_compute; reflexivity. Qed.

(** ** Literals in memory *)

Section draw.
Context (kernel_end kernel_pagetable : Z) (lit : literal -> Z).

(** The linker puts the literals into memory of the kernel. *)
Definition placed : Prop := forall l a, lit l <= a <= lit l + Z.of_nat (length (literal_text l)) ->
  allocatable_physical_address kernel_end (page_start a) = false /\ page_start a <> CONSOLE_ADDR.

Definition texts (s : vm) : Prop := forall l, str_at s (lit l) (literal_text l).

Context (Hplaced : placed).

Lemma texts_bytes s s' : texts s ->
  (forall a, allocatable_physical_address kernel_end (page_start a) = false -> page_start a <> CONSOLE_ADDR -> byte_at (phys s') a = byte_at (phys s) a) ->
  texts s'.
Proof.
  intros Ht Hb l. destruct (Ht l) as [H1 H2]. split; [|done]. intros i b Hi. pose proof (lookup_lt_Some _ _ _ Hi) as Hl.
  rewrite length_app in Hl. cbn [length] in Hl. specialize (H1 i b Hi). cbn [peek vm_bytes] in *. rewrite Hb; [done|apply (Hplaced l); lia..].
Qed.

Lemma texts_draws v s s' : allocatable_physical_address kernel_end v = true -> texts s -> draws v s s' -> texts s'.
Proof. intros Hv Ht [_ B]. apply (texts_bytes s); [done|]. intros a Ha Hc. apply B; [|done]. intros E. by rewrite E, Hv in Ha. Qed.

Lemma literal_off l : off_console (lit l) (length (literal_text l)).
Proof.
  unfold off_console, console. destruct (decide (lit l + Z.of_nat (length (literal_text l)) < 0xB8000)); [by left|].
  destruct (decide (0xB8000 + 4000 <= lit l)); [by right|]. exfalso.
  destruct (Hplaced l (Z.max (lit l) 0xB8000) ltac:(lia)) as [_ Hne]. apply Hne. apply page_start_in; [done|]. unfold CONSOLE_ADDR. lia.
Qed.

(** ** Output on the console *)

Lemma only_console_draws v s s' : only_console s s' -> draws v s s'.
Proof.
  intros Ho. destruct (touches_vm _ _ _ Ho) as [Ep Hb]. split; [done|]. intros a _ Ha. apply Hb. intros Hin. apply Ha.
  apply page_start_in; [done|]. unfold console, CONSOLE_ADDR in *. lia.
Qed.

Lemma texts_console s s' : texts s -> only_console s s' -> texts s'.
Proof.
  intros Ht Ho. apply (texts_bytes s); [done|]. intros a _ Ha. destruct (touches_vm _ _ _ Ho) as [_ Hb]. apply Hb. intros Hin. apply Ha.
  apply page_start_in; [done|]. unfold console, CONSOLE_ADDR in *. lia.
Qed.

(** The strings that are arguments. *)
Definition literals (strings : Z -> option (list Z)) : Prop := forall p x, strings p = Some x -> exists l, p = lit l /\ x = literal_text l.

Lemma print_run strings l cpos color val out cells s : texts s -> shows s cells -> 0 <= cpos <= 2000 -> literals strings ->
  render strings (literal_pieces l) color val = Some out ->
  let t := term_puts out (mkTerm cells (Z.to_nat cpos) false) in
  exists s', console_printf_at cpos color (lit l) val s = Ok (Z.of_nat (t_cursor t), s') /\ only_console s s' /\ shows s' (t_cells t).
Proof.
  intros Ht Hs Hc Hstr Hr t. pose proof (literal_format l) as Hf. pose proof (literal_short l) as Hn.
  destruct (console_vprintf_run strings (literal_pieces l) val out cpos color cells 0 (lit l) s (literal_ok l) Hr Hs) as (s' & E & A); rewrite ?Hf.
  - lia.
  - lia.
  - apply Ht.
  - apply literal_off.
  - lia.
  - intros p x (l' & -> & ->)%Hstr. split; [apply Ht|apply literal_off].
  - unfold start_pos in E, A. rewrite (proj2 (Z.ltb_ge cpos 0)), (proj2 (Z.leb_le cpos 2000)) in E, A by lia.
    exists s'. split; [exact E|]. destruct A as (A1 & _ & A3). split; [|exact A1]. eapply touches_mono, A3. cbn. intros a [?|[? _]]; [done|lia].
Qed.

(** Output that ends before the screen does. *)
Lemma print_fits l cpos color val out cells s : texts s -> shows s cells -> 0 <= cpos <= 2000 ->
  render (fun _ => None) (literal_pieces l) color val = Some out -> fits (Z.to_nat cpos) out = true ->
  exists s' cells', console_printf_at cpos color (lit l) val s = Ok (Z.of_nat (advances (Z.to_nat cpos) out), s') /\ only_console s s' /\ shows s' cells' /\
    same_outside (Z.to_nat cpos) (advances (Z.to_nat cpos) out) cells cells'.
Proof.
  intros Ht Hs Hc Hr Hf. destruct (print_run (fun _ => None) l cpos color val out cells s Ht Hs Hc ltac:(done) Hr) as (s' & E & Ho & Hs').
  destruct (puts_outside out cells (Z.to_nat cpos) ltac:(apply Hs) Hf) as [Ec Hout]. rewrite Ec in E. eauto 6.
Qed.

(** *** A row of the pictures *)

Lemma plain_fits out c : Forall (fun x => x.1 <> 10) out -> (c + length out <= SCREEN)%nat ->
  fits c out = true /\ advances c out = (c + length out)%nat.
Proof.
  revert c. induction out as [|[ch col] out IH]; intros c Hp Hc; cbn [fits advances length] in *; [split; [done|lia]|].
  apply Forall_cons in Hp as [Hch Hp]. cbn in Hch. assert (Ea : advance c ch = S c) by (unfold advance; by rewrite (proj2 (Z.eqb_neq _ _) Hch)).
  rewrite Ea. destruct (IH (S c) Hp ltac:(lia)) as [-> ->]. rewrite (proj2 (Nat.ltb_lt _ _)) by lia. split; [done|lia].
Qed.

(** The address in front of a row: nine characters. *)
Lemma label_out (j : nat) : (j < 12)%nat -> exists out, render (fun _ => None) (literal_pieces Address_label) 0x0F00 [262144 * Z.of_nat j] = Some out /\
  length out = 9%nat /\ Forall (fun x => x.1 <> 10) out.
Proof.
  intros Hj. do 12 (destruct j as [|j]; [eexists; split; [vm_compute; reflexivity|]; split; [reflexivity|repeat constructor; discriminate]|]). lia.
Qed.

Lemma label_run (row j : nat) s cells : texts s -> shows s cells -> (j < 12)%nat -> (row < 25)%nat ->
  exists r s' cells', console_printf_at (CPOS (Z.of_nat row) 3) 0x0F00 (lit Address_label) [262144 * Z.of_nat j] s = Ok (r, s') /\
    only_console s s' /\ shows s' cells' /\ same_outside (80 * row + 3) (80 * row + 12) cells cells'.
Proof.
  intros Ht Hs Hj Hrow. destruct (label_out j Hj) as (out & Hr & Hlen & Hp). unfold CPOS. set (cpos := Z.of_nat row * 80 + 3).
  destruct (plain_fits out (Z.to_nat cpos) Hp) as [Hf Ha]; [unfold SCREEN; lia|].
  destruct (print_fits Address_label cpos 0x0F00 _ out cells s Ht Hs ltac:(lia) Hr Hf) as (s' & cells' & E & Ho & Hs' & Hout).
  exists (Z.of_nat (advances (Z.to_nat cpos) out)), s', cells'. split_and!; [done..|]. eapply same_outside_mono, Hout; lia.
Qed.

(** The cell of page [pn] in a picture that starts in [row]. *)
Definition cell_of (row pn : nat) : nat := 80 * (row + pn / 64) + 12 + pn mod 64.

Lemma cell_of_mono row q pn : (q < pn)%nat -> (cell_of row q < 80 * (row + pn / 64) + (if decide (pn mod 64 = 0) then 3 else 12 + pn mod 64))%nat.
Proof.
  intros Hq. unfold cell_of. pose proof (Nat.div_mod_eq q 64). pose proof (Nat.div_mod_eq pn 64). pose proof (Nat.mod_upper_bound q 64 ltac:(lia)).
  pose proof (Nat.mod_upper_bound pn 64 ltac:(lia)). case_decide; nia.
Qed.

(** Drawing one page: the address at the start of a row, and the symbol that [m] computes. *)
Lemma page_run {B} (row pn : nat) (m : M vm Z) ch (f : M vm B) s0 s cells : texts s0 -> only_console s0 s -> shows s cells -> (pn < 768)%nat -> (row <= 12)%nat ->
  (forall s', only_console s0 s' -> m s' = Ok (ch, s')) ->
  exists s' cells',
    ((if Z.of_nat pn mod 64 =? 0 then
        console_printf_at (CPOS (Z.of_nat row + Z.of_nat pn / 64) 3) 0x0F00 (lit Address_label) [4096 * Z.of_nat pn];;; ret tt
      else ret tt);;;
     x <- m;;
     set_cell (CPOS (Z.of_nat row + Z.of_nat pn / 64) (12 + Z.of_nat pn mod 64)) x;;; f) s = f s' /\
    only_console s0 s' /\ shows s' cells' /\ cells' !! cell_of row pn = Some (u16 ch) /\
    forall i, (i < 80 * (row + pn / 64) + (if decide (pn mod 64 = 0) then 3 else 12 + pn mod 64))%nat -> cells' !! i = cells !! i.
Proof.
  intros Ht Ho Hs Hpn Hrow Hm. pose proof (Nat.div_mod_eq pn 64) as Hd. pose proof (Nat.mod_upper_bound pn 64 ltac:(lia)) as Hu.
  assert (Hj : (pn / 64 < 12)%nat) by (apply Nat.Div0.div_lt_upper_bound; lia).
  change 64 with (Z.of_nat 64). rewrite <- Nat2Z.inj_mod, <- Nat2Z.inj_div, <- Nat2Z.inj_add.
  assert (Hlabel : exists s1 cells1, (if Z.of_nat (pn mod 64) =? 0 then
        console_printf_at (CPOS (Z.of_nat (row + pn / 64)) 3) 0x0F00 (lit Address_label) [4096 * Z.of_nat pn];;; ret tt
      else ret tt) s = Ok (tt, s1) /\ only_console s0 s1 /\ shows s1 cells1 /\
      (if decide (pn mod 64 = 0)%nat then same_outside (80 * (row + pn / 64) + 3) (80 * (row + pn / 64) + 12) cells cells1 else cells1 = cells)).
  { destruct (Z.eqb_spec (Z.of_nat (pn mod 64)) 0) as [E0|E0].
    - replace (4096 * Z.of_nat pn) with (262144 * Z.of_nat (pn / 64)) by lia.
      destruct (label_run (row + pn / 64) (pn / 64) s cells) as (r & s1 & cells1 & E & Ho1 & Hs1 & Hout); [|done|done|lia|].
      { by apply (texts_console s0). }
      exists s1, cells1. rewrite (bind_ok _ _ _ _ _ E), decide_True by lia. split_and!; [done|by eapply only_console_trans|done..].
    - exists s, cells. by rewrite decide_False by lia. }
  destruct Hlabel as (s1 & cells1 & E1 & Ho1 & Hs1 & Hc1). rewrite (bind_ok _ _ _ _ _ E1), (bind_ok _ _ _ _ _ (Hm s1 Ho1)).
  assert (Hi : (cell_of row pn < SCREEN)%nat) by (unfold cell_of, SCREEN; lia).
  destruct (set_cell_shows s1 cells1 (cell_of row pn) ch Hs1 Hi) as (s2 & E2 & Ho2 & Hs2).
  exists s2, (<[cell_of row pn := u16 ch]> cells1). split_and!; [|by eapply only_console_trans|done| |].
  - replace (CPOS _ _) with (Z.of_nat (cell_of row pn)) by (unfold CPOS, cell_of; lia). by rewrite (bind_ok _ _ _ _ _ E2).
  - apply list_lookup_insert_eq. destruct Hs1 as (_ & _ & ->). done.
  - intros i Hlt. rewrite list_lookup_insert_ne by (unfold cell_of in *; case_decide; lia). case_decide; [|by rewrite Hc1]. apply Hc1. lia.
Qed.

(** ** Pictures *)

Section picture.
Context (k : kernel) (Ts : gmap nat tables) (Tk : tables) (v : Z).

Abbreviation viewer_apart := (ViewerProofs.viewer_apart kernel_end kernel_pagetable k Ts Tk v).
Abbreviation has_role := (ViewerProofs.has_role kernel_end k Ts v).

Lemma user_maps_draws s s' j T va q : viewer_apart s -> draws v s s' -> Ts !! j = Some T -> user_maps s' T va q <-> user_maps s T va q.
Proof.
  intros A D HT. destruct (ap_space _ _ _ _ _ _ _ A j T HT) as (p & _ & Hp).
  destruct (space_draws kernel_end v s s' T (pagetable p) Hp (wt_clear _ _ _ _ _ _ _ (ap_watched _ _ _ _ _ _ _ A) j T HT) D) as [_ L].
  unfold user_maps. by rewrite L.
Qed.

Lemma apart_draws s s' : viewer_apart s -> draws v s s' -> viewer_apart s'.
Proof.
  intros A D. pose proof A as [A1 A2 A3 A4 A5 A6]. pose proof (fun j T va q HT => proj1 (user_maps_draws s s' j T va q A D HT)) as L. split.
  - by apply (watched_draws _ _ _ _ _ _ s).
  - intros j T HT. destruct (A2 j T HT) as (p & Ep & Hp). exists p. split; [done|].
    by apply (space_draws kernel_end v s s' T (pagetable p) Hp (wt_clear _ _ _ _ _ _ _ A1 j T HT) D).
  - done.
  - intros i T va q HT Hu. by apply (A4 i T va q HT), (L i).
  - intros i j T T' va va' q HT HT' H1 H2. exact (A5 i j T T' va va' q HT HT' (L i T va q HT H1) (L j T' va' q HT' H2)).
  - split; [apply A6|]. intros i T va HT Hu. by apply (proj2 A6 i T va HT), (L i).
Qed.

Lemma page_of_draws s s' j y : viewer_apart s -> draws v s s' -> page_of k Ts s' j y <-> page_of k Ts s j y.
Proof.
  intros A D. split; intros (T & p & a & Ha & Hr & Hu); exists T, p, a; (split; [done|]); (split; [done|]);
    by apply (user_maps_draws s s' j T a y A D ltac:(apply Ha)).
Qed.

Lemma has_role_draws s s' y r : viewer_apart s -> draws v s s' -> has_role s' y r <-> has_role s y r.
Proof.
  intros A D. destruct r as [| | | |j|j|]; cbn; [done..| |].
  - by rewrite (page_of_draws s s').
  - by setoid_rewrite (page_of_draws s s' _ y A D).
Qed.

Lemma recorded_draws s s' U : viewer_apart s -> draws v s s' -> recorded kernel_pagetable k Ts Tk v s U -> recorded kernel_pagetable k Ts Tk v s' U.
Proof.
  intros A D R x b Hb. rewrite (R x b Hb).
  by setoid_rewrite (process_flag_draws kernel_end kernel_pagetable k Ts Tk v s s' _ x b (ap_watched _ _ _ _ _ _ _ A) D).
Qed.

Lemma holds_console s s' U : viewer_apart s -> only_console s s' -> holds s v U -> holds s' v U.
Proof.
  intros A Ho HU i Hi. destruct (HU i Hi) as [Hb Hr]. split; [|done]. intros j b Hj. rewrite (touches_peek _ _ _ _ Ho); [by apply Hb|].
  pose proof (lookup_lt_Some _ _ _ Hj) as Hl. rewrite length_le_split in Hl.
  pose proof (wt_own _ _ _ _ _ _ _ (ap_watched _ _ _ _ _ _ _ A)) as [V1 V2 V3]. pose proof (proj1 (ap_viewer _ _ _ _ _ _ _ A)) as Hv.
  assert (v <> CONSOLE_ADDR) by (intros ->; done). pose proof (pages_apart v CONSOLE_ADDR V1 eq_refl ltac:(done)).
  unfold console, CONSOLE_ADDR in *. lia.
Qed.

Context (s0 : vm) (A : viewer_apart s0) (U : Z -> Z) (HU : holds s0 v U) (R : recorded kernel_pagetable k Ts Tk v s0 U) (Ht : texts s0).

Lemma role_exists y : y mod 4096 = 0 -> exists r, has_role s0 y r.
Proof. apply (role_total kernel_end kernel_pagetable k Ts Tk v s0 A U R). Qed.

Lemma role_range y r : has_role s0 y r -> 0 <= role_symbol r < 2 ^ 16.
Proof.
  intros Hr. apply role_symbol_range. destruct r as [| | | |j|j|]; try done.
  - destruct Hr as (T & p & (Hj & _) & _). lia.
  - destruct Hr as (_ & T & p & a & (Hj & _) & _). lia.
Qed.

Lemma symbol_drawn s y r : only_console s0 s -> y mod 4096 = 0 -> 0 <= y < maxpa -> has_role s0 y r ->
  symbol_at kernel_end lit v y s = Ok (role_symbol r, s).
Proof.
  intros Ho Hal Hy Hr. pose proof (only_console_draws v s0 s Ho) as D.
  apply (symbol_run kernel_end kernel_pagetable k Ts Tk v s (apart_draws s0 s A D) U (holds_console s0 s U A Ho HU) (recorded_draws s0 s U A D R)); try done.
  by apply (has_role_draws s0 s).
Qed.

Lemma role_symbol_unique y r r' : y mod 4096 = 0 -> 0 <= y < maxpa -> has_role s0 y r -> has_role s0 y r' -> role_symbol r = role_symbol r'.
Proof.
  intros Hal Hy Hr Hr'. pose proof (symbol_drawn s0 y r ltac:(constructor) Hal Hy Hr) as E1.
  pose proof (symbol_drawn s0 y r' ltac:(constructor) Hal Hy Hr') as E2. congruence.
Qed.

(** The picture of physical memory. *)
Lemma physical_run n : forall (pn : nat) s cells, (pn + n = 512)%nat -> only_console s0 s -> shows s cells ->
  exists s' cells', physical_loop kernel_end lit v n (Z.of_nat pn) s = Ok (tt, s') /\ only_console s0 s' /\ shows s' cells' /\
    (forall i q, (q < pn)%nat -> i = cell_of 1 q -> cells' !! i = cells !! i) /\
    forall q r, (pn <= q < 512)%nat -> has_role s0 (4096 * Z.of_nat q) r -> cells' !! cell_of 1 q = Some (role_symbol r).
Proof.
  induction n as [|n IH]; intros pn s cells Hpn Ho Hs; [exists s, cells; split_and!; [done..|]; intros; lia|].
  destruct (role_exists (4096 * Z.of_nat pn)) as [r Hr]; [rewrite Z.mul_comm; by apply Z.mod_mul|].
  destruct (page_run 1 pn (symbol_at kernel_end lit v (Z.of_nat pn * PAGESIZE)) (role_symbol r) (physical_loop kernel_end lit v n (Z.of_nat pn + 1))
              s0 s cells Ht Ho Hs ltac:(lia) ltac:(lia)) as (s1 & cells1 & E1 & Ho1 & Hs1 & Hc1 & Hk1).
  { intros s' Ho'. replace (Z.of_nat pn * PAGESIZE) with (4096 * Z.of_nat pn) by (change PAGESIZE with 4096; lia).
    apply symbol_drawn; [done|rewrite Z.mul_comm; by apply Z.mod_mul|unfold maxpa; change PAGESIZE with 4096; lia|done]. }
  destruct (IH (S pn) s1 cells1 ltac:(lia) Ho1 Hs1) as (s' & cells' & E & Ho' & Hs' & Hk & Hc). exists s', cells'. split_and!; [|done|done| |].
  - cbn [physical_loop]. rewrite Z.shiftl_mul_pow2 by lia. rewrite (Z.mul_comm (Z.of_nat pn) (2 ^ 12)). change (2 ^ 12) with 4096.
    change 1 with (Z.of_nat 1) at 1 3. etransitivity; [exact E1|]. by replace (Z.of_nat pn + 1) with (Z.of_nat (S pn)) by lia.
  - intros i q Hq ->. rewrite (Hk _ q), Hk1; [done|by apply cell_of_mono|lia|done].
  - intros q r' Hq Hr'. destruct (decide (q = pn)) as [->|]; [|apply Hc; [lia|done]].
    rewrite (Hk _ pn), Hc1 by (lia || done). rewrite wrapU_small by (by eapply role_range). f_equal.
    apply (role_symbol_unique (4096 * Z.of_nat pn)); [rewrite Z.mul_comm; by apply Z.mod_mul|unfold maxpa; change PAGESIZE with 4096; lia|done..].
Qed.

(** The heading and the symbols: the first nine rows. *)
Lemma heading_run l cpos color val out cells s : only_console s0 s -> shows s cells -> 0 <= cpos <= 2000 ->
  render (fun _ => None) (literal_pieces l) color val = Some out -> fits (Z.to_nat cpos) out = true ->
  exists r s' cells', console_printf_at cpos color (lit l) val s = Ok (r, s') /\ only_console s0 s' /\ shows s' cells' /\
    same_outside (Z.to_nat cpos) (advances (Z.to_nat cpos) out) cells cells'.
Proof.
  intros Ho Hs Hc Hr Hf. destruct (print_fits l cpos color val out cells s (texts_console s0 s Ht Ho) Hs Hc Hr Hf) as (s' & cells' & E & Ho' & Hs' & Hout).
  eexists _, s', cells'. split_and!; [exact E|by eapply only_console_trans|done..].
Qed.

(** *** Virtual memory *)

(** The number of a process in its heading. *)
Lemma virtual_out (j : nat) : (1 <= j < 16)%nat -> exists out, render (fun _ => None) (literal_pieces Virtual_for) 0x0F00 [u64 (Z.of_nat j)] = Some out /\
  fits (Z.to_nat (CPOS 10 26)) out = true.
Proof. intros Hj. do 16 (destruct j as [|j]; [lia || (eexists; split; vm_compute; reflexivity)|]). lia. Qed.

Section virtual.
Context (j : nat) (T : tables) (p : proc) (HT : Ts !! j = Some T) (Hp : ptable k !! j = Some p).

Lemma drawn_space s : only_console s0 s -> VmProofs.space kernel_end s T (pagetable p) /\ forall va, leaf s T va = leaf s0 T va.
Proof.
  intros Ho. destruct (ap_space _ _ _ _ _ _ _ A j T HT) as (p' & Ep & H). rewrite Hp in Ep. injection Ep as <-.
  exact (space_draws kernel_end v s0 s T (pagetable p) H (wt_clear _ _ _ _ _ _ _ (ap_watched _ _ _ _ _ _ _ A) j T HT) (only_console_draws v s0 s Ho)).
Qed.

Lemma symbol_any y : y mod 4096 = 0 -> 0 <= y ->
  exists ch, (forall s, only_console s0 s -> symbol_at kernel_end lit v y s = Ok (ch, s)) /\
    (y < maxpa -> forall r, has_role s0 y r -> ch = role_symbol r).
Proof.
  intros Hal Hy. destruct (Z.ltb_spec y maxpa) as [Hlt|Hge].
  - destruct (role_exists y Hal) as [r Hr]. exists (role_symbol r). split; [intros s Ho; by apply symbol_drawn|].
    intros _ r' Hr'. by apply (role_symbol_unique y).
  - eexists. split; [|lia]. intros s _. unfold symbol_at. rewrite (proj2 (Z.leb_le _ _)) by done. reflexivity.
Qed.

(** What the picture shows for an entry: a blank if it is not present, else the
    symbol of its page, with the colors exchanged if user code can access it. *)
Definition entry_symbol (e ch : Z) : Prop :=
  if Z.land e PTE_P =? 0 then ch = 32
  else forall r, Z.land e PTE_PAMASK < maxpa -> has_role s0 (Z.land e PTE_PAMASK) r ->
    ch = if Z.land e 5 =? 5 then swap_colors (role_symbol r) else role_symbol r.

Lemma entry_run (l : nat) t (pn : nat) : (pn < 768)%nat -> (l <= 3)%nat -> let va := 4096 * Z.of_nat pn in bottom T va l t ->
  let it := at_entry (pagetable p) va t l in
  exists ch, entry_symbol (leaf s0 T va) (u16 ch) /\ forall s, only_console s0 s ->
    (b <- present it;;
     if negb b then ret 32
     else
       pa <- vmiter_pa it;;
       ch <- symbol_at kernel_end lit v pa;;
       u <- user it;;
       ret (if u then swap_colors ch else ch)) s = Ok (ch, s).
Proof.
  intros Hpn Hl va Hb it. set (e := leaf s0 T va). unfold entry_symbol.
  assert (Hpres : forall s, only_console s0 s -> present it s = Ok (negb (Z.land e PTE_P =? 0), s)).
  { intros s Ho. destruct (drawn_space s Ho) as [H L]. unfold e. rewrite <- L. by apply (present_at kernel_end s T (pagetable p) H). }
  destruct (Z.land e PTE_P =? 0) eqn:E0.
  - exists 32. split; [done|]. intros s Ho. by rewrite (bind_ok _ _ _ _ _ (Hpres s Ho)).
  - assert (Hpa : Z.land e PTE_PAMASK mod 4096 = 0 /\ 0 <= Z.land e PTE_PAMASK).
    { rewrite land_pamask. split; [by apply Z.mod_mul|]. pose proof (Z.mod_pos_bound (e / 4096) (2 ^ 40) ltac:(lia)). lia. }
    destruct (symbol_any _ (proj1 Hpa) (proj2 Hpa)) as (ch & Hch & Hrole).
    exists (if Z.land e 5 =? 5 then swap_colors ch else ch). split.
    + intros r Hlt Hr. specialize (Hrole Hlt r Hr). subst ch. destruct (Z.land e 5 =? 5).
      * unfold swap_colors. rewrite wrapU_small; [done|by apply wrapU_range].
      * rewrite wrapU_small; [done|by eapply role_range].
    + intros s Ho. rewrite (bind_ok _ _ _ _ _ (Hpres s Ho)). cbn [negb]. destruct (drawn_space s Ho) as [H L].
      pose proof (pa_at kernel_end s T (pagetable p) va l t H Hl Hb ltac:(lia)) as Ep. rewrite L in Ep. fold e in Ep. unfold translation in Ep.
      rewrite E0 in Ep. replace (va mod 4096) with 0 in Ep by (unfold va; rewrite Z.mul_comm, Z.mod_mul; done). rewrite Z.add_0_r in Ep.
      rewrite (bind_ok _ _ _ _ _ Ep), (bind_ok _ _ _ _ _ (Hch s Ho)). destruct (user_at kernel_end s T (pagetable p) H va l t Hl Hb) as [Eu _].
      rewrite L in Eu. by rewrite (bind_ok _ _ _ _ _ Eu).
Qed.

Lemma virtual_runs n : forall (pn : nat) it s cells, (pn + n = 768)%nat -> positioned T (pagetable p) it (4096 * Z.of_nat pn) ->
  only_console s0 s -> shows s cells ->
  exists s' cells', runs (virtual_step kernel_end lit v) (S n) it s tt s' /\ only_console s0 s' /\ shows s' cells' /\
    (forall i, (i < 880)%nat \/ (exists q, (q < pn)%nat /\ i = cell_of 11 q) -> cells' !! i = cells !! i) /\
    forall q, (pn <= q < 768)%nat -> exists ch, cells' !! cell_of 11 q = Some ch /\ entry_symbol (leaf s0 T (4096 * Z.of_nat q)) ch.
Proof.
  induction n as [|n IH]; intros pn it s cells Hpn Hit Ho Hs; pose proof Hit as (Hva & Hr & Hat).
  - exists s, cells. split_and!; [|done..|intros; lia]. constructor. unfold virtual_step. rewrite Hva, (proj2 (Z.ltb_ge _ _)); [done|].
    unfold max_view_va. change PAGESIZE with 4096. lia.
  - destruct Hat as (l & t & Hl & Hb & ->); [unfold VA_LOWEND; lia|]. destruct (entry_run l t pn ltac:(lia) Hl Hb) as (ch & Hsym & Hm).
    set (it0 := at_entry (pagetable p) (4096 * Z.of_nat pn) t l) in *.
    destruct (page_run 11 pn _ ch (it <- vmiter_add it0 PAGESIZE;; ret (@inl vmiter unit it)) s0 s cells Ht Ho Hs ltac:(lia) ltac:(lia) Hm)
      as (s1 & cells1 & E1 & Ho1 & Hs1 & Hc1 & Hk1).
    destruct (drawn_space s1 Ho1) as [H1 _].
    destruct (find_low kernel_end s1 T (pagetable p) H1 (4096 * Z.of_nat pn) l t (4096 * Z.of_nat (S pn))) as (it' & Ef & Hit'); [unfold VA_LOWEND; lia|done|done|unfold VA_LOWEND; lia|].
    destruct (IH (S pn) it' s1 cells1 ltac:(lia) Hit' Ho1 Hs1) as (s' & cells' & Hrun & Ho' & Hs' & Hk & Hc).
    exists s', cells'. split_and!; [|done|done| |].
    + eapply runs_step; [|exact Hrun]. unfold virtual_step. rewrite !Hva, (proj2 (Z.ltb_lt _ _)) by (unfold max_view_va; change PAGESIZE with 4096; lia).
      change PAGESIZE with 4096 in *. replace (4096 * Z.of_nat pn / 4096) with (Z.of_nat pn) by (rewrite Z.mul_comm, Z.div_mul; done).
      etransitivity; [exact E1|]. unfold vmiter_add, find, it0. cbn [va_ at_entry]. rewrite wrapU_small by lia.
      replace (4096 * Z.of_nat pn + 4096) with (4096 * Z.of_nat (S pn)) by lia. by rewrite (bind_ok _ _ _ _ _ Ef).
    + intros i Hi. rewrite Hk, Hk1; [done| |].
      * destruct Hi as [Hi|(q & Hq & ->)]; [case_decide; lia|by apply cell_of_mono].
      * destruct Hi as [Hi|(q & Hq & ->)]; [by left|right]. exists q. split; [lia|done].
    + intros q Hq. destruct (decide (q = pn)) as [->|]; [|apply Hc; lia]. exists (u16 ch). split; [|done]. rewrite Hk; [done|]. right. exists pn. split; [lia|done].
Qed.

Lemma memviewer_virtual_run s cells : (1 <= j < 16)%nat -> pid p = Z.of_nat j -> only_console s0 s -> shows s cells ->
  exists s' cells', console_memviewer_virtual kernel_end lit v p s = Ok (tt, s') /\ only_console s0 s' /\ shows s' cells' /\
    (forall i, (i < 800)%nat -> cells' !! i = cells !! i) /\
    forall q, (q < 768)%nat -> exists ch, cells' !! cell_of 11 q = Some ch /\ entry_symbol (leaf s0 T (4096 * Z.of_nat q)) ch.
Proof.
  intros Hj Hpid Ho Hs. unfold console_memviewer_virtual. destruct (drawn_space s Ho) as [H _].
  destruct (sp_page _ _ _ _ H _ _ _ (sp_root _ _ _ _ H)) as (_ & Hr & _). rewrite (proj2 (Z.eqb_neq (pagetable p) 0)) by lia. cbn [negb c_assert]. rewrite bind_ret.
  destruct (virtual_out j Hj) as (out & Hout & Hf). rewrite Hpid.
  destruct (heading_run Virtual_for (CPOS 10 26) 0x0F00 _ out cells s Ho Hs ltac:(unfold CPOS; lia) Hout Hf) as (r & s1 & cells1 & E1 & Ho1 & Hs1 & Hk1).
  rewrite (bind_ok _ _ _ _ _ E1). destruct (drawn_space s1 Ho1) as [H1 _].
  destruct (positioned_new kernel_end s1 T (pagetable p) H1 0 ltac:(done)) as (it & E2 & Hit). rewrite (bind_ok _ _ _ _ _ E2).
  destruct (virtual_runs 768 0 it s1 cells1 eq_refl Hit Ho1 Hs1) as (s' & cells' & Hrun & Ho' & Hs' & Hk & Hc).
  exists s', cells'. split_and!; [eapply loopM_runs; [exact Hrun|lia]|done|done| |].
  - intros i Hi. rewrite Hk by lia. apply Hk1. unfold CPOS. lia.
  - intros q Hq. apply Hc. lia.
Qed.
End virtual.

(** The heading and the picture of physical memory. *)
Lemma memviewer_physical_run s cells : only_console s0 s -> shows s cells ->
  exists r s1 s' cells', console_printf_at (CPOS 0 32) 0x0F00 (lit Physical_memory) [] s = Ok (r, s1) /\
    physical_loop kernel_end lit v 512 0 s1 = Ok (tt, s') /\ only_console s0 s' /\ shows s' cells' /\
    forall q r, (q < 512)%nat -> has_role s0 (4096 * Z.of_nat q) r -> cells' !! cell_of 1 q = Some (role_symbol r).
Proof.
  intros Ho Hs. assert (Hout : exists out, render (fun _ => None) (literal_pieces Physical_memory) 0x0F00 [] = Some out /\ fits (Z.to_nat (CPOS 0 32)) out = true)
    by (eexists; split; vm_compute; reflexivity).
  destruct Hout as (out & Hout & Hf).
  destruct (heading_run Physical_memory (CPOS 0 32) 0x0F00 _ out cells s Ho Hs ltac:(unfold CPOS; lia) Hout Hf) as (r & s1 & cells1 & E1 & Ho1 & Hs1 & _).
  destruct (physical_run 512 0 s1 cells1 eq_refl Ho1 Hs1) as (s' & cells' & E & Ho' & Hs' & _ & Hc).
  exists r, s1, s', cells'. split_and!; [done..|]. intros q r' Hq. apply Hc. lia.
Qed.
End picture.
End draw.
