(* ===== verification/MemShowProofs.v ===== *)
(** * memshow()

    [healthy]: the state between two entries into the kernel.  In such a state
    memshow() draws the picture of memory and leaves a healthy state; it fails
    only if the viewer needs its page and no page is free. *)
From stdpp Require Import prelude gmap list.
From Stdlib Require Import ZArith Lia.
From S2P Require Import Prelude Memory Lib LibProofs Printer PrinterProofs ConsoleProofs Vm VmProofs VmBoot VmIter VmIterProofs KernelState MemViewer Kernel KernelProofs MemUsageProofs ViewerProofs.
Open Scope Z_scope.
Open Scope c_scope.

#[local] Opaque page_fill.

Section memshow.
Context (kernel_end kernel_pagetable : Z) (lit : literal -> Z).

Abbreviation isolated := (KernelProofs.isolated kernel_end).
Abbreviation taken := (VmProofs.taken kernel_end).
Abbreviation free_page := (VmProofs.free_page kernel_end).
Abbreviation memshow := (MemViewer.memshow kernel_end kernel_pagetable lit).

(** ** Healthy states *)

(** The kernel's page table lies in its own memory and maps physical memory. *)
Record kernel_maps (s : vm) (Tk : tables) : Prop := {
  km_space : space_with kernel_end (absent := closed) s Tk kernel_pagetable;
  km_table : is_Some (Tk !! (0%nat, 0));
  km_kernel t : in_tables Tk t -> allocatable_physical_address kernel_end t = false /\ t <> CONSOLE_ADDR;
  km_leaf x : 1 <= x < 512 -> leaf s Tk (4096 * x) = 4096 * x + 3 \/ leaf s Tk (4096 * x) = 4096 * x + 7
}.

Lemma kernel_maps_bytes s s' Tk : kernel_maps s Tk -> (forall q, used s q = true -> used s' q = true) -> length (pages s') = 512%nat ->
  (forall a, allocatable_physical_address kernel_end (page_start a) = false -> page_start a <> CONSOLE_ADDR -> byte_at (phys s') a = byte_at (phys s) a) ->
  kernel_maps s' Tk.
Proof.
  intros [H1 H2 H3 H4] U Hlen B. destruct (space_same kernel_end (absent := closed) s s' Tk kernel_pagetable Hlen (taken_mono _ _ _ U)) as [S' L']; [|done|].
  - intros a Ha. by apply B; apply H3.
  - split; [done..|]. intros x Hx. rewrite L'. auto.
Qed.

(** A page that only the viewer uses. *)
Record own_of (s : vm) (Ts : gmap nat tables) (v : Z) : Prop := {
  ow_alloc : allocatable_physical_address kernel_end v = true;
  ow_align : v mod 4096 = 0;
  ow_used : used s v = true;
  ow_table j T : Ts !! j = Some T -> ~ in_tables T v;
  ow_user j T va : Ts !! j = Some T -> ~ user_maps s T va v
}.

Record healthy (k : kernel) (Ts : gmap nat tables) : Prop := {
  hl_isolated : isolated k Ts;
  hl_active : exists p, ptable k !! current k = Some p /\ state p <> P_FREE;
  hl_zero : exists p, ptable k !! 0%nat = Some p /\ state p = P_FREE;
  hl_kernel : exists Tk, kernel_maps (mem k) Tk;
  hl_texts : texts lit (mem k);
  hl_screen a : console <= a < console + 4000 -> 0 <= byte_at (phys (mem k)) a < 256;
  hl_showing : 0 <= showing (view k) < 16;
  hl_view : v_ (view k) = 0 \/ own_of (mem k) Ts (v_ (view k))
}.

Lemma own_page_of s Ts v : own_of s Ts v -> own_page v.
Proof. intros [O1 O2 _ _ _]. destruct (allocatable_range kernel_end v O1 O2). by split. Qed.

Lemma healthy_apart k Ts Tk v : isolated k Ts -> kernel_maps (mem k) Tk -> own_of (mem k) Ts v -> viewer_apart kernel_end kernel_pagetable k Ts Tk v (mem k).
Proof.
  intros H K O. split.
  - split.
    + apply H.
    + apply H.
    + intros j T HT t Ht. split; [intros ->; by apply (ow_table _ _ _ O j T)|intros ->].
      pose proof (iso_alloc _ _ _ H _ _ _ HT Ht). done.
    + intros j T t. apply (iso_alloc _ _ _ H).
    + apply K.
    + intros t Ht. destruct (km_kernel _ _ K t Ht) as [Ha Hc]. split; [intros ->; by rewrite (ow_alloc _ _ _ O) in Ha|done].
    + intros t Ht. by apply (km_kernel _ _ K).
    + by eapply own_page_of.
  - apply H.
  - apply (iso_tables _ _ _ H).
  - intros i T va q HT Hu. destruct (iso_user _ _ _ H _ _ _ _ HT Hu) as [|(A1 & _ & A3)]; [by left|by right].
  - intros i j T T' va va' q HT HT' U1 U2. destruct (iso_private _ _ _ H _ _ _ _ _ _ _ HT HT' U1 U2) as [|[-> _]]; [by left|by right].
  - split; [apply O|]. intros i T va. apply (ow_user _ _ _ O).
Qed.

(** The process that runs is one of the fifteen. *)
Lemma active_index k Ts : healthy k Ts -> exists p, (1 <= current k < 16)%nat /\ ptable k !! current k = Some p /\ state p <> P_FREE.
Proof.
  intros H. destruct (hl_active _ _ H) as (p & Ep & Hs). exists p. split; [|done]. pose proof (lookup_lt_Some _ _ _ Ep) as Hlt.
  rewrite (iso_procs _ _ _ (hl_isolated _ _ H)) in Hlt. split; [|done]. destruct (decide (current k = 0%nat)) as [E|]; [|lia].
  destruct (hl_zero _ _ H) as (p0 & E0 & Hf). rewrite E, E0 in Ep. by simplify_eq.
Qed.

Context (Hplaced : placed kernel_end lit).

(** What keeps a state healthy. *)
Lemma healthy_next k Ts k' Ts' : healthy k Ts -> isolated k' Ts' ->
  (exists p, ptable k' !! current k' = Some p /\ state p <> P_FREE) -> (exists p, ptable k' !! 0%nat = Some p /\ state p = P_FREE) ->
  (forall q, used (mem k) q = true -> used (mem k') q = true) ->
  (forall a, allocatable_physical_address kernel_end (page_start a) = false -> page_start a <> CONSOLE_ADDR ->
     byte_at (phys (mem k')) a = byte_at (phys (mem k)) a) ->
  (forall a, console <= a < console + 4000 -> 0 <= byte_at (phys (mem k')) a < 256) ->
  0 <= showing (view k') < 16 -> v_ (view k') = 0 \/ own_of (mem k') Ts' (v_ (view k')) -> healthy k' Ts'.
Proof.
  intros [H1 H2 H3 [Tk H4] H5 H6 H7 H8] I A Z U B S W V. split; try done.
  - exists Tk. apply (kernel_maps_bytes (mem k)); [done..| |done]. destruct (iso_current _ _ _ I) as [T HT].
    destruct (iso_proc _ _ _ I _ _ HT) as (p & _ & Hsp). apply Hsp.
  - by apply (texts_bytes kernel_end lit Hplaced (mem k)).
Qed.

Lemma own_next s s' Ts v : own_of s Ts v -> (forall q, used s q = true -> used s' q = true) ->
  (forall i T va, Ts !! i = Some T -> leaf s' T va = leaf s T va) -> own_of s' Ts v.
Proof.
  intros [O1 O2 O3 O4 O5] U L. split; auto. intros j T va HT Hu. apply (O5 j T va HT). unfold user_maps in *. by rewrite <- (L j T va HT).
Qed.

(** ** refresh() *)

(** The viewer takes a page. *)
Lemma take_page k Ts p t : healthy k Ts -> free_page (mem k) p ->
  let k1 := mkKernel (ptable k) (current k) (ticks k) (allocated (mem k) p) (mkViewer p t (showing (view k))) in
  healthy k1 Ts /\ own_of (mem k1) Ts p /\ (forall q, used (mem k) q = true -> used (mem k1) q = true) /\
  (forall i T va, Ts !! i = Some T -> leaf (mem k1) T va = leaf (mem k) T va) /\
  forall a, taken (mem k) (page_start a) = true -> byte_at (phys (mem k1)) a = byte_at (phys (mem k)) a.
Proof.
  intros H Hf k1. pose proof (hl_isolated _ _ H) as I. destruct (iso_current _ _ _ I) as [T HT]. destruct (iso_proc _ _ _ I _ _ HT) as (p' & _ & Hsp).
  pose proof (allocated_given kernel_end (mem k) p (sp_len _ _ _ _ Hsp) Hf) as G.
  assert (B : forall a, taken (mem k) (page_start a) = true -> byte_at (phys (allocated (mem k) p)) a = byte_at (phys (mem k)) a).
  { intros a Ha. apply (pg_bytes _ _ _ _ G). destruct (decide (p <= a < p + 4096)) as [Hd|]; [|lia].
    rewrite (page_start_in p a (fp_align _ _ _ Hf) Hd) in Ha. by rewrite (free_not_taken _ _ _ Hf) in Ha. }
  assert (Htab : forall i Ti t, Ts !! i = Some Ti -> in_tables Ti t -> taken (mem k) t = true).
  { intros i Ti t' Hi Hin. destruct (iso_proc _ _ _ I _ _ Hi) as (pi & _ & Hi'). by eapply tables_taken. }
  destruct (isolated_bytes kernel_end k Ts (allocated (mem k) p) (mkViewer p t (showing (view k))) I (pg_len _ _ _ _ G) (pg_used _ _ _ _ G)) as [I1 L1].
  { intros i Ti a Hi Ha. apply B. by eapply Htab. }
  assert (O : own_of (mem k1) Ts p).
  { split; [apply Hf|apply Hf|apply (pg_here _ _ _ _ G)| |].
    - intros j Tj Hj Hin. pose proof (Htab _ _ _ Hj Hin) as Ht. by rewrite (free_not_taken _ _ _ Hf) in Ht.
    - intros j Tj va Hj Hu. unfold user_maps in Hu. cbn [k1 mem] in Hu. rewrite (L1 j Tj va Hj) in Hu.
      destruct (iso_user _ _ _ I j Tj va p Hj Hu) as [->|(_ & Hu' & _)]; [pose proof (fp_alloc _ _ _ Hf); done|].
      by rewrite (fp_free _ _ _ Hf) in Hu'. }
  split_and!; [|done|apply G|exact L1|exact B].
  apply (healthy_next k Ts); cbn [k1 ptable current mem view showing v_]; try apply H; [done|apply G| | |by right].
  - intros a Ha _. apply B. unfold VmProofs.taken. by rewrite Ha, orb_true_r.
  - intros a Ha. rewrite B; [by apply (hl_screen _ _ H)|]. rewrite (page_start_in CONSOLE_ADDR a eq_refl) by (unfold console, CONSOLE_ADDR in *; lia). 
    unfold VmProofs.taken. by rewrite orb_true_r.
Qed.

(** What the viewer leaves: a healthy state, with the same processes. *)
Record viewed (k k' : kernel) (Ts : gmap nat tables) : Prop := {
  vw_healthy : healthy k' Ts;
  vw_same : ptable k' = ptable k /\ current k' = current k /\ ticks k' = ticks k;
  vw_own : own_of (mem k') Ts (v_ (view k'));
  vw_page : v_ (view k') = v_ (view k) \/ (v_ (view k) = 0 /\ free_page (mem k) (v_ (view k')));
  vw_used q : used (mem k) q = true -> used (mem k') q = true;
  vw_leaf i T va : Ts !! i = Some T -> leaf (mem k') T va = leaf (mem k) T va;
  vw_bytes a : taken (mem k) (page_start a) = true -> page_start a <> v_ (view k) \/ v_ (view k) = 0 -> page_start a <> CONSOLE_ADDR ->
    byte_at (phys (mem k')) a = byte_at (phys (mem k)) a
}.

Lemma own_nonzero s Ts v : own_of s Ts v -> v <> 0.
Proof. intros O ->. pose proof (ow_alloc _ _ _ O). done. Qed.

Lemma shows_range (s : vm) cells a : shows s cells -> console <= a < console + 4000 -> 0 <= byte_at (phys s) a < 256.
Proof.
  intros (Hb & Hc & Hl) Ha. destruct (lookup_lt_is_Some_2 (screen_bytes cells) (Z.to_nat (a - console))) as [b Eb].
  { rewrite length_screen_bytes, Hl. unfold SCREEN. lia. }
  pose proof (Hb _ _ Eb) as Hp. rewrite Z2Nat.id in Hp by lia. replace (console + (a - console)) with a in Hp by lia.
  cbn [peek vm_bytes] in Hp. case_match; [|done]. injection Hp as ->.
  pose proof (screen_bytes_ok cells Hc) as Hok. rewrite Forall_forall in Hok. apply Hok. by eapply list_elem_of_lookup_2.
Qed.

(** Only the console and the page of the viewer change. *)
Lemma draws_viewed k Ts s' cells w : healthy k Ts -> own_of (mem k) Ts (v_ (view k)) -> draws (v_ (view k)) (mem k) s' -> shows s' cells ->
  v_ w = v_ (view k) -> 0 <= showing w < 16 -> viewed k (mkKernel (ptable k) (current k) (ticks k) s' w) Ts.
Proof.
  intros H O [Dp Db] Hs Hw Hsh. pose proof (hl_isolated _ _ H) as I. destruct (iso_current _ _ _ I) as [T HT].
  destruct (iso_proc _ _ _ I _ _ HT) as (p' & _ & Hsp).
  assert (U : forall q, used (mem k) q = true -> used s' q = true) by (intros q; by rewrite (used_pages s' (mem k))).
  destruct (isolated_bytes kernel_end k Ts s' w I) as [I' L']; [rewrite Dp; apply Hsp|done| |].
  { intros i Ti a Hi Ha. apply Db; [intros E; rewrite E in Ha; by apply (ow_table _ _ _ O i Ti)|intros E; rewrite E in Ha].
    pose proof (iso_alloc _ _ _ I _ _ _ Hi Ha). done. }
  pose proof (own_next _ s' _ _ O U L') as O'. split; cbn [ptable current ticks mem view]; try done.
  - apply (healthy_next k Ts); cbn [ptable current mem view]; try done; try apply H.
    + intros a Ha Hc. apply Db; [|done]. intros E. by rewrite E, (ow_alloc _ _ _ O) in Ha.
    + intros a. by apply (shows_range s' cells).
    + right. by rewrite Hw.
  - by rewrite Hw.
  - by left.
  - intros a _ [H1|H1] H2; [by apply Db|]. by destruct (own_nonzero _ _ _ O).
Qed.

Lemma viewed_trans k1 k2 k3 Ts : viewed k1 k2 Ts -> viewed k2 k3 Ts -> viewed k1 k3 Ts.
Proof.
  intros A B. destruct (vw_same _ _ _ A) as (A1 & A2 & A3). destruct (vw_same _ _ _ B) as (B1 & B2 & B3).
  split; try apply B.
  - split_and!; congruence.
  - destruct (vw_page _ _ _ B) as [E|[E _]]; [rewrite E; apply A|]. by destruct (own_nonzero _ _ _ (vw_own _ _ _ A)).
  - intros q Hq. by apply (vw_used _ _ _ B), (vw_used _ _ _ A).
  - intros i T va HT. by rewrite (vw_leaf _ _ _ B i T va HT), (vw_leaf _ _ _ A i T va HT).
  - intros a Ha Hv Hc. rewrite (vw_bytes _ _ _ B); [by apply (vw_bytes _ _ _ A)| | |done].
    + by apply (taken_mono _ _ _ (vw_used _ _ _ A)).
    + left. intros E. destruct (vw_page _ _ _ A) as [E2|[_ Hf]]; [pose proof (own_nonzero _ _ _ (vw_own _ _ _ A)); destruct Hv; congruence|]. rewrite <- E in Hf. by rewrite (free_not_taken _ _ _ Hf) in Ha.
Qed.

(** The picture of physical memory on the screen. *)
Definition physical_picture (k : kernel) (Ts : gmap nat tables) (cells : list Z) : Prop := forall (q : nat) r, (q < 512)%nat ->
  has_role kernel_end k Ts (v_ (view k)) (mem k) (4096 * Z.of_nat q) r -> cells !! cell_of 1 q = Some (role_symbol r).

(** And that of the address space of the process that is shown. *)
Definition virtual_picture (k : kernel) (Ts : gmap nat tables) (cells : list Z) : Prop := exists T,
  Ts !! Z.to_nat (showing (view k)) = Some T /\ forall q : nat, (q < 768)%nat ->
    exists ch, cells !! cell_of 11 q = Some ch /\ entry_symbol kernel_end k Ts (v_ (view k)) (mem k) (leaf (mem k) T (4096 * Z.of_nat q)) ch.

(** refresh() when the viewer has its page. *)
Lemma marks_run k Ts Tk : healthy k Ts -> kernel_maps (mem k) Tk -> own_of (mem k) Ts (v_ (view k)) ->
  exists s' U, refresh_marks kernel_pagetable (v_ (view k)) k = Ok (tt, with_mem k s') /\ writes (v_ (view k)) (mem k) s' /\
    holds s' (v_ (view k)) U /\ recorded kernel_pagetable k Ts Tk (v_ (view k)) s' U.
Proof.
  intros H K O. pose proof (healthy_apart k Ts Tk _ (hl_isolated _ _ H) K O) as A. destruct (active_index k Ts H) as (p & Hc & Hp & Hs).
  destruct (refresh_marks_run kernel_end kernel_pagetable k Ts Tk (v_ (view k)) (mem k) (iso_procs _ _ _ (hl_isolated _ _ H)) (ap_watched _ _ _ _ _ _ _ A))
    as (s' & U & E & D & HU & R); [exists (current k), p; split_and!; [lia|done..]|].
  exists s', U. split; [by destruct k|]. split; [done|]. split; [done|]. by apply (recorded_draws kernel_end kernel_pagetable k Ts Tk _ (mem k) s' U A D).
Qed.

Lemma refresh_run k Ts : healthy k Ts -> 
  (exists k1 Tk s' U, refresh kernel_end kernel_pagetable k = Ok (tt, with_mem k1 s') /\ viewed k k1 Ts /\ kernel_maps (mem k1) Tk /\
     writes (v_ (view k1)) (mem k1) s' /\ holds s' (v_ (view k1)) U /\ recorded kernel_pagetable k1 Ts Tk (v_ (view k1)) s' U /\
     last_ticks (view k1) = last_ticks (view k) /\ showing (view k1) = showing (view k)) \/
  (refresh kernel_end kernel_pagetable k = Err AssertFail /\ v_ (view k) = 0 /\ forall q, ~ free_page (mem k) q).
Proof.
  intros H. destruct (hl_kernel _ _ H) as [Tk K]. unfold refresh. rewrite bind_gets. destruct (Z.eqb_spec (v_ (view k)) 0) as [E0|E0].
  - destruct (hl_isolated _ _ H) as [I [T HT]]. destruct (iso_proc _ _ _ I _ _ HT) as (p' & _ & Hsp).
    destruct (kalloc_spec kernel_end (mem k) (sp_len _ _ _ _ Hsp)) as [(p & Ek & Hf & _)|[Ek Hno]].
    + left. rewrite !bind_bind, (bind_ok _ _ _ _ _ (in_vm_ok _ _ _ _ Ek)).
      destruct (take_page k Ts p (last_ticks (view k)) H Hf) as (H1 & O1 & U1 & L1 & B1).
      set (k1 := mkKernel _ _ _ _ (mkViewer p _ _)) in *.
      assert (Es : set_view (mkViewer p (last_ticks (view k)) (showing (view k))) (mkKernel (ptable k) (current k) (ticks k) (allocated (mem k) p) (view k)) = Ok (tt, k1)) by done.
      rewrite bind_bind, (bind_ok _ _ _ _ _ Es). rewrite (proj2 (Z.eqb_neq p 0)) by (by eapply own_nonzero). cbn [negb c_assert]. rewrite bind_ret, bind_gets.
      destruct (hl_kernel _ _ H1) as [Tk1 K1]. destruct (marks_run k1 Ts Tk1 H1 K1 O1) as (s' & U & E & D & HU & R).
      exists k1, Tk1, s', U. split_and!; [exact E| |exact K1|exact D|exact HU|exact R|reflexivity|reflexivity].
      split; [exact H1|by split_and!|exact O1|right; by split|exact U1|exact L1|intros a Ha _ _; by apply B1].
    + right. split; [|done]. rewrite !bind_bind, (bind_ok _ _ _ _ _ (in_vm_ok _ _ _ _ Ek)). reflexivity.
  - left. destruct (hl_view _ _ H) as [|O]; [done|]. rewrite bind_ret, bind_gets.
    destruct (marks_run k Ts Tk H K O) as (s' & U & E & D & HU & R). exists k, Tk, s', U.
    split_and!; [exact E| |exact K|exact D|exact HU|exact R|reflexivity|reflexivity]. split; [exact H|by split_and!|exact O|by left|done..].
Qed.

(** ** The pictures *)

Lemma screen_kept k Ts s' : healthy k Ts -> own_of (mem k) Ts (v_ (view k)) -> writes (v_ (view k)) (mem k) s' -> exists cells, shows s' cells.
Proof.
  intros H O D. apply shows_bytes. intros a Ha. rewrite (wr_bytes _ _ _ D); [by apply (hl_screen _ _ H)|].
  rewrite (page_start_in CONSOLE_ADDR a eq_refl) by (unfold console, CONSOLE_ADDR in *; lia). intros E. pose proof (ow_alloc _ _ _ O) as Ha'. by rewrite <- E in Ha'.
Qed.

Lemma memviewer_run k Ts j p : healthy k Ts -> showing (view k) = Z.of_nat j -> ptable k !! j = Some p -> state p <> P_FREE ->
  (exists k' cells, console_memviewer kernel_end kernel_pagetable lit (Some p) k = Ok (tt, k') /\ viewed k k' Ts /\
     last_ticks (view k') = last_ticks (view k) /\ showing (view k') = showing (view k) /\
     shows (mem k') cells /\ physical_picture k' Ts cells /\ virtual_picture k' Ts cells) \/
  (console_memviewer kernel_end kernel_pagetable lit (Some p) k = Err AssertFail /\ v_ (view k) = 0 /\ forall q, ~ free_page (mem k) q).
Proof.
  intros H Hj Hp Hs. destruct (hl_zero _ _ H) as (p0 & E0 & F0). unfold console_memviewer.
  assert (Eg : get_proc 0 k = Ok (p0, k)) by (unfold get_proc; by rewrite E0). rewrite (bind_ok _ _ _ _ _ Eg), F0. cbn [Z.eqb P_FREE c_assert]. rewrite bind_ret.
  destruct (refresh_run k Ts H) as [(k1 & Tk & s0 & U & E & V & K & D & HU & R & Hlt & Hsh)|(E & Hv & Hno)]; [left|right; split; [by apply bind_err|done]].
  rewrite (bind_ok _ _ _ _ _ E), bind_gets. cbn [view with_mem].
  pose proof (vw_healthy _ _ _ V) as H1. pose proof (vw_own _ _ _ V) as O1. destruct (vw_same _ _ _ V) as (P1 & _ & _). rewrite <- P1 in Hp.
  set (v := v_ (view k1)) in *. pose proof (healthy_apart k1 Ts Tk v (hl_isolated _ _ H1) K O1) as A1.
  pose proof (apart_draws kernel_end kernel_pagetable k1 Ts Tk v _ s0 A1 D) as A. pose proof (texts_draws kernel_end lit Hplaced v _ s0 (ow_alloc _ _ _ O1) (hl_texts _ _ H1) D) as Ht.
  destruct (screen_kept k1 Ts s0 H1 O1 D) as [cells0 Hs0].
  destruct (memviewer_physical_run kernel_end kernel_pagetable lit Hplaced k1 Ts Tk v s0 A U HU R Ht s0 cells0 ltac:(constructor) Hs0)
    as (r & s1 & s2 & cells2 & E1 & E2 & Ho2 & Hs2 & Hc2).
  change (Z.to_nat (max_view_pa / PAGESIZE)) with 512%nat.
  rewrite (bind_ok _ _ _ _ _ (in_vm_with _ _ _ _ _ E1)), (bind_ok _ _ _ _ _ (in_vm_with _ _ _ _ _ E2)).
  destruct (iso_started _ _ _ (hl_isolated _ _ H1) j p Hp Hs) as [T HT].
  assert (Hjr : (1 <= j < 16)%nat).
  { pose proof (lookup_lt_Some _ _ _ Hp) as Hlt'. rewrite (iso_procs _ _ _ (hl_isolated _ _ H1)) in Hlt'. split; [|done].
    destruct j; [|lia]. destruct (hl_zero _ _ H1) as (p' & E' & F'). rewrite Hp in E'. by simplify_eq. }
  destruct (memviewer_virtual_run kernel_end kernel_pagetable lit Hplaced k1 Ts Tk v s0 A U HU R Ht j T p HT Hp s2 cells2 Hjr (iso_pid _ _ _ (hl_isolated _ _ H1) _ _ Hp) Ho2 Hs2)
    as (s' & cells & E3 & Ho' & Hs' & Hk3 & Hc3).
  pose proof (only_console_draws v s0 s' Ho') as D'. pose proof (draws_trans _ _ _ _ (D : draws v (mem k1) s0) D') as D3.
  exists (with_mem k1 s'), cells. split_and!; [exact (in_vm_with _ _ _ _ _ E3)| |exact Hlt|exact Hsh|exact Hs'| |].
  - eapply viewed_trans; [exact V|]. apply (draws_viewed k1 Ts s' cells (view k1) H1 O1 D3 Hs' eq_refl (hl_showing _ _ H1)).
  - intros q ro Hq Hro. rewrite Hk3 by (unfold cell_of; pose proof (Nat.mod_upper_bound q 64 ltac:(lia)); pose proof (Nat.Div0.div_lt_upper_bound q 64 8); lia).
    apply Hc2; [done|]. apply (has_role_draws kernel_end kernel_pagetable k1 Ts Tk v s0 s' _ ro A D'). exact Hro.
  - exists T. cbn [view with_mem mem]. rewrite Hsh, Hj, Nat2Z.id. split; [done|]. intros q Hq. destruct (Hc3 q Hq) as (ch & Hch & Hsym). exists ch. split; [done|].
    destruct (drawn_space kernel_end kernel_pagetable k1 Ts Tk v s0 A j T p HT Hp s' Ho') as [_ L]. rewrite L.
    unfold entry_symbol in *. case_match; [done|]. intros ro Hlo Hro. apply Hsym; [done|].
    apply (has_role_draws kernel_end kernel_pagetable k1 Ts Tk v s0 s' _ ro A D'). exact Hro.
Qed.

(** ** The process that is shown *)

Definition with_view (k : kernel) (w : viewer) : kernel := mkKernel (ptable k) (current k) (ticks k) (mem k) w.

Lemma healthy_view k Ts w : healthy k Ts -> 0 <= showing w < 16 -> v_ w = v_ (view k) -> healthy (with_view k w) Ts.
Proof.
  intros [H1 H2 H3 H4 H5 H6 H7 H8] Hw Hv. split; cbn [with_view ptable current mem view]; try done; [by apply (isolated_ext _ k)|by rewrite Hv].
Qed.

Lemma viewed_view k k' Ts w : v_ w = v_ (view k) -> viewed (with_view k w) k' Ts -> viewed k k' Ts.
Proof. intros Hv [V1 V2 V3 V4 V5 V6 V7]. cbn [with_view ptable current ticks mem view] in *. rewrite Hv in *. by split. Qed.

Lemma active_pagetable k Ts j p : isolated k Ts -> ptable k !! j = Some p -> state p <> P_FREE -> pagetable p <> 0.
Proof.
  intros I Hp Hs. destruct (iso_started _ _ _ I j p Hp Hs) as [T HT]. destruct (iso_proc _ _ _ I j T HT) as (p' & Ep & Hsp).
  rewrite Hp in Ep. injection Ep as <-. destruct (sp_page _ _ _ _ Hsp _ _ _ (sp_root _ _ _ _ Hsp)) as (_ & Hr & _). lia.
Qed.

Lemma find_shown_run k Ts n : healthy k Ts -> forall w, 0 <= showing w < 16 ->
  (exists d p, 0 <= d < Z.of_nat n /\ ptable k !! Z.to_nat ((showing w + d) mod 16) = Some p /\ state p <> P_FREE) ->
  exists j p, find_shown n (with_view k w) = Ok (Some p, with_view k (mkViewer (v_ w) (last_ticks w) (Z.of_nat j))) /\
    ptable k !! j = Some p /\ state p <> P_FREE.
Proof.
  intros H. induction n as [|n IH]; intros w Hw (d & pd & Hd & Hpd & Hsd); [lia|]. cbn [find_shown]. rewrite bind_gets. cbn [with_view view].
  destruct (lookup_lt_is_Some_2 (ptable k) (Z.to_nat (showing w))) as [p Hp]; [rewrite (iso_procs _ _ _ (hl_isolated _ _ H)); lia|].
  assert (Eg : get_proc (Z.to_nat (showing w)) (with_view k w) = Ok (p, with_view k w)) by (unfold get_proc, with_view; cbn [ptable]; by rewrite Hp).
  change (mkKernel (ptable k) (current k) (ticks k) (mem k) w) with (with_view k w). rewrite (bind_ok _ _ _ _ _ Eg).
  destruct (Z.eqb_spec (state p) P_FREE) as [Hfree|Hfree]; cbn [negb andb].
  - assert (Hd0 : d <> 0).
    { intros ->. rewrite Z.add_0_r, Z.mod_small, Hp in Hpd by lia. by simplify_eq. }
    destruct (IH (mkViewer (v_ w) (last_ticks w) ((showing w + 1) mod NPROC))) as (j & p' & E & Hj & Hs').
    + cbn [showing]. apply Z.mod_pos_bound. done.
    + exists (d - 1), pd. split; [lia|]. cbn [showing]. change NPROC with 16. rewrite Zplus_mod_idemp_l. by replace (showing w + 1 + (d - 1)) with (showing w + d) by lia.
    + exists j, p'. split; [exact E|done].
  - rewrite (proj2 (Z.eqb_neq _ _) (active_pagetable k Ts _ p (hl_isolated _ _ H) Hp Hfree)). cbn [negb].
    exists (Z.to_nat (showing w)), p. split; [|done]. rewrite Z2Nat.id by lia. by destruct w.
Qed.

(** memshow() in a healthy state. *)
Lemma memshow_run k Ts : healthy k Ts ->
  (exists k' cells, memshow k = Ok (tt, k') /\ viewed k k' Ts /\ shows (mem k') cells /\ physical_picture k' Ts cells /\ virtual_picture k' Ts cells) \/
  (memshow k = Err AssertFail /\ v_ (view k) = 0 /\ forall q, ~ free_page (mem k) q).
Proof.
  intros H. unfold MemViewer.memshow. rewrite !bind_gets.
  assert (Hw : exists w, (if (last_ticks (view k) =? 0) || (HZ / 2 <=? u64 (ticks k - last_ticks (view k))) then
       set_view (mkViewer (v_ (view k)) (u32 (ticks k)) ((showing (view k) + 1) mod NPROC)) else ret tt) k = Ok (tt, with_view k w) /\
       0 <= showing w < 16 /\ v_ w = v_ (view k)).
  { case_match; eexists; (split; [reflexivity || (unfold with_view; instantiate (1 := view k); by destruct k)|]); (split; [|done]).
    - cbn [showing]. apply Z.mod_pos_bound. done.
    - apply (hl_showing _ _ H). }
  destruct Hw as (w & Ew & Hsh & Hv). rewrite (bind_ok _ _ _ _ _ Ew).
  destruct (active_index k Ts H) as (pc & Hc & Hpc & Hsc).
  destruct (find_shown_run k Ts (Z.to_nat NPROC) H w Hsh) as (j & p & Ef & Hp & Hs).
  { exists ((Z.of_nat (current k) - showing w) mod 16), pc. split; [change (Z.of_nat (Z.to_nat NPROC)) with 16; by apply Z.mod_pos_bound|]. rewrite Zplus_mod_idemp_r.
    replace (showing w + (Z.of_nat (current k) - showing w)) with (Z.of_nat (current k)) by lia. by rewrite Z.mod_small, Nat2Z.id by lia. }
  rewrite (bind_ok _ _ _ _ _ Ef). set (w1 := mkViewer (v_ w) (last_ticks w) (Z.of_nat j)).
  assert (Hjr : (j < 16)%nat) by (rewrite <- (iso_procs _ _ _ (hl_isolated _ _ H)); by eapply lookup_lt_Some).
  pose proof (healthy_view k Ts w1 H ltac:(cbn; lia) Hv) as H1.
  destruct (memviewer_run (with_view k w1) Ts j p H1 eq_refl Hp Hs) as [(k' & cells & E & V & _ & _ & S1 & S2 & S3)|(E & E0 & Hno)].
  - left. exists k', cells. split; [by rewrite (bind_ok _ _ _ _ _ E)|]. split; [by apply (viewed_view k k' Ts w1)|done].
  - right. split; [by rewrite (bind_err _ _ _ _ E)|]. split; [|done]. cbn [with_view view w1 v_] in E0. by rewrite <- Hv.
Qed.
End memshow.
