(* ===== verification/KernelSteps.v ===== *)
(** * Steps of the machine

    schedule() is round robin; it spins for ever if no process is runnable.
    System calls, exceptions and stores of user code keep the state healthy and
    leave the other processes alone, as long as the process that runs sees the
    kernel's pages, through which k-exception.S enters and leaves the kernel.
    With the keyboard silent, every runnable
    process is resumed by one of any sixteen timer interrupts. *)
From stdpp Require Import prelude gmap list.
From Stdlib Require Import ZArith Lia.
From S2P Require Import Prelude Memory Lib LibProofs Printer PrinterProofs ConsoleProofs Vm VmProofs KernelState MemViewer Kernel KernelProofs MemUsageProofs ViewerProofs MemShowProofs.
Open Scope Z_scope.
Open Scope c_scope.

#[local] Opaque page_fill.

(** ** Scheduling *)

Section sched.
Context (kernel_end kernel_pagetable exception_entry : Z) (lit : literal -> Z).

Abbreviation isolated := (KernelProofs.isolated kernel_end).
Abbreviation healthy := (MemShowProofs.healthy kernel_end kernel_pagetable lit).

Record table_ok (k : kernel) : Prop := {
  to_procs : length (ptable k) = 16%nat;
  to_pid i p : ptable k !! i = Some p -> pid p = Z.of_nat i;
  to_current : (current k < 16)%nat
}.

Lemma isolated_table k Ts : isolated k Ts -> table_ok k.
Proof.
  intros H. split; [apply (iso_procs _ _ _ H)|apply (iso_pid _ _ _ H)|]. destruct (iso_current _ _ _ H) as [T HT]. destruct (iso_proc _ _ _ H _ _ HT) as (p & Ep & _).
  apply lookup_lt_Some in Ep. by rewrite (iso_procs _ _ _ H) in Ep.
Qed.

Definition ready (k : kernel) (i : nat) : bool :=
  match ptable k !! i with Some p => state p =? P_RUNNABLE | None => false end.

Lemma ready_lt k i : table_ok k -> ready k i = true -> (i < 16)%nat.
Proof.
  intros H. unfold ready. destruct (ptable k !! i) as [p|] eqn:E; [|done]. apply lookup_lt_Some in E. by rewrite (to_procs _ H) in E.
Qed.

(** The process that comes [d] places after process [c]. *)
Definition place (c : nat) (d : nat) : nat := ((c + d) mod 16)%nat.

Lemma get_proc_ok k i : table_ok k -> (i < 16)%nat -> exists p, get_proc i k = Ok (p, k) /\ ptable k !! i = Some p.
Proof.
  intros H Hi. destruct (lookup_lt_is_Some_2 (ptable k) i) as [p Ep]; [by rewrite (to_procs _ H)|].
  exists p. unfold get_proc. by rewrite Ep.
Qed.

Lemma place_lt c d : (place c d < 16)%nat.
Proof. apply Nat.mod_upper_bound. lia. Qed.

Lemma place_succ c d : Z.to_nat ((Z.of_nat (place c d) + 1) mod NPROC) = place c (S d).
Proof.
  unfold place, NPROC. rewrite Nat2Z.inj_mod, Zplus_mod_idemp_l. change (Z.of_nat 16) with 16.
  rewrite <- (Nat2Z.id ((c + S d) mod 16)), Nat2Z.inj_mod. f_equal. f_equal. lia.
Qed.

Lemma place_surj c i : (c < 16)%nat -> (i < 16)%nat -> exists d, (1 <= d <= 16)%nat /\ place c d = i.
Proof.
  intros Hc Hi. unfold place. destruct (decide (c < i)%nat) as [H|H].
  - exists (i - c)%nat. split; [lia|]. replace (c + (i - c))%nat with i by lia. by apply Nat.mod_small.
  - exists (i + 16 - c)%nat. split; [lia|]. replace (c + (i + 16 - c))%nat with (i + 1 * 16)%nat by lia.
    rewrite Nat.Div0.mod_add. by apply Nat.mod_small.
Qed.

(** Keys that check_keyboard() ignores. *)
Definition quiet (c : Z) : bool := negb (bool_decide (c ∈ [97; 102; 101; 3; 113])).

Lemma quiet_run {S} c (s : S) : quiet c = true -> check_keyboard c s = Ok (tt, s).
Proof.
  unfold quiet, check_keyboard. rewrite negb_true_iff, bool_decide_eq_false. intros Hc.
  rewrite !(proj2 (Z.eqb_neq c _)) by (intros ->; apply Hc; repeat (try (left; done); right)). done.
Qed.

Lemma check_keyboard_inv {S} c (s s' : S) u : check_keyboard c s = Ok (u, s') -> s' = s.
Proof. unfold check_keyboard, fail, ret. repeat case_match; congruence. Qed.

Abbreviation schedule_loop := (Kernel.schedule_loop kernel_end kernel_pagetable exception_entry lit).
Abbreviation schedule := (Kernel.schedule kernel_end kernel_pagetable exception_entry lit).
Abbreviation run := (Kernel.run kernel_pagetable exception_entry).
Abbreviation memshow := (MemViewer.memshow kernel_end kernel_pagetable lit).

Lemma schedule_loop_step fuel c d spins keys k : table_ok k ->
  schedule_loop (S fuel) (Z.of_nat (place c d)) spins keys k =
  if ready k (place c (S d)) then run (place c (S d)) k
  else (check_keyboard (keys O);;; (if spins mod 4096 =? 0 then memshow else ret tt);;;
        schedule_loop fuel (Z.of_nat (place c (S d))) (u32 (spins + 1)) (fun n => keys (S n))) k.
Proof.
  intros H. cbn [Kernel.schedule_loop]. rewrite place_succ. destruct (get_proc_ok k (place c (S d)) H (place_lt _ _)) as (p & Ep & Hp).
  rewrite (bind_ok _ _ _ _ _ Ep). unfold ready. rewrite Hp. destruct (state p =? P_RUNNABLE); [done|].
  assert (E : (Z.of_nat (place c d) + 1) mod NPROC = Z.of_nat (place c (S d))) by (rewrite <- (place_succ c d), Z2Nat.id; [done|by apply Z.mod_pos_bound]).
  by rewrite E.
Qed.

(** The first ready process after the current one is run. *)
Lemma schedule_loop_spec c k : table_ok k -> forall n d fuel keys, (n <= fuel)%nat -> (d + n <= 16)%nat -> ready k (place c (d + n)) = true -> (0 < n)%nat ->
  (forall e, (d < e < d + n)%nat -> ready k (place c e) = false) -> (forall i, (i + 1 < n)%nat -> quiet (keys i) = true) ->
  schedule_loop fuel (Z.of_nat (place c d)) (Z.of_nat (S d)) keys k = run (place c (d + n)) k.
Proof.
  intros H. induction n as [|n IH]; intros d fuel keys Hf Hd Hr Hn Hno Hq; [lia|]. destruct fuel as [|fuel]; [lia|].
  rewrite schedule_loop_step by done. destruct n as [|n].
  - rewrite Nat.add_1_r in *. by rewrite Hr.
  - rewrite (Hno (S d)) by lia. replace (d + S (S n))%nat with (S d + S n)%nat in * by lia.
    rewrite (bind_ok _ _ _ _ _ (quiet_run (keys 0%nat) k (Hq 0%nat ltac:(lia)))). rewrite Z.mod_small, (proj2 (Z.eqb_neq _ _)) by lia. rewrite bind_ret.
    rewrite wrapU_small by lia. replace (Z.of_nat (S d) + 1) with (Z.of_nat (S (S d))) by lia.
    apply IH; [lia|lia|done|lia| |]. { intros e He. apply Hno. lia. } intros i Hi. apply Hq. lia.
Qed.

Lemma schedule_start fuel keys k : table_ok k -> schedule fuel keys k = schedule_loop fuel (Z.of_nat (place (current k) 0)) 1 keys k.
Proof.
  intros H. pose proof (to_current _ H) as Hc. destruct (get_proc_ok k (current k) H Hc) as (p & Ep & Hp). unfold Kernel.schedule.
  rewrite bind_gets, (bind_ok _ _ _ _ _ Ep), (to_pid _ H _ _ Hp). unfold place. by rewrite Nat.add_0_r, Nat.mod_small.
Qed.

(** The first [d] with [P d] in a range. *)
Lemma first_such (P : nat -> bool) n : (forall d, (1 <= d <= n)%nat -> P d = false) \/
  exists d, (1 <= d <= n)%nat /\ P d = true /\ forall e, (0 < e < d)%nat -> P e = false.
Proof.
  induction n as [|n IH]; [left; lia|]. destruct IH as [Hno|(d & Hd & HP & Hb)].
  - destruct (P (S n)) eqn:E.
    + right. exists (S n). split; [lia|]. split; [done|]. intros e He. apply Hno. lia.
    + left. intros d Hd. destruct (decide (d = S n)) as [-> |]; [done|]. apply Hno. lia.
  - right. exists d. split; [lia|done].
Qed.

(** schedule() is round robin. *)
Lemma schedule_first k : table_ok k ->
  (exists d, (1 <= d <= 16)%nat /\ ready k (place (current k) d) = true /\
     (forall e, (0 < e < d)%nat -> ready k (place (current k) e) = false) /\
     forall fuel keys, (16 <= fuel)%nat -> (forall i, quiet (keys i) = true) -> schedule fuel keys k = run (place (current k) d) k) \/
  (forall i, ready k i = false).
Proof.
  intros H. destruct (first_such (fun d => ready k (place (current k) d)) 16) as [Hno|(d & Hd & Hr & Hb)].
  - right. intros i. destruct (ready k i) eqn:E; [|done]. destruct (place_surj (current k) i (to_current _ H) (ready_lt _ _ H E)) as (d & Hd & <-).
    by rewrite <- E, Hno.
  - left. exists d. split; [done|]. split; [done|]. split; [done|]. intros fuel keys Hf Hq. rewrite schedule_start by done.
    apply (schedule_loop_spec (current k) k H d 0 fuel); [lia|lia|done|lia| |done]. intros e He. apply Hb. lia.
Qed.

(** If no process is ready, schedule() does not return, and shows memory from time to time. *)
Context (Hplaced : placed kernel_end lit).

Lemma schedule_loop_none c Ts fuel : forall d spins keys k, healthy k Ts -> (forall i, ready k i = false) -> (forall i, quiet (keys i) = true) ->
  v_ (view k) <> 0 \/ (exists q, free_page kernel_end (mem k) q) ->
  schedule_loop fuel (Z.of_nat (place c d)) spins keys k = Err OutOfFuel.
Proof.
  induction fuel as [|fuel IH]; intros d spins keys k H Hno Hq Hv; [done|]. rewrite schedule_loop_step by (by eapply isolated_table, (hl_isolated _ _ _ _ _ H)).
  rewrite Hno, (bind_ok _ _ _ _ _ (quiet_run (keys 0%nat) k (Hq 0%nat))). destruct (spins mod 4096 =? 0); [|rewrite bind_ret; apply IH; auto].
  destruct (memshow_run kernel_end kernel_pagetable lit Hplaced k Ts H) as [(k' & cells & E & V & _)|(_ & E0 & Hno')].
  - rewrite (bind_ok _ _ _ _ _ E). destruct (vw_same _ _ _ _ _ _ V) as (P & _ & _).
    apply IH; [apply V| |auto|left; by eapply own_nonzero, (vw_own _ _ _ _ _ _ V)]. intros i. unfold ready in *. by rewrite P.
  - destruct Hv as [|[q Hf]]; [done|]. by destruct (Hno' q).
Qed.

(** A process runs after at most as many turns as are allowed without showing memory. *)
Lemma schedule_loop_inv fuel : forall i spins keys k r, 0 < spins -> spins + Z.of_nat fuel <= 4096 ->
  schedule_loop fuel i spins keys k = Ok r -> exists j, run j k = Ok r.
Proof.
  induction fuel as [|fuel IH]; intros i spins keys k r Hs Hf; cbn [Kernel.schedule_loop]; [done|]. unfold bind at 1.
  destruct (get_proc _ k) as [[p k1]|] eqn:Eg; [|done].
  assert (k1 = k) as -> by (unfold get_proc in Eg; case_match; congruence). destruct (state p =? P_RUNNABLE); [eauto|]. unfold bind at 1.
  destruct (check_keyboard _ k) as [[u k2]|] eqn:Ec; [|done]. apply check_keyboard_inv in Ec as ->.
  change (Z.shiftl 1 12) with 4096. rewrite Z.mod_small, (proj2 (Z.eqb_neq _ _)) by lia. rewrite bind_ret, wrapU_small by lia. apply IH; lia.
Qed.

Lemma schedule_inv keys k r : schedule (Z.to_nat NPROC) keys k = Ok r -> exists j, run j k = Ok r.
Proof.
  unfold Kernel.schedule. rewrite bind_gets. unfold bind. destruct (get_proc _ k) as [[p k1]|] eqn:Eg; [|done].
  assert (k1 = k) as -> by (unfold get_proc in Eg; case_match; congruence). by apply schedule_loop_inv.
Qed.

End sched.

(** ** System calls, exceptions and stores *)

Section steps.
Context (kernel_end kernel_pagetable exception_entry TICK_LIMIT : Z) (lit : literal -> Z) (Hplaced : placed kernel_end lit).

Abbreviation space := (VmProofs.space kernel_end).
Abbreviation isolated := (KernelProofs.isolated kernel_end).
Abbreviation undisturbed := (KernelProofs.undisturbed kernel_end).
Abbreviation healthy := (MemShowProofs.healthy kernel_end kernel_pagetable lit).
Abbreviation viewed := (MemShowProofs.viewed kernel_end kernel_pagetable lit).
Abbreviation taken := (VmProofs.taken kernel_end).
Abbreviation memshow := (MemViewer.memshow kernel_end kernel_pagetable lit).
Abbreviation syscall := (Kernel.syscall kernel_end kernel_pagetable exception_entry lit).
Abbreviation exception := (Kernel.exception kernel_end kernel_pagetable exception_entry TICK_LIMIT lit).
Abbreviation run := (Kernel.run kernel_pagetable exception_entry).

(** ** Changes of processes *)

(** The process that runs changes its registers or its state. *)
Lemma healthy_set_proc k Ts f t : healthy k Ts -> (forall p, pagetable (f p) = pagetable p /\ pid (f p) = pid p) ->
  (forall p, state p <> P_FREE -> state (f p) <> P_FREE) ->
  healthy (mkKernel (alter f (current k) (ptable k)) (current k) t (mem k) (view k)) Ts.
Proof.
  intros H Hf Hs. destruct (active_index _ _ _ k Ts H) as (p & Hc & Hp & Hp'). destruct (hl_zero _ _ _ _ _ H) as (p0 & Hp0 & Hf0).
  destruct H as [H1 H2 H3 H4 H5 H6 H7 H8]. split; cbn [ptable current mem view]; try done.
  - split; [|apply H1]. apply set_proc_separate; [apply H1|done|]. intros q Hq Eq. rewrite Hp in Eq. by simplify_eq.
  - exists (f p). rewrite list_lookup_alter_eq, Hp. split; [done|auto].
  - exists p0. by rewrite list_lookup_alter_ne by lia.
Qed.

Definition saved (r : regstate) (k : kernel) : kernel :=
  mkKernel (alter (fun p => mkProc (pagetable p) (pid p) (state p) r) (current k) (ptable k)) (current k) (ticks k) (mem k) (view k).

Lemma save_regs_run r k : save_regs r k = Ok (tt, saved r k).
Proof. reflexivity. Qed.

Lemma healthy_saved r k Ts : healthy k Ts -> healthy (saved r k) Ts.
Proof. intros H. by apply healthy_set_proc. Qed.

Lemma healthy_run i k Ts l k' : healthy k Ts -> run i k = Ok (l, k') -> healthy k' Ts /\ mem k' = mem k.
Proof.
  intros H E. pose proof (run_isolated _ _ _ _ _ _ _ _ (hl_isolated _ _ _ _ _ H) E) as I.
  destruct (run_inv _ _ _ _ _ _ E) as (p & Ep & Hs & _ & ->). split; [|done]. destruct H as [H1 H2 H3 H4 H5 H6 H7 H8].
  split; cbn [ptable current mem view]; try done. exists p. by rewrite Hs.
Qed.

(** ** What the viewer leaves alone *)

Lemma viewed_undisturbed k k' Ts : healthy k Ts -> viewed k k' Ts -> undisturbed k k' Ts Ts.
Proof.
  intros H V. split.
  - intros j T va HT _. split; [done|]. by apply (vw_leaf _ _ _ _ _ _ V j).
  - intros j T va q a HT _ Hu Hpub Ha. destruct (iso_user _ _ _ (hl_isolated _ _ _ _ _ H) _ _ _ _ HT Hu) as [|(Hal & Hused & _)]; [done|].
    assert (Ep : page_start a = q) by (apply page_start_in; [by eapply user_page_aligned|done]).
    apply (vw_bytes _ _ _ _ _ _ V); rewrite Ep; [by apply used_taken| |done].
    destruct (hl_view _ _ _ _ _ H) as [|O]; [by right|left]. intros ->. by apply (ow_user _ _ _ _ O j T va).
  - intros a Ha Hpub. apply (vw_bytes _ _ _ _ _ _ V); [unfold VmProofs.taken; by rewrite Ha, orb_true_r| |done].
    destruct (hl_view _ _ _ _ _ H) as [|O]; [by right|left]. intros E. by rewrite E, (ow_alloc _ _ _ _ O) in Ha.
Qed.

Lemma undisturbed_trans k1 k2 k3 Ts Ts' : current k2 = current k1 -> undisturbed k1 k2 Ts Ts -> undisturbed k2 k3 Ts Ts' -> undisturbed k1 k3 Ts Ts'.
Proof.
  intros Ec [A1 A2 A3] [B1 B2 B3]. rewrite Ec in *. split.
  - intros j T va HT Hne. destruct (A1 j T va HT Hne) as [_ EA]. destruct (B1 j T va HT Hne) as [EB1 EB2]. split; [done|congruence].
  - intros j T va q a HT Hne Hu Hpub Ha. rewrite (B2 j T va q a), (A2 j T va q a); try done. unfold user_maps in *. by rewrite (proj2 (A1 j T va HT Hne)).
  - intros a Ha Hpub. by rewrite B3, A3.
Qed.

(** The same memory, other processes. *)
Lemma undisturbed_from k1 k2 k3 Ts Ts' : mem k2 = mem k1 -> current k2 = current k1 -> undisturbed k2 k3 Ts Ts' -> undisturbed k1 k3 Ts Ts'.
Proof. intros Em Ec [B1 B2 B3]. rewrite Em, Ec in *. by split. Qed.

(** The mappings that a handler leaves as they are, in every address space. *)
Definition keeps_mappings (P : Z -> Prop) (k k' : kernel) (Ts Ts' : gmap nat tables) : Prop :=
  forall j T', Ts' !! j = Some T' -> exists T, Ts !! j = Some T /\ forall va, P va -> leaf (mem k') T' va = leaf (mem k) T va.

Lemma keeps_mem P k k' Ts : mem k' = mem k -> keeps_mappings P k k' Ts Ts.
Proof. intros E j T HT. exists T. by rewrite E. Qed.

Lemma keeps_leaf P k k' Ts : (forall j T va, Ts !! j = Some T -> leaf (mem k') T va = leaf (mem k) T va) -> keeps_mappings P k k' Ts Ts.
Proof. intros E j T HT. exists T. split; [done|]. intros va _. by apply (E j). Qed.

Lemma keeps_trans P k1 k2 k3 Ts1 Ts2 Ts3 : keeps_mappings P k1 k2 Ts1 Ts2 -> keeps_mappings P k2 k3 Ts2 Ts3 -> keeps_mappings P k1 k3 Ts1 Ts3.
Proof.
  intros A B j T3 H3. destruct (B j T3 H3) as (T2 & H2 & E2). destruct (A j T2 H2) as (T1 & H1 & E1). exists T1. split; [done|].
  intros va Hva. by rewrite E2, E1.
Qed.

Lemma viewed_keeps P k k' Ts : viewed k k' Ts -> keeps_mappings P k k' Ts Ts.
Proof. intros V. apply keeps_leaf. intros j T va. apply (vw_leaf _ _ _ _ _ _ V). Qed.

(** The addresses that a system call does not map anew. *)
Definition not_requested (r : regstate) (va : Z) : Prop :=
  reg_rax r = SYSCALL_PAGE_ALLOC -> va_is_canonical (reg_rdi r) = true -> ~ same_page (reg_rdi r) va.

(** ** System calls *)

Lemma console_taken s a : console <= a < console + 4000 -> taken s (page_start a) = true /\ allocatable_physical_address kernel_end (page_start a) = false.
Proof.
  intros Ha. rewrite (page_start_in CONSOLE_ADDR a eq_refl) by (unfold console, CONSOLE_ADDR in *; lia). unfold VmProofs.taken. by rewrite orb_true_r.
Qed.

Lemma page_alloc_healthy k k' Ts T T' addr p : healthy k Ts -> Ts !! current k = Some T -> page_allocated kernel_end k k' Ts T T' addr p ->
  healthy k' (<[current k := T']> Ts).
Proof.
  intros H HT P. pose proof (hl_isolated _ _ _ _ _ H) as I. destruct (pa_kernel _ _ _ _ _ _ _ _ P) as (E1 & E2 & E3 & E4).
  assert (Hnt : forall a, allocatable_physical_address kernel_end (page_start a) = false -> byte_at (phys (mem k')) a = byte_at (phys (mem k)) a).
  { intros a Ha. apply (pa_bytes _ _ _ _ _ _ _ _ P); [unfold VmProofs.taken; by rewrite Ha, orb_true_r|]. intros Hin.
    by rewrite (iso_alloc _ _ _ I _ _ _ HT Hin) in Ha. }
  apply (healthy_next kernel_end kernel_pagetable lit Hplaced k Ts); rewrite ?E1, ?E2, ?E4; try apply H.
  - apply P.
  - intros q. apply (pa_used _ _ _ _ _ _ _ _ P).
  - intros a Ha _. by apply Hnt.
  - intros a Ha. rewrite Hnt by (by apply (console_taken (mem k))). by apply (hl_screen _ _ _ _ _ H).
  - destruct (hl_view _ _ _ _ _ H) as [|O]; [by left|right]. destruct O as [O1 O2 O3 O4 O5]. split; try done.
    + by apply (pa_used _ _ _ _ _ _ _ _ P).
    + intros j Tj Hj Hin. apply lookup_insert_Some in Hj as [[<- <-]|[Hne Hj]]; [|by apply (O4 j Tj)].
      destruct (pa_new _ _ _ _ _ _ _ _ P _ Hin) as [Hin'|Hn]; [by apply (O4 (current k) T)|]. by rewrite (used_taken _ _ _ O3) in Hn.
    + destruct (page_alloc_undisturbed kernel_end k k' Ts T T' addr p I HT P) as [U1 _ _].
      intros j Tj va Hj Hu. apply lookup_insert_Some in Hj as [[<- <-]|[Hne Hj]].
      * destruct Hu as [U2 U3]. rewrite (pa_map _ _ _ _ _ _ _ _ P) in U2, U3. case_decide as Hd; [|by apply (O5 (current k) T va HT)].
        destruct (pa_first _ _ _ _ _ _ _ _ P) as [Hf _]. destruct (allocatable_range _ p (fp_alloc _ _ _ Hf) (fp_align _ _ _ Hf)) as [P1 P2]. unfold MEMSIZE_PHYSICAL in P2.
        rewrite entry_page in U3 by first [done|apply Hf|unfold PTE_PWU; lia]. subst p. by rewrite (fp_free _ _ _ Hf) in O3.
      * apply (O5 j Tj va Hj). unfold user_maps in *. by rewrite <- (proj2 (U1 j Tj va Hj ltac:(done))).
Qed.

Lemma schedule_healthy keys k Ts l k' : healthy k Ts -> schedule kernel_end kernel_pagetable exception_entry lit (Z.to_nat NPROC) keys k = Ok (l, k') ->
  healthy k' Ts /\ mem k' = mem k.
Proof. intros H E. destruct (schedule_inv _ _ _ _ _ _ _ E) as [j Er]. exact (healthy_run _ _ _ _ _ H Er). Qed.

Lemma syscall_switch_undisturbed r keys k Ts l k' : healthy k Ts -> 0 <= reg_rdi r ->
  syscall_switch kernel_end kernel_pagetable exception_entry lit r keys k = Ok (l, k') ->
  exists Ts', healthy k' Ts' /\ undisturbed k k' Ts Ts' /\ keeps_mappings (not_requested r) k k' Ts Ts'.
Proof.
  intros H Hr E. destruct (iso_current _ _ _ (hl_isolated _ _ _ _ _ H)) as [T HT]. destruct (hl_active _ _ _ _ _ H) as (cur & Hcur & Hst).
  unfold syscall_switch in E. rewrite bind_gets in E. assert (Eg : get_proc (current k) k = Ok (cur, k)) by (unfold get_proc; by rewrite Hcur).
  rewrite (bind_ok _ _ _ _ _ Eg) in E. repeat case_match; [done|..|done].
  - injection E as <- <-. exists Ts. split; [done|]. split; [by apply undisturbed_same|by apply keeps_mem].
  - exists Ts. unfold set_proc, modify, bind in E. fold (@bind kernel) in E.
    set (k2 := mkKernel (alter _ (current k) (ptable k)) (current k) (ticks k) (mem k) (view k)) in E.
    assert (Hk2 : healthy k2 Ts) by (by apply healthy_set_proc). destruct (schedule_healthy _ _ _ _ _ Hk2 E) as [H' Em]. split; [done|].
    split; [by apply undisturbed_same|by apply keeps_mem].
  - unfold bind in E. destruct (syscall_page_alloc _ _ k) as [[v k2]|] eqn:Ea; [|done]. injection E as <- <-.
    destruct (page_alloc_inv kernel_end k Ts T _ _ _ (hl_isolated _ _ _ _ _ H) HT Hr Ea) as [[_ ->]|(_ & Hcan & _ & T' & p & P)].
    + exists Ts. split; [done|]. split; [by apply undisturbed_same|by apply keeps_mem].
    + pose proof (page_alloc_undisturbed kernel_end k k2 Ts T T' _ p (hl_isolated _ _ _ _ _ H) HT P) as U.
      exists (<[current k := T']> Ts). split; [by eapply page_alloc_healthy|]. split; [exact U|].
      intros j Tj Hj. apply lookup_insert_Some in Hj as [[<- <-]|[Hne Hj]].
      * exists T. split; [done|]. intros va Hva. rewrite (pa_map _ _ _ _ _ _ _ _ P), decide_False; [done|]. apply Hva; [by apply Z.eqb_eq|done].
      * exists Tj. split; [done|]. intros va _. by apply (ud_space _ _ _ _ _ U j Tj va Hj).
Qed.

(** memshow() and the keyboard, on the way in. *)
Lemma show_inv {A} (m : M kernel A) c k Ts r : healthy k Ts -> (memshow;;; check_keyboard c;;; m) k = Ok r ->
  exists k1, viewed k k1 Ts /\ undisturbed k k1 Ts Ts /\ m k1 = Ok r.
Proof.
  intros H. destruct (memshow_run _ _ _ Hplaced k Ts H) as [(k1 & cells & E & V & _)|(E & _)]; [|by rewrite (bind_err _ _ _ _ E)].
  rewrite (bind_ok _ _ _ _ _ E). unfold bind. destruct (check_keyboard c k1) as [[u k2]|] eqn:Ec; [|done]. apply check_keyboard_inv in Ec as ->.
  intros Em. exists k1. split; [done|]. split; [by apply viewed_undisturbed|done].
Qed.

Lemma syscall_undisturbed r keys k Ts l k' : healthy k Ts -> 0 <= reg_rdi r -> syscall r keys k = Ok (l, k') ->
  exists Ts', healthy k' Ts' /\ undisturbed k k' Ts Ts' /\ keeps_mappings (not_requested r) k k' Ts Ts'.
Proof.
  intros H Hr E. unfold Kernel.syscall in E. rewrite (bind_ok _ _ _ _ _ (save_regs_run r k)) in E.
  destruct (show_inv _ _ _ Ts _ (healthy_saved r k Ts H) E) as (k1 & V & U1 & E1).
  destruct (syscall_switch_undisturbed _ _ _ Ts _ _ (vw_healthy _ _ _ _ _ _ V) Hr E1) as (Ts' & H' & U' & M'). exists Ts'. split; [done|]. split.
  - apply (undisturbed_from k (saved r k)); [done..|]. eapply undisturbed_trans; [|exact U1|exact U']. apply (vw_same _ _ _ _ _ _ V).
  - apply (keeps_trans _ k (saved r k) k' Ts Ts); [by apply keeps_mem|]. by apply (keeps_trans _ _ k1 _ _ Ts); [apply viewed_keeps|].
Qed.

(** What page_alloc does after the picture of memory is drawn. *)
Lemma syscall_page_alloc_inv r keys k Ts l k' : healthy k Ts -> reg_rax r = SYSCALL_PAGE_ALLOC -> syscall r keys k = Ok (l, k') ->
  exists v k1, viewed (saved r k) k1 Ts /\ syscall_page_alloc kernel_end (reg_rdi r) k1 = Ok (v, k') /\ l = Return (u64 v).
Proof.
  intros H Hr E. unfold Kernel.syscall in E. rewrite (bind_ok _ _ _ _ _ (save_regs_run r k)) in E.
  destruct (show_inv _ _ _ Ts _ (healthy_saved r k Ts H) E) as (k1 & V & _ & E1). destruct (hl_active _ _ _ _ _ (vw_healthy _ _ _ _ _ _ V)) as (cur & Hcur & _).
  unfold syscall_switch in E1. rewrite bind_gets in E1. assert (Eg : get_proc (current k1) k1 = Ok (cur, k1)) by (unfold get_proc; by rewrite Hcur).
  rewrite (bind_ok _ _ _ _ _ Eg), Hr in E1. cbn in E1. unfold bind in E1. destruct (syscall_page_alloc _ _ k1) as [[v k2]|] eqn:Ea; [|done].
  injection E1 as <- <-. exists v, k1. done.
Qed.

(** ** Exceptions *)

Lemma render_text strings l ps color val : is_Some (render strings ps color val) -> is_Some (render strings (text_pieces l ++ ps) color val).
Proof. intros [out Ho]. induction l as [|c l [out' IH]]; [by eexists|]. cbn [text_pieces fmap list_fmap app render render_piece] in *. unfold text_pieces in IH. rewrite IH. by eexists. Qed.

Definition arg_ok (strings : Z -> option (list Z)) (c : conv) (x : Z) : Prop :=
  match c with
  | Cd | Cp => True
  | Cs => exists l, strings (u64 x) = Some l /\ Z.of_nat (length l) < 2 ^ 30
  | _ => False
  end.

Lemma render_dir strings c x ps color val : arg_ok strings c x -> is_Some (render strings ps color val) ->
  is_Some (render strings (plain_dir false c :: ps) color (x :: val)).
Proof.
  intros Ha [out Ho]. cbn [render render_piece plain_dir]. unfold render_directive. cbn [d_width d_precision field_value default fmap option_fmap option_map].
  assert (Hc : is_Some (convert strings (mkDirective [] Omitted Omitted false c) (-1) None x)).
  { unfold convert. cbn [d_conv d_long d_flags]. destruct c; try done.
    - pose proof (wrapS_range 32 x ltac:(lia)). rewrite (proj2 (Z.eqb_neq _ _)) by lia. eexists; reflexivity.
    - destruct Ha as (l & -> & Hl). rewrite (proj2 (Z.ltb_lt _ _)) by done. eexists; reflexivity. }
  destruct Hc as [o Hc]. change (Z.max 0 <$> None) with (@None Z). rewrite Hc, Ho. by eexists.
Qed.

(** The strings that a page fault refers to. *)
Definition fault_strings (x y : literal) (p : Z) : option (list Z) :=
  if p =? lit x then Some (literal_text x) else if p =? lit y then Some (literal_text y) else None.

Lemma literal_address s l : texts lit s -> 0 <= lit l < 2 ^ 64.
Proof.
  intros Ht. destruct (Ht l) as [Hb _]. pose proof (Hb 0%nat (hd 0 (literal_text l ++ [0])) ltac:(by destruct (literal_text l))) as Hp.
  cbn [peek vm_bytes] in Hp. unfold kernel_can_access in Hp. destruct (_ && _) eqn:E in Hp; [|done]. rewrite andb_true_iff, !Z.leb_le in E.
  change PAGESIZE with 4096 in E. unfold MEMSIZE_PHYSICAL in E. lia.
Qed.

Lemma fault_render s x y a b c color : texts lit s ->
  is_Some (render (fault_strings x y) (literal_pieces Page_fault) color [a; b; lit x; lit y; c]).
Proof.
  intros Ht. assert (Hs : forall l, l = x \/ l = y -> arg_ok (fault_strings x y) Cs (lit l)).
  { intros l Hl. unfold arg_ok, fault_strings. rewrite wrapU_small by (by eapply literal_address). pose proof (literal_short x). pose proof (literal_short y).
    destruct (Z.eqb_spec (lit l) (lit x)); [eexists; split; [done|lia]|]. destruct Hl as [->| ->]; [done|]. rewrite Z.eqb_refl. eexists. split; [done|lia]. }
  unfold literal_pieces. repeat (apply render_text || (apply render_dir; [done || apply Hs; auto|])).
  rewrite <- (app_nil_r (text_pieces _)). apply render_text. by eexists.
Qed.

(** The message of a page fault. *)
Lemma fault_viewed k Ts x y a b c : healthy k Ts -> own_of kernel_end (mem k) Ts (v_ (view k)) ->
  exists z k', in_vm (console_printf_at (CPOS 24 0) 0x0C00 (lit Page_fault) [a; b; lit x; lit y; c]) k = Ok (z, k') /\ viewed k k' Ts.
Proof.
  intros H O. destruct (shows_bytes (mem k) (hl_screen _ _ _ _ _ H)) as [cells Hs]. pose proof (hl_texts _ _ _ _ _ H) as Ht.
  destruct (fault_render (mem k) x y a b c 0x0C00 Ht) as [out Hout].
  destruct (print_run kernel_end lit Hplaced (fault_strings x y) Page_fault (CPOS 24 0) 0x0C00 [a; b; lit x; lit y; c] out cells (mem k) Ht Hs ltac:(unfold CPOS; lia)) as (s' & E & Ho & Hs'); [|done|].
  - intros p l. unfold fault_strings. destruct (Z.eqb_spec p (lit x)) as [->|]; [intros [= <-]; eauto|]. destruct (Z.eqb_spec p (lit y)) as [->|]; [intros [= <-]; eauto|done].
  - eexists _, _. split; [by apply in_vm_ok|].
    apply (draws_viewed kernel_end kernel_pagetable lit Hplaced k Ts s' _ (view k) H O (only_console_draws _ _ _ Ho) Hs' eq_refl (hl_showing _ _ _ _ _ H)).
Qed.

Lemma exception_switch_undisturbed r cr2 keys k Ts l k' : healthy k Ts -> own_of kernel_end (mem k) Ts (v_ (view k)) ->
  exception_switch kernel_end kernel_pagetable exception_entry lit r cr2 keys k = Ok (l, k') ->
  healthy k' Ts /\ undisturbed k k' Ts Ts /\ keeps_mappings (fun _ => True) k k' Ts Ts.
Proof.
  intros H O E. unfold exception_switch in E. rewrite bind_gets in E. case_match; [|case_match; [|done]; case_match; [done|]].
  - unfold modify, bind in E. fold (@bind kernel) in E. set (k2 := mkKernel (ptable k) (current k) (u64 (ticks k + 1)) (mem k) (view k)) in E.
    assert (Hk2 : healthy k2 Ts) by (destruct H as [J1 J2 J3 J4 J5 J6 J7 J8]; split; try done; by apply (isolated_ext _ k)).
    destruct (schedule_healthy _ _ _ _ _ Hk2 E) as [H' Em]. split; [done|].
    split; [by apply undisturbed_same|by apply keeps_mem].
  - destruct (hl_active _ _ _ _ _ H) as (cur & Hcur & Hst). assert (Eg : get_proc (current k) k = Ok (cur, k)) by (unfold get_proc; by rewrite Hcur).
    rewrite (bind_ok _ _ _ _ _ Eg) in E. destruct (fault_viewed k Ts (if negb (Z.land (reg_errcode r) PFERR_WRITE =? 0) then Write_access else Read_access)
      (if negb (Z.land (reg_errcode r) PFERR_PRESENT =? 0) then Protection else Missing) (u64 (pid cur)) cr2 (reg_rip r) H O) as (z & k1 & E1 & V).
    rewrite (bind_ok _ _ _ _ _ E1) in E. pose proof (vw_healthy _ _ _ _ _ _ V) as Hk1. destruct (vw_same _ _ _ _ _ _ V) as (_ & Ec & _).
    unfold set_proc, modify in E. rewrite <- Ec in E.
    set (k2 := mkKernel (alter (fun p => mkProc (pagetable p) (pid p) P_BROKEN (regs p)) (current k1) (ptable k1)) (current k1) (ticks k1) (mem k1) (view k1)).
    rewrite (bind_ok _ _ _ _ k2 eq_refl) in E.
    assert (Hk2 : healthy k2 Ts) by (by apply healthy_set_proc). unfold bind in E.
    destruct (get_proc (current k1) k2) as [[cur2 k3]|] eqn:Eg2; [|done].
    assert (k3 = k2) as -> by (unfold get_proc in Eg2; destruct (ptable k2 !! current k1); [by injection Eg2|done]).
    assert (Hend : healthy k' Ts /\ mem k' = mem k1).
    { destruct (state cur2 =? P_RUNNABLE); [by apply (healthy_run _ _ _ _ _ Hk2 E)|by apply (schedule_healthy _ _ _ _ _ Hk2 E)]. }
    destruct Hend as [H' Em]. split; [done|]. split.
    + apply (undisturbed_trans k k1); [done|by apply viewed_undisturbed|by apply undisturbed_same].
    + apply (keeps_trans _ k k1 k' Ts Ts); [by apply viewed_keeps|by apply keeps_mem].
Qed.

Lemma exception_undisturbed r cr2 keys k Ts l k' : healthy k Ts -> exception r cr2 keys k = Ok (l, k') ->
  healthy k' Ts /\ undisturbed k k' Ts Ts /\ keeps_mappings (fun _ => True) k k' Ts Ts.
Proof.
  intros H E. unfold Kernel.exception in E. rewrite (bind_ok _ _ _ _ _ (save_regs_run r k)) in E. destruct (negb _ || negb _) eqn:Eu.
  - rewrite !bind_bind in E. pose proof (healthy_saved r k Ts H) as Hs.
    destruct (memshow_run _ _ _ Hplaced (saved r k) Ts Hs) as [(k1 & cells & Em & V & _)|(Em & _)]; [|by rewrite (bind_err _ _ _ _ Em) in E].
    rewrite (bind_ok _ _ _ _ _ Em), bind_bind, bind_gets in E. case_match; [done|]. rewrite bind_ret in E. unfold bind in E.
    destruct (check_keyboard _ k1) as [[u k2]|] eqn:Ec; [|done]. apply check_keyboard_inv in Ec as ->.
    destruct (exception_switch_undisturbed _ _ _ _ Ts _ _ (vw_healthy _ _ _ _ _ _ V) (vw_own _ _ _ _ _ _ V) E) as (H' & U & M). split; [done|]. split.
    + apply (undisturbed_from k (saved r k)); [done..|]. apply (undisturbed_trans _ k1); [apply (vw_same _ _ _ _ _ _ V)|by apply viewed_undisturbed|done].
    + apply (keeps_trans _ k (saved r k) k' Ts Ts); [by apply keeps_mem|]. by apply (keeps_trans _ _ k1 _ _ Ts); [apply viewed_keeps|].
  - rewrite bind_ret in E. unfold bind at 1 in E. destruct (check_keyboard _ _) as [[u k2]|] eqn:Ec; [|done]. apply orb_false_iff in Eu as [Eu1 Eu2].
    apply negb_false_iff in Eu1, Eu2. unfold exception_switch in E. rewrite bind_gets in E. apply Z.eqb_eq in Eu1. rewrite Eu1, Eu2 in E. done.
Qed.

(** ** The machine *)

(** What the C code of the kernel does to the machine once it runs on the
    kernel's page table, and what user code does in between: it stores to its
    own memory.  Keys are typed at any time. *)
Inductive handler_step (k : kernel) : kernel -> Prop :=
  | handle_syscall r keys l k' : 0 <= reg_rdi r -> syscall r keys k = Ok (l, k') -> handler_step k k'
  | handle_exception r cr2 keys l k' : exception r cr2 keys k = Ok (l, k') -> handler_step k k'
  | handle_store cur va perm a b : ptable k !! current k = Some cur -> va_is_canonical va = true -> 0 <= va -> 0 <= b < 256 ->
      memory_permissions (pagetable cur) va (mem k) = Ok (perm, mem k) -> Z.land perm PTE_PWU = PTE_PWU ->
      memory_virtual_to_physical (pagetable cur) va (mem k) = Ok (a, mem k) ->
      handler_step k (mkKernel (ptable k) (current k) (ticks k) (mkVm (write_bytes (phys (mem k)) a [b]) (pages (mem k))) (view k)).

(** The processor enters and leaves the kernel on the page table of the process
    that runs: syscall_entry and exception_entry load the kernel's page table
    only after they have pushed the registers, and before that the processor has
    read the interrupt descriptors, the segments, the task state and the handler
    itself; exception_return() and syscall_entry load the page table of the
    process before they restore the registers.  All of that is in the kernel's
    image or in the page of its stack. *)
Definition trap_address (va : Z) : bool :=
  ((KERNEL_START_ADDR <=? va) && (va <? round_up kernel_end PAGESIZE)) || ((KERNEL_STACK_TOP - PAGESIZE <=? va) && (va <? KERNEL_STACK_TOP)).

(** The process that runs has these pages where the kernel has them, for the
    kernel to write. *)
Definition sees_kernel (k : kernel) : Prop :=
  exists cur, ptable k !! current k = Some cur /\ forall va, trap_address va = true ->
    memory_virtual_to_physical (pagetable cur) va (mem k) = Ok (va, mem k) /\
    exists perm, memory_permissions (pagetable cur) va (mem k) = Ok (perm, mem k) /\ Z.land perm (Z.lor PTE_P PTE_W) = Z.lor PTE_P PTE_W.

(** A process runs until it calls the kernel or an exception does; in between it
    stores to its own memory.  The handlers run if the process sees the kernel's
    pages.  If it does not, a trap runs whatever the process has put there, with
    all rights: nothing is known of the next state. *)
Inductive action :=
  | Syscall (r : regstate) (keys : nat -> Z)
  | Exception (r : regstate) (cr2 : Z) (keys : nat -> Z)
  | Store (va b : Z)
  | Hijack.

Inductive step (k : kernel) : action -> kernel -> Prop :=
  | step_syscall r keys l k' : sees_kernel k -> 0 <= reg_rdi r < 2 ^ 64 -> syscall r keys k = Ok (l, k') -> step k (Syscall r keys) k'
  | step_exception r cr2 keys l k' : sees_kernel k -> exception r cr2 keys k = Ok (l, k') -> step k (Exception r cr2 keys) k'
  | step_store cur va perm a b : ptable k !! current k = Some cur -> va_is_canonical va = true -> 0 <= va -> 0 <= b < 256 ->
      memory_permissions (pagetable cur) va (mem k) = Ok (perm, mem k) -> Z.land perm PTE_PWU = PTE_PWU ->
      memory_virtual_to_physical (pagetable cur) va (mem k) = Ok (a, mem k) ->
      step k (Store va b) (mkKernel (ptable k) (current k) (ticks k) (mkVm (write_bytes (phys (mem k)) a [b]) (pages (mem k))) (view k))
  | step_hijack k' : ~ sees_kernel k -> step k Hijack k'.

(** The actions of processes that do not ask for the kernel's pages. *)
Definition polite (a : action) : Prop :=
  match a with
  | Syscall r _ => reg_rax r = SYSCALL_PAGE_ALLOC -> trap_address (reg_rdi r) = false
  | _ => True
  end.

Definition polite_step (k k' : kernel) : Prop := exists a, polite a /\ step k a k'.

(** The address of a store is in a page of the process. *)
Lemma store_page s T root va perm a : space s T root -> va_is_canonical va = true -> 0 <= va ->
  memory_permissions root va s = Ok (perm, s) -> Z.land perm PTE_PWU = PTE_PWU -> memory_virtual_to_physical root va s = Ok (a, s) ->
  exists q, user_maps s T va q /\ q <= a < q + 4096.
Proof.
  intros H Hc Hva Ep Hp Ea. rewrite (permissions_spec _ _ _ _ _ H Hc) in Ep. rewrite (translate_spec _ _ _ _ _ H Hc Hva) in Ea.
  injection Ep as <-. injection Ea as <-. set (e := leaf s T va) in *. unfold permission, translation in *.
  destruct (Z.land e PTE_P =? 0); [done|]. exists (Z.land e PTE_PAMASK). pose proof (Z.mod_pos_bound va 4096 ltac:(lia)).
  split; [|lia]. split; [|done]. rewrite land_small by done. fold e.
  change (Z.lor PTE_P PTE_U) with (Z.land PTE_PWU 5) at 1. by rewrite Z.land_assoc, Hp.
Qed.

Lemma public_not_table k Ts i T t : isolated k Ts -> Ts !! i = Some T -> in_tables T t -> ~ public t.
Proof. intros H HT Hin ->. pose proof (iso_alloc _ _ _ H _ _ _ HT Hin). done. Qed.

Lemma write_other (m : ram) a b q x : q mod 4096 = 0 -> q <= a < q + 4096 -> page_start x <> q -> byte_at (write_bytes m a [b]) x = byte_at m x.
Proof.
  intros Hq Ha Hx. apply byte_at_write_out. cbn [length]. destruct (decide (x = a)) as [-> |]; [|lia]. by rewrite (page_start_in q) in Hx.
Qed.

Lemma write_byte_range (m : ram) a b x : 0 <= b < 256 -> 0 <= byte_at m x < 256 -> 0 <= byte_at (write_bytes m a [b]) x < 256.
Proof.
  intros Hb Hx. destruct (decide (x = a)) as [->|Hne]; [|by rewrite byte_at_write_out by (cbn [length]; lia)].
  pose proof (byte_at_write_in m a [b] 0 b eq_refl) as E. change (Z.of_nat 0) with 0 in E. rewrite Z.add_0_r in E. by rewrite E.
Qed.

Lemma store_undisturbed k Ts T va q a b : healthy k Ts -> Ts !! current k = Some T -> user_maps (mem k) T va q -> q <= a < q + 4096 -> 0 <= b < 256 ->
  let k' := mkKernel (ptable k) (current k) (ticks k) (mkVm (write_bytes (phys (mem k)) a [b]) (pages (mem k))) (view k) in
  healthy k' Ts /\ undisturbed k k' Ts Ts /\ keeps_mappings (fun _ => True) k k' Ts Ts.
Proof.
  intros Hh HT Hu Ha Hb k'. pose proof (hl_isolated _ _ _ _ _ Hh) as H. pose proof (user_page_aligned _ _ _ _ Hu) as Hq. pose proof (iso_user _ _ _ H _ _ _ _ HT Hu) as Hown.
  assert (Htab : forall i Ti x, Ts !! i = Some Ti -> in_tables Ti (page_start x) ->
            byte_at (write_bytes (phys (mem k)) a [b]) x = byte_at (phys (mem k)) x).
  { intros i Ti x Hi Hin. apply (write_other _ _ _ q); [done..|]. intros Ex. rewrite Ex in Hin.
    destruct Hown as [Hp|(_ & _ & Hno)]; [by eapply public_not_table|by eapply Hno]. }
  assert (Hker : forall x, allocatable_physical_address kernel_end (page_start x) = false -> ~ public (page_start x) ->
            byte_at (write_bytes (phys (mem k)) a [b]) x = byte_at (phys (mem k)) x).
  { intros x Hx Hpub. apply (write_other _ _ _ q); [done..|]. intros Ex. rewrite Ex in *. destruct Hown as [|(Hal & _)]; [done|congruence]. }
  destruct (iso_proc _ _ _ H _ _ HT) as (pc & _ & Hsc).
  destruct (isolated_bytes kernel_end k Ts (mkVm (write_bytes (phys (mem k)) a [b]) (pages (mem k))) (view k) H (sp_len _ _ _ _ Hsc) ltac:(done) Htab) as [I' L'].
  split.
  - apply (healthy_next kernel_end kernel_pagetable lit Hplaced k Ts); try done; try apply Hh.
    + intros x Hx. apply write_byte_range; [done|]. by apply (hl_screen _ _ _ _ _ Hh).
    + destruct (hl_view _ _ _ _ _ Hh) as [|O]; [by left|right]. by apply (own_next _ (mem k)).
  - split; [|by apply keeps_leaf]. split; cbn [mem phys]; [intros j Tj va' Hj _; split; [done|]; by apply (L' j)| |done].
    intros j Tj va' q' x Hj Hne Hu' Hpub Hx. apply (write_other _ _ _ q); [done..|].
    rewrite (page_start_in q' x (user_page_aligned _ _ _ _ Hu') Hx). intros ->.
    destruct (iso_private _ _ _ H _ _ _ _ _ _ _ Hj HT Hu' Hu) as [|[-> _]]; done.
Qed.

Lemma step_healthy k Ts k' : healthy k Ts -> handler_step k k' -> exists Ts', healthy k' Ts' /\ undisturbed k k' Ts Ts'.
Proof.
  intros H St. destruct St as [r keys l k' Hr E|r cr2 keys l k' E|cur va perm a b Hcur Hc Hva Hb Ep Hp Ea].
  - destruct (syscall_undisturbed _ _ _ _ _ _ H Hr E) as (Ts' & H' & U & _). by exists Ts'.
  - exists Ts. destruct (exception_undisturbed _ _ _ _ _ _ _ H E) as (H' & U & _). done.
  - pose proof (hl_isolated _ _ _ _ _ H) as I. destruct (iso_current _ _ _ I) as [T HT]. exists Ts.
    destruct (store_page _ _ _ _ _ _ (cur_space kernel_end k Ts T cur I HT Hcur) Hc Hva Ep Hp Ea) as (q & Hu & Hq).
    destruct (store_undisturbed k Ts T va q a b H HT Hu Hq Hb) as (H' & U & _). done.
Qed.

Lemma steps_healthy k Ts k' : healthy k Ts -> rtc handler_step k k' -> exists Ts', healthy k' Ts'.
Proof.
  intros H R. revert Ts H. induction R as [k|k k1 k2 St R IH]; intros Ts H; [by exists Ts|].
  destruct (step_healthy _ _ _ H St) as (Ts1 & H1 & _). by apply (IH Ts1).
Qed.

(** The mappings that an action may change. *)
Definition left_alone (a : action) : Z -> Prop :=
  match a with Syscall r _ => not_requested r | _ => fun _ => True end.

Lemma action_healthy k Ts a k' : healthy k Ts -> sees_kernel k -> step k a k' ->
  exists Ts', healthy k' Ts' /\ undisturbed k k' Ts Ts' /\ keeps_mappings (left_alone a) k k' Ts Ts'.
Proof.
  intros H Hs St. destruct St as [r keys l k' _ Hr E|r cr2 keys l k' _ E|cur va perm a b Hcur Hc Hva Hb Ep Hp Ea|k' Hno]; [| | |done].
  - exact (syscall_undisturbed _ _ _ _ _ _ H (proj1 Hr) E).
  - exists Ts. exact (exception_undisturbed _ _ _ _ _ _ _ H E).
  - pose proof (hl_isolated _ _ _ _ _ H) as I. destruct (iso_current _ _ _ I) as [T HT]. exists Ts.
    destruct (store_page _ _ _ _ _ _ (cur_space kernel_end k Ts T cur I HT Hcur) Hc Hva Ep Hp Ea) as (q & Hu & Hq).
    exact (store_undisturbed k Ts T va q a b H HT Hu Hq Hb).
Qed.
End steps.

(** ** Timer interrupts *)

(** ** Walks in unchanged tables *)

Section same.
Context (kernel_end : Z) {absent : Z -> Prop} `{!Closed absent}.
Abbreviation space_with := (VmProofs.space_with kernel_end (absent := absent)).

Lemma bottom_unique s T root va l t l' t' : space_with s T root -> (l <= 3)%nat -> (l' <= 3)%nat -> bottom T va l t -> bottom T va l' t' -> l = l' /\ t = t'.
Proof.
  assert (Hlt : forall l l' t t', space_with s T root -> (l' <= 3)%nat -> bottom T va l t -> bottom T va l' t' -> ~ (l < l')%nat).
  { intros l1 l2 t1 t2 H H2 [B1 _] [_ B2] Hlt. destruct l2 as [|l2]; [lia|].
    destruct (up_chain kernel_end s T root va l1 t1 H B1 l2 ltac:(lia)) as [t3 E]. by rewrite (B2 l2 eq_refl) in E. }
  intros H Hl Hl' B1 B2. assert (l = l') as -> by (pose proof (Hlt l l' t t' H Hl' B1 B2); pose proof (Hlt l' l t' t H Hl B2 B1); lia).
  split; [done|]. destruct B1 as [B1 _], B2 as [B2 _]. congruence.
Qed.

Lemma translate_same s s' T root va a : space_with s T root -> length (pages s') = 512%nat -> (forall q, used s q = true -> used s' q = true) ->
  (forall x, in_tables T (page_start x) -> byte_at (phys s') x = byte_at (phys s) x) ->
  memory_virtual_to_physical root va s = Ok (a, s) -> memory_virtual_to_physical root va s' = Ok (a, s').
Proof.
  intros H Hlen U B. destruct (space_same kernel_end s s' T root Hlen (taken_mono _ _ _ U) B H) as [H' _]. unfold memory_virtual_to_physical.
  destruct (va_is_canonical va) eqn:Ec.
  - destruct (new_vmiter_spec kernel_end s T root va H Ec) as (l & t & Hl & Hb & E). destruct (new_vmiter_spec kernel_end s' T root va H' Ec) as (l' & t' & Hl' & Hb' & E').
    destruct (bottom_unique s T root va l t l' t' H Hl Hl' Hb Hb') as [<- <-].
    rewrite (bind_ok _ _ _ _ _ E), (bind_ok _ _ _ _ _ E'). unfold vmiter_pa. cbn [pep_ read_pe level_ va_].
    rewrite (bind_ok _ _ _ _ _ (read_entry _ _ _ _ _ _ _ _ H (proj1 Hb) (pidx_range va l))), (bind_ok _ _ _ _ _ (read_entry _ _ _ _ _ _ _ _ H' (proj1 Hb) (pidx_range va l))).
    rewrite (load_same kernel_end s s' T root l _ t _ B H (proj1 Hb) (pidx_range va l)). unfold ret. case_match; intros [= <-]; done.
  - unfold new_vmiter, real_find. cbn [level_ Nat.eqb orb pt_]. rewrite Ec. intros [= <-]. done.
Qed.
End same.

Section timer.
Context (kernel_end kernel_pagetable exception_entry TICK_LIMIT : Z) (lit : literal -> Z) (Hplaced : placed kernel_end lit).

Abbreviation healthy := (MemShowProofs.healthy kernel_end kernel_pagetable lit).
Abbreviation viewed := (MemShowProofs.viewed kernel_end kernel_pagetable lit).
Abbreviation exception := (Kernel.exception kernel_end kernel_pagetable exception_entry TICK_LIMIT lit).
Abbreviation run := (Kernel.run kernel_pagetable exception_entry).
Abbreviation check_pagetable := (Kernel.check_pagetable kernel_pagetable exception_entry).

(** Some process can run, and the page tables of those that can pass the check. *)
Record schedulable (k : kernel) : Prop := {
  sc_some : exists i, ready k i = true;
  sc_check i p : ptable k !! i = Some p -> state p = P_RUNNABLE -> check_pagetable (pagetable p) (mem k) = Ok (tt, mem k)
}.

(** The viewer has its page or finds one. *)
Definition viewer_ready (k : kernel) : Prop := v_ (view k) <> 0 \/ exists q, free_page kernel_end (mem k) q.

Lemma check_viewed k k' Ts i p : healthy k Ts -> viewed k k' Ts -> ptable k !! i = Some p -> state p = P_RUNNABLE ->
  check_pagetable (pagetable p) (mem k) = Ok (tt, mem k) -> check_pagetable (pagetable p) (mem k') = Ok (tt, mem k').
Proof.
  intros H V Hp Hs. pose proof (hl_isolated _ _ _ _ _ H) as I. destruct (iso_started _ _ _ I i p Hp ltac:(by rewrite Hs)) as [T HT].
  destruct (iso_proc _ _ _ I i T HT) as (p' & Ep & Hsp). rewrite Hp in Ep. injection Ep as <-. destruct (hl_kernel _ _ _ _ _ H) as [Tk K].
  pose proof (hl_isolated _ _ _ _ _ (vw_healthy _ _ _ _ _ _ V)) as I'. destruct (iso_proc _ _ _ I' i T HT) as (p' & _ & Hsp').
  pose proof (sp_len _ _ _ _ Hsp') as Hlen. pose proof (vw_used _ _ _ _ _ _ V) as U.
  assert (Hproc : forall va a, memory_virtual_to_physical (pagetable p) va (mem k) = Ok (a, mem k) -> memory_virtual_to_physical (pagetable p) va (mem k') = Ok (a, mem k')).
  { intros va a. apply (translate_same kernel_end (mem k) (mem k') T); [done..|]. intros x Hx. apply (vw_bytes _ _ _ _ _ _ V); [by eapply tables_taken| |].
    - destruct (hl_view _ _ _ _ _ H) as [|O]; [by right|left]. intros E. rewrite E in Hx. by apply (ow_table _ _ _ _ O i T).
    - intros E. rewrite E in Hx. by apply (public_not_table kernel_end k Ts i T CONSOLE_ADDR I HT Hx). }
  assert (Hker : forall va a, memory_virtual_to_physical kernel_pagetable va (mem k) = Ok (a, mem k) -> memory_virtual_to_physical kernel_pagetable va (mem k') = Ok (a, mem k')).
  { intros va a. apply (translate_same kernel_end (absent := closed) (mem k) (mem k') Tk); [apply K|done..|]. intros x Hx. destruct (km_kernel _ _ _ _ K _ Hx) as [Ha Hc].
    apply (vw_bytes _ _ _ _ _ _ V); [unfold VmProofs.taken; by rewrite Ha, orb_true_r| |done].
    destruct (hl_view _ _ _ _ _ H) as [|O]; [by right|left]. intros E. by rewrite E, (ow_alloc _ _ _ _ O) in Ha. }
  unfold Kernel.check_pagetable. destruct (_ =? 0); [|done]. cbn [c_assert]. rewrite !bind_ret. unfold bind.
  destruct (memory_virtual_to_physical (pagetable p) exception_entry (mem k)) as [[a s1]|] eqn:E1; [|done]. pose proof (translate_pure _ _ _ _ _ E1) as ->.
  rewrite (Hproc _ _ E1). destruct (a =? exception_entry); [|done]. cbn [c_assert]. unfold ret.
  destruct (memory_virtual_to_physical kernel_pagetable (pagetable p) (mem k)) as [[b s1]|] eqn:E2; [|done]. pose proof (translate_pure _ _ _ _ _ E2) as ->.
  rewrite (Hker _ _ E2). destruct (b =? pagetable p); [|done]. cbn [c_assert]. unfold ret.
  destruct (memory_virtual_to_physical (pagetable p) kernel_pagetable (mem k)) as [[c s1]|] eqn:E3; [|done]. pose proof (translate_pure _ _ _ _ _ E3) as ->.
  rewrite (Hproc _ _ E3). by destruct (c =? kernel_pagetable).
Qed.

Lemma run_ok i k : schedulable k -> ready k i = true -> run i k = Ok (Resume i, mkKernel (ptable k) i (ticks k) (mem k) (view k)).
Proof.
  intros H Hr. unfold ready in Hr. destruct (ptable k !! i) as [p|] eqn:Ep; [|done]. apply Z.eqb_eq in Hr as Hs.
  unfold Kernel.run. assert (Eg : get_proc i k = Ok (p, k)) by (unfold get_proc; by rewrite Ep).
  rewrite (bind_ok _ _ _ _ _ Eg), Hr. cbn [c_assert]. rewrite bind_ret. rewrite (bind_ok _ _ _ _ (mkKernel (ptable k) i (ticks k) (mem k) (view k)) eq_refl).
  by rewrite (bind_ok _ _ _ _ _ (in_vm_ok _ (mkKernel _ _ _ _ _) _ _ (sc_check _ H _ _ Ep Hs))).
Qed.

(** Registers, the clock, the choice of the process and the viewer do not matter. *)
Lemma schedulable_saved r k c t w : schedulable k ->
  let k' := mkKernel (ptable (saved r k)) c t (mem k) w in schedulable k' /\ forall i, ready k' i = ready k i.
Proof.
  intros H k'. assert (Hrd : forall i, ready k' i = ready k i).
  { intros i. unfold ready, k'. cbn [ptable saved]. rewrite list_lookup_alter. case_decide as Hd; [subst|done]. by destruct (ptable k !! current k). }
  split; [|done]. destruct H as [[i Hi] Hck]. split; [exists i; by rewrite Hrd|].
  intros j p Hj Hs. unfold k' in *. apply alter_lookup in Hj as [(<- & q & Hq & ->)|[_ Hj]]; cbn [mem]; [by apply (Hck _ q Hq)|by apply (Hck _ _ Hj)].
Qed.

(** ** One interrupt, and many *)

Record event := mkEvent { ev_regs : regstate; ev_cr2 : Z; ev_keys : nat -> Z }.

Definition timer_event (e : event) : Prop := reg_intno (ev_regs e) = INT_IRQ + IRQ_TIMER /\ forall i, quiet (ev_keys e i) = true.

Fixpoint interrupts (es : list event) : M kernel (list nat) :=
  match es with
  | [] => ret []
  | e :: es =>
      l <- exception (ev_regs e) (ev_cr2 e) (ev_keys e);;
      ps <- interrupts es;;
      ret (match l with Resume i => i :: ps | Return _ => ps end)
  end.

Lemma timer_step e k Ts : healthy k Ts -> schedulable k -> viewer_ready k -> TICK_LIMIT = 0 -> timer_event e ->
  exists d k', exception (ev_regs e) (ev_cr2 e) (ev_keys e) k = Ok (Resume (place (current k) d), k') /\
    healthy k' Ts /\ schedulable k' /\ viewer_ready k' /\ current k' = place (current k) d /\ (forall i, ready k' i = ready k i) /\
    (1 <= d <= 16)%nat /\ forall n, (0 < n < d)%nat -> ready k (place (current k) n) = false.
Proof.
  intros H Sc Hv Hlim [Hint Hq]. set (r := ev_regs e) in *. pose proof (healthy_saved kernel_end kernel_pagetable lit r k Ts H) as Hs.
  destruct (memshow_run kernel_end kernel_pagetable lit Hplaced (saved r k) Ts Hs) as [(k1 & cells & Em & V & _)|(_ & E0 & Hno)].
  2:{ destruct Hv as [Hv|[q Hf]]; [done|]. by destruct (Hno q). }
  destruct (vw_same _ _ _ _ _ _ V) as (P1 & C1 & T1). set (k2 := mkKernel (ptable k1) (current k1) (u64 (ticks k1 + 1)) (mem k1) (view k1)).
  destruct (schedulable_saved r k (current k) (ticks k) (view k) Sc) as [Sc1 R1].
  assert (Sc2 : schedulable k2 /\ forall i, ready k2 i = ready k i).
  { assert (Hr2 : forall i, ready k2 i = ready k i) by (intros i; rewrite <- R1; unfold ready, k2; cbn [ptable]; by rewrite P1). split; [|done].
    split; [destruct (sc_some _ Sc) as [i Hi]; exists i; by rewrite Hr2|]. intros i p Hp Hst. cbn [k2 ptable mem] in *. rewrite P1 in Hp.
    by apply (check_viewed (saved r k) k1 Ts i p Hs V Hp Hst), (sc_check _ Sc1 i p). }
  destruct Sc2 as [Sc2 R2]. pose proof (vw_healthy _ _ _ _ _ _ V) as H1. pose proof (isolated_table _ _ _ (hl_isolated _ _ _ _ _ H1)) as [T2 T3 T4].
  destruct (schedule_first kernel_end kernel_pagetable exception_entry lit k2 ltac:(by split)) as [(d & Hd & Hrd & Hb & Es)|Hno].
  2:{ destruct (sc_some _ Sc) as [i Hi]. by rewrite <- R2, Hno in Hi. }
  cbn [k2 current] in Hrd, Hb, Es. rewrite C1 in Hrd, Hb, Es. cbn [saved current] in Hrd, Hb, Es.
  set (k3 := mkKernel (ptable k1) (place (current k) d) (u64 (ticks k1 + 1)) (mem k1) (view k1)).
  assert (Er : run (place (current k) d) k2 = Ok (Resume (place (current k) d), k3)) by (by apply run_ok).
  exists d, k3. split; [|split; [|split; [|split; [|split; [|split; [|split]]]]]].
  - unfold Kernel.exception. rewrite (bind_ok _ _ _ _ _ (save_regs_run r k)).
    rewrite Hint. change (negb (INT_IRQ + IRQ_TIMER =? INT_PF) || _) with true. cbv iota. rewrite bind_bind, (bind_ok _ _ _ _ _ Em), bind_bind, bind_gets.
    rewrite Hlim. cbn [Z.eqb negb andb]. rewrite bind_ret, (bind_ok _ _ _ _ _ (quiet_run _ k1 (Hq 0%nat))).
    unfold exception_switch. rewrite bind_gets, Hint, Z.eqb_refl. rewrite (bind_ok _ _ _ _ k2 eq_refl).
    etransitivity; [apply Es; [change (Z.to_nat NPROC) with 16%nat; lia|intros i; apply Hq]|exact Er].
  - assert (Hk2 : healthy k2 Ts) by (destruct H1 as [J1 J2 J3 J4 J5 J6 J7 J8]; split; try done; by apply (isolated_ext _ k1)).
    exact (proj1 (healthy_run kernel_end kernel_pagetable exception_entry lit _ _ _ _ _ Hk2 Er)).
  - destruct Sc2 as [S1 S2]. split; [exact S1|exact S2].
  - left. exact (own_nonzero _ _ _ _ (vw_own _ _ _ _ _ _ V)).
  - reflexivity.
  - exact R2.
  - exact Hd.
  - intros n Hn. rewrite <- R2. by apply Hb.
Qed.

Lemma timer_total es : forall k Ts, healthy k Ts -> schedulable k -> viewer_ready k -> TICK_LIMIT = 0 -> Forall timer_event es ->
  exists ps k', interrupts es k = Ok (ps, k') /\ length ps = length es /\
    forall j d, ready k j = true -> (1 <= d <= length es)%nat -> place (current k) d = j -> j ∈ ps.
Proof.
  induction es as [|e es IH]; intros k Ts H Sc Hv Hlim Hes.
  - exists [], k. split; [done|]. split; [done|]. cbn [length]. lia.
  - apply Forall_cons in Hes as [He Hes]. destruct (timer_step e k Ts H Sc Hv Hlim He) as (d & k1 & Ee & H1 & Sc1 & V1 & Hc & R1 & Hd & Hb).
    destruct (IH k1 Ts H1 Sc1 V1 Hlim Hes) as (ps & k' & E & Hl & Hin). exists (place (current k) d :: ps), k'. split_and!.
    + cbn [interrupts]. by rewrite (bind_ok _ _ _ _ _ Ee), (bind_ok _ _ _ _ _ E).
    + cbn [length]. by rewrite Hl.
    + intros j dj Hj Hdj Hp. destruct (decide (dj = d)) as [-> |Hne]; [subst j; left|]. right.
      assert (d < dj)%nat. { destruct (decide (dj < d)%nat); [|lia]. rewrite <- Hp, (Hb dj) in Hj by lia. done. }
      cbn [length] in Hdj. apply (Hin j (dj - d)%nat); [by rewrite R1|lia|]. rewrite Hc, <- Hp. unfold place.
      rewrite Nat.Div0.add_mod_idemp_l. f_equal. lia.
Qed.
End timer.
