(* ===== verification/KernelInit.v ===== *)
(** * Booting: the kernel starts isolated processes

    From the hardware's initial page table to the first process: kernel_start()
    returns to process 1, and every process has the address space that
    [KernelBoot] describes. *)
From stdpp Require Import prelude gmap list.
From Stdlib Require Import ZArith Lia.
From S2P Require Import Prelude Memory Lib LibProofs Printer ConsoleProofs Vm VmProofs VmBoot KernelState MemViewer Kernel KernelBoot KernelProofs ViewerProofs MemShowProofs KernelSteps.
Open Scope Z_scope.
Open Scope c_scope.

(** ** The pages of a new process *)

Lemma kernel_entry_user x : 0 <= x < 256 -> Z.land (kernel_entry x) 5 = 5 -> kernel_entry x = 0xB8007.
Proof.
  intros Hx. unfold kernel_entry. destruct (Z.eqb_spec x 0); [done|]. destruct (Z.eqb_spec x 0xB8); [done|].
  rewrite entry_flags by (try apply page_mod; lia). done.
Qed.

Lemma stack_pre : pre stack_addr 0 = 1.
Proof. done. Qed.

(** The user mappings: the console, the stack, and the segments. *)
Lemma layout_user segs m va : let e := layout segs m (4096 * (m + total segs)) va in Forall seg_ok segs -> Z.land e 5 = 5 ->
  e = 0xB8007 \/ exists j, m <= j <= m + total segs /\ e = 4096 * j + 7 /\
    ((j = m + total segs /\ same_page stack_addr va) \/ (j < m + total segs /\ pre va 0 = 0 /\ seg_page segs m (pidx va 0) = Some (4096 * j))).
Proof.
  intros e Hok He. pose proof (total_nonneg segs Hok). unfold e, layout in *. change PTE_PWU with 7 in *.
  destruct (decide (same_page stack_addr va)) as [D|D]; [right; exists (m + total segs); split; [lia|]; split; [done|by left]|].
  destruct (decide (pre va 0 = 0)) as [Hp|Hp].
  - destruct (seg_page segs m (pidx va 0)) as [q|] eqn:Eq.
    + right. destruct (seg_page_range segs Hok _ _ _ Eq) as (j & -> & Hj & _). exists j. split; [lia|]. split; [done|]. right. split; [lia|done].
    + left. destruct (decide (in_range 0 PROC_START_ADDR va)) as [[_ Hr]|]; [|done]. unfold PROC_START_ADDR in Hr. apply kernel_entry_user; [lia|done].
  - destruct (decide (in_range 0 PROC_START_ADDR va)) as [[? _]|]; done.
Qed.

Lemma layout_private segs m va va' q : Forall seg_ok segs -> 0 <= m -> m + total segs < 64 ->
  let e := layout segs m (4096 * (m + total segs)) va in let e' := layout segs m (4096 * (m + total segs)) va' in
  Z.land e 5 = 5 -> Z.land e' 5 = 5 -> q = Z.land e PTE_PAMASK -> q = Z.land e' PTE_PAMASK -> public q \/ same_page va va'.
Proof.
  intros Hok Hm Hm2 e e' He He' Eq Eq'. destruct (layout_user segs m va Hok He) as [E1|(j & Hj & E1 & C1)]; fold e in E1.
  { left. rewrite Eq, E1. done. }
  destruct (layout_user segs m va' Hok He') as [E2|(j' & Hj' & E2 & C2)]; fold e' in E2.
  { left. rewrite Eq', E2. done. }
  right. rewrite E1, entry_page in Eq by (try apply page_mod; lia). rewrite E2, entry_page in Eq' by (try apply page_mod; lia).
  assert (j' = j) as -> by lia. unfold same_page. destruct C1 as [[-> [A1 A2]]|(C1 & P1 & Q1)], C2 as [[C2 [B1 B2]]|(C2 & P2 & Q2)]; try lia.
  split; [congruence|]. symmetry. by apply (seg_page_inj segs Hok m _ _ (4096 * j)).
Qed.

Section init.
Context (kernel_end kernel_pagetable exception_entry : Z) (lit : literal -> Z).

Abbreviation separate := (KernelProofs.separate kernel_end).
Abbreviation isolated := (KernelProofs.isolated kernel_end).
Abbreviation built := (KernelBoot.built kernel_end).
Abbreviation taken := (VmProofs.taken kernel_end).

(** ** Adding a process *)

Section add.
Context (k : kernel) (Ts : gmap nat tables) (i : nat) (p0 : proc) (T : tables) (s' : vm) (segs : list segment) (n m n' : Z) (r : regstate).
Context (H : separate k Ts) (Hi : ptable k !! i = Some p0) (HTs : Ts !! i = None).
Context (Hok : Forall seg_ok segs) (B : built (mem k) s' segs T n m n') (Hn : 0 <= n).

Definition added : kernel := mkKernel (<[i := mkProc (4096 * n) (pid p0) P_RUNNABLE r]> (ptable k)) (current k) (ticks k) s' (view k).

Lemma added_bound : m + total segs < 64.
Proof. destruct (bt_range _ _ _ _ _ _ _ _ B). pose proof (low_range _ _ (bt_low _ _ _ _ _ _ _ _ B)). lia. Qed.

(** The other processes do not notice. *)
Lemma added_other j Tj : Ts !! j = Some Tj -> exists pj, ptable k !! j = Some pj /\ VmProofs.space kernel_end s' Tj (pagetable pj) /\
  forall va, leaf s' Tj va = leaf (mem k) Tj va.
Proof.
  intros Hj. destruct (iso_proc _ _ _ H _ _ Hj) as (pj & Ej & Hsj). exists pj. split; [done|]. destruct (bt_keeps _ _ _ _ _ _ _ _ B) as [U Bk].
  apply (space_same kernel_end (mem k)); [apply (low_len _ _ (bt_low _ _ _ _ _ _ _ _ B))|by apply taken_mono| |done].
  intros a Ha. apply Bk. by eapply tables_taken.
Qed.

(** A user page of the new process is its own. *)
Lemma added_user va q : user_maps s' T va q -> public q \/
  (allocatable_physical_address kernel_end q = true /\ used s' q = true /\ taken (mem k) q = false /\ ~ in_tables T q).
Proof.
  intros [U1 ->]. rewrite (bt_leaf _ _ _ _ _ _ _ _ B) in *. pose proof added_bound. destruct (bt_range _ _ _ _ _ _ _ _ B) as [R1 R2].
  destruct (layout_user segs m va Hok U1) as [-> |(j & Hj & -> & _)]; [by left|right].
  rewrite entry_page by (try apply page_mod; lia). pose proof (bt_low _ _ _ _ _ _ _ _ B) as Hl. split; [apply low_allocatable; lia|].
  split; [rewrite (low_used _ _ Hl) by lia; apply Z.ltb_lt; lia|]. split; [|by apply (bt_private _ _ _ _ _ _ _ _ B)].
  apply free_not_taken. apply (bt_free _ _ _ _ _ _ _ _ B). lia.
Qed.

Lemma added_lookup j Tj : <[i := T]> Ts !! j = Some Tj -> (j = i /\ Tj = T) \/ (j <> i /\ Ts !! j = Some Tj).
Proof. intros Hj. apply lookup_insert_Some in Hj as [[<- <-]|[Hne Hj]]; auto. Qed.

Lemma added_table_old j Tj t : Ts !! j = Some Tj -> in_tables Tj t -> ~ in_tables T t.
Proof.
  intros Hj Hin Hin'. destruct (iso_proc _ _ _ H _ _ Hj) as (pj & _ & Hsj). pose proof (tables_taken _ _ _ _ _ Hsj Hin) as Ht.
  by rewrite (bt_fresh _ _ _ _ _ _ _ _ B _ Hin') in Ht.
Qed.

Lemma added_old_user j Tj va q : Ts !! j = Some Tj -> user_maps s' Tj va q -> user_maps (mem k) Tj va q.
Proof. intros Hj. destruct (added_other j Tj Hj) as (_ & _ & _ & L). unfold user_maps. by rewrite L. Qed.

(** A page of another process is not a page of the new one. *)
Lemma added_no_share j Tj va va' q : Ts !! j = Some Tj -> user_maps s' Tj va q -> user_maps s' T va' q -> public q.
Proof.
  intros Hj U U'. apply (added_old_user _ _ _ _ Hj) in U. destruct (iso_user _ _ _ H _ _ _ _ Hj U) as [|(_ & Hu & _)]; [done|].
  destruct (added_user _ _ U') as [|(_ & _ & Hq & _)]; [done|]. by rewrite (used_taken _ _ _ Hu) in Hq.
Qed.

Lemma added_separate : separate added (<[i := T]> Ts).
Proof.
  destruct (bt_keeps _ _ _ _ _ _ _ _ B) as [Uk _]. split; unfold added; cbn [ptable mem].
  - rewrite length_insert. apply H.
  - intros j p Hj. apply list_lookup_insert_Some in Hj as [(<- & <- & _)|[_ Hj]]; cbn [pid]; by apply (iso_pid _ _ _ H).
  - intros j Tj Hj. destruct (added_lookup _ _ Hj) as [[-> ->]|[Hne Hj']].
    + eexists. split; [apply list_lookup_insert_eq; by eapply lookup_lt_Some|]. apply B.
    + destruct (added_other j Tj Hj') as (pj & Ej & Hs & _). exists pj. by rewrite list_lookup_insert_ne.
  - intros j p Hj Hs. destruct (decide (j = i)) as [-> |Hne]; [by rewrite lookup_insert_eq|]. rewrite lookup_insert_ne by done.
    rewrite list_lookup_insert_ne in Hj by done. by apply (iso_started _ _ _ H j p).
  - intros j1 j2 T1 T2 t H1 H2 I1 I2. destruct (added_lookup _ _ H1) as [[-> ->]|[N1 H1']], (added_lookup _ _ H2) as [[-> ->]|[N2 H2']]; [done|..].
    + by destruct (added_table_old _ _ _ H2' I2).
    + by destruct (added_table_old _ _ _ H1' I1).
    + exact (iso_tables _ _ _ H _ _ _ _ _ H1' H2' I1 I2).
  - intros j Tj t Hj Hin. destruct (added_lookup _ _ Hj) as [[-> ->]|[Hne Hj']]; [|by apply (iso_alloc _ _ _ H _ _ _ Hj')].
    apply (bt_fresh _ _ _ _ _ _ _ _ B) in Hin. unfold VmProofs.taken in Hin. apply orb_false_iff in Hin as [_ Hin]. by apply negb_false_iff in Hin.
  - intros j Tj va q Hj Hu. destruct (added_lookup _ _ Hj) as [[-> ->]|[Hne Hj']].
    + destruct (added_user _ _ Hu) as [|(A1 & A2 & A3 & A4)]; [by left|right]. split_and!; [done..|]. intros j2 T2 H2.
      destruct (added_lookup _ _ H2) as [[-> ->]|[N2 H2']]; [done|]. intros Hin. destruct (iso_proc _ _ _ H _ _ H2') as (pj & _ & Hsj).
      by rewrite (tables_taken _ _ _ _ _ Hsj Hin) in A3.
    + destruct (iso_user _ _ _ H _ _ _ _ Hj' (added_old_user _ _ _ _ Hj' Hu)) as [|(A1 & A2 & A3)]; [by left|right].
      split_and!; [done|auto|]. intros j2 T2 H2. destruct (added_lookup _ _ H2) as [[-> ->]|[N2 H2']]; [|by eapply A3].
      intros Hin. apply (bt_fresh _ _ _ _ _ _ _ _ B) in Hin. by rewrite (used_taken _ _ _ A2) in Hin.
  - intros j1 j2 T1 T2 va va' q H1 H2 U1 U2.
    destruct (added_lookup _ _ H1) as [[-> ->]|[N1 H1']], (added_lookup _ _ H2) as [[-> ->]|[N2 H2']].
    + destruct U1 as [U1 Q1], U2 as [U2 Q2]. rewrite (bt_leaf _ _ _ _ _ _ _ _ B) in *. destruct (bt_range _ _ _ _ _ _ _ _ B).
      destruct (layout_private segs m va va' q Hok ltac:(lia) added_bound U1 U2 Q1 Q2); auto.
    + left. by apply (added_no_share j2 T2 va' va q).
    + left. by apply (added_no_share j1 T1 va va' q).
    + apply (iso_private _ _ _ H _ _ _ _ _ _ _ H1' H2'); by eapply added_old_user.
Qed.

End add.

(** ** process_setup() *)

Lemma alter_insert {A} (f : A -> A) (l : list A) i x : l !! i = Some x -> alter f i l = <[i := f x]> l.
Proof.
  intros E. apply list_eq. intros j. rewrite list_lookup_alter. case_decide as Hd.
  - subst j. rewrite list_lookup_insert_eq by (by eapply lookup_lt_Some). by rewrite E.
  - by rewrite list_lookup_insert_ne.
Qed.

Definition start_regs (pgm : program_image) : regstate := set_rip_rsp (pgm_entry pgm) MEMSIZE_VIRTUAL (init_regs 0).

Lemma process_setup_run k i p0 pgm n : ptable k !! i = Some p0 -> low (mem k) n -> n + 8 + total (pgm_segments pgm) <= 64 ->
  Forall seg_ok (pgm_segments pgm) -> ForallOrdPairs apart (pgm_segments pgm) ->
  exists s' T m n', process_setup kernel_end i pgm k = Ok (tt, added k i p0 s' n (start_regs pgm)) /\
    built (mem k) s' (pgm_segments pgm) T n m n'.
Proof.
  intros Hi Hl Hn Hok Hap. pose proof (lookup_lt_Some _ _ _ Hi) as Hlt.
  destruct (build_kernel kernel_end (mem k) n (pgm_segments pgm) Hl Hn Hok) as (s1 & s2 & s3 & s4 & T & t0 & m & E1 & E2 & E3 & E4 & S4 & K4 & F4 & Hl4 & Hm & Ht0 & L4).
  destruct (build_user kernel_end (mem k) n (pgm_segments pgm) Hl Hn Hok Hap s4 T t0 m S4 K4 F4 Hl4 Hm Ht0 L4) as (s5 & s6 & s7 & s8 & T8 & n' & E5 & E6 & E7 & E8 & B).
  exists s8, T8, m, n'. split; [|done]. unfold process_setup, init_process.
  set (l1 := <[i := mkProc (pagetable p0) (pid p0) (state p0) (init_regs 0)]> (ptable k)).
  set (l2 := <[i := mkProc (4096 * n) (pid p0) (state p0) (init_regs 0)]> (ptable k)).
  assert (Eset1 : set_proc i (fun p => mkProc (pagetable p) (pid p) (state p) (init_regs 0)) k = Ok (tt, mkKernel l1 (current k) (ticks k) (mem k) (view k)))
    by (unfold set_proc, modify; by rewrite (alter_insert _ _ _ _ Hi)).
  rewrite (bind_ok _ _ _ _ _ Eset1). rewrite (bind_ok _ _ _ _ _ (in_vm_ok _ (mkKernel l1 _ _ (mem k) _) _ _ E1)). cbn [ptable current ticks view].
  assert (Eset2 : set_proc i (fun p => mkProc (4096 * n) (pid p) (state p) (regs p)) (mkKernel l1 (current k) (ticks k) s1 (view k)) = Ok (tt, mkKernel l2 (current k) (ticks k) s1 (view k))).
  { unfold set_proc, modify. cbn [ptable current ticks mem view]. unfold l1. rewrite (alter_insert _ _ _ _ (list_lookup_insert_eq _ _ _ Hlt)).
    by rewrite list_insert_insert_eq. }
  rewrite (bind_ok _ _ _ _ _ Eset2).
  rewrite (bind_ok _ _ _ _ _ (in_vm_ok _ (mkKernel l2 _ _ s1 _) _ _ E2)). cbn [ptable current ticks view].
  rewrite (bind_ok _ _ _ _ _ (in_vm_ok _ (mkKernel l2 _ _ s2 _) _ _ E3)). cbn [ptable current ticks view].
  rewrite (bind_ok _ _ _ _ _ (in_vm_ok _ (mkKernel l2 _ _ s3 _) _ _ E4)). cbn [ptable current ticks view].
  rewrite (bind_ok _ _ _ _ _ (in_vm_ok _ (mkKernel l2 _ _ s4 _) _ _ E5)). cbn [ptable current ticks view].
  rewrite (bind_ok _ _ _ _ _ (in_vm_ok _ (mkKernel l2 _ _ s5 _) _ _ E6)). cbn [ptable current ticks view].
  rewrite (bind_ok _ _ _ _ _ (in_vm_ok _ (mkKernel l2 _ _ s6 _) _ _ E7)). cbn [ptable current ticks view].
  rewrite (bind_ok _ _ _ _ _ (in_vm_ok _ (mkKernel l2 _ _ s7 _) _ _ E8)). cbn [ptable current ticks view].
  unfold set_proc, modify, added. cbn [ptable current ticks mem view]. unfold l2. rewrite (alter_insert _ _ _ _ (list_lookup_insert_eq _ _ _ Hlt)).
  by rewrite list_insert_insert_eq.
Qed.

(** ** The kernel's page table *)

Abbreviation kernel_maps := (MemShowProofs.kernel_maps kernel_end kernel_pagetable).

Lemma low_translation s T root a t x : VmProofs.space_with kernel_end (absent := closed) s T root -> T !! (0%nat, 0) = Some t ->
  4096 <= a < 0x200000 -> x = a / 4096 -> leaf s T (4096 * x) = 4096 * x + 3 \/ leaf s T (4096 * x) = 4096 * x + 7 ->
  memory_virtual_to_physical root a s = Ok (a, s).
Proof.
  intros H Ht Ha -> Hl. destruct (low_page a ltac:(lia)) as [P1 P2]. pose proof (Z.div_mod a 4096 ltac:(lia)) as Da.
  pose proof (Z.mod_pos_bound a 4096 ltac:(lia)) as Ma. destruct (low_page (4096 * (a / 4096)) ltac:(lia)) as [P3 P4].
  rewrite (translate_here kernel_end s T root a t H ltac:(by rewrite P1) (low_canonical a ltac:(lia)) ltac:(lia)).
  assert (El : leaf s T a = leaf s T (4096 * (a / 4096))) by (unfold leaf; by rewrite P1, P3, P2, P4, page_div).
  rewrite El. unfold translation. destruct Hl as [-> | ->]; rewrite entry_flags, entry_page by (try done; try apply page_mod; lia);
    change (Z.land _ PTE_P =? 0) with false; cbv iota; do 2 f_equal; lia.
Qed.

Lemma kernel_maps_kept s s' Tk : kernel_maps s Tk -> keeps kernel_end s s' -> length (pages s') = 512%nat -> kernel_maps s' Tk.
Proof.
  intros H [U B] Hlen. apply (kernel_maps_bytes _ _ s); [done..|]. intros a Ha _. apply B. unfold VmProofs.taken. by rewrite Ha, orb_true_r.
Qed.

(** ** Processes that were started *)

Record started (k : kernel) (j : nat) (pgm : program_image) (T : tables) (n m : Z) : Prop := {
  st_proc : ptable k !! j = Some (mkProc (4096 * n) (Z.of_nat j) P_RUNNABLE (start_regs pgm));
  st_space : VmProofs.space kernel_end (mem k) T (4096 * n);
  st_range : 1 <= n /\ n < m /\ m + total (pgm_segments pgm) < 64;
  st_leaf va : leaf (mem k) T va = layout (pgm_segments pgm) m (4096 * (m + total (pgm_segments pgm))) va;
  st_loaded : loaded (mem k) (pgm_segments pgm) m;
  st_taken x : m <= x <= m + total (pgm_segments pgm) -> taken (mem k) (4096 * x) = true
}.

Lemma kernel_entry_low x : 1 <= x < 256 -> kernel_entry x = 4096 * x + 3 \/ kernel_entry x = 4096 * x + 7.
Proof. intros Hx. unfold kernel_entry. rewrite (proj2 (Z.eqb_neq _ _)) by lia. destruct (Z.eqb_spec x 0xB8) as [-> |]; auto. Qed.

Lemma layout_kernel segs m stk x : Forall seg_ok segs -> 1 <= x < 256 -> layout segs m stk (4096 * x) = kernel_entry x.
Proof.
  intros Hok Hx. destruct (low_page (4096 * x) ltac:(lia)) as [P1 P2]. rewrite page_div in P2. unfold layout.
  rewrite decide_False by (intros [Hp _]; rewrite P1, stack_pre in Hp; lia). rewrite decide_True, P2 by done.
  destruct (seg_page segs m x) as [q|] eqn:E; [destruct (seg_page_range segs Hok _ _ _ E) as (_ & _ & _ & ?); lia|].
  by rewrite decide_True by (split; [done|unfold PROC_START_ADDR; lia]).
Qed.

(** An address space without large pages, seen as one that may have them. *)
Lemma space_closed s T root : VmProofs.space kernel_end s T root -> VmProofs.space_with kernel_end (absent := closed) s T root.
Proof.
  intros H. split; try apply H. intros l x t i E Hi. pose proof (sp_inner _ _ _ _ H l x t i E Hi) as Hx.
  destruct (T !! (l, 512 * x + i)); [done|]. by apply inactive_closed.
Qed.

Lemma layout_has_table s T root segs m stk : VmProofs.space kernel_end s T root -> Forall seg_ok segs ->
  (forall va, leaf s T va = layout segs m stk va) -> exists t, T !! (0%nat, 0) = Some t.
Proof.
  intros H Hok L. pose proof (L (4096 * 1)) as L1. rewrite layout_kernel in L1 by (done || lia). unfold leaf in L1.
  change (pre (4096 * 1) 0) with 0 in L1. destruct (T !! (0%nat, 0)) as [t|]; [by exists t|done].
Qed.

Context (Hentry : 4096 <= exception_entry < 0x100000) (Hkpt : 4096 <= kernel_pagetable < 0x100000) (Hplaced : placed kernel_end lit).

Lemma check_started k j pgm T n m Tk : started k j pgm T n m -> Forall seg_ok (pgm_segments pgm) -> kernel_maps (mem k) Tk ->
  check_pagetable kernel_pagetable exception_entry (4096 * n) (mem k) = Ok (tt, mem k).
Proof.
  intros [S1 S2 S3 S4 S5 S6] Hok [K1 [tk K2] K3 K4]. pose proof (total_nonneg _ Hok). destruct (layout_has_table _ _ _ _ _ _ S2 Hok S4) as [t Ht].
  pose proof (space_closed _ _ _ S2) as S2'. unfold check_pagetable. change PAGESIZE with 4096. rewrite page_mod. cbn [Z.eqb c_assert]. rewrite bind_ret.
  assert (Hlow : forall a, 4096 <= a < 0x100000 -> memory_virtual_to_physical (4096 * n) a (mem k) = Ok (a, mem k)).
  { intros a Ha. pose proof (Z.div_mod a 4096 ltac:(lia)). pose proof (Z.mod_pos_bound a 4096 ltac:(lia)).
    apply (low_translation _ T _ a t (a / 4096)); [done|done|lia|done|]. rewrite S4, layout_kernel by (done || lia). apply kernel_entry_low. lia. }
  rewrite (bind_ok _ _ _ _ _ (Hlow _ Hentry)), Z.eqb_refl. cbn [c_assert]. rewrite bind_ret.
  assert (Ek : memory_virtual_to_physical kernel_pagetable (4096 * n) (mem k) = Ok (4096 * n, mem k)).
  { apply (low_translation _ Tk _ _ tk n); [done|done|lia|by rewrite page_div|]. apply K4. lia. }
  rewrite (bind_ok _ _ _ _ _ Ek), Z.eqb_refl. cbn [c_assert]. rewrite bind_ret.
  rewrite (bind_ok _ _ _ _ _ (Hlow _ Hkpt)), Z.eqb_refl. done.
Qed.

(** ** Starting all programs *)

Record program_ok (pgm : program_image) : Prop := {
  po_segs : Forall seg_ok (pgm_segments pgm);
  po_apart : ForallOrdPairs apart (pgm_segments pgm)
}.

(** Pages that suffice for the programs: for each, its segments and at most
    eight more for the page table and the stack. *)
Definition need (pgms : list program_image) : Z := foldr (fun pgm n => 8 + total (pgm_segments pgm) + n) 0 pgms.

Record boot_inv (k : kernel) (Ts : gmap nat tables) (done : list program_image) (n : Z) : Prop := {
  bi_separate : separate k Ts;
  bi_low : low (mem k) n;
  bi_kernel : exists Tk, kernel_maps (mem k) Tk;
  bi_free j p : ptable k !! j = Some p -> (j = 0 \/ length done < j)%nat -> state p = P_FREE /\ Ts !! j = None;
  bi_started j pgm : done !! j = Some pgm -> program_ok pgm /\ exists T n m, Ts !! S j = Some T /\ started k (S j) pgm T n m;
  bi_texts : texts lit (mem k);
  bi_screen a : console <= a < console + 4000 -> 0 <= byte_at (phys (mem k)) a < 256;
  bi_view : view k = mkViewer 0 0 0
}.

Lemma need_nonneg pgms : Forall program_ok pgms -> 0 <= need pgms.
Proof. induction 1 as [|pgm pgms Hp _ IH]; cbn; [lia|]. pose proof (total_nonneg _ (po_segs _ Hp)). unfold need in IH. lia. Qed.

(** A process that was started before is not disturbed by the next one. *)
Lemma started_kept k i p0 s' segs T0 n0 m0 n' r j pgm T n m : built (mem k) s' segs T0 n0 m0 n' -> j <> i -> started k j pgm T n m ->
  Forall seg_ok (pgm_segments pgm) -> started (added k i p0 s' n0 r) j pgm T n m.
Proof.
  intros B Hne [S1 S2 S3 S4 S5 S6] Hok. destruct (bt_keeps _ _ _ _ _ _ _ _ B) as [U Bk].
  destruct (space_same kernel_end (absent := inactive) (mem k) s' T (4096 * n)) as [S' L'];
    [apply (low_len _ _ (bt_low _ _ _ _ _ _ _ _ B))|by apply taken_mono|intros a Ha; apply Bk; by eapply tables_taken|done|].
  split; unfold added; cbn [ptable mem].
  - by rewrite list_lookup_insert_ne.
  - done.
  - done.
  - intros va. by rewrite L'.
  - apply (loaded_bytes (mem k)); [done..|]. intros a Ha. apply Bk. pose proof (Z.div_mod a 4096 ltac:(lia)). pose proof (Z.mod_pos_bound a 4096 ltac:(lia)).
    rewrite (page_start_page (a / 4096)) by lia. apply S6. lia.
  - intros x Hx. apply (taken_mono kernel_end (mem k)); auto.
Qed.

Lemma boot_step k Ts done n pgm : boot_inv k Ts done n -> program_ok pgm -> (length done < 15)%nat -> n + 8 + total (pgm_segments pgm) <= 64 ->
  exists k' Ts' n', process_setup kernel_end (S (length done)) pgm k = Ok (tt, k') /\ boot_inv k' Ts' (done ++ [pgm]) n' /\
    n' <= n + 8 + total (pgm_segments pgm) /\ current k' = current k.
Proof.
  intros [I1 I2 [Tk I3] I4 I5 I6 I7 I8] [Hok Hap] Hd Hn. set (i := S (length done)).
  destruct (lookup_lt_is_Some_2 (ptable k) i) as [p0 Hi]; [rewrite (iso_procs _ _ _ I1); lia|].
  destruct (I4 i p0 Hi ltac:(right; lia)) as [Hfree HTs].
  destruct (process_setup_run k i p0 pgm n Hi I2 Hn Hok Hap) as (s' & T & m & n' & E & B). pose proof (low_range _ _ I2) as Hn1.
  exists (added k i p0 s' n (start_regs pgm)), (<[i := T]> Ts), n'. split; [exact E|]. split; [|split; [apply (bt_range _ _ _ _ _ _ _ _ B)|done]].
  pose proof (iso_pid _ _ _ I1 _ _ Hi) as Hpid. destruct (bt_range _ _ _ _ _ _ _ _ B) as [R1 R2]. pose proof (low_range _ _ (bt_low _ _ _ _ _ _ _ _ B)).
  split.
  - apply (added_separate k Ts i p0 T s' (pgm_segments pgm) n m n'); try done; lia.
  - apply B.
  - exists Tk. apply (kernel_maps_kept (mem k)); [done|apply B|apply (low_len _ _ (bt_low _ _ _ _ _ _ _ _ B))].
  - intros j p Hj Hjr. rewrite length_app in Hjr. cbn [length] in Hjr. unfold added in Hj. cbn [ptable] in Hj.
    rewrite list_lookup_insert_ne in Hj by lia. rewrite lookup_insert_ne by lia. apply (I4 j p Hj). lia.
  - intros j pgm' Hj. apply lookup_snoc_Some in Hj as [[Hlt Hj]|[-> <-]].
    + destruct (I5 j pgm' Hj) as (Hp & T' & n1 & m1 & HT' & St). split; [done|]. exists T', n1, m1. rewrite lookup_insert_ne by lia. split; [done|].
      apply (started_kept k i p0 s' (pgm_segments pgm) T n m n'); [done|lia|done|apply Hp].
    + split; [by split|]. exists T, n, m. split; [by rewrite lookup_insert_eq|]. split; unfold added; cbn [ptable mem].
      * rewrite list_lookup_insert_eq by (by eapply lookup_lt_Some). by rewrite Hpid.
      * apply B.
      * lia.
      * apply B.
      * apply B.
      * intros x Hx. apply (taken_low kernel_end s' n'); [apply B|lia..].
  - apply (texts_bytes kernel_end lit Hplaced (mem k)); [done|]. intros a Ha _. apply (bt_keeps _ _ _ _ _ _ _ _ B). unfold VmProofs.taken. by rewrite Ha, orb_true_r.
  - intros a Ha. unfold added. cbn [mem]. destruct (console_taken kernel_end (mem k) a Ha) as [Ht _].
    rewrite (kp_bytes _ _ _ (bt_keeps _ _ _ _ _ _ _ _ B) a Ht). by apply I7.
  - done.
Qed.

Lemma setup_all_run pgms : Forall program_ok pgms -> forall k Ts done n, boot_inv k Ts done n -> (length done + length pgms <= 15)%nat ->
  n + need pgms <= 64 -> exists k' Ts' n', setup_all kernel_end (S (length done)) pgms k = Ok (tt, k') /\
    boot_inv k' Ts' (done ++ pgms) n' /\ current k' = current k.
Proof.
  induction 1 as [|pgm pgms Hp Hps IH]; intros k Ts done n H Hlen Hn.
  - exists k, Ts, n. by rewrite app_nil_r.
  - cbn [length] in Hlen. change (need (pgm :: pgms)) with (8 + total (pgm_segments pgm) + need pgms) in Hn. pose proof (need_nonneg _ Hps).
    destruct (boot_step k Ts done n pgm H Hp ltac:(lia) ltac:(lia)) as (k1 & Ts1 & n1 & E1 & H1 & Hn1 & C1).
    destruct (IH k1 Ts1 (done ++ [pgm]) n1 H1) as (k2 & Ts2 & n2 & E2 & H2 & C2); [rewrite length_app; cbn [length]; lia|lia|].
    exists k2, Ts2, n2. rewrite <- app_assoc in H2. split; [|split; [done|congruence]].
    cbn [setup_all]. rewrite (bind_ok _ _ _ _ _ E1). by rewrite length_app, Nat.add_1_r in E2.
Qed.

Lemma boot_schedulable k Ts pgms n : boot_inv k Ts pgms n -> pgms <> [] -> schedulable kernel_pagetable exception_entry k.
Proof.
  intros [I1 I2 [Tk I3] I4 I5 _ _ _] Hne. split.
  - destruct pgms as [|pgm pgms]; [done|]. destruct (I5 0%nat pgm eq_refl) as (_ & T & n1 & m1 & _ & St). exists 1%nat.
    unfold ready. by rewrite (st_proc _ _ _ _ _ _ St).
  - intros i p Hi Hs. destruct (decide (i = 0 \/ length pgms < i)%nat) as [Hd|Hd].
    + destruct (I4 i p Hi Hd) as [Hf _]. by rewrite Hf in Hs.
    + destruct i as [|i]; [lia|]. destruct (lookup_lt_is_Some_2 pgms i ltac:(lia)) as [pgm Ej].
      destruct (I5 i pgm Ej) as (Hp & T & n1 & m1 & _ & St). rewrite (st_proc _ _ _ _ _ _ St) in Hi. injection Hi as <-. cbn [pagetable].
      by apply (check_started k (S i) pgm T n1 m1 Tk St (po_segs _ Hp)).
Qed.

(** ** kernel_start() *)

Lemma foreach_table {absent : Z -> Prop} `{!Closed absent} s T root t0 :
  VmProofs.space_with kernel_end (absent := absent) s T root -> T !! (0%nat, 0) = Some t0 ->
  exists s', memory_foreach root PROC_START_ADDR (map_to_kernel_space kernel_end) s = Ok (tt, s') /\
    VmProofs.space_with kernel_end (absent := absent) s' T root /\ remapped s s' T /\
    forall va, leaf s' T va = if decide (in_range 0 0x100000 va) then 4096 * pidx va 0 + 3 else leaf s T va.
Proof.
  intros H Ht. destruct (new_vmiter_spec kernel_end s T root 0 H eq_refl) as (l & t & _ & Hb & En).
  destruct (bottom_here kernel_end s T root 0 t0 l t H Ht Hb) as [-> ->]. unfold memory_foreach. rewrite (bind_ok _ _ _ _ _ En).
  change (Z.to_nat (PROC_START_ADDR / PAGESIZE) + 1)%nat with 257%nat.
  exact (foreach_kernel kernel_end root T t0 256 Ht s 0 0 t0 257 eq_refl ltac:(lia) ltac:(lia) H Ht).
Qed.

Lemma kernel_remap v Tk : kernel_maps v Tk -> exists s1 s2 s3,
  memory_foreach kernel_pagetable PROC_START_ADDR (map_to_kernel_space kernel_end) v = Ok (tt, s1) /\
  map_to_nobody kernel_end kernel_pagetable 0 s1 = Ok (true, s2) /\ map_to_user_space kernel_end kernel_pagetable CONSOLE_ADDR s2 = Ok (true, s3) /\
  kernel_maps s3 Tk /\ pages s3 = pages v /\ forall a, ~ in_tables Tk (page_start a) -> byte_at (phys s3) a = byte_at (phys v) a.
Proof.
  intros [K1 [t0 Ht] K3 K4]. destruct (foreach_table v Tk kernel_pagetable t0 K1 Ht) as (s1 & E1 & S1 & R1 & L1).
  destruct (memory_map_here kernel_end s1 Tk kernel_pagetable 0 t0 0 0 S1 Ht eq_refl eq_refl ltac:(lia) eq_refl ltac:(split; [lia|by left])) as (s2 & E2 & S2 & R2 & L2).
  destruct (memory_map_here kernel_end s2 Tk kernel_pagetable CONSOLE_ADDR t0 CONSOLE_ADDR 7 S2 Ht eq_refl eq_refl ltac:(done) eq_refl ltac:(split; [lia|by right]))
    as (s3 & E3 & S3 & R3 & L3).
  exists s1, s2, s3. split; [done|]. split; [unfold map_to_nobody; by rewrite (bind_ok _ _ _ _ _ E2)|].
  split; [unfold map_to_user_space; by rewrite (bind_ok _ _ _ _ _ E3)|].
  split; [|split; [by rewrite (rm_pages _ _ _ R3), (rm_pages _ _ _ R2), (rm_pages _ _ _ R1)|]].
  2:{ intros a Ha. by rewrite (rm_bytes _ _ _ R3), (rm_bytes _ _ _ R2), (rm_bytes _ _ _ R1). }
  split; [done|by exists t0|done|].
  intros x Hx. destruct (low_page (4096 * x) ltac:(lia)) as [P1 P2]. rewrite page_div in P2. rewrite L3, L2, L1.
  pose proof (low_same CONSOLE_ADDR (4096 * x) ltac:(done) eq_refl) as Hs1. pose proof (low_same 0 (4096 * x) ltac:(lia) eq_refl) as Hs0.
  rewrite P1, P2 in Hs0, Hs1. destruct (decide (same_page CONSOLE_ADDR (4096 * x))) as [D|D]; [apply Hs1 in D as [_ D]; right; lia|].
  rewrite decide_False by (rewrite Hs0; lia). destruct (decide (in_range 0 0x100000 (4096 * x))); [left; by rewrite P2|].
  by apply K4.
Qed.

Lemma bind_modify {S A} (f : S -> S) (k : unit -> M S A) s : bind (modify f) k s = k tt (f s).
Proof. done. Qed.

Definition empty_ptable : list proc := (fun i => mkProc 0 (Z.of_nat i) P_FREE zero_regs) <$> seq 0 (Z.to_nat NPROC).

Lemma boot_inv_init s Tk : kernel_maps s Tk -> low s 1 -> texts lit s -> (forall a, console <= a < console + 4000 -> 0 <= byte_at (phys s) a < 256) ->
  boot_inv (mkKernel empty_ptable 0 1 s (mkViewer 0 0 0)) ∅ [] 1.
Proof.
  intros K L Ht Hscr.
  assert (Hp : forall j p, empty_ptable !! j = Some p -> p = mkProc 0 (Z.of_nat j) P_FREE zero_regs).
  { intros j p Hj. unfold empty_ptable in Hj. apply list_lookup_fmap_Some in Hj as (x & -> & Hx). by apply lookup_seq in Hx as [-> _]. }
  split; cbn [mem ptable view]; [|done|by exists Tk| | |done..].
  - split; cbn [mem ptable].
    + done.
    + intros j p Hj. by apply Hp in Hj as ->.
    + intros j T Hj. by rewrite lookup_empty in Hj.
    + intros j p Hj. by apply Hp in Hj as ->.
    + intros i j T T' t Hj. by rewrite lookup_empty in Hj.
    + intros i T t Hj. by rewrite lookup_empty in Hj.
    + intros i T va q Hj. by rewrite lookup_empty in Hj.
    + intros i j T T' va va' q Hj. by rewrite lookup_empty in Hj.
  - intros j p Hj _. apply Hp in Hj as ->. done.
  - intros j pgm Hj. by rewrite lookup_nil in Hj.
Qed.

(** The state in which the first process starts. *)
Lemma boot_healthy k Ts pgms n : boot_inv k Ts pgms n -> pgms <> [] -> current k = 1%nat -> healthy kernel_end kernel_pagetable lit k Ts.
Proof.
  intros [I1 I2 I3 I4 I5 I6 I7 I8] Hne Hc. destruct pgms as [|pgm pgms']; [done|]. destruct (I5 0%nat pgm eq_refl) as (_ & T & n1 & m1 & HT & St).
  split; rewrite ?Hc, ?I8; try done.
  - split; [done|]. rewrite Hc. by exists T.
  - rewrite (st_proc _ _ _ _ _ _ St). by eexists.
  - destruct (lookup_lt_is_Some_2 (ptable k) 0) as [p0 Hp0]; [rewrite (iso_procs _ _ _ I1); lia|]. exists p0. split; [done|]. apply (I4 0%nat p0 Hp0). by left.
  - by left.
Qed.

(** Kernel memory outside the page table, and the console, at the start. *)
Lemma clear_and_remap v Tk : kernel_maps v Tk -> (forall l a, lit l <= a <= lit l + Z.of_nat (length (literal_text l)) -> ~ in_tables Tk (page_start a)) -> texts lit v ->
  exists s0 s1 s2 s3, console_clear v = Ok (tt, s0) /\
    memory_foreach kernel_pagetable PROC_START_ADDR (map_to_kernel_space kernel_end) s0 = Ok (tt, s1) /\
    map_to_nobody kernel_end kernel_pagetable 0 s1 = Ok (true, s2) /\ map_to_user_space kernel_end kernel_pagetable CONSOLE_ADDR s2 = Ok (true, s3) /\
    kernel_maps s3 Tk /\ pages s3 = pages v /\ texts lit s3 /\ forall a, console <= a < console + 4000 -> 0 <= byte_at (phys s3) a < 256.
Proof.
  intros K Hlit Ht. destruct (console_clear_run v) as (s0 & E0 & Hs0 & _ & Ho); [apply mapped_vm; unfold console; done|apply mapped_vm; unfold cursorpos; done|].
  destruct (touches_vm _ _ _ Ho) as [P0 B0].
  assert (B0' : forall a, page_start a <> CONSOLE_ADDR -> byte_at (phys s0) a = byte_at (phys v) a).
  { intros a Ha. apply B0. intros Hin. apply Ha. by apply page_start_in. }
  assert (K0 : kernel_maps s0 Tk).
  { apply (kernel_maps_bytes _ _ v); [done| |rewrite P0; apply (sp_len _ _ _ _ (km_space _ _ _ _ K))|auto]. intros q. by rewrite (used_pages s0 v). }
  destruct (kernel_remap s0 Tk K0) as (s1 & s2 & s3 & E1 & E2 & E3 & K3 & P3 & B3).
  exists s0, s1, s2, s3. split_and!; [done..|congruence| |].
  - intros l. destruct (Ht l) as [H1 H2]. split; [|done]. intros i b Hi. pose proof (lookup_lt_Some _ _ _ Hi) as Hl.
    rewrite length_app in Hl. cbn [length] in Hl. specialize (H1 i b Hi). cbn [peek vm_bytes] in *. rewrite B3, B0'; [done|apply (Hplaced l); lia|apply (Hlit l); lia].
  - intros a Ha. rewrite B3; [by eapply shows_range|]. rewrite (page_start_in CONSOLE_ADDR a eq_refl) by (unfold console, CONSOLE_ADDR in *; lia).
    intros Hin. exact (proj2 (km_kernel _ _ _ _ K _ Hin) eq_refl).
Qed.

Lemma kernel_start_run v Tk pgms : kernel_maps v Tk -> (forall l a, lit l <= a <= lit l + Z.of_nat (length (literal_text l)) -> ~ in_tables Tk (page_start a)) -> texts lit v ->
  low v 1 -> Forall program_ok pgms -> pgms <> [] -> (length pgms <= 15)%nat ->
  1 + need pgms <= 64 -> exists k Ts n, kernel_start kernel_end kernel_pagetable exception_entry pgms v = Ok (Resume 1, k) /\
    healthy kernel_end kernel_pagetable lit k Ts /\ schedulable kernel_pagetable exception_entry k /\ boot_inv k Ts pgms n.
Proof.
  intros K Hlit Ht L Hp Hne Hlen Hneed. destruct (clear_and_remap v Tk K Hlit Ht) as (s0 & s1 & s2 & s3 & E0 & E1 & E2 & E3 & K3 & P3 & T3 & S3).
  unfold kernel_start. rewrite (bind_ok _ _ _ _ _ (in_vm_ok _ (mkKernel [] 0 1 v _) _ _ E0)). cbn [ptable current ticks view].
  rewrite (bind_ok _ _ _ _ _ (in_vm_ok _ (mkKernel [] 0 1 s0 _) _ _ E1)). cbn [ptable current ticks view].
  rewrite (bind_ok _ _ _ _ _ (in_vm_ok _ (mkKernel [] 0 1 s1 _) _ _ E2)). cbn [ptable current ticks view].
  rewrite (bind_ok _ _ _ _ _ (in_vm_ok _ (mkKernel [] 0 1 s2 _) _ _ E3)). cbn [ptable current ticks view].
  rewrite bind_modify. cbn [current ticks mem view]. fold empty_ptable.
  destruct (setup_all_run pgms Hp (mkKernel empty_ptable 0 1 s3 (mkViewer 0 0 0)) ∅ [] 1 (boot_inv_init s3 Tk K3 (low_pages _ _ _ L P3) T3 S3) ltac:(cbn [length]; lia) Hneed)
    as (k & Ts & n & E & H & Hc).
  cbn [length app] in E, H. cbn [current] in Hc. rewrite (bind_ok _ _ _ _ _ E).
  pose proof (boot_schedulable k Ts pgms n H Hne) as Hsch.
  assert (Hr : ready k 1 = true).
  { destruct pgms as [|pgm pgms']; [destruct (Hne eq_refl)|]. destruct (bi_started _ _ _ _ H 0%nat pgm eq_refl) as (_ & T & n1 & m1 & HT & St).
    unfold ready. by rewrite (st_proc _ _ _ _ _ _ St). }
  exists (mkKernel (ptable k) 1 (ticks k) (mem k) (view k)), Ts, n. split; [exact (run_ok kernel_pagetable exception_entry 1 k Hsch Hr)|].
  assert (H' : boot_inv (mkKernel (ptable k) 1 (ticks k) (mem k) (view k)) Ts pgms n).
  { destruct H as [[] I2 I3 I4 I5 I6 I7 I8]. split; cbn [ptable mem view]; [by split|done|done|done| |done|done|done]. intros j pgm Hj. destruct (I5 j pgm Hj) as (Hpo & T & n1 & m1 & HT & []).
    split; [done|]. exists T, n1, m1. split; [done|]. by split. }
  split; [by apply (boot_healthy _ Ts pgms n H' Hne)|]. split; [|exact H']. by apply (boot_schedulable _ Ts pgms n H' Hne).
Qed.

(** ** init_kernel_memory() *)

Lemma map_physical_run T t0 n : T !! (0%nat, 0) = Some t0 -> forall s a l t fuel, a = 0x200000 - 4096 * Z.of_nat n -> (n <= 512)%nat -> (n <= fuel)%nat ->
  VmProofs.space_with kernel_end (absent := closed) s T kernel_pagetable -> bottom T a l t ->
  exists s', map_physical kernel_end fuel (at_entry kernel_pagetable a t l) s = Ok (tt, s') /\
    VmProofs.space_with kernel_end (absent := closed) s' T kernel_pagetable /\ remapped s s' T /\
    forall x, 1 <= x < 512 -> leaf s' T (4096 * x) = if decide (a <= 4096 * x) then 4096 * x + 7 else leaf s T (4096 * x).
Proof.
  intros E0. induction n as [|n IH]; intros s a l t fuel Ea Hn Hf H Hb.
  - exists s. split; [|split; [done|split; [apply remapped_refl|]]].
    + destruct fuel; cbn [map_physical at_entry va_]; by rewrite (proj2 (Z.ltb_ge _ _)) by (unfold MEMSIZE_PHYSICAL; lia).
    + intros x Hx. by rewrite decide_False by lia.
  - destruct fuel as [|fuel]; [lia|]. assert (Ha : 0 <= a < 0x200000) by lia.
    assert (Hal : a mod 4096 = 0) by (replace a with (4096 * (512 - Z.of_nat (S n))) by lia; apply page_mod).
    destruct (low_page a Ha) as [P1 P2]. assert (Hta : T !! (0%nat, pre a 0) = Some t0) by (by rewrite P1).
    destruct (bottom_here kernel_end s T kernel_pagetable a t0 l t H Hta Hb) as [-> ->].
    assert (Hmap : exists s1, (if negb (a =? 0) then r <- try_map kernel_end (at_entry kernel_pagetable a t0 0) a (Z.lor (Z.lor PTE_P PTE_W) PTE_U);; c_assert (r =? 0)
                               else ret tt) s = Ok (tt, s1) /\ VmProofs.space_with kernel_end (absent := closed) s1 T kernel_pagetable /\ remapped s s1 T /\
                forall x, 1 <= x < 512 -> leaf s1 T (4096 * x) = if decide (a = 4096 * x) then 4096 * x + 7 else leaf s T (4096 * x)).
    { destruct (Z.eqb_spec a 0) as [Hz|Hz]; cbn [negb].
      - exists s. split; [done|]. split; [done|]. split; [apply remapped_refl|]. intros x Hx. by rewrite decide_False by lia.
      - destruct (try_map_here kernel_end s T kernel_pagetable a t0 a 7 H Hta Hal ltac:(lia) Hal ltac:(split; [lia|by right])) as (s1 & Em & S1 & R1 & L1).
        exists s1. split; [by rewrite (bind_ok _ _ _ _ _ Em)|]. split; [done|]. split; [done|]. intros x Hx. rewrite L1.
        pose proof (low_same a (4096 * x) Ha Hal) as Hs. destruct (low_page (4096 * x) ltac:(lia)) as [P3 P4]. rewrite P3, P4, page_div in Hs.
        destruct (decide (same_page a (4096 * x))) as [D|D]; [rewrite decide_True by (apply Hs in D; lia); apply Hs in D; lia|].
        rewrite decide_False; [done|]. intros D2. apply D, Hs. lia. }
    destruct Hmap as (s1 & Em & S1 & R1 & L1). cbn [map_physical]. change (va_ (at_entry kernel_pagetable a t0 0)) with a.
    rewrite (proj2 (Z.ltb_lt _ _)) by (unfold MEMSIZE_PHYSICAL; lia). rewrite (bind_ok _ _ _ _ _ Em).
    change PAGESIZE with 4096. rewrite wrapU_small by lia.
    destruct (real_find_spec kernel_end s1 T kernel_pagetable a 0 t0 (a + 4096) S1 Hta (low_canonical (a + 4096) ltac:(lia))) as (l' & t' & _ & Hb' & Er).
    rewrite (bind_ok _ _ _ _ _ Er).
    destruct (IH s1 (a + 4096) l' t' fuel ltac:(lia) ltac:(lia) ltac:(lia) S1 Hb') as (s2 & E2 & S2 & R2 & L2).
    exists s2. split; [done|]. split; [done|]. split; [by eapply remapped_trans|]. intros x Hx. rewrite L2, L1 by done.
    destruct (decide (a + 4096 <= 4096 * x)); [by rewrite decide_True by lia|].
    destruct (decide (a = 4096 * x)); [by rewrite decide_True by lia|rewrite decide_False; [done|]].
    replace a with (4096 * (512 - Z.of_nat (S n))) in * by lia. lia.
Qed.

(** The five tables. *)
Definition kernel_tables : tables :=
  <[ (3%nat, 0) := kernel_pagetable ]> (<[ (2%nat, 0) := kernel_pagetable + 4096 ]> (<[ (1%nat, 0) := kernel_pagetable + 8192 ]>
    (<[ (0%nat, 0) := kernel_pagetable + 12288 ]> {[ (0%nat, 1) := kernel_pagetable + 16384 ]}))).

Lemma kernel_tables_lookup kt t : kernel_tables !! kt = Some t ->
  (kt = (3%nat, 0) /\ t = kernel_pagetable) \/ (kt = (2%nat, 0) /\ t = kernel_pagetable + 4096) \/ (kt = (1%nat, 0) /\ t = kernel_pagetable + 8192) \/
  (kt = (0%nat, 0) /\ t = kernel_pagetable + 12288) \/ (kt = (0%nat, 1) /\ t = kernel_pagetable + 16384).
Proof.
  unfold kernel_tables. intros E. apply lookup_insert_Some in E as [[<- <-]|[_ E]]; [auto|]. apply lookup_insert_Some in E as [[<- <-]|[_ E]]; [auto|].
  apply lookup_insert_Some in E as [[<- <-]|[_ E]]; [auto 6|]. apply lookup_insert_Some in E as [[<- <-]|[_ E]]; [auto 7|].
  apply lookup_singleton_Some in E as [<- <-]. auto 8.
Qed.

(** The entries that init_kernel_memory() writes. *)
Definition kernel_word (off : Z) : Z :=
  if off =? 0 then kernel_pagetable + 4096 + 7 else if off =? 4096 then kernel_pagetable + 8192 + 7
  else if off =? 8192 then kernel_pagetable + 12288 + 7 else if off =? 8200 then kernel_pagetable + 16384 + 7
  else if off =? 4104 then 2 ^ 30 + 0x83 else if off =? 4112 then 2 * 2 ^ 30 + 0x83 else if off =? 4120 then 3 * 2 ^ 30 + 0x83 else 0.

Lemma kernel_word_zero off : 8 <= off -> off <> 4096 -> off <> 8192 -> off <> 8200 -> off < 4104 \/ 4120 < off -> kernel_word off = 0.
Proof. intros. unfold kernel_word. by rewrite !(proj2 (Z.eqb_neq off _)) by lia. Qed.

(** Where the linker puts the page table. *)
Context (Hkp_align : kernel_pagetable mod 4096 = 0) (Hkp_start : KERNEL_START_ADDR <= kernel_pagetable)
  (Hkp_end : kernel_pagetable + 5 * PAGESIZE <= round_up kernel_end PAGESIZE) (Hkp_top : kernel_pagetable + 5 * PAGESIZE <= KERNEL_STACK_TOP).

Lemma kernel_table_page kt t : kernel_tables !! kt = Some t -> t mod 4096 = 0 /\ kernel_pagetable <= t <= kernel_pagetable + 16384 /\
  allocatable_physical_address kernel_end t = false /\ t <> CONSOLE_ADDR.
Proof.
  intros E. assert (Ht : exists j, 0 <= j <= 4 /\ t = kernel_pagetable + j * 4096).
  { destruct (kernel_tables_lookup _ _ E) as [[_ ->]|[[_ ->]|[[_ ->]|[[_ ->]|[_ ->]]]]]; [exists 0|exists 1|exists 2|exists 3|exists 4]; lia. }
  destruct Ht as (j & Hj & ->). split; [by rewrite Z.mod_add|]. split; [lia|]. unfold allocatable_physical_address.
  change PAGESIZE with 4096 in *. unfold KERNEL_START_ADDR, KERNEL_STACK_TOP in *.
  rewrite (proj2 (Z.ltb_ge (kernel_pagetable + j * 4096) 0x40000)), (proj2 (Z.leb_gt (round_up kernel_end 4096) _)) by lia.
  split; [by rewrite orb_false_r, andb_false_r|unfold CONSOLE_ADDR; lia].
Qed.

Lemma large_closed j : 1 <= j <= 3 -> closed (j * 2 ^ 30 + 0x83).
Proof.
  intros Hj. assert (Ha : (j * 2 ^ 30) mod 4096 = 0) by (change (2 ^ 30) with (2 ^ 18 * 4096); rewrite Z.mul_assoc; by apply Z.mod_mul).
  split; [by rewrite entry_flags by (done || lia)|]. rewrite entry_page by (done || lia). lia.
Qed.

Lemma kernel_space s : length (pages s) = 512%nat ->
  (forall off, 0 <= off < 20480 -> off mod 8 = 0 -> load64 (phys s) (kernel_pagetable + off) = kernel_word off) ->
  VmProofs.space_with kernel_end (absent := closed) s kernel_tables kernel_pagetable.
Proof.
  intros Hlen Hw. change PAGESIZE with 4096 in *. unfold KERNEL_STACK_TOP, KERNEL_START_ADDR in *.
  assert (Hz : closed 0) by (split; done).
  assert (Hnone : forall l i, (0 < l)%nat /\ i <> 0 \/ l = 0%nat /\ i <> 0 /\ i <> 1 -> kernel_tables !! (l, 512 * 0 + i) = None).
  { intros l i Hi. destruct (kernel_tables !! (l, 512 * 0 + i)) as [t|] eqn:E; [|done].
    destruct (kernel_tables_lookup _ _ E) as [[[= -> ?] _]|[[[= -> ?] _]|[[[= -> ?] _]|[[[= -> ?] _]|[[= -> ?] _]]]]]; lia. }
  assert (Hword : forall j i, 0 <= j <= 4 -> 0 <= i < 512 -> load64 (phys s) (kernel_pagetable + 4096 * j + 8 * i) = kernel_word (4096 * j + 8 * i)).
  { intros j i Hj Hi. rewrite <- Z.add_assoc. apply Hw; [lia|]. replace (4096 * j + 8 * i) with ((512 * j + i) * 8) by lia. by apply Z.mod_mul. }
  split.
  - done.
  - apply lookup_insert_eq.
  - intros l x t E. destruct (kernel_tables_lookup _ _ E) as [[[= -> ->] _]|[[[= -> ->] _]|[[[= -> ->] _]|[[[= -> ->] _]|[[= -> ->] _]]]]]; lia.
  - intros l x t E. destruct (kernel_table_page _ _ E) as (A1 & A2 & A3 & _). split; [done|]. split; [lia|]. split; [unfold MEMSIZE_PHYSICAL; lia|].
    unfold VmProofs.taken. by rewrite A3, orb_true_r.
  - intros kt kt' t E E'. destruct (kernel_tables_lookup _ _ E) as [[-> ->]|[[-> ->]|[[-> ->]|[[-> ->]|[-> ->]]]]];
      destruct (kernel_tables_lookup _ _ E') as [[-> Et]|[[-> Et]|[[-> Et]|[[-> Et]|[-> Et]]]]]; try done; lia.
  - intros l x t E Hl. destruct (kernel_tables_lookup _ _ E) as [[[= -> ->] _]|[[[= -> ->] _]|[[[= -> ->] _]|[[[= -> ->] _]|[[= -> ->] _]]]]]; [lia|by eexists..].
  - intros l x t i E Hi. destruct (kernel_tables_lookup _ _ E) as [[[= -> ->] ->]|[[[= -> ->] ->]|[[[= -> ->] ->]|[[? _]|[? _]]]]]; [..|done|done].
    + replace (kernel_pagetable + 8 * i) with (kernel_pagetable + 4096 * 0 + 8 * i) by lia. rewrite Hword by lia.
      destruct (decide (i = 0)) as [-> |Hne]; [done|]. rewrite Hnone by lia. rewrite kernel_word_zero by lia. done.
    + replace (kernel_pagetable + 4096 + 8 * i) with (kernel_pagetable + 4096 * 1 + 8 * i) by lia. rewrite Hword by lia.
      destruct (decide (i = 0)) as [-> |Hne]; [done|]. rewrite Hnone by lia.
      destruct (decide (i <= 3)) as [Hle|Hgt]; [|rewrite kernel_word_zero by lia; done].
      assert (i = 1 \/ i = 2 \/ i = 3) as [-> |[-> | ->]] by lia; [exact (large_closed 1 ltac:(lia))|exact (large_closed 2 ltac:(lia))|exact (large_closed 3 ltac:(lia))].
    + replace (kernel_pagetable + 8192 + 8 * i) with (kernel_pagetable + 4096 * 2 + 8 * i) by lia. rewrite Hword by lia.
      destruct (decide (i = 0)) as [-> |Hne]; [done|]. destruct (decide (i = 1)) as [-> |Hne1]; [done|].
      rewrite Hnone by lia. rewrite kernel_word_zero by lia. done.
  - intros x t i E Hi. destruct (kernel_tables_lookup _ _ E) as [[? _]|[[? _]|[[? _]|[[_ ->]|[_ ->]]]]]; [done..| |].
    + replace (kernel_pagetable + 12288 + 8 * i) with (kernel_pagetable + 4096 * 3 + 8 * i) by lia. rewrite Hword, kernel_word_zero by lia. done.
    + replace (kernel_pagetable + 16384 + 8 * i) with (kernel_pagetable + 4096 * 4 + 8 * i) by lia. rewrite Hword, kernel_word_zero by lia. done.
Qed.

Lemma memset_zero a n s : 4096 <= a -> 0 <= n -> a + n <= MEMSIZE_PHYSICAL ->
  exists s', memset a 0 n s = Ok (tt, s') /\ pages s' = pages s /\ (forall b, a <= b < a + n -> byte_at (phys s') b = 0) /\
    forall b, b < a \/ a + n <= b -> byte_at (phys s') b = byte_at (phys s) b.
Proof.
  intros H1 H2 H3. exists (mkVm (write_bytes (phys s) a (replicate (Z.to_nat n) 0)) (pages s)). split; [|split; [done|split]].
  - apply copy_in_ok; [done|]. rewrite length_replicate. lia.
  - intros b Hb. cbn [phys]. replace b with (a + Z.of_nat (Z.to_nat (b - a))) by lia. apply byte_at_write_in, lookup_replicate. split; [done|lia].
  - intros b Hb. apply byte_at_write_out. rewrite length_replicate. lia.
Qed.

Lemma word_store (m : ram) a off off' v : off mod 8 = 0 -> off' mod 8 = 0 -> 0 <= v < 2 ^ 64 ->
  load64 (store64 m (a + off) v) (a + off') = if off' =? off then v else load64 m (a + off').
Proof.
  intros H1 H2 Hv. destruct (Z.eqb_spec off' off) as [-> |Hne]; [by apply load64_store64_same|]. apply load_store_disjoint.
  pose proof (Z.div_mod off 8 ltac:(lia)). pose proof (Z.div_mod off' 8 ltac:(lia)). lia.
Qed.

Definition put (s : vm) (off v : Z) : vm := mkVm (store64 (phys s) (kernel_pagetable + off) v) (pages s).

Lemma write_word off v s : 0 <= off <= 20472 -> write64 (kernel_pagetable + off) v s = Ok (tt, put s off v).
Proof.
  intros Ho. change PAGESIZE with 4096 in *. unfold KERNEL_STACK_TOP, KERNEL_START_ADDR in *. apply write64_ok; [lia|unfold MEMSIZE_PHYSICAL; lia].
Qed.

Lemma init_words s : length (pages s) = 512%nat ->
  exists s', (forall A (K : M vm A), (let table i := kernel_pagetable + PAGESIZE * i in
              let pwu a := Z.lor (Z.lor (Z.lor a PTE_P) PTE_W) PTE_U in
              let large a := Z.lor (Z.lor (Z.lor a PTE_P) PTE_W) PTE_PS in
              memset kernel_pagetable 0 (5 * PAGESIZE);;; write64 (table 0) (pwu (table 1));;; write64 (table 1) (pwu (table 2));;;
              write64 (table 2) (pwu (table 3));;; write64 (table 2 + 8) (pwu (table 4));;; write64 (table 1 + 8) (large (Z.shiftl 1 30));;;
              write64 (table 1 + 16) (large (Z.shiftl 2 30));;; write64 (table 1 + 24) (large (Z.shiftl 3 30));;; K) s = K s') /\
    pages s' = pages s /\ (forall off, 0 <= off < 20480 -> off mod 8 = 0 -> load64 (phys s') (kernel_pagetable + off) = kernel_word off) /\
    forall b, b < kernel_pagetable \/ kernel_pagetable + 20480 <= b -> byte_at (phys s') b = byte_at (phys s) b.
Proof.
  intros Hlen. change PAGESIZE with 4096 in *. unfold KERNEL_STACK_TOP, KERNEL_START_ADDR in *. cbv zeta.
  destruct (memset_zero kernel_pagetable (5 * 4096) s ltac:(lia) ltac:(lia) ltac:(unfold MEMSIZE_PHYSICAL; lia)) as (s0 & E0 & P0 & B0 & C0).
  assert (Hal : forall j, (kernel_pagetable + 4096 * j) mod 4096 = 0) by (intros j; rewrite (Z.mul_comm 4096), Z.mod_add; lia).
  eexists. split; [|split; [|split]].
  { intros A K. rewrite (bind_ok _ _ _ _ _ E0).
    rewrite !lor_pwu by (try apply Hal; lia). rewrite Z.mul_0_r, Z.mul_1_r. change (4096 * 2) with 8192. change (4096 * 3) with 12288. change (4096 * 4) with 16384.
    change (Z.lor (Z.lor (Z.lor (Z.shiftl 1 30) PTE_P) PTE_W) PTE_PS) with (2 ^ 30 + 0x83).
    change (Z.lor (Z.lor (Z.lor (Z.shiftl 2 30) PTE_P) PTE_W) PTE_PS) with (2 * 2 ^ 30 + 0x83).
    change (Z.lor (Z.lor (Z.lor (Z.shiftl 3 30) PTE_P) PTE_W) PTE_PS) with (3 * 2 ^ 30 + 0x83).
    rewrite <- !Z.add_assoc. change (8192 + 8) with 8200. change (4096 + 8) with 4104. change (4096 + 16) with 4112. change (4096 + 24) with 4120.
    rewrite (bind_ok _ _ _ _ _ (write_word 0 _ _ ltac:(lia))), (bind_ok _ _ _ _ _ (write_word 4096 _ _ ltac:(lia))),
      (bind_ok _ _ _ _ _ (write_word 8192 _ _ ltac:(lia))), (bind_ok _ _ _ _ _ (write_word 8200 _ _ ltac:(lia))),
      (bind_ok _ _ _ _ _ (write_word 4104 _ _ ltac:(lia))), (bind_ok _ _ _ _ _ (write_word 4112 _ _ ltac:(lia))), (bind_ok _ _ _ _ _ (write_word 4120 _ _ ltac:(lia))). reflexivity. }
  { exact P0. }
  2:{ intros b Hb. unfold put. cbn [phys]. rewrite !byte_at_store_out by lia. apply C0. lia. }
  intros off Ho Ha. unfold put. cbn [phys].
  rewrite !word_store by (done || lia).
  assert (Ez : load64 (phys s0) (kernel_pagetable + off) = 0).
  { apply load_zeros. intros b Hb. apply B0. pose proof (Z.div_mod off 8 ltac:(lia)). lia. }
  rewrite Ez. unfold kernel_word.
  repeat match goal with |- context [off =? ?c] => destruct (Z.eqb_spec off c) as [-> |]; [cbn; lia|] end. done.
Qed.

(** Text outside the pages of the kernel's page table. *)
Lemma not_kernel_table a : a < kernel_pagetable \/ kernel_pagetable + 20480 <= a -> ~ in_tables kernel_tables (page_start a).
Proof.
  intros Ha [kt Hk]. destruct (kernel_table_page _ _ Hk) as (A1 & A2 & _).
  unfold page_start in *. pose proof (Z.div_mod a 4096 ltac:(lia)). pose proof (Z.mod_pos_bound a 4096 ltac:(lia)). lia.
Qed.

Lemma kernel_pagetable_run s : length (pages s) = 512%nat ->
  exists s', init_kernel_pagetable kernel_end kernel_pagetable s = Ok (tt, s') /\ kernel_maps s' kernel_tables /\ pages s' = pages s /\
    forall b, b < kernel_pagetable \/ kernel_pagetable + 20480 <= b -> byte_at (phys s') b = byte_at (phys s) b.
Proof.
  intros Hlen. destruct (init_words s Hlen) as (s1 & E1 & P1 & W1 & C1). pose proof (kernel_space s1 ltac:(by rewrite P1) W1) as S1.
  assert (Ht : kernel_tables !! (0%nat, 0) = Some (kernel_pagetable + 12288)) by done.
  destruct (new_vmiter_spec kernel_end s1 kernel_tables kernel_pagetable 0 S1 eq_refl) as (l & t & _ & Hb & En).
  destruct (map_physical_run kernel_tables _ 512 Ht s1 0 l t (Z.to_nat NPAGES) eq_refl ltac:(lia) ltac:(change (Z.to_nat NPAGES) with 512%nat; lia) S1 Hb)
    as (s2 & E2 & S2 & R2 & L2).
  exists s2. split; [|split; [split|split]].
  - unfold init_kernel_pagetable. cbv zeta in E1 |- *. rewrite E1, (bind_ok _ _ _ _ _ En). exact E2.
  - done.
  - by eexists.
  - intros t' [kt Hk]. apply (kernel_table_page _ _ Hk).
  - intros x Hx. right. rewrite L2 by done. by rewrite decide_True by lia.
  - by rewrite (rm_pages _ _ _ R2).
  - intros b Hout. rewrite (rm_bytes _ _ _ R2), C1; [done|done|]. by apply not_kernel_table.
Qed.

Lemma low_initial m : low (mkVm m (replicate 512 0)) 1.
Proof.
  split; cbn [pages]; [by rewrite length_replicate|lia|]. intros j Hj. unfold used. cbn [pages]. change PAGESIZE with 4096.
  rewrite page_div, replicate_nth. symmetry. apply Z.ltb_ge. lia.
Qed.

(** ** The memory of a started process, in the terms of the code *)

Lemma segment_mapped s T segs : forall m, Forall seg_ok segs -> mapped s T segs m -> loaded s segs m -> forall seg, seg ∈ segs ->
  exists m', m <= m' /\ m' + npages seg <= m + total segs /\
    (forall x, first_page seg <= x < first_page seg + npages seg -> leaf s T (4096 * x) = 4096 * (m' + (x - first_page seg)) + 7) /\
    forall o, 0 <= o < seg_size seg -> byte_at (phys s) (4096 * m' + seg_va seg mod 4096 + o) = nth (Z.to_nat o) (seg_data seg) 0.
Proof.
  induction segs as [|seg0 segs IH]; intros m Hok Hm Hl seg Hin; [by apply not_elem_of_nil in Hin|]. apply Forall_cons in Hok as [Hs Hok].
  change (total (seg0 :: segs)) with (npages seg0 + total segs). pose proof (total_nonneg _ Hok). pose proof (seg_pages _ Hs).
  destruct Hm as [M1 M2], Hl as [L1 L2]. apply elem_of_cons in Hin as [-> |Hin]; [exists m; split_and!; [lia|lia|done|done]|].
  destruct (IH _ Hok M2 L2 seg Hin) as (m' & R1 & R2 & R3). exists m'. split; [lia|]. split; [lia|done].
Qed.

Lemma started_mapped k j pgm T n m : started k j pgm T n m -> program_ok pgm -> mapped (mem k) T (pgm_segments pgm) m.
Proof.
  intros St [Hok Hap]. apply mapped_pages; [done|]. intros x q Hq. rewrite (st_leaf _ _ _ _ _ _ St). destruct (seg_page_range _ Hok _ _ _ Hq) as (_ & _ & _ & Hx).
  destruct (low_page (4096 * x) ltac:(lia)) as [P1 P2]. rewrite page_div in P2. unfold layout.
  rewrite decide_False by (intros [Hp _]; rewrite P1, stack_pre in Hp; lia). by rewrite decide_True, P2, Hq by done.
Qed.

(** Every byte of the image is at its address, and user code may access it. *)
Lemma started_image k j pgm T n m seg o : started k j pgm T n m -> program_ok pgm -> seg ∈ pgm_segments pgm -> 0 <= o < seg_size seg ->
  exists a, memory_virtual_to_physical (4096 * n) (seg_va seg + o) (mem k) = Ok (a, mem k) /\
    memory_permissions (4096 * n) (seg_va seg + o) (mem k) = Ok (PTE_PWU, mem k) /\ byte_at (phys (mem k)) a = nth (Z.to_nat o) (seg_data seg) 0.
Proof.
  intros St Hp Hin Ho. pose proof (po_segs _ Hp) as Hok. destruct (st_range _ _ _ _ _ _ St) as (R1 & R2 & R3).
  destruct (segment_mapped _ _ _ m Hok (started_mapped _ _ _ _ _ _ St Hp) (st_loaded _ _ _ _ _ _ St) seg Hin) as (m' & M1 & M2 & M3 & M4).
  rewrite Forall_forall in Hok. pose proof (Hok seg Hin) as Hs. destruct (seg_pages seg Hs) as (Q1 & Q2 & Q3 & Q4 & _).
  exists (4096 * m' + seg_va seg mod 4096 + o). unfold first_page in *. set (v := seg_va seg) in *. set (a := v + o).
  pose proof (Z.div_mod v 4096 ltac:(lia)). pose proof (Z.mod_pos_bound v 4096 ltac:(lia)).
  pose proof (Z.div_mod a 4096 ltac:(lia)). pose proof (Z.mod_pos_bound a 4096 ltac:(lia)).
  assert (Hx : v / 4096 <= a / 4096 < v / 4096 + npages seg) by lia.
  destruct (low_page a ltac:(lia)) as [P1 P2]. destruct (low_page (4096 * (a / 4096)) ltac:(lia)) as [P3 P4].
  assert (El : leaf (mem k) T a = 4096 * (m' + (a / 4096 - v / 4096)) + 7).
  { rewrite <- (M3 _ Hx). unfold leaf. by rewrite P1, P3, P2, P4, page_div. }
  pose proof (st_space _ _ _ _ _ _ St) as Hsp. rewrite (translate_spec _ _ _ _ _ Hsp (low_canonical a ltac:(lia)) ltac:(lia)).
  rewrite (permissions_spec _ _ _ _ _ Hsp (low_canonical a ltac:(lia))), El. unfold translation, permission.
  rewrite entry_flags, entry_page by (try done; try apply page_mod; lia). change (Z.land 7 PTE_P =? 0) with false. cbv iota.
  rewrite Z.add_mod, page_mod, Z.add_0_l, Z.mod_mod by lia. split; [do 2 f_equal; lia|]. split; [done|]. by apply M4.
Qed.

End init.
