(* ===== verification/KernelSpec.v ===== *)
(** * Properties of the mini operating system *)
From stdpp Require Import prelude gmap list.
From Stdlib Require Import ZArith Lia.
From S2P Require Import Prelude Memory Lib LibProofs Vm VmProofs VmBoot KernelState MemViewer Kernel KernelBoot KernelProofs ViewerProofs MemShowProofs KernelSteps KernelInit.
Open Scope Z_scope.
Open Scope c_scope.

(** ** Pages of canonical addresses *)

Lemma pre_pidx va : 512 * pre va 0 + pidx va 0 = va mod 2 ^ 48 / 4096.
Proof.
  unfold pre, pidx. change (2 ^ (21 + 9 * Z.of_nat 0)) with (4096 * 512). change (2 ^ (12 + 9 * Z.of_nat 0)) with 4096.
  rewrite <- Z.div_div by lia. assert (E : va / 4096 mod 512 = va mod 2 ^ 48 / 4096 mod 512).
  { change (2 ^ 48) with (4096 * 2 ^ 36). rewrite Z.rem_mul_r by lia. rewrite (Z.mul_comm 4096), Z.div_add by lia.
    rewrite (Z.div_small (va mod 4096)) by (apply Z.mod_pos_bound; lia). rewrite Z.add_0_l. change (2 ^ 36) with (512 * 2 ^ 27).
    rewrite (Z.rem_mul_r (va / 4096)) by lia. rewrite (Z.mul_comm 512), Z.mod_add by lia. symmetry. apply Z.mod_mod. lia. }
  rewrite E. symmetry. apply Z.div_mod. lia.
Qed.

(** The 48 bits that a walk uses distinguish the canonical addresses. *)
Lemma canonical_mod va : va_is_canonical va = true -> 0 <= va < 2 ^ 64 ->
  (va mod 2 ^ 48 = va /\ va < 2 ^ 47) \/ (va mod 2 ^ 48 = va - (2 ^ 64 - 2 ^ 48) /\ 2 ^ 64 - 2 ^ 47 <= va).
Proof.
  unfold va_is_canonical, VA_LOWMAX, VA_HIGHMIN. intros H Hr. apply orb_true_iff in H as [H|H]; apply Z.leb_le in H.
  - left. split; [apply Z.mod_small|]; lia.
  - right. split; [|lia]. symmetry. apply (Z.mod_unique va (2 ^ 48) (2 ^ 16 - 1)); lia.
Qed.

Lemma same_page_iff va va' : va_is_canonical va = true -> 0 <= va < 2 ^ 64 -> va_is_canonical va' = true -> 0 <= va' < 2 ^ 64 ->
  same_page va va' <-> va' / 4096 = va / 4096.
Proof.
  intros C1 R1 C2 R2. pose proof (pre_pidx va) as P1. pose proof (pre_pidx va') as P2. pose proof (pidx_range va 0). pose proof (pidx_range va' 0).
  pose proof (Z.div_mod va 4096 ltac:(lia)). pose proof (Z.mod_pos_bound va 4096 ltac:(lia)).
  pose proof (Z.div_mod va' 4096 ltac:(lia)). pose proof (Z.mod_pos_bound va' 4096 ltac:(lia)).
  assert (Hs : forall x, (x - (2 ^ 64 - 2 ^ 48)) / 4096 = x / 4096 - (2 ^ 52 - 2 ^ 36)).
  { intros x. replace (x - (2 ^ 64 - 2 ^ 48)) with (x + - (2 ^ 52 - 2 ^ 36) * 4096) by lia. rewrite Z.div_add; lia. }
  unfold same_page. destruct (canonical_mod va C1 R1) as [[E1 B1]|[E1 B1]], (canonical_mod va' C2 R2) as [[E2 B2]|[E2 B2]];
    rewrite E1 in P1; rewrite E2 in P2; rewrite ?Hs in *; lia.
Qed.

(** ** The kernel as a process sees it *)

Section sees.
Context (kernel_end kernel_pagetable exception_entry TICK_LIMIT : Z) (lit : literal -> Z).
Context (Hplaced : placed kernel_end lit) (Hbelow : round_up kernel_end PAGESIZE <= KERNEL_STACK_TOP - PAGESIZE).

Abbreviation trap_address := (KernelSteps.trap_address kernel_end).
Abbreviation healthy := (MemShowProofs.healthy kernel_end kernel_pagetable lit).
Abbreviation sees_kernel := (KernelSteps.sees_kernel kernel_end).
Abbreviation step := (KernelSteps.step kernel_end kernel_pagetable exception_entry TICK_LIMIT lit).

(** The kernel's pages in an address space, by its entries. *)
Definition kernel_entries (s : vm) (T : tables) : Prop := forall va, trap_address va = true -> leaf s T va = page_start va + 3.

Lemma round_up_page : exists n, round_up kernel_end PAGESIZE = 4096 * n.
Proof.
  unfold round_up, round_down. change PAGESIZE with 4096. set (x := u64 _). exists (x / 4096). pose proof (Z.div_mod x 4096 ltac:(lia)). lia.
Qed.

(** By pages. *)
Lemma trap_page va : trap_address va = true <-> exists n, round_up kernel_end PAGESIZE = 4096 * n /\ (0x40 <= va / 4096 < n \/ va / 4096 = 0x7F).
Proof.
  destruct round_up_page as [n En]. unfold KernelSteps.trap_address. rewrite En, orb_true_iff, !andb_true_iff, !Z.leb_le, !Z.ltb_lt.
  unfold KERNEL_START_ADDR, KERNEL_STACK_TOP. change PAGESIZE with 4096.
  pose proof (Z.div_mod va 4096 ltac:(lia)). pose proof (Z.mod_pos_bound va 4096 ltac:(lia)). split.
  - intros Hva. exists n. split; [done|]. lia.
  - intros (n' & En' & Hva). assert (n' = n) as -> by lia. lia.
Qed.

Lemma trap_range va : trap_address va = true -> 0x40000 <= va < 0x80000 /\ va_is_canonical va = true.
Proof.
  unfold KernelSteps.trap_address. rewrite orb_true_iff, !andb_true_iff, !Z.leb_le, !Z.ltb_lt. change PAGESIZE with 4096 in *.
  unfold KERNEL_START_ADDR, KERNEL_STACK_TOP in *. intros Hva. assert (Hr : 0x40000 <= va < 0x80000) by lia. split; [done|].
  unfold va_is_canonical, VA_LOWMAX. apply orb_true_iff. left. apply Z.leb_le. lia.
Qed.

Lemma trap_other addr va : va_is_canonical addr = true -> 0 <= addr < 2 ^ 64 -> trap_address addr = false -> trap_address va = true -> ~ same_page addr va.
Proof.
  intros Hc Hr Ha Hva Hs. destruct (trap_range _ Hva) as [Hv Hcv]. apply same_page_iff in Hs; [|done..|lia].
  apply not_true_iff_false in Ha. apply Ha, trap_page. apply trap_page in Hva. by rewrite <- Hs.
Qed.

(** The pages of the kernel are not for processes. *)
Lemma trap_reserved va : trap_address va = true -> va mod 4096 = 0 -> allocatable_physical_address kernel_end va = false.
Proof.
  unfold KernelSteps.trap_address, allocatable_physical_address. rewrite orb_true_iff, !andb_true_iff, !Z.leb_le, !Z.ltb_lt. intros Hva _.
  apply not_true_iff_false. rewrite !andb_true_iff, !orb_true_iff, !Z.leb_le, !Z.ltb_lt. lia.
Qed.

Lemma entries_see k Ts T : isolated kernel_end k Ts -> Ts !! current k = Some T -> kernel_entries (mem k) T -> sees_kernel k.
Proof.
  intros I HT He. destruct (iso_proc _ _ _ I _ _ HT) as (cur & Hcur & Hsp). exists cur. split; [done|]. intros va Hva.
  destruct (trap_range _ Hva) as [Hr Hc]. rewrite (translate_spec _ _ _ _ _ Hsp Hc ltac:(lia)), (permissions_spec _ _ _ _ _ Hsp Hc), (He va Hva).
  pose proof (Z.div_mod va 4096 ltac:(lia)). pose proof (Z.mod_pos_bound va 4096 ltac:(lia)). unfold translation, permission, page_start.
  assert (Hal : (va / 4096 * 4096) mod 4096 = 0) by (apply Z.mod_mul; lia). rewrite entry_flags, entry_page by (done || lia).
  change (Z.land 3 PTE_P =? 0) with false. cbv iota. split; [do 2 f_equal; lia|]. exists 3. rewrite Z.add_mod, Hal by lia. done.
Qed.

(** An action of a polite process keeps the kernel where it is. *)
Lemma polite_entries k Ts a k' : healthy k Ts -> (forall j T, Ts !! j = Some T -> kernel_entries (mem k) T) ->
  polite kernel_end a -> step k a k' ->
  exists Ts', healthy k' Ts' /\ undisturbed kernel_end k k' Ts Ts' /\ forall j T, Ts' !! j = Some T -> kernel_entries (mem k') T.
Proof.
  intros H He Hp St. destruct (iso_current _ _ _ (hl_isolated _ _ _ _ _ H)) as [T HT].
  pose proof (entries_see k Ts T (hl_isolated _ _ _ _ _ H) HT (He _ _ HT)) as Hs.
  destruct (action_healthy _ _ _ _ _ Hplaced k Ts a k' H Hs St) as (Ts' & H' & U & M). exists Ts'. split; [done|]. split; [done|].
  intros j T' HT' va Hva. destruct (M j T' HT') as (T0 & HT0 & El). rewrite El; [by apply (He j)|].
  destruct a as [r keys|r cr2 keys|va' b|]; [|done..]. inversion St as [? ? ? ? _ Hr _| | |]. intros Hrax Hcan. by apply trap_other; [..|apply Hp|].
Qed.

(** After page_alloc at a page of the kernel, the process no longer sees it. *)
Lemma page_alloc_hides k Ts r keys k' : healthy k Ts -> reg_rax r = SYSCALL_PAGE_ALLOC -> trap_address (reg_rdi r) = true ->
  syscall kernel_end kernel_pagetable exception_entry lit r keys k = Ok (Return 0, k') -> ~ sees_kernel k'.
Proof.
  intros H Hrax Hva E. destruct (trap_range _ Hva) as [Hr Hc].
  destruct (syscall_page_alloc_inv _ _ _ _ Hplaced r keys k Ts _ _ H Hrax E) as (v & k1 & V & Ea & El).
  pose proof (hl_isolated _ _ _ _ _ (vw_healthy _ _ _ _ _ _ V)) as I1. destruct (iso_current _ _ _ I1) as [T HT].
  destruct (page_alloc_inv kernel_end k1 Ts T (reg_rdi r) v k' I1 HT ltac:(lia) Ea) as [[-> _]|(_ & _ & Hal & T' & p & P)]; [done|].
  intros (cur & Hcur & Hsee). destruct (Hsee _ Hva) as [Et _]. rewrite (proj1 (proj2 (pa_kernel _ _ _ _ _ _ _ _ P))) in Hcur.
  destruct (iso_proc _ _ _ (pa_isolated _ _ _ _ _ _ _ _ P) (current k1) T' (lookup_insert_eq _ _ _)) as (c & Ec & S'). rewrite Hcur in Ec. injection Ec as <-.
  rewrite (translate_spec _ _ _ _ _ S' Hc ltac:(lia)), (pa_map _ _ _ _ _ _ _ _ P), decide_True in Et by done.
  destruct (pa_first _ _ _ _ _ _ _ _ P) as [[P1 P2 P3] _]. pose proof (allocatable_range _ p P1 P2) as Hrange. unfold MEMSIZE_PHYSICAL in Hrange.
  change PTE_PWU with 7 in Et. unfold translation in Et. rewrite entry_flags, entry_page, Hal, Z.add_0_r in Et by (done || lia).
  change (Z.land 7 PTE_P =? 0) with false in Et. injection Et as Et. by rewrite Et, (trap_reserved _ Hva Hal) in P1.
Qed.
End sees.

Section spec.
Context (kernel_end kernel_pagetable exception_entry TICK_LIMIT : Z) (lit : literal -> Z).

(** C37: memory_map() in a page table returns 0 after it has made exactly the
    addresses of the page at [va] translate to the physical page [pa] with the
    permissions [perm], or -1 when fewer than three pages are free; in both
    cases every other address, and every address space with other tables,
    translates as before. *)
Theorem memory_map_translate s T root va pa perm :
  space kernel_end s T root -> va_is_canonical va = true -> 0 <= va < 2 ^ 64 -> va mod PAGESIZE = 0 ->
  0 <= pa < 2 ^ 32 -> pa mod PAGESIZE = 0 -> 0 <= perm < 8 -> Z.land perm PTE_P = PTE_P ->
  exists r s', memory_map kernel_end root va pa perm s = Ok (r, s') /\ (r = 0 \/ (r = -1 /\ few_free kernel_end s 3)) /\
    (forall va' x y, va_is_canonical va' = true -> 0 <= va' < 2 ^ 64 ->
       memory_virtual_to_physical root va' s = Ok (x, s) -> memory_permissions root va' s = Ok (y, s) ->
       let here := (r =? 0) && (va' / PAGESIZE =? va / PAGESIZE) in
       memory_virtual_to_physical root va' s' = Ok (if here then pa + va' mod PAGESIZE else x, s') /\
       memory_permissions root va' s' = Ok (if here then perm else y, s')) /\
    (forall T2 root2 va' x, space kernel_end s T2 root2 -> (forall t, in_tables T t -> ~ in_tables T2 t) ->
       va_is_canonical va' = true -> 0 <= va' -> memory_virtual_to_physical root2 va' s = Ok (x, s) ->
       memory_virtual_to_physical root2 va' s' = Ok (x, s')).
Proof.
  intros H Hc Hr Ha Hpa Hpal Hperm Hp. change PAGESIZE with 4096 in *.
  destruct (memory_map_spec kernel_end s T root va pa perm H Hc Ha Hpa Hpal Hperm Hp) as (r & s' & T' & E & S' & X & _ & Hl).
  exists r, s'. split; [exact E|]. split; [destruct Hl as [[-> _]|(-> & _ & _ & Hf)]; auto|]. split.
  - intros va' x y Hc' Hr' Hx Hy. rewrite (translate_spec _ _ _ _ _ H Hc' ltac:(lia)) in Hx. rewrite (permissions_spec _ _ _ _ _ H Hc') in Hy.
    injection Hx as <-. injection Hy as <-. rewrite (translate_spec _ _ _ _ _ S' Hc' ltac:(lia)), (permissions_spec _ _ _ _ _ S' Hc').
    destruct Hl as [(-> & _ & Hl)|(-> & Hl & _)]; [|by rewrite Hl]. rewrite Hl. cbn [Z.eqb andb].
    pose proof (same_page_iff va va' Hc Hr Hc' Hr') as Hsp. destruct (Z.eqb_spec (va' / 4096) (va / 4096)) as [He|He].
    + rewrite decide_True by (by apply Hsp). unfold translation, permission. rewrite entry_flags by (try done; lia). rewrite entry_page by lia.
      rewrite Hp. cbn [PTE_P Z.eqb]. rewrite Z.add_mod, Hpal, Z.add_0_l, Z.mod_mod, (Z.mod_small perm) by lia. done.
    + rewrite decide_False by (intros Hs; by apply He, Hsp). done.
  - intros T2 root2 va' x H2 Hdis Hc' Hr' Hx. rewrite (translate_spec _ _ _ _ _ H2 Hc' Hr') in Hx. injection Hx as <-.
    destruct (space_frame kernel_end s s' T T' T2 root2 X (sp_len _ _ _ _ S') Hdis H2) as [S2 L2].
    by rewrite (translate_spec _ _ _ _ _ S2 Hc' Hr'), L2.
Qed.

(** C35: syscall_page_alloc() at a page boundary returns 0 after it has taken the
    first free page, filled it with zeros and mapped it there for the caller
    alone, changing no other mapping and no other memory; or it returns -1 when
    no page is free; or, with fewer than four free pages, the kernel itself
    faults at address -1 because it ignores that memory_map() failed. *)
Theorem page_alloc_behaves k Ts T cur addr :
  isolated kernel_end k Ts -> Ts !! current k = Some T -> ptable k !! current k = Some cur ->
  va_is_canonical addr = true -> 0 <= addr -> addr mod PAGESIZE = 0 ->
  match syscall_page_alloc kernel_end addr k with
  | Ok (r, k') =>
      (r = -1 /\ k' = k /\ forall q, ~ free_page kernel_end (mem k) q) \/
      (r = 0 /\ exists T' p, page_allocated kernel_end k k' Ts T T' addr p /\
         memory_virtual_to_physical (pagetable cur) addr (mem k') = Ok (p, mem k') /\
         memory_permissions (pagetable cur) addr (mem k') = Ok (PTE_PWU, mem k'))
  | Err f => f = Segv (2 ^ 64 - 1) /\ leaf (mem k) T addr = 0 /\ few_free kernel_end (mem k) 4
  end.
Proof.
  intros H HT Hcur Hc Hpos Ha. destruct (page_alloc_run kernel_end k Ts T addr H HT Hc Ha Hpos) as [(k' & T' & p & E & P)|[[E Hn]|(E & E0 & Hf)]];
    rewrite E; [right|by left|done]. split; [done|]. exists T', p. split; [done|].
  destruct (iso_proc _ _ _ (pa_isolated _ _ _ _ _ _ _ _ P) (current k) T' (lookup_insert_eq _ _ _)) as (c & Ec & S').
  rewrite (proj1 (pa_kernel _ _ _ _ _ _ _ _ P)), Hcur in Ec. injection Ec as <-.
  rewrite (translate_spec _ _ _ _ _ S' Hc Hpos), (permissions_spec _ _ _ _ _ S' Hc), !(pa_map _ _ _ _ _ _ _ _ P), !decide_True by done.
  destruct (pa_first _ _ _ _ _ _ _ _ P) as [[P1 P2 P3] _]. pose proof (allocatable_range _ p P1 P2) as Hrange. unfold MEMSIZE_PHYSICAL in Hrange.
  change PAGESIZE with 4096 in Ha. change PTE_PWU with 7. unfold translation, permission. rewrite entry_flags, entry_page, Ha by (try done; lia).
  change (Z.land 7 PTE_P =? 0) with false. cbv iota. rewrite Z.add_mod, P2 by lia. by rewrite Z.add_0_r.
Qed.

(** Where the linker puts the kernel: its page table inside the kernel, below
    the stack, the exception handler above page zero, and the string literals
    inside the kernel but not in the page table. *)
Record linked : Prop := {
  ln_align : kernel_pagetable mod PAGESIZE = 0;
  ln_start : KERNEL_START_ADDR <= kernel_pagetable;
  ln_end : kernel_pagetable + 5 * PAGESIZE <= round_up kernel_end PAGESIZE;
  ln_top : kernel_pagetable + 5 * PAGESIZE <= KERNEL_STACK_TOP;
  ln_entry : PAGESIZE <= exception_entry < PROC_START_ADDR;
  ln_placed : placed kernel_end lit;
  ln_apart l a : lit l <= a <= lit l + Z.of_nat (length (literal_text l)) -> a < kernel_pagetable \/ kernel_pagetable + 5 * PAGESIZE <= a
}.

(** Memory as the boot loader leaves it, no page in use, with the literals. *)
Definition loaded_memory (m : ram) : Prop := texts lit (mkVm m (replicate 512 0)).

(** Programs that fit: at most 15, with segments on pages of their own between
    PROC_START_ADDR and 2 MB, that with eight pages each for page tables and
    stack need no more than the pages below the kernel. *)
Record fitting (pgms : list program_image) : Prop := {
  ft_programs : Forall program_ok pgms;
  ft_some : pgms <> [];
  ft_number : (length pgms <= 15)%nat;
  ft_pages : need pgms <= 63
}.

Lemma boot pgms m : linked -> fitting pgms -> loaded_memory m ->
  exists v k Ts n, init_kernel_pagetable kernel_end kernel_pagetable (mkVm m (replicate 512 0)) = Ok (tt, v) /\
  kernel_start kernel_end kernel_pagetable exception_entry pgms v = Ok (Resume 1, k) /\ healthy kernel_end kernel_pagetable lit k Ts /\
  schedulable kernel_pagetable exception_entry k /\ boot_inv kernel_end kernel_pagetable lit k Ts pgms n.
Proof.
  intros [A1 A2 A3 A4 A5 A6 A7] [F1 F2 F3 F4] Hm. change PAGESIZE with 4096 in A7.
  assert (Hk : 4096 <= kernel_pagetable < 0x100000) by (change PAGESIZE with 4096 in *; unfold KERNEL_START_ADDR, KERNEL_STACK_TOP in *; lia).
  destruct (kernel_pagetable_run kernel_end kernel_pagetable Hk A1 A2 A3 A4 (mkVm m (replicate 512 0)) eq_refl) as (v & Ev & Kv & Pv & Bv).
  assert (Hlit : forall l a, lit l <= a <= lit l + Z.of_nat (length (literal_text l)) -> ~ in_tables (kernel_tables kernel_pagetable) (page_start a)).
  { intros l a Ha. apply (not_kernel_table kernel_end kernel_pagetable A1 A2 A3 A4). apply (A7 l) in Ha. lia. }
  assert (Tv : texts lit v).
  { intros l. destruct (Hm l) as [H1 H2]. split; [|exact H2]. intros i b Hi. pose proof (lookup_lt_Some _ _ _ Hi) as Hl.
    rewrite length_app in Hl. cbn [length] in Hl. specialize (H1 i b Hi). cbn [peek vm_bytes] in *. rewrite Bv; [exact H1|]. specialize (A7 l (lit l + Z.of_nat i)). lia. }
  destruct (kernel_start_run kernel_end kernel_pagetable exception_entry lit A5 Hk A6 v (kernel_tables kernel_pagetable) pgms Kv Hlit Tv
              (low_pages _ _ _ (low_initial m) Pv) F1 F2 F3 ltac:(lia)) as (k & Ts & n & E & H & Hs & Hb).
  exists v, k, Ts, n. exact (conj Ev (conj E (conj H (conj Hs Hb)))).
Qed.

(** C11: the kernel boots.  On any memory that holds the kernel's literals, after
    init_kernel_memory() has set up the kernel's page table, kernel_start() with programs that fit returns to
    process 1 without a fault; every process is runnable at its entry point
    with its stack pointer at the top of its address space, finds every byte of
    its image (zeros after the data) at its virtual address with user
    permissions, and its page table passes check_pagetable(). *)
Theorem kernel_boots pgms m : linked -> fitting pgms -> loaded_memory m ->
  exists v k, init_kernel_pagetable kernel_end kernel_pagetable (mkVm m (replicate 512 0)) = Ok (tt, v) /\
    kernel_start kernel_end kernel_pagetable exception_entry pgms v = Ok (Resume 1, k) /\
    schedulable kernel_pagetable exception_entry k /\
    forall j pgm, pgms !! j = Some pgm -> exists p, ptable k !! S j = Some p /\ state p = P_RUNNABLE /\
      reg_rip (regs p) = pgm_entry pgm /\ reg_rsp (regs p) = MEMSIZE_VIRTUAL /\
      forall seg o, seg ∈ pgm_segments pgm -> 0 <= o < seg_size seg -> exists a,
        memory_virtual_to_physical (pagetable p) (seg_va seg + o) (mem k) = Ok (a, mem k) /\
        memory_permissions (pagetable p) (seg_va seg + o) (mem k) = Ok (PTE_PWU, mem k) /\
        byte_at (phys (mem k)) a = nth (Z.to_nat o) (seg_data seg) 0.
Proof.
  intros Hl Hf Hm. destruct (boot pgms m Hl Hf Hm) as (v & k & Ts & n & Ev & Ek & _ & Hs & Hb). exists v, k. split; [done|]. split; [done|]. split; [done|].
  intros j pgm Hj. destruct (bi_started _ _ _ _ _ _ _ Hb j pgm Hj) as (Hp & T & n1 & m1 & _ & St). eexists. split; [exact (st_proc _ _ _ _ _ _ _ St)|].
  cbn [state regs pagetable]. split; [done|]. split; [done|]. split; [done|]. intros seg o Hin Ho. by apply (started_image kernel_end k (S j) pgm T n1 m1).
Qed.

(** The kernel's pages in the address space of a new process. *)
Lemma boot_entries k Ts pgms n : round_up kernel_end PAGESIZE <= KERNEL_STACK_TOP - PAGESIZE ->
  boot_inv kernel_end kernel_pagetable lit k Ts pgms n -> forall j T, Ts !! j = Some T -> kernel_entries kernel_end (mem k) T.
Proof.
  intros Hbelow B j T HT va Hva. destruct (iso_proc _ _ _ (bi_separate _ _ _ _ _ _ _ B) j T HT) as (p & Hp & _).
  assert (Hj : exists i pgm, j = S i /\ pgms !! i = Some pgm).
  { destruct j as [|i]; [by destruct (bi_free _ _ _ _ _ _ _ B 0 p Hp (or_introl eq_refl)) as [_ ?]; congruence|].
    destruct (decide (length pgms < S i)%nat) as [Hl|Hl]; [destruct (bi_free _ _ _ _ _ _ _ B (S i) p Hp (or_intror Hl)) as [_ ?]; congruence|].
    destruct (lookup_lt_is_Some_2 pgms i) as [pgm E]; [lia|]. by exists i, pgm. }
  destruct Hj as (i & pgm & -> & Hi). destruct (bi_started _ _ _ _ _ _ _ B i pgm Hi) as (Hok & T1 & n1 & m1 & HT1 & St). rewrite HT in HT1. injection HT1 as <-.
  destruct (trap_range kernel_end Hbelow va Hva) as [Hr _]. pose proof (Z.div_mod va 4096 ltac:(lia)). pose proof (Z.mod_pos_bound va 4096 ltac:(lia)).
  assert (El : leaf (mem k) T va = leaf (mem k) T (4096 * (va / 4096))).
  { unfold leaf. destruct (low_page va ltac:(lia)) as [-> ->]. destruct (low_page (4096 * (va / 4096)) ltac:(lia)) as [-> ->]. by rewrite page_div. }
  rewrite El, (st_leaf _ _ _ _ _ _ _ St), layout_kernel by (apply Hok || lia). unfold kernel_entry, page_start. rewrite !(proj2 (Z.eqb_neq _ _)) by lia. lia.
Qed.

(** C2: processes are isolated.  Boot programs that fit on a kernel that ends
    below its stack, and let processes call the kernel, trap into it and store to
    their memory in any order and with any arguments, except that none asks
    page_alloc for a page of the kernel's image or stack.  Then in every state
    that is reached the process that runs sees the kernel's entry code, tables
    and stack where the kernel has them, so that its traps run the kernel's
    handlers; the address spaces and the private memory of the processes are
    disjoint, and each further step, with the pictures of memory that it draws,
    leaves the kernel's memory but the console, and the address space and private
    memory of every process that is not running, as they are.  The exception is
    needed: page_alloc grants a process such a page, after which the process no
    longer sees the kernel and its next trap can do anything. *)
Theorem processes_isolated pgms m : linked -> fitting pgms -> loaded_memory m ->
  round_up kernel_end PAGESIZE <= KERNEL_STACK_TOP - PAGESIZE ->
  exists v k0, init_kernel_pagetable kernel_end kernel_pagetable (mkVm m (replicate 512 0)) = Ok (tt, v) /\
    kernel_start kernel_end kernel_pagetable exception_entry pgms v = Ok (Resume 1, k0) /\
    forall k, rtc (polite_step kernel_end kernel_pagetable exception_entry TICK_LIMIT lit) k0 k ->
      sees_kernel kernel_end k /\
      (forall a k', polite kernel_end a -> step kernel_end kernel_pagetable exception_entry TICK_LIMIT lit k a k' ->
         exists Ts Ts', isolated kernel_end k Ts /\ isolated kernel_end k' Ts' /\ undisturbed kernel_end k k' Ts Ts') /\
      (forall r keys k' k'', reg_rax r = SYSCALL_PAGE_ALLOC -> trap_address kernel_end (reg_rdi r) = true ->
         syscall kernel_end kernel_pagetable exception_entry lit r keys k = Ok (Return 0, k') ->
         step kernel_end kernel_pagetable exception_entry TICK_LIMIT lit k' Hijack k'').
Proof.
  intros Hl Hf Hm Hbelow. destruct (boot pgms m Hl Hf Hm) as (v & k0 & Ts0 & n & Ev & Ek & H0 & _ & B). exists v, k0. split; [exact Ev|]. split; [exact Ek|].
  intros k R. assert (Hk : exists Ts, healthy kernel_end kernel_pagetable lit k Ts /\ forall j T, Ts !! j = Some T -> kernel_entries kernel_end (mem k) T).
  { assert (He0 := boot_entries _ _ _ _ Hbelow B). clear Ev Ek B. revert Ts0 H0 He0.
    induction R as [k|k k1 k2 (a & Ha & St) R IH]; intros Ts H He; [by exists Ts|].
    destruct (polite_entries _ _ _ _ _ (ln_placed Hl) Hbelow _ _ _ _ H He Ha St) as (Ts1 & H1 & _ & He1). by apply (IH Ts1). }
  destruct Hk as (Ts & H & He). destruct (iso_current _ _ _ (hl_isolated _ _ _ _ _ H)) as [T HT]. split; [|split].
  - exact (entries_see _ Hbelow k Ts T (hl_isolated _ _ _ _ _ H) HT (He _ _ HT)).
  - intros a k' Ha St. destruct (polite_entries _ _ _ _ _ (ln_placed Hl) Hbelow _ _ _ _ H He Ha St) as (Ts' & H' & U & _).
    exists Ts, Ts'. split; [apply H|]. split; [apply H'|exact U].
  - intros r keys k' k'' Hrax Hva E. apply step_hijack. exact (page_alloc_hides _ _ _ _ (ln_placed Hl) Hbelow k Ts r keys k' H Hrax Hva E).
Qed.

(** C23: scheduling is round robin and starves nobody.  While the keyboard is
    silent, schedule() runs the first runnable process after the current one
    (sixteen turns of its loop are enough); if there is none it spins for ever
    and shows memory every 4096 turns; and when the page tables of the runnable
    processes pass check_pagetable(), sixteen timer interrupts resume each of
    them. *)
Theorem schedule_fair k Ts keys : placed kernel_end lit -> healthy kernel_end kernel_pagetable lit k Ts -> (forall i, quiet (keys i) = true) ->
  ((exists d, (1 <= d <= 16)%nat /\ ready k (place (current k) d) = true /\
      (forall e, (0 < e < d)%nat -> ready k (place (current k) e) = false) /\
      forall fuel, (16 <= fuel)%nat -> schedule kernel_end kernel_pagetable exception_entry lit fuel keys k =
        run kernel_pagetable exception_entry (place (current k) d) k) \/
   ((forall i, ready k i = false) /\ (viewer_ready kernel_end k -> forall fuel, schedule kernel_end kernel_pagetable exception_entry lit fuel keys k = Err OutOfFuel))) /\
  forall es, schedulable kernel_pagetable exception_entry k -> viewer_ready kernel_end k -> TICK_LIMIT = 0 ->
    Forall timer_event es -> length es = 16%nat ->
    exists ps k', interrupts kernel_end kernel_pagetable exception_entry TICK_LIMIT lit es k = Ok (ps, k') /\ length ps = 16%nat /\
      forall j, ready k j = true -> j ∈ ps.
Proof.
  intros Hp H Hq. pose proof (isolated_table _ _ _ (hl_isolated _ _ _ _ _ H)) as Ht. split.
  - destruct (schedule_first kernel_end kernel_pagetable exception_entry lit k Ht) as [(d & Hd & Hr & Hb & Es)|Hno].
    + left. exists d. split; [exact Hd|]. split; [exact Hr|]. split; [exact Hb|]. intros fuel Hf. by apply Es.
    + right. split; [exact Hno|]. intros Hv fuel. rewrite schedule_start by exact Ht. by apply (schedule_loop_none _ _ _ _ Hp (current k) Ts).
  - intros es Hs Hv Hlim Hes Hlen. destruct (timer_total _ _ _ _ _ Hp es k Ts H Hs Hv Hlim Hes) as (ps & k' & E & Hl & Hin). exists ps, k'.
    split; [exact E|]. split; [congruence|]. intros j Hj.
    destruct (place_surj (current k) j (to_current _ Ht) (ready_lt _ _ Ht Hj)) as (d & Hd & Hpl). apply (Hin j d); [exact Hj|lia|exact Hpl].
Qed.

End spec.

(** ** Examples *)

(** A kernel whose process 1 has an empty page table at page 1. *)
Definition bare_tables : tables := {[ (3%nat, 0) := 0x1000 ]}.
Definition bare_memory : vm := mkVm (mkRam 0 ∅) (<[1%nat := 1]> (replicate 512 0)).
Definition bare_kernel : kernel :=
  mkKernel ((fun i => if Nat.eqb i 1 then mkProc 0x1000 1 P_RUNNABLE zero_regs else mkProc 0 (Z.of_nat i) P_FREE zero_regs) <$> seq 0 16)
    1 1 bare_memory (mkViewer 0 0 0).

Lemma bare_lookup k t : bare_tables !! k = Some t -> k = (3%nat, 0) /\ t = 0x1000.
Proof. unfold bare_tables. intros E. by apply lookup_singleton_Some in E as [<- <-]. Qed.

Lemma bare_space kernel_end : space kernel_end bare_memory bare_tables 0x1000.
Proof.
  split.
  - reflexivity.
  - reflexivity.
  - intros l x t E. apply bare_lookup in E as [[= -> ->] ->]. lia.
  - intros l x t E. apply bare_lookup in E as [_ ->]. done.
  - intros k k' t E E'. apply bare_lookup in E as [-> _], E' as [-> _]. done.
  - intros l x t E Hl. apply bare_lookup in E as [[= -> ->] ->]. lia.
  - intros l x t i E Hi. apply bare_lookup in E as [[= -> ->] ->]. destruct (bare_tables !! _) eqn:E'; [by apply bare_lookup in E' as [? _]|].
    unfold inactive. rewrite (load_zeros (phys bare_memory)); [done|]. intros b _. reflexivity.
  - intros x t i E. by apply bare_lookup in E as [? _].
Qed.

Lemma bare_no_user va q : ~ user_maps bare_memory bare_tables va q.
Proof. intros [Hu _]. unfold leaf in Hu. destruct (bare_tables !! _) eqn:E; [by apply bare_lookup in E as [? _]|done]. Qed.

Lemma bare_isolated kernel_end : isolated kernel_end bare_kernel {[ 1%nat := bare_tables ]}.
Proof.
  split; [|by exists bare_tables]. split.
  - reflexivity.
  - intros i p E. do 16 (destruct i as [|i]; [by injection E as <-|]). done.
  - intros i T E. apply lookup_singleton_Some in E as [<- <-]. eexists. split; [reflexivity|]. apply bare_space.
  - intros i p E Hs. do 16 (destruct i as [|i]; [injection E as <-; by try (exists bare_tables)|]). done.
  - intros i j T T' t E E' _ _. apply lookup_singleton_Some in E as [<- _], E' as [<- _]. done.
  - intros i T t E [k Hk]. apply lookup_singleton_Some in E as [_ <-]. apply bare_lookup in Hk as [_ ->]. done.
  - intros i T va q E Hu. apply lookup_singleton_Some in E as [_ <-]. by apply bare_no_user in Hu.
  - intros i j T T' va va' q E _ Hu. apply lookup_singleton_Some in E as [_ <-]. by apply bare_no_user in Hu.
Qed.

Definition demo_end : Z := 0x5A123.

Lemma memory_map_translate_witness : exists s', memory_map demo_end 0x1000 0x100000 0x3000 PTE_PWU bare_memory = Ok (0, s') /\
  memory_virtual_to_physical 0x1000 0x100123 s' = Ok (0x3123, s') /\ memory_virtual_to_physical 0x1000 0x200000 s' = Ok (2 ^ 64 - 1, s').
Proof.
  destruct (memory_map_translate demo_end bare_memory bare_tables 0x1000 0x100000 0x3000 PTE_PWU
              (bare_space _) eq_refl ltac:(lia) eq_refl ltac:(lia) eq_refl ltac:(done) eq_refl) as (r & s' & E & _ & H & _).
  assert (Hr : match memory_map demo_end 0x1000 0x100000 0x3000 PTE_PWU bare_memory with Ok (r, _) => r | Err _ => 1 end = 0)
    by (vm_compute; reflexivity).
  rewrite E in Hr. subst r. exists s'. split; [exact E|]. split.
  - apply (H 0x100123 (2 ^ 64 - 1) 0); [reflexivity|lia|reflexivity|reflexivity].
  - apply (H 0x200000 (2 ^ 64 - 1) 0); [reflexivity|lia|reflexivity|reflexivity].
Defined.

Lemma page_alloc_behaves_witness : exists k', syscall_page_alloc demo_end 0x100000 bare_kernel = Ok (0, k') /\
  memory_virtual_to_physical 0x1000 0x100000 (mem k') = Ok (0x2000, mem k').
Proof.
  pose proof (page_alloc_behaves demo_end bare_kernel {[ 1%nat := bare_tables ]} bare_tables (mkProc 0x1000 1 P_RUNNABLE zero_regs) 0x100000
              (bare_isolated _) eq_refl eq_refl eq_refl ltac:(lia) eq_refl) as H.
  assert (Hr : match syscall_page_alloc demo_end 0x100000 bare_kernel with Ok (r, _) => r | Err _ => 1 end = 0) by (vm_compute; reflexivity).
  destruct (syscall_page_alloc demo_end 0x100000 bare_kernel) as [[r k']|]; [|done]. subst r. exists k'. split; [done|].
  destruct H as [[? _]|(_ & T' & p & P & E & _)]; [done|]. cbn [pagetable] in E. rewrite E.
  destruct (pa_first _ _ _ _ _ _ _ _ P) as [Hf Hmin]. assert (H2 : free_page demo_end (mem bare_kernel) 0x2000) by (by split).
  assert (~ p < 0x2000); [|assert (~ 0x2000 < p) by (intros Hl; by apply (Hmin _ Hl)); by replace p with 0x2000 by lia].
  intros Hl. destruct Hf as [A1 A2 A3]. pose proof (allocatable_range _ p A1 A2). pose proof (Z.div_mod p 4096 ltac:(lia)).
  assert (p = 0x1000) as -> by lia. done.
Defined.

(** A machine with two programs, booted; the literals lie in the page 0x50000. *)
Definition all_literals : list literal :=
  [Physical_memory; Address_label; Virtual_for; Error_pid; Error_any; Reserved_mapped; Kernel_mapped; Allocated_mapped; All_exited;
   Page_fault; Write_access; Read_access; Protection; Missing].
Definition literal_index (l : literal) : Z :=
  match l with
  | Physical_memory => 0 | Address_label => 1 | Virtual_for => 2 | Error_pid => 3 | Error_any => 4 | Reserved_mapped => 5 | Kernel_mapped => 6
  | Allocated_mapped => 7 | All_exited => 8 | Page_fault => 9 | Write_access => 10 | Read_access => 11 | Protection => 12 | Missing => 13
  end.
Definition demo_lit (l : literal) : Z := 0x50000 + 256 * literal_index l.
Definition demo_ram : ram := foldr (fun l m => write_bytes m (demo_lit l) (literal_text l ++ [0])) (mkRam 0 ∅) all_literals.

Lemma demo_literal_range l a : demo_lit l <= a <= demo_lit l + Z.of_nat (length (literal_text l)) -> 0x50000 <= a < 0x51000.
Proof. pose proof (literal_short l). unfold demo_lit. destruct l; cbn [literal_index]; lia. Qed.

(** A decision procedure for a string in memory. *)
Fixpoint bytes_b (s : vm) (a : Z) (l : list Z) : bool :=
  match l with
  | [] => true
  | b :: l => match peek s a with Some x => x =? b | None => false end && bytes_b s (a + 1) l
  end.

Lemma bytes_b_sound s l : forall a, bytes_b s a l = true -> bytes_at s a l.
Proof.
  induction l as [|b l IH]; intros a; cbn [bytes_b]; [intros _ i x Hi; done|]. rewrite andb_true_iff. intros [Hb Hl]. apply bytes_at_cons.
  split; [|by apply IH]. destruct (peek s a) as [x|]; [|done]. apply Z.eqb_eq in Hb as ->. done.
Qed.

Lemma demo_loaded : loaded_memory demo_lit demo_ram.
Proof.
  assert (H : forallb (fun l => bytes_b (mkVm demo_ram (replicate 512 0)) (demo_lit l) (literal_text l ++ [0]) &&
                forallb (fun c => (0 <? c) && (c <? 256)) (literal_text l)) all_literals = true) by (vm_compute; reflexivity).
  intros l. rewrite forallb_forall in H. specialize (H l ltac:(destruct l; repeat (try (left; reflexivity); right))).
  generalize dependent demo_ram. intros m H. apply andb_true_iff in H as [H1 H2]. split; [by apply bytes_b_sound|].
  apply Forall_forall. intros c Hc. rewrite forallb_forall in H2. specialize (H2 c (proj1 (list_elem_of_In _ _) Hc)). lia.
Qed.

Definition demo_image : program_image := mkImage [mkSegment 0x100000 0x2010 [0xF3; 0x0F; 0x1E]] 0x100000.
Definition demo_hardware : res (unit * vm) := init_kernel_pagetable demo_end 0x42000 (mkVm demo_ram (replicate 512 0)).
Definition demo_boot : res (leave * kernel) :=
  '(_, v) <-! demo_hardware;; kernel_start demo_end 0x42000 0x40100 [demo_image; demo_image] v.
Definition kernel_of (r : res (leave * kernel)) : kernel := match r with Ok (_, k) => k | Err _ => bare_kernel end.
Definition demo_kernel : kernel := kernel_of demo_boot.

Lemma demo_linked : linked demo_end 0x42000 0x40100 demo_lit.
Proof.
  split; [done..| |].
  - intros l a Ha. apply demo_literal_range in Ha. by rewrite (page_start_in 0x50000 a) by (done || lia).
  - intros l a Ha. apply demo_literal_range in Ha. right. change PAGESIZE with 4096. lia.
Qed.

Lemma demo_fitting : fitting [demo_image; demo_image].
Proof.
  assert (Hs : program_ok demo_image) by (split; [by repeat constructor|by repeat constructor]).
  split; [by repeat constructor|done|cbn; lia|by vm_compute].
Qed.

Lemma demo_booted v k : init_kernel_pagetable demo_end 0x42000 (mkVm demo_ram (replicate 512 0)) = Ok (tt, v) ->
  kernel_start demo_end 0x42000 0x40100 [demo_image; demo_image] v = Ok (Resume 1, k) -> k = demo_kernel.
Proof. intros Ev Ek. unfold demo_kernel, demo_boot, demo_hardware. rewrite Ev. cbn [rbind]. rewrite Ek. reflexivity. Qed.

Lemma kernel_boots_witness : exists v k, init_kernel_pagetable demo_end 0x42000 (mkVm demo_ram (replicate 512 0)) = Ok (tt, v) /\
  kernel_start demo_end 0x42000 0x40100 [demo_image; demo_image] v = Ok (Resume 1, k) /\
  exists p a, ptable k !! 2%nat = Some p /\ memory_virtual_to_physical (pagetable p) 0x100001 (mem k) = Ok (a, mem k) /\ byte_at (phys (mem k)) a = 0x0F.
Proof.
  destruct (kernel_boots demo_end 0x42000 0x40100 demo_lit [demo_image; demo_image] demo_ram demo_linked demo_fitting demo_loaded) as (v & k & Ev & Ek & _ & H).
  exists v, k. split; [exact Ev|]. split; [exact Ek|]. destruct (H 1%nat demo_image eq_refl) as (p & Hp & _ & _ & _ & Hseg).
  destruct (Hseg (mkSegment 0x100000 0x2010 [0xF3; 0x0F; 0x1E]) 1) as (a & Ea & _ & Eb); [left|cbn; lia|]. exists p, a.
  split; [exact Hp|]. split; [exact Ea|exact Eb].
Defined.

(** page_alloc(0x41000), a page of the kernel. *)
Definition grab_regs : regstate := mkRegs SYSCALL_PAGE_ALLOC 0 0 0 0 0 0x41000 0 0 0 0 0 0 0 0 0 0 0 0 0 0 0 0 0 0.
Definition no_key : nat -> Z := fun _ => -1.

Lemma demo_grab : exists k', syscall demo_end 0x42000 0x40100 demo_lit grab_regs no_key demo_kernel = Ok (Return 0, k').
Proof.
  assert (H : match syscall demo_end 0x42000 0x40100 demo_lit grab_regs no_key demo_kernel with Ok (Return 0, _) => true | _ => false end = true)
    by (vm_compute; reflexivity).
  destruct (syscall _ _ _ _ _ _ _) as [[[[]|] k']|]; [|discriminate H..]. exists k'. reflexivity.
Qed.

(** Every trap of the booted process leaves the processes isolated; but page_alloc
    gives it a page of the kernel, and then anything may happen. *)
Lemma processes_isolated_witness : exists v k0, init_kernel_pagetable demo_end 0x42000 (mkVm demo_ram (replicate 512 0)) = Ok (tt, v) /\
  kernel_start demo_end 0x42000 0x40100 [demo_image; demo_image] v = Ok (Resume 1, k0) /\ sees_kernel demo_end k0 /\
  (forall r cr2 keys k', step demo_end 0x42000 0x40100 0 demo_lit k0 (Exception r cr2 keys) k' -> exists Ts', isolated demo_end k' Ts') /\
  exists k', syscall demo_end 0x42000 0x40100 demo_lit grab_regs no_key k0 = Ok (Return 0, k') /\
    forall k'', step demo_end 0x42000 0x40100 0 demo_lit k' Hijack k''.
Proof.
  destruct (processes_isolated demo_end 0x42000 0x40100 0 demo_lit [demo_image; demo_image] demo_ram demo_linked demo_fitting demo_loaded
              ltac:(vm_compute; discriminate)) as (v & k0 & Ev & Ek & H).
  exists v, k0. split; [exact Ev|]. split; [exact Ek|]. destruct (H k0 (rtc_refl _ _)) as (Hs & Hstep & Hgrab). split; [exact Hs|]. split.
  - intros r cr2 keys k' St. destruct (Hstep (Exception r cr2 keys) k' I St) as (_ & Ts' & _ & H' & _). exists Ts'. exact H'.
  - rewrite (demo_booted v k0 Ev Ek) in *. destruct demo_grab as [k' E]. exists k'. split; [exact E|]. intros k''.
    exact (Hgrab grab_regs no_key k' k'' eq_refl eq_refl E).
Defined.

Definition timer_regs : regstate := mkRegs 0 0 0 0 0 0 0 0 0 0 0 0 0 0 0 0 0 (INT_IRQ + IRQ_TIMER) 0 0 0 0 0 0 0.

Lemma demo_viewer_ready : viewer_ready demo_end demo_kernel /\ ready demo_kernel 1 = true /\ ready demo_kernel 2 = true.
Proof.
  assert (H : used (mem demo_kernel) 0x3F000 = false /\ ready demo_kernel 1 = true /\ ready demo_kernel 2 = true) by (vm_compute; auto).
  generalize dependent demo_kernel. intros k [H1 H2]. split; [|exact H2]. right. exists 0x3F000. split; [reflexivity|reflexivity|exact H1].
Qed.

Lemma schedule_fair_witness : exists ps k', interrupts demo_end 0x42000 0x40100 0 demo_lit (replicate 16 (mkEvent timer_regs 0 no_key)) demo_kernel = Ok (ps, k') /\
  1%nat ∈ ps /\ 2%nat ∈ ps.
Proof.
  destruct (boot demo_end 0x42000 0x40100 demo_lit [demo_image; demo_image] demo_ram demo_linked demo_fitting demo_loaded) as (v & k & Ts & n & Ev & Ek & H & Hs & _).
  pose proof (demo_booted v k Ev Ek) as Ed. destruct demo_viewer_ready as (Hv & H1 & H2). rewrite <- Ed in *. clear Ed Ek Ev.
  destruct (proj2 (schedule_fair demo_end 0x42000 0x40100 0 demo_lit k Ts no_key (ln_placed _ _ _ _ demo_linked) H ltac:(intros i; reflexivity))
              (replicate 16 (mkEvent timer_regs 0 no_key)) Hs Hv eq_refl) as (ps & k' & E & _ & Hin).
  - apply Forall_replicate. split; [reflexivity|]. intros i. reflexivity.
  - reflexivity.
  - exists ps, k'. split; [exact E|]. split; apply Hin; [exact H1|exact H2].
Defined.
