(* ===== verification/ViewerSpec.v ===== *)
(** * Properties of the memory viewer and of the page table iterators

    The pictures are right; the permissions of a range are those of each of its
    addresses; the loop over ptiter visits every page of a page table below its
    root once, children first. *)
From stdpp Require Import prelude gmap list.
From Stdlib Require Import ZArith Lia.
From S2P Require Import Prelude Memory Lib LibProofs Printer ConsoleProofs Vm VmProofs VmBoot VmIter VmIterProofs KernelState MemViewer Kernel KernelBoot KernelProofs MemUsageProofs ViewerProofs MemShowProofs KernelSteps KernelInit KernelSpec.
Open Scope Z_scope.
Open Scope c_scope.

(** ** The memory viewer *)

(** C15: the pictures are right.  In every state that a booted machine reaches by
    the kernel's handlers and by stores of user code, memshow() either finds no page for its records and stops at its assertion,
    or puts on the screen, for each page of physical memory, the symbol of what
    the page is for (console, reserved, kernel, the viewer's own page, a table
    or a page of process j, or free), and for each page of the address space of
    the process that it shows a blank or the symbol of the page it maps to, in
    exchanged colors where user code has access.  No page error is reported,
    and nothing changes but the console and the viewer's own page. *)
Theorem memshow_draws kernel_end kernel_pagetable exception_entry TICK_LIMIT lit pgms m :
  linked kernel_end kernel_pagetable exception_entry lit -> fitting pgms -> loaded_memory lit m ->
  exists v k0, init_kernel_pagetable kernel_end kernel_pagetable (mkVm m (replicate 512 0)) = Ok (tt, v) /\
    kernel_start kernel_end kernel_pagetable exception_entry pgms v = Ok (Resume 1, k0) /\
    forall k, rtc (handler_step kernel_end kernel_pagetable exception_entry TICK_LIMIT lit) k0 k -> exists Ts, isolated kernel_end k Ts /\
      match memshow kernel_end kernel_pagetable lit k with
      | Ok (_, k') => viewed kernel_end kernel_pagetable lit k k' Ts /\ exists cells, shows (mem k') cells /\
          physical_picture kernel_end k' Ts cells /\ virtual_picture kernel_end k' Ts cells
      | Err f => f = AssertFail /\ v_ (view k) = 0 /\ forall q, ~ free_page kernel_end (mem k) q
      end.
Proof.
  intros Hl Hf Hm. destruct (boot _ _ _ _ pgms m Hl Hf Hm) as (v & k0 & Ts0 & n & Ev & Ek & H & _ & _). exists v, k0. split; [exact Ev|]. split; [exact Ek|].
  intros k R. pose proof (ln_placed _ _ _ _ Hl) as Hp. destruct (steps_healthy _ _ _ _ _ Hp _ _ _ H R) as [Ts Hk]. exists Ts. split; [apply Hk|].
  destruct (memshow_run _ _ _ Hp k Ts Hk) as [(k' & cells & E & V & S1 & S2 & S3)|(E & Hno)]; rewrite E; [|exact (conj eq_refl Hno)].
  split; [exact V|]. exists cells. exact (conj S1 (conj S2 S3)).
Qed.

(** Two processes have just been started: the root of the page table of process 1
    is the first page, and its cell shows it. *)
Lemma memshow_draws_witness : exists k' cells, memshow demo_end 0x42000 demo_lit demo_kernel = Ok (tt, k') /\ shows (mem k') cells /\
  cells !! cell_of 1 1 = Some 0x4C31.
Proof.
  destruct (memshow_draws demo_end 0x42000 0x40100 0 demo_lit [demo_image; demo_image] demo_ram demo_linked demo_fitting demo_loaded) as (v & k0 & Ev & Ek & H).
  destruct demo_viewer_ready as [Hv _].
  assert (Hroot : match ptable demo_kernel !! 1%nat with Some p => pagetable p = 0x1000 /\ state p = P_RUNNABLE | None => False end) by (vm_compute; auto).
  rewrite <- (demo_booted v k0 Ev Ek) in *. destruct (H k0 (rtc_refl _ _)) as (Ts & I & Hm). clear Ev Ek H.
  destruct (memshow demo_end 0x42000 demo_lit k0) as [[[] k']|f]; [|destruct Hm as (_ & E0 & Hno), Hv as [Hv|[q Hq]]; [by destruct Hv|by destruct (Hno q)]].
  destruct Hm as (V & cells & S1 & S2 & _). exists k', cells. split; [reflexivity|]. split; [exact S1|].
  destruct (ptable k0 !! 1%nat) as [p|] eqn:Ep; [|destruct Hroot]. destruct Hroot as [R1 R2].
  apply (S2 1%nat (Table_of 1)); [lia|]. destruct (iso_started _ _ _ I 1%nat p Ep ltac:(rewrite R2; discriminate)) as [T HT].
  exists T, p. destruct (vw_same _ _ _ _ _ _ V) as (P & _ & _). unfold active. rewrite P, R1, R2. split; [|left; reflexivity].
  split; [lia|]. split; [exact HT|]. split; [exact Ep|discriminate].
Defined.

(** ** Permissions *)

Lemma land_both p q w : Z.land (Z.land p q) w = w <-> Z.land p w = w /\ Z.land q w = w.
Proof.
  split.
  - intros E. split; apply Z.bits_inj'; intros n Hn; rewrite Z.land_spec; apply (f_equal (fun z => Z.testbit z n)) in E;
      rewrite !Z.land_spec in E; destruct (Z.testbit p n), (Z.testbit q n), (Z.testbit w n); done.
  - intros [E1 E2]. by rewrite <- Z.land_assoc, E2.
Qed.

Lemma meet_has s T n va p w :
  Z.land (meet s T n va p) w = w <->
  Z.land p w = w /\ forall i, (i < n)%nat -> Z.land (permission (leaf s T (va + 4096 * Z.of_nat i))) w = w.
Proof.
  revert va p. induction n as [|n IH]; intros va p; cbn [meet]; [naive_solver lia|]. rewrite IH, land_both. split.
  - intros [[H1 H2] H3]. split; [done|]. intros [|i] Hi; [by rewrite Z.mul_0_r, Z.add_0_r|].
    replace (va + 4096 * Z.of_nat (S i)) with (va + 4096 + 4096 * Z.of_nat i) by lia. apply H3. lia.
  - intros [H1 H2]. pose proof (H2 0%nat ltac:(lia)) as H0. rewrite Z.mul_0_r, Z.add_0_r in H0. split; [done|]. intros i Hi.
    replace (va + 4096 + 4096 * Z.of_nat i) with (va + 4096 * Z.of_nat (S i)) by lia. apply H2. lia.
Qed.

Section spec.
Context (kernel_end : Z).

(** The pages that [range_perm] intersects are those of the range. *)
Lemma range_pages_perm s T root va sz w :
  space kernel_end s T root -> 0 <= va -> 0 < sz -> va + sz <= VA_LOWEND ->
  Z.land (meet s T (more_pages (sz + va mod 4096)) (4096 * (va / 4096 + 1)) (permission (leaf s T va))) w = w <->
  forall a q, va <= a < va + sz -> memory_permissions root a s = Ok (q, s) -> Z.land q w = w.
Proof.
  intros H Hva Hsz Hend. unfold VA_LOWEND in Hend. rewrite meet_has. unfold more_pages.
  pose proof (Z.div_mod va 4096 ltac:(lia)) as Hdm. pose proof (Z.mod_pos_bound va 4096 ltac:(lia)) as Hoff.
  set (off := va mod 4096) in *. set (v := va / 4096) in *. pose proof (Z.div_mod (sz + off + 4095) 4096 ltac:(lia)) as Hn.
  pose proof (Z.mod_pos_bound (sz + off + 4095) 4096 ltac:(lia)). set (n := (sz + off + 4095) / 4096) in *. split.
  - intros [Hfirst Hi] a q Ha Eq. rewrite (permissions_spec _ _ _ _ _ H (low_canonical a ltac:(lia))) in Eq. injection Eq as <-.
    pose proof (Z.div_mod a 4096 ltac:(lia)) as Hdm'. pose proof (Z.mod_pos_bound a 4096 ltac:(lia)).
    destruct (decide (a / 4096 = v)) as [Ev|Ev]; [by rewrite (leaf_slot s T va a) by (lia || done)|].
    specialize (Hi (Z.to_nat (a / 4096 - v - 1)) ltac:(lia)). replace (4096 * (v + 1) + _) with (4096 * (a / 4096)) in Hi by lia.
    rewrite (leaf_slot s T (4096 * (a / 4096)) a); [done|lia|lia|]. unfold slot. change (2 ^ _) with 4096. by rewrite (Z.mul_comm 4096), Z.div_mul by lia.
  - intros Hall. split; [apply (Hall va); [lia|]; apply permissions_spec with (1 := H), low_canonical; lia|].
    intros i Hi. apply (Hall (4096 * (v + 1) + 4096 * Z.of_nat i)); [lia|]. apply permissions_spec with (1 := H), low_canonical. lia.
Qed.

(** range_perm() is the intersection of the permissions of the range: it has the
    permissions [w] exactly if every address of the range has them, if the range
    is longer than a page or does not leave the page of [va]; it is 0 for a long
    range that leaves the lower half of the address space. For up to 4096 bytes
    the code looks at the page of [va] alone, also when the range reaches into
    the next one. *)
Theorem range_perm_correct s T root va sz :
  space kernel_end s T root -> 0 <= va < VA_LOWEND -> 0 < sz < 2 ^ 64 ->
  exists it p, new_vmiter root va s = Ok (it, s) /\ range_perm it sz s = Ok (p, s) /\
    (PAGESIZE < sz \/ va mod PAGESIZE + sz <= PAGESIZE -> va + sz <= VA_LOWEND -> forall w,
       Z.land p w = w <-> forall a q, va <= a < va + sz -> memory_permissions root a s = Ok (q, s) -> Z.land q w = w) /\
    (PAGESIZE < sz -> VA_LOWEND < va + sz -> p = 0) /\
    (sz <= PAGESIZE -> memory_permissions root va s = Ok (p, s)).
Proof.
  intros H Hva Hsz. change PAGESIZE with 4096. pose proof (low_canonical va Hva) as Hc.
  destruct (new_vmiter_spec kernel_end s T root va H Hc) as (l & t & Hl & Hb & E). fold (at_entry root va t l) in E.
  exists (at_entry root va t l). rewrite (range_perm_run kernel_end s T root va l t sz H Hl Hb Hva ltac:(lia)).
  eexists. split; [exact E|]. split; [reflexivity|]. split_and!.
  - intros Hlen Hend w. rewrite <- (range_pages_perm s T root va sz w H ltac:(lia) ltac:(lia) Hend).
    pose proof (Z.mod_pos_bound va 4096 ltac:(lia)). destruct (Z.leb_spec sz 4096).
    + unfold more_pages. replace ((sz + va mod 4096 + 4095) / 4096) with 1 by (apply Z.div_unique with (r := sz + va mod 4096 - 1); lia). done.
    + by rewrite (proj2 (Z.ltb_ge _ _)) by lia.
  - intros H1 H2. by rewrite (proj2 (Z.leb_gt _ _)), (proj2 (Z.ltb_lt _ _)) by lia.
  - intros H1. by rewrite (permissions_spec _ _ _ _ _ H Hc), (proj2 (Z.leb_le _ _)) by lia.
Qed.

(** C36: the loop [for (ptiter it(pt); !it.done(); it.next())] terminates and visits
    exactly the pages of the page table below its root, each once and each after
    its children, so that a loop that frees them never reads a freed table. *)
Theorem ptiter_visits s T root : space kernel_end s T root ->
  exists visits, ptiter_foreach root s = Ok (visits, s) /\ NoDup visits /\ (length visits <= 512)%nat /\
    (forall x, x ∈ visits <-> exists l c, (l <= 2)%nat /\ 0 <= c < 512 ^ Z.of_nat (3 - l) /\ T !! (l, c) = Some x) /\
    (forall l c child parent, (l <= 1)%nat -> 0 <= c < 512 ^ Z.of_nat (3 - l) ->
       T !! (l, c) = Some child -> T !! (S l, c / 512) = Some parent -> before child parent visits).
Proof.
  intros H. exists (scan T 2 0 512). split_and!; [exact (foreach_run _ _ _ _ H)|exact (NoDup_visits _ _ _ _ H)|exact (visits_length _ _ _ _ H)| |].
  - intros x. exact (visits_sound _ _ _ _ H x).
  - intros l c t t'. exact (visits_before _ _ _ _ H l c t t').
Qed.
End spec.

(** ** Witnesses *)

(** The page at 0x100000 mapped in an empty address space, the next one not. *)
Definition mapped_memory : vm := match memory_map demo_end 0x1000 0x100000 0x8000 PTE_PWU bare_memory with Ok (_, s) => s | Err _ => bare_memory end.

Lemma mapped_space : exists T, space demo_end mapped_memory T 0x1000.
Proof.
  destruct (memory_map_spec demo_end bare_memory bare_tables 0x1000 0x100000 0x8000 PTE_PWU (bare_space _) eq_refl eq_refl
              ltac:(lia) eq_refl ltac:(done) eq_refl) as (r & s' & T' & E & H & _).
  exists T'. unfold mapped_memory. by rewrite E.
Qed.

(** The result of a run, without the memory. *)
Definition result {A} (r : res (A * vm)) : option A := match r with Ok (a, _) => Some a | Err _ => None end.

Lemma result_ok {A} r (a b : A) s : r = Ok (a, s) -> result r = Some b -> a = b.
Proof. intros ->. cbn. congruence. Qed.

Lemma range_perm_correct_witness : exists T, space demo_end mapped_memory T 0x1000 /\
  exists it p, new_vmiter 0x1000 0x100FFF mapped_memory = Ok (it, mapped_memory) /\
    range_perm it 2 mapped_memory = Ok (p, mapped_memory) /\ p = 7 /\
    result (memory_permissions 0x1000 0x101000 mapped_memory) = Some 0.
Proof.
  assert (Hp : result (memory_permissions 0x1000 0x100FFF mapped_memory) = Some 7) by (vm_compute; reflexivity).
  assert (Hq : result (memory_permissions 0x1000 0x101000 mapped_memory) = Some 0) by (vm_compute; reflexivity).
  destruct mapped_space as [T H]. generalize dependent mapped_memory. intros s Hp Hq H. exists T. split; [exact H|].
  destruct (range_perm_correct demo_end s T 0x1000 0x100FFF 2 H ltac:(done) ltac:(done)) as (it & p & E & Ep & _ & _ & H1).
  exists it, p. split; [exact E|]. split; [exact Ep|]. split; [|exact Hq].
  exact (result_ok _ _ _ _ (H1 ltac:(done)) Hp).
Defined.

Lemma ptiter_visits_witness : exists T, space demo_end mapped_memory T 0x1000 /\
  exists visits, ptiter_foreach 0x1000 mapped_memory = Ok (visits, mapped_memory) /\ visits = [0x4000; 0x3000; 0x2000] /\ NoDup visits.
Proof.
  assert (Hv : result (ptiter_foreach 0x1000 mapped_memory) = Some [0x4000; 0x3000; 0x2000]) by (vm_compute; reflexivity).
  destruct mapped_space as [T H]. generalize dependent mapped_memory. intros s Hv H. exists T. split; [exact H|].
  destruct (ptiter_visits demo_end s T 0x1000 H) as (visits & E & Hn & _). exists visits. split; [exact E|].
  split; [exact (result_ok _ _ _ _ E Hv)|exact Hn].
Defined.
