(* ===== verification/Hardware.v ===== *)
(** * Hardware of the mini operating system (mini-operating-system/k-hardware.cc, k-pci.hh)

    The parts of the hardware support that compute: the translation of
    keyboard scan codes, the segment and gate descriptors in the format of the
    processor, the lookup of addresses in the kernel's symbol table, and the
    search for PCI devices.  What the devices answer (the bytes of the keyboard
    controller, the configuration space of the PCI bus) are arguments. *)
From stdpp Require Import prelude list.
From Stdlib Require Import ZArith Lia.
From S2P Require Import Prelude Vm KernelState.
Open Scope Z_scope.
Open Scope c_scope.

(** An element of a static array. *)
Definition array_get {A} (l : list A) (i : Z) : res A :=
  if i <? 0 then Err UB else match l !! Z.to_nat i with Some x => Ok x | None => Err UB end.

(** ** The keyboard *)

Module Keyboard.

Definition MOD_SHIFT : Z := Z.shiftl 1 0.
Definition MOD_CONTROL : Z := Z.shiftl 1 1.
Definition MOD_CAPSLOCK : Z := Z.shiftl 1 3.

Definition KEY_SHIFT : Z := 0xFA.
Definition KEY_CONTROL : Z := 0xFB.
Definition KEY_ALT : Z := 0xFC.
Definition KEY_CAPSLOCK : Z := 0xFD.
Definition KEY_NUMLOCK : Z := 0xFE.
Definition KEY_SCROLLLOCK : Z := 0xFF.

Definition KEY_UP : Z := 0xC0.
Definition KEY_RIGHT : Z := 0xC1.
Definition KEY_DOWN : Z := 0xC2.
Definition KEY_LEFT : Z := 0xC3.
Definition KEY_HOME : Z := 0xC4.
Definition KEY_END : Z := 0xC5.
Definition KEY_PAGEUP : Z := 0xC6.
Definition KEY_PAGEDOWN : Z := 0xC7.
Definition KEY_INSERT : Z := 0xC8.
Definition KEY_DELETE : Z := 0xC9.

Definition CKEY (cn : Z) : Z := 0x80 + cn.

Definition keymap : list Z := [
   0; 27; CKEY 0; CKEY 1; CKEY 2; CKEY 3; CKEY 4; CKEY 5;                (* 0x00 *)
   CKEY 6; CKEY 7; CKEY 8; CKEY 9; CKEY 10; CKEY 11; 8; 9;
   113; 119; 101; 114; 116; 121; 117; 105;                               (* 0x10 *)
   111; 112; CKEY 12; CKEY 13; CKEY 14; KEY_CONTROL; 97; 115;
   100; 102; 103; 104; 106; 107; 108; CKEY 15;                           (* 0x20 *)
   CKEY 16; CKEY 17; KEY_SHIFT; CKEY 18; 122; 120; 99; 118;
   98; 110; 109; CKEY 19; CKEY 20; CKEY 21; KEY_SHIFT; 42;               (* 0x30 *)
   KEY_ALT; 32; KEY_CAPSLOCK; 0; 0; 0; 0; 0;
   0; 0; 0; 0; 0; KEY_NUMLOCK; KEY_SCROLLLOCK; 55;                       (* 0x40 *)
   56; 57; 45; 52; 53; 54; 43; 49;
   50; 51; 48; 46; 0; 0; 0; 0;  0; 0; 0; 0; 0; 0; 0; 0;                  (* 0x50 *)
   0; 0; 0; 0; 0; 0; 0; 0;  0; 0; 0; 0; 0; 0; 0; 0;                      (* 0x60 *)
   0; 0; 0; 0; 0; 0; 0; 0;  0; 0; 0; 0; 0; 0; 0; 0;                      (* 0x70 *)
   0; 0; 0; 0; 0; 0; 0; 0;  0; 0; 0; 0; 0; 0; 0; 0;                      (* 0x80 *)
   0; 0; 0; 0; 0; 0; 0; 0;  0; 0; 0; 0; CKEY 14; KEY_CONTROL; 0; 0;      (* 0x90 *)
   0; 0; 0; 0; 0; 0; 0; 0;  0; 0; 0; 0; 0; 0; 0; 0;                      (* 0xA0 *)
   0; 0; 0; 0; 0; 47; 0; 0;  KEY_ALT; 0; 0; 0; 0; 0; 0; 0;               (* 0xB0 *)
   0; 0; 0; 0; 0; 0; 0; KEY_HOME;                                        (* 0xC0 *)
   KEY_UP; KEY_PAGEUP; 0; KEY_LEFT; 0; KEY_RIGHT; 0; KEY_END;
   KEY_DOWN; KEY_PAGEDOWN; KEY_INSERT; KEY_DELETE; 0; 0; 0; 0;           (* 0xD0 *)
   0; 0; 0; 0; 0; 0; 0; 0;
   0; 0; 0; 0; 0; 0; 0; 0;  0; 0; 0; 0; 0; 0; 0; 0;                      (* 0xE0 *)
   0; 0; 0; 0; 0; 0; 0; 0;  0; 0; 0; 0; 0; 0; 0; 0 ].                    (* 0xF0 *)

Definition complex_keymap : list (list Z) := [
   [49; 33; 0; 0]; [50; 64; 0; 0]; [51; 35; 0; 0]; [52; 36; 0; 0]; [53; 37; 0; 0]; [54; 94; 0; 30];
   [55; 38; 0; 0]; [56; 42; 0; 0]; [57; 40; 0; 0]; [48; 41; 0; 0]; [45; 95; 0; 31]; [61; 43; 0; 0];
   [91; 123; 27; 0]; [93; 125; 29; 0]; [10; 10; 13; 13]; [59; 58; 0; 0]; [39; 34; 0; 0]; [96; 126; 0; 0];
   [92; 124; 28; 0]; [44; 60; 0; 0]; [46; 62; 0; 0]; [47; 63; 0; 0] ].

(** The static variables of keyboard_readc(). *)
Record keyboard := mkKeyboard { modifiers : Z; last_escape : Z }.

Definition set_modifiers (m : Z) : M keyboard unit := modify (fun k => mkKeyboard m (last_escape k)).
Definition set_escape (e : Z) : M keyboard unit := modify (fun k => mkKeyboard (modifiers k) e).
Definition lookup_key (i : Z) : M keyboard Z := lift (array_get keymap i).

Definition KEYBOARD_STATUS_READY : Z := 0x01.

(** A key that went down: the last part of keyboard_readc(). *)
Definition key_down (ch : Z) : M keyboard Z :=
  m <- gets modifiers;;
  if (97 <=? ch) && (ch <=? 122) then
    if negb (Z.land m MOD_CONTROL =? 0) then ret (ch - 0x60)
    else if xorb (Z.land m MOD_SHIFT =? 0) (Z.land m MOD_CAPSLOCK =? 0) then ret (ch - 0x20)
    else ret ch
  else if KEY_CAPSLOCK <=? ch then
    set_modifiers (u8 (Z.lxor m (Z.shiftl 1 (ch - KEY_SHIFT)))) ;;; ret 0
  else if KEY_SHIFT <=? ch then
    set_modifiers (u8 (Z.lor m (Z.shiftl 1 (ch - KEY_SHIFT)))) ;;; ret 0
  else if (CKEY 0 <=? ch) && (ch <=? CKEY 21) then
    key <- lift (array_get complex_keymap (ch - CKEY 0));;
    lift (array_get key (Z.land m 3))
  else if (ch <? 0x80) && negb (Z.land m MOD_CONTROL =? 0) then ret 0
  else ret ch.

(** keyboard_readc(): the status register holds [status], and the data register
    [data] if the status says so. *)
Definition keyboard_readc (status data : Z) : M keyboard Z :=
  if Z.land status KEYBOARD_STATUS_READY =? 0 then ret (-1)
  else
    escape <- gets last_escape;;
    set_escape 0 ;;;
    if data =? 0xE0 then set_escape 0x80 ;;; ret 0
    else if negb (Z.land data 0x80 =? 0) then
      ch <- lookup_key (Z.lor (Z.land data 0x7F) escape);;
      (if (KEY_SHIFT <=? ch) && (ch <? KEY_CAPSLOCK) then
         m <- gets modifiers;;
         set_modifiers (u8 (Z.land m (Z.lnot (Z.shiftl 1 (ch - KEY_SHIFT)))))
       else ret tt) ;;;
      ret 0
    else
      ch <- lookup_key (Z.lor data escape);;
      key_down ch.

End Keyboard.

(** ** Segments and gates *)

Module Descriptors.

Definition X86SEG_S : Z := Z.shiftl 1 44.
Definition X86SEG_P : Z := Z.shiftl 1 47.
Definition X86SEG_L : Z := Z.shiftl 1 53.
Definition X86SEG_W : Z := Z.shiftl 0x2 40.
Definition X86SEG_X : Z := Z.shiftl 0x8 40.
Definition X86SEG_TSS : Z := Z.shiftl 0x9 40.
Definition X86GATE_INTERRUPT : Z := 0xE.
Definition SEGSEL_KERN_CODE : Z := 0x8.
Definition SEGSEL_KERN_DATA : Z := 0x10.
Definition SEGSEL_TASKSTATE : Z := 0x28.
Definition INT_BP : Z := 3.
Definition SIZEOF_TASKSTATE : Z := 104.

(** The value stored to the segment. *)
Definition set_app_segment (type dpl : Z) : Z :=
  Z.lor (Z.lor (Z.lor type X86SEG_S) (u64 (Z.shiftl dpl 45))) X86SEG_P.

(** The two values stored to the segment. *)
Definition set_sys_segment (addr size type dpl : Z) : Z * Z :=
  let limit := u64 (size - 1) in
  (Z.lor (Z.lor (Z.lor (Z.lor (Z.lor (Z.lor
     (u64 (Z.shiftl (Z.land addr 0xFFFFFF) 16))
     (u64 (Z.shiftl (Z.land addr 0xFF000000) 32)))
     (Z.land limit 0xFFFF))
     (u64 (Z.shiftl (Z.land limit 0xF0000) 48)))
     type)
     (u64 (Z.shiftl dpl 45)))
     X86SEG_P,
   Z.shiftr addr 32).

Record x86_64_gatedescriptor := mkGate { gd_low : Z; gd_high : Z }.

Definition set_gate (addr type dpl ist : Z) : res x86_64_gatedescriptor :=
  if (u32 type <? 16) && (u32 dpl <? 4) && (u32 ist <? 8) then
    Ok (mkGate
      (Z.lor (Z.lor (Z.lor (Z.lor (Z.lor (Z.lor
         (Z.land addr 0xFFFF)
         (Z.shiftl SEGSEL_KERN_CODE 16))
         (u64 (Z.shiftl ist 32)))
         (u64 (Z.shiftl type 40)))
         (u64 (Z.shiftl dpl 45)))
         X86SEG_P)
         (u64 (Z.shiftl (Z.land addr 0xFFFF0000) 32)))
      (Z.shiftr addr 32))
  else Err AssertFail.

(** The loop of init_interrupts() over the descriptors from number [i] on. *)
Fixpoint init_gates (i : Z) (ds : list x86_64_gatedescriptor) : res (list x86_64_gatedescriptor) :=
  match ds with
  | [] => Ok []
  | d :: ds =>
      d' <-! set_gate (gd_low d) X86GATE_INTERRUPT (if i =? INT_BP then 3 else 0) 0;;
      ds' <-! init_gates (i + 1) ds;;
      Ok (d' :: ds')
  end.

Definition init_interrupts (interrupt_descriptors : list x86_64_gatedescriptor) : res (list x86_64_gatedescriptor) :=
  init_gates 0 interrupt_descriptors.

(** gdt_segments[i] = x *)
Definition set_segment (i x : Z) (g : list Z) : res (list Z) :=
  if (0 <=? i) && (i <? Z.of_nat (length g)) then Ok (<[Z.to_nat i := x]> g) else Err UB.

(** The segments that init_cpu_hardware() sets up; [taskstate] is an address. *)
Definition init_cpu_segments (taskstate : Z) (gdt_segments : list Z) : res (list Z) :=
  let tss := set_sys_segment taskstate SIZEOF_TASKSTATE X86SEG_TSS 0 in
  g <-! set_segment 0 0 gdt_segments;;
  g <-! set_segment (Z.shiftr SEGSEL_KERN_CODE 3) (set_app_segment (Z.lor X86SEG_X X86SEG_L) 0) g;;
  g <-! set_segment (Z.shiftr SEGSEL_KERN_DATA 3) (set_app_segment X86SEG_W 0) g;;
  g <-! set_segment (Z.shiftr SEGSEL_APP_CODE 3) (set_app_segment (Z.lor X86SEG_X X86SEG_L) 3) g;;
  g <-! set_segment (Z.shiftr SEGSEL_APP_DATA 3) (set_app_segment X86SEG_W 3) g;;
  g <-! set_segment (Z.shiftr SEGSEL_TASKSTATE 3) (fst tss) g;;
  set_segment (Z.shiftr SEGSEL_TASKSTATE 3 + 1) (snd tss) g.

End Descriptors.

(** ** The symbol table *)

Module Symbols.

Record elf_symbol := mkSymbol { st_name : Z; st_value : Z; st_size : Z }.

(** One iteration of lookup_symbol(), with the loop variables [l] and [r].  The
    answer is the symbol, from which the code takes the name and the start. *)
Definition lookup_step (symtab : list elf_symbol) (addr : Z) (lr : Z * Z) : res (Z * Z + option elf_symbol) :=
  let '(l, r) := lr in
  let nsym := Z.of_nat (length symtab) in
  if l <? r then
    let m := l + Z.shiftr (r - l) 1 in
    sym <-! array_get symtab m;;
    hit <-! (if st_value sym <=? addr then
               next <-! (if m + 1 =? nsym then Ok true
                         else next <-! array_get symtab (m + 1);; Ok (addr <? st_value next));;
               Ok (next && ((st_size sym =? 0) || (addr <=? u64 (st_value sym + st_size sym))))
             else Ok false);;
    if hit : bool then
      if st_value sym =? 0 then Ok (inr None) else Ok (inr (Some sym))
    else if st_value sym <? addr then Ok (inl (m + 1, r))
    else Ok (inl (l, m))
  else Ok (inr None).

Definition SYMTAB_ADDR : Z := 0x1000000.

(** lookup_symbol(), over the entry of the kernel page table for the table,
    which it fills in first. *)
Definition lookup_symbol (symtab : list elf_symbol) (addr : Z) : M Z (option elf_symbol) :=
  e <- get;;
  (if e =? 0 then modify (fun _ => Z.lor (Z.lor (Z.lor SYMTAB_ADDR PTE_P) PTE_W) PTE_PS) else ret tt) ;;;
  lift (loop (lookup_step symtab addr) (0, Z.of_nat (length symtab))).

End Symbols.

(** ** The PCI bus *)

Module Pci.

Definition config_vendor : Z := 0.
Definition config_lthb : Z := 12.
Definition addr_end : Z := 0x80000.

Definition make_addr (bus slot func : Z) : res Z :=
  if (0 <=? bus) && (bus <? 256) && (0 <=? slot) && (slot <? 32) && (0 <=? func) && (func <? 8) then
    Ok (Z.lor (Z.lor (Z.shiftl bus 16) (Z.shiftl slot 11)) (Z.shiftl func 8))
  else Err AssertFail.

Definition addr_func (addr : Z) : res Z :=
  if (0 <=? addr) && (addr <? 0x1000000) then Ok (Z.land (Z.shiftr addr 8) 7) else Err AssertFail.

Section pci.
(** The configuration space: the 32-bit word at an address. *)
Context (config : Z -> Z).

Definition readl (addr : Z) : res Z :=
  if (0 <=? addr) && (Z.land addr 3 =? 0) then Ok (u32 (config addr)) else Err AssertFail.

(** One iteration of next(), with [x] the word read last. *)
Definition next_step (st : Z * Z) : res (Z * Z + Z) :=
  let '(addr, x) := st in
  func <-! addr_func addr;;
  step <-! (if (func =? 0) && ((x =? 2 ^ 32 - 1) || (Z.land x 0x800000 =? 0))
            then make_addr 0 1 0 else make_addr 0 0 1);;
  let addr := addr + step in
  if addr_end <=? addr then Ok (inr (-1))
  else
    x <-! readl (addr + config_lthb);;
    if negb (x =? 2 ^ 32 - 1) then Ok (inr addr) else Ok (inl (addr, x)).

Definition next (addr : Z) : res Z :=
  x <-! readl (addr + config_lthb);;
  loop next_step (addr, x).

Definition find_step (predicate : Z -> res bool) (addr : Z) : res (Z + Z) :=
  if 0 <=? addr then
    b <-! predicate addr;;
    if b : bool then Ok (inr addr) else addr <-! next addr;; Ok (inl addr)
  else Ok (inr addr).

Definition find (predicate : Z -> res bool) (addr : Z) : res Z := loop (find_step predicate) addr.

(** The controller that poweroff() looks for. *)
Definition acpi_controller (a : Z) : res bool :=
  vd <-! readl (a + config_vendor);;
  Ok ((vd =? 0x71138086) || (vd =? 0x29188086)).

(** The port that poweroff() writes to, if it finds a controller. *)
Definition poweroff_port : res (option Z) :=
  addr <-! find acpi_controller 0;;
  if 0 <=? addr then
    w <-! readl (addr + 0x40);;
    Ok (Some (Z.land w 0xFFC0 + 4))
  else Ok None.

End pci.
End Pci.
