(* ===== verification/HardwareSpec.v ===== *)
(** * Properties of the hardware support

    The keyboard types what the US layout says, under any sequence of key
    presses and releases; the descriptors mean to the processor what the kernel
    wants; a symbol is found exactly if one covers the address; the search of the
    PCI bus visits the functions in order and terminates. *)
From Stdlib Require Import String ZArith Lia.
From stdpp Require Import prelude list strings.
From S2P Require Import Prelude Vm KernelState Hardware MemViewer.
Open Scope Z_scope.
Open Scope c_scope.

(** ** The keyboard

    The reference: the US layout by rows of keys, and what a typist sees. *)

Module Typing.
Import Keyboard.

(** What is printed on a key. *)
Inductive cap :=
  | Letter (c : Z)                 (* the small letter *)
  | Symbols (plain shifted : Z)
  | Enter
  | Always (c : Z)                 (* a key that shift does not change *)
  | Special (c : Z)                (* a cursor key *)
  | Shift | Control | Alt | CapsLock | OtherLock
  | Blank.

(** The scan codes of the rows of the main block, from their first key on. *)
Definition row (start : Z) (plain shifted : string) (code : Z) : option cap :=
  if (start <=? code) && (code <? start + Z.of_nat (String.length plain)) then
    match codes plain !! Z.to_nat (code - start), codes shifted !! Z.to_nat (code - start) with
    | Some p, Some s => Some (if (97 <=? p) && (p <=? 122) then Letter p else Symbols p s)
    | _, _ => None
    end
  else None.

(** The symbols on the key of the apostrophe: its shifted symbol is the double quote. *)
Definition main_block (code : Z) : option cap :=
  if code =? 0x28 then Some (Symbols 39 34) else
  match row 0x02 "1234567890-=" "!@#$%^&*()_+" code, row 0x10 "qwertyuiop[]" "QWERTYUIOP{}" code with
  | Some c, _ | None, Some c => Some c
  | None, None =>
      match row 0x1E "asdfghjkl;" "ASDFGHJKL:" code, row 0x29 "`" "~" code with
      | Some c, _ | None, Some c => Some c
      | None, None => row 0x2B "\zxcvbnm,./" "|ZXCVBNM<>?" code
      end
  end.

Definition key_cap (extended : bool) (code : Z) : cap :=
  if extended then
    if code =? 0x1C then Enter
    else if code =? 0x1D then Control
    else if code =? 0x38 then Alt
    else if code =? 0x35 then Always 47
    else match code with
         | 0x47 => Special KEY_HOME | 0x48 => Special KEY_UP | 0x49 => Special KEY_PAGEUP
         | 0x4B => Special KEY_LEFT | 0x4D => Special KEY_RIGHT | 0x4F => Special KEY_END
         | 0x50 => Special KEY_DOWN | 0x51 => Special KEY_PAGEDOWN
         | 0x52 => Special KEY_INSERT | 0x53 => Special KEY_DELETE
         | _ => Blank
         end
  else
    match main_block code with
    | Some c => c
    | None =>
        match row 0x47 "789-456+1230." "789-456+1230." code with
        | Some (Symbols c _) => Always c
        | _ =>
            match code with
            | 0x01 => Always 27 | 0x0E => Always 8 | 0x0F => Always 9 | 0x39 => Always 32 | 0x37 => Always 42
            | 0x1C => Enter
            | 0x2A | 0x36 => Shift
            | 0x1D => Control
            | 0x38 => Alt
            | 0x3A => CapsLock
            | 0x45 | 0x46 => OtherLock
            | _ => Blank
            end
        end
    end.

(** The modifiers as a typist sees them; [other] are the locks that do not
    change what is typed. *)
Record held := mkHeld { shift : bool; control : bool; caps : bool }.

(** What a key types.  Control with a character of the ASCII column of the
    capital letters types the control code of that column. *)
Definition control_code (c : Z) : Z := if (0x40 <=? c) && (c <? 0x60) then c - 0x40 else 0.

Definition types (h : held) (k : cap) : Z :=
  match k with
  | Letter c =>
      if control h then control_code (c - 0x20)
      else if xorb (shift h) (caps h) then c - 0x20 else c
  | Symbols p s =>
      let c := if shift h then s else p in
      if control h then control_code c else c
  | Enter => if control h then 13 else 10
  | Always c => if control h then 0 else c
  | Special c => c
  | _ => 0
  end.

Definition press (h : held) (k : cap) : held :=
  match k with
  | Shift => mkHeld true (control h) (caps h)
  | Control => mkHeld (shift h) true (caps h)
  | CapsLock => mkHeld (shift h) (control h) (negb (caps h))
  | _ => h
  end.

Definition release (h : held) (k : cap) : held :=
  match k with
  | Shift => mkHeld false (control h) (caps h)
  | Control => mkHeld (shift h) false (caps h)
  | _ => h
  end.

(** A key is pressed or released; extended keys send a prefix. *)
Record event := mkEvent { down : bool; extended : bool; code : Z }.

Definition scan_codes (e : event) : list Z :=
  (if extended e then [0xE0] else []) ++ [if down e then code e else code e + 0x80].

Fixpoint typed_text (h : held) (es : list event) : list Z :=
  match es with
  | [] => []
  | e :: es =>
      let k := key_cap (extended e) (code e) in
      if down e then
        (if 0 <? types h k then [types h k] else []) ++ typed_text (press h k) es
      else typed_text (release h k) es
  end.

(** A scan code has seven bits; the release of 0x60 would be the prefix. *)
Definition event_ok (e : event) : Prop := 0 <= code e < 0x80 /\ code e <> 0x60.

(** The kernel polls: each call of keyboard_readc() finds a byte or none, and
    the characters it answers are kept. *)
Fixpoint polls (ps : list (option Z)) : M keyboard (list Z) :=
  match ps with
  | [] => ret []
  | p :: ps =>
      c <- (match p with
            | Some b => keyboard_readc KEYBOARD_STATUS_READY b
            | None => keyboard_readc 0 0
            end);;
      cs <- polls ps;;
      ret (if 0 <? c then c :: cs else cs)
  end.

Definition present (ps : list (option Z)) : list Z := omap id ps.

Definition held_of (m : Z) : held := mkHeld (Z.testbit m 0) (Z.testbit m 1) (Z.testbit m 3).

#[export] Instance held_eq_dec : EqDecision held.
Proof. solve_decision. Defined.

(** One byte after the prefix, on all states: decided by computation. *)
Definition agrees (m : Z) (e : event) : bool :=
  let k := key_cap (extended e) (code e) in
  let h := held_of m in
  match keyboard_readc KEYBOARD_STATUS_READY (if down e then code e else code e + 0x80)
          (mkKeyboard m (if extended e then 0x80 else 0)) with
  | Ok (c, kb) =>
      (c =? if down e then types h k else 0) && (last_escape kb =? 0) && (0 <=? modifiers kb) && (modifiers kb <? 64)
      && bool_decide (held_of (modifiers kb) = if down e then press h k else release h k)
  | Err _ => false
  end.

Lemma agrees_all :
  forallb (fun m => forallb (fun c => (c =? 0x60) ||
      (agrees m (mkEvent true true c) && agrees m (mkEvent true false c) &&
       agrees m (mkEvent false true c) && agrees m (mkEvent false false c))) (seqZ 0 128)) (seqZ 0 64) = true.
Proof. vm_compute. reflexivity. Qed.

Lemma forallb_seqZ (f : Z -> bool) n x : forallb f (seqZ 0 n) = true -> 0 <= x < n -> f x = true.
Proof.
  intros H Hx. rewrite forallb_forall in H. apply H. apply list_elem_of_In, elem_of_seqZ. lia.
Qed.

Lemma agrees_ok m e : 0 <= m < 64 -> event_ok e -> agrees m e = true.
Proof.
  intros Hm [Hc Hn].
  pose proof (forallb_seqZ _ _ _ (forallb_seqZ _ _ _ agrees_all Hm) Hc) as H. cbv beta in H.
  apply Z.eqb_neq in Hn. rewrite Hn, orb_false_l in H. destruct e as [d x c]. cbn [code] in *.
  apply andb_true_iff in H as [H H4]. apply andb_true_iff in H as [H H3]. apply andb_true_iff in H as [H1 H2].
  destruct d, x; assumption.
Qed.

(** The byte of an event, read when its prefix has been. *)
Lemma event_byte m e :
  0 <= m < 64 -> event_ok e ->
  exists c m', keyboard_readc KEYBOARD_STATUS_READY (if down e then code e else code e + 0x80)
                 (mkKeyboard m (if extended e then 0x80 else 0)) = Ok (c, mkKeyboard m' 0) /\
    0 <= m' < 64 /\
    c = (if down e then types (held_of m) (key_cap (extended e) (code e)) else 0) /\
    held_of m' = (if down e then press (held_of m) (key_cap (extended e) (code e))
                  else release (held_of m) (key_cap (extended e) (code e))).
Proof.
  intros Hm He. pose proof (agrees_ok m e Hm He) as H. unfold agrees in H.
  destruct (keyboard_readc _ _ _) as [[c [m' x]]|]; [|done]. cbn [last_escape modifiers] in H.
  rewrite !andb_true_iff, bool_decide_eq_true in H. destruct H as [[[[H1 H2] H3] H4] H5].
  apply Z.eqb_eq in H1, H2. subst x. exists c, m'. repeat split; [lia|lia|done|done].
Qed.

Lemma prefix_byte m : keyboard_readc KEYBOARD_STATUS_READY 0xE0 (mkKeyboard m 0) = Ok (0, mkKeyboard m 0x80).
Proof. reflexivity. Qed.

(** Polls that find nothing change nothing. *)
Lemma polls_present ps kb : polls ps kb = polls (Some <$> present ps) kb.
Proof.
  revert kb. induction ps as [|[b|] ps IH]; intros kb; [done| |].
  - cbn [polls present omap list_omap id fmap list_fmap]. unfold bind.
    destruct (keyboard_readc _ b kb) as [[c kb']|]; [|done]. by rewrite IH.
  - cbn [polls present omap list_omap id]. unfold bind at 1. change (keyboard_readc 0 0 kb) with (Ok (-1, kb) : res (Z * keyboard)).
    cbn beta iota. change (0 <? -1) with false. cbn beta iota. unfold bind, ret. rewrite IH.
    by destruct (polls (Some <$> _) kb) as [[]|].
Qed.

(** A poll that finds a byte. *)
Lemma polls_byte b ps kb c kb' cs kb'' :
  keyboard_readc KEYBOARD_STATUS_READY b kb = Ok (c, kb') -> polls ps kb' = Ok (cs, kb'') ->
  polls (Some b :: ps) kb = Ok (if 0 <? c then c :: cs else cs, kb'').
Proof. intros E1 E2. cbn [polls]. unfold bind. rewrite E1, E2. reflexivity. Qed.

Lemma polls_events es m :
  0 <= m < 64 -> Forall event_ok es ->
  exists m', polls (Some <$> List.concat (map scan_codes es)) (mkKeyboard m 0) = Ok (typed_text (held_of m) es, mkKeyboard m' 0).
Proof.
  intros Hm Hes. revert m Hm. induction Hes as [|e es He _ IH]; intros m Hm; [by exists m|].
  destruct (event_byte m e Hm He) as (c & m1 & E & Hm1 & -> & Eh).
  destruct (IH m1 Hm1) as (m' & E'). exists m'.
  pose proof (polls_byte _ _ _ _ _ _ _ E E') as Hb.
  assert ((if 0 <? (if down e then types (held_of m) (key_cap (extended e) (code e)) else 0)
           then (if down e then types (held_of m) (key_cap (extended e) (code e)) else 0) :: typed_text (held_of m1) es
           else typed_text (held_of m1) es) = typed_text (held_of m) (e :: es)) as Hq.
  { rewrite Eh. cbn [typed_text]. destruct (down e); [|done]. by destruct (0 <? _). }
  rewrite Hq in Hb. cbn [map List.concat]. clear IH E'. revert Hb.
  generalize (List.concat (map scan_codes es)). intros bs Hb.
  unfold scan_codes. destruct (extended e).
  - exact (polls_byte _ _ _ _ _ _ _ (prefix_byte m) Hb).
  - exact Hb.
Qed.

End Typing.

(** C16: the keyboard types the US layout.  For every sequence of presses and
    releases of keys, polled at any times, keyboard_readc() answers the
    characters that the layout assigns to the pressed keys under the shift,
    control and caps lock keys then in effect: capitals and shifted symbols,
    control codes, cursor keys; it answers nothing for other keys and for
    releases, and never leaves its tables. *)
Theorem keyboard_types (es : list Typing.event) (ps : list (option Z)) :
  Forall Typing.event_ok es -> Typing.present ps = List.concat (map Typing.scan_codes es) ->
  exists kb, Typing.polls ps (Keyboard.mkKeyboard 0 0) =
             Ok (Typing.typed_text (Typing.mkHeld false false false) es, kb).
Proof.
  intros Hes Hps. rewrite Typing.polls_present, Hps.
  destruct (Typing.polls_events es 0) as (m & E); [lia|done|]. by exists (Keyboard.mkKeyboard m 0).
Qed.

(** Shift down, h, shift up, i, shift down, 1, then control down, c, and the cursor up. *)
Lemma keyboard_types_witness :
  exists kb, Typing.polls [None; Some 0x2A; Some 0x23; None; Some 0xAA; Some 0x17; Some 0x2A; Some 0x02;
                           Some 0x1D; Some 0x2E; Some 0xE0; None; Some 0x48] (Keyboard.mkKeyboard 0 0) =
             Ok ([72; 105; 33; 3; 0xC0], kb).
Proof.
  apply (keyboard_types
    [Typing.mkEvent true false 0x2A; Typing.mkEvent true false 0x23; Typing.mkEvent false false 0x2A;
     Typing.mkEvent true false 0x17; Typing.mkEvent true false 0x2A; Typing.mkEvent true false 0x02;
     Typing.mkEvent true false 0x1D; Typing.mkEvent true false 0x2E; Typing.mkEvent true true 0x48]).
  - repeat (apply Forall_cons; split; [unfold Typing.event_ok; cbn; lia|]). by apply Forall_nil.
  - reflexivity.
Defined.

(** ** Segments and gates

    How the processor reads a descriptor: fields of bits (Intel SDM 3A, 3.4.5 and 6.14.1). *)

Definition field (x lo n : Z) : Z := (x / 2 ^ lo) mod 2 ^ n.

Module Cpu.
Import Descriptors.

Definition gate_offset (d : x86_64_gatedescriptor) : Z :=
  field (gd_low d) 0 16 + 2 ^ 16 * field (gd_low d) 48 16 + 2 ^ 32 * field (gd_high d) 0 32.
Definition gate_selector (d : x86_64_gatedescriptor) : Z := field (gd_low d) 16 16.
Definition gate_ist (d : x86_64_gatedescriptor) : Z := field (gd_low d) 32 3.
Definition gate_type (d : x86_64_gatedescriptor) : Z := field (gd_low d) 40 4.
Definition gate_dpl (d : x86_64_gatedescriptor) : Z := field (gd_low d) 45 2.
Definition gate_present (d : x86_64_gatedescriptor) : Z := field (gd_low d) 47 1.

Definition seg_base (lo hi : Z) : Z := field lo 16 24 + 2 ^ 24 * field lo 56 8 + 2 ^ 32 * field hi 0 32.
Definition seg_limit (lo : Z) : Z := field lo 0 16 + 2 ^ 16 * field lo 48 4.
Definition seg_type (lo : Z) : Z := field lo 40 4.
Definition seg_user (lo : Z) : Z := field lo 44 1.  (* code or data, not system *)
Definition seg_dpl (lo : Z) : Z := field lo 45 2.
Definition seg_present (lo : Z) : Z := field lo 47 1.
Definition seg_long (lo : Z) : Z := field lo 53 1.

End Cpu.

(** Turns a disjunction of ascending fields into a sum, from the inside. *)
Ltac lor_sums :=
  repeat match goal with
         | |- context [Z.lor ?a (?b * 2 ^ ?n)] =>
             lazymatch a with context [Z.lor _ _] => fail | _ => rewrite (lor_shift a b n) by lia end
         end.

Lemma land_field x k n : 0 <= k -> 0 <= n -> Z.land x (Z.shiftl (Z.ones n) k) = field x k n * 2 ^ k.
Proof.
  intros Hk Hn. unfold field. rewrite <- Z.shiftl_mul_pow2 by lia. apply Z.bits_inj'. intros i Hi.
  rewrite Z.land_spec, !Z.shiftl_spec by lia. destruct (Z.lt_ge_cases i k).
  - rewrite !(Z.testbit_neg_r _ (i - k)) by lia. apply andb_false_r.
  - rewrite Z.testbit_ones by lia. destruct (Z.lt_ge_cases (i - k) n).
    + rewrite Z.mod_pow2_bits_low, Z.div_pow2_bits by lia.
      replace (i - k + k) with i by lia. replace (0 <=? i - k) with true by lia. replace (i - k <? n) with true by lia.
      by rewrite andb_true_r.
    + rewrite Z.mod_pow2_bits_high by lia. replace (i - k <? n) with false by lia. by rewrite !andb_false_r.
Qed.

Lemma field_range x k n : 0 <= n -> 0 <= field x k n < 2 ^ n.
Proof. intros. unfold field. apply Z.mod_pos_bound. lia. Qed.

(** An address is made of its fields. *)
Lemma split_address a : 0 <= a < 2 ^ 64 -> a = field a 0 16 + 2 ^ 16 * field a 16 16 + 2 ^ 32 * field a 32 32.
Proof. intros. unfold field. rewrite Z.div_1_r. Z.to_euclidean_division_equations. lia. Qed.

Import Descriptors.

(** The low word of a gate as a sum of its fields. *)
Lemma set_gate_sum addr type dpl ist :
  0 <= addr < 2 ^ 64 -> 0 <= type < 16 -> 0 <= dpl < 4 -> 0 <= ist < 8 ->
  set_gate addr type dpl ist =
  Ok (mkGate (field addr 0 16 + 8 * 2 ^ 16 + ist * 2 ^ 32 + type * 2 ^ 40 + dpl * 2 ^ 45 + 1 * 2 ^ 47
              + field addr 16 16 * 2 ^ 48) (field addr 32 32)).
Proof.
  intros Ha Ht Hd Hi. unfold set_gate. rewrite !(wrapU_small 32) by lia.
  replace (type <? 16) with true by lia. replace (dpl <? 4) with true by lia. replace (ist <? 8) with true by lia.
  cbn [andb]. do 2 f_equal; [|unfold field; rewrite Z.shiftr_div_pow2 by lia; Z.to_euclidean_division_equations; lia].
  pose proof (field_range addr 0 16 ltac:(lia)). pose proof (field_range addr 16 16 ltac:(lia)).
  change 0xFFFF with (Z.shiftl (Z.ones 16) 0). change 0xFFFF0000 with (Z.shiftl (Z.ones 16) 16).
  rewrite !land_field by lia. unfold SEGSEL_KERN_CODE, X86SEG_P. rewrite !Z.shiftl_mul_pow2 by lia.
  rewrite !(wrapU_small 64) by lia. rewrite Z.pow_0_r, Z.mul_1_r, <- Z.mul_assoc, <- Z.pow_add_r by lia.
  change (16 + 32) with 48. lor_sums. reflexivity.
Qed.

(** The gate that the processor sees. *)
Lemma gate_correct addr type dpl ist :
  0 <= addr < 2 ^ 64 -> 0 <= type < 16 -> 0 <= dpl < 4 -> 0 <= ist < 8 ->
  exists d, set_gate addr type dpl ist = Ok d /\ Cpu.gate_offset d = addr /\
    Cpu.gate_selector d = SEGSEL_KERN_CODE /\ Cpu.gate_ist d = ist /\ Cpu.gate_type d = type /\
    Cpu.gate_dpl d = dpl /\ Cpu.gate_present d = 1.
Proof.
  intros Ha Ht Hd Hi. eexists. split; [by apply set_gate_sum|].
  pose proof (field_range addr 0 16 ltac:(lia)). pose proof (field_range addr 16 16 ltac:(lia)).
  pose proof (field_range addr 32 32 ltac:(lia)). pose proof (split_address addr Ha).
  revert H H0 H1 H2. unfold Cpu.gate_offset, Cpu.gate_selector, Cpu.gate_ist, Cpu.gate_type, Cpu.gate_dpl, Cpu.gate_present.
  cbn [gd_low gd_high]. generalize (field addr 0 16) (field addr 16 16) (field addr 32 32). intros f0 f1 f2 H0 H1 H2 ->.
  unfold field, SEGSEL_KERN_CODE. rewrite !Z.div_1_r. repeat split; Z.to_euclidean_division_equations; lia.
Qed.

(** The words of a system segment; the upper bits of the limit are shifted out. *)
Lemma set_sys_segment_sum addr size t dpl :
  0 <= addr < 2 ^ 64 -> 0 <= t < 16 -> 0 <= dpl < 4 ->
  set_sys_segment addr size (t * 2 ^ 40) dpl =
  (field (size - 1) 0 16 + field addr 0 24 * 2 ^ 16 + t * 2 ^ 40 + dpl * 2 ^ 45 + 1 * 2 ^ 47 + field addr 24 8 * 2 ^ 56,
   field addr 32 32).
Proof.
  intros Ha Ht Hd. unfold set_sys_segment.
  f_equal; [|unfold field; rewrite Z.shiftr_div_pow2 by lia; Z.to_euclidean_division_equations; lia].
  pose proof (field_range addr 0 24 ltac:(lia)). pose proof (field_range addr 24 8 ltac:(lia)).
  pose proof (field_range (size - 1) 0 16 ltac:(lia)).
  change 0xFFFFFF with (Z.shiftl (Z.ones 24) 0). change 0xFF000000 with (Z.shiftl (Z.ones 8) 24).
  change 0xFFFF with (Z.shiftl (Z.ones 16) 0). change 0xF0000 with (Z.shiftl (Z.ones 4) 16).
  rewrite !land_field by lia. unfold X86SEG_P. rewrite !Z.shiftl_mul_pow2 by lia.
  assert (u64 (field (u64 (size - 1)) 16 4 * 2 ^ 16 * 2 ^ 48) = 0) as ->.
  { unfold wrapU. rewrite <- Z.mul_assoc. apply Z.mod_mul. lia. }
  assert (field (u64 (size - 1)) 0 16 = field (size - 1) 0 16) as ->.
  { unfold field, wrapU. rewrite !Z.div_1_r. Z.to_euclidean_division_equations. lia. }
  rewrite !(wrapU_small 64) by lia. rewrite Z.lor_0_r, Z.pow_0_r, !Z.mul_1_r.
  rewrite <- (Z.mul_assoc _ (2 ^ 24)), <- Z.pow_add_r by lia. change (24 + 32) with 56.
  transitivity (Z.lor (Z.lor (Z.lor (Z.lor (Z.lor (field (size - 1) 0 16) (field addr 0 24 * 2 ^ 16)) (t * 2 ^ 40))
    (dpl * 2 ^ 45)) (1 * 2 ^ 47)) (field addr 24 8 * 2 ^ 56)).
  - apply Z.bits_inj'. intros i _. rewrite !Z.lor_spec. by repeat destruct (Z.testbit _ i).
  - lor_sums. reflexivity.
Qed.

Lemma sys_segment_correct addr size t dpl :
  0 <= addr < 2 ^ 64 -> 0 <= t < 16 -> 0 <= dpl < 4 ->
  let '(lo, hi) := set_sys_segment addr size (t * 2 ^ 40) dpl in
  Cpu.seg_base lo hi = addr /\ Cpu.seg_limit lo = (size - 1) mod 2 ^ 16 /\
  Cpu.seg_type lo = t /\ Cpu.seg_user lo = 0 /\ Cpu.seg_dpl lo = dpl /\ Cpu.seg_present lo = 1.
Proof.
  intros Ha Ht Hd. rewrite set_sys_segment_sum by done.
  pose proof (field_range addr 0 24 ltac:(lia)). pose proof (field_range addr 24 8 ltac:(lia)).
  pose proof (field_range addr 32 32 ltac:(lia)). pose proof (field_range (size - 1) 0 16 ltac:(lia)).
  assert (addr = field addr 0 24 + 2 ^ 24 * field addr 24 8 + 2 ^ 32 * field addr 32 32) as E.
  { unfold field. rewrite Z.div_1_r. Z.to_euclidean_division_equations. lia. }
  assert ((size - 1) mod 2 ^ 16 = field (size - 1) 0 16) as -> by (unfold field; by rewrite Z.div_1_r).
  unfold Cpu.seg_base, Cpu.seg_limit, Cpu.seg_type, Cpu.seg_user, Cpu.seg_dpl, Cpu.seg_present.
  revert H H0 H1 H2 E.
  generalize (field addr 0 24) (field addr 24 8) (field addr 32 32) (field (size - 1) 0 16).
  intros f0 f1 f2 f3 H0 H1 H2 H3 ->. unfold field. rewrite !Z.div_1_r.
  repeat split; Z.to_euclidean_division_equations; lia.
Qed.

(** The table of gates, from number [i] on. *)
Lemma init_gates_correct ds i :
  0 <= i -> Forall (fun d => 0 <= gd_low d < 2 ^ 64) ds ->
  exists ds', init_gates i ds = Ok ds' /\ length ds' = length ds /\
    forall k d, ds !! k = Some d -> exists d', ds' !! k = Some d' /\
      Cpu.gate_offset d' = gd_low d /\ Cpu.gate_selector d' = SEGSEL_KERN_CODE /\ Cpu.gate_ist d' = 0 /\
      Cpu.gate_type d' = X86GATE_INTERRUPT /\ Cpu.gate_present d' = 1 /\
      Cpu.gate_dpl d' = (if i + Z.of_nat k =? INT_BP then 3 else 0).
Proof.
  intros Hi Hds. revert i Hi. induction Hds as [|d ds Hd _ IH]; intros i Hi.
  { exists []. split; [done|]. split; [done|]. intros k d H. by rewrite lookup_nil in H. }
  destruct (gate_correct (gd_low d) X86GATE_INTERRUPT (if i =? INT_BP then 3 else 0) 0) as (d' & E & H1 & H2 & H3 & H4 & H5 & H6);
    [done|unfold X86GATE_INTERRUPT; lia|destruct (i =? INT_BP); lia|lia|].
  destruct (IH (i + 1) ltac:(lia)) as (ds' & E' & El & H).
  exists (d' :: ds'). cbn [init_gates]. rewrite E. cbn [rbind]. rewrite E'. split; [done|]. split; [cbn; lia|].
  intros [|k] d0; cbn [lookup list_lookup].
  - intros [= <-]. exists d'. rewrite Z.add_0_r. done.
  - intros Hk. destruct (H k d0 Hk) as (d1 & Hd1 & HH). exists d1. split; [done|].
    by replace (i + Z.of_nat (S k)) with (i + 1 + Z.of_nat k) by lia.
Qed.

(** What an application segment is. *)
Definition app_segment (lo type dpl long : Z) : Prop :=
  Cpu.seg_type lo = type /\ Cpu.seg_user lo = 1 /\ Cpu.seg_dpl lo = dpl /\ Cpu.seg_present lo = 1 /\ Cpu.seg_long lo = long.

(** C30: the descriptors mean to the processor what the kernel wants.  After
    init_cpu_hardware() and init_interrupts() the code selectors name present
    64-bit code segments and the data selectors writable data segments, of
    privilege 0 for the kernel and 3 for processes; the task selector names the
    task state with its address and size; interrupt i enters the kernel at the
    handler the table named for it, with interrupts off, and user code may
    raise no interrupt but the breakpoint.  The limit of a system segment loses
    its bits from 16 on. *)
Theorem descriptors_correct taskstate gdt table size t :
  0 <= taskstate < 2 ^ 64 -> length gdt = 7%nat -> Forall (fun d => 0 <= gd_low d < 2 ^ 64) table -> 0 <= t < 16 ->
  (exists g, init_cpu_segments taskstate gdt = Ok g /\ length g = 7%nat /\
    (forall kc kd ac ad lo hi,
       g !! Z.to_nat (SEGSEL_KERN_CODE / 8) = Some kc -> g !! Z.to_nat (SEGSEL_KERN_DATA / 8) = Some kd ->
       g !! Z.to_nat (SEGSEL_APP_CODE / 8) = Some ac -> g !! Z.to_nat (SEGSEL_APP_DATA / 8) = Some ad ->
       g !! Z.to_nat (SEGSEL_TASKSTATE / 8) = Some lo -> g !! S (Z.to_nat (SEGSEL_TASKSTATE / 8)) = Some hi ->
       app_segment kc 8 0 1 /\ app_segment kd 2 0 0 /\ app_segment ac 8 3 1 /\ app_segment ad 2 3 0 /\
       Cpu.seg_base lo hi = taskstate /\ Cpu.seg_limit lo = SIZEOF_TASKSTATE - 1 /\ Cpu.seg_type lo = 9 /\
       Cpu.seg_user lo = 0 /\ Cpu.seg_dpl lo = 0 /\ Cpu.seg_present lo = 1)) /\
  (exists ds, init_interrupts table = Ok ds /\ length ds = length table /\
    forall k d, table !! k = Some d -> exists d', ds !! k = Some d' /\
      Cpu.gate_offset d' = gd_low d /\ Cpu.gate_selector d' = SEGSEL_KERN_CODE /\ Cpu.gate_ist d' = 0 /\
      Cpu.gate_type d' = X86GATE_INTERRUPT /\ Cpu.gate_present d' = 1 /\
      Cpu.gate_dpl d' = (if Z.of_nat k =? INT_BP then 3 else 0)) /\
  Cpu.seg_limit (fst (set_sys_segment taskstate size (t * 2 ^ 40) 0)) = (size - 1) mod 2 ^ 16.
Proof.
  intros Ht Hg Htab Htt. split; [|split].
  - pose proof (sys_segment_correct taskstate SIZEOF_TASKSTATE 9 0 Ht ltac:(lia) ltac:(lia)) as Hs.
    change (9 * 2 ^ 40) with X86SEG_TSS in Hs.
    destruct gdt as [|g0 [|g1 [|g2 [|g3 [|g4 [|g5 [|g6 [|]]]]]]]]; try done.
    unfold init_cpu_segments. cbv zeta. destruct (set_sys_segment _ _ _ _) as [lo hi]. cbn [fst snd].
    eexists. split; [reflexivity|]. split; [reflexivity|].
    cbn. intros kc kd ac ad lo' hi' [= <-] [= <-] [= <-] [= <-] [= <-] [= <-].
    split; [done|]. split; [done|]. split; [done|]. split; [done|]. exact Hs.
  - by apply init_gates_correct.
  - pose proof (sys_segment_correct taskstate size t 0 Ht Htt ltac:(lia)) as Hs.
    destruct (set_sys_segment _ _ _ _) as [lo hi]. apply Hs.
Qed.

Lemma descriptors_correct_witness :
  (exists g, init_cpu_segments 0x50000 (replicate 7 0) = Ok g /\ length g = 7%nat) /\
  (exists ds d, init_interrupts (replicate 256 (mkGate 0x41234 0)) = Ok ds /\ ds !! 3%nat = Some d /\
                Cpu.gate_offset d = 0x41234 /\ Cpu.gate_dpl d = 3) /\
  Cpu.seg_limit (fst (set_sys_segment 0x50000 0x20000 (9 * 2 ^ 40) 0)) = 0xFFFF.
Proof.
  destruct (descriptors_correct 0x50000 (replicate 7 0) (replicate 256 (mkGate 0x41234 0)) 0x20000 9)
    as ((g & E & El & _) & (ds & Ed & _ & H) & Hl); [lia|done| |lia|].
  - apply Forall_replicate. cbn. lia.
  - split; [exact (ex_intro _ g (conj E El))|]. split; [|exact Hl].
    destruct (H 3%nat (mkGate 0x41234 0)) as (d & Hd & Ho & _ & _ & _ & _ & Hp); [by apply lookup_replicate_2; lia|].
    exact (ex_intro _ ds (ex_intro _ d (conj Ed (conj Hd (conj Ho Hp))))).
Defined.

(** ** Symbols *)

Import Symbols.

(** The symbol that an address belongs to: the last one that starts at or
    before it, unless it ends before it. *)
Definition owner (symtab : list elf_symbol) (addr : Z) (s : elf_symbol) : Prop :=
  s ∈ symtab /\ st_value s <= addr /\ (forall t, t ∈ symtab -> st_value t <= addr -> st_value t <= st_value s) /\
  (st_size s = 0 \/ addr <= u64 (st_value s + st_size s)) /\ st_value s <> 0.

(** A table sorted by address, no two symbols at one address. *)
Definition ascending (symtab : list elf_symbol) : Prop :=
  forall i j s t, symtab !! i = Some s -> symtab !! j = Some t -> (i < j)%nat -> st_value s < st_value t.

Section lookup.
Context (symtab : list elf_symbol) (addr : Z) (Hasc : ascending symtab).

(** The condition under which the loop stops at index [k]. *)
Definition hit (k : nat) (s : elf_symbol) : Prop :=
  symtab !! k = Some s /\ st_value s <= addr /\
  (forall t, symtab !! S k = Some t -> addr < st_value t) /\
  (st_size s = 0 \/ addr <= u64 (st_value s + st_size s)).

Lemma hit_last k s t : hit k s -> t ∈ symtab -> st_value t <= addr -> st_value t <= st_value s.
Proof.
  intros (Hk & Hs & Hn & _) (j & Hj)%list_elem_of_lookup Ht.
  destruct (Nat.lt_trichotomy j k) as [Hjk|[-> |Hjk]].
  - pose proof (Hasc _ _ _ _ Hj Hk Hjk). lia.
  - simplify_eq. lia.
  - destruct (symtab !! S k) as [u|] eqn:Eu.
    + pose proof (Hn u eq_refl). destruct (decide (j = S k)) as [-> |Hne]; [simplify_eq; lia|].
      pose proof (Hasc (S k) j _ _ Eu Hj ltac:(lia)). lia.
    + apply lookup_ge_None in Eu. apply lookup_lt_Some in Hj. lia.
Qed.

Lemma owner_hit s : owner symtab addr s <-> exists k, hit k s /\ st_value s <> 0.
Proof.
  split.
  - intros (Hin & Hv & Hmax & Hsz & H0). apply list_elem_of_lookup in Hin as (k & Hk).
    exists k. split; [|done]. split; [done|]. split; [done|]. split; [|done].
    intros t Ht. pose proof (Hasc _ _ _ _ Hk Ht ltac:(lia)).
    destruct (Z.lt_ge_cases addr (st_value t)) as [|Hge]; [done|].
    pose proof (Hmax t ltac:(by eapply list_elem_of_lookup_2) ltac:(lia)). lia.
  - intros (k & Hh & H0). pose proof Hh as (Hk & Hv & _ & Hsz).
    split; [by eapply list_elem_of_lookup_2|]. split; [done|]. split; [|done].
    intros t Ht Hta. by eapply hit_last.
Qed.

Lemma hit_unique k k' s s' : hit k s -> hit k' s' -> k = k'.
Proof.
  intros H H'. pose proof H as (Hk & Hv & _). pose proof H' as (Hk' & Hv' & _).
  pose proof (hit_last _ _ s' H ltac:(by eapply list_elem_of_lookup_2) Hv').
  pose proof (hit_last _ _ s H' ltac:(by eapply list_elem_of_lookup_2) Hv).
  destruct (Nat.lt_trichotomy k k') as [Hlt|[-> |Hlt]]; [|done|].
  - pose proof (Hasc _ _ _ _ Hk Hk' Hlt). lia.
  - pose proof (Hasc _ _ _ _ Hk' Hk Hlt). lia.
Qed.

Lemma array_get_nat {A} (l : list A) (i : Z) x : 0 <= i -> l !! Z.to_nat i = Some x -> array_get l i = Ok x.
Proof. intros Hi E. unfold array_get. replace (i <? 0) with false by lia. by rewrite E. Qed.

(** The test of the loop at index [m]. *)
Lemma lookup_step_test l r :
  0 <= l -> l < r <= Z.of_nat (length symtab) ->
  let m := l + Z.shiftr (r - l) 1 in
  exists sym (b : bool), symtab !! Z.to_nat m = Some sym /\ l <= m < r /\ (b = true <-> hit (Z.to_nat m) sym) /\
    lookup_step symtab addr (l, r) =
    (if b then if st_value sym =? 0 then Ok (inr None) else Ok (inr (Some sym))
     else if st_value sym <? addr then Ok (inl (m + 1, r)) else Ok (inl (l, m))).
Proof.
  intros Hl Hr m.
  assert (l <= m < r) as Hm by (unfold m; rewrite Z.shiftr_div_pow2 by lia; change (2 ^ 1) with 2;
    pose proof (Z.div_pos (r - l) 2); pose proof (Z.div_lt (r - l) 2); lia).
  destruct (lookup_lt_is_Some_2 symtab (Z.to_nat m) ltac:(lia)) as [sym Es].
  unfold lookup_step. fold m. replace (l <? r) with true by lia. rewrite (array_get_nat symtab m sym ltac:(lia) Es). cbn [rbind].
  exists sym. destruct (Z.leb_spec (st_value sym) addr) as [Hle|Hgt].
  2: { exists false. do 2 (split; [done|]). split; [|done]. split; [done|]. intros (? & ? & _). simplify_eq. lia. }
  assert (exists nb : bool, (if m + 1 =? Z.of_nat (length symtab) then Ok true
             else next <-! array_get symtab (m + 1);; Ok (addr <? st_value next)) = Ok nb /\
             (nb = true <-> forall t, symtab !! S (Z.to_nat m) = Some t -> addr < st_value t)) as (nb & En & Hnb).
  { destruct (Z.eqb_spec (m + 1) (Z.of_nat (length symtab))) as [Hlast|Hlast].
    - exists true. split; [done|]. split; [|done]. intros _ t Ht%lookup_lt_Some. lia.
    - destruct (lookup_lt_is_Some_2 symtab (Z.to_nat (m + 1)) ltac:(lia)) as [u Eu].
      rewrite (array_get_nat symtab (m + 1) u ltac:(lia) Eu). exists (addr <? st_value u). split; [done|].
      replace (S (Z.to_nat m)) with (Z.to_nat (m + 1)) by lia. rewrite Eu, Z.ltb_lt. split; [by intros ? ? [= <-]|by intros H; apply H]. }
  rewrite En. cbn [rbind]. exists (nb && ((st_size sym =? 0) || (addr <=? u64 (st_value sym + st_size sym)))).
  do 2 (split; [done|]). split; [|done].
  rewrite andb_true_iff, orb_true_iff, Z.eqb_eq, Z.leb_le, Hnb. unfold hit. rewrite Es.
  split; [intros [? ?]; done|intros (_ & _ & ? & ?); done].
Qed.

(** A miss at [m] tells on which side a hit can be. *)
Lemma hit_after m sym k s :
  symtab !! m = Some sym -> ~ hit m sym -> st_value sym < addr -> hit k s -> (m < k)%nat.
Proof.
  intros Es Hno Hlt Hk. pose proof Hk as (Ek & _ & Hn & _).
  destruct (Nat.lt_trichotomy k m) as [Hkm|[-> |Hkm]]; [exfalso|by simplify_eq|done].
  destruct (lookup_lt_is_Some_2 symtab (S k)) as [u Eu]; [apply lookup_lt_Some in Es; lia|].
  pose proof (Hn u Eu). destruct (decide (S k = m)) as [<- |Hne]; [simplify_eq; lia|].
  pose proof (Hasc _ _ _ _ Eu Es ltac:(lia)). lia.
Qed.

Lemma hit_before m sym k s :
  symtab !! m = Some sym -> ~ hit m sym -> addr <= st_value sym -> hit k s -> (k < m)%nat.
Proof.
  intros Es Hno Hge Hk. pose proof Hk as (Ek & Hv & _ & _).
  destruct (Nat.lt_trichotomy k m) as [Hkm|[-> |Hkm]]; [done|by simplify_eq|].
  pose proof (Hasc _ _ _ _ Es Ek Hkm). lia.
Qed.

Lemma lookup_loop :
  Z.of_nat (length symtab) < 2 ^ 63 ->
  exists r, loop (lookup_step symtab addr) (0, Z.of_nat (length symtab)) = Ok r /\
            forall s, r = Some s <-> owner symtab addr s.
Proof.
  intros Hlen.
  apply (loop_rule _ (fun '(l, r) => 0 <= l <= r /\ r <= Z.of_nat (length symtab) /\
                                     forall k s, hit k s -> l <= Z.of_nat k < r)
           _ (fun '(l, r) => Z.to_nat (r - l))).
  - intros [l r] (Hl & Hr & Hin). destruct (Z.lt_ge_cases l r) as [Hlr|Hge].
    + destruct (lookup_step_test l r ltac:(lia) ltac:(lia)) as (sym & b & Es & Hm & Hb & ->). destruct b.
      * right. pose proof (proj1 Hb eq_refl) as Hhit. destruct (Z.eqb_spec (st_value sym) 0) as [H0|H0].
        -- exists None. split; [done|]. intros s. split; [done|]. intros (k & Hk & Hs)%owner_hit.
           rewrite (hit_unique _ _ _ _ Hk Hhit) in Hk. destruct Hk as [Hk _]. simplify_eq.
        -- exists (Some sym). split; [done|]. intros s. rewrite owner_hit. split.
           ++ intros [= <-]. eauto.
           ++ intros (k & Hk & _). rewrite (hit_unique _ _ _ _ Hk Hhit) in Hk. destruct Hk as [Hk _]. by simplify_eq.
      * left. assert (~ hit (Z.to_nat (l + Z.shiftr (r - l) 1)) sym) as Hno by (rewrite <- Hb; done).
        revert Es Hm Hno. generalize (l + Z.shiftr (r - l) 1). intros m Es Hm Hno.
        destruct (Z.ltb_spec (st_value sym) addr) as [Hlt|Hgeq]; eexists; (split; [reflexivity|]); (split; [|cbn; lia]);
          (split; [lia|]); (split; [lia|]); intros k s Hk; pose proof (Hin k s Hk).
        -- pose proof (hit_after _ _ k s Es Hno Hlt Hk). lia.
        -- pose proof (hit_before _ _ k s Es Hno Hgeq Hk). lia.
    + right. exists None. unfold lookup_step. replace (l <? r) with false by lia. split; [done|].
      intros s. split; [done|]. intros (k & Hk & _)%owner_hit. pose proof (Hin k s Hk). lia.
  - split; [lia|]. split; [lia|]. intros k s (Hk & _). apply lookup_lt_Some in Hk. lia.
  - lia.
Qed.
End lookup.

(** C33: lookup_symbol() terminates and, on a table with ascending addresses,
    answers exactly the symbol that the address belongs to, and false if there
    is none; it maps the table into the kernel's page table if it is not. *)
Theorem lookup_symbol_correct symtab addr entry :
  ascending symtab -> Z.of_nat (length symtab) < 2 ^ 63 ->
  exists r, lookup_symbol symtab addr entry =
              Ok (r, if entry =? 0 then SYMTAB_ADDR + PTE_P + PTE_W + PTE_PS else entry) /\
            forall s, r = Some s <-> owner symtab addr s.
Proof.
  intros Hasc Hlen. destruct (lookup_loop symtab addr Hasc Hlen) as (r & E & Hr). exists r. split; [|exact Hr].
  unfold lookup_symbol, bind, get, modify, ret, lift. destruct (entry =? 0); by rewrite E.
Qed.

Definition demo_symbols : list elf_symbol :=
  [mkSymbol 1 0x40000 0x20; mkSymbol 5 0x40020 0; mkSymbol 9 0x40100 0x10; mkSymbol 12 0x40200 8].

Lemma lookup_symbol_correct_witness :
  exists r, lookup_symbol demo_symbols 0x40108 0 = Ok (r, 0x1000083) /\
            forall s, r = Some s <-> owner demo_symbols 0x40108 s.
Proof.
  apply (lookup_symbol_correct demo_symbols 0x40108 0); [|cbn; lia].
  intros i j s t Hi Hj Hij.
  do 4 (destruct i as [|i]; [do 4 (destruct j as [|j]; [cbn in Hi, Hj; try lia; simplify_eq; cbn; lia|]); done|]). done.
Defined.

(** With two symbols at one address the search can miss both. *)
Lemma lookup_symbol_duplicates :
  lookup_symbol [mkSymbol 1 0x40000 0x100; mkSymbol 5 0x40100 8; mkSymbol 9 0x40100 8] 0x40100 1 = Ok (None, 1).
Proof. vm_compute. reflexivity. Qed.

(** ** The PCI bus

    Function [k] of the first eight buses has the address [256 * k]; eight
    functions make a slot. *)

Module Bus.
Import Pci.

Section bus.
Context (config : Z -> Z).

Definition header (k : Z) : Z := u32 (config (256 * k + config_lthb)).
Definition present (k : Z) : bool := negb (header k =? 2 ^ 32 - 1).
Definition multi (k : Z) : bool := negb (Z.land (header k) 0x800000 =? 0).

(** A function that exists: the first one of its slot is there, and it is this
    one or the device has several. *)
Definition exists_function (k : Z) : bool :=
  let first := 8 * (k / 8) in
  present first && ((k =? first) || (multi first && present k)).

Definition nfunctions : Z := 2048.

(** Where the walk can be: at a first function, or inside a device of several. *)
Definition on_path (k : Z) : Prop :=
  0 <= k < nfunctions /\ (k mod 8 = 0 \/ (present (8 * (k / 8)) = true /\ multi (8 * (k / 8)) = true)).

Lemma readl_header k : 0 <= k < nfunctions -> readl config (256 * k + config_lthb) = Ok (header k).
Proof.
  intros Hk. unfold readl, header, config_lthb. replace (0 <=? 256 * k + 12) with true by lia.
  change 3 with (Z.ones 2). rewrite Z.land_ones by lia.
  replace ((256 * k + 12) mod 2 ^ 2) with 0; [done|]. Z.to_euclidean_division_equations. lia.
Qed.

Lemma addr_func_mod k : 0 <= k < nfunctions -> addr_func (256 * k) = Ok (k mod 8).
Proof.
  unfold nfunctions. intros Hk. unfold addr_func. replace (0 <=? 256 * k) with true by lia.
  replace (256 * k <? 0x1000000) with true by lia. cbn [andb].
  rewrite Z.shiftr_div_pow2 by lia. change 7 with (Z.ones 3). rewrite Z.land_ones by lia.
  do 2 f_equal. change (2 ^ 8) with 256. rewrite Z.mul_comm. apply Z.div_mul. lia.
Qed.

(** One step of next(): to the next slot or to the next function. *)
Definition jump (k : Z) : Z := if (k mod 8 =? 0) && (negb (present k) || negb (multi k)) then k + 8 else k + 1.

Lemma next_step_jump k :
  0 <= k < nfunctions ->
  next_step config (256 * k, header k) =
  Ok (if nfunctions <=? jump k then inr (-1)
      else if present (jump k) then inr (256 * jump k) else inl (256 * jump k, header (jump k))).
Proof.
  intros Hk. unfold next_step. rewrite addr_func_mod by done. cbn [rbind].
  assert ((if (k mod 8 =? 0) && ((header k =? 2 ^ 32 - 1) || (Z.land (header k) 0x800000 =? 0))
           then make_addr 0 1 0 else make_addr 0 0 1) = Ok (256 * (jump k - k))) as ->.
  { unfold jump, present, multi. rewrite !negb_involutive. destruct (_ && _); [change (make_addr 0 1 0) with (Ok 2048)|change (make_addr 0 0 1) with (Ok 256)]; f_equal; lia. }
  cbn [rbind]. replace (256 * k + 256 * (jump k - k)) with (256 * jump k) by lia.
  assert ((addr_end <=? 256 * jump k) = (nfunctions <=? jump k)) as -> by (unfold addr_end, nfunctions; lia).
  destruct (Z.leb_spec nfunctions (jump k)); [done|].
  assert (k < jump k) by (unfold jump; destruct (_ && _); lia).
  rewrite readl_header by lia. cbn [rbind]. unfold present. by destruct (negb _).
Qed.

(** Nothing is jumped over, and the walk stays on its path. *)
Lemma jump_spec k :
  on_path k -> k < jump k /\ (forall j, k < j < jump k -> exists_function j = false) /\
  (jump k < nfunctions -> on_path (jump k) /\ exists_function (jump k) = present (jump k)).
Proof.
  intros [Hk Hp]. unfold jump. destruct (Z.eqb_spec (k mod 8) 0) as [H0|H0]; cbn [andb].
  - assert (8 * (k / 8) = k) as Ek by (Z.to_euclidean_division_equations; lia).
    destruct (negb (present k) || negb (multi k)) eqn:E.
    + split; [lia|]. split.
      * intros j Hj. unfold exists_function. assert (8 * (j / 8) = k) as -> by (Z.to_euclidean_division_equations; lia).
        replace (j =? k) with false by lia. destruct (present k), (multi k); done.
      * intros Hn. assert (8 * ((k + 8) / 8) = k + 8) as E8 by (Z.to_euclidean_division_equations; lia).
        split; [split; [lia|left; Z.to_euclidean_division_equations; lia]|].
        unfold exists_function. rewrite E8, Z.eqb_refl. by destruct (present (k + 8)).
    + split; [lia|]. split; [intros; lia|]. intros Hn.
      assert (8 * ((k + 1) / 8) = k) as E1 by (Z.to_euclidean_division_equations; lia).
      destruct (present k) eqn:E2, (multi k) eqn:E3; try done.
      split; [split; [lia|right; by rewrite E1, E2, E3]|].
      unfold exists_function. rewrite E1, E2, E3. replace (k + 1 =? k) with false by lia. done.
  - destruct Hp as [Hp|[Hp1 Hp2]]; [done|]. split; [lia|]. split; [intros; lia|]. intros Hn.
    destruct (decide ((k + 1) mod 8 = 0)) as [Hz|Hz].
    + assert (8 * ((k + 1) / 8) = k + 1) as E1 by (Z.to_euclidean_division_equations; lia).
      split; [split; [lia|by left]|]. unfold exists_function. rewrite E1, Z.eqb_refl. by destruct (present (k + 1)).
    + assert (8 * ((k + 1) / 8) = 8 * (k / 8)) as E1 by (Z.to_euclidean_division_equations; lia).
      split; [split; [lia|right; by rewrite E1]|].
      unfold exists_function. rewrite E1, Hp1, Hp2. replace (k + 1 =? 8 * (k / 8)) with false; [done|].
      Z.to_euclidean_division_equations. lia.
Qed.

(** next() finds the next function that exists. *)
Lemma next_correct k :
  on_path k ->
  (exists j, next config (256 * k) = Ok (256 * j) /\ k < j /\ on_path j /\ exists_function j = true /\
     forall i, k < i < j -> exists_function i = false) \/
  (next config (256 * k) = Ok (-1) /\ forall i, k < i < nfunctions -> exists_function i = false).
Proof.
  intros Hk. unfold next. rewrite readl_header by apply Hk. cbn [rbind].
  destruct (loop_rule (next_step config)
    (fun '(a, x) => exists i, a = 256 * i /\ x = header i /\ on_path i /\ k <= i /\ forall j, k < j <= i -> exists_function j = false)
    (fun r => (exists j, r = 256 * j /\ k < j /\ on_path j /\ exists_function j = true /\
                 forall i, k < i < j -> exists_function i = false) \/
              (r = -1 /\ forall i, k < i < nfunctions -> exists_function i = false))
    (fun '(a, x) => Z.to_nat (256 * nfunctions - a))) with (s := (256 * k, header k)) as (r & E & H).
  - intros [a x] (i & -> & -> & Hi & Hki & Hno). rewrite next_step_jump by apply Hi.
    destruct (jump_spec i Hi) as (Hlt & Hskip & Hnext). destruct (Z.leb_spec nfunctions (jump i)) as [Hend|Hend].
    { right. exists (-1). split; [done|]. right. split; [done|]. intros j Hj.
      destruct (Z.le_gt_cases j i); [apply Hno; lia|apply Hskip; lia]. }
    destruct (Hnext Hend) as [Hon Hex]. destruct (present (jump i)) eqn:Ep.
    + right. eexists. split; [done|]. left. exists (jump i). split; [done|]. split; [lia|]. split; [done|]. split; [done|].
      intros j Hj. destruct (Z.le_gt_cases j i); [apply Hno; lia|apply Hskip; lia].
    + left. eexists. split; [done|]. split.
      * exists (jump i). do 3 (split; [done|]). split; [lia|]. intros j Hj.
        destruct (Z.le_gt_cases j i); [apply Hno; lia|].
        destruct (Z.lt_ge_cases j (jump i)); [apply Hskip; lia|]. by replace j with (jump i) by lia.
      * unfold nfunctions in *. lia.
  - exists k. do 3 (split; [done|]). split; [lia|]. intros. lia.
  - destruct Hk as [Hk _]. cbv beta iota. unfold nfunctions in *. lia.
  - rewrite E. destruct H as [(j & -> & H)|[-> H]]; [left; by exists j|by right].
Qed.
End bus.
End Bus.

(** The search of the PCI bus terminates and visits function 0 and every
    function that exists, in the order of the addresses: find() answers the
    address of the first one that satisfies the predicate, and -1 if none does. *)
Theorem pci_find_first config (p : Z -> bool) :
  exists r, Pci.find config (fun a => Ok (p a)) 0 = Ok r /\
    ((exists k, r = 256 * k /\ 0 <= k < Bus.nfunctions /\ (k = 0 \/ Bus.exists_function config k = true) /\ p r = true /\
        forall j, 0 <= j < k -> j = 0 \/ Bus.exists_function config j = true -> p (256 * j) = false) \/
     (r = -1 /\
        forall j, 0 <= j < Bus.nfunctions -> j = 0 \/ Bus.exists_function config j = true -> p (256 * j) = false)).
Proof.
  set (visited := fun j : Z => j = 0 \/ Bus.exists_function config j = true).
  apply (loop_rule (Pci.find_step config (fun a => Ok (p a)))
    (fun a => (exists k, a = 256 * k /\ Bus.on_path config k /\ visited k /\
                 forall j, 0 <= j < k -> visited j -> p (256 * j) = false) \/
              (a = -1 /\ forall j, 0 <= j < Bus.nfunctions -> visited j -> p (256 * j) = false))
    _ (fun a => if a <? 0 then O else Z.to_nat (256 * Bus.nfunctions - a))).
  - unfold Pci.find_step. intros a [(k & -> & Hk & Hv & Hno)|[-> Hno]].
    + pose proof Hk as [Hk0 _]. replace (0 <=? 256 * k) with true by lia. cbn [rbind].
      destruct (p (256 * k)) eqn:Ep; [right; eexists; split; [done|]; left; by exists k|].
      left. destruct (Bus.next_correct config k Hk) as [(j & -> & Hkj & Hon & Hex & Hsk)|[-> Hsk]]; eexists; (split; [done|]).
      * split.
        -- left. exists j. split; [done|]. split; [done|]. split; [by right|]. intros i Hi Hvi.
           destruct (Z.lt_trichotomy i k) as [|[-> |]]; [by apply Hno; [lia|]|done|].
           destruct Hvi as [-> |Hvi]; [lia|]. rewrite Hsk in Hvi; [done|lia].
        -- destruct Hon as [Hj _]. unfold Bus.nfunctions in *. replace (256 * j <? 0) with false by lia.
           replace (256 * k <? 0) with false by lia. lia.
      * split.
        -- right. split; [done|]. intros i Hi Hvi.
           destruct (Z.lt_trichotomy i k) as [|[-> |]]; [by apply Hno; [lia|]|done|].
           destruct Hvi as [-> |Hvi]; [lia|]. rewrite Hsk in Hvi; [done|lia].
        -- unfold Bus.nfunctions in *. replace (256 * k <? 0) with false by lia. cbn. lia.
    + right. exists (-1). split; [done|]. by right.
  - left. exists 0. split; [done|]. split; [split; [unfold Bus.nfunctions; lia|by left]|]. split; [by left|]. intros. lia.
  - done.
Qed.
