(* ===== verification/Boot.v ===== *)
(** * Executables and the boot loader (mini-operating-system/elf.h, boot.cc, k-hardware.cc)

    Executable files in memory: the kernel's view of the program images that are
    linked into it (program_image of k-hardware.cc), and the boot loader, which
    reads the kernel from the first disk.  The disk controller is a class of
    port operations; [AtaLaws] states what its documentation promises.  Memory
    is as bootentry.S leaves it: the first gigabyte is mapped, and the loader's
    own code, stack and page table are part of it. *)
From stdpp Require Import prelude gmap list.
From Stdlib Require Import ZArith Lia.
From S2P Require Import Prelude Memory Vm KernelState.
Open Scope Z_scope.
Open Scope c_scope.

(** ** Executable files *)

Module Elf.

Definition ELF_MAGIC : Z := 0x464C457F.
Definition ELF_PTYPE_LOAD : Z := 1.
Definition ELF_PFLAG_WRITE : Z := 2.
Definition SIZEOF_HEADER : Z := 64.
Definition SIZEOF_PROGRAM : Z := 56.

(** The fields that the code uses. *)
Record elf_header := mkHeader { e_magic : Z; e_entry : Z; e_phoff : Z; e_phnum : Z }.
Record elf_program := mkProgram {
  p_type : Z; p_flags : Z; p_offset : Z; p_va : Z; p_filesz : Z; p_memsz : Z
}.

(** The structures at an address. *)
Definition header_at (m : ram) (a : Z) : elf_header :=
  mkHeader (load 4 m a) (load 8 m (a + 0x18)) (load 8 m (a + 0x20)) (load 2 m (a + 0x38)).
Definition program_at (m : ram) (a : Z) : elf_program :=
  mkProgram (load 4 m a) (load 4 m (a + 4)) (load 8 m (a + 8)) (load 8 m (a + 0x10)) (load 8 m (a + 0x20))
    (load 8 m (a + 0x28)).

End Elf.

(** ** Program images in the kernel *)

Module Image.
Import Elf.

Record ramimage := mkRamimage { ri_name : list Z; ri_begin : Z }.

Section image.
Context (m : ram) (ramimages : list ramimage).

(** program_image(int): elf_ of the new object, 0 for nullptr. *)
Definition program_image_number (program_number : Z) : res Z :=
  if (0 <=? program_number) && (program_number <? Z.of_nat (length ramimages)) then
    match ramimages !! Z.to_nat program_number with
    | Some r => if e_magic (header_at m (ri_begin r)) =? ELF_MAGIC then Ok (ri_begin r) else Err AssertFail
    | None => Err UB
    end
  else Ok 0.

(** The loop of program_number() over the images from number [i] on. *)
Fixpoint program_number_from (i : Z) (rs : list ramimage) (program_name : list Z) : Z :=
  match rs with
  | [] => -1
  | r :: rs => if strcmp_eq program_name (ri_name r) then i else program_number_from (i + 1) rs program_name
  end.
Definition program_number (program_name : list Z) : Z := program_number_from 0 ramimages program_name.

(** program_image(const char* ) *)
Definition program_image_name (program_name : list Z) : res Z := program_image_number (program_number program_name).

Definition entry (elf : Z) : Z := if negb (elf =? 0) then e_entry (header_at m elf) else 0.
Definition empty (elf : Z) : bool := (elf =? 0) || (e_phnum (header_at m elf) =? 0).

Definition elf_header_program (elf : Z) (at_end : bool) : Z :=
  if negb (elf =? 0) then
    let ph := u64 (elf + e_phoff (header_at m elf)) in
    u64 (ph + SIZEOF_PROGRAM * (if at_end then e_phnum (header_at m elf) else 0))
  else 0.

Record program_image_segment := mkImageSegment { ph_ : Z; elf_ : Z }.

Definition fix_step (elf eph : Z) (ph : Z) : res (Z + program_image_segment) :=
  if negb (ph =? eph) && negb (p_type (program_at m ph) =? ELF_PTYPE_LOAD) then Ok (inl (u64 (ph + SIZEOF_PROGRAM)))
  else Ok (inr (mkImageSegment ph elf)).

(** The constructor of a segment: fix() moves to the next loadable one. *)
Definition new_segment (ph elf : Z) : res program_image_segment :=
  loop (fix_step elf (elf_header_program elf true)) ph.

Definition begin_ (elf : Z) : res program_image_segment := new_segment (elf_header_program elf false) elf.
Definition end_ (elf : Z) : res program_image_segment := new_segment (elf_header_program elf true) elf.

Definition va (seg : program_image_segment) : Z := p_va (program_at m (ph_ seg)).
Definition size (seg : program_image_segment) : Z := p_memsz (program_at m (ph_ seg)).
Definition data (seg : program_image_segment) : Z := u64 (elf_ seg + p_offset (program_at m (ph_ seg))).
Definition data_size (seg : program_image_segment) : Z := p_filesz (program_at m (ph_ seg)).
Definition writable (seg : program_image_segment) : bool :=
  negb (Z.land (p_flags (program_at m (ph_ seg))) ELF_PFLAG_WRITE =? 0).

(** operator++ *)
Definition next_segment (seg : program_image_segment) : res program_image_segment :=
  if negb (ph_ seg =? elf_header_program (elf_ seg) true) then
    new_segment (u64 (ph_ seg + SIZEOF_PROGRAM)) (elf_ seg)
  else Err AssertFail.

(** The loop that process_setup() runs over the segments, and what it sees of each. *)
Definition segments_step (elf : Z) (st : program_image_segment * list segment)
  : res (program_image_segment * list segment + list segment) :=
  let '(seg, acc) := st in
  last <-! end_ elf;;
  if negb (ph_ seg =? ph_ last) then
    next <-! next_segment seg;;
    Ok (inl (next, acc ++ [mkSegment (va seg) (size seg) (read_bytes m (data seg) (Z.to_nat (data_size seg)))]))
  else Ok (inr acc).

Definition load_image (program_name : list Z) : res program_image :=
  elf <-! program_image_name program_name;;
  first <-! begin_ elf;;
  segs <-! loop (segments_step elf) (first, []);;
  Ok (mkImage segs (entry elf)).

(** The programs that kernel_start() sets up; [allocators] are the names of the
    four programs it starts without a command. *)
Definition start_programs (allocators : list (list Z)) (command : option (list Z)) : res (list (list Z)) :=
  match command with
  | Some c =>
      elf <-! program_image_name c;;
      if negb (empty elf) then Ok [c] else Ok allocators
  | None => Ok allocators
  end.

End image.
End Image.

(** ** The boot loader *)

Module Loader.
Import Elf.

Definition SECTORSIZE : Z := 512.
Definition ELFHDR : Z := 0x3000.
Definition KERNEL_START_SECTOR : Z := 1.

(** The ports of the disk controller. *)
Class Ata (dev : Type) := {
  inb : Z -> dev -> Z * dev;
  outb : Z -> Z -> dev -> dev;
  insl : Z -> nat -> dev -> list Z * dev   (* the bytes of that many words *)
}.

(** The page table that bootentry.S sets up: entries 0, 256 and 511 of the first
    level lead to one table, whose entries 0 and 510 map the first gigabyte. *)
Definition mapped (va : Z) : option Z :=
  let l4 := Z.land (Z.shiftr va 39) 511 in
  let l3 := Z.land (Z.shiftr va 30) 511 in
  if va_is_canonical va && ((l4 =? 0) || (l4 =? 256) || (l4 =? 511)) && ((l3 =? 0) || (l3 =? 510))
  then Some (va mod 2 ^ 30) else None.

(** Memory that the loader must not overwrite: that page table, its stack and
    code (bootentry.S is loaded at 0x7C00 and its stack grows down from there,
    with room down to the page of the headers), and the hole of the devices. *)
Definition off_limits : list (Z * Z) := [(0x1000, 0x3000); (0x4000, 0x7E00); (IOPHYSMEM, EXTPHYSMEM)].
Definition spares (pa n : Z) : bool := forallb (fun '(lo, hi) => (pa + n <=? lo) || (hi <=? pa)) off_limits.

Section loader.
Context {dev : Type} `{Ata dev}.

Record machine := mkMachine { bmem : ram; bdev : dev }.

Definition do_inb (port : Z) : M machine Z := fun s =>
  let '(x, d) := inb port (bdev s) in Ok (u8 x, mkMachine (bmem s) d).
Definition do_outb (port data : Z) : M machine unit :=
  modify (fun s => mkMachine (bmem s) (outb port (u8 data) (bdev s))).

(** A store of [l]: a page fault where nothing is mapped, and the end of the
    loader if it overwrites itself.  A sector starts at a multiple of 512, so it
    does not leave the gigabyte that it starts in. *)
Definition put_bytes (a : Z) (l : list Z) : M machine unit := fun s =>
  match mapped a with
  | Some pa => if spares pa (Z.of_nat (length l)) then Ok (tt, mkMachine (write_bytes (bmem s) pa l) (bdev s)) else Err UB
  | None => Err (Segv a)
  end.
Definition do_insl (port addr : Z) (cnt : nat) : M machine unit := fun s =>
  let '(l, d) := insl port cnt (bdev s) in put_bytes addr l (mkMachine (bmem s) d).
Definition put_byte (a v : Z) : M machine unit := put_bytes a [v].

(** A program header is read through the page table as well. *)
Definition get_program (ph : Z) : M machine elf_program := fun s =>
  match mapped ph, mapped (u64 (ph + (SIZEOF_PROGRAM - 1))) with
  | Some pa, Some _ => Ok (program_at (bmem s) pa, s)
  | _, _ => Err (Segv ph)
  end.

Definition boot_waitdisk : M machine unit :=
  loopM (fun _ : unit =>
    x <- do_inb 0x1F7;;
    ret (if negb (Z.land x 0xC0 =? 0x40) then inl tt else inr tt)) tt.

Definition boot_readsect (dst src_sect : Z) : M machine unit :=
  boot_waitdisk ;;;
  do_outb 0x1F2 1 ;;;
  do_outb 0x1F3 src_sect ;;;
  do_outb 0x1F4 (Z.shiftr src_sect 8) ;;;
  do_outb 0x1F5 (Z.shiftr src_sect 16) ;;;
  do_outb 0x1F6 (Z.lor (Z.shiftr src_sect 24) 0xE0) ;;;
  do_outb 0x1F7 0x20 ;;;
  boot_waitdisk ;;;
  do_insl 0x1F0 dst (Z.to_nat (SECTORSIZE / 4)).

(** The loops of boot_readseg(). *)
Definition read_step (end_ptr : Z) (st : Z * Z) : M machine (Z * Z + unit) :=
  let '(ptr, src_sect) := st in
  if ptr <? end_ptr then
    boot_readsect ptr src_sect ;;; ret (inl (u64 (ptr + SECTORSIZE), u32 (src_sect + 1)))
  else ret (inr tt).

Definition clear_step (memsz end_ptr : Z) : M machine (Z + unit) :=
  if end_ptr <? memsz then put_byte end_ptr 0 ;;; ret (inl (u64 (end_ptr + 1)))
  else ret (inr tt).

Definition boot_readseg (ptr src_sect filesz memsz : Z) : M machine unit :=
  let end_ptr := u64 (ptr + filesz) in
  let memsz := u64 (memsz + ptr) in
  let ptr := Z.land ptr (Z.lnot (SECTORSIZE - 1)) in
  loopM (read_step end_ptr) (ptr, src_sect) ;;;
  loopM (clear_step memsz) end_ptr.

(** The loop of boot() over the program headers. *)
Definition load_step (eph ph : Z) : M machine (Z + unit) :=
  if ph <? eph then
    p <- get_program ph;;
    boot_readseg (p_va p) (u32 (KERNEL_START_SECTOR + p_offset p / SECTORSIZE)) (p_filesz p) (p_memsz p) ;;;
    ret (inl (u64 (ph + SIZEOF_PROGRAM)))
  else ret (inr tt).

(** boot(): the answer is the address it jumps to. *)
Definition boot : M machine Z :=
  boot_readseg ELFHDR KERNEL_START_SECTOR PAGESIZE PAGESIZE ;;;
  loopM (fun _ : unit =>
    h <- gets (fun s => header_at (bmem s) ELFHDR);;
    ret (if negb (e_magic h =? ELF_MAGIC) then inl tt else inr tt)) tt ;;;
  h <- gets (fun s => header_at (bmem s) ELFHDR);;
  let ph := u64 (ELFHDR + e_phoff h) in
  let eph := u64 (ph + SIZEOF_PROGRAM * e_phnum h) in
  loopM (load_step eph) ph ;;;
  h <- gets (fun s => header_at (bmem s) ELFHDR);;
  ret (e_entry h).

End loader.

(** ** What the disk controller promises

    [idle d]: no command is under way.  [accepting d]: the controller has said
    that it is ready for one.  [loading n d]: sector [n] was asked for.
    [loaded n d]: the controller has said that its data are ready.  The
    status register says ready after finitely many reads of it, and the data
    port then delivers the sector. *)
Definition ready (x : Z) : Prop := Z.land (u8 x) 0xC0 = 0x40.

Class AtaLaws (dev : Type) `{Ata dev} (sector : Z -> list Z) := {
  idle : dev -> Prop;
  accepting : dev -> Prop;
  loading : Z -> dev -> Prop;
  loaded : Z -> dev -> Prop;
  busy : dev -> nat;
  busy_bound d : Z.of_nat (busy d) < 2 ^ 63;
  status_idle d x d' : idle d -> inb 0x1F7 d = (x, d') ->
    (ready x /\ accepting d') \/ (~ ready x /\ idle d' /\ (busy d' < busy d)%nat);
  command_read n d : accepting d -> 0 <= n < 2 ^ 28 ->
    loading n (outb 0x1F7 0x20 (outb 0x1F6 (n / 2 ^ 24 + 0xE0) (outb 0x1F5 ((n / 2 ^ 16) mod 256)
                (outb 0x1F4 ((n / 2 ^ 8) mod 256) (outb 0x1F3 (n mod 256) (outb 0x1F2 1 d))))));
  status_loading n d x d' : loading n d -> inb 0x1F7 d = (x, d') ->
    (ready x /\ loaded n d') \/ (~ ready x /\ loading n d' /\ (busy d' < busy d)%nat);
  data_read n d l d' : loaded n d -> insl 0x1F0 128 d = (l, d') -> l = sector n /\ idle d';
  sector_size n : length (sector n) = 512%nat
}.

End Loader.
