(* ===== verification/BootSpec.v ===== *)
(** * Properties of the boot loader and of program images

    The boot loader puts every segment of the kernel where it belongs and jumps
    to its entry point; the kernel reads back the programs linked into it. *)
From stdpp Require Import prelude gmap list.
From Stdlib Require Import ZArith Lia.
From S2P Require Import Prelude Memory Vm LibProofs KernelState Boot.
Open Scope Z_scope.
Open Scope c_scope.

(** ** The disk *)

Module Booting.
Import Elf Loader.

Section disk.
Context {dev : Type} `{Ata dev} (sector : Z -> list Z) `{!AtaLaws dev sector}.

(** A loop that polls the status register. *)
Lemma waitdisk_run (P : dev -> Prop) (Q : dev -> Prop) m d :
  (forall d x d', P d -> inb 0x1F7 d = (x, d') -> (ready x /\ Q d') \/ (~ ready x /\ P d' /\ (busy d' < busy d)%nat)) ->
  P d -> exists d', boot_waitdisk (mkMachine m d) = Ok (tt, mkMachine m d') /\ Q d'.
Proof.
  intros Hst Hd. unfold boot_waitdisk.
  set (body := fun _ : unit => _).
  enough (forall n d, P d -> (busy d <= n)%nat -> exists k d', (k <= S n)%nat /\ runs body k tt (mkMachine m d) tt (mkMachine m d') /\ Q d')
    as Hr.
  { destruct (Hr (busy d) d Hd ltac:(lia)) as (k & d' & Hk & Hrun & HQ). exists d'. split; [|done].
    eapply loopM_runs; [exact Hrun|]. pose proof (busy_bound d). lia. }
  clear d Hd. induction n as [|n IH]; intros d Hd Hb; destruct (inb 0x1F7 d) as [x d'] eqn:E;
    destruct (Hst d x d' Hd E) as [[Hr HQ]|(Hr & HP & Hlt)].
  1, 3: exists 1%nat, d'; split; [lia|]; split; [|done]; apply runs_done; unfold body, bind, do_inb; cbn [bdev bmem];
    rewrite E; unfold ready in Hr; rewrite Hr; reflexivity.
  { lia. }
  destruct (IH d' HP ltac:(lia)) as (k & d2 & Hk & Hrun & HQ). exists (S k), d2. split; [lia|]. split; [|done].
  eapply runs_step; [|exact Hrun]. unfold body, bind, do_inb; cbn [bdev bmem]. rewrite E.
  unfold ready in Hr. destruct (Z.eqb_spec (Z.land (u8 x) 0xC0) 0x40); [done|reflexivity].
Qed.

(** Where the loader can store: ordinary memory, mapped at its own address. *)
Definition loadable (a : Z) : Prop := 0 <= a < MEMSIZE_PHYSICAL /\ spares a 1 = true.

Lemma mapped_low a : 0 <= a < MEMSIZE_PHYSICAL -> mapped a = Some a.
Proof.
  unfold MEMSIZE_PHYSICAL. intros Ha. unfold mapped. rewrite !Z.shiftr_div_pow2, !Z.div_small by lia. cbn [Z.land Z.eqb orb].
  rewrite !andb_true_r. replace (va_is_canonical a) with true; [by rewrite Z.mod_small by lia|].
  symmetry. unfold va_is_canonical, VA_LOWMAX. apply orb_true_iff. left. apply Z.leb_le. lia.
Qed.

Lemma spares_all a n : 0 < n -> (forall x, a <= x < a + n -> spares x 1 = true) -> spares a n = true.
Proof.
  intros Hn H1. unfold spares in *. apply forallb_forall. intros [lo hi] Hin. apply orb_true_iff. rewrite !Z.leb_le.
  destruct (decide (a + n <= lo \/ hi <= a)) as [|Hno]; [done|]. specialize (H1 (Z.max a lo) ltac:(lia)).
  rewrite forallb_forall in H1. specialize (H1 (lo, hi) Hin). cbv beta iota in H1.
  assert (lo < hi) by (by destruct Hin as [[= <- <-]|[[= <- <-]|[[= <- <-]|[]]]]). lia.
Qed.

Lemma put_bytes_run m (d : dev) a l : l <> [] -> (forall x, a <= x < a + Z.of_nat (length l) -> loadable x) ->
  put_bytes a l (mkMachine m d) = Ok (tt, mkMachine (write_bytes m a l) d).
Proof.
  intros Hl H1. assert (0 < Z.of_nat (length l)) by (destruct l; [done|cbn [length]; lia]). unfold put_bytes.
  rewrite mapped_low by (by apply (H1 a ltac:(lia))). rewrite spares_all; [done|done|]. intros x Hx. by apply H1.
Qed.

Lemma readsect_run m d dst n :
  idle d -> 0 <= n < 2 ^ 28 -> (forall x, dst <= x < dst + 512 -> loadable x) ->
  exists d', boot_readsect dst n (mkMachine m d) = Ok (tt, mkMachine (write_bytes m dst (sector n)) d') /\ idle d'.
Proof.
  intros Hd Hn Hok. unfold boot_readsect.
  destruct (waitdisk_run idle accepting m d (status_idle (sector := sector)) Hd) as (d1 & E1 & H1).
  rewrite (bind_ok _ _ _ _ _ E1).
  pose proof (command_read (sector := sector) n d1 H1 Hn) as H2.
  set (d2 := outb 0x1F7 _ _) in H2.
  destruct (waitdisk_run (loading n) (loaded n) m d2 (status_loading (sector := sector) n) H2) as (d3 & E3 & H3).
  unfold do_outb, modify. unfold bind at 1 2 3 4 5 6. cbn [bmem bdev].
  rewrite (wrapU_small 8 1), (wrapU_small 8 0x20) by lia. rewrite !Z.shiftr_div_pow2 by lia.
  assert (0 <= n / 2 ^ 24 < 16) as Hq by (split; [apply Z.div_pos; lia|apply Z.div_lt_upper_bound; lia]).
  change 0xE0 with (7 * 2 ^ 5) in *. rewrite (lor_shift (n / 2 ^ 24) 7 5) by lia.
  rewrite (wrapU_small 8 (n / 2 ^ 24 + 7 * 2 ^ 5)) by lia.
  unfold wrapU. change (2 ^ 8) with 256 in *. fold d2. rewrite (bind_ok _ _ _ _ _ E3).
  unfold do_insl. cbn [bmem bdev]. change (Z.to_nat (SECTORSIZE / 4)) with 128%nat.
  destruct (insl 0x1F0 128 d3) as [l d4] eqn:E4. destruct (data_read n d3 l d4 H3 E4) as [-> H4]. exists d4. split; [|done].
  pose proof (sector_size n) as Hs. apply put_bytes_run; [intros E; by rewrite E in Hs|]. by rewrite Hs.
Qed.

(** The byte at a position of the disk. *)
Definition disk (pos : Z) : Z := nth (Z.to_nat (pos mod 512)) (sector (pos / 512)) 0.

Lemma byte_at_sector m dst n a :
  byte_at (write_bytes m dst (sector n)) a =
  if decide (dst <= a < dst + 512) then disk (512 * n + (a - dst)) else byte_at m a.
Proof.
  pose proof (sector_size n) as Hl. case_decide as Ha.
  - unfold disk. replace ((512 * n + (a - dst)) mod 512) with (a - dst) by (Z.to_euclidean_division_equations; lia).
    replace ((512 * n + (a - dst)) / 512) with n by (Z.to_euclidean_division_equations; lia).
    destruct (lookup_lt_is_Some_2 (sector n) (Z.to_nat (a - dst)) ltac:(lia)) as [x Hx].
    pose proof (byte_at_write_in m dst _ _ _ Hx) as Hb. replace (dst + Z.of_nat (Z.to_nat (a - dst))) with a in Hb by lia.
    rewrite Hb. symmetry. by apply nth_lookup_Some.
  - apply byte_at_write_out. lia.
Qed.

Lemma read_loop_run k m d ptr n end_ptr :
  idle d -> 0 <= ptr -> ptr + 512 * (Z.of_nat k - 1) < end_ptr <= ptr + 512 * Z.of_nat k \/ (k = O /\ end_ptr <= ptr) ->
  ptr + 512 * Z.of_nat k < 2 ^ 64 -> 0 <= n -> n + Z.of_nat k <= 2 ^ 28 -> (forall x, ptr <= x < ptr + 512 * Z.of_nat k -> loadable x) ->
  exists m' d', runs (read_step end_ptr) (S k) (ptr, n) (mkMachine m d) tt (mkMachine m' d') /\ idle d' /\
    forall a, byte_at m' a = if decide (ptr <= a < ptr + 512 * Z.of_nat k) then disk (512 * n + (a - ptr)) else byte_at m a.
Proof.
  revert m d ptr n. induction k as [|k IH]; intros m d ptr n Hd Hp He Hb Hn Hk Hok.
  - exists m, d. split; [|split; [done|]].
    + apply runs_done. unfold read_step. replace (ptr <? end_ptr) with false by lia. done.
    + intros a. rewrite decide_False by lia. done.
  - destruct (readsect_run m d ptr n Hd ltac:(lia) ltac:(intros; apply Hok; lia)) as (d1 & E1 & Hd1).
    destruct (IH (write_bytes m ptr (sector n)) d1 (ptr + 512) (n + 1) Hd1) as (m' & d' & Hr & Hd' & Hm'); [lia..|intros; apply Hok; lia|].
    exists m', d'. split; [|split; [done|]].
    + eapply runs_step; [|exact Hr]. unfold read_step. replace (ptr <? end_ptr) with true by lia.
      rewrite (bind_ok _ _ _ _ _ E1). unfold ret, SECTORSIZE. rewrite !wrapU_small by lia. done.
    + intros a. rewrite Hm', byte_at_sector. repeat case_decide; try lia; try done. f_equal. lia.
Qed.

Lemma bss_loop_run k m (d : dev) p :
  0 <= p -> p + Z.of_nat k < 2 ^ 64 -> (forall x, p <= x < p + Z.of_nat k -> loadable x) ->
  exists m', runs (clear_step (dev := dev) (p + Z.of_nat k)) (S k) p (mkMachine m d) tt (mkMachine m' d) /\
    forall a, byte_at m' a = if decide (p <= a < p + Z.of_nat k) then 0 else byte_at m a.
Proof.
  revert m p. induction k as [|k IH]; intros m p Hp Hk Hok.
  - exists m. split.
    + apply runs_done. unfold clear_step. replace (p <? p + Z.of_nat 0) with false by (symmetry; apply Z.ltb_ge; lia). done.
    + intros a. rewrite decide_False by lia. done.
  - destruct (IH (write_bytes m p [0]) (p + 1)) as (m' & Hr & Hm'); [lia|lia|intros; apply Hok; lia|]. exists m'. split.
    + eapply runs_step; [|replace (p + Z.of_nat (S k)) with (p + 1 + Z.of_nat k) by lia; exact Hr].
      unfold clear_step. replace (p <? p + Z.of_nat (S k)) with true by (symmetry; apply Z.ltb_lt; lia). unfold put_byte.
      rewrite (bind_ok _ _ _ _ _ (put_bytes_run m d p [0] ltac:(done) ltac:(cbn [length]; intros; apply Hok; lia))). unfold ret. by rewrite wrapU_small by lia.
    + intros a. rewrite Hm'. change (write_bytes m p [0]) with (set_byte m p 0). rewrite byte_at_set. repeat case_decide; lia || done.
Qed.

(** Where a segment is read to: whole sectors. *)
Definition seg_base (p : Z) : Z := p - p mod 512.
Definition seg_stop (p filesz : Z) : Z := (p + filesz + 511) / 512 * 512.

Lemma readseg_run m d p n filesz memsz :
  idle d -> 0 <= p -> 0 <= filesz <= memsz -> p + memsz + 512 <= 2 ^ 63 ->
  0 <= n -> n + (seg_stop p filesz - seg_base p) / 512 <= 2 ^ 28 ->
  (forall x, seg_base p <= x < seg_stop p filesz \/ p + filesz <= x < p + memsz -> loadable x) ->
  exists m' d', boot_readseg p n filesz memsz (mkMachine m d) = Ok (tt, mkMachine m' d') /\ idle d' /\
    forall a, byte_at m' a =
      if decide (p + filesz <= a < p + memsz) then 0
      else if decide (seg_base p <= a < seg_stop p filesz) then disk (512 * n + (a - seg_base p)) else byte_at m a.
Proof.
  intros Hd Hp Hf Hb Hn Hs Hok. unfold boot_readseg. rewrite !(wrapU_small 64) by lia.
  assert (Z.land p (Z.lnot (SECTORSIZE - 1)) = seg_base p) as ->.
  { change (SECTORSIZE - 1) with (Z.ones 9). rewrite <- Z.ldiff_land, Z.ldiff_ones_r by lia.
    rewrite Z.shiftl_mul_pow2, Z.shiftr_div_pow2 by lia. unfold seg_base. change (2 ^ 9) with 512.
    pose proof (Z.div_mod p 512). lia. }
  set (k := (seg_stop p filesz - seg_base p) / 512) in *.
  assert (seg_stop p filesz = seg_base p + 512 * k /\ 0 <= k /\ 0 <= seg_base p <= p) as (Hk1 & Hk2 & Hk3).
  { unfold k, seg_stop, seg_base. Z.to_euclidean_division_equations. lia. }
  destruct (read_loop_run (Z.to_nat k) m d (seg_base p) n (p + filesz) Hd) as (m1 & d1 & Hr & Hd1 & Hm1); [lia| |lia|lia|lia|intros; apply Hok; lia|].
  { assert (seg_stop p filesz - 512 < p + filesz <= seg_stop p filesz) by (unfold seg_stop; Z.to_euclidean_division_equations; lia).
    rewrite Z2Nat.id by lia. destruct (Z.eq_dec k 0) as [E0|E0]; [right|left]; lia. }
  rewrite (bind_ok _ _ _ _ _ (loopM_runs _ _ _ _ _ _ Hr ltac:(unfold seg_stop in *; lia))).
  destruct (bss_loop_run (Z.to_nat (memsz - filesz)) m1 d1 (p + filesz)) as (m2 & Hr2 & Hm2); [lia|lia|intros; apply Hok; lia|].
  replace (memsz + p) with (p + filesz + Z.of_nat (Z.to_nat (memsz - filesz))) by lia.
  exists m2, d1. split; [|split; [done|]].
  - eapply loopM_runs; [exact Hr2|lia].
  - intros a. rewrite Hm2, Hm1. rewrite !Z2Nat.id by lia. rewrite Hk1.
    replace (p + filesz + (memsz - filesz)) with (p + memsz) by lia. done.
Qed.

(** ** The kernel on the disk

    [f] is the executable file, which the disk holds from its second sector on. *)
Context (f : ram) (Hf : forall i, 0 <= i -> byte_at f i = disk (512 + i)) (Hbytes : ram_ok f).

Definition header : elf_header := header_at f 0.
Definition program (i : Z) : elf_program := program_at f (e_phoff header + SIZEOF_PROGRAM * i).

(** The memory that is overwritten when a segment is loaded. *)
Definition touched (p : elf_program) (a : Z) : Prop :=
  seg_base (p_va p) <= a < seg_stop (p_va p) (p_filesz p) \/ p_va p + p_filesz p <= a < p_va p + p_memsz p.

(** A segment in memory: the data of the file, then zeros. *)
Definition seg_in_memory (m : ram) (p : elf_program) : Prop :=
  forall o, 0 <= o < p_memsz p ->
    byte_at m (p_va p + o) = if decide (o < p_filesz p) then byte_at f (p_offset p + o) else 0.

(** A file that the loader can load: the headers are in its first page, a segment
    sits in its first sector as in its first page of memory, and loading one
    stays in ordinary memory, below MEMSIZE_PHYSICAL, and spares the loader
    itself, its stack and its page table, the headers and the segments before
    it. *)
Record bootable : Prop := {
  bo_magic : e_magic header = ELF_MAGIC;
  bo_headers : e_phoff header + SIZEOF_PROGRAM * e_phnum header <= PAGESIZE;
  bo_program i : 0 <= i < e_phnum header ->
    p_filesz (program i) <= p_memsz (program i) /\ p_va (program i) + p_memsz (program i) + 512 <= 2 ^ 63 /\
    p_offset (program i) mod 512 = p_va (program i) mod 512 /\
    p_offset (program i) + p_filesz (program i) + 1023 <= 2 ^ 37 /\
    (forall a, touched (program i) a -> loadable a /\ (a < ELFHDR \/ ELFHDR + PAGESIZE <= a));
  bo_disjoint i j a : 0 <= i < j -> j < e_phnum header -> touched (program j) a ->
    ~ (p_va (program i) <= a < p_va (program i) + p_memsz (program i))
}.

Lemma load_shift n m m' a b :
  (forall i, 0 <= i < Z.of_nat n -> byte_at m (a + i) = byte_at m' (b + i)) -> load n m a = load n m' b.
Proof.
  intros E. unfold load. f_equal. apply list_eq. intros i. destruct (decide (i < n)%nat) as [Hi|Hi].
  - rewrite !read_bytes_lookup by done. f_equal. apply E. lia.
  - rewrite !lookup_ge_None_2; rewrite ?length_read_bytes; lia || done.
Qed.

(** The page of the headers in memory. *)
Definition has_headers (m : ram) : Prop :=
  forall a, ELFHDR <= a < ELFHDR + PAGESIZE -> byte_at m a = byte_at f (a - ELFHDR).

Lemma header_in_memory m : has_headers m -> header_at m ELFHDR = header.
Proof.
  intros Hm. unfold header, header_at. f_equal; apply load_shift; intros i Hi;
    rewrite Hm by (unfold ELFHDR; change PAGESIZE with 4096; lia); f_equal; lia.
Qed.

Lemma phoff_range : 0 <= e_phoff header < 2 ^ 64 /\ 0 <= e_phnum header < 2 ^ 16 /\ 0 <= e_entry header < 2 ^ 64.
Proof.
  pose proof (load_range 8 f (0 + 0x20) Hbytes). pose proof (load_range 2 f (0 + 0x38) Hbytes).
  pose proof (load_range 8 f (0 + 0x18) Hbytes). done.
Qed.

Lemma program_range i :
  0 <= p_offset (program i) /\ 0 <= p_va (program i) /\ 0 <= p_filesz (program i) /\ 0 <= p_memsz (program i).
Proof. unfold program, program_at. cbn [p_offset p_va p_filesz p_memsz]. split; [|split; [|split]]; eapply proj1, load_range, Hbytes. Qed.

Lemma program_in_memory m i :
  has_headers m -> bootable -> 0 <= i < e_phnum header ->
  program_at m (ELFHDR + e_phoff header + SIZEOF_PROGRAM * i) = program i.
Proof.
  intros Hm Hb Hi. pose proof (bo_headers Hb) as Hh. pose proof phoff_range as (H1 & H2 & _).
  assert (SIZEOF_PROGRAM * i + SIZEOF_PROGRAM <= SIZEOF_PROGRAM * e_phnum header) by (unfold SIZEOF_PROGRAM; lia).
  unfold program, program_at. change PAGESIZE with 4096 in *. unfold SIZEOF_PROGRAM in *.
  f_equal; apply load_shift; intros k Hk; rewrite Hm by (unfold ELFHDR; change PAGESIZE with 4096; lia); f_equal; lia.
Qed.

Lemma get_program_run m (d : dev) i :
  has_headers m -> bootable -> 0 <= i < e_phnum header ->
  get_program (ELFHDR + e_phoff header + SIZEOF_PROGRAM * i) (mkMachine m d) = Ok (program i, mkMachine m d).
Proof.
  intros Hm Hb Hi. rewrite <- (program_in_memory m i Hm Hb Hi). pose proof (bo_headers Hb) as Hh. pose proof phoff_range as (H1 & H2 & _).
  change PAGESIZE with 4096 in *. unfold get_program, SIZEOF_PROGRAM, ELFHDR in *. rewrite wrapU_small by lia.
  rewrite !mapped_low by (unfold MEMSIZE_PHYSICAL; lia). done.
Qed.

(** One segment. *)
Lemma load_segment_run m d i :
  bootable -> has_headers m -> idle d -> 0 <= i < e_phnum header ->
  exists m' d', boot_readseg (p_va (program i)) (u32 (KERNEL_START_SECTOR + p_offset (program i) / SECTORSIZE))
                  (p_filesz (program i)) (p_memsz (program i)) (mkMachine m d) = Ok (tt, mkMachine m' d') /\
    idle d' /\ seg_in_memory m' (program i) /\ (forall a, ~ touched (program i) a -> byte_at m' a = byte_at m a).
Proof.
  intros Hb Hm Hd Hi. destruct (bo_program Hb i Hi) as (P1 & P2 & P3 & P4 & P5). destruct (program_range i) as (R1 & R2 & R3 & R4).
  unfold seg_in_memory. unfold touched in *. revert P1 P2 P3 P4 P5 R1 R2 R3 R4.
  generalize (p_va (program i)) (p_offset (program i)) (p_filesz (program i)) (p_memsz (program i)).
  intros va off fsz msz P1 P2 P3 P4 P5 R1 R2 R3 R4. unfold KERNEL_START_SECTOR, SECTORSIZE.
  rewrite (wrapU_small 32) by (Z.to_euclidean_division_equations; lia).
  destruct (readseg_run m d va (1 + off / 512) fsz msz Hd) as (m' & d' & E & Hd' & Hm'); [lia|lia|lia|Z.to_euclidean_division_equations; lia| |intros x Hx; by apply P5|].
  { unfold seg_stop, seg_base. Z.to_euclidean_division_equations. lia. }
  exists m', d'. split; [exact E|]. split; [done|]. split.
  - intros o Ho. rewrite Hm'. destruct (decide (o < fsz)) as [C|C]; [|by rewrite decide_True by lia].
    rewrite decide_False by lia. rewrite decide_True by (unfold seg_base, seg_stop; Z.to_euclidean_division_equations; lia).
    rewrite Hf by lia. f_equal. unfold seg_base. Z.to_euclidean_division_equations. lia.
  - intros a Ha. rewrite Hm'. rewrite !decide_False by tauto. done.
Qed.

(** The loop over the program headers, from number [i] on. *)
Lemma load_loop_run k i m d :
  bootable -> has_headers m -> idle d -> 0 <= i -> i + Z.of_nat k = e_phnum header ->
  (forall j, 0 <= j < i -> seg_in_memory m (program j)) ->
  exists m' d', runs (load_step (ELFHDR + e_phoff header + SIZEOF_PROGRAM * e_phnum header)) (S k)
                  (ELFHDR + e_phoff header + SIZEOF_PROGRAM * i) (mkMachine m d) tt (mkMachine m' d') /\
    has_headers m' /\ (forall j, 0 <= j < e_phnum header -> seg_in_memory m' (program j)) /\
    (forall a, (forall j, i <= j < e_phnum header -> ~ touched (program j) a) -> byte_at m' a = byte_at m a).
Proof.
  intros Hb. pose proof (bo_headers Hb) as Hh. pose proof phoff_range as (H1 & H2 & _). change PAGESIZE with 4096 in Hh.
  revert i m d. induction k as [|k IH]; intros i m d Hm Hd Hi Hk Hdone.
  - exists m, d. split; [|split; [done|split; [|done]]].
    + apply runs_done. unfold load_step. replace i with (e_phnum header) by lia. by rewrite Z.ltb_irrefl.
    + intros j Hj. apply Hdone. lia.
  - destruct (load_segment_run m d i Hb Hm Hd ltac:(lia)) as (m1 & d1 & E1 & Hd1 & Hs1 & Hu1).
    destruct (bo_program Hb i ltac:(lia)) as (_ & _ & _ & _ & P5).
    assert (Hm1 : has_headers m1).
    { intros a Ha. rewrite Hu1; [by apply Hm|]. intros Ht. apply P5 in Ht. lia. }
    destruct (IH (i + 1) m1 d1 Hm1 Hd1) as (m' & d' & Hr & Hm' & Hall & Hu); [lia|lia| |].
    { intros j Hj. destruct (Z.eq_dec j i) as [-> |Hne]; [done|]. intros o Ho. rewrite Hu1; [by apply Hdone; [lia|]|].
      intros Ht. apply (bo_disjoint Hb j i) in Ht; [apply Ht; lia|lia|lia]. }
    exists m', d'. split; [|split; [done|split; [done|]]].
    + eapply runs_step; [|exact Hr]. unfold load_step.
      replace (_ <? _) with true by (symmetry; apply Z.ltb_lt; unfold SIZEOF_PROGRAM; lia).
      rewrite (bind_ok _ _ _ _ _ (get_program_run m d i Hm Hb ltac:(lia))), (bind_ok _ _ _ _ _ E1). unfold ret.
      unfold SIZEOF_PROGRAM in *. rewrite (wrapU_small 64) by (unfold ELFHDR; lia). do 3 f_equal. lia.
    + intros a Ha. rewrite Hu by (intros j Hj; apply Ha; lia). apply Hu1, Ha. lia.
Qed.

Lemma read_headers_run m d :
  idle d -> exists m' d', boot_readseg ELFHDR KERNEL_START_SECTOR PAGESIZE PAGESIZE (mkMachine m d) = Ok (tt, mkMachine m' d') /\
    idle d' /\ has_headers m' /\ (forall a, ~ (ELFHDR <= a < ELFHDR + PAGESIZE) -> byte_at m' a = byte_at m a).
Proof.
  intros Hd. destruct (readseg_run m d ELFHDR KERNEL_START_SECTOR PAGESIZE PAGESIZE Hd) as (m' & d' & E & Hd' & Hm');
    [done|done|done|done|by vm_compute| |].
  { intros x. change (seg_base ELFHDR) with 0x3000. change (seg_stop ELFHDR PAGESIZE) with 0x4000. change PAGESIZE with 4096. unfold ELFHDR.
    intros Hx. split; [unfold MEMSIZE_PHYSICAL; lia|]. unfold spares, off_limits, IOPHYSMEM, EXTPHYSMEM. cbn. lia. }
  change (seg_base ELFHDR) with 0x3000 in Hm'. change (seg_stop ELFHDR PAGESIZE) with 0x4000 in Hm'.
  exists m', d'. split; [done|]. split; [done|]. change PAGESIZE with 4096. unfold ELFHDR, KERNEL_START_SECTOR in *.
  change PAGESIZE with 4096 in Hm'. split.
  - intros a Ha. change PAGESIZE with 4096 in Ha. unfold ELFHDR in *. rewrite Hm', decide_False, decide_True by lia.
    rewrite Hf by lia. f_equal; lia.
  - intros a Ha. rewrite Hm'. rewrite !decide_False by lia. done.
Qed.

(** A loop whose body never changes anything does not end. *)
Lemma spin {S} (body : unit -> M S (unit + unit)) s : body tt s = Ok (inl tt, s) -> loopM body tt s = Err OutOfFuel.
Proof.
  intros E. unfold loopM, loop.
  set (b := fun x : unit * S => _).
  assert (forall k, iter_pow k b (tt, s) = Ok (inl (tt, s))) as Hk.
  { induction k as [|k IH]; cbn [iter_pow]; [unfold b; by rewrite E|]. by rewrite IH. }
  by rewrite Hk.
Qed.

Lemma boot_run m d :
  bootable -> idle d ->
  exists m' d', boot (mkMachine m d) = Ok (e_entry header, mkMachine m' d') /\
    (forall j, 0 <= j < e_phnum header -> seg_in_memory m' (program j)) /\
    (forall a, ~ (ELFHDR <= a < ELFHDR + PAGESIZE) -> (forall j, 0 <= j < e_phnum header -> ~ touched (program j) a) ->
       byte_at m' a = byte_at m a).
Proof.
  intros Hb Hd. destruct (read_headers_run m d Hd) as (m1 & d1 & E1 & Hd1 & Hm1 & Hu1).
  unfold boot. rewrite (bind_ok _ _ _ _ _ E1).
  pose proof (header_in_memory m1 Hm1) as Eh.
  assert (loopM (fun _ : unit => h <- gets (fun s => header_at (bmem s) ELFHDR);;
            ret (if negb (e_magic h =? ELF_MAGIC) then inl tt else inr tt)) tt (mkMachine m1 d1) = Ok (tt, mkMachine m1 d1)) as E2.
  { eapply loopM_runs; [|instantiate (1 := 1%nat); done]. apply runs_done. rewrite bind_gets. cbn [bmem].
    rewrite Eh, (bo_magic Hb), Z.eqb_refl. reflexivity. }
  rewrite (bind_ok _ _ _ _ _ E2), bind_gets. cbn [bmem]. rewrite Eh.
  pose proof (bo_headers Hb) as Hh. pose proof phoff_range as (H1 & H2 & _). change PAGESIZE with 4096 in Hh.
  cbv zeta. rewrite (wrapU_small 64 (ELFHDR + _)) by (unfold ELFHDR, SIZEOF_PROGRAM in *; lia).
  rewrite (wrapU_small 64 (_ + SIZEOF_PROGRAM * _)) by (unfold ELFHDR, SIZEOF_PROGRAM in *; lia).
  destruct (load_loop_run (Z.to_nat (e_phnum header)) 0 m1 d1 Hb Hm1 Hd1) as (m2 & d2 & Hr & Hm2 & Hall & Hu2); [lia|lia|intros; lia|].
  rewrite Z.mul_0_r, Z.add_0_r in Hr.
  rewrite (bind_ok _ _ _ _ _ (loopM_runs _ _ _ _ _ _ Hr ltac:(lia))), bind_gets. cbn [bmem].
  rewrite (header_in_memory m2 Hm2). exists m2, d2. split; [done|]. split; [done|].
  intros a Ha Hno. rewrite Hu2 by done. by apply Hu1.
Qed.

Lemma boot_bad_magic m d : idle d -> e_magic header <> ELF_MAGIC -> boot (mkMachine m d) = Err OutOfFuel.
Proof.
  intros Hd Hmagic. destruct (read_headers_run m d Hd) as (m1 & d1 & E1 & Hd1 & Hm1 & _).
  unfold boot. rewrite (bind_ok _ _ _ _ _ E1). apply bind_err, spin. rewrite bind_gets. cbn [bmem].
  rewrite (header_in_memory m1 Hm1). apply Z.eqb_neq in Hmagic. by rewrite Hmagic.
Qed.
End disk.
End Booting.

(** ** Files in memory *)

(** The bytes [l] at address [a]. *)
Definition holds (m : ram) (a : Z) (l : list Z) : Prop :=
  forall i x, l !! i = Some x -> byte_at m (a + Z.of_nat i) = x.

Lemma holds_app m a l l' : holds m a (l ++ l') <-> holds m a l /\ holds m (a + Z.of_nat (length l)) l'.
Proof.
  split.
  - intros Hh. split; intros i x Hi.
    + apply Hh. by apply lookup_app_l_Some.
    + rewrite <- Z.add_assoc, <- Nat2Z.inj_add. apply Hh. rewrite lookup_app_r by lia. by rewrite Nat.add_comm, Nat.add_sub.
  - intros [H1 H2] i x [Hi|[Hl Hi]]%lookup_app_Some; [by apply H1|].
    apply H2 in Hi. rewrite <- Hi. f_equal. lia.
Qed.

Lemma holds_read m a l : holds m a l -> read_bytes m a (length l) = l.
Proof.
  intros Hh. apply list_eq. intros i. destruct (l !! i) as [x|] eqn:E.
  - rewrite read_bytes_lookup by (by eapply lookup_lt_Some). by rewrite (Hh i x E).
  - apply lookup_ge_None in E. apply lookup_ge_None. rewrite length_read_bytes. lia.
Qed.

(** A field of [n] bytes at offset [off]. *)
Lemma holds_load n m a l off v :
  holds m a l -> take n (drop off l) = le_split n v -> 0 <= v < 256 ^ Z.of_nat n -> load n m (a + Z.of_nat off) = v.
Proof.
  intros Hh Ht Hv. destruct n as [|n]; [cbn in *; lia|]. unfold load. remember (S n) as k eqn:Ek.
  assert (length (take k (drop off l)) = k) as Hl by (by rewrite Ht, length_le_split).
  rewrite <- (take_drop off l), <- (take_drop k (drop off l)) in Hh.
  rewrite !holds_app in Hh. destruct Hh as (_ & Hh & _). rewrite length_take in Hh.
  rewrite length_take, length_drop in Hl. replace (off `min` length l)%nat with off in Hh.
  - rewrite <- Hl at 1. replace (k `min` (length l - off))%nat with (length (take k (drop off l))) by (by rewrite length_take, length_drop).
    rewrite holds_read by done. rewrite Ht, le_combine_split. by apply Z.mod_small.
  - lia.
Qed.

(** ** Program images *)

Module Images.
Import Elf Image.

(** An executable file: the header, the program headers, and the rest. *)
Definition header_bytes (entry : Z) (n : nat) : list Z :=
  le_split 4 ELF_MAGIC ++ replicate 12 0 ++ le_split 2 2 ++ le_split 2 62 ++ le_split 4 1 ++
  le_split 8 entry ++ le_split 8 SIZEOF_HEADER ++ le_split 8 0 ++ le_split 4 0 ++
  le_split 2 SIZEOF_HEADER ++ le_split 2 SIZEOF_PROGRAM ++ le_split 2 (Z.of_nat n) ++ replicate 6 0.

Definition program_bytes (p : elf_program) : list Z :=
  le_split 4 (p_type p) ++ le_split 4 (p_flags p) ++ le_split 8 (p_offset p) ++ le_split 8 (p_va p) ++
  le_split 8 0 ++ le_split 8 (p_filesz p) ++ le_split 8 (p_memsz p) ++ le_split 8 0x1000.

Definition print_elf (entry : Z) (ps : list elf_program) (rest : list Z) : list Z :=
  header_bytes entry (length ps) ++ mjoin (program_bytes <$> ps) ++ rest.

Record program_ok (file : list Z) (p : elf_program) : Prop := {
  po_type : 0 <= p_type p < 2 ^ 32;
  po_flags : 0 <= p_flags p < 2 ^ 32;
  po_va : 0 <= p_va p < 2 ^ 64;
  po_offset : 0 <= p_offset p;
  po_filesz : 0 <= p_filesz p;
  po_memsz : 0 <= p_memsz p < 2 ^ 64;
  po_file : p_offset p + p_filesz p <= Z.of_nat (length file)
}.

(** The loadable segments of a file. *)
Definition segments (file : list Z) (ps : list elf_program) : list segment :=
  (fun p => mkSegment (p_va p) (p_memsz p) (take (Z.to_nat (p_filesz p)) (drop (Z.to_nat (p_offset p)) file)))
    <$> filter (fun p => p_type p = ELF_PTYPE_LOAD) ps.

Lemma header_bytes_length entry n : length (header_bytes entry n) = 64%nat.
Proof. reflexivity. Qed.

Lemma program_bytes_length p : length (program_bytes p) = 56%nat.
Proof. reflexivity. Qed.

Lemma header_read m a entry n rest :
  holds m a (header_bytes entry n ++ rest) -> 0 <= entry < 2 ^ 64 -> Z.of_nat n < 2 ^ 16 ->
  header_at m a = mkHeader ELF_MAGIC entry SIZEOF_HEADER (Z.of_nat n).
Proof.
  intros [Hh _]%holds_app He Hn. unfold header_at. f_equal.
  - rewrite <- (Z.add_0_r a). by apply (holds_load 4 m a _ 0 _ Hh).
  - apply (holds_load 8 m a _ 24 _ Hh); [reflexivity|exact He].
  - by apply (holds_load 8 m a _ 32 _ Hh).
  - apply (holds_load 2 m a _ 56 _ Hh); [reflexivity|]. change (256 ^ Z.of_nat 2) with (2 ^ 16). lia.
Qed.

Lemma program_read m a p file :
  holds m a (program_bytes p) -> program_ok file p -> Z.of_nat (length file) < 2 ^ 64 -> program_at m a = p.
Proof.
  intros Hh [] Hl. destruct p as [ty fl off pva fs ms]. unfold program_at. cbn [p_type p_flags p_offset p_va p_filesz p_memsz] in *. f_equal.
  - rewrite <- (Z.add_0_r a). by apply (holds_load 4 m a _ 0 _ Hh).
  - by apply (holds_load 4 m a _ 4 _ Hh).
  - apply (holds_load 8 m a _ 8 _ Hh); [reflexivity|]. change (256 ^ Z.of_nat 8) with (2 ^ 64). lia.
  - by apply (holds_load 8 m a _ 16 _ Hh).
  - apply (holds_load 8 m a _ 32 _ Hh); [reflexivity|]. change (256 ^ Z.of_nat 8) with (2 ^ 64). lia.
  - by apply (holds_load 8 m a _ 40 _ Hh).
Qed.

Lemma programs_held m a ps i p :
  holds m a (mjoin (program_bytes <$> ps)) -> ps !! i = Some p -> holds m (a + SIZEOF_PROGRAM * Z.of_nat i) (program_bytes p).
Proof.
  revert a i. induction ps as [|q ps IH]; intros a i Hh Hi; [done|].
  change (holds m a (program_bytes q ++ mjoin (program_bytes <$> ps))) in Hh. apply holds_app in Hh as [Hq Hh].
  rewrite program_bytes_length in Hh. destruct i as [|i]; cbn in Hi.
  - injection Hi as ->. by rewrite Z.mul_0_r, Z.add_0_r.
  - apply (IH _ i) in Hh; [|done]. unfold SIZEOF_PROGRAM in *. by replace (a + 56 * Z.of_nat (S i)) with (a + Z.of_nat 56 + 56 * Z.of_nat i) by lia.
Qed.

(** A file at address [b]. *)
Section file.
Context (m : ram) (b entry : Z) (ps : list elf_program) (rest : list Z).
Let file : list Z := print_elf entry ps rest.
Context (Hheld : holds m b file) (Hentry : 0 <= entry < 2 ^ 64) (Hnum : Z.of_nat (length ps) < 2 ^ 16).
Context (Hb : 0 < b) (Hsize : b + Z.of_nat (length file) < 2 ^ 64) (Hps : Forall (program_ok file) ps).

Let n : Z := Z.of_nat (length ps).
Let ph (i : Z) : Z := b + SIZEOF_HEADER + SIZEOF_PROGRAM * i.

Lemma file_header : header_at m b = mkHeader ELF_MAGIC entry SIZEOF_HEADER n.
Proof. exact (header_read m b entry (length ps) _ Hheld Hentry Hnum). Qed.

Lemma file_length : SIZEOF_HEADER + SIZEOF_PROGRAM * n <= Z.of_nat (length file).
Proof.
  unfold file, print_elf. rewrite !length_app, header_bytes_length.
  assert (length (mjoin (program_bytes <$> ps)) = (56 * length ps)%nat) as ->; [|unfold SIZEOF_HEADER, SIZEOF_PROGRAM, n; lia].
  clear. induction ps as [|p l IH]; [done|]. change (length (program_bytes p ++ mjoin (program_bytes <$> l)) = (56 * S (length l))%nat).
  rewrite length_app, program_bytes_length, IH. lia.
Qed.

Lemma file_programs i p : ps !! i = Some p -> program_at m (ph (Z.of_nat i)) = p.
Proof.
  intros Hi. pose proof Hheld as Hh. unfold file, print_elf in Hh. rewrite !holds_app in Hh. destruct Hh as (_ & Hh & _).
  rewrite header_bytes_length in Hh. eapply (program_read _ _ _ file); [exact (programs_held _ _ _ _ _ Hh Hi)| |lia].
  by eapply Forall_lookup_1.
Qed.

Lemma file_bounds at_end : elf_header_program m b at_end = ph (if at_end then n else 0).
Proof.
  pose proof file_length. unfold elf_header_program. replace (b =? 0) with false by lia. cbn [negb]. rewrite file_header.
  cbn [e_phoff e_phnum]. unfold ph, SIZEOF_HEADER, SIZEOF_PROGRAM in *.
  rewrite (wrapU_small 64 (b + 64)) by lia. apply wrapU_small. destruct at_end; lia.
Qed.

(** The segment at index [i]. *)
Let loads (p : elf_program) : Prop := p_type p = ELF_PTYPE_LOAD.
Definition settled (i : nat) : Prop := (i <= length ps)%nat /\ (i = length ps \/ exists p, ps !! i = Some p /\ loads p).

Lemma ph_inj i j : ph i = ph j -> i = j.
Proof. unfold ph, SIZEOF_PROGRAM. lia. Qed.

Lemma fix_run i :
  (i <= length ps)%nat ->
  exists j, new_segment m (ph (Z.of_nat i)) b = Ok (mkImageSegment (ph (Z.of_nat j)) b) /\ settled j /\ (i <= j)%nat /\
    filter loads (drop i ps) = filter loads (drop j ps).
Proof.
  intros Hi. unfold new_segment. rewrite file_bounds. pose proof file_length as Hl.
  destruct (loop_rule (fix_step m b (ph n))
    (fun a => exists j, a = ph (Z.of_nat j) /\ (i <= j <= length ps)%nat /\ filter loads (drop i ps) = filter loads (drop j ps))
    (fun r => exists j, r = mkImageSegment (ph (Z.of_nat j)) b /\ settled j /\ (i <= j)%nat /\
                filter loads (drop i ps) = filter loads (drop j ps))
    (fun a => Z.to_nat (ph n - a))) with (s := ph (Z.of_nat i)) as (r & -> & j & -> & Hr).
  - intros a (j & -> & Hj & Ef). unfold fix_step. destruct (Z.eqb_spec (ph (Z.of_nat j)) (ph n)) as [E|E].
    + right. eexists. split; [done|]. exists j. apply ph_inj in E. unfold n in E.
      split; [done|]. split; [split; [lia|left; lia]|]. split; [lia|done].
    + assert (j < length ps)%nat as Hlt by (destruct (decide (j = length ps)) as [-> |]; [done|lia]).
      destruct (lookup_lt_is_Some_2 ps j Hlt) as [p Hp]. rewrite (file_programs j p Hp). cbn [negb andb].
      destruct (Z.eqb_spec (p_type p) ELF_PTYPE_LOAD) as [Et|Et]; cbn [negb].
      * right. eexists. split; [done|]. exists j. split; [done|]. split; [|split; [lia|done]].
        split; [lia|]. right. by exists p.
      * left. eexists. split; [done|]. split.
        -- exists (S j). split; [|split; [lia|]].
           ++ rewrite wrapU_small; unfold ph, SIZEOF_HEADER, SIZEOF_PROGRAM, n in *; lia.
           ++ rewrite Ef, (drop_S ps p j Hp), filter_cons_False; done.
        -- rewrite wrapU_small; unfold ph, SIZEOF_HEADER, SIZEOF_PROGRAM, n in *; lia.
  - exists i. split; [done|]. split; [lia|done].
  - unfold ph, SIZEOF_HEADER, SIZEOF_PROGRAM, n in *. lia.
  - eauto.
Qed.

Lemma settled_filter i p : ps !! i = Some p -> loads p -> filter loads (drop i ps) = p :: filter loads (drop (S i) ps).
Proof. intros Hp Hl. by rewrite (drop_S ps p i Hp), filter_cons_True. Qed.

(** The step of the loop at a segment, and at the end. *)
Lemma segments_step_run i acc :
  settled i ->
  (i = length ps /\ segments_step m b (mkImageSegment (ph (Z.of_nat i)) b, acc) = Ok (inr acc)) \/
  exists j p, (i < j)%nat /\ settled j /\ ps !! i = Some p /\ loads p /\
    filter loads (drop (S i) ps) = filter loads (drop j ps) /\
    segments_step m b (mkImageSegment (ph (Z.of_nat i)) b, acc) =
    Ok (inl (mkImageSegment (ph (Z.of_nat j)) b,
             acc ++ [mkSegment (p_va p) (p_memsz p) (take (Z.to_nat (p_filesz p)) (drop (Z.to_nat (p_offset p)) file))])).
Proof.
  intros [Hi Hs]. unfold segments_step, end_. rewrite file_bounds. cbv iota. unfold n.
  destruct (fix_run (length ps)) as (j0 & -> & [Hj0 _] & Hge & _); [done|]. replace j0 with (length ps) by lia. cbn [rbind ph_].
  destruct Hs as [-> |(p & Hp & Hl)]; [left; split; [done|]; by rewrite Z.eqb_refl|right].
  pose proof (lookup_lt_Some _ _ _ Hp) as Hlt. pose proof file_length as Hfl.
  destruct (Z.eqb_spec (ph (Z.of_nat i)) (ph (Z.of_nat (length ps)))) as [E|E]; [apply ph_inj in E; lia|]. cbn [negb].
  destruct (fix_run (S i)) as (j & Ej & Hsj & Hij & Ef); [lia|]. exists j, p. do 4 (split; [done || lia|]). split; [done|].
  unfold next_segment. cbn [ph_ elf_]. rewrite file_bounds. unfold n. replace (ph (Z.of_nat i) =? _) with false by lia. cbn [negb].
  rewrite wrapU_small by (unfold ph, SIZEOF_HEADER, SIZEOF_PROGRAM, n in *; lia).
  replace (ph (Z.of_nat i) + SIZEOF_PROGRAM) with (ph (Z.of_nat (S i))) by (unfold ph, SIZEOF_PROGRAM; lia).
  rewrite Ej. cbn [rbind]. unfold va, size, data, data_size. cbn [ph_ elf_]. rewrite (file_programs i p Hp).
  assert (program_ok file p) as [] by (by eapply Forall_lookup_1). rewrite wrapU_small by lia. do 6 f_equal.
  pose proof Hheld as Hh. rewrite <- (take_drop (Z.to_nat (p_offset p)) file) in Hh. apply holds_app in Hh as [_ Hh].
  rewrite length_take in Hh. replace (Z.of_nat (_ `min` _)) with (p_offset p) in Hh by lia.
  rewrite <- (take_drop (Z.to_nat (p_filesz p)) (drop (Z.to_nat (p_offset p)) file)) in Hh. apply holds_app in Hh as [Hh _].
  rewrite <- (holds_read _ _ _ Hh). f_equal. rewrite length_take, length_drop. lia.
Qed.

Lemma segments_run :
  exists first, begin_ m b = Ok first /\ loop (segments_step m b) (first, []) = Ok (segments file ps).
Proof.
  unfold begin_. rewrite file_bounds. destruct (fix_run 0) as (j & E & Hj & _ & Ef); [lia|].
  eexists. split; [exact E|].
  set (mk := fun p => mkSegment (p_va p) (p_memsz p) (take (Z.to_nat (p_filesz p)) (drop (Z.to_nat (p_offset p)) file))).
  destruct (loop_rule (segments_step m b)
    (fun '(seg, acc) => exists i, seg = mkImageSegment (ph (Z.of_nat i)) b /\ settled i /\
                          acc ++ (mk <$> filter loads (drop i ps)) = segments file ps)
    (fun r => r = segments file ps)
    (fun '(seg, acc) => Z.to_nat (ph n - ph_ seg))) with (s := (mkImageSegment (ph (Z.of_nat j)) b, [] : list segment)) as (r & -> & ->).
  - intros [seg acc] (i & -> & Hi & Ea). destruct (segments_step_run i acc Hi) as [[-> Es]|(k & p & Hik & Hk & Hp & Hl & Ef' & Es)]; rewrite Es.
    + right. eexists. split; [done|]. rewrite drop_all in Ea. cbn in Ea. by rewrite app_nil_r in Ea.
    + left. eexists. split; [done|]. split.
      * exists k. split; [done|]. split; [done|]. rewrite <- Ea, (settled_filter i p Hp Hl), Ef', fmap_cons.
        by rewrite <- app_assoc.
      * cbn [ph_]. destruct Hk as [Hk _]. unfold ph, SIZEOF_PROGRAM, n. lia.
  - exists j. split; [done|]. split; [done|]. cbn [app]. by rewrite <- Ef.
  - cbn [ph_]. pose proof file_length. unfold ph, SIZEOF_HEADER, SIZEOF_PROGRAM, n in *. lia.
  - done.
Qed.
End file.
End Images.

(** The program in the file at address [b]. *)
Definition holds_program (m : ram) (b : Z) (pgm : program_image) : Prop :=
  exists entry ps rest, let file := Images.print_elf entry ps rest in
    holds m b file /\ 0 <= entry < 2 ^ 64 /\ Z.of_nat (length ps) < 2 ^ 16 /\ 0 < b /\ b + Z.of_nat (length file) < 2 ^ 64 /\
    Forall (Images.program_ok file) ps /\ ps <> [] /\ pgm = mkImage (Images.segments file ps) entry.

(** The image that a name stands for: the first one with it. *)
Fixpoint image_named (rs : list Image.ramimage) (name : list Z) : option Image.ramimage :=
  match rs with
  | [] => None
  | r :: rs => if strcmp_eq name (Image.ri_name r) then Some r else image_named rs name
  end.

Lemma program_number_named rs i name :
  0 <= i ->
  match image_named rs name with
  | Some r => exists k, Image.program_number_from i rs name = i + Z.of_nat k /\ rs !! k = Some r
  | None => Image.program_number_from i rs name = -1
  end.
Proof.
  revert i. induction rs as [|r rs IH]; intros i Hi; cbn [image_named Image.program_number_from]; [done|].
  destruct (strcmp_eq name (Image.ri_name r)); [exists O; split; [lia|done]|].
  specialize (IH (i + 1) ltac:(lia)). destruct (image_named rs name); [|done].
  destruct IH as (k & -> & Hk). exists (S k). split; [lia|done].
Qed.

Lemma image_found m rs name r :
  image_named rs name = Some r -> Elf.e_magic (Elf.header_at m (Image.ri_begin r)) = Elf.ELF_MAGIC ->
  Image.program_image_name m rs name = Ok (Image.ri_begin r).
Proof.
  intros Hn Hm. pose proof (program_number_named rs 0 name ltac:(lia)) as H. rewrite Hn in H. destruct H as (k & E & Hk).
  unfold Image.program_image_name, Image.program_number. rewrite E. unfold Image.program_image_number.
  pose proof (lookup_lt_Some _ _ _ Hk). replace (0 <=? 0 + Z.of_nat k) with true by lia.
  replace (0 + Z.of_nat k <? Z.of_nat (length rs)) with true by lia. cbn [andb].
  replace (Z.to_nat (0 + Z.of_nat k)) with k by lia. by rewrite Hk, Hm, Z.eqb_refl.
Qed.

Lemma image_missing m rs name : image_named rs name = None -> Image.program_image_name m rs name = Ok 0.
Proof.
  intros Hn. pose proof (program_number_named rs 0 name ltac:(lia)) as H. rewrite Hn in H.
  unfold Image.program_image_name, Image.program_number. by rewrite H.
Qed.

(** C13: the kernel reads its programs.  program_image with the name of an
    executable linked into the kernel enumerates exactly the loadable segments
    of the file, in order, with their addresses, sizes and data, knows the entry
    point, and terminates; with any other name it is empty.  So kernel_start()
    runs the program named on its command line if there is one, and the four
    allocators otherwise. *)
Theorem program_image_correct m rs name allocators :
  match image_named rs name with
  | Some r => forall pgm, holds_program m (Image.ri_begin r) pgm ->
      Image.load_image m rs name = Ok pgm /\ Image.start_programs m rs allocators (Some name) = Ok [name]
  | None => Image.load_image m rs name = Ok (mkImage [] 0) /\
      Image.start_programs m rs allocators (Some name) = Ok allocators
  end /\ Image.start_programs m rs allocators None = Ok allocators.
Proof.
  split; [|done]. destruct (image_named rs name) as [r|] eqn:En.
  - intros pgm (entry & ps & rest & Hh & He & Hn & Hb & Hs & Hps & Hne & ->).
    pose proof (Images.file_header m _ entry ps rest Hh He Hn) as Ehd.
    assert (Ef : Image.program_image_name m rs name = Ok (Image.ri_begin r)) by (apply image_found; [done|by rewrite Ehd]).
    split.
    + unfold Image.load_image. rewrite Ef. cbn [rbind].
      destruct (Images.segments_run m _ entry ps rest Hh He Hn Hb Hs Hps) as (first & -> & E2). cbn [rbind]. rewrite E2. cbn [rbind].
      unfold Image.entry. replace (Image.ri_begin r =? 0) with false by lia. by rewrite Ehd.
    + unfold Image.start_programs. rewrite Ef. cbn [rbind]. unfold Image.empty. replace (Image.ri_begin r =? 0) with false by lia.
      rewrite Ehd. cbn [Elf.e_phnum orb]. destruct ps as [|p ps]; [done|].
      by replace (Z.of_nat (length (p :: ps)) =? 0) with false by (symmetry; apply Z.eqb_neq; cbn [length]; lia).
  - split.
    + unfold Image.load_image. rewrite image_missing by done. reflexivity.
    + unfold Image.start_programs. rewrite image_missing by done. reflexivity.
Qed.

(** C12: the boot loader loads the kernel.  With a disk controller that keeps its
    promises and a bootable executable from the second sector on, whose segments
    fit into memory beside the loader, its stack and its page table, boot()
    terminates without a fault and jumps to the entry point, with every segment in memory at
    its address, its data as in the file and zeros after them, and without
    having touched memory outside the sectors of the segments and the page of
    the headers.  Without the magic number it never leaves its loop. *)
Theorem boot_loads_kernel {dev} `{Loader.Ata dev} sector `{!Loader.AtaLaws dev sector} f m d :
  (forall i, 0 <= i -> byte_at f i = Booting.disk sector (512 + i)) -> ram_ok f -> Loader.idle (sector := sector) d ->
  (Booting.bootable f ->
   exists m' d', Loader.boot (Loader.mkMachine m d) = Ok (Elf.e_entry (Booting.header f), Loader.mkMachine m' d') /\
     (forall j, 0 <= j < Elf.e_phnum (Booting.header f) -> Booting.seg_in_memory f m' (Booting.program f j)) /\
     (forall a, ~ (Loader.ELFHDR <= a < Loader.ELFHDR + PAGESIZE) ->
        (forall j, 0 <= j < Elf.e_phnum (Booting.header f) -> ~ Booting.touched (Booting.program f j) a) ->
        byte_at m' a = byte_at m a)) /\
  (Elf.e_magic (Booting.header f) <> Elf.ELF_MAGIC -> Loader.boot (Loader.mkMachine m d) = Err OutOfFuel).
Proof.
  intros Hf Hr Hd. split.
  - intros Hb. by apply (Booting.boot_run sector f).
  - intros Hm. by apply (Booting.boot_bad_magic sector f).
Qed.

(** ** A disk and two executables *)

(** A controller that is busy for some reads of its status after each command. *)
Record demo_disk := mkDemo { dd_lba0 : Z; dd_lba1 : Z; dd_lba2 : Z; dd_lba3 : Z; dd_loading : bool; dd_delay : nat }.

Definition demo_inb (port : Z) (d : demo_disk) : Z * demo_disk :=
  match dd_delay d with
  | O => (0x50, d)
  | S n => (0x80, mkDemo (dd_lba0 d) (dd_lba1 d) (dd_lba2 d) (dd_lba3 d) (dd_loading d) n)
  end.

Definition demo_outb (port data : Z) (d : demo_disk) : demo_disk :=
  if port =? 0x1F3 then mkDemo data (dd_lba1 d) (dd_lba2 d) (dd_lba3 d) (dd_loading d) (dd_delay d)
  else if port =? 0x1F4 then mkDemo (dd_lba0 d) data (dd_lba2 d) (dd_lba3 d) (dd_loading d) (dd_delay d)
  else if port =? 0x1F5 then mkDemo (dd_lba0 d) (dd_lba1 d) data (dd_lba3 d) (dd_loading d) (dd_delay d)
  else if port =? 0x1F6 then mkDemo (dd_lba0 d) (dd_lba1 d) (dd_lba2 d) (data mod 16) (dd_loading d) (dd_delay d)
  else if port =? 0x1F7 then mkDemo (dd_lba0 d) (dd_lba1 d) (dd_lba2 d) (dd_lba3 d) true 3
  else d.

(** The sectors of a disk that holds [file] from its second sector on. *)
Definition file_sector (file : list Z) (n : Z) : list Z :=
  (fun k => nth (Z.to_nat (512 * (n - 1) + Z.of_nat k)) file 0) <$> seq 0 512.

Definition demo_lba (d : demo_disk) : Z := dd_lba0 d + 256 * dd_lba1 d + 2 ^ 16 * dd_lba2 d + 2 ^ 24 * dd_lba3 d.

Definition demo_kernel_program : Elf.elf_program := Elf.mkProgram 1 5 0x200 0x40000 5 20.
Definition demo_data_program : Elf.elf_program := Elf.mkProgram 1 6 0x410 0x41010 4 0x30.
Definition demo_note_program : Elf.elf_program := Elf.mkProgram 4 4 0 0x50000 0 0.
Definition demo_file : list Z :=
  Images.print_elf 0x40001 [demo_kernel_program; demo_note_program; demo_data_program]
    (replicate 280 0 ++ [1; 2; 3; 4; 5] ++ replicate 523 0 ++ [6; 7; 8; 9]).

#[local] Instance demo_ata : Loader.Ata demo_disk := {
  Loader.inb := demo_inb;
  Loader.outb := demo_outb;
  Loader.insl := fun port n d =>
    (file_sector demo_file (demo_lba d), mkDemo (dd_lba0 d) (dd_lba1 d) (dd_lba2 d) (dd_lba3 d) false 2)
}.

#[local, refine] Instance demo_ata_laws : Loader.AtaLaws demo_disk (file_sector demo_file) := {
  Loader.idle := fun d => dd_loading d = false /\ (dd_delay d <= 3)%nat;
  Loader.accepting := fun d => dd_loading d = false;
  Loader.loading := fun n d => demo_lba d = n /\ (dd_delay d <= 3)%nat;
  Loader.loaded := fun n d => demo_lba d = n;
  Loader.busy := fun d => (dd_delay d `min` 3)%nat
}.
Proof.
  - intros d. lia.
  - intros d x d' [H1 H2]. cbn. unfold demo_inb. destruct (dd_delay d) as [|k] eqn:E; intros [= <- <-].
    + left. split; [done|exact H1].
    + right. cbn [dd_loading dd_delay]. split; [done|]. split; [split; [exact H1|lia]|lia].
  - intros n d H1 Hn. cbn. split; [|lia]. unfold demo_lba, demo_outb. cbn. Z.to_euclidean_division_equations. lia.
  - intros n d x d' [H1 H2]. cbn. unfold demo_inb. destruct (dd_delay d) as [|k] eqn:E; intros [= <- <-].
    + left. split; [done|exact H1].
    + right. cbn [dd_loading dd_delay]. split; [done|]. split; [split; [exact H1|lia]|lia].
  - intros n d l d' H1. cbn [Loader.insl demo_ata]. intros [= <- <-]. split; [by rewrite H1|]. split; [done|cbn; lia].
  - intros n. unfold file_sector. by rewrite length_fmap, length_seq.
Defined.

Definition demo_file_ram : ram := write_bytes (mkRam 0 ∅) 0 demo_file.

Lemma write_bytes_nth file i : 0 <= i -> byte_at (write_bytes (mkRam 0 ∅) 0 file) i = nth (Z.to_nat i) file 0.
Proof.
  intros Hi. destruct (file !! Z.to_nat i) as [x|] eqn:E.
  - pose proof (byte_at_write_in (mkRam 0 ∅) 0 _ _ _ E) as Hb. rewrite Z.add_0_l, Z2Nat.id in Hb by done. rewrite Hb.
    symmetry. by apply nth_lookup_Some.
  - apply lookup_ge_None in E. rewrite byte_at_write_out by lia. rewrite nth_overflow by lia. reflexivity.
Qed.

Lemma disk_file file i : 0 <= i -> Booting.disk (file_sector file) (512 + i) = nth (Z.to_nat i) file 0.
Proof.
  intros Hi. unfold Booting.disk, file_sector.
  assert (0 <= (512 + i) mod 512 < 512) as Hm by (apply Z.mod_pos_bound; lia).
  rewrite nth_lookup, list_lookup_fmap, lookup_seq_lt by lia. cbn. f_equal. Z.to_euclidean_division_equations. lia.
Qed.

Lemma demo_programs :
  Booting.header demo_file_ram = Elf.mkHeader Elf.ELF_MAGIC 0x40001 64 3 /\
  Booting.program demo_file_ram 0 = demo_kernel_program /\ Booting.program demo_file_ram 1 = demo_note_program /\
  Booting.program demo_file_ram 2 = demo_data_program.
Proof. vm_compute. done. Qed.

Lemma demo_bytes_ok file :
  forallb (fun b => (0 <=? b) && (b <? 256)) file = true -> ram_ok (write_bytes (mkRam 0 ∅) 0 file).
Proof.
  intros E. apply write_bytes_ok; [intros a; unfold byte_at; cbn; rewrite lookup_empty; cbn; lia|].
  apply Forall_forall. intros b Hb%list_elem_of_In. rewrite forallb_forall in E. specialize (E b Hb). lia.
Qed.

(** The bounds of the demonstration segments, as numbers. *)
Ltac demo_bounds :=
  unfold Booting.touched, Booting.seg_base, Booting.seg_stop, Booting.loadable, Loader.spares, Loader.off_limits, Loader.ELFHDR, IOPHYSMEM, EXTPHYSMEM, MEMSIZE_PHYSICAL;
  cbn [forallb];
  cbn [Elf.p_va Elf.p_filesz Elf.p_memsz demo_kernel_program demo_note_program demo_data_program];
  change (0x40000 mod 512) with 0; change (0x41010 mod 512) with 16; change (0x50000 mod 512) with 0;
  change ((0x40000 + 5 + 511) / 512 * 512) with 0x40200; change ((0x41010 + 4 + 511) / 512 * 512) with 0x41200;
  change ((0x50000 + 0 + 511) / 512 * 512) with 0x50000; change PAGESIZE with 4096; lia.

Lemma demo_bootable : Booting.bootable demo_file_ram.
Proof.
  destruct demo_programs as (Hh & H0 & H1 & H2).
  split; rewrite ?Hh; cbn [Elf.e_magic Elf.e_phoff Elf.e_phnum]; [done|done| |].
  - intros i Hi. assert (i = 0 \/ i = 1 \/ i = 2) as Hc by lia.
    destruct Hc as [-> |[-> | ->]]; rewrite ?H0, ?H1, ?H2; (split; [done|]); (split; [done|]); (split; [done|]); (split; [done|]);
      intros a; demo_bounds.
  - intros i j a Hij Hj. assert ((i = 0 /\ j = 1) \/ (i = 0 /\ j = 2) \/ (i = 1 /\ j = 2)) as Hc by lia.
    destruct Hc as [[-> ->]|[[-> ->]|[-> ->]]]; rewrite ?H0, ?H1, ?H2; demo_bounds.
Qed.

Lemma boot_loads_kernel_witness :
  exists m' d', Loader.boot (Loader.mkMachine (mkRam 0xCC ∅) (mkDemo 0 0 0 0 false 1)) = Ok (0x40001, Loader.mkMachine m' d') /\
    byte_at m' 0x40002 = 3 /\ byte_at m' 0x40005 = 0 /\ byte_at m' 0x41012 = 8 /\ byte_at m' 0x60000 = 0xCC.
Proof.
  destruct (boot_loads_kernel (file_sector demo_file) demo_file_ram (mkRam 0xCC ∅) (mkDemo 0 0 0 0 false 1)) as [Hb _].
  - intros i Hi. unfold demo_file_ram. rewrite write_bytes_nth, disk_file by exact Hi. reflexivity.
  - apply demo_bytes_ok. vm_compute. reflexivity.
  - cbn. lia.
  - destruct (Hb demo_bootable) as (m' & d' & E & Hs & Hu). exists m', d'.
    destruct demo_programs as (Hh & H0 & H1 & H2). rewrite Hh in E, Hs, Hu. split; [exact E|].
    pose proof (Hs 0 ltac:(cbn; lia)) as S0. pose proof (Hs 2 ltac:(cbn; lia)) as S2. rewrite H0 in S0. rewrite H2 in S2.
    split; [|split; [|split]].
    + etransitivity; [exact (S0 2 ltac:(cbn; lia))|vm_compute; reflexivity].
    + etransitivity; [exact (S0 5 ltac:(cbn; lia))|vm_compute; reflexivity].
    + etransitivity; [exact (S2 2 ltac:(cbn; lia))|vm_compute; reflexivity].
    + rewrite Hu; [reflexivity|unfold Loader.ELFHDR; change PAGESIZE with 4096; lia|].
      intros j Hj. cbn [Elf.e_phnum] in Hj. assert (j = 0 \/ j = 1 \/ j = 2) as Hc by lia.
      destruct Hc as [-> |[-> | ->]]; rewrite ?H0, ?H1, ?H2; demo_bounds.
Defined.

(** The same file as a program of the kernel, under the name k. *)
Lemma demo_holds_program :
  holds_program (write_bytes (mkRam 0 ∅) 0x50000 demo_file) 0x50000
    (mkImage [mkSegment 0x40000 20 [1; 2; 3; 4; 5]; mkSegment 0x41010 0x30 [6; 7; 8; 9]] 0x40001).
Proof.
  exists 0x40001, [demo_kernel_program; demo_note_program; demo_data_program],
    (replicate 280 0 ++ [1; 2; 3; 4; 5] ++ replicate 523 0 ++ [6; 7; 8; 9]).
  change (Images.print_elf _ _ _) with demo_file. cbv zeta. split; [intros i x Hi; by apply byte_at_write_in|].
  assert (length demo_file = 1044%nat) as Hl by (vm_compute; reflexivity).
  rewrite Hl. do 4 (split; [done|]). split; [|split; [done|vm_compute; reflexivity]].
  repeat (apply Forall_cons; split; [split; rewrite ?Hl; done|]). by apply Forall_nil.
Qed.

Lemma program_image_correct_witness :
  Image.load_image (write_bytes (mkRam 0 ∅) 0x50000 demo_file) [Image.mkRamimage [107] 0x50000] [107] =
    Ok (mkImage [mkSegment 0x40000 20 [1; 2; 3; 4; 5]; mkSegment 0x41010 0x30 [6; 7; 8; 9]] 0x40001).
Proof.
  destruct (program_image_correct (write_bytes (mkRam 0 ∅) 0x50000 demo_file) [Image.mkRamimage [107] 0x50000] [107] [])
    as [H _].
  exact (proj1 (H _ demo_holds_program)).
Defined.
