(* ===== verification/Trace.v ===== *)
(** * Trace files of the malloc driver (read_trace() of malloc/driver/mdriver.c)

    The unread part of the file is a list of bytes; fscanf() with the formats that
    the code uses is modelled from the C standard (7.21.6.2).  A number that
    does not fit its type, and the use of a variable that fscanf() has left
    without a value, are the fault [UB].  Allocation of a negative number of
    elements fails, and any other allocation succeeds; [junk] are the sizes that the array of
    requests happens to hold when it is allocated. *)
From stdpp Require Import prelude list.
From Stdlib Require Import ZArith Lia.
From S2P Require Import Prelude Mdriver MdriverProofs PrinterProofs LibProofs.
Open Scope Z_scope.
Open Scope c_scope.

(** ** fscanf() *)

Definition isspace (c : Z) : bool := ((9 <=? c) && (c <=? 13)) || (c =? 32).

Fixpoint skip_space (l : list Z) : list Z :=
  match l with
  | c :: l' => if isspace c then skip_space l' else l
  | [] => []
  end.

(** What a conversion found, and the input after it. *)
Inductive scanned (A : Type) := Eof | Mismatch (rest : list Z) | Matched (v : A) (rest : list Z).
Arguments Eof {A}.
Arguments Mismatch {A} rest.
Arguments Matched {A} v rest.

(** The longest run of decimal digits and its value. *)
Fixpoint scan_digits (l : list Z) (acc : Z) : Z * list Z :=
  match l with
  | c :: l' => if (48 <=? c) && (c <=? 57) then scan_digits l' (10 * acc + (c - 48)) else (acc, l)
  | [] => (acc, [])
  end.

Definition scan_sign (l : list Z) : bool * list Z :=
  match l with
  | c :: l' => if c =? 45 then (true, l') else if c =? 43 then (false, l') else (false, l)
  | [] => (false, [])
  end.

(** A decimal integer with an optional sign: its sign and magnitude. *)
Definition scan_number (l : list Z) : scanned (bool * Z) :=
  match skip_space l with
  | [] => Eof
  | l =>
      let '(neg, l) := scan_sign l in
      match l with
      | c :: _ => if (48 <=? c) && (c <=? 57)
                  then let '(n, rest) := scan_digits l 0 in Matched (neg, n) rest
                  else Mismatch l
      | [] => Mismatch []
      end
  end.

(** %d stores an int. *)
Definition scan_d (l : list Z) : res (scanned Z) :=
  match scan_number l with
  | Matched (neg, n) rest =>
      let v := if neg : bool then - n else n in
      if s32 v =? v then Ok (Matched v rest) else Err UB
  | Eof => Ok Eof
  | Mismatch rest => Ok (Mismatch rest)
  end.

(** %u, into an int: the unsigned number is stored with its bits. *)
Definition scan_u (l : list Z) : res (scanned Z) :=
  match scan_number l with
  | Matched (neg, n) rest => if n <? 2 ^ 32 then Ok (Matched (s32 (if neg : bool then - n else n)) rest) else Err UB
  | Eof => Ok Eof
  | Mismatch rest => Ok (Mismatch rest)
  end.

Fixpoint scan_word (l : list Z) : list Z * list Z :=
  match l with
  | c :: l' => if isspace c then ([], l) else let '(w, rest) := scan_word l' in (c :: w, rest)
  | [] => ([], [])
  end.

Definition MAXLINE : Z := 1024.

(** %s into an array of MAXLINE characters. *)
Definition scan_s (l : list Z) : res (scanned (list Z)) :=
  match skip_space l with
  | [] => Ok Eof
  | l => let '(w, rest) := scan_word l in
         if Z.of_nat (length w) <? MAXLINE then Ok (Matched w rest) else Err UB
  end.

(** ** read_trace() *)

(** A field of the header. *)
Definition read_field : M (list Z) Z := fun l =>
  r <-! scan_d l;;
  match r with
  | Eof => Err AssertFail
  | Mismatch _ => Err UB
  | Matched v rest => Ok (v, rest)
  end.

(** The variables of the loop: index, size, max_index and the requests so far. *)
Record reader := mkReader { r_index : Z; r_size : option Z; r_max : Z; r_ops : list traceop }.

Section reading.
Context (junk : nat -> Z).

(** The conversions of %u %u: the second one only if the first succeeds. *)
Definition read_index_size (r : reader) (l : list Z) : res (Z * option Z * list Z) :=
  a <-! scan_u l;;
  match a with
  | Eof => Err AssertFail
  | Mismatch rest => Ok (r_index r, r_size r, rest)
  | Matched i rest =>
      b <-! scan_u rest;;
      match b with
      | Eof => Ok (i, r_size r, [])
      | Mismatch rest => Ok (i, r_size r, rest)
      | Matched s rest => Ok (i, Some s, rest)
      end
  end.

(** %ud: a number and, if it follows, the letter d. *)
Definition read_index (r : reader) (l : list Z) : res (Z * list Z) :=
  a <-! scan_u l;;
  match a with
  | Eof => Err AssertFail
  | Mismatch rest => Ok (r_index r, rest)
  | Matched i rest => Ok (i, match rest with c :: rest' => if c =? 100 then rest' else rest | [] => [] end)
  end.

(** A request of the kinds a and r: the int that was read becomes a size_t. *)
Definition read_sized (ty : optype) (r : reader) (l : list Z) : res (reader * list Z) :=
  '(i, s, rest) <-! read_index_size r l;;
  match s with
  | None => Err UB
  | Some sz => Ok (mkReader i s (if r_max r <? i then i else r_max r) (r_ops r ++ [mkOp ty i (u64 sz)]), rest)
  end.

Definition read_request (num_ops : Z) (word : list Z) (r : reader) (l : list Z) : res (reader * list Z) :=
  if num_ops <=? Z.of_nat (length (r_ops r)) then Err UB
  else
    match word with
    | 97 :: _ => read_sized ALLOC r l
    | 114 :: _ => read_sized REALLOC r l
    | 102 :: _ =>
        '(i, rest) <-! read_index r l;;
        Ok (mkReader i (r_size r) (r_max r) (r_ops r ++ [mkOp FREE i (junk (length (r_ops r)))]), rest)
    | _ => Err (Exit 1)
    end.

(** The loop over the requests; every iteration consumes a word. *)
Fixpoint read_requests (fuel : nat) (num_ops : Z) (r : reader) (l : list Z) : res reader :=
  match fuel with
  | O => Err OutOfFuel
  | S fuel =>
      w <-! scan_s l;;
      match w with
      | Matched word rest =>
          '(r, rest) <-! read_request num_ops word r rest;;
          if Z.of_nat (length (r_ops r)) =? num_ops then Ok r else read_requests fuel num_ops r rest
      | _ => Ok r
      end
  end.

Definition read_trace (file : list Z) : res trace_t :=
  '(weight, l) <-! read_field file;;
  '(num_ids, l) <-! read_field l;;
  '(num_ops, l) <-! read_field l;;
  '(ignore_ranges, l) <-! read_field l;;
  if negb (weight =? 0) && negb (weight =? 1) then Err (Exit 1)
  else if negb (ignore_ranges =? 0) && negb (ignore_ranges =? 1) then Err (Exit 1)
  else if (num_ops <? 0) || (num_ids <? 0) then Err (Exit 1)
  else
    r <-! read_requests (S (length l)) num_ops (mkReader 0 None 0 []) l;;
    if (r_max r =? num_ids - 1) && (num_ops =? Z.of_nat (length (r_ops r))) then
      Ok (mkTrace (negb (ignore_ranges =? 0)) (Z.to_nat num_ids) weight (r_ops r))
    else Err AssertFail.

End reading.

(** ** Printing a trace *)

Definition print_int (v : Z) : list Z := if v <? 0 then 45 :: dec (- v) else dec v.

Definition print_op (o : traceop) : list Z :=
  match type o with
  | ALLOC => [97; 32] ++ print_int (index o) ++ [32] ++ print_int (s64 (size o)) ++ [10]
  | REALLOC => [114; 32] ++ print_int (index o) ++ [32] ++ print_int (s64 (size o)) ++ [10]
  | FREE => [102; 32] ++ print_int (index o) ++ [10]
  end.

Definition print_trace (t : trace_t) : list Z :=
  print_int (weight t) ++ [10] ++ print_int (Z.of_nat (num_ids t)) ++ [10] ++ print_int (Z.of_nat (length (ops t))) ++ [10] ++
  print_int (b2z (ignore_ranges t)) ++ [10] ++ mjoin (print_op <$> ops t).

Definition is_int (x : Z) : Prop := - 2 ^ 31 <= x < 2 ^ 31.

(** The largest block number of the requests that allocate. *)
Definition max_index (l : list traceop) : Z :=
  fold_left (fun m o => match type o with FREE => m | _ => Z.max m (index o) end) l 0.

(** Numbers that the file can spell: the size of a request is an int as a size_t. *)
Definition int_size (x : Z) : Prop := 0 <= x < 2 ^ 31 \/ 2 ^ 64 - 2 ^ 31 <= x < 2 ^ 64.
Definition op_fits (o : traceop) : Prop := is_int (index o) /\ (type o <> FREE -> int_size (size o)).

Record trace_ok (t : trace_t) : Prop := {
  to_weight : weight t = 0 \/ weight t = 1;
  to_ids : Z.of_nat (num_ids t) < 2 ^ 31;
  to_ops : ops t <> [] /\ Z.of_nat (length (ops t)) < 2 ^ 31;
  to_ints : Forall op_fits (ops t);
  to_max : max_index (ops t) = Z.of_nat (num_ids t) - 1
}.

(** Requests that are the same; the size of a free() does not matter. *)
Definition same_op (o o' : traceop) : Prop :=
  type o = type o' /\ index o = index o' /\ (type o <> FREE -> size o = size o').

(** ** Reading it again *)

Lemma scan_digits_run cs ds acc rest :
  Forall2 (fun c d => c = 48 + d /\ 0 <= d < 10) cs ds ->
  match rest with c :: _ => (48 <=? c) && (c <=? 57) = false | [] => True end ->
  scan_digits (cs ++ rest) acc = (value_from 10 acc ds, rest).
Proof.
  intros Hcs Hr. revert acc. induction Hcs as [|c d cs ds [-> Hd] _ IH]; intros acc; cbn [app].
  - destruct rest as [|c rest]; cbn [scan_digits]; [done|]. by rewrite Hr.
  - cbn [scan_digits]. replace ((48 <=? 48 + d) && (48 + d <=? 57)) with true by lia. rewrite IH.
    change (value_from 10 acc (d :: ds)) with (value_from 10 (acc * 10 + d) ds). do 2 f_equal. lia.
Qed.

(** A printed number before a character that ends it. *)
Lemma scan_number_run v c rest :
  - 2 ^ 32 < v < 2 ^ 32 -> isspace c = true ->
  scan_number (print_int v ++ c :: rest) = Matched (v <? 0, Z.abs v) (c :: rest).
Proof.
  intros Hv Hc. assert (exists d cs, dec (Z.abs v) = d :: cs /\ 48 <= d <= 57) as (d & cs & Ed & Hd).
  { pose proof (dec_spells (Z.abs v) ltac:(lia)) as Hs. destruct (numeral_spec 10 (Z.abs v)) as (_ & _ & Hne); [lia..|].
    destruct Hs as [|d x cs xs [-> Hx] _]; [done|]. exists (48 + x), cs. split; [done|lia]. }
  assert (Hsd : scan_digits (dec (Z.abs v) ++ c :: rest) 0 = (Z.abs v, c :: rest)).
  { rewrite (scan_digits_run _ (numeral 10 (Z.abs v))); [|apply dec_spells; lia|unfold isspace in Hc; lia].
    by rewrite (proj1 (numeral_spec 10 (Z.abs v) ltac:(lia) ltac:(lia))). }
  unfold print_int, scan_number. destruct (Z.ltb_spec v 0) as [Hn|Hn].
  - replace (- v) with (Z.abs v) by lia. cbn [app skip_space]. change (isspace 45) with false. cbn [scan_sign].
    rewrite Ed in *. cbn [app]. change (45 =? 45) with true. cbv iota.
    replace ((48 <=? d) && (d <=? 57)) with true by lia. cbn [app] in Hsd. by rewrite Hsd.
  - replace v with (Z.abs v) at 1 by lia. rewrite Ed in *. cbn [app skip_space].
    replace (isspace d) with false by (unfold isspace; lia). cbn [scan_sign].
    replace (d =? 45) with false by lia. replace (d =? 43) with false by lia.
    replace ((48 <=? d) && (d <=? 57)) with true by lia. cbn [app] in Hsd. by rewrite Hsd.
Qed.

Lemma skip_one_space l : scan_number (32 :: l) = scan_number l /\ scan_number (10 :: l) = scan_number l.
Proof. done. Qed.

Lemma scan_u_run v c rest :
  is_int v -> isspace c = true -> scan_u (32 :: print_int v ++ c :: rest) = Ok (Matched v (c :: rest)).
Proof.
  intros Hv Hc. unfold is_int in Hv. unfold scan_u. rewrite (proj1 (skip_one_space _)), scan_number_run by (done || lia).
  replace (Z.abs v <? 2 ^ 32) with true by lia. do 2 f_equal.
  destruct (Z.ltb_spec v 0); rewrite wrapS_small by lia; lia.
Qed.

Lemma read_field_run v rest pre :
  is_int v -> pre = [] \/ pre = [10] -> read_field (pre ++ print_int v ++ 10 :: rest) = Ok (v, 10 :: rest).
Proof.
  intros Hv Hp. unfold is_int in Hv. unfold read_field, scan_d.
  assert (scan_number (pre ++ print_int v ++ 10 :: rest) = scan_number (print_int v ++ 10 :: rest)) as ->.
  { destruct Hp as [-> | ->]; [done|apply skip_one_space]. }
  rewrite scan_number_run by (done || lia).
  assert ((if v <? 0 then - Z.abs v else Z.abs v) = v) as -> by (destruct (Z.ltb_spec v 0); lia).
  rewrite wrapS_small by lia. by rewrite Z.eqb_refl.
Qed.

Lemma read_field_first v rest : is_int v -> read_field (print_int v ++ [10] ++ rest) = Ok (v, 10 :: rest).
Proof. intros Hv. exact (read_field_run v rest [] Hv (or_introl eq_refl)). Qed.

Lemma read_field_next v rest : is_int v -> read_field (10 :: print_int v ++ [10] ++ rest) = Ok (v, 10 :: rest).
Proof. intros Hv. exact (read_field_run v rest [10] Hv (or_intror eq_refl)). Qed.

(** The int of a size, and back. *)
Lemma int_size_spec x : int_size x -> is_int (s64 x) /\ u64 (s64 x) = x.
Proof.
  intros [Hx|Hx]; unfold is_int.
  - rewrite wrapS_small by lia. split; [lia|]. apply wrapU_small. lia.
  - assert (s64 x = x - 2 ^ 64) as ->.
    { unfold wrapS. replace (x + 2 ^ (64 - 1)) with (x - 2 ^ 63 + 1 * 2 ^ 64) by lia. rewrite Z.mod_add, Z.mod_small by lia. lia. }
    split; [lia|]. unfold wrapU. replace (x - 2 ^ 64) with (x + -1 * 2 ^ 64) by lia. rewrite Z.mod_add, Z.mod_small by lia. done.
Qed.

Section rereading.
Context (junk : nat -> Z).

(** One line. *)
Lemma request_run n o r tail :
  op_fits o -> Z.of_nat (length (r_ops r)) < n ->
  exists word mid r' o', scan_s (10 :: print_op o ++ tail) = Ok (Matched word mid) /\
    read_request junk n word r mid = Ok (r', 10 :: tail) /\
    r_ops r' = r_ops r ++ [o'] /\ same_op o o' /\
    r_max r' = match type o with FREE => r_max r | _ => Z.max (r_max r) (index o) end.
Proof.
  intros [Hi Hs] Hn.
  assert (forall i, Z.max (r_max r) i = if r_max r <? i then i else r_max r) as Hmax by (intros i; destruct (Z.ltb_spec (r_max r) i); lia).
  destruct o as [ty i s]. cbn [index size type] in *. unfold print_op. cbn [index size type].
  assert (forall ty c, int_size s -> ty <> FREE -> c = (match ty with ALLOC => 97 | _ => 114 end) ->
    exists word mid r' o', scan_s (10 :: ([c; 32] ++ print_int i ++ [32] ++ print_int (s64 s) ++ [10]) ++ tail) = Ok (Matched word mid) /\
      read_request junk n word r mid = Ok (r', 10 :: tail) /\
      r_ops r' = r_ops r ++ [o'] /\ same_op (mkOp ty i s) o' /\ r_max r' = Z.max (r_max r) i) as Hsized.
  { intros ty' c Hsz Hty Hc. destruct (int_size_spec s Hsz) as [Hint Hback]. exists [c], (32 :: print_int i ++ 32 :: print_int (s64 s) ++ 10 :: tail),
      (mkReader i (Some (s64 s)) (Z.max (r_max r) i) (r_ops r ++ [mkOp ty' i s])), (mkOp ty' i s).
    split.
    { rewrite <- !app_assoc. destruct ty'; subst c; [|done|]; reflexivity. }
    split; [|done]. unfold read_request. replace (n <=? Z.of_nat (length (r_ops r))) with false by lia.
    assert (read_sized ty' r (32 :: print_int i ++ 32 :: print_int (s64 s) ++ 10 :: tail) =
      Ok (mkReader i (Some (s64 s)) (Z.max (r_max r) i) (r_ops r ++ [mkOp ty' i s]), 10 :: tail)) as E.
    { unfold read_sized, read_index_size. rewrite scan_u_run by done. cbn [rbind]. rewrite scan_u_run by done. cbn [rbind].
      by rewrite Hmax, Hback. }
    destruct ty'; subst c; [exact E|done|exact E]. }
  destruct ty.
  - by apply Hsized; [apply Hs|..].
  - exists [102], (32 :: print_int i ++ 10 :: tail),
      (mkReader i (r_size r) (r_max r) (r_ops r ++ [mkOp FREE i (junk (length (r_ops r)))])), (mkOp FREE i (junk (length (r_ops r)))).
    split; [rewrite <- !app_assoc; reflexivity|]. split; [|done].
    unfold read_request, read_index. replace (n <=? Z.of_nat (length (r_ops r))) with false by lia.
    rewrite scan_u_run by done. reflexivity.
  - by apply Hsized; [apply Hs|..].
Qed.

Lemma requests_run l n r rest fuel :
  l <> [] -> Forall op_fits l ->
  n = Z.of_nat (length (r_ops r) + length l) -> (length l <= fuel)%nat ->
  exists r' l', read_requests junk fuel n r (10 :: mjoin (print_op <$> l) ++ rest) = Ok r' /\
    r_ops r' = r_ops r ++ l' /\ Forall2 same_op l l' /\
    r_max r' = fold_left (fun m o => match type o with FREE => m | _ => Z.max m (index o) end) l (r_max r).
Proof.
  intros Hne Hl. revert r fuel Hne. induction Hl as [|o l Ho _ IH]; intros r fuel Hne Hn Hf; [done|].
  destruct fuel as [|fuel]; [cbn in Hf; lia|]. cbn [length] in *.
  change (mjoin (print_op <$> o :: l)) with (print_op o ++ mjoin (print_op <$> l)). rewrite <- app_assoc.
  destruct (request_run n o r (mjoin (print_op <$> l) ++ rest) Ho ltac:(lia)) as (w & mid & r1 & o' & E1 & E2 & Eo & Hsame & Em).
  cbn [read_requests]. rewrite E1. cbn [rbind]. rewrite E2. cbn [rbind].
  assert (length (r_ops r1) = S (length (r_ops r))) as Hlen by (rewrite Eo, length_app; cbn; lia). rewrite Hlen.
  destruct l as [|o2 l].
  - replace (Z.of_nat (S (length (r_ops r))) =? n) with true by (symmetry; apply Z.eqb_eq; cbn in Hn; lia).
    exists r1, [o']. split; [done|]. split; [done|]. split; [by apply Forall2_cons; split|]. exact Em.
  - replace (Z.of_nat (S (length (r_ops r))) =? n) with false by (symmetry; apply Z.eqb_neq; cbn in Hn; lia).
    destruct (IH r1 fuel) as (r' & l' & E & Er & Hl' & Emax); [done|cbn in *; lia|cbn in *; lia|].
    exists r', (o' :: l'). split; [exact E|]. split; [rewrite Er, Eo, <- app_assoc; done|]. split; [by constructor|].
    rewrite Emax, Em. reflexivity.
Qed.
End rereading.

Lemma print_op_length l : (length l <= length (mjoin (print_op <$> l)))%nat.
Proof.
  induction l as [|o l IH]; [done|]. change (mjoin (print_op <$> o :: l)) with (print_op o ++ mjoin (print_op <$> l)).
  rewrite length_app. cbn [length]. assert (1 <= length (print_op o))%nat; [|lia].
  destruct o as [[] i s]; cbn; lia.
Qed.

Lemma read_trace_run junk t rest :
  trace_ok t ->
  exists l', read_trace junk (print_trace t ++ rest) = Ok (mkTrace (ignore_ranges t) (num_ids t) (weight t) l') /\
             Forall2 same_op (ops t) l'.
Proof.
  intros [Hw Hid [Hne Hlen] Hints Hmax]. unfold read_trace, print_trace. rewrite <- !app_assoc.
  assert (is_int (weight t)) by (unfold is_int; lia). assert (is_int (b2z (ignore_ranges t))) by (unfold is_int; destruct (ignore_ranges t); cbn; lia).
  assert (is_int (Z.of_nat (num_ids t))) by (unfold is_int; lia). assert (is_int (Z.of_nat (length (ops t)))) by (unfold is_int; lia).
  rewrite read_field_first by done. cbn [rbind]. do 3 (rewrite read_field_next by done; cbn [rbind]).
  replace (negb (weight t =? 0) && negb (weight t =? 1)) with false by lia.
  replace (negb (b2z (ignore_ranges t) =? 0) && negb (b2z (ignore_ranges t) =? 1)) with false by (by destruct (ignore_ranges t)).
  replace ((Z.of_nat (length (ops t)) <? 0) || (Z.of_nat (num_ids t) <? 0)) with false by lia.
  destruct (requests_run junk (ops t) (Z.of_nat (length (ops t))) (mkReader 0 None 0 []) rest
    (S (length (10 :: mjoin (print_op <$> ops t) ++ rest)))) as (r & l' & E & Er & Hl & Em); [done|done|done| |].
  { pose proof (print_op_length (ops t)). cbn [length]. rewrite length_app. lia. }
  rewrite E. cbn [rbind r_ops app r_max] in *.
  change (fold_left _ (ops t) 0) with (max_index (ops t)) in Em. rewrite Em, Hmax, Er, Z.eqb_refl.
  rewrite (Forall2_length _ _ _ Hl), Z.eqb_refl. cbn [andb].
  exists l'. split; [|done]. do 2 f_equal; [by destruct (ignore_ranges t)|lia].
Qed.

(** ** Termination *)

Definition shorter {A} (r : scanned A) (l : list Z) : Prop :=
  match r with Matched _ rest | Mismatch rest => (length rest <= length l)%nat | Eof => True end.

Lemma skip_space_length l : (length (skip_space l) <= length l)%nat.
Proof. induction l as [|c l IH]; cbn [skip_space]; [done|]. destruct (isspace c); cbn; lia. Qed.

Lemma scan_digits_length l acc : (length (scan_digits l acc).2 <= length l)%nat.
Proof.
  revert acc. induction l as [|c l IH]; intros acc; cbn [scan_digits]; [done|].
  destruct (_ && _); [|done]. specialize (IH (10 * acc + (c - 48))). cbn. lia.
Qed.

Lemma scan_sign_length l : (length (scan_sign l).2 <= length l)%nat.
Proof. destruct l as [|c l]; [done|]. cbn [scan_sign]. destruct (c =? 45), (c =? 43); cbn; lia. Qed.

Lemma scan_number_shorter l : shorter (scan_number l) l.
Proof.
  unfold scan_number. pose proof (skip_space_length l) as Hs. destruct (skip_space l) as [|c k]; [done|].
  pose proof (scan_sign_length (c :: k)) as Hg. destruct (scan_sign (c :: k)) as [neg k2]. cbn [snd] in Hg.
  destruct k2 as [|c2 k2]; cbn [shorter]; [lia|]. destruct (_ && _); [|cbn [shorter]; lia].
  pose proof (scan_digits_length (c2 :: k2) 0) as Hd. destruct (scan_digits _ _) as [n rest]. cbn [snd] in Hd. cbn [shorter]. lia.
Qed.

Lemma scan_u_shorter l r : scan_u l = Ok r -> shorter r l.
Proof.
  unfold scan_u. pose proof (scan_number_shorter l) as H. destruct (scan_number l) as [|rest|[neg n] rest].
  - by intros [= <-].
  - by intros [= <-].
  - destruct (_ <? _); [|done]. by intros [= <-].
Qed.

Lemma scan_word_length l : length l = (length (scan_word l).1 + length (scan_word l).2)%nat.
Proof.
  induction l as [|c l IH]; cbn [scan_word]; [done|]. destruct (isspace c); [done|].
  destruct (scan_word l) as [w rest]. cbn in *. lia.
Qed.

Lemma skip_space_head l c k : skip_space l = c :: k -> isspace c = false.
Proof. induction l as [|x l IH]; cbn [skip_space]; [done|]. destruct (isspace x) eqn:E; [done|]. intros [= <- <-]. done. Qed.

Lemma scan_s_shorter l w rest : scan_s l = Ok (Matched w rest) -> (length rest < length l)%nat.
Proof.
  unfold scan_s. pose proof (skip_space_length l) as Hs. destruct (skip_space l) as [|c k] eqn:E; [done|].
  pose proof (scan_word_length (c :: k)) as Hw. cbn [scan_word] in *. rewrite (skip_space_head _ _ _ E) in *.
  destruct (scan_word k) as [w' r']. cbn [fst snd length] in *. destruct (_ <? _); [|done]. intros [= <- <-]. lia.
Qed.

(** A scan either moves forward or fails for a reason other than the bound of the loop. *)
Definition scans (n : nat) (m : res (reader * list Z)) : Prop :=
  match m with Ok (_, rest) => (length rest <= n)%nat | Err f => f <> OutOfFuel end.

Lemma scan_u_scans l : match scan_u l with Ok r => shorter r l | Err f => f <> OutOfFuel end.
Proof.
  destruct (scan_u l) as [r|f] eqn:E; [by apply scan_u_shorter|]. revert E. unfold scan_u.
  destruct (scan_number l) as [|?|[? ?] ?]; try done. destruct (_ <? _); [done|]. by intros [= <-].
Qed.

Lemma read_sized_scans ty r l : scans (length l) (read_sized ty r l).
Proof.
  unfold read_sized, read_index_size. pose proof (scan_u_scans l) as H.
  destruct (scan_u l) as [[|k|i k]|f]; cbn [rbind shorter] in *; [done|destruct (r_size r); done| |done].
  pose proof (scan_u_scans k) as H2.
  destruct (scan_u k) as [[|k2|s k2]|f]; cbn [rbind shorter] in *; [destruct (r_size r)|destruct (r_size r)| |]; cbn; done || lia.
Qed.

Lemma read_request_scans junk n w r l : scans (length l) (read_request junk n w r l).
Proof.
  unfold read_request. destruct (_ <=? _); [done|]. destruct w as [|c w]; [done|].
  assert (c = 97 \/ c = 114 \/ c = 102 \/ (c <> 97 /\ c <> 114 /\ c <> 102)) as [-> |[-> |[-> |(H1 & H2 & H3)]]] by lia.
  - apply read_sized_scans.
  - apply read_sized_scans.
  - unfold read_index. pose proof (scan_u_scans l) as H.
    destruct (scan_u l) as [[|k|i k]|f]; cbn [rbind shorter scans] in *; try done.
    destruct k as [|c k]; [cbn; lia|]. destruct (c =? 100); cbn in *; lia.
  - destruct c as [|c|c]; try done. repeat (destruct c as [c|c|]; try done).
Qed.

Lemma read_requests_terminates junk fuel n r l : (length l < fuel)%nat -> read_requests junk fuel n r l <> Err OutOfFuel.
Proof.
  revert r l. induction fuel as [|fuel IH]; intros r l Hf; [lia|]. cbn [read_requests].
  destruct (scan_s l) as [[|rest|w rest]|f] eqn:E; cbn [rbind]; [done|done| |].
  - apply scan_s_shorter in E. pose proof (read_request_scans junk n w r rest) as H.
    destruct (read_request junk n w r rest) as [[r' rest']|f]; cbn [rbind scans] in *; [|congruence].
    destruct (_ =? _); [done|]. apply IH. lia.
  - intros [= ->]. revert E. unfold scan_s. destruct (skip_space l); [done|]. destruct (scan_word _). by destruct (_ <? _).
Qed.

Lemma read_field_faults l : read_field l <> Err OutOfFuel.
Proof.
  unfold read_field, scan_d. destruct (scan_number l) as [|?|[neg n] ?]; cbn [rbind]; try done.
  by destruct (s32 _ =? _).
Qed.

Lemma read_trace_terminates junk file : read_trace junk file <> Err OutOfFuel.
Proof.
  unfold read_trace. do 4 (match goal with |- context [read_field ?l] => pose proof (read_field_faults l); destruct (read_field l) as [[? ?]|?] end;
    cbn [rbind]; [|congruence]).
  destruct (_ && _); [done|]. destruct (_ && _); [done|]. destruct (_ || _); [done|].
  match goal with |- context [read_requests ?j ?f ?n ?r ?l] => pose proof (read_requests_terminates j f n r l (Nat.lt_succ_diag_r _));
    destruct (read_requests j f n r l) end; cbn [rbind]; [|congruence]. by destruct (_ && _).
Qed.

(** ** The claim *)

Lemma op_status_same st o o' : same_op o o' -> op_status st o = op_status st o'.
Proof.
  destruct o as [ty i s], o' as [ty' i' s']. intros (Et & Ei & Es). cbn [type index size] in *. subst ty' i'. unfold op_status. cbn [type index size].
  destruct ty; [rewrite Es by done; done|done|rewrite Es by done; done].
Qed.

Lemma wf_ops_same st l l' : Forall2 same_op l l' -> wf_ops st l = wf_ops st l'.
Proof.
  intros H. revert st. induction H as [|o o' l l' Ho _ IH]; intros st; [done|]. cbn [wf_ops].
  rewrite (op_status_same _ _ _ Ho). destruct (op_status st o'); [apply IH|done].
Qed.

(** C22: Reading a trace file returns the trace that the file spells, whatever
    the array of requests held before and whatever follows the last request:
    the same weight, number of blocks, requests in order with their block
    numbers and sizes (a negative size as the large size_t that it becomes), and the driver's judgement of whether the trace makes
    sense is the same.  On any file at all, valid or not, reading ends. *)
Theorem read_trace_roundtrip junk :
  (forall t rest, trace_ok t ->
     exists t', read_trace junk (print_trace t ++ rest) = Ok t' /\
       ignore_ranges t' = ignore_ranges t /\ num_ids t' = num_ids t /\ weight t' = weight t /\
       Forall2 same_op (ops t) (ops t') /\ wf_trace t' = wf_trace t) /\
  (forall file, read_trace junk file <> Err OutOfFuel).
Proof.
  split; [|apply read_trace_terminates]. intros t rest Ht. destruct (read_trace_run junk t rest Ht) as (l' & E & H).
  eexists. split; [exact E|]. do 4 (split; [done|]). symmetry. by apply wf_ops_same.
Qed.

Definition sample_trace : trace_t :=
  mkTrace false 2 1 [mkOp ALLOC 0 2040; mkOp ALLOC 1 16; mkOp FREE 1 7; mkOp REALLOC 0 99; mkOp ALLOC 1 (2 ^ 64 - 1); mkOp FREE (-1) 0].

Example print_sample : print_trace sample_trace =
  [49;10; 50;10; 54;10; 48;10; 97;32;48;32;50;48;52;48;10; 97;32;49;32;49;54;10; 102;32;49;10; 114;32;48;32;57;57;10; 97;32;49;32;45;49;10; 102;32;45;49;10].
Proof. vm_compute. reflexivity. Qed.

Lemma read_trace_roundtrip_witness :
  trace_ok sample_trace /\
  exists t', read_trace (fun _ => 0) (print_trace sample_trace ++ []) = Ok t' /\
    ignore_ranges t' = false /\ num_ids t' = 2%nat /\ weight t' = 1 /\
    Forall2 same_op (ops sample_trace) (ops t') /\ wf_trace t' = wf_trace sample_trace.
Proof.
  assert (H : trace_ok sample_trace).
  { split; [right; reflexivity|cbn; lia|split; [discriminate|cbn; lia]| |reflexivity].
    repeat (apply Forall_cons; split; [split; unfold is_int, int_size; cbn; lia|]). apply Forall_nil. exact I. }
  split; [exact H|]. exact (proj1 (read_trace_roundtrip (fun _ => 0)) sample_trace [] H).
Defined.

(** Errors: an unknown request, a file that ends early, one request too few and a block number that is missing. *)
Example bogus_request : read_trace (fun _ => 0) [49;10; 49;10; 49;10; 48;10; 120;10] = Err (Exit 1).
Proof. vm_compute. reflexivity. Qed.
Example short_file : read_trace (fun _ => 0) [49;10; 49;10] = Err AssertFail.
Proof. vm_compute. reflexivity. Qed.
Example missing_request : read_trace (fun _ => 0) [49;10; 49;10; 50;10; 48;10; 97;32;48;32;56;10] = Err AssertFail.
Proof. vm_compute. reflexivity. Qed.
Example missing_block : read_trace (fun _ => 0) [49;10; 50;10; 49;10; 48;10; 97;32;48;32;56;10] = Err AssertFail.
Proof. vm_compute. reflexivity. Qed.
Example uninitialised_size : read_trace (fun _ => 0) [49;10; 49;10; 49;10; 48;10; 97;32;120;10] = Err UB.
Proof. vm_compute. reflexivity. Qed.
