(* ===== verification/Fcyc.v ===== *)
(** * Timing of the malloc driver (malloc/driver/fcyc.c, fsecs.c and the cycle
      counter of clock.c)

    A double is a [spec_float] of the Standard Library with 53 bits of
    precision, and its operations are those of IEEE 754.  The processor's cycle
    counter is a sequence of readings; so are the results of
    get_comp_counter(), whose calibration waits for timer ticks.  The function
    under measurement has no effect here.

    The theorem: fcyc() measures until the K best samples agree or the limit is
    reached, and returns the smallest sample. *)
From stdpp Require Import prelude list sorting.
From Stdlib Require Import ZArith Lia.
From Stdlib Require Import Floats.SpecFloat.
From S2P Require Import Prelude.
Open Scope Z_scope.
Open Scope c_scope.

Abbreviation double := spec_float.

(** ** Doubles *)

Definition dadd : double -> double -> double := SFadd 53 1024.
Definition dmul : double -> double -> double := SFmul 53 1024.
Definition ddiv : double -> double -> double := SFdiv 53 1024.
(** The conversion of an integer. *)
Definition of_int (n : Z) : double := binary_normalize 53 1024 n 0 false.
(** The literal m / 10^e, rounded once. *)
Definition literal (m e : Z) : double := ddiv (of_int m) (of_int (10 ^ e)).
(** Comparisons with a value that is not a number are false. *)
Definition dlt (a b : double) : bool := SFltb a b.
Definition dge (a b : double) : bool := SFleb b a.
Definition deq (a b : double) : bool := SFeqb a b.

(** ** The cycle counter (clock.c) *)

(** access_counter(): the halves of the time stamp counter. *)
Definition access_counter (tsc : Z) : Z * Z := (u32 (Z.shiftr tsc 32), u32 tsc).

(** The subtraction of get_counter(), on unsigned halves. *)
Definition elapsed (cyc now : Z * Z) : Z * Z :=
  let '(cyc_hi, cyc_lo) := cyc in
  let '(ncyc_hi, ncyc_lo) := now in
  let lo := u32 (ncyc_lo - cyc_lo) in
  let borrow := b2z (ncyc_lo <? lo) in
  let hi := u32 (ncyc_hi - cyc_hi - borrow) in
  (hi, lo).

(** get_counter() after start_counter(), with the counter at [start] and [now]. *)
Definition get_counter (start now : Z) : double :=
  let '(hi, lo) := elapsed (access_counter start) (access_counter now) in
  dadd (dmul (dmul (of_int hi) (of_int (Z.shiftl 1 30))) (of_int 4)) (of_int lo).

(** ** The sampler (fcyc.c) *)

Definition UNSET : Z := -1.

Record params := mkParams {
  kbest : Z; maxsamples : Z; epsilon : double; compensate : Z;
  clear_cache : Z; cache_bytes : Z; cache_block : Z
}.

Record sampler := mkSampler { values : list double; samplecount : Z }.

Section sampling.
Context (P : params).

(** init_sampler(): calloc() of a negative number of elements fails. *)
Definition init_sampler : sampler := mkSampler (replicate (Z.to_nat (kbest P)) (S754_zero false)) 0.

(** values[i] *)
Definition val (l : list double) (i : Z) : res double :=
  if i <? 0 then Err UB else match l !! Z.to_nat i with Some v => Ok v | None => Err UB end.
Definition set_val (l : list double) (i : Z) (v : double) : res (list double) :=
  if (0 <=? i) && (i <? Z.of_nat (length l)) then Ok (<[Z.to_nat i := v]> l) else Err UB.

(** The insertion sort of add_sample(), from position [pos] down. *)
Fixpoint sift (pos : nat) (l : list double) : res (list double) :=
  match pos with
  | O => Ok l
  | S p =>
      a <-! val l (Z.of_nat p);;
      b <-! val l (Z.of_nat pos);;
      if dlt b a then
        l1 <-! set_val l (Z.of_nat p) b;;
        l2 <-! set_val l1 (Z.of_nat pos) a;;
        sift p l2
      else Ok l
  end.

Definition add_sample (v : double) (s : sampler) : res sampler :=
  '(pos, l) <-!
    (if samplecount s <? kbest P then
       l <-! set_val (values s) (samplecount s) v;; Ok (samplecount s, l)
     else
       last <-! val (values s) (kbest P - 1);;
       if dlt v last then l <-! set_val (values s) (kbest P - 1) v;; Ok (kbest P - 1, l)
       else Ok (0, values s));;
  l' <-! sift (Z.to_nat pos) l;;
  Ok (mkSampler l' (samplecount s + 1)).

Definition has_converged (s : sampler) : res bool :=
  if kbest P <=? samplecount s then
    best <-! val (values s) 0;;
    worst <-! val (values s) (kbest P - 1);;
    Ok (dge (dmul (dadd (of_int 1) (epsilon P)) best) worst)
  else Ok false.

(** clear(): reads one int of every cache block; a step of zero never ends.
    malloc() of a negative number of bytes fails, and any other call succeeds. *)
Fixpoint clear_loop (fuel : nat) (cptr cend incr : Z) : res unit :=
  match fuel with
  | O => Err OutOfFuel
  | S f => if cptr <? cend then clear_loop f (cptr + incr) cend incr else Ok tt
  end.

Definition clear : res unit :=
  let incr := s32 (u64 (cache_block P) / 4) in
  let cend := u64 (cache_bytes P) / 4 in
  if cache_bytes P <? 0 then Err (Exit 1) else clear_loop (S (Z.to_nat cend)) 0 cend incr.

(** The do loop of fcyc(); [samples i] is the result of the i-th measurement. *)
Fixpoint measure (fuel : nat) (samples : nat -> double) (i : nat) (s : sampler) : res sampler :=
  match fuel with
  | O => Err OutOfFuel
  | S f =>
      _ <-! (if negb (clear_cache P =? 0) then clear else Ok tt);;
      s' <-! add_sample (samples i) s;;
      done <-! has_converged s';;
      if negb done && (samplecount s' <? maxsamples P) then measure f samples (S i) s' else Ok s'
  end.

Definition parameters_unset : bool :=
  (kbest P =? UNSET) || (maxsamples P =? UNSET) || deq (epsilon P) (of_int UNSET) ||
  (compensate P =? UNSET) || (clear_cache P =? UNSET) ||
  (negb (clear_cache P =? 0) && ((cache_bytes P =? UNSET) || (cache_block P =? UNSET))).

(** The i-th measurement reads the counter before and after the call. *)
Definition measured (tsc : nat -> Z) (comp : nat -> double) (i : nat) : double :=
  if negb (compensate P =? 0) then comp i else get_counter (tsc (2 * i)%nat) (tsc (2 * i + 1)%nat).

Definition fcyc (tsc : nat -> Z) (comp : nat -> double) : res double :=
  if parameters_unset then Err (Exit 1)
  else
    s <-! measure (S (Z.to_nat (maxsamples P))) (measured tsc comp) 0 init_sampler;;
    val (values s) 0.

End sampling.

(** ** fsecs.c *)

(** The parameters that init_fsecs() sets, and mhz(). *)
Definition init_fsecs : params := mkParams 10 100 (literal 1 2) 0 1 (Z.shiftl 1 19) 64.
Definition mhz : double := of_int 2000.

Definition fsecs (tsc : nat -> Z) (comp : nat -> double) : res double :=
  cycles <-! fcyc init_fsecs tsc comp;;
  Ok (ddiv cycles (dmul mhz (of_int 1000000))).

(** ** A reference: the K best of all samples *)

(** Insertion behind the elements that are not greater. *)
Fixpoint insert_sample (x : double) (l : list double) : list double :=
  match l with
  | [] => [x]
  | y :: l' => if dlt x y then x :: l else y :: insert_sample x l'
  end.

Definition sort_samples (l : list double) : list double := fold_left (fun l x => insert_sample x l) l [].

(** The first [n] samples. *)
Definition taken (samples : nat -> double) (n : nat) : list double := samples <$> seq 0 n.

(** After [n] samples the K best are within the tolerance of each other. *)
Definition agree (P : params) (samples : nat -> double) (n : nat) : Prop :=
  exists best worst, kbest P <= Z.of_nat n /\
    sort_samples (taken samples n) !! 0%nat = Some best /\
    sort_samples (taken samples n) !! Z.to_nat (kbest P - 1) = Some worst /\
    dge (dmul (dadd (of_int 1) (epsilon P)) best) worst = true.

(** ** The order of doubles

    Apart from values that are not numbers, the comparison is the lexicographic order
    of sign, exponent and mantissa. *)

Definition is_number (x : double) : Prop := x <> S754_nan.

Definition key (x : double) : Z * Z * Z :=
  match x with
  | S754_infinity true => (-2, 0, 0)
  | S754_finite true m e => (-1, - e, - Z.pos m)
  | S754_zero _ | S754_nan => (0, 0, 0)
  | S754_finite false m e => (1, e, Z.pos m)
  | S754_infinity false => (2, 0, 0)
  end.

Definition key_lt (a b : Z * Z * Z) : Prop :=
  let '(a1, a2, a3) := a in let '(b1, b2, b3) := b in
  a1 < b1 \/ (a1 = b1 /\ (a2 < b2 \/ (a2 = b2 /\ a3 < b3))).

Lemma key_lt_trans a b c : key_lt a b -> key_lt b c -> key_lt a c.
Proof. destruct a as [[? ?] ?], b as [[? ?] ?], c as [[? ?] ?]. unfold key_lt. lia. Qed.

Lemma key_ge_trans a b c : ~ key_lt b a -> ~ key_lt c b -> ~ key_lt c a.
Proof. destruct a as [[? ?] ?], b as [[? ?] ?], c as [[? ?] ?]. unfold key_lt. lia. Qed.

Lemma key_lt_irrefl a : ~ key_lt a a.
Proof. destruct a as [[? ?] ?]. unfold key_lt. lia. Qed.

Lemma compare_key x y : is_number x -> is_number y ->
  exists c, SFcompare x y = Some c /\ (c = Lt <-> key_lt (key x) (key y)) /\ (c = Gt <-> key_lt (key y) (key x)).
Proof.
  intros Hx Hy. unfold is_number in *.
  destruct x as [[]|[]| |[] m e], y as [[]|[]| |[] m' e']; try done; cbn [SFcompare key]; eexists; (split; [reflexivity|]).
  all: unfold key_lt; try (split; (split; [intros ?; first [discriminate|lia]|intros ?; first [reflexivity|lia]])).
  all: destruct (Z.compare_spec e e'); try (split; (split; [intros ?; first [discriminate|lia]|intros ?; first [reflexivity|lia]])).
  all: change (Pos.compare_cont Eq m m') with (Pos.compare m m'); destruct (Pos.compare_spec m m'); subst; cbn [CompOpp].
  all: split; (split; [intros ?; first [discriminate|lia]|intros ?; first [reflexivity|lia]]).
Qed.

Lemma dlt_key x y : is_number x -> is_number y -> dlt x y = true <-> key_lt (key x) (key y).
Proof.
  intros Hx Hy. destruct (compare_key x y Hx Hy) as (c & E & Hlt & _). unfold dlt, SFltb. rewrite E, <- Hlt. by destruct c.
Qed.

Lemma dge_key x y : is_number x -> is_number y -> dge x y = true <-> ~ key_lt (key x) (key y).
Proof.
  intros Hx Hy. destruct (compare_key y x Hy Hx) as (c & E & Hlt & Hgt). unfold dge, SFleb. rewrite E, <- Hgt. by destruct c.
Qed.

(** ** Sorting *)

(** [x] is not greater than [y]. *)
Definition ngt (x y : double) : Prop := dge y x = true.

Definition ordered : list double -> Prop := StronglySorted ngt.

Lemma insert_sample_perm x l : insert_sample x l ≡ₚ x :: l.
Proof. induction l as [|y l IH]; cbn; [done|]. destruct (dlt x y); [done|]. rewrite IH. by constructor. Qed.

Lemma insert_sample_sorted x l : is_number x -> Forall is_number l -> ordered l -> ordered (insert_sample x l).
Proof.
  intros Hx Hl Hs. induction Hs as [|y l Hs IH Hy]; cbn; [by repeat constructor|]. inversion_clear Hl as [|? ? Hny Hl'].
  destruct (dlt x y) eqn:E.
  - apply dlt_key in E; [|done..]. constructor; [by constructor|]. constructor; [apply dge_key; [done..|]|].
    + intros H. by apply (key_lt_irrefl (key x)), (key_lt_trans _ (key y)).
    + rewrite Forall_forall in *. intros z Hz. apply dge_key; [by apply Hl'|done|]. specialize (Hy z Hz).
      apply dge_key in Hy; [|by apply Hl'|done]. intros H. by apply Hy, (key_lt_trans _ (key x)).
  - constructor; [by apply IH|]. rewrite insert_sample_perm. constructor; [|done]. apply dge_key; [done..|].
    rewrite <- dlt_key by done. by rewrite E.
Qed.

Lemma sort_samples_spec l : Forall is_number l -> sort_samples l ≡ₚ l /\ ordered (sort_samples l).
Proof.
  unfold sort_samples. intros Hl. assert (forall a, Forall is_number a -> ordered a ->
    fold_left (fun l x => insert_sample x l) l a ≡ₚ l ++ a /\ ordered (fold_left (fun l x => insert_sample x l) l a)) as H.
  { induction Hl as [|x l Hx _ IH]; intros a Ha Hs; [done|]. cbn [fold_left].
    destruct (IH (insert_sample x a)) as [Hp Hs']; [rewrite insert_sample_perm; by constructor|by apply insert_sample_sorted|].
    split; [|done]. rewrite Hp, insert_sample_perm. by rewrite <- Permutation_middle. }
  destruct (H [] (Forall_nil_2 _) (SSorted_nil _)) as [Hp Hs]. by rewrite app_nil_r in Hp.
Qed.

Lemma sort_samples_snoc l x : sort_samples (l ++ [x]) = insert_sample x (sort_samples l).
Proof. unfold sort_samples. by rewrite fold_left_app. Qed.

(** Insertion in front of the last element, or behind it. *)
Lemma insert_before x l y : dlt x y = true -> insert_sample x (l ++ [y]) = insert_sample x l ++ [y].
Proof. intros H. induction l as [|z l IH]; cbn; [by rewrite H|]. destruct (dlt x z); [done|]. by rewrite IH. Qed.

Lemma insert_behind x l : is_number x -> Forall is_number l -> (forall y, y ∈ l -> dlt x y = false) -> insert_sample x l = l ++ [x].
Proof.
  intros Hx. induction 1 as [|y l Hy _ IH]; intros H; [done|]. cbn. rewrite (H y) by left. f_equal. apply IH. intros z Hz. apply H. by right.
Qed.

Lemma ordered_app a b : ordered (a ++ b) -> ordered a /\ ordered b /\ forall x y, x ∈ a -> y ∈ b -> ngt x y.
Proof.
  induction a as [|z a IH]; intros H; [split; [constructor|split; [done|]]; by intros x y H1%not_elem_of_nil|].
  cbn in H. inversion_clear H as [|? ? Hs Hz]. destruct (IH Hs) as (Ha & Hb & Hab). apply Forall_app in Hz as [Hza Hzb].
  split; [by constructor|]. split; [done|]. intros x y [-> |Hx]%elem_of_cons Hy; [by rewrite Forall_forall in Hzb; apply Hzb|by apply Hab].
Qed.

(** Nothing in [a ++ [y]] is greater than [x] if [y] is not. *)
Lemma ordered_below a y x z : Forall is_number (a ++ [y]) -> is_number x -> ordered (a ++ [y]) -> dlt x y = false ->
  z ∈ a ++ [y] -> dlt x z = false.
Proof.
  intros Hn Hx Ho Hxy Hz. apply not_true_iff_false. rewrite Forall_forall in Hn. assert (is_number y) as Hy by (apply Hn, elem_of_app; right; left).
  assert (is_number z) as Hnz by by apply Hn. rewrite dlt_key by done. apply not_true_iff_false in Hxy. rewrite dlt_key in Hxy by done.
  apply elem_of_app in Hz as [Hz|[-> |Hz%not_elem_of_nil]%elem_of_cons]; [|done|done].
  apply ordered_app in Ho as (_ & _ & H). specialize (H z y Hz ltac:(left)). apply dge_key in H; [|done..].
  by apply (key_ge_trans _ (key y)).
Qed.

Lemma val_app l x r : val (l ++ x :: r) (Z.of_nat (length l)) = Ok x.
Proof.
  unfold val. replace (Z.of_nat (length l) <? 0) with false by (symmetry; apply Z.ltb_ge; lia).
  by rewrite Nat2Z.id, list_lookup_middle.
Qed.

Lemma set_val_app l x r v : set_val (l ++ x :: r) (Z.of_nat (length l)) v = Ok (l ++ v :: r).
Proof.
  unfold set_val. rewrite length_app. cbn [length].
  replace ((0 <=? Z.of_nat (length l)) && (Z.of_nat (length l) <? Z.of_nat (length l + S (length r)))) with true.
  - rewrite Nat2Z.id. f_equal. rewrite <- (Nat.add_0_r (length l)). by rewrite insert_app_r.
  - symmetry. apply andb_true_iff. split; [apply Z.leb_le|apply Z.ltb_lt]; lia.
Qed.

(** The insertion sort moves the new sample to its place. *)
Lemma sift_insert l : forall x r,
  is_number x -> Forall is_number l -> ordered l -> sift (length l) (l ++ x :: r) = Ok (insert_sample x l ++ r).
Proof.
  induction l as [|y l IH] using rev_ind; intros x r Hx Hl Ho; [done|].
  rewrite length_app, Nat.add_1_r. cbn [sift]. rewrite <- (app_assoc l [y]). cbn [app]. rewrite val_app. cbn [rbind].
  assert (forall A (f : double -> res A), (b <-! val (l ++ y :: x :: r) (Z.of_nat (S (length l)));; f b) = f x) as Hval.
  { intros A f. replace (l ++ y :: x :: r) with ((l ++ [y]) ++ x :: r) by by rewrite <- app_assoc.
    replace (S (length l)) with (length (l ++ [y])) by (rewrite length_app; cbn; lia). by rewrite val_app. }
  rewrite Hval. destruct (dlt x y) eqn:E.
  - rewrite set_val_app. cbn [rbind]. replace (l ++ x :: x :: r) with ((l ++ [x]) ++ x :: r) by by rewrite <- app_assoc.
    replace (S (length l)) with (length (l ++ [x])) by (rewrite length_app; cbn; lia). rewrite set_val_app. cbn [rbind].
    rewrite <- app_assoc. cbn [app]. apply Forall_app in Hl as [Hl _]. apply ordered_app in Ho as (Ho & _ & _).
    rewrite IH by done. rewrite insert_before by done. by rewrite <- app_assoc.
  - rewrite insert_behind; [by rewrite <- !app_assoc|done|done|]. intros z Hz. by apply (ordered_below l y x z).
Qed.

(** ** Results of the arithmetic are numbers *)

Lemma iter_pos_inv {A} (Q : A -> Prop) (f : A -> A) n : (forall x, Q x -> Q (f x)) -> forall x, Q x -> Q (iter_pos f n x).
Proof. intros Hf. induction n as [n IH|n IH|]; intros x Hx; cbn [iter_pos]; auto. Qed.

Lemma shr_fexp_nonneg prec emax m e l : 0 <= m -> 0 <= shr_m (shr_fexp prec emax m e l).1.
Proof.
  intros Hm. unfold shr_fexp, shr. assert (0 <= shr_m (shr_record_of_loc m l)) as H by by destruct l as [|[]].
  destruct (_ - _); [done| |done]. cbn [fst]. apply (iter_pos_inv (fun r => 0 <= shr_m r)); [|done].
  intros [r b s]. cbn. destruct r as [|[]|]; cbn; lia.
Qed.

Lemma binary_round_aux_number prec emax s m e l : 0 <= m -> is_number (binary_round_aux prec emax s m e l).
Proof.
  intros Hm. unfold binary_round_aux. pose proof (shr_fexp_nonneg prec emax m e l Hm) as H1.
  destruct (shr_fexp prec emax m e l) as [r1 e1]. cbn [fst] in H1.
  assert (0 <= round_nearest_even (shr_m r1) (loc_of_shr_record r1)) as H2.
  { unfold round_nearest_even. destruct (loc_of_shr_record r1) as [|[]]; [lia| |lia|lia]. destruct (Z.even _); lia. }
  pose proof (shr_fexp_nonneg prec emax _ e1 loc_Exact H2) as H3. destruct (shr_fexp _ _ _ e1 loc_Exact) as [r2 e2]. cbn [fst] in H3.
  destruct (shr_m r2); [done| |lia]. by destruct (_ <=? _).
Qed.

Lemma binary_normalize_number prec emax m e s : is_number (binary_normalize prec emax m e s).
Proof.
  destruct m as [|m|m]; cbn; [done| |]; unfold binary_round; destruct (shl_align _ _ _); by apply binary_round_aux_number.
Qed.

Lemma of_int_number n : is_number (of_int n).
Proof. apply binary_normalize_number. Qed.

(** A finite value that is not zero. *)
Definition nonzero (x : double) : Prop := exists s m e, x = S754_finite s m e.

Lemma dmul_number x y : is_number x -> nonzero y -> is_number (dmul x y).
Proof. intros Hx (s & m & e & ->). destruct x; [done|done|done|]. by apply binary_round_aux_number. Qed.

Lemma dadd_number x y : is_number x -> (exists s, y = S754_zero s) \/ nonzero y -> is_number (dadd x y).
Proof.
  intros Hx [[s ->]|(s & m & e & ->)]; destruct x as [[]|[]| |]; try done; destruct s; try done; apply binary_normalize_number.
Qed.

Lemma of_int_finite n : 0 <= n < 2 ^ 32 -> (exists s, of_int n = S754_zero s) \/ nonzero (of_int n).
Proof.
  intros Hn. destruct n as [|m|m]; [left; by eexists| |lia]. right. unfold of_int. cbn [binary_normalize]. unfold binary_round.
  assert (Z.pos (digits2_pos m) <= 32) as Hd.
  { assert (forall k p, Z.pos p < 2 ^ Z.of_nat k -> Z.pos (digits2_pos p) <= Z.of_nat k) as H.
    { induction k as [|k IH]; intros p Hp; [lia|]. rewrite Nat2Z.inj_succ, Z.pow_succ_r in Hp by lia.
      destruct p as [p|p|]; cbn [digits2_pos]; [| |lia]; specialize (IH p); lia. }
    apply (H 32%nat). cbn. lia. }
  unfold shl_align, fexp, emin. replace (Z.max (Z.pos (digits2_pos m) + 0 - 53) (3 - 1024 - 53)) with (Z.pos (digits2_pos m) - 53) by lia.
  rewrite Z.sub_0_r. destruct (Z.pos (digits2_pos m) - 53) as [|d|d] eqn:E; [lia|lia|].
  unfold binary_round_aux, shr_fexp, fexp, emin. cbn [Zdigits2].
  assert (forall d p, digits2_pos (Pos.iter xO p d) = (digits2_pos p + d)%positive) as Hiter.
  { intros d0 p. induction d0 as [|d0 IH] using Pos.peano_ind; [cbn; lia|]. rewrite Pos.iter_succ. cbn [digits2_pos]. rewrite IH. lia. }
  rewrite Hiter. replace (Z.max (Z.pos (digits2_pos m + d) + Z.neg d - 53) (3 - 1024 - 53)) with (Z.neg d) by lia.
  rewrite Z.sub_diag. cbn [shr shr_record_of_loc shr_m loc_of_shr_record round_nearest_even Zdigits2].
  rewrite Hiter. replace (Z.max (Z.pos (digits2_pos m + d) + Z.neg d - 53) (3 - 1024 - 53)) with (Z.neg d) by lia.
  rewrite Z.sub_diag. cbn [shr shr_m]. unfold nonzero. eauto.
Qed.

Lemma elapsed_correct start now :
  0 <= start < 2 ^ 64 -> 0 <= now < 2 ^ 64 ->
  let '(hi, lo) := elapsed (access_counter start) (access_counter now) in
  0 <= hi < 2 ^ 32 /\ 0 <= lo < 2 ^ 32 /\ hi * 2 ^ 32 + lo = (now - start) mod 2 ^ 64.
Proof.
  intros Hs Hn. unfold elapsed, access_counter. rewrite !Z.shiftr_div_pow2 by lia. unfold wrapU, b2z.
  pose proof (Z.div_mod start (2 ^ 32) ltac:(lia)). pose proof (Z.div_mod now (2 ^ 32) ltac:(lia)).
  pose proof (Z.mod_pos_bound start (2 ^ 32) ltac:(lia)). pose proof (Z.mod_pos_bound now (2 ^ 32) ltac:(lia)).
  assert (0 <= start / 2 ^ 32 < 2 ^ 32) by (split; [apply Z.div_pos; lia|apply Z.div_lt_upper_bound; lia]).
  assert (0 <= now / 2 ^ 32 < 2 ^ 32) by (split; [apply Z.div_pos; lia|apply Z.div_lt_upper_bound; lia]).
  rewrite (Z.mod_small (start / 2 ^ 32)), (Z.mod_small (now / 2 ^ 32)) by lia.
  set (sh := start / 2 ^ 32) in *. set (nh := now / 2 ^ 32) in *. set (sl := start mod 2 ^ 32) in *. set (nl := now mod 2 ^ 32) in *.
  clearbody sh nh sl nl.
  pose proof (Z.mod_pos_bound (nl - sl) (2 ^ 32) ltac:(lia)). 
  split; [apply Z.mod_pos_bound; lia|]. split; [lia|].
  destruct (Z.leb_spec sl nl).
  - rewrite (Z.mod_small (nl - sl)) by lia. replace (nl <? nl - sl) with false by lia. rewrite Z.sub_0_r.
    destruct (Z.leb_spec sh nh).
    + rewrite Z.mod_small by lia. rewrite Z.mod_small; lia.
    + replace ((nh - sh) mod 2 ^ 32) with (nh - sh + 2 ^ 32) by (apply (Z.mod_unique_pos _ _ (-1)); lia).
      apply (Z.mod_unique_pos _ _ (-1)); lia.
  - replace ((nl - sl) mod 2 ^ 32) with (nl - sl + 2 ^ 32) by (apply (Z.mod_unique_pos _ _ (-1)); lia).
    replace (nl <? nl - sl + 2 ^ 32) with true by lia.
    destruct (Z.ltb_spec sh nh).
    + rewrite (Z.mod_small (nh - sh - 1)) by lia. rewrite Z.mod_small; lia.
    + replace ((nh - sh - 1) mod 2 ^ 32) with (nh - sh - 1 + 2 ^ 32) by (apply (Z.mod_unique_pos _ _ (-1)); lia).
      apply (Z.mod_unique_pos _ _ (-1)); lia.
Qed.

Lemma get_counter_number start now : is_number (get_counter start now).
Proof.
  unfold get_counter. destruct (elapsed _ _) as [hi lo] eqn:E.
  assert (0 <= lo < 2 ^ 32) as Hlo.
  { unfold elapsed in E. destruct (access_counter start), (access_counter now). injection E as _ <-. apply Z.mod_pos_bound. lia. }
  apply dadd_number; [|by apply of_int_finite]. apply dmul_number; [apply dmul_number; [apply of_int_number|]|].
  - vm_compute. eauto.
  - vm_compute. eauto.
Qed.

(** ** The sampler holds the K best *)

Section kbest.
Context (P : params) (samples : nat -> double).
Hypothesis Hk : 1 <= kbest P.
Hypothesis Hnum : forall i, is_number (samples i).

Abbreviation k := (Z.to_nat (kbest P)).
Abbreviation sorted_samples n := (sort_samples (taken samples n)).

Definition keeps (n : nat) (s : sampler) : Prop :=
  samplecount s = Z.of_nat n /\ values s = take k (sorted_samples n) ++ replicate (k - n) (S754_zero false).

Lemma taken_number n : Forall is_number (taken samples n).
Proof. apply Forall_fmap, Forall_forall. intros i _. apply Hnum. Qed.

Lemma sorted_length n : length (sorted_samples n) = n.
Proof. rewrite (Permutation_length (proj1 (sort_samples_spec _ (taken_number n)))). unfold taken. by rewrite length_fmap, length_seq. Qed.

Lemma sorted_number n : Forall is_number (sorted_samples n).
Proof. rewrite (proj1 (sort_samples_spec _ (taken_number n))). apply taken_number. Qed.

Lemma sorted_S n : sorted_samples (S n) = insert_sample (samples n) (sorted_samples n).
Proof. unfold taken. rewrite seq_S, fmap_app. cbn. by rewrite sort_samples_snoc. Qed.

Lemma insert_split_before x a w r : dlt x w = true -> insert_sample x (a ++ w :: r) = insert_sample x a ++ w :: r.
Proof. intros H. induction a as [|z a IH]; cbn; [by rewrite H|]. destruct (dlt x z); [done|]. by rewrite IH. Qed.

Lemma insert_split_behind x a r : (forall z, z ∈ a -> dlt x z = false) -> insert_sample x (a ++ r) = a ++ insert_sample x r.
Proof.
  induction a as [|z a IH]; intros H; [done|]. cbn. rewrite (H z) by left. f_equal. apply IH. intros y Hy. apply H. by right.
Qed.

Lemma insert_length x l : length (insert_sample x l) = S (length l).
Proof. by rewrite (Permutation_length (insert_sample_perm x l)). Qed.

(** The K smallest samples, when there are more. *)
Lemma full_split n : (k <= n)%nat ->
  exists a w r, sorted_samples n = a ++ w :: r /\ length a = (k - 1)%nat /\ take k (sorted_samples n) = a ++ [w] /\
    ordered (a ++ [w]) /\ Forall is_number (a ++ [w]).
Proof.
  intros Hn. pose proof (sorted_length n) as Hl. destruct (lookup_lt_is_Some_2 (sorted_samples n) (k - 1)) as [w Hw]; [lia|].
  exists (take (k - 1) (sorted_samples n)), w, (drop (S (k - 1)) (sorted_samples n)).
  assert (sorted_samples n = take (k - 1) (sorted_samples n) ++ w :: drop (S (k - 1)) (sorted_samples n)) as E
    by by rewrite take_drop_middle.
  assert (take k (sorted_samples n) = take (k - 1) (sorted_samples n) ++ [w]) as Et.
  { replace k with (S (k - 1)) at 1 by lia. by apply take_S_r. }
  split; [exact E|]. split; [rewrite length_take; lia|]. split; [exact Et|]. rewrite <- Et. split.
  - pose proof (proj2 (sort_samples_spec _ (taken_number n))) as Ho. rewrite <- (take_drop k (sorted_samples n)) in Ho.
    by apply ordered_app in Ho as [? _].
  - apply Forall_take, sorted_number.
Qed.

Lemma add_sample_keeps n s : keeps n s -> exists s', add_sample P (samples n) s = Ok s' /\ keeps (S n) s'.
Proof.
  intros [Hc Hv]. unfold add_sample. rewrite Hc, Hv. unfold keeps. rewrite sorted_S. destruct (Z.ltb_spec (Z.of_nat n) (kbest P)) as [Hlt|Hge].
  - rewrite take_ge by (rewrite sorted_length; lia). replace (k - n)%nat with (S (k - S n)) by lia. cbn [replicate].
    replace (Z.of_nat n) with (Z.of_nat (length (sorted_samples n))) by (by rewrite sorted_length).
    rewrite set_val_app. cbn [rbind]. rewrite Nat2Z.id. rewrite sift_insert; [|done|apply sorted_number|apply sort_samples_spec, taken_number].
    cbn [rbind]. eexists. split; [reflexivity|]. cbn [samplecount values]. split; [rewrite sorted_length; lia|].
    rewrite take_ge; [done|]. rewrite insert_length, sorted_length. lia.
  - destruct (full_split n) as (a & w & r & E & Ha & Et & Ho & Hn); [lia|].
    replace (k - n)%nat with 0%nat by lia. replace (k - S n)%nat with 0%nat by lia. cbn [replicate]. rewrite !app_nil_r, Et.
    replace (kbest P - 1) with (Z.of_nat (length a)) by lia. rewrite val_app. cbn [rbind]. rewrite E. destruct (dlt (samples n) w) eqn:Ew.
    + rewrite set_val_app. cbn [rbind]. rewrite Nat2Z.id. apply Forall_app in Hn as [Hn _]. apply ordered_app in Ho as (Ho & _ & _).
      rewrite sift_insert by done. cbn [rbind]. eexists. split; [reflexivity|]. cbn [samplecount values]. split; [lia|].
      rewrite insert_split_before by done. rewrite app_nil_r, take_app_le by (rewrite insert_length; lia).
      by rewrite take_ge by (rewrite insert_length; lia).
    + cbn [rbind sift Z.to_nat]. eexists. split; [reflexivity|]. cbn [samplecount values]. split; [lia|].
      replace (a ++ w :: r) with ((a ++ [w]) ++ r) by by rewrite <- app_assoc.
      rewrite insert_split_behind by (intros z Hz; by apply (ordered_below a w (samples n) z)).
      rewrite take_app_le by (rewrite length_app; cbn; lia). by rewrite take_ge by (rewrite length_app; cbn; lia).
Qed.

Lemma has_converged_agree n s : keeps n s -> exists b, has_converged P s = Ok b /\ (b = true <-> agree P samples n).
Proof.
  intros [Hc Hv]. unfold has_converged. rewrite Hc. destruct (Z.leb_spec (kbest P) (Z.of_nat n)) as [Hle|Hgt].
  - destruct (full_split n) as (a & w & r & E & Ha & Et & _ & _); [lia|].
    rewrite Hv, Et. replace (k - n)%nat with 0%nat by lia. cbn [replicate]. rewrite app_nil_r.
    replace (kbest P - 1) with (Z.of_nat (length a)) by lia. rewrite val_app.
    destruct ((a ++ [w]) !! 0%nat) as [b|] eqn:Eb; [|apply lookup_ge_None in Eb; rewrite length_app in Eb; cbn in Eb; lia].
    assert (val (a ++ [w]) 0 = Ok b) as -> by (unfold val; change (Z.to_nat 0) with 0%nat; by rewrite Eb). cbn [rbind]. eexists. split; [reflexivity|].
    assert (sorted_samples n !! 0%nat = Some b) as E0.
    { rewrite E. replace (a ++ w :: r) with ((a ++ [w]) ++ r) by by rewrite <- app_assoc. by apply lookup_app_l_Some. }
    assert (sorted_samples n !! Z.to_nat (kbest P - 1) = Some w) as E1.
    { rewrite E. replace (Z.to_nat (kbest P - 1)) with (length a) by lia. by rewrite list_lookup_middle. }
    split; [intros H; exists b, w; by split_and!|]. intros (b' & w' & _ & H0 & H1 & H). congruence.
  - exists false. split; [done|]. split; [done|]. intros (b & w & H & _). lia.
Qed.

Hypothesis Hclear : clear_cache P = 0 \/ clear P = Ok tt.

Lemma measure_spec fuel : forall n s,
  keeps n s -> (Z.to_nat (maxsamples P) < fuel + n)%nat -> (0 < fuel)%nat ->
  exists n' s', measure P fuel samples n s = Ok s' /\ keeps n' s' /\ (n < n')%nat /\
    (forall m, (n < m < n')%nat -> ~ agree P samples m) /\
    (agree P samples n' \/ maxsamples P <= Z.of_nat n') /\ (n' = S n \/ Z.of_nat n' <= maxsamples P).
Proof.
  induction fuel as [|fuel IH]; intros n s Hs Hf Hpos; [lia|]. cbn [measure].
  assert ((if negb (clear_cache P =? 0) then clear P else Ok tt) = Ok tt) as ->.
  { destruct Hclear as [-> | ->]; [done|]. by destruct (negb _). }
  cbn [rbind]. destruct (add_sample_keeps n s Hs) as (s1 & -> & Hs1). cbn [rbind].
  destruct (has_converged_agree (S n) s1 Hs1) as (b & -> & Hb). cbn [rbind]. destruct Hs1 as [Hc1 Hv1] eqn:Heq. rewrite Hc1.
  destruct b; cbn [negb andb].
  - exists (S n), s1. split; [done|]. split; [done|]. split; [lia|]. split; [intros m Hm; lia|]. split; [left; by apply Hb|by left].
  - destruct (Z.ltb_spec (Z.of_nat (S n)) (maxsamples P)) as [Hlt|Hge].
    + destruct (IH (S n) s1) as (n' & s' & E & Hk' & Hn & Hno & Hend & Hmax); [done|lia|lia|].
      exists n', s'. split; [exact E|]. split; [done|]. split; [lia|]. split; [|split; [done|right; destruct Hmax; lia]].
      intros m Hm. destruct (decide (m = S n)) as [-> |]; [|apply Hno; lia]. rewrite <- Hb. done.
    + exists (S n), s1. split; [done|]. split; [done|]. split; [lia|]. split; [intros m Hm; lia|]. split; [by right|by left].
Qed.

Lemma keeps_init : keeps 0 (init_sampler P).
Proof. split; [done|]. cbn. by rewrite Nat.sub_0_r, take_nil. Qed.

(** The first value is the smallest sample. *)
Lemma keeps_smallest n s : keeps n s -> (0 < n)%nat ->
  exists r, val (values s) 0 = Ok r /\ r ∈ taken samples n /\ forall i, (i < n)%nat -> ngt r (samples i).
Proof.
  intros [_ Hv] Hn. pose proof (sorted_length n) as Hl. destruct (sort_samples_spec _ (taken_number n)) as [Hp Ho].
  destruct (sorted_samples n) as [|r l] eqn:E; [cbn in Hl; lia|]. exists r.
  split; [unfold val; rewrite Hv; by destruct k as [|k'] eqn:Ek; [lia|]|]. split; [rewrite <- Hp; left|].
  intros i Hi. assert (samples i ∈ r :: l) as Hin.
  { rewrite Hp. unfold taken. apply list_elem_of_fmap_2, elem_of_seq. lia. }
  apply elem_of_cons in Hin as [-> |Hin].
  - pose proof (sorted_number n) as H. rewrite E in H. inversion_clear H. apply dge_key; [done..|apply key_lt_irrefl].
  - inversion_clear Ho as [|? ? _ Hr]. rewrite Forall_forall in Hr. by apply Hr.
Qed.
End kbest.

Lemma clear_loop_ends fuel cptr cend incr : 1 <= incr -> (Z.to_nat (cend - cptr) < fuel)%nat -> clear_loop fuel cptr cend incr = Ok tt.
Proof.
  intros Hi. revert cptr. induction fuel as [|fuel IH]; intros cptr Hf; [lia|]. cbn [clear_loop].
  destruct (Z.ltb_spec cptr cend); [|done]. apply IH. lia.
Qed.

Lemma clear_ends P : 0 <= cache_bytes P -> 4 <= cache_block P < 2 ^ 31 -> clear P = Ok tt.
Proof.
  intros Hn Hb. unfold clear. replace (cache_bytes P <? 0) with false by lia. apply clear_loop_ends; [|lia]. rewrite wrapU_small by lia.
  pose proof (Z.div_le_lower_bound (cache_block P) 4 1 ltac:(lia)). pose proof (Z.div_lt_upper_bound (cache_block P) 4 (2 ^ 31) ltac:(lia)).
  rewrite wrapS_small; lia.
Qed.

(** C26: fcyc() is a K-best measurement.  With its parameters set, K at least one,
    and cache blocks of at least one int when the cache is cleared, fcyc()
    returns: it takes at least one sample and never more than the limit allows;
    it stops after the first number of samples at which the K smallest ones agree
    within the tolerance, or at the limit; and the result is a sample that is
    not greater than any other one.  A sample of the cycle counter is a number, computed
    from the difference of the two readings modulo 2^64, even when the lower
    half of the counter or the whole counter wraps around. *)
Theorem fcyc_kbest P tsc comp :
  parameters_unset P = false -> 1 <= kbest P -> clear_cache P = 0 \/ (0 <= cache_bytes P /\ 4 <= cache_block P < 2 ^ 31) ->
  (compensate P <> 0 -> forall i, is_number (comp i)) ->
  (exists n r, fcyc P tsc comp = Ok r /\ (1 <= n)%nat /\ (n = 1%nat \/ Z.of_nat n <= maxsamples P) /\
     (agree P (measured P tsc comp) n \/ maxsamples P <= Z.of_nat n) /\
     (forall m, (0 < m < n)%nat -> ~ agree P (measured P tsc comp) m) /\
     r ∈ taken (measured P tsc comp) n /\ forall i, (i < n)%nat -> ngt r (measured P tsc comp i)) /\
  (forall start now, 0 <= start < 2 ^ 64 -> 0 <= now < 2 ^ 64 ->
     let '(hi, lo) := elapsed (access_counter start) (access_counter now) in
     0 <= hi < 2 ^ 32 /\ 0 <= lo < 2 ^ 32 /\ hi * 2 ^ 32 + lo = (now - start) mod 2 ^ 64).
Proof.
  intros Hset Hk Hc Hcomp. split; [|apply elapsed_correct].
  assert (forall i, is_number (measured P tsc comp i)) as Hnum.
  { intros i. unfold measured. destruct (Z.eqb_spec (compensate P) 0) as [E|E]; cbn [negb]; [apply get_counter_number|by apply Hcomp]. }
  assert (clear_cache P = 0 \/ clear P = Ok tt) as Hclear by (destruct Hc as [|[? ?]]; [by left|right; by apply clear_ends]).
  destruct (measure_spec P _ Hk Hnum Hclear (S (Z.to_nat (maxsamples P))) 0 (init_sampler P) (keeps_init P _) ltac:(lia) ltac:(lia))
    as (n & s & E & Hs & Hn & Hno & Hend & Hmax).
  destruct (keeps_smallest P _ Hk Hnum n s Hs ltac:(lia)) as (r & Er & Hr & Hmin).
  exists n, r. unfold fcyc. rewrite Hset, E. cbn [rbind]. split; [exact Er|]. split; [lia|]. by split_and!.
Qed.

(** The parameters of init_fsecs() and a counter that advances by 1000 between readings, 40 cycles more at first. *)
Definition demo_tsc (i : nat) : Z := 2 ^ 32 - 1500 + 1000 * Z.of_nat i + (if (i =? 1)%nat then 40 else 0).

Lemma fcyc_kbest_witness :
  parameters_unset init_fsecs = false /\
  fcyc init_fsecs demo_tsc (fun _ => of_int 0) = Ok (of_int 1000) /\
  (exists n r, fcyc init_fsecs demo_tsc (fun _ => of_int 0) = Ok r /\ (1 <= n)%nat /\ (n = 1%nat \/ Z.of_nat n <= 100) /\
     (agree init_fsecs (measured init_fsecs demo_tsc (fun _ => of_int 0)) n \/ 100 <= Z.of_nat n) /\
     (forall m, (0 < m < n)%nat -> ~ agree init_fsecs (measured init_fsecs demo_tsc (fun _ => of_int 0)) m) /\
     r ∈ taken (measured init_fsecs demo_tsc (fun _ => of_int 0)) n /\
     forall i, (i < n)%nat -> ngt r (measured init_fsecs demo_tsc (fun _ => of_int 0) i)).
Proof.
  split; [vm_compute; reflexivity|]. split; [vm_compute; reflexivity|].
  refine (proj1 (fcyc_kbest init_fsecs demo_tsc (fun _ => of_int 0) _ _ _ _)).
  - vm_compute. reflexivity.
  - cbn. lia.
  - right. split; vm_compute; [|split]; congruence.
  - intros H. exfalso. apply H. reflexivity.
Defined.
