(* ===== verification/Meltdown.v ===== *)
(** * Reading memory through the cache (meltdown/src, meltdown/lib/util.c)

    The state is the set of the pages whose first line is in the cache.
    force_read() puts a page there and flush_cache_line() takes it out.  The
    time of a read is up to the processor: an [attempt] says how long the k-th
    timed read of one guess takes if it hits and if it misses the cache, whether
    the processor ran ahead of a faulting load far enough to touch the page
    that the loaded byte selects, and what the variable holds where the signal
    handler resumes.  The signal handler itself only moves the program counter.

    The theorems: a guess is the page that was touched, and the programs print
    the secret; the ones that try again print nothing else. *)
From stdpp Require Import prelude gmap list.
From Stdlib Require Import ZArith Lia.
From S2P Require Import Prelude.
Open Scope Z_scope.
Open Scope c_scope.

(** ** The processor (util.h, util.c) *)

Record attempt := mkAttempt {
  duration : nat -> bool -> Z;   (* of the k-th timed read, by whether it hits *)
  transient : bool;              (* the load after the fault was started *)
  stale : Z                      (* the variable after the signal *)
}.

Abbreviation cache := (gset Z).

Definition force_read (c : cache) (page : Z) : cache := {[page]} ∪ c.
Definition flush_cache_line (c : cache) (page : Z) : cache := c ∖ {[page]}.

(** time_read(): the state is the cache and the number of timed reads. *)
Definition time_read (a : attempt) (page : Z) (s : cache * nat) : Z * (cache * nat) :=
  let '(c, k) := s in (duration a k (bool_decide (page ∈ c)), (force_read c page, S k)).

(** ** Flushing and guessing, over the pages from [lo] on *)

(** flush_all_pages() *)
Fixpoint flush_all_pages (lo : Z) (n : nat) (c : cache) : cache :=
  match n with
  | O => c
  | S n => flush_all_pages (lo + 1) n (flush_cache_line c lo)
  end.

(** guess_accessed_page(): the second read only if the first was fast. *)
Fixpoint guess_accessed_page (threshold : Z) (a : attempt) (lo : Z) (n : nat) (s : cache * nat) : Z * cache :=
  match n with
  | O => (0, s.1)
  | S n =>
      let '(t1, s) := time_read a lo s in
      if t1 <? threshold then
        let '(t2, s) := time_read a lo s in
        if t2 <? threshold then (lo, s.1) else guess_accessed_page threshold a (lo + 1) n s
      else guess_accessed_page threshold a (lo + 1) n s
  end.

(** ** index_guesser.c *)

Module IndexGuesser.
Definition MIN_INDEX : Z := 1.
Definition MAX_INDEX : Z := 255.
Definition first_index : Z := MIN_INDEX - 1.
Definition index_count : nat := Z.to_nat (MAX_INDEX + 1 - first_index).

(** do_access() of index_guesser.h *)
Definition index_do_access (c : cache) : cache := force_read c 24.

(** main(): the guess that is printed, [None] for the message that no page was accessed. *)
Definition index_guesser_main (a : attempt) (c : cache) : option Z :=
  let c := flush_all_pages first_index index_count c in
  let c := index_do_access c in
  let '(guess, _) := guess_accessed_page 200 a first_index index_count (c, 0%nat) in
  if 0 <? guess then Some guess else None.
End IndexGuesser.

(** ** The programs that recover a secret *)

Definition MIN_CHOICE : Z := 65 - 1.
Definition MAX_CHOICE : Z := 90 + 1.
Definition choices : nat := Z.to_nat (MAX_CHOICE - MIN_CHOICE).
Definition SECRET_LENGTH : nat := 5.

(** recover_local_secret.c *)
Module Local.
Definition access_secret (i : nat) : Z := nth i [67; 76; 79; 67; 75; 0] 0.
Definition local_do_access (i : nat) (c : cache) : cache := force_read c (access_secret i).

Fixpoint local_main_loop (env : nat -> attempt) (idx : list nat) (c : cache) : list Z :=
  match idx with
  | [] => [10]
  | i :: idx =>
      let c := flush_all_pages MIN_CHOICE choices c in
      let c := local_do_access i c in
      let '(guess, c) := guess_accessed_page 200 (env i) MIN_CHOICE choices (c, 0%nat) in
      u8 guess :: local_main_loop env idx c
  end.
Definition local_main (env : nat -> attempt) (c : cache) : list Z := local_main_loop env (seq 0 SECRET_LENGTH) c.
End Local.

(** recover_protected_local_secret.c and exploit.c: guess until a letter is found. *)
Section retrying.
Context (threshold : Z) (do_access : attempt -> nat -> cache -> cache) (env : nat -> attempt).

(** The inner loop: the guess, and the number of attempts so far. *)
Fixpoint recover_byte (fuel : nat) (i : nat) (tries : nat) (c : cache) : res (Z * nat * cache) :=
  match fuel with
  | O => Err OutOfFuel
  | S f =>
      let c := flush_all_pages MIN_CHOICE choices c in
      let c := do_access (env tries) i c in
      let '(guess, c) := guess_accessed_page threshold (env tries) MIN_CHOICE choices (c, 0%nat) in
      if (guess <=? MIN_CHOICE) || (MAX_CHOICE <=? guess) then recover_byte f i (S tries) c
      else Ok (guess, S tries, c)
  end.

Fixpoint recover_loop (fuel : nat) (idx : list nat) (tries : nat) (c : cache) : res (list Z) :=
  match idx with
  | [] => Ok [10]
  | i :: idx =>
      '(guess, tries, c) <-! recover_byte fuel i tries c;;
      out <-! recover_loop fuel idx tries c;;
      Ok (u8 guess :: out)
  end.
End retrying.

(** recover_protected_local_secret.c: the load of address NULL faults, and the
    handler resumes before the page is read, with the variable not yet set. *)
Module Protected.
Definition SECRET : list Z := [67; 65; 67; 72; 69; 0].
Definition protected_do_access (a : attempt) (i : nat) (c : cache) : cache :=
  let c := if transient a then force_read c (nth i SECRET 0) else c in
  force_read c (stale a).
Definition protected_main (fuel : nat) (env : nat -> attempt) (c : cache) : res (list Z) :=
  recover_loop 200 protected_do_access env fuel (seq 0 SECRET_LENGTH) 0 c.
End Protected.

(** exploit.c: the load of the kernel's byte faults, and the handler resumes
    after the page is read; [kernel] are the bytes at the address. *)
Module Exploit.
Definition exploit_do_access (kernel : nat -> Z) (a : attempt) (i : nat) (c : cache) : cache :=
  if transient a then force_read c (kernel i) else c.
Definition exploit_main (fuel : nat) (kernel : nat -> Z) (env : nat -> attempt) (c : cache) : res (list Z) :=
  recover_loop 190 (exploit_do_access kernel) env fuel (seq 0 SECRET_LENGTH) 0 c.
End Exploit.

(** ** cache_timing.c *)

Module CacheTiming.
Definition REPEATS : Z := 100000.

(** The loop of main(); in each round a new page is allocated, [page] its number. *)
Fixpoint timing_loop (n : nat) (env : nat -> attempt) (page : nat -> Z) (i : nat) (c : cache) (sum_miss sum_hit : Z) : Z * Z :=
  match n with
  | O => (sum_miss, sum_hit)
  | S n =>
      let c := flush_cache_line c (page i) in
      let '(time_one, s) := time_read (env i) (page i) (c, 0%nat) in
      let '(time_two, (c, _)) := time_read (env i) (page i) s in
      if time_two <=? time_one then timing_loop n env page (S i) c (u64 (sum_miss + time_one)) (u64 (sum_hit + time_two))
      else timing_loop n env page (S i) c sum_miss sum_hit
  end.

(** The two averages that are printed. *)
Definition cache_timing_main (env : nat -> attempt) (page : nat -> Z) (c : cache) : Z * Z :=
  let '(sum_miss, sum_hit) := timing_loop (Z.to_nat REPEATS) env page 0 c 0 0 in
  (sum_miss / REPEATS, sum_hit / REPEATS).
End CacheTiming.

(** ** One guess *)

Lemma flush_all_pages_spec lo n c p : p ∈ flush_all_pages lo n c <-> p ∈ c /\ ~ (lo <= p < lo + Z.of_nat n).
Proof.
  revert lo c. induction n as [|n IH]; intros lo c; cbn [flush_all_pages]; [split; [split; [done|lia]|by intros []]|].
  rewrite IH. unfold flush_cache_line. rewrite elem_of_difference, elem_of_singleton. split; [intros [[? ?] ?]|intros [? ?]].
  - split; [done|]. lia.
  - split; [split; [done|]|]; lia.
Qed.

(** A miss is always slow. *)
Definition slow_miss (threshold : Z) (a : attempt) : Prop := forall k, threshold <= duration a k false.

(** Both reads of the [k]-th page are fast if they hit. *)
Definition fast_hit (threshold : Z) (a : attempt) (k : nat) : Prop := duration a k true < threshold /\ duration a (S k) true < threshold.

Section guessing.
Context (threshold : Z) (a : attempt) (Hmiss : slow_miss threshold a).

(** Without a page in the cache the guess is zero. *)
Lemma guess_nothing lo n c k : (forall p, lo <= p < lo + Z.of_nat n -> p ∉ c) -> (guess_accessed_page threshold a lo n (c, k)).1 = 0.
Proof.
  revert lo c k. induction n as [|n IH]; intros lo c k H; [done|]. cbn [guess_accessed_page time_read].
  rewrite bool_decide_false by (apply H; lia). replace (duration a k false <? threshold) with false by (specialize (Hmiss k); lia).
  apply IH. intros p Hp. unfold force_read. specialize (H p ltac:(lia)). assert (p <> lo) by lia. set_solver.
Qed.

(** With one page in the cache the guess is that page, or zero when a read is slow. *)
Lemma guess_page lo n c k q :
  lo <= q < lo + Z.of_nat n -> q ∈ c -> (forall p, lo <= p < lo + Z.of_nat n -> p <> q -> p ∉ c) ->
  let g := (guess_accessed_page threshold a lo n (c, k)).1 in
  (g = q \/ g = 0) /\ (fast_hit threshold a (k + Z.to_nat (q - lo)) -> g = q).
Proof.
  revert lo c k. induction n as [|n IH]; intros lo c k Hq Hc Hother; [lia|]. cbn [guess_accessed_page time_read].
  destruct (decide (lo = q)) as [-> |Hne].
  - rewrite bool_decide_true by done. rewrite Z.sub_diag, Nat.add_0_r. unfold fast_hit.
    assert (forall j c', (forall p, q + 1 <= p < q + 1 + Z.of_nat n -> p ∉ c') ->
      (guess_accessed_page threshold a (q + 1) n (c', j)).1 = 0) as Hrest by (intros j c' H; by apply guess_nothing).
    assert (forall c', c' = c -> forall p, q + 1 <= p < q + 1 + Z.of_nat n -> p ∉ force_read c' q) as Hfree.
    { intros c' -> p Hp. specialize (Hother p ltac:(lia) ltac:(lia)). unfold force_read. assert (p <> q) by lia. set_solver. }
    destruct (Z.ltb_spec (duration a k true) threshold); [|rewrite Hrest by (by apply Hfree); split; [by right|lia]].
    rewrite bool_decide_true by (unfold force_read; set_solver).
    destruct (Z.ltb_spec (duration a (S k) true) threshold); [split; [by left|done]|].
    rewrite Hrest; [split; [by right|lia]|]. intros p Hp. specialize (Hfree c eq_refl p Hp). unfold force_read in *. set_solver.
  - rewrite bool_decide_false by (apply Hother; lia). replace (duration a k false <? threshold) with false by (specialize (Hmiss k); lia).
    replace (k + Z.to_nat (q - lo))%nat with (S k + Z.to_nat (q - (lo + 1)))%nat by lia.
    apply IH; [lia|unfold force_read; set_solver|]. intros p Hp Hpq. specialize (Hother p ltac:(lia) Hpq). unfold force_read.
    assert (p <> lo) by lia. set_solver.
Qed.
End guessing.

(** ** Guessing until a letter is found *)

Definition letter (p : Z) : Prop := MIN_CHOICE < p < MAX_CHOICE.

Section recovery.
Context (threshold : Z) (do_access : attempt -> nat -> cache -> cache) (env : nat -> attempt) (secret : nat -> Z).
Hypothesis Hmiss : forall t, slow_miss threshold (env t).
Hypothesis Hsecret : forall i, (i < SECRET_LENGTH)%nat -> letter (secret i).
(** Of the pages that are guessed, an access touches at most the one of the secret. *)
Hypothesis Haccess : forall t i c p, MIN_CHOICE <= p < MAX_CHOICE ->
  p ∈ do_access (env t) i c <-> p ∈ c \/ (transient (env t) = true /\ p = secret i).

(** In attempt [t] the secret was touched, and its reads were not interrupted. *)
Definition lucky (t i : nat) : Prop :=
  transient (env t) = true /\ fast_hit threshold (env t) (Z.to_nat (secret i - MIN_CHOICE)).

Lemma round_guess t i c :
  (i < SECRET_LENGTH)%nat ->
  let g := (guess_accessed_page threshold (env t) MIN_CHOICE choices (do_access (env t) i (flush_all_pages MIN_CHOICE choices c), 0%nat)).1 in
  (g = secret i \/ g = 0) /\ (lucky t i -> g = secret i).
Proof.
  intros Hi. pose proof (Hsecret i Hi) as [Hlo Hhi]. change MAX_CHOICE with (MIN_CHOICE + Z.of_nat choices) in *.
  assert (forall p, MIN_CHOICE <= p < MIN_CHOICE + Z.of_nat choices ->
    p ∈ do_access (env t) i (flush_all_pages MIN_CHOICE choices c) <-> transient (env t) = true /\ p = secret i) as Hin.
  { intros p Hp. rewrite Haccess by done. rewrite flush_all_pages_spec. naive_solver. }
  destruct (transient (env t)) eqn:E.
  - destruct (guess_page threshold (env t) (Hmiss t) MIN_CHOICE choices
      (do_access (env t) i (flush_all_pages MIN_CHOICE choices c)) 0 (secret i)) as [H1 H2]; [lia|by apply Hin; [lia|]| |].
    + intros p Hp Hne H%Hin; [by destruct H|done].
    + split; [exact H1|]. intros [_ H]. by apply H2.
  - unfold lucky. rewrite E. rewrite guess_nothing; [split; [by right|by intros []]|apply Hmiss|]. intros p Hp H%Hin; [by destruct H|done].
Qed.

Abbreviation byte_run := (recover_byte threshold do_access env).
Abbreviation loop_run := (recover_loop threshold do_access env).

Lemma recover_byte_step f i t c :
  (i < SECRET_LENGTH)%nat ->
  exists g c', (g = secret i \/ g = 0) /\ (lucky t i -> g = secret i) /\
    byte_run (S f) i t c = if decide (g = secret i) then Ok (secret i, S t, c') else byte_run f i (S t) c'.
Proof.
  intros Hi. destruct (round_guess t i c Hi) as [H1 H2]. cbn [recover_byte].
  destruct (guess_accessed_page _ _ _ _ _) as [g c']. cbn [fst] in *. exists g, c'. split; [done|]. split; [done|].
  pose proof (Hsecret i Hi) as [Hlo Hhi]. case_decide as Hg.
  - subst g. replace ((secret i <=? MIN_CHOICE) || (MAX_CHOICE <=? secret i)) with false by lia. done.
  - destruct H1 as [-> | ->]; [done|]. done.
Qed.

Lemma recover_byte_safe f : forall i t c g t' c',
  (i < SECRET_LENGTH)%nat -> byte_run f i t c = Ok (g, t', c') -> g = secret i.
Proof.
  induction f as [|f IH]; intros i t c g t' c' Hi; [done|].
  destruct (recover_byte_step f i t c Hi) as (g' & c1 & _ & _ & ->). case_decide; [by intros [= <- _ _]|by apply IH].
Qed.

Lemma recover_byte_more f : forall f' i t c r,
  (i < SECRET_LENGTH)%nat -> (f <= f')%nat -> byte_run f i t c = Ok r -> byte_run f' i t c = Ok r.
Proof.
  induction f as [|f IH]; intros f' i t c r Hi Hf; [done|]. destruct f' as [|f']; [lia|]. cbn [recover_byte].
  destruct (guess_accessed_page _ _ _ _ _) as [g c']. destruct (_ || _); [|done]. apply IH; [done|lia].
Qed.

Lemma recover_byte_ends n : forall i t c,
  (i < SECRET_LENGTH)%nat -> lucky (t + n) i -> exists t' c', byte_run (S n) i t c = Ok (secret i, t', c').
Proof.
  induction n as [|n IH]; intros i t c Hi Hl.
  - destruct (recover_byte_step 0 i t c Hi) as (g & c' & _ & H & ->). rewrite Nat.add_0_r in Hl. rewrite (H Hl), decide_True by done. eauto.
  - destruct (recover_byte_step (S n) i t c Hi) as (g & c' & _ & _ & ->). case_decide; [eauto|].
    apply IH; [done|]. by rewrite Nat.add_succ_comm.
Qed.

Lemma secret_byte i : (i < SECRET_LENGTH)%nat -> u8 (secret i) = secret i.
Proof. intros Hi. pose proof (Hsecret i Hi) as [H1 H2]. apply wrapU_small. unfold MIN_CHOICE, MAX_CHOICE in *. lia. Qed.

Lemma recover_loop_safe f idx : forall t c out,
  Forall (fun i => i < SECRET_LENGTH)%nat idx -> loop_run f idx t c = Ok out -> out = (secret <$> idx) ++ [10].
Proof.
  induction idx as [|i idx IH]; intros t c out Hidx; cbn [recover_loop]; [by intros [= <-]|].
  inversion_clear Hidx as [|? ? Hi Hidx']. destruct (byte_run f i t c) as [[[g t'] c']|] eqn:E; [|done]. cbn [rbind].
  apply recover_byte_safe in E as ->; [|done]. destruct (loop_run f idx t' c') as [o|] eqn:E2; [|done]. cbn [rbind].
  intros [= <-]. by rewrite (IH _ _ _ Hidx' E2), secret_byte.
Qed.

Lemma recover_loop_ends idx : forall t c,
  Forall (fun i => i < SECRET_LENGTH)%nat idx -> (forall i n, (i < SECRET_LENGTH)%nat -> exists m, (n <= m)%nat /\ lucky m i) ->
  exists F, forall f, (F <= f)%nat -> loop_run f idx t c = Ok ((secret <$> idx) ++ [10]).
Proof.
  induction idx as [|i idx IH]; intros t c Hidx Hfair; [by exists 0%nat|]. inversion_clear Hidx as [|? ? Hi Hidx'].
  destruct (Hfair i t Hi) as (m & Hm & Hl). destruct (recover_byte_ends (m - t) i t c Hi) as (t' & c' & E).
  { by replace (t + (m - t))%nat with m by lia. }
  destruct (IH t' c' Hidx' Hfair) as [F HF]. exists (Nat.max (S (m - t)) F). intros f Hf. cbn [recover_loop].
  rewrite (recover_byte_more (S (m - t)) f _ _ _ _ Hi ltac:(lia) E). cbn [rbind]. rewrite (HF f) by lia. cbn [rbind]. by rewrite secret_byte.
Qed.
End recovery.

Lemma all_indices : Forall (fun i => i < SECRET_LENGTH)%nat (seq 0 SECRET_LENGTH).
Proof. apply Forall_forall. intros i Hi%elem_of_seq. unfold SECRET_LENGTH in *. lia. Qed.

(** C20: What exploit.c recovers.  The five bytes at the kernel's address are
    letters, and a read that misses the cache never takes less than 190 cycles; a
    read that hits may take any time, the processor may or may not run ahead of
    the fault, and the cache starts in any state.  Whatever main() prints when it
    ends is the five bytes and a newline, never a wrong letter; and if for every
    byte there are, again and again, attempts in which the processor runs ahead and
    the two reads of the page are not interrupted, main() ends. *)
Theorem exploit_recovers kernel env c :
  (forall i, (i < SECRET_LENGTH)%nat -> letter (kernel i)) -> (forall t, slow_miss 190 (env t)) ->
  (forall fuel out, Exploit.exploit_main fuel kernel env c = Ok out -> out = (kernel <$> seq 0 SECRET_LENGTH) ++ [10]) /\
  ((forall i n, (i < SECRET_LENGTH)%nat -> exists m, (n <= m)%nat /\ lucky 190 env kernel m i) ->
   exists F, forall fuel, (F <= fuel)%nat -> Exploit.exploit_main fuel kernel env c = Ok ((kernel <$> seq 0 SECRET_LENGTH) ++ [10])).
Proof.
  intros Hk Hm.
  assert (forall t i c p, MIN_CHOICE <= p < MAX_CHOICE ->
    p ∈ Exploit.exploit_do_access kernel (env t) i c <-> p ∈ c \/ (transient (env t) = true /\ p = kernel i)) as Ha.
  { intros t i c0 p _. unfold Exploit.exploit_do_access, force_read. destruct (transient (env t)); set_solver. }
  split.
  - intros fuel out. by apply (recover_loop_safe 190 _ env kernel Hm Hk Ha), all_indices.
  - intros Hfair. by apply (recover_loop_ends 190 _ env kernel Hm Hk Ha); [apply all_indices|].
Qed.

(** Every third attempt runs ahead; a hit takes 100 cycles and a miss 300. *)
Definition demo_env (t : nat) : attempt := mkAttempt (fun _ hit => if hit then 100 else 300) (t mod 3 =? 2)%nat 0.
Definition demo_kernel (i : nat) : Z := nth i [72; 69; 76; 76; 79] 72.

Lemma exploit_recovers_witness :
  Exploit.exploit_main 10 demo_kernel demo_env ∅ = Ok [72; 69; 76; 76; 79; 10] /\
  exists F, forall fuel, (F <= fuel)%nat -> Exploit.exploit_main fuel demo_kernel demo_env ∅ = Ok ((demo_kernel <$> seq 0 SECRET_LENGTH) ++ [10]).
Proof.
  split; [vm_compute; reflexivity|]. apply (exploit_recovers demo_kernel demo_env ∅).
  - intros i Hi. unfold SECRET_LENGTH in Hi. unfold letter, MIN_CHOICE, MAX_CHOICE, demo_kernel. do 5 (destruct i as [|i]; [cbn; lia|]). lia.
  - intros t k. unfold demo_env. cbn [duration]. lia.
  - intros i n Hi. exists (3 * n + 2)%nat. split; [lia|]. split; [|unfold fast_hit, demo_env; cbn; lia].
    unfold demo_env. cbn [transient]. apply Nat.eqb_eq. rewrite Nat.add_comm, Nat.mul_comm. by rewrite Nat.Div0.mod_add.
Defined.

(** The same for recover_protected_local_secret.c if the variable does not select a letter where the handler resumes. *)
Theorem protected_recovers env c :
  (forall t, slow_miss 200 (env t)) -> (forall t, ~ (MIN_CHOICE <= stale (env t) < MAX_CHOICE)) ->
  (forall fuel out, Protected.protected_main fuel env c = Ok out -> out = [67; 65; 67; 72; 69; 10]) /\
  ((forall i n, (i < SECRET_LENGTH)%nat -> exists m, (n <= m)%nat /\ lucky 200 env (fun i => nth i Protected.SECRET 0) m i) ->
   exists F, forall fuel, (F <= fuel)%nat -> Protected.protected_main fuel env c = Ok [67; 65; 67; 72; 69; 10]).
Proof.
  intros Hm Hst. set (secret := fun i => nth i Protected.SECRET 0).
  assert (forall i, (i < SECRET_LENGTH)%nat -> letter (secret i)) as Hk.
  { intros i Hi. unfold SECRET_LENGTH in Hi. unfold letter, MIN_CHOICE, MAX_CHOICE, secret. do 5 (destruct i as [|i]; [cbn; lia|]). lia. }
  assert (forall t i c p, MIN_CHOICE <= p < MAX_CHOICE ->
    p ∈ Protected.protected_do_access (env t) i c <-> p ∈ c \/ (transient (env t) = true /\ p = secret i)) as Ha.
  { intros t i c0 p Hp. assert (p <> stale (env t)) by (intros ->; by apply (Hst t)).
    unfold Protected.protected_do_access, force_read. fold (secret i). destruct (transient (env t)); set_solver. }
  split.
  - intros fuel out. by apply (recover_loop_safe 200 _ env secret Hm Hk Ha), all_indices.
  - intros Hfair. by apply (recover_loop_ends 200 _ env secret Hm Hk Ha); [apply all_indices|].
Qed.

(** ** One guess per byte *)

(** An attempt without interruptions. *)
Definition quiet (a : attempt) : Prop := slow_miss 200 a /\ forall k, fast_hit 200 a k.

Lemma quiet_guess a lo n c q : quiet a -> lo <= q < lo + Z.of_nat n ->
  (guess_accessed_page 200 a lo n (force_read (flush_all_pages lo n c) q, 0%nat)).1 = q.
Proof.
  intros [Hm Hh] Hq. apply (guess_page 200 a Hm lo n _ 0 q); [done|unfold force_read; set_solver| |apply Hh].
  intros p Hp Hne. unfold force_read. rewrite elem_of_union, elem_of_singleton, flush_all_pages_spec. naive_solver.
Qed.

(** index_guesser.c finds the page that was accessed. *)
Theorem index_guesser_finds a c : quiet a -> IndexGuesser.index_guesser_main a c = Some 24.
Proof.
  intros Ha. unfold IndexGuesser.index_guesser_main, IndexGuesser.index_do_access.
  pose proof (quiet_guess a IndexGuesser.first_index IndexGuesser.index_count c 24 Ha ltac:(done)) as H.
  destruct (guess_accessed_page _ _ _ _ _) as [g c']. cbn [fst] in H. by subst g.
Qed.

(** recover_local_secret.c prints the secret. *)
Theorem local_secret_recovered env c : (forall i, quiet (env i)) -> Local.local_main env c = [67; 76; 79; 67; 75; 10].
Proof.
  intros Ha. assert (forall idx c, Forall (fun i => i < SECRET_LENGTH)%nat idx -> Local.local_main_loop env idx c = (Local.access_secret <$> idx) ++ [10]) as H.
  { induction idx as [|i idx IH]; intros c0 Hidx; [done|]. inversion_clear Hidx as [|? ? Hi Hidx']. cbn [Local.local_main_loop]. unfold Local.local_do_access.
    assert (65 <= Local.access_secret i <= 90) as Hs.
    { unfold SECRET_LENGTH in Hi. do 5 (destruct i as [|i]; [cbn; lia|]). lia. }
    pose proof (quiet_guess (env i) MIN_CHOICE choices c0 (Local.access_secret i) (Ha i)) as Hg.
    destruct (guess_accessed_page _ _ _ _ _) as [g c']. cbn [fst] in Hg. rewrite Hg by (unfold MIN_CHOICE; change (Z.of_nat choices) with 27; lia).
    rewrite wrapU_small by lia. by rewrite IH. }
  apply H, all_indices.
Qed.

(** ** The averages of cache_timing.c *)

Lemma timing_loop_spec n env page : (forall i k h, 0 <= duration (env i) k h < 2 ^ 40) -> forall i c m h,
  0 <= h <= m -> m + 2 ^ 40 * Z.of_nat n < 2 ^ 64 ->
  let '(m', h') := CacheTiming.timing_loop n env page i c m h in 0 <= h' <= m' /\ m' < m + 2 ^ 40 * Z.of_nat n + 1.
Proof.
  intros Hd. induction n as [|n IH]; intros i c m h Hh Hm; cbn [CacheTiming.timing_loop]; [lia|]. unfold time_read.
  assert (page i ∉ flush_cache_line c (page i)) as Hout by (unfold flush_cache_line; set_solver).
  rewrite (bool_decide_false _ Hout), bool_decide_true by (unfold force_read; set_solver).
  pose proof (Hd i 0%nat false) as H1. pose proof (Hd i 1%nat true) as H2.
  destruct (Z.leb_spec (duration (env i) 1 true) (duration (env i) 0 false)) as [Hle|Hgt].
  - rewrite !wrapU_small by lia. specialize (IH (S i) (force_read (force_read (flush_cache_line c (page i)) (page i)) (page i))
      (m + duration (env i) 0 false) (h + duration (env i) 1 true) ltac:(lia) ltac:(lia)).
    destruct (CacheTiming.timing_loop _ _ _ _ _ _ _). lia.
  - specialize (IH (S i) (force_read (force_read (flush_cache_line c (page i)) (page i)) (page i)) m h ltac:(lia) ltac:(lia)).
    destruct (CacheTiming.timing_loop _ _ _ _ _ _ _). lia.
Qed.

(** If no read takes 2^40 cycles, the sums do not wrap around, and the average of
    the hits is not above the average of the misses. *)
Theorem cache_timing_separates env page c :
  (forall i k h, 0 <= duration (env i) k h < 2 ^ 40) ->
  let '(miss, hit) := CacheTiming.cache_timing_main env page c in 0 <= hit <= miss /\ miss <= 2 ^ 40.
Proof.
  intros Hd. unfold CacheTiming.cache_timing_main.
  pose proof (timing_loop_spec (Z.to_nat CacheTiming.REPEATS) env page Hd 0 c 0 0 ltac:(lia) ltac:(unfold CacheTiming.REPEATS; lia)) as H.
  destruct (CacheTiming.timing_loop _ _ _ _ _ _ _) as [m h]. unfold CacheTiming.REPEATS in *. destruct H as [H1 H2].
  split; [split; [apply Z.div_pos; lia|apply Z.div_le_mono; lia]|]. apply Z.div_le_upper_bound; lia.
Qed.
